(* ===== verification/_CoqProject ===== *)
-Q . S2P
Prelude.v
Jpeg.v
Media.v
Config.v
Events.v
MemberModel.v
InviteModel.v
MessageModel.v
ChatModel.v
PrivacyModel.v
Store.v
Wp.v
Rbac.v
Access.v
ChatRepo.v
ChatWp.v
PrivacyService.v
InviteRepo.v
MessageRepo.v
ChatCommands.v
InviteCommands.v
MembershipCommands.v
MessageCommands.v
Reactions.v
ReadReceipts.v
WsModel.v
MessageQueries.v
ChatQueries.v
Gateway.v
Delivery.v
WsCommands.v
GatewaySpec.v
DeliverySpec.v
WsSpec.v
Spec.v
MembershipInv.v
MembershipSpec.v
TableInv.v
ReactionInv.v
SystemInv.v
ChatSpec.v
InviteSpec.v
MessageSpec.v
ReactionSpec.v
ReadSpec.v
System.v
Histories.v
MembershipTheorems.v
MessageTheorems.v
ActivityTheorems.v
RealtimeTheorems.v
QuerySpec.v
QueryTheorems.v
AuthModel.v
OAuthProviders.v
AuthStore.v
AuthServices.v
AuthCommands.v
AuthAdmin.v
AuthWp.v
AuthSpec.v
AuthAccountSpec.v
AuthSystem.v
AuthTokens.v
AuthRanks.v
AuthTheorems.v
SignInSpec.v
ProfileModel.v
ProfileStore.v
ProfileCommands.v
Projections.v
ProfileSpec.v
ProfileInv.v
PendingSpec.v
ProfileSystem.v
ProjectionSpec.v
ProfileTheorems.v
Uploads.v
UploadSpec.v
Notifications.v
