(* ===== verification/Prelude.v ===== *)
(** * Verification of the messenger backend

    The program is a FastAPI application ([src/app]) on PostgreSQL, Redis and
    Kafka, made of modules that share nothing but events: [auth] (accounts,
    sessions, tokens, roles), [profiles] (profiles, photos, contacts, block lists,
    privacy settings), [chats] (chats, members, messages, reactions, invite
    links, and the delivery of events over websockets), [notifications], and the
    common [core]. A request is a command object; its handler reads and writes
    through repositories in one database transaction, registers domain events
    that are stored in the outbox table in the same transaction, and commits.
    Debezium relays the outbox to Kafka, whose consumers route events to
    websocket gateways and keep the chat module's copies of profile data.

    ** How the program is modelled

    A table is a finite map keyed by its primary key or unique constraint. A
    module's state is a [world] record: what the open transaction sees, what is
    committed, and what a rollback does not undo - Redis, files, mails and the
    oracles for the clock and for random identifiers, each indexed by the number
    of reads made, so that two [now_utc()] of one handler may differ. A handler
    is a program of a state and error monad ([Store.M], [AuthStore.A],
    [ProfileStore.P], [Uploads.U], [Notifications.N]), written statement by statement in the order of the
    source, every guard and error included; an exception carries its class and
    fields, and [Config], [AuthModel] and [ProfileModel] give each class its
    status and code. Strings whose characters matter are lists of code points;
    integers are [Z], since Python's do not overflow, and the width of a column
    matters only where it is stated. Weakest preconditions ([Wp], [AuthWp],
    [ProfileSpec], [UploadSpec]) execute a handler symbolically; the computations that leave
    the tables alone are recognised by type classes.

    ** Parts

    - Domain of the chats. [Config], [Events], [MemberModel],
      [InviteModel], [MessageModel], [ChatModel] and [PrivacyModel] are the
      entities of [chats/models] with their methods; [Store] the tables;
      [Access] is [services/access.py] against the interface [Rbac.RBACManager],
      which [Rbac] also implements; [ChatRepo], [InviteRepo], [MessageRepo],
      [PrivacyService], [Reactions] and [ReadReceipts] the repositories and
      services; [ChatCommands], [InviteCommands], [MembershipCommands],
      [MessageCommands] the handlers of [chats/commands]; [MessageQueries] and
      [ChatQueries] those of [chats/queries] with the DTOs they answer.
    - Files. [Jpeg] and [Media] are [core/services/media] (the removal of
      metadata, the reading of ffprobe's output, the rounds of ffmpeg);
      [Uploads] is [core/services/storage] with the attachment and avatar
      pipelines of the chat module, over a store that clients write to as well.
    - Realtime layer. [WsModel] is its texts and data, [Gateway]
      is [core/websocket/manager.py], [Delivery] is
      [chats/services/delivery_router.py] with its consumer and the reaction
      queue, [WsCommands] what a client sends.
    - Accounts. [AuthModel], [AuthStore], [AuthServices], [OAuthProviders],
      [AuthCommands] and [AuthAdmin] are [auth/models], [auth/repositories],
      [auth/services] and [auth/commands].
    - Profiles. [ProfileModel], [ProfileStore] and [ProfileCommands] are
      [profiles/models], [profiles/repositories] with [profiles/services], and
      [profiles/commands], [profiles/queries] and the consumer of account
      events; [Projections] is the chat module's side: the four consumers and
      the handlers that keep its copies.
    - Notifications. [Notifications] is [notifications]: devices, stored
      notifications and the cache of their unread count, the push through
      Firebase, the way from the router's offline signal to the task that
      notifies each recipient; and [core/services/idempotency.py].

    ** What is shown

    - A specification of the chat module as guarded atomic changes of its tables
      ([Spec], [TableInv]); every handler refines it ([MembershipSpec],
      [ChatSpec], [InviteSpec], [MessageSpec], [ReactionSpec], [ReadSpec]), each
      change keeps the invariant ([MembershipInv], [TableInv], [ReactionInv],
      [SystemInv]), and so every history of requests and worker turns does
      ([System], [Histories]): one owner per group, counters equal to numbers of
      rows, message numbers without gaps or repeats, live pins, counted
      reactions, limits of invite links, coherent join requests; [System] also has
      what no request takes back.
    - Single handlers and decisions: [MembershipTheorems],
      [MessageTheorems], [ActivityTheorems] (with the queue of read cursors:
      none lost, each delivered).
    - Realtime ([GatewaySpec], [DeliverySpec], [WsSpec], [RealtimeTheorems]): a
      fan-out writes each online member's gateway exactly one entry for them, the
      registry of a gateway is consistent, a message sent reaches the queue of
      every connection of a member that has room, and a replay has no gaps.
    - What clients read ([QuerySpec], [QueryTheorems]): only members of a chat
      are given its messages (but for what a listed message answers or forwards),
      pages followed from cursor to cursor make up the whole list, and no
      answer holds the photo of a user who hides it from the caller.
    - Files ([Jpeg], [Media], [UploadSpec]): exactly the segments with metadata
      leave a JPEG; a probe that succeeds has sane numbers; what is published is
      what was checked, whatever clients put in between; every confirmed upload
      is decided; a plan is accepted exactly when its files fit one message; an
      avatar is replaced as a whole; and every history of uploads keeps the
      invariant of the chat module's tables.
    - Notifications: each signal that reached the queue notifies each recipient
      once, however often it is repeated; no answered count of unread
      notifications holds one marked before; registrations keep the constraints
      of devices; while its lock lasts an idempotent request excludes the others
      with its key, and one that starts after a result is stored answers with a
      stored result and runs nothing.
    - Accounts ([AuthSpec], [AuthAccountSpec], [AuthSystem], [AuthTokens],
      [AuthRanks], [AuthTheorems], [SignInSpec]): the tables stay sound under any
      history, a refresh token is used once, a reset or deletion revokes tokens
      (and when that is forgotten), nobody makes, changes, gives or takes a role
      at or above their level but by taking permissions from it, and what each way to sign in rests on.
    - Profiles ([ProfileInv], [PendingSpec], [ProfileSystem],
      [ProfileTheorems]): mutual flags, galleries, fresh block lists, the daily
      quota, the privacy decision against its owner-by-owner reading, and the
      end of the resolution of waiting contacts. [ProjectionSpec] composes the
      two modules: after any history of profile requests and any complete
      delivery of the outbox the copies agree with their owner, and never reveal
      more than the owner allows.

    ** Bounds

    Loops without a structural measure take fuel, and theorems show that the
    fuel used is enough: the pages of a fan-out one more than the members
    ([delivery_pages]), a claim of stuck stream entries one more than the pending
    ones ([claim_rounds]), a replay more than the messages of the chat
    ([catch_up]), the resolution of waiting contacts one more than the rows that
    wait ([resolve_pending]), the scan of a JPEG and the cutting of a file into
    chunks or of tokens into messages no more than the length of what is scanned
    or cut, each turn consuming some of it ([iterate_total], [read_chunks_iter],
    [token_chunks_exact]).

    ** Assumptions and parameters

    Packages outside the source are type classes with the laws relied on:
    password hashing ([HashContext]), token signing ([JWTCodec]), [Hashlib],
    user-agent parsing ([UserAgents]), [Httpx], the keyed hash of addresses
    ([Hasher]), image decoding ([Imaging], [ImageTools]), the entity tags and
    URLs of the object storage ([S3] with [S3Laws]), [Ffprobe], [Ffmpeg], the
    full-text search of PostgreSQL ([TextSearch]) and [Firebase];
    [AuthTheorems], [ProfileTheorems], [QueryTheorems], [UploadSpec] and
    [Notifications] hold concrete instances. Floats are the rationals they stand
    for. The relay and Kafka are the
    hypotheses of [ProjectionSpec.reads]: messages of one key are delivered in
    the order they were committed, every message at least once, and any part of
    a partition again. Requests run one after the other, each transaction alone:
    row locks have no effect then and are dropped, and so are the races they
    prevent; the exceptions are the storage, where clients put objects between
    any two requests, the cached count of unread notifications and the
    idempotent requests, whose steps interleave. A monotonic instant is a number of microseconds; Redis keeps time
    by the application's clock for accounts and profiles, while the gateways'
    keys may vanish between any two steps; streams are not trimmed. A routing
    reads one snapshot of the tables. Row ids of one module come from one
    counter. A violated constraint is reported by its name. [str.lower] is that of ASCII. The guard of the consumers remembers an
    event for seven days, taken to exceed the delay of a repeated delivery.

    ** Not modelled

    Request schemas, HTTP routes and dependency wiring; the listings of
    accounts, profiles and notifications with their filters
    ([core/db/convertor.py]) and the cache of listings; presigned download URLs;
    the floating-point thumbhash; logging and metrics; calls
    ([livekit_service.py]); the clean-up tasks, migrations, load tests and the
    relay. *)
#[export] Set Warnings "-clear-no-such-hyp".
From stdpp Require Export prelude gmap strings list fin_maps sorting numbers.
From Stdlib Require Export ZArith Lia.

#[global] Open Scope Z_scope.

(** ** Identifiers and instants

    [UUID]s (column type [SAUUID]) and user ids ([BigInteger]) are integers;
    a [datetime] is the number of microseconds since the Unix epoch (UTC). *)
Abbreviation UUID := Z (only parsing).
Abbreviation user_id_t := Z (only parsing).
Abbreviation datetime := Z (only parsing).

(** [timedelta(seconds=n)] *)
Definition seconds (n : Z) : Z := n * 1000000.

(** ** Python strings

    A [str] whose length or characters matter is the list of its code points;
    keys and enum values of the program, which are ASCII literals, are
    [string]. [u8] reads a literal of this file (UTF-8 bytes) as code points. *)
Abbreviation text := (list Z) (only parsing).

Fixpoint utf8_decode (s : list Z) : text :=
  match s with
  | [] => []
  | b0 :: t0 =>
    if b0 <? 128 then b0 :: utf8_decode t0
    else match t0 with
         | [] => []
         | b1 :: t1 =>
           if b0 <? 224 then (b0 - 192) * 64 + (b1 - 128) :: utf8_decode t1
           else match t1 with
                | [] => []
                | b2 :: t2 =>
                  if b0 <? 240
                  then ((b0 - 224) * 64 + (b1 - 128)) * 64 + (b2 - 128) :: utf8_decode t2
                  else match t2 with
                       | [] => []
                       | b3 :: t3 =>
                         (((b0 - 240) * 64 + (b1 - 128)) * 64 + (b2 - 128)) * 64 + (b3 - 128)
                           :: utf8_decode t3
                       end
                end
         end
  end.

Fixpoint bytes_of_string (s : string) : list Z :=
  match s with
  | EmptyString => []
  | String c s' => Z.of_N (Ascii.N_of_ascii c) :: bytes_of_string s'
  end.

Definition u8 (s : string) : text := utf8_decode (bytes_of_string s).

(** [len(s)] *)
Definition len {A} (l : list A) : Z := Z.of_nat (length l).

(** [str.isspace] of one code point: Unicode White_Space or bidirectional
    class WS, B or S, as [str.strip()] uses it. *)
Definition is_space (c : Z) : bool :=
  ((9 <=? c) && (c <=? 13)) || ((28 <=? c) && (c <=? 32)) || (c =? 133) || (c =? 160)
  || (c =? 5760) || ((8192 <=? c) && (c <=? 8202)) || (c =? 8232) || (c =? 8233)
  || (c =? 8239) || (c =? 8287) || (c =? 12288).

Fixpoint lstrip (s : text) : text :=
  match s with
  | [] => []
  | c :: s' => if is_space c then lstrip s' else s
  end.

(** [str.strip()] *)
Definition strip (s : text) : text := reverse (lstrip (reverse (lstrip s))).

(** [str.removeprefix] for a one-character prefix *)
Definition removeprefix (p : Z) (s : text) : text :=
  match s with
  | c :: s' => if c =? p then s' else s
  | [] => []
  end.

(** [str.lower()] on ASCII letters; other code points are left alone, which
    is what [lower] does to every string the program applies it to after the
    username pattern has matched. *)
Definition lower_char (c : Z) : Z := if (65 <=? c) && (c <=? 90) then c + 32 else c.
Definition lower (s : text) : text := lower_char <$> s.

(** Lexicographic order of code points: Python's [<=] on [str]. *)
Fixpoint text_leb (a b : text) : bool :=
  match a, b with
  | [], _ => true
  | _ :: _, [] => false
  | x :: a', y :: b' => (x <? y) || ((x =? y) && text_leb a' b')
  end.
Definition text_le (a b : text) : Prop := text_leb a b = true.
#[export] Instance text_le_dec : RelDecision text_le.
Proof. intros a b. unfold text_le. apply _. Defined.
Definition sorted_texts (l : list text) : list text := merge_sort text_le l.

(** [s or None] for an optional string: the empty string becomes [None]. *)
Definition or_none (s : option text) : option text :=
  match s with
  | Some [] => None
  | _ => s
  end.

(** ** Truthiness *)
Definition truthy_text (s : option text) : bool :=
  match s with
  | Some (_ :: _) => true
  | _ => false
  end.

Definition is_some {A} (o : option A) : bool :=
  match o with Some _ => true | None => false end.
Definition is_none {A} (o : option A) : bool := negb (is_some o).

(** ** Results: a Python call returns a value or raises *)
Inductive result (E A : Type) : Type :=
| Ok (a : A)
| Err (e : E).
Arguments Ok {E A} _.
Arguments Err {E A} _.

#[export] Instance result_ret E : MRet (result E) := λ A a, Ok a.
#[export] Instance result_bind E : MBind (result E) := λ A B k m,
  match m with Ok a => k a | Err e => Err e end.

(** [if bad: raise e] *)
Definition raise_if {E} (bad : bool) (e : E) : result E unit :=
  if bad then Err e else Ok tt.

Lemma result_bind_Ok {E A B} (m : result E A) (k : A → result E B) b :
  m ≫= k = Ok b ↔ ∃ a, m = Ok a ∧ k a = Ok b.
Proof. destruct m; simpl; naive_solver. Qed.

Lemma raise_if_Ok {E} bad (e : E) u : raise_if bad e = Ok u ↔ bad = false.
Proof. destruct u, bad; simpl; naive_solver. Qed.

(** ** Record update

    [r <| f := v |>] is [r] with field [f] replaced. A record declares how it
    is rebuilt from its projections ([Settable]); the setter of a projection is
    found by abstracting that projection in the rebuilt record. *)
Class Settable (R : Type) := rebuild : R → R.
Class Setter {R T : Type} (proj : R → T) := modify_field : (T → T) → R → R.
Arguments modify_field {R T} proj {_} _ _.
#[global] Typeclasses Opaque Settable Setter.

Ltac solve_setter :=
  lazymatch goal with
  | |- @Setter ?R ?T ?proj =>
    let inst := constr:(_ : Settable R) in
    let f := fresh "f" in
    let r := fresh "r" in
    intros f r;
    let whole := eval red in (inst r) in
    let abs := eval pattern (proj r) in whole in
    lazymatch abs with
    | ?h _ => let t := eval cbv beta in (h (f (proj r))) in exact t
    end
  end.
#[export] Hint Extern 1 (Setter _) => solve_setter : typeclass_instances.

Declare Scope record_scope.
Delimit Scope record_scope with record.
#[global] Open Scope record_scope.
Notation "r <| f := v |>" := (modify_field f (λ _, v) r)
  (at level 1, f at next level, left associativity) : record_scope.
Notation "r <| f '::=' g |>" := (modify_field f g r)
  (at level 1, f at next level, left associativity) : record_scope.

(** ** Lists *)

(** [list(dict.fromkeys(l))]: the distinct elements in order of first
    occurrence. *)
Fixpoint fromkeys {A} `{EqDecision A} (l : list A) : list A :=
  match l with
  | [] => []
  | x :: l' => x :: filter (λ y, y ≠ x) (fromkeys l')
  end.

(** [l.remove(x)] when [x in l]: the first occurrence is dropped. *)
Fixpoint remove_first {A} `{EqDecision A} (x : A) (l : list A) : list A :=
  match l with
  | [] => []
  | y :: l' => if decide (y = x) then l' else y :: remove_first x l'
  end.

Section list_lemmas.
Context {A : Type} `{EqDecision A}.
Implicit Types (x y : A) (l : list A).

Lemma elem_of_fromkeys x l : x ∈ fromkeys l ↔ x ∈ l.
Proof.
  induction l as [|y l IH]; simpl; [done|].
  rewrite !elem_of_cons, list_elem_of_filter, IH.
  destruct (decide (x = y)); naive_solver.
Qed.

Lemma NoDup_fromkeys l : NoDup (fromkeys l).
Proof.
  induction l as [|y l IH]; simpl; constructor.
  - rewrite list_elem_of_filter. naive_solver.
  - by apply list.NoDup_filter.
Qed.

Lemma fromkeys_NoDup l : NoDup l → fromkeys l = l.
Proof.
  induction 1 as [|y l Hy Hl IH]; simpl; [done|]. rewrite IH. f_equal.
  clear IH Hl. induction l as [|z l IH]; [done|].
  apply not_elem_of_cons in Hy as [? ?].
  rewrite filter_cons_True by done. f_equal. auto.
Qed.

Lemma length_remove_first x l :
  x ∈ l → length l = S (length (remove_first x l)).
Proof.
  induction l as [|y l IH]; simpl; [by intros ?%not_elem_of_nil|].
  rewrite elem_of_cons. case_decide; simpl; [done|]. intros [->|?]; naive_solver.
Qed.

Lemma remove_first_subset x y l : y ∈ remove_first x l → y ∈ l.
Proof.
  induction l as [|z l IH]; simpl; [done|]. case_decide; rewrite !elem_of_cons; naive_solver.
Qed.

Lemma NoDup_remove_first x l : NoDup l → NoDup (remove_first x l).
Proof.
  induction 1; simpl; [constructor|]. case_decide; [done|]. constructor; [|done].
  intros ?%remove_first_subset. done.
Qed.

Lemma not_elem_of_remove_first x l : NoDup l → x ∉ remove_first x l.
Proof.
  induction 1; simpl; [apply not_elem_of_nil|]. case_decide; subst; [done|].
  rewrite elem_of_cons. naive_solver.
Qed.
End list_lemmas.

(** [forallb]/[existsb] as used for Python's [all(...)] and [any(...)] *)
Lemma forallb_spec {A} (f : A → bool) (l : list A) :
  forallb f l = true ↔ ∀ x, x ∈ l → f x = true.
Proof. rewrite forallb_forall. by setoid_rewrite list_elem_of_In. Qed.

(** ** Counting the rows of a table that satisfy a condition

    [SELECT count( * ) ... WHERE P] over a table held as a finite map. *)
Definition count_where {K V} `{Countable K} (P : K * V → Prop)
  `{∀ kv, Decision (P kv)} (m : gmap K V) : Z :=
  Z.of_nat (size (filter P m)).

Section count_where.
Context {K V : Type} `{Countable K} (P : K * V → Prop) `{∀ kv, Decision (P kv)}.
Implicit Types m : gmap K V.

Lemma count_where_nonneg m : 0 ≤ count_where P m.
Proof. unfold count_where. lia. Qed.

Lemma count_where_empty : count_where P ∅ = 0.
Proof. unfold count_where. by rewrite map_filter_empty, map_size_empty. Qed.

Lemma count_where_insert_in m k v :
  m !! k = None → P (k, v) → count_where P (<[k := v]> m) = count_where P m + 1.
Proof.
  intros Hk HP. unfold count_where.
  rewrite map_filter_insert_True by done.
  rewrite map_size_insert_None; [lia|]. apply map_lookup_filter_None. naive_solver.
Qed.

Lemma count_where_insert_out m k v :
  (∀ v', m !! k = Some v' → ¬ P (k, v')) → ¬ P (k, v) →
  count_where P (<[k := v]> m) = count_where P m.
Proof. intros Hk HP. unfold count_where. by rewrite map_filter_insert_not'. Qed.

Lemma count_where_update m k v v' :
  m !! k = Some v' → (P (k, v) ↔ P (k, v')) →
  count_where P (<[k := v]> m) = count_where P m.
Proof.
  intros Hk HP. destruct (decide (P (k, v))) as [Hv|Hv].
  - unfold count_where. rewrite map_filter_insert_True by done.
    rewrite map_size_insert_Some; [done|]. exists v'.
    apply map_lookup_filter_Some. naive_solver.
  - apply count_where_insert_out; naive_solver.
Qed.

Lemma count_where_insert_le m k v : count_where P (<[k := v]> m) ≤ count_where P m + 1.
Proof.
  unfold count_where. destruct (decide (P (k, v))) as [Hv|Hv].
  - rewrite map_filter_insert_True by done.
    rewrite map_size_insert. case_match; simpl; lia.
  - rewrite map_filter_insert_False by done.
    assert (size (filter P (delete k m)) ≤ size (filter P m))%nat; [|lia].
    apply map_subseteq_size, map_filter_subseteq_mono, delete_subseteq.
Qed.

Lemma count_where_insert_not m k v : ¬ P (k, v) → count_where P (<[k := v]> m) ≤ count_where P m.
Proof.
  intros Hv. unfold count_where. rewrite map_filter_insert_False by done.
  apply Nat2Z.inj_le, map_subseteq_size, map_filter_subseteq_mono, delete_subseteq.
Qed.

(** a row rewritten without meeting the condition anew *)
Lemma count_where_update_le m k v v' :
  m !! k = Some v' → (P (k, v) → P (k, v')) → count_where P (<[k := v]> m) ≤ count_where P m.
Proof.
  intros Hk Hi. unfold count_where. apply Nat2Z.inj_le.
  destruct (decide (P (k, v))) as [Hv|Hv].
  - rewrite map_filter_insert_True by done. rewrite map_size_insert_Some; [done|].
    exists v'. apply map_lookup_filter_Some. auto.
  - rewrite map_filter_insert_False by done.
    apply map_subseteq_size, map_filter_subseteq_mono, delete_subseteq.
Qed.

Lemma count_where_delete_in m k v :
  m !! k = Some v → P (k, v) → count_where P (delete k m) = count_where P m - 1.
Proof.
  intros Hk HP. unfold count_where. rewrite map_filter_delete.
  assert (filter P m !! k = Some v) as Hf by (by apply map_lookup_filter_Some).
  rewrite map_size_delete_Some by done.
  assert (size (filter P m) ≠ 0%nat); [|lia].
  intros Hsz%map_size_empty_inv. by rewrite Hsz, lookup_empty in Hf.
Qed.

Lemma count_where_delete_out m k :
  (∀ v, m !! k = Some v → ¬ P (k, v)) → count_where P (delete k m) = count_where P m.
Proof.
  intros Hk. unfold count_where. rewrite map_filter_delete, delete_id; [done|].
  apply map_lookup_filter_None. naive_solver.
Qed.

Lemma count_where_pos m k v : m !! k = Some v → P (k, v) → 0 < count_where P m.
Proof.
  intros Hk HP. pose proof (count_where_delete_in m k v Hk HP).
  pose proof (count_where_nonneg (delete k m)). lia.
Qed.

Lemma count_where_zero m :
  count_where P m = 0 ↔ ∀ k v, m !! k = Some v → ¬ P (k, v).
Proof.
  split.
  - intros Hz k v Hk HP. pose proof (count_where_pos m k v Hk HP). lia.
  - intros Hall. unfold count_where.
    rewrite (proj2 (map_empty_filter P m)); [by rewrite map_size_empty|].
    intros k v. auto.
Qed.

Lemma count_where_filter m (Q : K * V → Prop) `{∀ kv, Decision (Q kv)} :
  count_where P (filter Q m) ≤ count_where P m.
Proof.
  unfold count_where. apply Nat2Z.inj_le, map_subseteq_size.
  apply map_filter_subseteq_mono, map_filter_subseteq.
Qed.
End count_where.

(** counting is the length of the list of matching rows *)
Lemma count_where_list {K V} `{Countable K} (P : K * V → Prop) `{∀ kv, Decision (P kv)}
  (m : gmap K V) : count_where P m = len (filter P (map_to_list m)).
Proof.
  unfold count_where, len. f_equal. rewrite <- length_map_to_list. apply Permutation_length.
  apply NoDup_Permutation.
  - apply NoDup_map_to_list.
  - apply list.NoDup_filter, NoDup_map_to_list.
  - intros [k v]. rewrite list_elem_of_filter, !elem_of_map_to_list, map_lookup_filter_Some. naive_solver.
Qed.

Section count_where_two.
Context {K V W : Type} `{Countable K}.
Context (P : K * V → Prop) `{∀ kv, Decision (P kv)} (Q : K * W → Prop) `{∀ kv, Decision (Q kv)}.

Lemma count_where_fmap_le (f : W → V) (m : gmap K W) :
  (∀ k w, m !! k = Some w → P (k, f w) → Q (k, w)) →
  count_where P (f <$> m) ≤ count_where Q m.
Proof.
  intros Hi. unfold count_where. rewrite map_filter_fmap, map_size_fmap.
  apply Nat2Z.inj_le, map_subseteq_size, map_filter_subseteq_ext. exact Hi.
Qed.
End count_where_two.

Lemma count_where_ext {K V} `{Countable K} (P Q : K * V → Prop)
  `{∀ kv, Decision (P kv), ∀ kv, Decision (Q kv)} (m : gmap K V) :
  (∀ k v, m !! k = Some v → P (k, v) ↔ Q (k, v)) → count_where P m = count_where Q m.
Proof. intros Hpq. unfold count_where. by rewrite (proj1 (map_filter_ext P Q m) Hpq). Qed.

(** ** The first row of a table that satisfies a condition *)
Definition first_row {K V} `{Countable K} (P : K → V → bool) (m : gmap K V) : option V :=
  '(_, (_, v)) ← list_find (λ kv, P kv.1 kv.2 = true) (map_to_list m);
  Some v.

Section first_row.
Context {K V : Type} `{Countable K} (P : K → V → bool) (m : gmap K V).

Lemma first_row_Some v : first_row P m = Some v → ∃ k, m !! k = Some v ∧ P k v = true.
Proof.
  unfold first_row. intros ([i [k v']] & Hf & [= <-])%bind_Some.
  apply list_find_Some in Hf as (Hi & HP & _). exists k. split; [|done].
  by apply elem_of_map_to_list, list_elem_of_lookup_2 with i.
Qed.

Lemma first_row_None : first_row P m = None ↔ ∀ k v, m !! k = Some v → P k v = false.
Proof.
  unfold first_row. split.
  - intros Hf k v Hk. destruct (P k v) eqn:HP; [|done]. exfalso.
    destruct (list_find _ _) as [[i [k' v']]|] eqn:Hl; [done|].
    apply list_find_None in Hl. rewrite Forall_forall in Hl.
    apply (Hl (k, v)); [by apply list_elem_of_In, elem_of_map_to_list|done].
  - intros Hall. apply bind_None. left. apply list_find_None, Forall_forall.
    intros [k v] Hkv%list_elem_of_In%elem_of_map_to_list. simpl. by rewrite (Hall k v Hkv).
Qed.
End first_row.

(** ** [{k: f(k) for k in keys if f(k) is not None}] *)
Definition dict_of {K V} `{Countable K} (f : K → option V) (keys : gset K) : gmap K V :=
  map_imap (λ k _, f k) (gset_to_gmap tt keys).

Lemma lookup_dict_of {K V} `{Countable K} (f : K → option V) (keys : gset K) k :
  dict_of f keys !! k = if decide (k ∈ keys) then f k else None.
Proof.
  unfold dict_of. rewrite map_lookup_imap. case_decide as Hk.
  - by rewrite (proj2 (lookup_gset_to_gmap_Some tt keys k tt)).
  - by rewrite (proj2 (lookup_gset_to_gmap_None tt keys k)).
Qed.

(** ** Automation *)
Create HintDb msgr discriminated.
#[export] Hint Resolve NoDup_fromkeys NoDup_remove_first count_where_nonneg : msgr.
Create Rewrite HintDb msgr.
#[export] Hint Rewrite @elem_of_fromkeys @count_where_empty : msgr.

(** Split boolean hypotheses into their propositional parts. *)
Ltac bool_simpl :=
  repeat match goal with
  | H : _ && _ = true |- _ => apply andb_true_iff in H as [? ?]
  | H : _ || _ = false |- _ => apply orb_false_iff in H as [? ?]
  | H : negb _ = true |- _ => apply negb_true_iff in H
  | H : negb _ = false |- _ => apply negb_false_iff in H
  | H : (_ <=? _) = true |- _ => apply Z.leb_le in H
  | H : (_ <=? _) = false |- _ => apply Z.leb_gt in H
  | H : (_ <? _) = true |- _ => apply Z.ltb_lt in H
  | H : (_ <? _) = false |- _ => apply Z.ltb_ge in H
  | H : (_ =? _) = true |- _ => apply Z.eqb_eq in H
  | H : (_ =? _) = false |- _ => apply Z.eqb_neq in H
  | H : bool_decide _ = true |- _ => apply bool_decide_eq_true in H
  | H : bool_decide _ = false |- _ => apply bool_decide_eq_false in H
  end.

(** Invert a computation in [result] that returned. *)
Ltac result_inv H :=
  repeat match type of H with
  | _ ≫= _ = Ok _ =>
    let a := fresh "a" in let Ha := fresh "Ha" in
    apply result_bind_Ok in H as (a & Ha & H); try result_inv Ha
  | raise_if _ _ = Ok _ => apply raise_if_Ok in H
  | Ok _ = Ok _ => injection H as H
  | mret _ = Ok _ => injection H as H
  | Err _ = Ok _ => discriminate H
  end.

(** ** Lists sorted strictly *)
Lemma strictly_sorted_eq {A} (R : relation A) `{!Irreflexive R, !Transitive R} (l1 l2 : list A) :
  StronglySorted R l1 → StronglySorted R l2 → (∀ x, x ∈ l1 ↔ x ∈ l2) → l1 = l2.
Proof.
  intros H1. revert l2. induction H1 as [|x l1 H1 IH Hx]; intros l2 H2 Hin.
  - destruct l2 as [|y l2]; [done|]. exfalso. apply (not_elem_of_nil y), Hin. by left.
  - destruct H2 as [|y l2 H2 Hy].
    { exfalso. apply (not_elem_of_nil x), Hin. by left. }
    rewrite list.Forall_forall in Hx, Hy.
    assert (x = y) as <-.
    { assert (x ∈ y :: l2) as [?|Hxl]%elem_of_cons by (apply Hin; by left); [done|].
      assert (y ∈ x :: l1) as [?|Hyl]%elem_of_cons by (apply Hin; by left); [done|].
      exfalso. eapply (irreflexivity R x). transitivity y; auto. }
    f_equal. apply IH; [done|]. intros z. split; intros Hz.
    + assert (z ∈ x :: l2) as [->|?]%elem_of_cons by (apply Hin; by right); [|done].
      exfalso. by eapply (irreflexivity R x), Hx.
    + assert (z ∈ x :: l1) as [->|?]%elem_of_cons by (apply Hin; by right); [|done].
      exfalso. by eapply (irreflexivity R x), Hy.
Qed.

Lemma strictly_sorted_app {A} (R : relation A) (l1 l2 : list A) :
  StronglySorted R (l1 ++ l2) →
  StronglySorted R l1 ∧ StronglySorted R l2 ∧ ∀ a b, a ∈ l1 → b ∈ l2 → R a b.
Proof.
  induction l1 as [|x l1 IH]; cbn; intros Hs.
  - split_and!; [constructor|done|]. by intros a b Ha%elem_of_nil.
  - inversion Hs as [|?? Hs' Hall]; subst. destruct (IH Hs') as (H1 & H2 & H12).
    apply Forall_app in Hall as [Hl1 Hl2]. split_and!; [by constructor|done|].
    rewrite list.Forall_forall in Hl2. intros a b [->|Ha]%elem_of_cons Hb; auto.
Qed.

(** ** Pages

    A query sorted by a key with distinct values, read in pages that go on from
    the key of the last row. *)
Definition key_lt {A} (key : A → Z) (a b : A) : Prop := key a < key b.
#[export] Instance key_lt_irrefl {A} (key : A → Z) : Irreflexive (key_lt key).
Proof. intros a. unfold complement, key_lt. lia. Qed.
#[export] Instance key_lt_trans {A} (key : A → Z) : Transitive (key_lt key).
Proof. intros a b c. unfold key_lt. lia. Qed.

Lemma next_page {A} (key : A → Z) (rows : Z → list A) (P : A → Prop) (last : Z) (n : nat) (m : A) :
  (∀ k, StronglySorted (key_lt key) (rows k)) → (∀ k x, x ∈ rows k ↔ P x ∧ k < key x) →
  list.last (take n (rows last)) = Some m → rows (key m) = drop n (rows last).
Proof.
  intros Hsorted Hin Hm. pose proof (Hsorted last) as Hs.
  rewrite <- (take_drop n (rows last)) in Hs. apply strictly_sorted_app in Hs as (H1 & H2 & H12).
  apply (strictly_sorted_eq (key_lt key)); [apply Hsorted|done|].
  apply last_Some in Hm as (l & Hl). rewrite Hl in H1.
  apply strictly_sorted_app in H1 as (_ & _ & Hpre).
  assert (m ∈ take n (rows last)) as Hmin by (rewrite Hl; apply elem_of_app; right; by apply list_elem_of_singleton).
  assert (last < key m) as Hlast.
  { eapply (Hin last m), elem_of_sublist; [done|apply sublist_take]. }
  intros x. rewrite Hin. split.
  - intros [Hd Hlt]. assert (x ∈ rows last) as Hx by (apply Hin; split; [done|lia]).
    rewrite <- (take_drop n (rows last)) in Hx. apply elem_of_app in Hx as [Hx|]; [|done].
    exfalso. rewrite Hl in Hx. apply elem_of_app in Hx as [Hx|Hx].
    + pose proof (Hpre x m Hx ltac:(by left)) as H. unfold key_lt in H. lia.
    + apply list_elem_of_singleton in Hx. subst. lia.
  - intros Hx. assert (x ∈ rows last) as Hx'.
    { eapply elem_of_sublist; [done|apply sublist_drop]. }
    apply Hin in Hx' as [Hd _]. split; [done|]. by apply (H12 m x).
Qed.

(** Distinct keys make a sorted list strictly sorted. *)
Lemma sorted_strictly {A} (key : A → Z) (l : list A) :
  StronglySorted (λ a b, key a ≤ key b) l → NoDup (key <$> l) → StronglySorted (key_lt key) l.
Proof.
  induction 1 as [|m l Hs IH Hall]; intros Hnd; [constructor|].
  cbn in Hnd. apply list.NoDup_cons in Hnd as [Hout Hnd]. constructor; [by apply IH|].
  rewrite list.Forall_forall in Hall |- *. intros x Hx. pose proof (Hall x Hx) as Hle. unfold key_lt.
  assert (key m ≠ key x); [|cbn in Hle; lia]. intros E. apply Hout. rewrite E. by apply list_elem_of_fmap_2.
Qed.

(** ** Filters *)
Lemma filter_iff_in {A} (P Q : A → Prop) `{!∀ x, Decision (P x), !∀ x, Decision (Q x)} (l : list A) :
  (∀ x, x ∈ l → P x ↔ Q x) → filter P l = filter Q l.
Proof.
  induction l as [|x l IH]; intros Hiff; [done|]. rewrite !filter_cons.
  pose proof (Hiff x ltac:(by left)) as Hx. rewrite IH by (intros y Hy; apply Hiff; by right).
  destruct (decide (P x)), (decide (Q x)); tauto.
Qed.

Lemma filter_all {A} (P : A → Prop) `{!∀ x, Decision (P x)} (l : list A) : (∀ x, x ∈ l → P x) → filter P l = l.
Proof.
  induction l as [|x l IH]; intros Hall; [done|]. rewrite filter_cons, decide_True by (apply Hall; by left).
  rewrite IH; [done|]. intros y Hy. apply Hall. by right.
Qed.

Lemma filter_none {A} (P : A → Prop) `{!∀ x, Decision (P x)} (l : list A) : (∀ x, x ∈ l → ¬ P x) → filter P l = [].
Proof.
  induction l as [|x l IH]; intros Hnone; [done|]. rewrite filter_cons, decide_False by (apply Hnone; by left).
  apply IH. intros y Hy. apply Hnone. by right.
Qed.

Lemma sorted_filter_sublist {A} (R : relation A) (P : A → Prop) `{!∀ x, Decision (P x)} (l : list A) :
  StronglySorted R l → StronglySorted R (filter P l).
Proof.
  induction 1 as [|x l Hs IH Hx]; [constructor|]. rewrite filter_cons. destruct (decide _); [|done].
  constructor; [done|]. rewrite list.Forall_forall in Hx |- *. intros a Ha. apply Hx.
  by apply list_elem_of_filter in Ha as [_ ?].
Qed.
