(* ===== verification/Jpeg.v ===== *)
(** [app/core/services/media/jpeg.py]: a photo's metadata - EXIF with its place
    and camera, comments, vendor segments - is cut out of the bytes of a JPEG
    without decoding it. Bytes are integers, positions in the data are naturals;
    the two [while] loops iterate their bodies, which return or go on. *)
From S2P Require Import Prelude.

Abbreviation bytes := (list Z) (only parsing).

(** ** Loops *)

(** [fuel] turns of a loop whose body returns ([inl]) or goes on ([inr]) *)
Fixpoint iterate {S R : Type} (body : S → R + S) (fuel : nat) (s : S) : option R :=
  match fuel with
  | O => None
  | Datatypes.S fuel => match body s with inl r => Some r | inr s => iterate body fuel s end
  end.

(** a loop ends when every turn lowers a measure *)
Lemma iterate_total {S R} (body : S → R + S) (measure : S → nat) (P : S → Prop) fuel s :
  (∀ s s', P s → body s = inr s' → P s' ∧ (measure s' < measure s)%nat) →
  P s → (measure s < fuel)%nat → is_Some (iterate body fuel s).
Proof.
  intros Hdec. revert s. induction fuel as [|fuel IH]; intros s Hs Hm; [lia|]. cbn.
  destruct (body s) as [r|s'] eqn:E; [by eexists|].
  destruct (Hdec s s' Hs E). apply IH; [done|lia].
Qed.

(** ** The program *)
Definition SOI : bytes := [255; 216].
Definition EOI : Z := 217.
Definition SOS : Z := 218.
Definition APP0 : Z := 224.
Definition APP2 : Z := 226.
Definition APP14 : Z := 238.
Definition APP15 : Z := 239.
Definition COM : Z := 254.
Definition STANDALONE (marker : Z) : bool := (marker =? 1) || ((208 <=? marker) && (marker <? 216)).

(** [data[pos]], [data[first:last]] and [data.startswith(prefix, pos)] *)
Definition byte_at (data : bytes) (pos : nat) : Z := nth pos data 0.
Definition slice (data : bytes) (first last : nat) : bytes := take (last - first) (drop first data).
Fixpoint starts_with (prefix data : bytes) : bool :=
  match prefix, data with
  | [], _ => true
  | p :: prefix, b :: data => (p =? b) && starts_with prefix data
  | _ :: _, [] => false
  end.

Definition _keep (data : bytes) (marker : Z) (payload : nat) : bool :=
  if marker =? APP0 then starts_with (u8 "JFIF" ++ [0]) (drop payload data)
  else if marker =? APP2 then starts_with (u8 "ICC_PROFILE" ++ [0]) (drop payload data)
  else if marker =? APP14 then starts_with (u8 "Adobe") (drop payload data)
  else negb (((APP0 <=? marker) && (marker <=? APP15)) || (marker =? COM)).

(** [data.find(0xff, pos)], on the bytes from [pos] *)
Fixpoint find_ff (rest : bytes) (pos : nat) : option nat :=
  match rest with
  | [] => None
  | b :: rest => if b =? 255 then Some pos else find_ff rest (S pos)
  end.

(** one turn of the loop of [_entropy_end] *)
Definition entropy_turn (data : bytes) (pos : nat) : option nat + nat :=
  match find_ff (drop pos data) pos with
  | None => inl None
  | Some index =>
    if (length data <=? index + 1)%nat then inl None
    else
      let following := byte_at data (index + 1) in
      if (following =? 0) || ((208 <=? following) && (following <=? 215)) then inr (index + 2)%nat
      else inl (Some index)
  end.

Definition _entropy_end (data : bytes) (pos : nat) : option nat :=
  default None (iterate (entropy_turn data) (S (length data)) pos).

(** [while pos < size and data[pos] == 0xFF: pos += 1], on the bytes from [pos] *)
Fixpoint skip_ff (rest : bytes) (pos : nat) : nat :=
  match rest with
  | b :: rest => if b =? 255 then skip_ff rest (S pos) else pos
  | [] => pos
  end.

(** one turn of the loop of [strip_jpeg_metadata], over [out] and [pos] *)
Definition strip_turn (data : bytes) (s : bytes * nat) : option bytes + bytes * nat :=
  let '(out, pos) := s in
  let size := length data in
  if (size <=? pos)%nat then inl None
  else if negb (byte_at data pos =? 255) then inl None
  else
    let pos := skip_ff (drop pos data) pos in
    if (size <=? pos)%nat then inl None
    else
      let marker := byte_at data pos in
      let pos := S pos in
      if marker =? EOI then inl (Some (out ++ [255; 217]))
      else if STANDALONE marker then inr (out ++ [255; marker], pos)
      else if (size <? pos + 2)%nat then inl None
      else
        let n := byte_at data pos * 256 + byte_at data (pos + 1) in
        let stop := (pos + Z.to_nat n)%nat in
        if (n <? 2) || (size <? stop)%nat then inl None
        else
          let out := if _keep data marker (pos + 2) then out ++ [255; marker] ++ slice data pos stop else out in
          if marker =? SOS then
            match _entropy_end data stop with
            | None => inl None
            | Some scan_end => inr (out ++ slice data stop scan_end, scan_end)
            end
          else inr (out, stop).

Definition strip_jpeg_metadata (data : bytes) : option bytes :=
  if starts_with SOI data then default None (iterate (strip_turn data) (S (length data)) (SOI, 2%nat))
  else None.

(** ** What a JPEG stream is

    After the start come items, each behind one or more [0xFF]: a marker that
    stands alone, a segment with its two bytes of length, or a scan - a segment
    followed by entropy-coded bytes, in which [0xFF] only occurs escaped or in a
    restart marker; then the end marker, and anything. *)
Inductive item : Type :=
  | Standalone (m : Z)
  | Segment (m hi lo : Z) (payload : bytes)
  | Scan (hi lo : Z) (payload coded : bytes).

Definition escape (following : Z) : bool :=
  (following =? 0) || ((208 <=? following) && (following <=? 215)).

Inductive coded : bytes → Prop :=
  | coded_nil : coded []
  | coded_byte b l : b ≠ 255 → coded l → coded (b :: l)
  | coded_escape f l : escape f = true → coded l → coded (255 :: f :: l).

Definition item_bytes (i : item) : bytes :=
  match i with
  | Standalone m => [m]
  | Segment m hi lo p => m :: hi :: lo :: p
  | Scan hi lo p e => SOS :: hi :: lo :: p ++ e
  end.

Definition sized (hi lo : Z) (payload : bytes) : Prop := hi * 256 + lo = 2 + Z.of_nat (length payload).

Definition wf_item (i : item) : Prop :=
  match i with
  | Standalone m => STANDALONE m = true
  | Segment m hi lo p => STANDALONE m = false ∧ m ≠ EOI ∧ m ≠ SOS ∧ m ≠ 255 ∧ sized hi lo p
  | Scan hi lo p e => sized hi lo p ∧ coded e
  end.

(** where the entropy-coded bytes end *)
Definition ends_scan (t : bytes) : Prop := ∃ f u, t = 255 :: f :: u ∧ escape f = false.
Definition follows (i : item) (t : bytes) : Prop := match i with Scan _ _ _ _ => ends_scan t | _ => True end.

Inductive stream : bytes → list item → Prop :=
  | stream_end n t : stream (repeat 255 (S n) ++ EOI :: t) []
  | stream_item n i t items : wf_item i → follows i t → stream t items →
      stream (repeat 255 (S n) ++ item_bytes i ++ t) (i :: items).

(** the items of the picture itself, and the bytes of a list of items *)
Definition keep_segment (m : Z) (payload : bytes) : bool :=
  if m =? APP0 then starts_with (u8 "JFIF" ++ [0]) payload
  else if m =? APP2 then starts_with (u8 "ICC_PROFILE" ++ [0]) payload
  else if m =? APP14 then starts_with (u8 "Adobe") payload
  else negb (((APP0 <=? m) && (m <=? APP15)) || (m =? COM)).
Definition keep (i : item) : bool := match i with Segment m _ _ p => keep_segment m p | _ => true end.
Definition body (items : list item) : bytes := flat_map (λ i, 255 :: item_bytes i) items ++ [255; EOI].

(** ** Positions and what lies behind them *)
Lemma drop_here {A} (pre l : list A) : drop (length pre) (pre ++ l) = l.
Proof. by rewrite drop_app_length. Qed.
Lemma drop_after {A} (pre l : list A) n : drop (length pre + n) (pre ++ l) = drop n l.
Proof. by rewrite drop_app_add. Qed.
Lemma byte_after pre l n : byte_at (pre ++ l) (length pre + n) = nth n l 0.
Proof. unfold byte_at. rewrite app_nth2 by lia. f_equal. lia. Qed.

Lemma find_ff_none a pos : Forall (λ b, b ≠ 255) a → find_ff a pos = None.
Proof. intros Ha. revert pos. induction Ha; intros pos; cbn; [done|]. by destruct (Z.eqb_spec x 255). Qed.
Lemma find_ff_some a t pos : Forall (λ b, b ≠ 255) a → find_ff (a ++ 255 :: t) pos = Some (pos + length a)%nat.
Proof.
  intros Ha. revert pos. induction Ha as [|b a Hb _ IH]; intros pos; cbn; [f_equal; lia|].
  destruct (Z.eqb_spec b 255); [done|]. rewrite IH. f_equal. lia.
Qed.
Lemma first_ff rest : Forall (λ b, b ≠ 255) rest ∨ ∃ a t, rest = a ++ 255 :: t ∧ Forall (λ b, b ≠ 255) a.
Proof.
  induction rest as [|b rest IH]; [by left|]. destruct (Z.eq_dec b 255) as [->|Hb]; [right; by exists [], rest|].
  destruct IH as [?|(a & t & -> & Ha)]; [left; by constructor|]. right. exists (b :: a), t. by split; [|constructor].
Qed.

(** the length of the coded bytes a text begins with, when a marker ends them *)
Fixpoint scan_length (rest : bytes) : option nat :=
  match rest with
  | [] => None
  | b :: rest =>
    if b =? 255 then
      match rest with
      | [] => None
      | f :: rest => if escape f then (λ n, S (S n)) <$> scan_length rest else Some O
      end
    else S <$> scan_length rest
  end.

Lemma scan_length_plain a t : Forall (λ b, b ≠ 255) a →
  scan_length (a ++ t) = (λ n, (length a + n)%nat) <$> scan_length t.
Proof.
  induction 1 as [|b a Hb _ IH]; cbn [app length scan_length].
  - by destruct (scan_length t).
  - destruct (Z.eqb_spec b 255); [done|]. rewrite IH. by destruct (scan_length t).
Qed.

Lemma entropy_turn_none pre a : Forall (λ b, b ≠ 255) a → entropy_turn (pre ++ a) (length pre) = inl None.
Proof. intros Ha. unfold entropy_turn. by rewrite drop_here, find_ff_none. Qed.
Lemma entropy_turn_cut pre a : Forall (λ b, b ≠ 255) a →
  entropy_turn (pre ++ a ++ [255]) (length pre) = inl None.
Proof.
  intros Ha. unfold entropy_turn. rewrite drop_here, find_ff_some by done. rewrite !length_app. cbn.
  by destruct (Nat.leb_spec (length pre + (length a + 1)) (length pre + length a + 1)); [|lia].
Qed.
Lemma entropy_turn_ff pre a f u : Forall (λ b, b ≠ 255) a →
  entropy_turn (pre ++ a ++ 255 :: f :: u) (length pre) =
    if escape f then inr (length (pre ++ a ++ [255; f])) else inl (Some (length pre + length a)%nat).
Proof.
  intros Ha. unfold entropy_turn. rewrite drop_here, find_ff_some by done.
  rewrite !length_app. cbn [length].
  destruct (Nat.leb_spec (length pre + (length a + S (S (length u)))) (length pre + length a + 1)); [lia|].
  rewrite <- (Nat.add_assoc (length pre)), byte_after, app_nth2_plus. cbn [nth]. unfold escape.
  destruct ((f =? 0) || _); [|done]. f_equal. lia.
Qed.

Lemma entropy_iterate rest fuel pre : (length rest < fuel)%nat →
  iterate (entropy_turn (pre ++ rest)) fuel (length pre) =
    Some ((λ n, (length pre + n)%nat) <$> scan_length rest).
Proof.
  revert rest pre. induction fuel as [|fuel IH]; intros rest pre Hf; [lia|]. cbn [iterate].
  destruct (first_ff rest) as [Ha|(a & t & -> & Ha)].
  { rewrite entropy_turn_none by done. rewrite <- (app_nil_r rest), scan_length_plain by done. done. }
  rewrite scan_length_plain by done. destruct t as [|f u]; [by rewrite entropy_turn_cut|].
  rewrite entropy_turn_ff by done. cbn [scan_length Z.eqb Pos.eqb]. destruct (escape f).
  - replace (pre ++ a ++ 255 :: f :: u) with ((pre ++ a ++ [255; f]) ++ u) by (by rewrite <- !app_assoc).
    rewrite IH by (rewrite length_app in Hf; cbn in Hf; lia).
    f_equal. destruct (scan_length u) as [k|]; cbn; [|done]. f_equal. rewrite !length_app. cbn. lia.
  - cbn. do 2 f_equal. lia.
Qed.

Lemma entropy_end_spec pre rest :
  _entropy_end (pre ++ rest) (length pre) = (λ n, (length pre + n)%nat) <$> scan_length rest.
Proof. unfold _entropy_end. rewrite entropy_iterate; [done|]. rewrite length_app. lia. Qed.


Lemma scan_length_coded e t : coded e → ends_scan t → scan_length (e ++ t) = Some (length e).
Proof.
  intros He (f & u & -> & Hf). induction He as [|b e Hb _ IH|g e Hg _ IH]; cbn.
  - by rewrite Hf.
  - destruct (Z.eqb_spec b 255); [done|]. by rewrite IH.
  - by rewrite Hg, IH.
Qed.

Lemma scan_length_sound k rest n : (length rest < k)%nat → scan_length rest = Some n →
  ∃ e t, rest = e ++ t ∧ coded e ∧ ends_scan t ∧ n = length e.
Proof.
  revert rest n. induction k as [|k IH]; intros rest n Hk; [lia|].
  destruct rest as [|b rest]; cbn; [done|]. cbn in Hk. destruct (Z.eqb_spec b 255) as [->|Hb].
  - destruct rest as [|f u]; [done|]. destruct (escape f) eqn:Hf.
    + intros Hn. apply fmap_Some in Hn as (m & Hm & ->). apply IH in Hm as (e & t & -> & He & Ht & ->).
      2: { cbn in Hk. lia. }
      exists (255 :: f :: e), t. split_and!; [done|by apply coded_escape|done|done].
    + intros [= <-]. exists [], (255 :: f :: u). split_and!; [done|constructor|by exists f, u|done].
  - intros Hn. apply fmap_Some in Hn as (m & Hm & ->). apply IH in Hm as (e & t & -> & He & Ht & ->); [|lia].
    exists (b :: e), t. split_and!; [done|by apply coded_byte|done|done].
Qed.

Lemma scan_length_spec rest n : scan_length rest = Some n ↔
  ∃ e t, rest = e ++ t ∧ coded e ∧ ends_scan t ∧ n = length e.
Proof.
  split; [by apply (scan_length_sound (S (length rest))); lia|].
  intros (e & t & -> & He & Ht & ->). by apply scan_length_coded.
Qed.

(** ** One turn *)
Lemma slice_after pre l n k : slice (pre ++ l) (length pre + n) (length pre + k) = take (k - n) (drop n l).
Proof. unfold slice. rewrite drop_after. f_equal. lia. Qed.
Lemma slice_here pre l k : slice (pre ++ l) (length pre) (length pre + k) = take k l.
Proof. unfold slice. rewrite drop_here. f_equal. lia. Qed.
Lemma byte_here pre b l : byte_at (pre ++ b :: l) (length pre) = b.
Proof. rewrite <- (Nat.add_0_r (length pre)). by rewrite byte_after. Qed.
Lemma keep_after pre hi lo u m : _keep (pre ++ hi :: lo :: u) m (length pre + 2) = keep_segment m u.
Proof. unfold _keep. by rewrite drop_after. Qed.
Lemma entropy_end_after pre l n : (n ≤ length l)%nat →
  _entropy_end (pre ++ l) (length pre + n) = (λ k, (length pre + n + k)%nat) <$> scan_length (drop n l).
Proof.
  intros Hn. rewrite <- (take_drop n l) at 1. rewrite app_assoc.
  replace (length pre + n)%nat with (length (pre ++ take n l)) by (rewrite length_app, length_take; lia).
  apply entropy_end_spec.
Qed.

Lemma skip_ff_spec n m t pos : m ≠ 255 → skip_ff (repeat 255 n ++ m :: t) pos = (pos + n)%nat.
Proof.
  intros Hm. revert pos. induction n as [|n IH]; intros pos; cbn.
  - destruct (Z.eqb_spec m 255); [done|lia].
  - rewrite IH. lia.
Qed.

Lemma markers rest : (∃ n, rest = repeat 255 n) ∨ (∃ n m t, rest = repeat 255 n ++ m :: t ∧ m ≠ 255).
Proof.
  induction rest as [|b rest IH]; [left; by exists O|]. destruct (Z.eq_dec b 255) as [->|Hb].
  - destruct IH as [[n ->]|(n & m & t & -> & Hm)]; [left; by exists (S n)|right; by exists (S n), m, t].
  - right. by exists O, b, rest.
Qed.

(** the turn on what lies behind the marker *)
Definition after_marker (out : bytes) (pos : nat) (m : Z) (t : bytes) : option bytes + bytes * nat :=
  if m =? EOI then inl (Some (out ++ [255; 217]))
  else if STANDALONE m then inr (out ++ [255; m], pos)
  else match t with
       | hi :: lo :: u =>
         let n := hi * 256 + lo in
         if (n <? 2) || (length u <? Z.to_nat n - 2)%nat then inl None
         else
           let payload := take (Z.to_nat n - 2) u in
           let rest := drop (Z.to_nat n - 2) u in
           let out := if keep_segment m u then out ++ 255 :: m :: hi :: lo :: payload else out in
           let pos := (pos + Z.to_nat n)%nat in
           if m =? SOS then
             match scan_length rest with
             | None => inl None
             | Some k => inr (out ++ take k rest, (pos + k)%nat)
             end
           else inr (out, pos)
       | _ => inl None
       end.

Lemma turn_marker pre n m t out : m ≠ 255 →
  strip_turn (pre ++ repeat 255 (S n) ++ m :: t) (out, length pre) =
    after_marker out (length pre + S n + 1) m t.
Proof.
  intros Hm. unfold strip_turn, after_marker.
  set (data := pre ++ _). assert (Hlen : length data = (length pre + S n + 1 + length t)%nat)
    by (unfold data; rewrite !length_app, repeat_length; cbn; lia).
  destruct (Nat.leb_spec (length data) (length pre)) as [?|_]; [lia|].
  assert (Hat : byte_at data (length pre) = 255) by (unfold data; rewrite <- (Nat.add_0_r (length pre)), byte_after; done).
  rewrite Hat. cbn [Z.eqb Pos.eqb negb].
  assert (Hskip : skip_ff (drop (length pre) data) (length pre) = (length pre + S n)%nat)
    by (unfold data; rewrite drop_here; by apply skip_ff_spec).
  rewrite Hskip. destruct (Nat.leb_spec (length data) (length pre + S n)) as [?|_]; [lia|].
  set (pre' := pre ++ repeat 255 (S n) ++ [m]).
  assert (Hdata : data = pre' ++ t) by (unfold data, pre'; by rewrite <- !app_assoc).
  assert (Hpre : length pre' = (length pre + S n + 1)%nat) by (unfold pre'; rewrite !length_app, repeat_length; cbn; lia).
  assert (Hmark : byte_at data (length pre + S n) = m).
  { unfold data. rewrite byte_after. rewrite <- (repeat_length 255 (S n)) at 1. by rewrite nth_middle. }
  rewrite Hmark. replace (S (length pre + S n)) with (length pre') by lia.
  destruct (m =? EOI); [done|]. destruct (STANDALONE m); [by rewrite Hpre|].
  clearbody data pre'. subst data. rewrite Hpre in *. rewrite length_app, Hpre.
  destruct t as [|hi [|lo u]]; cbn [length].
  { by destruct (Nat.ltb_spec (length pre + S n + 1 + 0) (length pre + S n + 1 + 2)); [|lia]. }
  { by destruct (Nat.ltb_spec (length pre + S n + 1 + 1) (length pre + S n + 1 + 2)); [|lia]. }
  destruct (Nat.ltb_spec (length pre + S n + 1 + S (S (length u))) (length pre + S n + 1 + 2)); [lia|].
  rewrite <- Hpre, byte_after, byte_here. cbn [nth]. destruct (Z.ltb_spec (hi * 256 + lo) 2) as [?|Hn]; [done|].
  remember (Z.to_nat (hi * 256 + lo)) as k eqn:Hk. destruct k as [|[|j]]; [lia|lia|]. cbn [orb].
  rewrite keep_after, slice_here. cbn [Nat.sub]. rewrite Nat.sub_0_r.
  destruct (Nat.ltb_spec (length u) j) as [Hu|Hu].
  { by destruct (Nat.ltb_spec (length pre' + S (S (length u))) (length pre' + S (S j))); [|lia]. }
  destruct (Nat.ltb_spec (length pre' + S (S (length u))) (length pre' + S (S j))); [lia|].
  rewrite entropy_end_after by (cbn; lia). cbn [drop take]. destruct (m =? SOS); [|done].
  destruct (scan_length (drop j u)) as [e|]; cbn; [|done].
  rewrite drop_after. cbn [drop]. do 4 f_equal. lia.
Qed.

Lemma turn_bad pre rest out : (∀ n m t, m ≠ 255 → rest ≠ repeat 255 (S n) ++ m :: t) →
  strip_turn (pre ++ rest) (out, length pre) = inl None.
Proof.
  intros Hbad. unfold strip_turn. rewrite length_app. destruct rest as [|b rest].
  { cbn [length]. by destruct (Nat.leb_spec (length pre + 0) (length pre)); [|lia]. }
  destruct (Nat.leb_spec (length pre + length (b :: rest)) (length pre)) as [?|_]; [cbn in *; lia|].
  rewrite byte_here, drop_here. destruct (Z.eqb_spec b 255) as [->|]; [cbn [negb]|done].
  destruct (markers (255 :: rest)) as [[n Hr]|([|n] & m & t & Hr & Hm)].
  - assert (Hskip : ∀ n p, skip_ff (repeat 255 n) p = (p + n)%nat).
    { clear. induction n as [|n IH]; intros p; cbn; [lia|]. rewrite IH. lia. }
    rewrite Hr, Hskip, repeat_length.
    by destruct (Nat.leb_spec (length pre + n) (length pre + n)); [|lia].
  - injection Hr as <- _. done.
  - destruct (Hbad n m t Hm). done.
Qed.

(** what a keep decision reads stays within the segment when a marker follows *)
Definition marked (t : bytes) : Prop := ∃ u, t = 255 :: u.

Lemma starts_with_local p l t : Forall (λ b, b ≠ 255) p → marked t →
  starts_with p (l ++ t) = starts_with p l.
Proof.
  intros Hp [u ->]. revert l. induction Hp as [|b p Hb _ IH]; intros l; [by destruct l|].
  destruct l as [|x l]; cbn; [by destruct (Z.eqb_spec b 255)|]. by rewrite IH.
Qed.

Lemma keep_segment_local m p t : marked t → keep_segment m (p ++ t) = keep_segment m p.
Proof.
  intros Ht. unfold keep_segment.
  by rewrite !starts_with_local by (done || (vm_compute; repeat constructor; lia)).
Qed.

Lemma stream_marked t items : stream t items → marked t.
Proof. by destruct 1; eexists. Qed.

Definition kept_bytes (i : item) : bytes := if keep i then 255 :: item_bytes i else [].

Lemma after_marker_item out pos i t m u : wf_item i → follows i t → marked t →
  item_bytes i ++ t = m :: u →
  after_marker out pos m u = inr (out ++ kept_bytes i, (pos + (length (item_bytes i) - 1))%nat).
Proof.
  intros Hwf Hfol Ht Hmu. unfold after_marker, kept_bytes.
  destruct i as [m'|m' hi lo p|hi lo p e]; cbn in Hmu; injection Hmu as <- <-; cbn [keep item_bytes length].
  - cbn in Hwf. rewrite Hwf. destruct (Z.eqb_spec m' EOI) as [->|]; [done|]. do 2 f_equal. lia.
  - destruct Hwf as (Hst & He & Hs & Hm & Hsz). unfold sized in Hsz.
    rewrite Hst, (proj2 (Z.eqb_neq _ _) He), (proj2 (Z.eqb_neq _ _) Hs), Hsz.
    destruct (Z.ltb_spec (2 + Z.of_nat (length p)) 2) as [?|_]; [lia|].
    replace (Z.to_nat (2 + Z.of_nat (length p))) with (S (S (length p))) by lia. cbn [Nat.sub orb].
    rewrite Nat.sub_0_r, length_app, take_app_length, keep_segment_local by done.
    destruct (Nat.ltb_spec (length p + length t) (length p)); [lia|].
    f_equal. f_equal. by destruct (keep_segment m' p); rewrite ?app_nil_r.
  - destruct Hwf as (Hsz & He). unfold sized in Hsz. rewrite Hsz. cbn [Z.eqb EOI SOS Pos.eqb STANDALONE].
    destruct (Z.ltb_spec (2 + Z.of_nat (length p)) 2) as [?|_]; [lia|].
    replace (Z.to_nat (2 + Z.of_nat (length p))) with (S (S (length p))) by lia. cbn [Nat.sub orb].
    rewrite Nat.sub_0_r. rewrite <- app_assoc, length_app, take_app_length, drop_app_length.
    destruct (Nat.ltb_spec (length p + length (e ++ t)) (length p)); [lia|].
    rewrite scan_length_coded by done. rewrite take_app_length.
    rewrite length_app. f_equal. f_equal; [|lia]. cbn. by rewrite <- !app_assoc.
Qed.

Lemma after_marker_next out pos m t out' pos' : m ≠ 255 → after_marker out pos m t = inr (out', pos') →
  ∃ i t', m :: t = item_bytes i ++ t' ∧ wf_item i ∧ follows i t' ∧
    pos' = (pos + (length (item_bytes i) - 1))%nat ∧ (marked t' → out' = out ++ kept_bytes i).
Proof.
  intros Hm. unfold after_marker, kept_bytes. destruct (Z.eqb_spec m EOI) as [|He]; [done|].
  destruct (STANDALONE m) eqn:Hst.
  { intros [= <- <-]. exists (Standalone m), t. split_and!; [done|done|done|cbn; lia|done]. }
  destruct t as [|hi [|lo u]]; [done|done|].
  destruct (Z.ltb_spec (hi * 256 + lo) 2) as [|Hn]; [done|]. cbn [orb].
  remember (Z.to_nat (hi * 256 + lo) - 2)%nat as k eqn:Hk.
  destruct (Nat.ltb_spec (length u) k) as [|Hu]; [done|].
  assert (Hsz : sized hi lo (take k u)) by (unfold sized; rewrite length_take; lia).
  destruct (Z.eqb_spec m SOS) as [->|Hs].
  - destruct (scan_length (drop k u)) as [e|] eqn:Hscan; [|done]. intros [= <- <-].
    apply scan_length_spec in Hscan as (c & t' & Hd & Hc & Ht' & ->).
    exists (Scan hi lo (take k u) c), t'. cbn [item_bytes follows keep].
    split_and!; [|done|done| |].
    + cbn. by rewrite <- app_assoc, <- Hd, take_drop.
    + cbn. rewrite length_app, length_take. lia.
    + intros _. rewrite Hd, take_app_length. cbn. by rewrite <- !app_assoc.
  - intros [= <- <-]. exists (Segment m hi lo (take k u)), (drop k u). cbn [item_bytes follows keep].
    split_and!; [cbn; by rewrite take_drop|by split_and!|done|cbn; rewrite length_take; lia|].
    intros Ht. rewrite <- (take_drop k u) at 1. rewrite keep_segment_local by done.
    by destruct (keep_segment m (take k u)); rewrite ?app_nil_r.
Qed.

Lemma after_marker_end out pos m t o : after_marker out pos m t = inl (Some o) →
  m = EOI ∧ o = out ++ [255; 217].
Proof.
  unfold after_marker. destruct (Z.eqb_spec m EOI) as [->|He]; [by intros [= <-]|].
  destruct (STANDALONE m); [done|]. destruct t as [|hi [|lo u]]; [done|done|]. case_match; [done|].
  case_match; [case_match; done|done].
Qed.

(** ** The loop *)
Lemma item_split pre n i t :
  pre ++ repeat 255 (S n) ++ item_bytes i ++ t = (pre ++ repeat 255 (S n) ++ item_bytes i) ++ t.
Proof. by rewrite <- !app_assoc. Qed.

Lemma item_bytes_cons i : ∃ m u, item_bytes i = m :: u.
Proof. destruct i; cbn; eauto. Qed.

Lemma item_marker i m u : wf_item i → item_bytes i = m :: u → m ≠ 255.
Proof.
  destruct i as [m'|m' hi lo p|hi lo p e]; cbn; intros Hwf [= <- _]; [by intros ->|by apply Hwf|done].
Qed.

Lemma item_length pre n i : 
  length (pre ++ repeat 255 (S n) ++ item_bytes i) = (length pre + S n + 1 + (length (item_bytes i) - 1))%nat.
Proof.
  destruct (item_bytes_cons i) as (m & u & Hi). rewrite !length_app, repeat_length, Hi. cbn. lia.
Qed.

(** a turn reads one item *)
Lemma turn_item pre n i t out : wf_item i → follows i t → marked t →
  strip_turn (pre ++ repeat 255 (S n) ++ item_bytes i ++ t) (out, length pre) =
    inr (out ++ kept_bytes i, length (pre ++ repeat 255 (S n) ++ item_bytes i)).
Proof.
  intros Hwf Hfol Ht. destruct (item_bytes_cons i) as (m & u & Hi). rewrite Hi at 1. cbn [app].
  rewrite turn_marker by (by eapply item_marker).
  erewrite after_marker_item; [by rewrite item_length|done..|by rewrite Hi].
Qed.

Lemma body_cons i items : body (i :: items) = 255 :: item_bytes i ++ body items.
Proof. unfold body. cbn. by rewrite <- app_assoc. Qed.
Lemma body_kept out i items :
  (out ++ kept_bytes i) ++ body (filter keep items) = out ++ body (filter keep (i :: items)).
Proof.
  unfold kept_bytes. rewrite filter_cons. destruct (keep i) eqn:E; cbn.
  - rewrite decide_True by done. rewrite body_cons. by rewrite <- app_assoc.
  - rewrite decide_False by (by intros []). by rewrite app_nil_r.
Qed.

Lemma loop_complete rest items : stream rest items → ∀ pre out fuel, (length rest < fuel)%nat →
  iterate (strip_turn (pre ++ rest)) fuel (out, length pre) = Some (Some (out ++ body (filter keep items))).
Proof.
  induction 1 as [n t|n i t items Hwf Hfol Ht IH]; intros pre out [|fuel] Hf; [lia| |lia|]; cbn [iterate].
  - by rewrite turn_marker.
  - rewrite turn_item by (done || by eapply stream_marked).
    rewrite item_split, IH, body_kept; [done|]. rewrite !length_app, repeat_length in Hf. lia.
Qed.

Lemma marker_or_not rest :
  (∃ n m t, m ≠ 255 ∧ rest = repeat 255 (S n) ++ m :: t) ∨
  (∀ n m t, m ≠ 255 → rest ≠ repeat 255 (S n) ++ m :: t).
Proof.
  destruct (markers rest) as [[n ->]|([|n] & m & t & -> & Hm)].
  - right. intros k m t Hm Heq. assert (Hin : m ∈ repeat 255 n).
    { rewrite Heq. apply elem_of_app. right. by left. }
    by apply list_elem_of_In, repeat_spec in Hin.
  - right. intros k m' t' _ [=]. done.
  - left. by exists n, m, t.
Qed.

Lemma loop_sound fuel : ∀ pre rest out o,
  iterate (strip_turn (pre ++ rest)) fuel (out, length pre) = Some (Some o) →
  ∃ items, stream rest items ∧ o = out ++ body (filter keep items).
Proof.
  induction fuel as [|fuel IH]; intros pre rest out o; [done|]. cbn [iterate].
  destruct (marker_or_not rest) as [(n & m & t & Hm & ->)|Hbad]; [|by rewrite turn_bad].
  rewrite turn_marker by done.
  destruct (after_marker out (length pre + S n + 1) m t) as [r|[out' pos']] eqn:E.
  - intros [= ->]. apply after_marker_end in E as [-> ->]. exists []. by split; [constructor|].
  - intros Hrun. apply after_marker_next in E as (i & t' & Hmt & Hwf & Hfol & -> & Hout); [|done].
    rewrite Hmt, item_split, <- item_length in Hrun.
    assert (Hrun' := Hrun). apply IH in Hrun as (items & Hstr & ->).
    rewrite Hout by (by eapply stream_marked). exists (i :: items). rewrite body_kept.
    split; [|done]. rewrite Hmt. by constructor.
Qed.

Lemma turn_out data out pos : (length data ≤ pos)%nat → strip_turn data (out, pos) = inl None.
Proof. intros Hpos. unfold strip_turn. by destruct (Nat.leb_spec (length data) pos); [|lia]. Qed.

(** every turn moves forward *)
Lemma turn_forward data s s' : strip_turn data s = inr s' → (s.2 < s'.2)%nat ∧ (s.2 < length data)%nat.
Proof.
  destruct s as [out pos], s' as [out' pos']. cbn [snd]. intros Hturn.
  destruct (Nat.leb_spec (length data) pos) as [|Hpos];
    [by rewrite turn_out in Hturn|].
  assert (Hpre : length (take pos data) = pos) by (rewrite length_take; lia).
  assert (Hat : strip_turn (take pos data ++ drop pos data) (out, length (take pos data)) = inr (out', pos'))
    by (by rewrite take_drop, Hpre).
  clear Hturn. rename Hat into Hturn.
  destruct (marker_or_not (drop pos data)) as [(n & m & t & Hm & Hd)|Hbad]; [|by rewrite turn_bad in Hturn].
  rewrite Hd, turn_marker, Hpre in Hturn by done.
  apply after_marker_next in Hturn as (i & t' & _ & _ & _ & -> & _); [|done].
  apply (f_equal length) in Hd. rewrite length_drop, length_app, repeat_length in Hd. cbn in Hd. lia.
Qed.

Lemma loop_ends data : is_Some (iterate (strip_turn data) (S (length data)) (SOI, 2%nat)).
Proof.
  apply (iterate_total _ (λ s, length data - s.2)%nat (λ _, True)); [|done|cbn; lia].
  intros s s' _ Hturn. apply turn_forward in Hturn. split; [done|lia].
Qed.

Lemma strip_spec data out : strip_jpeg_metadata data = Some out ↔
  ∃ rest items, data = SOI ++ rest ∧ stream rest items ∧ out = SOI ++ body (filter keep items).
Proof.
  assert (Hsoi : starts_with SOI data = true ↔ ∃ rest, data = SOI ++ rest).
  { split; [|by intros [rest ->]]. destruct data as [|a [|b rest]]; cbn [starts_with SOI]; [done|by rewrite andb_false_r|].
    intros [<-%Z.eqb_eq [<-%Z.eqb_eq _]%andb_prop]%andb_prop. by exists rest. }
  unfold strip_jpeg_metadata. destruct (starts_with SOI data) eqn:E.
  2: { split; [done|]. intros (rest & items & Hd & _). pose proof (proj2 Hsoi (ex_intro _ rest Hd)). congruence. }
  destruct (proj1 Hsoi eq_refl) as [rest Hd]. split.
  - intros Hrun. exists rest. destruct (loop_ends data) as [r Hr]. rewrite Hr in Hrun. cbn in Hrun. subst r.
    rewrite Hd in Hr at 1. change 2%nat with (length SOI) in Hr.
    apply loop_sound in Hr as (items & Hstr & ->). by exists items.
  - intros (rest' & items & Hd' & Hstr & ->). rewrite Hd'. change 2%nat with (length SOI).
    rewrite (loop_complete _ _ Hstr); [done|]. rewrite length_app. lia.
Qed.

(** ** The result is itself such a stream *)
Definition marker (i : item) : Z := match i with Standalone m => m | Segment m _ _ _ => m | Scan _ _ _ _ => SOS end.

Lemma coded_app e l : coded e → coded l → coded (e ++ l).
Proof. intros He Hl. induction He; cbn; [done|by apply coded_byte|by apply coded_escape]. Qed.

Lemma stream_wf rest items : stream rest items → Forall wf_item items.
Proof. induction 1; by constructor. Qed.

Lemma escape_marker i : wf_item i → marker i ≠ 0 → escape (marker i) = true → ∃ m, i = Standalone m.
Proof.
  destruct i as [m|m hi lo p|hi lo p c]; cbn; [by exists m| |done].
  intros (Hst & _) Hm. unfold escape, STANDALONE in *. destruct (Z.eqb_spec m 0); [done|].
  cbn [orb]. intros He. exfalso. apply orb_false_iff in Hst as [_ Hst]. lia.
Qed.

Lemma item_ends_scan i t : escape (marker i) = false → ends_scan (255 :: item_bytes i ++ t).
Proof. destruct i; cbn; intros He; eexists _, _; (split; [reflexivity|done]). Qed.

(** restart markers left behind a scan, when the segments between them are
    dropped, become part of it *)
Lemma body_stream items : Forall wf_item items → Forall (λ i, marker i ≠ 0) items →
  (∃ parsed, body parsed = body items ∧ stream (body parsed) parsed ∧ (Forall keep items → Forall keep parsed)) ∧
  ∀ e, coded e → ∃ e' parsed, e ++ body items = e' ++ body parsed ∧ coded e' ∧ ends_scan (body parsed) ∧
    stream (body parsed) parsed ∧ (Forall keep items → Forall keep parsed).
Proof.
  induction items as [|i items IH]; intros Hwf Hz.
  { assert (Hend : stream (body []) []) by apply (stream_end 0 []).
    split; [by exists []|]. intros e He. exists e, [].
    split_and!; [done|done|by exists EOI, []|done|done]. }
  apply Forall_cons_1 in Hwf as [Hi Hwf]. apply Forall_cons_1 in Hz as [Hm Hz].
  destruct (IH Hwf Hz) as [(parsed & Hbody & Hstr & Hkeep) Hscan].
  assert (HA : ∃ parsed, body parsed = body (i :: items) ∧ stream (body parsed) parsed ∧
                 (Forall keep (i :: items) → Forall keep parsed)).
  { assert (Hplain : (∀ t, follows i t) → ∃ parsed, body parsed = body (i :: items) ∧
        stream (body parsed) parsed ∧ (Forall keep (i :: items) → Forall keep parsed)).
    { intros Hf. exists (i :: parsed). rewrite !body_cons, Hbody. split_and!; [done| |].
      - rewrite <- Hbody. by apply (stream_item 0).
      - intros [? ?]%Forall_cons_1. constructor; [done|auto]. }
    destruct i as [m|m hi lo p|hi lo p c]; [by apply Hplain..|].
    destruct Hi as [Hsz Hc]. destruct (Hscan c Hc) as (e' & parsed' & Heq & He' & Ht & Hstr' & Hkeep').
    exists (Scan hi lo p e' :: parsed'). rewrite !body_cons. cbn. rewrite <- !app_assoc, <- Heq. split_and!; [done| |].
    - rewrite Heq, app_assoc. by apply (stream_item 0 (Scan hi lo p e')).
    - intros [_ ?]%Forall_cons_1. constructor; [done|auto]. }
  split; [done|]. intros e He. destruct (escape (marker i)) eqn:Hesc.
  - destruct (escape_marker i Hi Hm Hesc) as [m ->]. cbn in Hesc.
    destruct (Hscan (e ++ [255; m])) as (e' & parsed' & Heq & He' & Ht & Hstr' & Hkeep').
    { apply coded_app; [done|]. apply coded_escape; [done|constructor]. }
    exists e', parsed'. rewrite <- app_assoc in Heq. split_and!; [done..|].
    intros [_ ?]%Forall_cons_1. auto.
  - destruct HA as (parsed' & Hbody' & Hstr' & Hkeep').
    exists e, parsed'. rewrite Hbody' at 1. split_and!; [done|done| |done|done].
    rewrite Hbody', body_cons. by apply item_ends_scan.
Qed.

Lemma body_length rest items : stream rest items → (length (body (filter keep items)) ≤ length rest)%nat.
Proof.
  induction 1 as [n t|n i t items _ _ _ IH].
  - rewrite length_app, repeat_length. cbn. lia.
  - rewrite filter_cons, !length_app, repeat_length. destruct (decide (keep i)); [|cbn in *; lia].
    rewrite body_cons. cbn [length]. rewrite length_app. lia.
Qed.

Lemma Forall_filtered (P : item → Prop) items : Forall P items → Forall P (filter keep items).
Proof. induction 1 as [|i items Hi _ IH]; [constructor|]. rewrite filter_cons. case_decide; [by constructor|done]. Qed.
Lemma Forall_kept (items : list item) : Forall keep (filter keep items).
Proof. induction items as [|i items IH]; [constructor|]. rewrite filter_cons. case_decide; [by constructor|done]. Qed.

Lemma filter_kept (items : list item) : Forall keep items → filter keep items = items.
Proof.
  induction 1 as [|i items Hi _ IH]; [done|]. rewrite filter_cons, decide_True by done. by rewrite IH.
Qed.

Lemma strip_fixed items : Forall wf_item items → Forall (λ i, marker i ≠ 0) items → Forall keep items →
  ∃ parsed, stream (body items) parsed ∧ Forall keep parsed ∧
    strip_jpeg_metadata (SOI ++ body items) = Some (SOI ++ body items).
Proof.
  intros Hwf Hz Hk. destruct (body_stream items Hwf Hz) as [(parsed & Hbody & Hstr & Hkeep) _].
  rewrite Hbody in Hstr. exists parsed. split_and!; [done|auto|].
  apply strip_spec. exists (body items), parsed. by rewrite filter_kept, Hbody by auto.
Qed.

(** ** The theorems *)

(** C27: the stripping of a photo's metadata, on every input: it returns; it
    accepts exactly the JPEG streams - items behind their markers, then the end
    marker, then anything -; and its result is that stream with precisely the
    kept items, byte for byte and in order, nothing after the end. *)
Theorem strip_exact data :
  is_Some (iterate (strip_turn data) (S (length data)) (SOI, 2%nat)) ∧
  ∀ out, strip_jpeg_metadata data = Some out ↔
    ∃ rest items, data = SOI ++ rest ∧ stream rest items ∧ out = SOI ++ body (filter keep items).
Proof. split; [apply loop_ends|apply strip_spec]. Qed.

(** No metadata survives: of a photo without invalid zero markers the result
    reads as a JPEG stream in which every segment is one to keep - no EXIF, no
    comment, no vendor data -, stripping it again changes nothing, and it is no
    longer than the photo. *)
Theorem strip_clean rest items : stream rest items → Forall (λ i, marker i ≠ 0) items →
  ∃ t parsed, strip_jpeg_metadata (SOI ++ rest) = Some (SOI ++ t) ∧
    stream t parsed ∧ Forall keep parsed ∧ strip_jpeg_metadata (SOI ++ t) = Some (SOI ++ t) ∧
    (length t ≤ length rest)%nat.
Proof.
  intros Hstr Hz. exists (body (filter keep items)).
  destruct (strip_fixed (filter keep items)) as (parsed & Hs & Hk & Hfix).
  - by eapply Forall_filtered, stream_wf.
  - by apply Forall_filtered.
  - apply Forall_kept.
  - exists parsed. split_and!; [|done..|by apply body_length]. apply strip_spec. by exists rest, items.
Qed.

(** *** Instances *)

(** a photo: JFIF header, an EXIF segment, a table, a scan with an escaped and a
    restart marker, a comment behind it, and the end marker *)
Definition photo : list item :=
  [Segment APP0 0 7 (u8 "JFIF" ++ [0]); Segment 225 0 8 (u8 "Exif" ++ [0; 0]); Segment 219 0 3 [9];
   Scan 0 3 [1] [17; 255; 0; 255; 208; 34]; Segment COM 0 4 (u8 "hi")].

Example photo_stripped : strip_jpeg_metadata (SOI ++ body photo ++ u8 "tail") =
  Some (SOI ++ [255; 224; 0; 7; 74; 70; 73; 70; 0; 255; 219; 0; 3; 9; 255; 218; 0; 3; 1;
                17; 255; 0; 255; 208; 34; 255; 217]).
Proof. reflexivity. Qed.

Lemma stream_body_cons i items : wf_item i → follows i (body items) → stream (body items) items →
  stream (body (i :: items)) (i :: items).
Proof. rewrite body_cons. apply (stream_item 0). Qed.

Lemma photo_stream : stream (body photo) photo.
Proof.
  unfold photo. repeat (apply stream_body_cons; [by (repeat split; repeat constructor)|by (try eexists _, _)|]).
  apply (stream_end 0 []).
Qed.

Lemma strip_clean_witness : ∃ t parsed, strip_jpeg_metadata (SOI ++ body photo) = Some (SOI ++ t) ∧
  stream t parsed ∧ Forall keep parsed ∧ strip_jpeg_metadata (SOI ++ t) = Some (SOI ++ t) ∧
  (length t ≤ length (body photo))%nat.
Proof. apply (strip_clean (body photo) photo); [exact photo_stream|repeat constructor; done]. Defined.

(** a zero marker behind a dropped segment is read as an escape by the scan
    before it, and what was its payload is then exposed to a second pass *)
Definition hidden : list item :=
  [Scan 0 3 [1] [17]; Segment COM 0 2 []; Segment 0 0 8 [255; 225; 0; 4; 7; 7]].
Example zero_marker_not_fixed :
  ∃ out out', strip_jpeg_metadata (SOI ++ body hidden) = Some out ∧
              strip_jpeg_metadata out = Some out' ∧ out ≠ out'.
Proof.
  eexists _, _. split; [vm_compute; reflexivity|]. split; [vm_compute; reflexivity|discriminate].
Qed.
