(* ===== verification/Media.v ===== *)
(** Media files ([app/core/services/media]): what a probe finds in a file
    ([dtos.py]), the reading of ffprobe's output ([probe/ffprobe.py]) and the
    rounds of ffmpeg ([transcode/ffmpeg.py]). The programs themselves are the
    parameters [Ffprobe] and [Ffmpeg]; a run may depend on when it is made, so
    each takes its number.

    A finite [float] is the rational it stands for: values are compared, but
    the rounding of a parsed literal or of a quotient to 53 bits is left out. *)
From Stdlib Require Import QArith Qround Qminmax Qreduction.
From S2P Require Import Prelude Jpeg.
Open Scope Z_scope.

(** ** [float(s)] *)
Inductive pyfloat : Type :=
| Finite (q : Q)
| Infinite (negative : bool)
| NaN.

Definition is_digit (c : Z) : bool := (48 <=? c) && (c <=? 57).

(** an underscore stands between two digits *)
Fixpoint drop_underscores (after_digit : bool) (s : text) : option text :=
  match s with
  | [] => Some []
  | c :: s' =>
    if c =? 95
    then match s' with
         | d :: _ => if after_digit && is_digit d then drop_underscores false s' else None
         | [] => None
         end
    else cons c <$> drop_underscores (is_digit c) s'
  end.

(** the digits [s] begins with: the number [acc] goes on to, how many, the rest *)
Fixpoint read_digits (acc n : Z) (s : text) : Z * Z * text :=
  match s with
  | c :: s' => if is_digit c then read_digits (acc * 10 + (c - 48)) (n + 1) s' else (acc, n, s)
  | [] => (acc, n, s)
  end.

Definition read_sign (s : text) : bool * text :=
  match s with
  | c :: s' => if c =? 45 then (true, s') else if c =? 43 then (false, s') else (false, s)
  | [] => (false, s)
  end.

(** [e] or [E], a sign, and digits to the end; nothing is [e0] *)
Definition read_exponent (s : text) : option Z :=
  match s with
  | [] => Some 0
  | c :: s' =>
    if lower_char c =? 101
    then let '(negative, s') := read_sign s' in
         let '(e, n, rest) := read_digits 0 0 s' in
         if (0 <? n) && bool_decide (rest = []) then Some (if negative then - e else e) else None
    else None
  end.

Definition scaled (m e : Z) : Q :=
  if 0 <=? e then inject_Z (m * 10 ^ e) else Qmake m (Z.to_pos (10 ^ (- e))).

(** digits with a point among them, and an exponent *)
Definition read_decimal (s : text) : option Q :=
  let '(m, n, rest) := read_digits 0 0 s in
  let '(m, k, n, rest) :=
    match rest with
    | c :: rest' =>
      if c =? 46 then let '(m, k, rest) := read_digits m 0 rest' in (m, k, n + k, rest)
      else (m, 0, n, rest)
    | [] => (m, 0, n, rest)
    end in
  if 0 <? n then (λ e, scaled m (e - k)) <$> read_exponent rest else None.

(** the least magnitude that rounds to infinity *)
Definition float_overflow : Z := 2 ^ 1024 - 2 ^ 970.

Definition py_float (s : text) : option pyfloat :=
  s ← drop_underscores false (strip s);
  let '(negative, s) := read_sign s in
  if bool_decide (lower s ∈ [u8 "inf"; u8 "infinity"]) then Some (Infinite negative)
  else if bool_decide (lower s = u8 "nan") then Some NaN
  else q ← read_decimal s;
       if Qle_bool (inject_Z float_overflow) q then Some (Infinite negative)
       else Some (Finite (if negative then Qopp q else q)).

(** [round(x)]: to the nearest integer, a half to the even one *)
Definition py_round (q : Q) : Z :=
  let f := Qfloor q in
  match Qcompare (Qmult 2 (Qminus q (inject_Z f))) 1 with
  | Lt => f
  | Gt => f + 1
  | Eq => if Z.even f then f else f + 1
  end.

(** [a < b], [0 < q] *)
Definition Qlt_bool (a b : Q) : bool := negb (Qle_bool b a).
Definition positive (q : Q) : bool := Qlt_bool 0 q.

(** [total * 60 + x] *)
Definition sixty_times_plus (total x : pyfloat) : pyfloat :=
  match total, x with
  | NaN, _ | _, NaN => NaN
  | Finite a, Finite b => Finite (Qplus (Qmult a 60) b)
  | Infinite n, Infinite n' => if Bool.eqb n n' then total else NaN
  | Infinite _, _ => total
  | _, Infinite _ => x
  end.

(** ** JSON values *)
Inductive json : Type :=
| JNull
| JBool (b : bool)
| JInt (n : Z)
| JFloat (q : Q)
| JStr (s : text)
| JList (l : list json)
| JDict (d : list (text * json)).

(** [d.get(key)], [None] for a missing key *)
Definition jget (key : string) (d : list (text * json)) : json :=
  match List.find (λ kv, bool_decide (kv.1 = u8 key)) d with Some kv => kv.2 | None => JNull end.

(** [bool(v)] *)
Definition json_truthy (v : json) : bool :=
  match v with
  | JNull => false
  | JBool b => b
  | JInt n => negb (n =? 0)
  | JFloat q => negb (Qeq_bool q 0)
  | JStr s => negb (bool_decide (s = []))
  | JList l => match l with [] => false | _ => true end
  | JDict d => match d with [] => false | _ => true end
  end.

(** [v if isinstance(v, dict) else {}] *)
Definition as_dict (v : json) : list (text * json) := match v with JDict d => d | _ => [] end.
Definition str_or_none (v : json) : option text := match v with JStr s => Some s | _ => None end.

(** ** [dtos.py] *)
Module StreamInfo.
Record t : Type := Mk {
  index : Z;
  codec_type : text;
  codec_name : option text;
  width : option Z;
  height : option Z;
  duration : option Q;
  frame_rate : option Q;
  is_attached_pic : bool;
  rotation : Z;
  color_transfer : option text;
}.

Definition HDR_TRANSFERS : list text := [u8 "smpte2084"; u8 "arib-std-b67"].

(** [if not self.width or not self.height: return None] *)
Definition display_size (s : t) : option (Z * Z) :=
  match width s, height s with
  | Some w, Some h =>
    if (w =? 0) || (h =? 0) then None
    else Some (if rotation s mod 180 =? 0 then (w, h) else (h, w))
  | _, _ => None
  end.

Definition is_hdr (s : t) : bool :=
  match color_transfer s with Some c => bool_decide (c ∈ HDR_TRANSFERS) | None => false end.
End StreamInfo.

Module MediaInfo.
Record t : Type := Mk {
  duration : Q;
  streams : list StreamInfo.t;
  format_name : option text;
}.

Definition video_streams (i : t) : list StreamInfo.t :=
  filter (λ s, bool_decide (StreamInfo.codec_type s = u8 "video")
               && negb (StreamInfo.is_attached_pic s) = true) (streams i).

Definition audio_streams (i : t) : list StreamInfo.t :=
  filter (λ s, StreamInfo.codec_type s = u8 "audio") (streams i).
End MediaInfo.

(** ** [exceptions.py] *)
Inductive probe_error : Type :=
| InvalidMediaError | MediaMetadataUnreadableError | MediaProbeTimeoutError | MediaProbeUnavailableError.

Inductive transcode_error : Type :=
| MediaTranscodeFailedError | MediaTranscodeTimeoutError | MediaTranscodeUnavailableError.

Definition probe_permanent (e : probe_error) : bool :=
  match e with MediaProbeUnavailableError => false | _ => true end.
Definition transcode_permanent (e : transcode_error) : bool :=
  match e with MediaTranscodeUnavailableError => false | _ => true end.

(** ** [parse_ffprobe_output] *)
Definition _ABSENT_VALUES : list text := [u8 ""; u8 "n/a"; u8 "unknown"; u8 "none"].

Definition _is_absent (raw : json) : bool :=
  match raw with
  | JNull => true
  | JStr s => bool_decide (lower (strip s) ∈ _ABSENT_VALUES)
  | _ => false
  end.

(** [float(raw)], [None] for a [TypeError] or a [ValueError] *)
Definition as_float (raw : json) : option pyfloat :=
  match raw with
  | JInt n => Some (Finite (inject_Z n))
  | JFloat q => Some (Finite q)
  | JBool b => Some (Finite (if b then 1 else 0)%Q)
  | JStr s => py_float s
  | _ => None
  end.

Definition _parse_number (raw : json) : result probe_error (option Q) :=
  if _is_absent raw then Ok None
  else match raw with
       | JBool _ => Err MediaMetadataUnreadableError
       | _ =>
         match as_float raw with
         | Some (Finite q) => if Qlt_bool q 0 then Err MediaMetadataUnreadableError else Ok (Some q)
         | _ => Err MediaMetadataUnreadableError
         end
       end.

Definition _parse_dimension (raw : json) : result probe_error (option Z) :=
  value ← _parse_number raw;
  match value with
  | None => Ok None
  | Some q => if Qeq_bool q (inject_Z (Qfloor q)) then Ok (Some (Qfloor q))
              else Err MediaMetadataUnreadableError
  end.

(** [value if value > 0 else None] of a finite value *)
Definition if_positive (v : option pyfloat) : option Q :=
  match v with Some (Finite q) => if positive q then Some q else None | _ => None end.

(** [raw.partition("/")] *)
Fixpoint split_slash (s : text) : text * option text :=
  match s with
  | [] => ([], None)
  | c :: s' => if c =? 47 then ([], Some s') else let '(a, b) := split_slash s' in (c :: a, b)
  end.

Definition _parse_frame_rate (raw : json) : option Q :=
  if _is_absent raw then None
  else match raw with
       | JStr s =>
         match split_slash s with
         | (_, None) => if_positive (py_float s)
         | (numerator, Some denominator) =>
           match py_float numerator, py_float denominator with
           | Some (Finite num), Some (Finite den) =>
             if Qeq_bool den 0 then None else if_positive (Some (Finite (Qdiv num den)))
           | _, _ => None
           end
         end
       | _ => None
       end.

(** the candidates for a rotation, in order *)
Definition rotations (d : list (text * json)) : list json :=
  match jget "side_data_list" d with
  | JList items => omap (λ item, match item with JDict i => Some (jget "rotation" i) | _ => None end) items
  | _ => []
  end ++ match jget "tags" d with JDict tags => [jget "rotate" tags] | _ => [] end.

(** the angle of one candidate, [None] where the loop goes on *)
Definition rotation_of (candidate : json) : option Z :=
  match candidate with
  | JInt _ | JFloat _ | JStr _ =>
    match as_float candidate with
    | Some (Finite q) => Some ((py_round (Qdiv q 90) * 90) mod 360)
    | _ => None
    end
  | _ => None
  end.

Definition _parse_rotation (d : list (text * json)) : Z := default 0 (head (omap rotation_of (rotations d))).

Definition _parse_label (raw : json) : option text :=
  if _is_absent raw then None else match raw with JStr s => Some (lower (strip s)) | _ => None end.

Definition _parse_stream (index : Z) (raw : json) : result probe_error StreamInfo.t :=
  match raw with
  | JDict d =>
    match jget "codec_type" d with
    | JStr ((_ :: _) as codec_type) =>
      width ← _parse_dimension (jget "width" d);
      height ← _parse_dimension (jget "height" d);
      duration ← _parse_number (jget "duration" d);
      Ok (StreamInfo.Mk
        match jget "index" d with JInt n => n | JBool b => Z.b2z b | _ => index end
        codec_type (str_or_none (jget "codec_name" d)) width height duration
        match _parse_frame_rate (jget "avg_frame_rate" d) with
        | Some rate => Some rate
        | None => _parse_frame_rate (jget "r_frame_rate" d)
        end
        (json_truthy (jget "attached_pic" (as_dict (jget "disposition" d))))
        (_parse_rotation d) (_parse_label (jget "color_transfer" d)))
    | _ => Err MediaMetadataUnreadableError
    end
  | _ => Err MediaMetadataUnreadableError
  end.

(** [text.split(":")] *)
Fixpoint split_colon (s : text) : list text :=
  match s with
  | [] => [[]]
  | c :: s' =>
    if c =? 58 then [] :: split_colon s'
    else match split_colon s' with part :: rest => (c :: part) :: rest | [] => [[c]] end
  end.

(** hours, minutes and seconds *)
Fixpoint add_parts (total : pyfloat) (parts : list text) : option pyfloat :=
  match parts with
  | [] => Some total
  | part :: parts => x ← py_float part; add_parts (sixty_times_plus total x) parts
  end.

Definition _parse_timecode (raw : json) : option Q :=
  match raw with
  | JStr raw =>
    let s := strip raw in
    if bool_decide (s = []) || bool_decide (lower s ∈ _ABSENT_VALUES) then None
    else let parts := split_colon s in
         if (3 <? length parts)%nat then None else if_positive (add_parts (Finite 0) parts)
  | _ => None
  end.

Definition _tag_durations (raw_stream : json) : list Q :=
  omap (λ kv : text * json,
    if bool_decide (lower (strip kv.1) = u8 "duration") then _parse_timecode kv.2 else None)
    (as_dict (jget "tags" (as_dict raw_stream))).

(** what a stream says of the length of the file *)
Definition stream_durations (stream : StreamInfo.t) (raw : json) : list Q :=
  if StreamInfo.is_attached_pic stream then []
  else option_list (StreamInfo.duration stream) ++ _tag_durations raw.

Definition qmax_list (q : Q) (l : list Q) : Q := foldl (λ m x, if Qlt_bool m x then x else m) q l.

Definition parse_ffprobe_output (payload : list (text * json)) (max_streams : nat) : result probe_error MediaInfo.t :=
  match jget "streams" payload with
  | JList ((_ :: _) as raw_streams) =>
    _ ← raise_if (max_streams <? length raw_streams)%nat InvalidMediaError;
    streams ← mapM (λ ir : nat * json, _parse_stream (Z.of_nat ir.1) ir.2) (imap pair raw_streams);
    let format_section := as_dict (jget "format" payload) in
    format_duration ← _parse_number (jget "duration" format_section);
    let candidates := option_list format_duration
      ++ concat (zip_with stream_durations streams raw_streams) in
    match filter (λ q, positive q = true) candidates with
    | [] => Err MediaMetadataUnreadableError
    | q :: rest => Ok (MediaInfo.Mk (qmax_list q rest) streams (str_or_none (jget "format_name" format_section)))
    end
  | _ => Err InvalidMediaError
  end.

(** ** The probe *)
Inductive probe_run : Type :=
| ProbeNotStarted
| ProbeTimedOut
| ProbeExited (code : Z) (stdout_size : Z) (parsed : option json).

(** the [n]-th run of ffprobe, over the bytes of a file; its output is given as
    [orjson.loads] reads it *)
Class Ffprobe : Type := ffprobe : nat → bytes → probe_run.

Definition max_output_bytes : Z := 256 * 1024.
Definition max_streams : nat := 16.

Definition probe_file `{Ffprobe} (n : nat) (file : bytes) : result probe_error MediaInfo.t :=
  match file with
  | [] => Err InvalidMediaError
  | _ =>
    match ffprobe n file with
    | ProbeNotStarted => Err MediaProbeUnavailableError
    | ProbeTimedOut => Err MediaProbeTimeoutError
    | ProbeExited code size parsed =>
      _ ← raise_if (negb (code =? 0)) InvalidMediaError;
      _ ← raise_if ((size =? 0) || (max_output_bytes <? size)) MediaMetadataUnreadableError;
      match parsed with
      | Some (JDict payload) => parse_ffprobe_output payload max_streams
      | _ => Err MediaMetadataUnreadableError
      end
    end
  end.

(** ** The transcoder *)
Inductive ffmpeg_run : Type :=
| FfmpegNotStarted
| FfmpegTimedOut
| FfmpegExited (code : Z) (written : option bytes).

Inductive ffmpeg_args : Type :=
| FrameArgs (offset : Q) (max_side : Z) (hdr : bool)
| RemuxArgs (muxer : string).

(** the [n]-th run of ffmpeg: its arguments, the source, what was in the
    destination before *)
Class Ffmpeg : Type := ffmpeg : nat → ffmpeg_args → bytes → option bytes → ffmpeg_run.

Section transcoder.
Context `{Ffmpeg}.

Definition ffmpeg_ran (r : ffmpeg_run) : result transcode_error (option bytes) :=
  match r with
  | FfmpegNotStarted => Err MediaTranscodeUnavailableError
  | FfmpegTimedOut => Err MediaTranscodeTimeoutError
  | FfmpegExited code written => if code =? 0 then Ok written else Err MediaTranscodeFailedError
  end.

(** one turn of the loop over the offsets per element; the answer comes with
    the number of the next run *)
Fixpoint frame_rounds (n : nat) (offsets : list Q) (max_side : Z) (hdr : bool) (source : bytes)
  (destination : option bytes) : result transcode_error bytes * nat :=
  match offsets with
  | [] => (Err MediaTranscodeFailedError, n)
  | offset :: offsets =>
    match ffmpeg_ran (ffmpeg n (FrameArgs offset max_side hdr) source destination) with
    | Err e => (Err e, S n)
    | Ok (Some ((_ :: _) as frame)) => (Ok frame, S n)
    | Ok destination => frame_rounds (S n) offsets max_side hdr source destination
    end
  end.

Definition extract_frame (n : nat) (source : bytes) (offset_seconds : Q) (max_side : Z) (hdr : bool)
  : result transcode_error bytes * nat :=
  frame_rounds n (if positive offset_seconds then [offset_seconds; 0%Q] else [0%Q]) max_side hdr source None.

Definition MUXERS : list (string * string) :=
  [("mp4", "mp4"); ("mov", "mov"); ("webm", "webm"); ("avi", "avi")]%string.

Definition strip_metadata (n : nat) (source : bytes) (container : string)
  : result transcode_error bytes * nat :=
  match snd <$> List.find (λ kv, bool_decide (kv.1 = container)) MUXERS with
  | None => (Err MediaTranscodeFailedError, n)
  | Some muxer =>
    (written ← ffmpeg_ran (ffmpeg n (RemuxArgs muxer) source None);
     match written with Some ((_ :: _) as file) => Ok file | _ => Err MediaTranscodeFailedError end, S n)
  end.
End transcoder.

(** ** What the probe answers *)
Lemma positive_spec q : positive q = true ↔ (0 < q)%Q.
Proof.
  unfold positive, Qlt_bool. rewrite negb_true_iff, <- not_true_iff_false, Qle_bool_iff. split.
  - apply Qnot_le_lt.
  - intros Hq Hle. by apply (Qlt_not_le _ _ Hq).
Qed.

Lemma Qlt_bool_false a b : Qlt_bool a b = false ↔ (b <= a)%Q.
Proof. unfold Qlt_bool. by rewrite negb_false_iff, Qle_bool_iff. Qed.

Lemma qmax_list_spec l q : (q <= qmax_list q l)%Q ∧ ∀ x, x ∈ l → (x <= qmax_list q l)%Q.
Proof.
  unfold qmax_list. revert q. induction l as [|y l IH]; intros q; cbn; [split; [apply Qle_refl|by intros x ?%not_elem_of_nil]|].
  set (m := if Qlt_bool q y then y else q). destruct (IH m) as [Hm Hl].
  assert (q <= m ∧ y <= m)%Q as [Hq Hy].
  { subst m. destruct (Qlt_bool q y) eqn:E; [|apply Qlt_bool_false in E; split; [apply Qle_refl|done]].
    apply negb_true_iff, not_true_iff_false in E. rewrite Qle_bool_iff in E.
    split; [by apply Qlt_le_weak, Qnot_le_lt|apply Qle_refl]. }
  split; [by eapply Qle_trans|]. intros x [->|Hx]%elem_of_cons; [by eapply Qle_trans|by apply Hl].
Qed.

Lemma parse_number_nonneg raw q : _parse_number raw = Ok (Some q) → (0 <= q)%Q.
Proof.
  unfold _parse_number. destruct (_is_absent raw); [done|].
  destruct raw; cbn; intros H; repeat case_match; simplify_eq; by apply Qlt_bool_false.
Qed.

Lemma parse_dimension_nonneg raw n : _parse_dimension raw = Ok (Some n) → 0 ≤ n.
Proof.
  unfold _parse_dimension. intros ([q|] & Hq & H)%result_bind_Ok; [apply parse_number_nonneg in Hq|done].
  destruct (Qeq_bool _ _); simplify_eq. by apply (Qfloor_resp_le 0).
Qed.

Lemma if_positive_spec v q : if_positive v = Some q → (0 < q)%Q.
Proof. destruct v as [[x| |]|]; cbn; [|done..]. destruct (positive x) eqn:E; [|done]. intros [= <-]. by apply positive_spec. Qed.

Lemma parse_frame_rate_positive raw q : _parse_frame_rate raw = Some q → (0 < q)%Q.
Proof.
  unfold _parse_frame_rate. destruct (_is_absent raw); [done|]. destruct raw; try done.
  destruct (split_slash s) as [num [den|]]; [|apply if_positive_spec].
  intros H. repeat case_match; simplify_eq; by eapply if_positive_spec.
Qed.

Definition right_angles : list Z := [0; 90; 180; 270].

Lemma parse_rotation_right d : _parse_rotation d ∈ right_angles.
Proof.
  assert (∀ n, (n * 90) mod 360 ∈ right_angles) as Hn.
  { intros n. change 360 with (4 * 90). rewrite Z.mul_mod_distr_r by lia.
    pose proof (Z.mod_pos_bound n 4). assert (n mod 4 = 0 ∨ n mod 4 = 1 ∨ n mod 4 = 2 ∨ n mod 4 = 3) as Hc by lia.
    unfold right_angles. rewrite !elem_of_cons. lia. }
  unfold _parse_rotation. destruct (omap rotation_of (rotations d)) as [|x l] eqn:E; [left|]. cbn.
  assert (x ∈ omap rotation_of (rotations d)) as (v & _ & Hv)%list_elem_of_omap by (rewrite E; left).
  unfold rotation_of in Hv. destruct v; try done; repeat case_match; simplify_eq; apply Hn.
Qed.

(** a stream as the rest of the code may rely on it *)
Definition sane_stream (s : StreamInfo.t) : Prop :=
  (∀ n, StreamInfo.width s = Some n → 0 ≤ n) ∧ (∀ n, StreamInfo.height s = Some n → 0 ≤ n)
  ∧ (∀ q, StreamInfo.duration s = Some q → (0 <= q)%Q)
  ∧ (∀ q, StreamInfo.frame_rate s = Some q → (0 < q)%Q)
  ∧ StreamInfo.rotation s ∈ right_angles.

Lemma parse_stream_sane i raw s : _parse_stream i raw = Ok s → sane_stream s.
Proof.
  destruct raw as [| | | | | |d]; try done. cbn. destruct (jget "codec_type" d) as [| | | |[|c l]| |]; try done.
  intros (w & Hw & H)%result_bind_Ok. apply result_bind_Ok in H as (h & Hh & H).
  apply result_bind_Ok in H as (q & Hq & [= <-]). unfold sane_stream. cbn. split_and!.
  - intros n ->. by eapply parse_dimension_nonneg.
  - intros n ->. by eapply parse_dimension_nonneg.
  - intros n ->. by eapply parse_number_nonneg.
  - intros x. destruct (_parse_frame_rate (jget "avg_frame_rate" d)) eqn:E.
    + intros [= <-]. by eapply parse_frame_rate_positive.
    + apply parse_frame_rate_positive.
  - apply parse_rotation_right.
Qed.

Lemma mapM_result_Forall2 {E A B} (f : A → result E B) l k :
  mapM f l = Ok k → Forall2 (λ a b, f a = Ok b) l k.
Proof.
  revert k. induction l as [|a l IH]; intros k; cbn; [by intros [= <-]|].
  intros (b & Hb & H)%result_bind_Ok. apply result_bind_Ok in H as (k' & Hk & [= <-]). auto.
Qed.

Lemma own_duration_listed streams raws s q :
  length streams = length raws → s ∈ streams → StreamInfo.is_attached_pic s = false →
  StreamInfo.duration s = Some q → q ∈ concat (zip_with stream_durations streams raws).
Proof.
  intros Hl [i Hi]%list_elem_of_lookup Ha Hq. destruct (lookup_lt_is_Some_2 raws i) as [raw Hraw].
  { rewrite <- Hl. by eapply lookup_lt_Some. }
  apply list_elem_of_In, in_concat. setoid_rewrite <- list_elem_of_In. exists (stream_durations s raw). split; [|].
  - apply elem_of_lookup_zip_with. eauto 10.
  - unfold stream_durations. rewrite Ha, Hq. cbn. left.
Qed.

(** C24: What the probe reports of a file is sane: the duration is positive and
    no shorter than what the container declares, nor than what any stream does
    that is not an attached picture; there is a stream and at most [limit] of
    them, and each has nonnegative dimensions, a positive frame rate and a right
    angle of rotation. *)
Theorem probed_sane payload limit info :
  parse_ffprobe_output payload limit = Ok info →
  (0 < MediaInfo.duration info)%Q ∧ (0 < length (MediaInfo.streams info) ≤ limit)%nat
  ∧ Forall sane_stream (MediaInfo.streams info)
  ∧ (∀ s q, s ∈ MediaInfo.streams info → StreamInfo.is_attached_pic s = false →
      StreamInfo.duration s = Some q → (q <= MediaInfo.duration info)%Q)
  ∧ ∀ q, _parse_number (jget "duration" (as_dict (jget "format" payload))) = Ok (Some q) →
      (q <= MediaInfo.duration info)%Q.
Proof.
  unfold parse_ffprobe_output. destruct (jget "streams" payload) as [| | | | |[|raw raws]|]; try done.
  intros ([] & Hlen & H)%result_bind_Ok. apply result_bind_Ok in H as (streams & Hs%mapM_result_Forall2 & H).
  apply result_bind_Ok in H as (format & Hf & H). set (cands := _ ++ _) in H.
  destruct (filter _ cands) as [|q rest] eqn:Hc; [done|]. injection H as <-. cbn [MediaInfo.duration MediaInfo.streams].
  pose proof (qmax_list_spec rest q) as [Hq Hrest].
  assert (∀ x, x ∈ q :: rest → (x <= qmax_list q rest)%Q) as Hmax by (intros x [->|?]%elem_of_cons; auto).
  assert (∀ x, x ∈ cands → (0 < x)%Q → x ∈ q :: rest) as Hin.
  { intros x Hx Hpos. rewrite <- Hc. apply list_elem_of_filter. split; [by apply positive_spec|done]. }
  assert (0 < q)%Q as Hpos.
  { assert (q ∈ q :: rest) as Hq' by left. rewrite <- Hc in Hq'. apply list_elem_of_filter in Hq' as [? _]. by apply positive_spec. }
  assert (∀ x, x ∈ cands → (x <= qmax_list q rest)%Q) as Hcand.
  { intros x Hx. destruct (Qlt_le_dec 0 x) as [Hp|Hle]; [by apply Hmax, Hin|].
    eapply Qle_trans; [exact Hle|]. by eapply Qle_trans; [apply Qlt_le_weak|]. }
  pose proof (Forall2_length Hs) as Hl. rewrite length_imap in Hl. cbn in Hl.
  apply raise_if_Ok, Nat.ltb_ge in Hlen. cbn in Hlen. split_and!.
  - by eapply Qlt_le_trans.
  - lia.
  - lia.
  - apply Forall_forall. intros s [i Hi]%list_elem_of_In%list_elem_of_lookup.
    eapply Forall2_lookup_r in Hs as (x & _ & Hx); [|done]. by eapply parse_stream_sane.
  - intros s x Hsin Ha Hx. apply Hcand, elem_of_app. right. eapply own_duration_listed; eauto.
  - intros x Hx. apply Hcand, elem_of_app. left. rewrite Hf in Hx. injection Hx as ->. cbn. by left.
Qed.

(** a rotated clip whose container declares less than its track *)
Definition sample_probe : list (text * json) := [
  (u8 "streams", JList [
    JDict [(u8 "codec_type", JStr (u8 "video")); (u8 "width", JInt 640); (u8 "height", JStr (u8 "480"));
           (u8 "avg_frame_rate", JStr (u8 "30000/1001"));
           (u8 "tags", JDict [(u8 "rotate", JStr (u8 "-90")); (u8 "DURATION", JStr (u8 "00:01:02.5"))])];
    JDict [(u8 "codec_type", JStr (u8 "audio")); (u8 "duration", JStr (u8 "61"))]]);
  (u8 "format", JDict [(u8 "duration", JStr (u8 "3.0"))])].

Lemma probed_sane_witness : ∃ info,
  parse_ffprobe_output sample_probe max_streams = Ok info
  ∧ Qeq_bool (MediaInfo.duration info) (125 # 2) = true
  ∧ StreamInfo.display_size <$> MediaInfo.streams info = [Some (480, 640); None]
  ∧ (0 < MediaInfo.duration info)%Q.
Proof.
  eexists. split; [vm_compute; reflexivity|]. split; [reflexivity|]. split; [reflexivity|].
  apply (probed_sane sample_probe max_streams). vm_compute. reflexivity.
Defined.

(** ** The rounds of ffmpeg end *)

(** a frame is extracted in at most two runs, and a frame it answers has bytes *)
Lemma extract_frame_rounds `{Ffmpeg} n source offset side hdr :
  let '(r, n') := extract_frame n source offset side hdr in
  (n ≤ n' ≤ n + 2)%nat ∧ r ≠ Ok [].
Proof.
  unfold extract_frame. destruct (positive offset); cbn; repeat (case_match; cbn); simplify_eq; split; (lia || done).
Qed.
