(* ===== verification/Config.v ===== *)
(** Constants of [app/chats/config.py] (class [ChatConfig]) the chat domain reads, at their declared defaults (settings can be overridden by environment variables), and the errors of the domain: the exception classes of [app/chats/exceptions.py] the modelled code raises, with their HTTP status and machine-readable code, and the database error that reaches a handler. Identifiers appear in the payloads as themselves where the code renders them with [str]. *)
From S2P Require Import Prelude.

Module chat_config.

Definition MAX_MEMBERS : Z := 1000.
Definition MAX_GROUP_MEMBERS : Z := 500.
Definition MAX_SUPERGROUP_MEMBERS : Z := 1000000.
Definition MAX_CHANNEL_SUBSCRIBERS : Z := 10000000.
Definition MAX_MESSAGE_LENGTH : Z := 4096.

Definition MAX_DISTINCT_REACTIONS_PER_MESSAGE : Z := 20.
Definition MAX_REACTIONS_PER_USER_PER_MESSAGE : Z := 3.

Definition FAN_OUT_WRITE_THRESHOLD : Z := 500.
Definition MAX_PINNED_CHATS : Z := 5.
Definition MAX_PINNED_MESSAGES : Z := 100.

Definition READ_MARKS_MAX_MEMBERS : Z := 100.

Definition TYPING_TTL_SECONDS : Z := 6.
Definition TYPING_BROADCAST_INTERVAL_MS : Z := 3000.
Definition TYPING_CONTEXT_TTL_SECONDS : Z := 15.
Definition TYPING_MAX_TRACKED_CHATS : Z := 64.

Definition CHAT_USERNAME_MIN_LENGTH : Z := 5.
Definition CHAT_USERNAME_MAX_LENGTH : Z := 32.
Definition CHAT_USERNAME_RESERVED : list text := u8 <$> [
  "admin"; "administrator"; "moderator"; "support"; "help"; "system";
  "official"; "security"; "settings"; "search"; "invites"; "messages";
  "members"; "reactions"; "username"; "chatix"; "telegram"; "root"]%string.

Definition INVITE_LINK_MAX_USAGE_LIMIT : Z := 99999.
Definition MAX_INVITE_LINKS_PER_CHAT : Z := 100.

Definition MAX_PENDING_JOIN_REQUESTS : Z := 5000.
Definition JOIN_REQUEST_RETRY_AFTER_SECONDS : Z := 3600.

Definition MAX_SLOW_MODE_SECONDS : Z := 86400.
Definition CHAT_STAFF_MIN_ROLE_LEVEL : Z := 80.
Definition CHAT_EDITOR_MIN_ROLE_LEVEL : Z := 80.

Definition READ_RECEIPTS_COALESCE_WINDOW_MS : Z := 500.
Definition READ_RECEIPTS_COALESCE_MAX_KEYS_PER_TICK : Z := 1000.

Definition REACTIONS_COALESCE_WINDOW_MS : Z := 500.
Definition REACTIONS_COALESCE_MAX_KEYS_PER_TICK : Z := 500.

Definition JOIN_REQUEST_FANOUT_LIMIT : nat := 200.
Definition WS_REPLAY_BATCH_SIZE : nat := 50.
Definition WS_MAX_CLIENT_FRAME_BYTES : Z := 65536.
Definition DELIVERY_ROUTER_MEMBER_BATCH_SIZE : nat := Z.to_nat 2000.
Definition DELIVERY_ROUTER_ROUTE_LOOKUP_BATCH_SIZE : nat := Z.to_nat 500.
Definition DELIVERY_ROUTER_ACTIVE_SUBSCRIBER_SCAN_BATCH_SIZE : nat := Z.to_nat 1000.

Definition ROOM_MAX_PARTICIPANTS : Z := 100.

Definition MAX_MEDIA_PER_MESSAGE : Z := 10.
Definition MAX_FILES_PER_MESSAGE : Z := 1.

Definition MAX_FILE_SIZE : Z := 100 * 1024 * 1024.
Definition MAX_MEDIA_SIZE : Z := 50 * 1024 * 1024.
Definition MAX_VOICE_SIZE : Z := 20 * 1024 * 1024.
Definition MAX_VIDEO_NOTE_SIZE : Z := 40 * 1024 * 1024.
Definition MAX_VIDEO_NOTE_FPS : Z := 60.
Definition MAX_VOICE_DURATION_SECONDS : Z := 600.
Definition MAX_VIDEO_NOTE_DURATION_SECONDS : Z := 60.
Definition MAX_VIDEO_NOTE_RESOLUTION_PX : Z := 640.

Definition ALLOWED_IMAGE_MIMES : list string := ["image/jpeg"; "image/png"; "image/gif"; "image/webp"]%string.
Definition ALLOWED_VIDEO_MIMES : list string :=
  ["video/mp4"; "video/webm"; "video/quicktime"; "video/x-msvideo"]%string.
Definition ALLOWED_FILE_MIMES : list string := [
  "application/pdf"; "application/zip"; "application/x-zip-compressed"; "application/msword";
  "application/vnd.openxmlformats-officedocument.wordprocessingml.document";
  "application/vnd.ms-excel"; "application/vnd.openxmlformats-officedocument.spreadsheetml.sheet";
  "text/plain"; "text/csv"]%string.
Definition ALLOWED_VOICE_MIMES : list string :=
  ["audio/ogg"; "audio/opus"; "audio/mpeg"; "audio/mp4"; "audio/aac"; "audio/webm"; "audio/x-m4a"]%string.
Definition ALLOWED_VIDEO_NOTE_MIMES : list string := ["video/mp4"; "video/webm"; "video/quicktime"]%string.
Definition ALL_ALLOWED_MIMES : list string :=
  ALLOWED_IMAGE_MIMES ++ ALLOWED_VIDEO_MIMES ++ ALLOWED_FILE_MIMES ++ ALLOWED_VOICE_MIMES
  ++ ALLOWED_VIDEO_NOTE_MIMES.

Definition ATTACHMENT_UPLOAD_TOKEN_TTL : Z := 3600.
Definition ATTACHMENT_POSTER_MAX_SIDE : Z := 1920.
Definition ATTACHMENT_IMAGE_MAX_PIXELS : Z := 100000000.
Definition ATTACHMENT_PREVIEW_SIZES : list Z := [320; 800; 1280].
Definition ATTACHMENT_PREVIEW_FORMAT : string := "webp".
Definition ATTACHMENT_BUCKET : string := "chat-attachments".
Definition ATTACHMENT_BUCKET_PENDING : string := "chat-pending-attachments".

Definition CHAT_AVATAR_BUCKET : string := "chat-avatars".
Definition CHAT_AVATAR_BUCKET_PENDING : string := "chat-pending-avatars".
Definition CHAT_AVATAR_MAX_SIZE : Z := 5 * 1024 * 1024.
Definition CHAT_AVATAR_MAX_PIXELS : Z := 10000000.
Definition CHAT_AVATAR_ALLOWED_MIMES : list string := ["image/jpeg"; "image/png"; "image/webp"]%string.
Definition CHAT_AVATAR_SIZES : list Z := [32; 64; 256; 512].
Definition CHAT_AVATAR_FORMATS : list string := ["jpg"; "webp"]%string.
Definition CHAT_AVATAR_UPLOAD_TTL : Z := 600.

Definition PINNED_MESSAGES_MAX_PAGE_SIZE : Z := 100.
Definition INVITE_LINKS_MAX_PAGE_SIZE : Z := 100.
Definition JOIN_REQUESTS_MAX_PAGE_SIZE : Z := 100.
Definition SHARED_MEDIA_MAX_PAGE_SIZE : Z := 100.
Definition CHAT_MEMBERS_PREVIEW_LIMIT : nat := 3.
Definition READ_MARKS_RETENTION_DAYS : Z := 7.
Definition READ_MARKS_CLEANUP_BATCH_SIZE : nat := Z.to_nat 5000.
Definition READ_MARKS_CLEANUP_MAX_BATCHES : nat := 50.
Definition MESSAGE_SEARCH_MAX_LIMIT : Z := 50.
Definition MESSAGE_SEARCH_MAX_TERMS : nat := 10.
Definition PUBLIC_CHAT_SEARCH_MAX_LIMIT : Z := 50.
Definition PUBLIC_CHAT_SEARCH_MAX_TERMS : nat := 5.

Definition REACTION_RECENT_USERS_LIMIT : nat := 3.
Definition REACTIONS_INCLUDE_RECENT_USERS : bool := true.

Definition DEFAULT_REACTIONS : list text := u8 <$> [
  "👍"; "👎"; "❤️"; "🔥"; "🥰"; "👏"; "😁"; "🤔"; "🤯"; "😱";
  "🤬"; "😢"; "🎉"; "🤩"; "🤮"; "💩"; "🙏"; "👌"; "🕊️"; "🤡";
  "🥱"; "🥴"; "😍"; "🐳"; "❤️‍🔥"; "🌚"; "🌭"; "💯"; "🤣"; "⚡️";
  "🍌"; "🏆"; "💔"; "🤨"; "😐"; "🍓"; "🍾"; "💋"; "🖕"; "😈";
  "😴"; "😭"; "🤓"; "👻"; "👩‍💻"; "👀"; "🎃"; "🙈"; "😇"; "😨";
  "🤝"; "✍️"; "🤗"; "🫡"; "🎅"; "🎄"; "☃️"; "💅"; "🤪"; "🗿";
  "🆒"; "💘"; "🙉"; "🦄"; "😘"; "💊"; "🙊"; "😎"; "👾"; "🤷‍♂️";
  "🤷"; "🤷‍♀️"; "😡"]%string.

End chat_config.

(** Proofs treat the catalogue as a name; evaluation still unfolds it. *)
#[global] Opaque chat_config.DEFAULT_REACTIONS.

Inductive InviteLinkInactiveReason : Type :=
| EXPIRED | REVOKED | USAGE_LIMIT_REACHED.
#[export] Instance InviteLinkInactiveReason_eq_dec : EqDecision InviteLinkInactiveReason.
Proof. solve_decision. Defined.

(** the first member is never raised *)
Inductive AttachmentRejectionReason : Type :=
| MIME_MISMATCH | SIZE_LIMIT_EXCEEDED | DURATION_LIMIT_EXCEEDED | RESOLUTION_LIMIT_EXCEEDED
| FRAME_RATE_LIMIT_EXCEEDED | METADATA_UNREADABLE | PROBE_TIMEOUT | INVALID_MEDIA.

Inductive ReadReceiptsUnavailableReason : Type := CHAT_TYPE | CHAT_TOO_LARGE | MESSAGE_TOO_OLD.

Inductive error : Type :=
| NotFoundChatError (chat_id : UUID)
| NotChatMemberError (chat_id : UUID) (user_id : Z)
| NotFoundMessageError (message_id : UUID)
| AccessDeniedChatError (chat_id : UUID) (requester_id : Z)
| SlowModeOutOfRangeError (seconds : Z)
| SlowModeLimitError (chat_id : UUID) (retry_after : Z)
| AlreadyMemberError (user_id : Z) (chat_id : UUID)
| TooLongChatRoleNameError (role_name : text)
| MemberLimitExceededError (limit : Z)
| MessageTooLongError (length max_length : Z)
| AttachmentLimitExceededError (count : Z)
| AttachmentNotFoundError (attachment_id : text)
| InvalidMessageError (reason : string)
| InvalidReactionError (emoji : text)
| TooManyReactionsError (limit : Z) (scope : string)
| ReactionsDisabledError (chat_id : UUID)
| ReactionNotAllowedError (emoji : text) (allowed : list text)
| InvalidChatRoleError (role_id : Z)
| PinnedChatsLimitExceededError (limit : Z)
| InvalidChatUsernameError (username : text) (reason : string)
| ChatUsernameTakenError (username : text)
| ChatUsernameNotAllowedError (chat_id : UUID) (reason : string)
| InvalidOwnershipTransferError (chat_id : UUID) (reason : string)
| NotFoundInviteLinkError (invite : text)
| NotFoundInviteLinkIdError (invite : UUID)
| InviteLinkExpiredError (reason : InviteLinkInactiveReason)
| InvalidInviteLinkError (reason : string)
| InviteLinksLimitExceededError (limit : Z)
| UserBlockedError (chat_id : option UUID) (user_id : Z)
| MessagesPrivacyRestrictedError (chat_id : option UUID) (user_id : Z)
| CallsPrivacyRestrictedError (chat_id : option UUID) (user_id : Z)
| UserPrivacyRestrictedError (user_ids : list Z)
| PinnedMessagesLimitExceededError (chat_id : UUID) (limit : Z)
| SlowModeMultipleMessagesError (chat_id : UUID) (count : Z)
| NotFoundJoinRequestError (chat_id : UUID) (user_id : Z)
| JoinRequestPendingError (chat_id : UUID) (user_id : Z)
| JoinRequestRetryLaterError (chat_id : UUID) (user_id : Z) (retry_after : Z)
| JoinRequestsLimitExceededError (chat_id : UUID)
| JoinRequestNotAllowedError (chat_id : UUID) (reason : string)
| AttachmentValidationError (mime_type : string)
| AttachmentMediaValidationError (reason : AttachmentRejectionReason) (attachment_id : UUID) (limit : option Z)
| InvalidUploadTokenError (token : UUID)
| EmptyAttachmentUploadRequestError
| NotFoundChatUsernameError (username : text)
| ChatAvatarValidationError (reason : string)
| ReadReceiptsUnavailableError (chat_id : UUID) (reason : ReadReceiptsUnavailableReason)
(** a unique constraint of the database rejected a row *)
| IntegrityError (constraint : string)
(** Python's [IndexError] and [ValueError], which no handler catches *)
| IndexError
| ValueError.

(** [status] of each class; an [IntegrityError] is not an [ApplicationError]
    and surfaces as an internal error. *)
Definition error_status (e : error) : Z :=
  match e with
  | NotFoundChatError _ => 404
  | NotChatMemberError _ _ => 403
  | NotFoundMessageError _ => 404
  | AccessDeniedChatError _ _ => 403
  | SlowModeOutOfRangeError _ => 400
  | SlowModeLimitError _ _ => 429
  | AlreadyMemberError _ _ => 409
  | TooLongChatRoleNameError _ => 400
  | MemberLimitExceededError _ => 400
  | MessageTooLongError _ _ => 400
  | AttachmentLimitExceededError _ => 400
  | AttachmentNotFoundError _ => 404
  | InvalidMessageError _ => 400
  | InvalidReactionError _ => 400
  | TooManyReactionsError _ _ => 400
  | ReactionsDisabledError _ => 403
  | ReactionNotAllowedError _ _ => 400
  | InvalidChatRoleError _ => 422
  | PinnedChatsLimitExceededError _ => 400
  | InvalidChatUsernameError _ _ => 400
  | ChatUsernameTakenError _ => 409
  | ChatUsernameNotAllowedError _ _ => 400
  | InvalidOwnershipTransferError _ _ => 400
  | NotFoundInviteLinkError _ => 404
  | NotFoundInviteLinkIdError _ => 404
  | InviteLinkExpiredError _ => 410
  | InvalidInviteLinkError _ => 400
  | InviteLinksLimitExceededError _ => 400
  | UserBlockedError _ _ => 403
  | MessagesPrivacyRestrictedError _ _ => 403
  | CallsPrivacyRestrictedError _ _ => 403
  | UserPrivacyRestrictedError _ => 403
  | PinnedMessagesLimitExceededError _ _ => 400
  | SlowModeMultipleMessagesError _ _ => 400
  | NotFoundJoinRequestError _ _ => 404
  | JoinRequestPendingError _ _ => 409
  | JoinRequestRetryLaterError _ _ _ => 429
  | JoinRequestsLimitExceededError _ => 400
  | JoinRequestNotAllowedError _ _ => 400
  | AttachmentValidationError _ => 400
  | AttachmentMediaValidationError _ _ _ => 400
  | InvalidUploadTokenError _ => 400
  | EmptyAttachmentUploadRequestError => 400
  | NotFoundChatUsernameError _ => 404
  | ChatAvatarValidationError _ => 400
  | ReadReceiptsUnavailableError _ _ => 400
  | IntegrityError _ => 500
  | IndexError => 500
  | ValueError => 500
  end.

(** [code] of each class *)
Definition error_code (e : error) : string :=
  match e with
  | NotFoundChatError _ => "NOT_FOUND_CHAT"
  | NotChatMemberError _ _ => "NOT_CHAT_MEMBER"
  | NotFoundMessageError _ => "NOT_FOUND_MESSAGE"
  | AccessDeniedChatError _ _ => "CHAT_ACCESS_DENIED"
  | SlowModeOutOfRangeError _ => "SLOW_MODE_OUT_OF_RANGE"
  | SlowModeLimitError _ _ => "SLOW_MODE_LIMIT"
  | AlreadyMemberError _ _ => "ALREADY_CHAT_MEMBER"
  | TooLongChatRoleNameError _ => "TOO_LONG_CHAT_ROLE_NAME"
  | MemberLimitExceededError _ => "MEMBER_LIMIT_EXCEEDED"
  | MessageTooLongError _ _ => "MESSAGE_TOO_LONG"
  | AttachmentLimitExceededError _ => "ATTACHMENT_LIMIT_EXCEEDED"
  | AttachmentNotFoundError _ => "ATTACHMENT_NOT_FOUND"
  | InvalidMessageError _ => "INVALID_MESSAGE"
  | InvalidReactionError _ => "INVALID_REACTION"
  | TooManyReactionsError _ _ => "TOO_MANY_REACTIONS"
  | ReactionsDisabledError _ => "REACTIONS_DISABLED"
  | ReactionNotAllowedError _ _ => "REACTION_NOT_ALLOWED"
  | InvalidChatRoleError _ => "INVALID_CHAT_ROLE"
  | PinnedChatsLimitExceededError _ => "PINNED_CHATS_LIMIT_EXCEEDED"
  | InvalidChatUsernameError _ _ => "INVALID_CHAT_USERNAME"
  | ChatUsernameTakenError _ => "CHAT_USERNAME_TAKEN"
  | ChatUsernameNotAllowedError _ _ => "CHAT_USERNAME_NOT_ALLOWED"
  | InvalidOwnershipTransferError _ _ => "INVALID_OWNERSHIP_TRANSFER"
  | NotFoundInviteLinkError _ => "NOT_FOUND_INVITE_LINK"
  | NotFoundInviteLinkIdError _ => "NOT_FOUND_INVITE_LINK"
  | InviteLinkExpiredError _ => "INVITE_LINK_EXPIRED"
  | InvalidInviteLinkError _ => "INVALID_INVITE_LINK"
  | InviteLinksLimitExceededError _ => "INVITE_LINKS_LIMIT_EXCEEDED"
  | UserBlockedError _ _ => "USER_BLOCKED"
  | MessagesPrivacyRestrictedError _ _ => "MESSAGES_PRIVACY_RESTRICTED"
  | CallsPrivacyRestrictedError _ _ => "CALLS_PRIVACY_RESTRICTED"
  | UserPrivacyRestrictedError _ => "USER_PRIVACY_RESTRICTED"
  | PinnedMessagesLimitExceededError _ _ => "PINNED_MESSAGES_LIMIT_EXCEEDED"
  | SlowModeMultipleMessagesError _ _ => "SLOW_MODE_MULTIPLE_MESSAGES"
  | NotFoundJoinRequestError _ _ => "NOT_FOUND_JOIN_REQUEST"
  | JoinRequestPendingError _ _ => "JOIN_REQUEST_PENDING"
  | JoinRequestRetryLaterError _ _ _ => "JOIN_REQUEST_RETRY_LATER"
  | JoinRequestsLimitExceededError _ => "JOIN_REQUESTS_LIMIT_EXCEEDED"
  | JoinRequestNotAllowedError _ _ => "JOIN_REQUEST_NOT_ALLOWED"
  | AttachmentValidationError _ => "ATTACHMENT_VALIDATION"
  | AttachmentMediaValidationError _ _ _ => "ATTACHMENT_MEDIA_VALIDATION"
  | InvalidUploadTokenError _ => "INVALID_UPLOAD_TOKEN"
  | EmptyAttachmentUploadRequestError => "EMPTY_ATTACHMENT_UPLOAD_REQUEST"
  | NotFoundChatUsernameError _ => "NOT_FOUND_CHAT_USERNAME"
  | ChatAvatarValidationError _ => "CHAT_AVATAR_VALIDATION"
  | ReadReceiptsUnavailableError _ _ => "READ_RECEIPTS_UNAVAILABLE"
  | IntegrityError _ => "INTERNAL_EXCEPTION"
  | IndexError => "INTERNAL_EXCEPTION"
  | ValueError => "INTERNAL_EXCEPTION"
  end%string.
