(* ===== verification/Events.v ===== *)
(** Domain events of the chat aggregate and their outbox rows
    ([app/core/events/event.py], the event dataclasses of [app/chats/models],
    [app/core/events/mediator/service.py], [app/core/outbox]).

    A payload keeps ids and instants as values where the code renders them
    with [str] or [isoformat]. The [event_id] and [created_at] fields are
    dropped from the payload by [event_to_payload]; the [event_id] survives as
    the primary key of the outbox row, which the unit of work assigns. *)
From S2P Require Import Prelude.

(** [dict[str, dict[str, str]]]: avatar renditions by size and format *)
Abbreviation Avatars := (list (text * list (text * text))) (only parsing).

Record ReactionGroupSnapshot : Type := MkReactionGroup {
  rg_emoji : text;
  rg_count : Z;
}.

Record UpdatedChat : Type := MkUpdatedChat {
  uc_chat_id : UUID;
  uc_updated_by : Z;
  uc_name : option text;
  uc_description : option text;
  uc_is_public : bool;
  uc_admin_only : bool;
  uc_slow_mode_seconds : Z;
  uc_permissions : gmap string bool;
  uc_reactions_mode : string;
  uc_allowed_reactions : list text;
  uc_username : option text;
  uc_avatar_s3_key : option text;
  uc_join_by_request : bool;
  uc_avatars : Avatars;
}.

Inductive event : Type :=
| CreatedChatEvent (chat_id : UUID) (created_by : Z) (name : option text)
    (member_ids : list Z) (chat_type : string) (member_count : Z)
| UpdatedChatEvent (u : UpdatedChat)
| TransferredChatOwnershipEvent (chat_id : UUID)
    (requester_id previous_owner_id new_owner_id : Z)
| DeletedChatEvent (chat_id : UUID) (deleted_by : Z)
| AddedChatMemberEvent (chat_id : UUID) (user_id role_id : Z)
| KickedChatMemberEvent (chat_id : UUID) (requester_id target_user_id : Z)
| BannedChatMemberEvent (chat_id : UUID) (requester_id target_user_id : Z) (ban : bool)
| MutedChatMemberEvent (chat_id : UUID) (requester_id target_user_id : Z) (mute : bool)
    (muted_until : option datetime)
| LeftChatMemberEvent (chat_id : UUID) (user_id : Z)
| SendedMessageEvent (message_id chat_id : UUID) (seq : Z) (sender_id : option Z)
    (message_type : string) (notify : bool)
| ReadedMessageEvent (chat_id : UUID) (seq reader_id : Z)
| ModifiedMessageEvent (message_id chat_id : UUID) (seq modified_by : Z)
| DeletedMessageEvent (message_id chat_id : UUID) (seq deleted_by : Z)
| PinnedMessageEvent (chat_id message_id : UUID) (seq pinned_by : Z) (pinned_at : datetime)
| UnpinnedMessagesEvent (chat_id : UUID) (message_ids : list UUID) (unpinned_by : Z) (all : bool)
| CreatedChatJoinRequestEvent (chat_id : UUID) (user_id : Z) (invite_link_id : option UUID)
    (requested_at : datetime)
| ApprovedChatJoinRequestsEvent (chat_id : UUID) (user_ids : list Z) (resolved_by role_id : Z)
| DeclinedChatJoinRequestsEvent (chat_id : UUID) (user_ids : list Z) (resolved_by count : Z)
    (all : bool)
| CancelledChatJoinRequestEvent (chat_id : UUID) (user_id : Z)
| ReactionUpdatedEvent (message_id chat_id : UUID) (actor_id : Z) (action : string)
    (groups : list ReactionGroupSnapshot) (recent_by_emoji : list (text * list Z)).

(** [BaseEvent.get_name]: the class attribute [__event_name__] *)
Definition get_name (e : event) : string :=
  match e with
  | CreatedChatEvent _ _ _ _ _ _ => "chats.chat.created"
  | UpdatedChatEvent _ => "chats.chat.updated"
  | TransferredChatOwnershipEvent _ _ _ _ => "chats.chat.ownership_transferred"
  | DeletedChatEvent _ _ => "chats.chat.deleted"
  | AddedChatMemberEvent _ _ _ => "chats.member.added"
  | KickedChatMemberEvent _ _ _ => "chats.member.kicked"
  | BannedChatMemberEvent _ _ _ _ => "chats.member.banned"
  | MutedChatMemberEvent _ _ _ _ _ => "chats.member.muted"
  | LeftChatMemberEvent _ _ => "chats.member.left"
  | SendedMessageEvent _ _ _ _ _ _ => "chats.message.sent"
  | ReadedMessageEvent _ _ _ => "chats.message.readed"
  | ModifiedMessageEvent _ _ _ _ => "chats.message.modified"
  | DeletedMessageEvent _ _ _ _ => "chats.message.deleted"
  | PinnedMessageEvent _ _ _ _ _ => "chats.message.pinned"
  | UnpinnedMessagesEvent _ _ _ _ => "chats.message.unpinned"
  | CreatedChatJoinRequestEvent _ _ _ _ => "chats.join_request.created"
  | ApprovedChatJoinRequestsEvent _ _ _ _ => "chats.join_request.approved"
  | DeclinedChatJoinRequestsEvent _ _ _ _ _ => "chats.join_request.declined"
  | CancelledChatJoinRequestEvent _ _ => "chats.join_request.cancelled"
  | ReactionUpdatedEvent _ _ _ _ _ _ => "chats.message.reaction_updated"
  end%string.

(** [get_aggregate_id]: every chat event is keyed by its chat *)
Definition get_aggregate_id (e : event) : UUID :=
  match e with
  | CreatedChatEvent c _ _ _ _ _ => c
  | UpdatedChatEvent u => uc_chat_id u
  | TransferredChatOwnershipEvent c _ _ _ => c
  | DeletedChatEvent c _ => c
  | AddedChatMemberEvent c _ _ => c
  | KickedChatMemberEvent c _ _ => c
  | BannedChatMemberEvent c _ _ _ => c
  | MutedChatMemberEvent c _ _ _ _ => c
  | LeftChatMemberEvent c _ => c
  | SendedMessageEvent _ c _ _ _ _ => c
  | ReadedMessageEvent c _ _ => c
  | ModifiedMessageEvent _ c _ _ => c
  | DeletedMessageEvent _ c _ _ => c
  | PinnedMessageEvent c _ _ _ _ => c
  | UnpinnedMessagesEvent c _ _ _ => c
  | CreatedChatJoinRequestEvent c _ _ _ => c
  | ApprovedChatJoinRequestsEvent c _ _ _ => c
  | DeclinedChatJoinRequestsEvent c _ _ _ _ => c
  | CancelledChatJoinRequestEvent c _ => c
  | ReactionUpdatedEvent _ c _ _ _ _ => c
  end.

(** [s.split(".")] *)
Fixpoint split_dot (s : string) : list string :=
  match s with
  | EmptyString => [EmptyString]
  | String c s' =>
    if decide (c = Ascii.ascii_of_nat 46) then EmptyString :: split_dot s'
    else match split_dot s' with
         | w :: ws => String c w :: ws
         | [] => [String c EmptyString]
         end
  end.

(** A row of [outbox_messages] *)
Record OutboxMessage : Type := MkOutbox {
  ob_id : UUID;
  ob_event_name : string;
  ob_aggregate_type : string;
  ob_aggregate_id : UUID;
  ob_topic : string;
  ob_payload : event;
}.

(** The row [MediatorEventBus.publish] writes for an event; [names[1]] and
    [names[0]] raise [IndexError] on a name with fewer parts. *)
Definition outbox_of_event (event_id : UUID) (e : event) : option OutboxMessage :=
  let names := split_dot (get_name e) in
  aggregate_type ← names !! 1%nat;
  topic ← names !! 0%nat;
  Some (MkOutbox event_id (get_name e) aggregate_type (get_aggregate_id e) topic e).

(** Publishing a chat event never fails on its name and always targets the
    Kafka topic [chats]. *)
Lemma outbox_of_event_topic id e :
  ∃ ob, outbox_of_event id e = Some ob ∧ ob_topic ob = "chats"%string ∧
        ob_payload ob = e ∧ ob_aggregate_id ob = get_aggregate_id e ∧ ob_id ob = id.
Proof. destruct e; (eexists; split; [reflexivity|done]). Qed.
