(* ===== verification/MemberModel.v ===== *)
(** Chat roles and their permissions ([app/chats/models/chat_roles.py], [permission.py]); a chat membership row and its ban, mute, pin, archive and draft operations ([app/chats/models/chat_members.py]). Each [now_utc()] a method evaluates is an argument of its model, in evaluation order: two reads of the clock may differ. *)
From S2P Require Import Prelude Config.

Inductive ChatRoleId : Type :=
| OWNER | ADMIN | EDITOR | DIRECT_MEMBER | MEMBER | VIEWER.
#[export] Instance ChatRoleId_eq_dec : EqDecision ChatRoleId.
Proof. solve_decision. Defined.

(** [int(role)] for the [IntEnum] *)
Definition role_int (r : ChatRoleId) : Z :=
  match r with
  | OWNER => 1 | ADMIN => 2 | EDITOR => 3 | DIRECT_MEMBER => 4 | MEMBER => 5 | VIEWER => 6
  end.

(** [ChatRoleId(role_id)]; [None] is the [ValueError] *)
Definition role_of_int (n : Z) : option ChatRoleId :=
  match n with
  | 1 => Some OWNER | 2 => Some ADMIN | 3 => Some EDITOR
  | 4 => Some DIRECT_MEMBER | 5 => Some MEMBER | 6 => Some VIEWER
  | _ => None
  end.

Definition CHAT_ROLE_LEVELS (r : ChatRoleId) : Z :=
  match r with
  | OWNER => 100 | ADMIN => 90 | EDITOR => 80 | DIRECT_MEMBER => 70 | MEMBER => 10 | VIEWER => 1
  end.

Definition chat_role_level (role_id : Z) : option Z :=
  match role_of_int role_id with
  | Some r => Some (CHAT_ROLE_LEVELS r)
  | None => None
  end.

(** [dict[str, bool]] *)
Abbreviation permission_map := (gmap string bool) (only parsing).

Definition OWNER_PERMISSIONS : permission_map := list_to_map [
  ("chat:delete", true); ("chat:update", true); ("chat:get", true);
  ("member:invite", true); ("member:kick", true); ("member:ban", true); ("member:mute", true);
  ("role:change", true); ("permission:update", true);
  ("message:read", true);
  ("message:delete", true); ("message:send", true); ("message:pin", true);
  ("message:send_admin_only", true);
  ("settings:update", true); ("settings:get", true);
  ("channel:publish", true); ("channel:edit", true); ("channel:manage_subscribers", true);
  ("slowmode:bypass", true);
  ("call:join", true); ("call:mute_member", true); ("call:end", true)]%string.

Definition ADMIN_PERMISSIONS : permission_map :=
  <["chat:delete"%string := false]> OWNER_PERMISSIONS.

Definition EDITOR_PERMISSIONS : permission_map := list_to_map [
  ("chat:delete", false); ("chat:update", false); ("chat:get", true);
  ("member:invite", false); ("member:kick", false); ("member:ban", false); ("member:mute", false);
  ("role:change", false); ("permission:update", false);
  ("message:read", true);
  ("message:delete", true); ("message:send", true); ("message:pin", true);
  ("message:send_admin_only", true);
  ("settings:update", false); ("settings:get", true);
  ("channel:publish", true); ("channel:edit", true); ("channel:manage_subscribers", false);
  ("slowmode:bypass", true);
  ("call:join", true); ("call:mute_member", false); ("call:end", false)]%string.

Definition DIRECT_MEMBER_PERMISSIONS : permission_map := list_to_map [
  ("chat:delete", false); ("chat:update", false); ("chat:get", true);
  ("member:invite", false); ("member:kick", false); ("member:ban", false); ("member:mute", false);
  ("role:change", false); ("permission:update", false);
  ("message:read", true);
  ("message:delete", false); ("message:send", true); ("message:pin", true);
  ("message:send_admin_only", false);
  ("settings:update", false); ("settings:get", true);
  ("channel:publish", false); ("channel:edit", false); ("channel:manage_subscribers", false);
  ("slowmode:bypass", true);
  ("call:join", true); ("call:mute_member", false); ("call:end", true)]%string.

Definition MEMBER_PERMISSIONS : permission_map := list_to_map [
  ("chat:delete", false); ("chat:update", false); ("chat:get", true);
  ("member:invite", false); ("member:kick", false); ("member:ban", false); ("member:mute", false);
  ("role:change", false); ("permission:update", false);
  ("message:read", true);
  ("message:delete", false); ("message:send", true); ("message:pin", false);
  ("message:send_admin_only", false);
  ("settings:update", false); ("settings:get", true);
  ("channel:publish", false); ("channel:edit", false); ("channel:manage_subscribers", false);
  ("slowmode:bypass", false);
  ("call:join", true); ("call:mute_member", false); ("call:end", false)]%string.

Definition VIEWER_PERMISSIONS : permission_map := list_to_map [
  ("chat:delete", false); ("chat:update", false); ("chat:get", true);
  ("member:invite", false); ("member:kick", false); ("member:ban", false); ("member:mute", false);
  ("role:change", false); ("permission:update", false);
  ("message:read", true);
  ("message:delete", false); ("message:send", false); ("message:pin", false);
  ("message:send_admin_only", false);
  ("settings:update", false); ("settings:get", true);
  ("channel:publish", false); ("channel:edit", false); ("channel:manage_subscribers", false);
  ("slowmode:bypass", false);
  ("call:join", true); ("call:mute_member", false); ("call:end", false)]%string.

Module ChatRole.
Record t : Type := Mk {
  id : ChatRoleId;
  name : text;
  level : Z;
  permissions : permission_map;
}.

Definition _validate_role_name (name : text) : result error unit :=
  raise_if (32 <? len name) (TooLongChatRoleNameError name).

(** [create]: the id is assigned by the database; validation runs on the
    built instance. *)
Definition create (id : ChatRoleId) (name : text) (level : Z) (permissions : permission_map)
  : result error t :=
  let instance := Mk id name level permissions in
  _ ← _validate_role_name name;
  mret instance.

(** [bool(self.permissions.get(key))] *)
Definition has_permission (r : t) (permission_key : string) : bool :=
  default false (permissions r !! permission_key).
End ChatRole.

(** The rows of [chat_roles]: [ChatRolesEnum], inserted by [init_data] and
    never changed afterwards. A member's [role] relationship is the row its
    [role_id] references. *)
Definition ChatRolesEnum (r : ChatRoleId) : ChatRole.t :=
  match r with
  | OWNER => ChatRole.Mk OWNER (u8 "owner") (CHAT_ROLE_LEVELS OWNER) OWNER_PERMISSIONS
  | ADMIN => ChatRole.Mk ADMIN (u8 "admin") (CHAT_ROLE_LEVELS ADMIN) ADMIN_PERMISSIONS
  | EDITOR => ChatRole.Mk EDITOR (u8 "editor") (CHAT_ROLE_LEVELS EDITOR) EDITOR_PERMISSIONS
  | DIRECT_MEMBER =>
    ChatRole.Mk DIRECT_MEMBER (u8 "direct") (CHAT_ROLE_LEVELS DIRECT_MEMBER)
      DIRECT_MEMBER_PERMISSIONS
  | MEMBER => ChatRole.Mk MEMBER (u8 "member") (CHAT_ROLE_LEVELS MEMBER) MEMBER_PERMISSIONS
  | VIEWER => ChatRole.Mk VIEWER (u8 "viewer") (CHAT_ROLE_LEVELS VIEWER) VIEWER_PERMISSIONS
  end.

Definition get_all_chat_roles : list ChatRole.t :=
  ChatRolesEnum <$> [OWNER; ADMIN; EDITOR; DIRECT_MEMBER; MEMBER; VIEWER].

(** ** Lemmas *)

Lemma role_of_int_inv n r : role_of_int n = Some r ↔ n = role_int r.
Proof.
  split; [|by intros ->; destruct r].
  intros Hr. unfold role_of_int in Hr. repeat case_match; by simplify_eq/=.
Qed.

Lemma role_of_role_int r : role_of_int (role_int r) = Some r.
Proof. by destruct r. Qed.

Lemma chat_role_level_Some n l :
  chat_role_level n = Some l ↔ ∃ r, n = role_int r ∧ l = CHAT_ROLE_LEVELS r.
Proof.
  unfold chat_role_level. split.
  - case_match eqn:Hr; [|done]. intros [= <-]. apply role_of_int_inv in Hr. eauto.
  - intros (r & -> & ->). by rewrite role_of_role_int.
Qed.

(** No role outranks the owner, and the owner is alone at its level. *)
Lemma role_level_le_owner r : CHAT_ROLE_LEVELS r ≤ CHAT_ROLE_LEVELS OWNER.
Proof. by destruct r. Qed.

Lemma role_level_owner r : CHAT_ROLE_LEVELS OWNER ≤ CHAT_ROLE_LEVELS r → r = OWNER.
Proof. destruct r; simpl; by intros ?; try lia. Qed.

Lemma role_row_level r : ChatRole.level (ChatRolesEnum r) = CHAT_ROLE_LEVELS r.
Proof. by destruct r. Qed.

(** Only the roles below [ADMIN] cannot manage members. *)
Lemma role_permission_manage r p :
  p ∈ ["member:kick"; "member:ban"; "member:mute"; "role:change"; "member:invite";
       "chat:update"; "call:mute_member"]%string →
  ChatRole.has_permission (ChatRolesEnum r) p = true ↔ r = OWNER ∨ r = ADMIN.
Proof.
  intros Hp. repeat setoid_rewrite elem_of_cons in Hp. rewrite elem_of_nil in Hp.
  destruct_or! Hp; try done; subst; destruct r; vm_compute; naive_solver.
Qed.

#[export] Hint Resolve role_level_le_owner : msgr.
#[export] Hint Rewrite role_of_role_int role_row_level : msgr.

Module ChatMember.

(** [datetime(9999, 12, 31, tzinfo=UTC)] *)
Definition PERMANENT_UNTIL : datetime := seconds 253402214400.

(** A row of [chat_member_bans] *)
Record ChatMemberBan : Type := MkBan {
  ban_member_id : Z;
  banned_by_user_id : Z;
  ban_reason : option text;
  ban_banned_at : datetime;
  ban_banned_until : option datetime;
}.

Record t : Type := Mk {
  id : Z;
  chat_id : UUID;
  user_id : Z;
  role_id : ChatRoleId;
  muted_until : option datetime;
  banned_until : option datetime;
  pinned_at : option datetime;
  archived_at : option datetime;
  notifications_muted_until : option datetime;
  draft : option text;
  draft_updated_at : option datetime;
  permissions_overrides : gmap string bool;
  bans : list ChatMemberBan;
}.
#[global] Instance settable : Settable t := λ m,
  Mk (id m) (chat_id m) (user_id m) (role_id m) (muted_until m) (banned_until m)
     (pinned_at m) (archived_at m) (notifications_muted_until m) (draft m)
     (draft_updated_at m) (permissions_overrides m) (bans m).

(** The row is inserted with the column defaults; [id] is assigned by the
    database. *)
Definition create (chat_id : UUID) (user_id : Z) (role_id : ChatRoleId) : t :=
  Mk 0 chat_id user_id role_id None None None None None None None ∅ [].

Definition role (m : t) : ChatRole.t := ChatRolesEnum (role_id m).

(** [until is None -> PERMANENT_UNTIL; until <= now_utc() -> None; until]:
    shared by [ban] and [mute] *)
Definition effective_until (now : datetime) (until : option datetime) : option datetime :=
  match until with
  | None => Some PERMANENT_UNTIL
  | Some u => if u <=? now then None else Some u
  end.

Definition ban (now1 now2 : datetime) (m : t) (banned_by : Z) (reason : option text)
  (banned_until' : option datetime) : t :=
  let m := m <| banned_until := effective_until now1 banned_until' |> in
  m <| bans := bans m ++ [MkBan (id m) banned_by reason now2 (banned_until m)] |>.

Definition unban (now : datetime) (m : t) (unbanned_by : Z) : t :=
  let m := m <| banned_until := None |> in
  m <| bans := bans m ++ [MkBan (id m) unbanned_by None now None] |>.

Definition mute (now : datetime) (m : t) (muted_until' : option datetime) : t :=
  m <| muted_until := effective_until now muted_until' |>.

Definition unmute (m : t) : t := m <| muted_until := None |>.

Definition set_pinned (now : datetime) (m : t) (pinned : bool) : t :=
  m <| pinned_at := if pinned then Some now else None |>.

Definition set_archived (now : datetime) (m : t) (archived : bool) : t :=
  m <| archived_at := if archived then Some now else None |>.

Definition mute_notifications (now : datetime) (m : t) (until : option datetime) : t :=
  m <| notifications_muted_until :=
    match until with
    | None => None
    | Some u => if u <=? now then None else Some u
    end |>.

Definition set_draft (now : datetime) (m : t) (d : option text) : t :=
  let cleaned := strip <$> d in
  let m := m <| draft := or_none cleaned |> in
  m <| draft_updated_at := if is_some (draft m) then Some now else None |>.

(** [perms = role.permissions.copy(); perms.update(overrides)] *)
Definition effective_permissions (m : t) : gmap string bool :=
  permissions_overrides m ∪ ChatRole.permissions (role m).

Definition has_permission (m : t) (permission_key : string) : bool :=
  match permissions_overrides m !! permission_key with
  | Some b => b
  | None => ChatRole.has_permission (role m) permission_key
  end.

Definition is_banned (now : datetime) (m : t) : bool :=
  match banned_until m with
  | Some u => now <? u
  | None => false
  end.

Definition is_pinned (m : t) : bool := is_some (pinned_at m).
Definition is_archived (m : t) : bool := is_some (archived_at m).

Definition is_muted (now : datetime) (m : t) : bool :=
  match muted_until m with
  | Some u => now <? u
  | None => false
  end.

Definition is_staff (m : t) : bool :=
  chat_config.CHAT_STAFF_MIN_ROLE_LEVEL <=? ChatRole.level (role m).

Definition is_editor_or_above (m : t) : bool :=
  chat_config.CHAT_EDITOR_MIN_ROLE_LEVEL <=? ChatRole.level (role m).

Definition is_channel_subscriber (m : t) : bool := bool_decide (role_id m = VIEWER).

Definition is_channel_staff (m : t) : bool :=
  bool_decide (role_id m ∈ [OWNER; ADMIN; EDITOR]) || is_editor_or_above m.

Definition can_bypass_slow_mode (m : t) : bool :=
  is_staff m || has_permission m "slowmode:bypass".

(** ** Lemmas *)

(** The two ways the code asks for a permission agree. *)
Lemma has_permission_effective m p :
  has_permission m p = default false (effective_permissions m !! p).
Proof.
  unfold has_permission, effective_permissions, ChatRole.has_permission.
  destruct (permissions_overrides m !! p) eqn:Ho.
  - by erewrite lookup_union_Some_l.
  - by rewrite lookup_union_r.
Qed.

Lemma is_banned_ban now1 now2 now3 m by_ reason until :
  is_banned now3 (ban now1 now2 m by_ reason until) =
  match until with
  | None => now3 <? PERMANENT_UNTIL
  | Some u => negb (u <=? now1) && (now3 <? u)
  end.
Proof.
  unfold is_banned, ban, effective_until; simpl.
  destruct until as [u|]; [|done]. by destruct (u <=? now1).
Qed.

Lemma is_muted_mute now1 now2 m until :
  is_muted now2 (mute now1 m until) =
  match until with
  | None => now2 <? PERMANENT_UNTIL
  | Some u => negb (u <=? now1) && (now2 <? u)
  end.
Proof.
  unfold is_muted, mute, effective_until; simpl.
  destruct until as [u|]; [|done]. by destruct (u <=? now1).
Qed.

Lemma is_staff_roles m :
  is_staff m = true ↔ role_id m ∈ [OWNER; ADMIN; EDITOR].
Proof.
  unfold is_staff, role. rewrite role_row_level, Z.leb_le, !elem_of_cons, elem_of_nil.
  destruct (role_id m); simpl; unfold chat_config.CHAT_STAFF_MIN_ROLE_LEVEL; naive_solver lia.
Qed.

End ChatMember.
