(* ===== verification/InviteModel.v ===== *)
(** Invite links and join requests: [app/chats/models/invite.py] and [join_request.py]. *)
From S2P Require Import Prelude Config Events.

Module ChatInviteLink.

Record t : Type := Mk {
  id : UUID;
  chat_id : UUID;
  code : text;
  name : option text;
  created_by : Z;
  expires_at : option datetime;
  usage_limit : option Z;
  usage_count : Z;
  revoked_at : option datetime;
  creates_join_request : bool;
}.
#[global] Instance settable : Settable t := λ i,
  Mk (id i) (chat_id i) (code i) (name i) (created_by i) (expires_at i) (usage_limit i)
     (usage_count i) (revoked_at i) (creates_join_request i).

(** [create]: [uuid] is [uuid7()], [token] is [secrets.token_urlsafe(...)] *)
Definition create (now : datetime) (uuid : UUID) (token : text) (chat_id : UUID)
  (created_by : Z) (name : option text) (expires_at : option datetime)
  (usage_limit : option Z) (creates_join_request : bool) : result error t :=
  _ ← raise_if (match expires_at with Some e => e <=? now | None => false end)
        (InvalidInviteLinkError "expires_at_in_past");
  _ ← raise_if
        (match usage_limit with
         | Some l => negb ((1 <=? l) && (l <=? chat_config.INVITE_LINK_MAX_USAGE_LIMIT))
         | None => false
         end)
        (InvalidInviteLinkError "usage_limit_out_of_range");
  _ ← raise_if (creates_join_request && is_some usage_limit)
        (InvalidInviteLinkError "request_link_with_usage_limit");
  let cleaned_name := strip <$> name in
  mret (Mk uuid chat_id token (or_none cleaned_name) created_by expires_at usage_limit 0 None
           creates_join_request).

Definition revoke (now : datetime) (i : t) : t :=
  match revoked_at i with
  | None => i <| revoked_at := Some now |>
  | Some _ => i
  end.

Definition is_revoked (i : t) : bool := is_some (revoked_at i).

Definition is_expired (now : datetime) (i : t) : bool :=
  match expires_at i with Some e => e <=? now | None => false end.

Definition is_exhausted (i : t) : bool :=
  match usage_limit i with Some l => l <=? usage_count i | None => false end.

Definition inactive_reason (now : datetime) (i : t) : option InviteLinkInactiveReason :=
  if is_revoked i then Some REVOKED
  else if is_expired now i then Some EXPIRED
  else if is_exhausted i then Some USAGE_LIMIT_REACHED
  else None.

Definition is_active (now : datetime) (i : t) : bool := is_none (inactive_reason now i).

(** The usage discipline of a link: a bounded link never exceeds its bound and
    never files join requests (whose approvals are credited without a check). *)
Definition usage_ok (i : t) : Prop :=
  0 ≤ usage_count i ∧
  ∀ l, usage_limit i = Some l → usage_count i ≤ l ∧ creates_join_request i = false.

Lemma create_usage_ok now uuid token cid by_ name exp lim req i :
  create now uuid token cid by_ name exp lim req = Ok i → usage_ok i.
Proof.
  unfold create. intros Hc. result_inv Hc. subst. split; simpl; [lia|].
  intros l ->. simpl in *. bool_simpl. rewrite andb_true_r in *. by split; [lia|].
Qed.

End ChatInviteLink.

Inductive JoinRequestStatus : Type := JR_PENDING | JR_APPROVED | JR_DECLINED.
#[export] Instance JoinRequestStatus_eq_dec : EqDecision JoinRequestStatus.
Proof. solve_decision. Defined.

Module ChatJoinRequest.

Record t : Type := Mk {
  chat_id : UUID;
  user_id : Z;
  invite_link_id : option UUID;
  status : JoinRequestStatus;
  requested_at : datetime;
  resolved_at : option datetime;
  resolved_by : option Z;
  events : list event;
}.
#[global] Instance settable : Settable t := λ r,
  Mk (chat_id r) (user_id r) (invite_link_id r) (status r) (requested_at r) (resolved_at r)
     (resolved_by r) (events r).

Definition register_event (r : t) (e : event) : t := r <| events := events r ++ [e] |>.
Definition pull_events (r : t) : list event * t := (events r, r <| events := [] |>).

Definition _register_created (r : t) : t :=
  register_event r
    (CreatedChatJoinRequestEvent (chat_id r) (user_id r) (invite_link_id r) (requested_at r)).

Definition create (now : datetime) (chat_id : UUID) (user_id : Z)
  (invite_link_id : option UUID) : t :=
  _register_created (Mk chat_id user_id invite_link_id JR_PENDING now None None []).

Definition is_pending (r : t) : bool := is_none (resolved_at r).

Definition retry_at (r : t) : option datetime :=
  match status r, resolved_at r with
  | JR_DECLINED, Some at_ => Some (at_ + seconds chat_config.JOIN_REQUEST_RETRY_AFTER_SECONDS)
  | _, _ => None
  end.

(** [int(delta.total_seconds()) + 1] for a positive delta in microseconds *)
Definition retry_seconds (delta : Z) : Z := delta `quot` 1000000 + 1.

(** [renew]: [now1] and [now2] are the reads of the guard and of the error,
    [now3] the new [requested_at]. *)
Definition renew (now1 now2 now3 : datetime) (r : t) (invite_link_id' : option UUID)
  : result error t :=
  _ ← raise_if (is_pending r) (JoinRequestPendingError (chat_id r) (user_id r));
  _ ← match retry_at r with
      | Some at_ =>
        raise_if (now1 <? at_)
          (JoinRequestRetryLaterError (chat_id r) (user_id r) (retry_seconds (at_ - now2)))
      | None => mret tt
      end;
  let r := r <| invite_link_id := invite_link_id' |> <| status := JR_PENDING |>
             <| requested_at := now3 |> <| resolved_at := None |> <| resolved_by := None |> in
  mret (_register_created r).

Definition _resolve (now : datetime) (r : t) (s : JoinRequestStatus) (by_ : Z) : t :=
  r <| status := s |> <| resolved_at := Some now |> <| resolved_by := Some by_ |>.

Definition approve (now : datetime) (r : t) (by_ : Z) : t := _resolve now r JR_APPROVED by_.
Definition decline (now : datetime) (r : t) (by_ : Z) : t := _resolve now r JR_DECLINED by_.

Definition cancel (r : t) : t :=
  register_event r (CancelledChatJoinRequestEvent (chat_id r) (user_id r)).

(** ** Coherence of the three state columns *)
Definition coherent (r : t) : Prop :=
  match status r with
  | JR_PENDING => resolved_at r = None ∧ resolved_by r = None
  | _ => is_Some (resolved_at r) ∧ is_Some (resolved_by r)
  end.

Lemma coherent_create now c u i : coherent (create now c u i).
Proof. done. Qed.

Lemma coherent_renew n1 n2 n3 r i r' : renew n1 n2 n3 r i = Ok r' → coherent r'.
Proof. unfold renew. intros H. result_inv H. by subst. Qed.

Lemma coherent_resolve now r s by_ : s ≠ JR_PENDING → coherent (_resolve now r s by_).
Proof. destruct s; [done|..]; unfold coherent; simpl; eauto. Qed.

Lemma coherent_pending r : coherent r → is_pending r = true ↔ status r = JR_PENDING.
Proof.
  unfold coherent, is_pending. destruct (status r); intros [Hr Hb].
  - by rewrite Hr.
  - destruct Hr as [? ->]. done.
  - destruct Hr as [? ->]. done.
Qed.

#[export] Hint Resolve coherent_create coherent_renew : msgr.

End ChatJoinRequest.
