(* ===== verification/MessageModel.v ===== *)
(** Messages with their attachments, pins, reactions and read receipts: [app/chats/models/attachment.py], [message.py], [pinned_message.py], [reaction.py] and [read_receipts.py], and the queue of pending read cursors. *)
From S2P Require Import Prelude Config Events.

Inductive AttachmentType : Type :=
| ATT_IMAGE | ATT_VIDEO | ATT_FILE | ATT_VOICE | ATT_VIDEO_NOTE.
#[export] Instance AttachmentType_eq_dec : EqDecision AttachmentType.
Proof. solve_decision. Defined.

Inductive AttachmentStatus : Type := PENDING | SUCCESS | ERROR.
#[export] Instance AttachmentStatus_eq_dec : EqDecision AttachmentStatus.
Proof. solve_decision. Defined.

(** An element of [previews]: [dict[str, Any]] *)
Record Preview : Type := MkPreview {
  pv_size : Z;
  pv_width : Z;
  pv_height : Z;
  pv_s3_key : text;
  pv_mime_type : string;
  pv_file_size : Z;
}.

Module MessageAttachment.

Record t : Type := Mk {
  id : UUID;
  message_id : option UUID;
  chat_id : UUID;
  uploader_id : Z;
  attachment_type : AttachmentType;
  attachment_status : AttachmentStatus;
  s3_key : text;
  mime_type : string;
  original_filename : text;
  size : Z;
  width : option Z;
  height : option Z;
  duration_seconds : option Z;
  source_attachment_id : option UUID;
  message_seq : option Z;
  thumbhash : option string;
  previews : option (list Preview);
}.
#[global] Instance settable : Settable t := λ a,
  Mk (id a) (message_id a) (chat_id a) (uploader_id a) (attachment_type a)
     (attachment_status a) (s3_key a) (mime_type a) (original_filename a) (size a)
     (width a) (height a) (duration_seconds a) (source_attachment_id a) (message_seq a)
     (thumbhash a) (previews a).

(** [create]; [uuid] is the fresh [uuid7()] *)
Definition create (uuid : UUID) (chat_id : UUID) (uploader_id : Z)
  (attachment_type : AttachmentType) (s3_key : text) (mime_type : string)
  (original_filename : text) (size : Z) : t :=
  Mk uuid None chat_id uploader_id attachment_type PENDING s3_key mime_type
     original_filename size None None None None None None None.

(** [list(self.previews) if self.previews else None] *)
Definition copy_previews (p : option (list Preview)) : option (list Preview) :=
  match p with
  | Some (x :: l) => Some (x :: l)
  | _ => None
  end.

Definition create_for_forward (uuid : UUID) (a : t) (chat_id : UUID) : t :=
  Mk uuid None chat_id (uploader_id a) (attachment_type a) SUCCESS (s3_key a) (mime_type a)
     (original_filename a) (size a) (width a) (height a) (duration_seconds a)
     (Some (id a)) None (thumbhash a) (copy_previews (previews a)).

Definition bind_to_message (a : t) (seq : Z) : t := a <| message_seq := Some seq |>.

Definition set_resolution (a : t) (w h : Z) : t :=
  a <| width := Some w |> <| height := Some h |>.

(** [if width and height]: [None] and [0] are false *)
Definition apply_media (a : t) (w h : option Z) (pv : list Preview) (th : option string) : t :=
  let a := match w, h with
           | Some w, Some h =>
             if (w =? 0) || (h =? 0) then a else set_resolution a w h
           | _, _ => a
           end in
  a <| previews := match pv with [] => None | _ => Some pv end |> <| thumbhash := th |>.

Definition replace_original (a : t) (sz : Z) : t := a <| size := sz |>.
Definition set_duration (a : t) (d : Z) : t := a <| duration_seconds := Some d |>.
Definition mark_proccesed (a : t) : t := a <| attachment_status := SUCCESS |>.
Definition mark_error (a : t) : t := a <| attachment_status := ERROR |>.

(** [a.attachment_status == AttachmentStatus.SUCCESS] *)
Definition is_success (a : t) : bool := bool_decide (attachment_status a = SUCCESS).

End MessageAttachment.

(** ** [LINK_PATTERN]: [(?:https?://|www\.)[^\s<>''']] searched ignoring case *)

(** A pattern letter against a character under [re.IGNORECASE]; besides the
    two ASCII cases, [s] also matches U+017F. *)
Definition ci_eq (p c : Z) : bool := (lower_char c =? p) || ((p =? 115) && (c =? 383)).

Fixpoint match_prefix (p s : text) : option text :=
  match p, s with
  | [], _ => Some s
  | x :: p', c :: s' => if ci_eq x c then match_prefix p' s' else None
  | _ :: _, [] => None
  end.

(** The character class: not a space, an angle bracket or a quote *)
Definition link_char (c : Z) : bool :=
  negb (is_space c || (c =? 60) || (c =? 62) || (c =? 34) || (c =? 39)).

Definition starts_link (s : text) : bool :=
  existsb (λ p, match match_prefix (u8 p) s with
                | Some (c :: _) => link_char c
                | _ => false
                end) ["http://"; "https://"; "www."]%string.

Fixpoint search_link (s : text) : bool :=
  starts_link s || match s with [] => false | _ :: s' => search_link s' end.

Definition contains_link (content : option text) : bool :=
  match content with Some s => search_link s | None => false end.

(** ** Types *)
Inductive MessageType : Type :=
| TEXT | IMAGE | FILE | SYSTEM | REPLY | FORWARD | VOICE | VIDEO_NOTE.
#[export] Instance MessageType_eq_dec : EqDecision MessageType.
Proof. solve_decision. Defined.

Definition message_type_value (m : MessageType) : string :=
  match m with
  | TEXT => "text" | IMAGE => "image" | FILE => "file" | SYSTEM => "system"
  | REPLY => "reply" | FORWARD => "forward" | VOICE => "voice" | VIDEO_NOTE => "video_note"
  end.

Inductive SystemMessageAction : Type := MESSAGE_PINNED.

(** [MessageType.for_attachments] *)
Definition for_attachments (l : list MessageAttachment.t) : MessageType :=
  let kinds := MessageAttachment.attachment_type <$> l in
  if bool_decide (ATT_VOICE ∈ kinds) then VOICE
  else if bool_decide (ATT_VIDEO_NOTE ∈ kinds) then VIDEO_NOTE
  else if bool_decide (ATT_IMAGE ∈ kinds) || bool_decide (ATT_VIDEO ∈ kinds) then IMAGE
  else if bool_decide (ATT_FILE ∈ kinds) then FILE
  else TEXT.

Definition attachment_id_le (a b : MessageAttachment.t) : Prop :=
  MessageAttachment.id a ≤ MessageAttachment.id b.
#[export] Instance attachment_id_le_dec : RelDecision attachment_id_le.
Proof. intros a b. unfold attachment_id_le. apply _. Defined.

Module Message.

Record t : Type := Mk {
  id : UUID;
  chat_id : UUID;
  seq : Z;
  author_id : option Z;
  type : MessageType;
  content : option text;
  reply_to_id : option UUID;
  forwarded_from_chat_id : option UUID;
  forwarded_from_message_id : option UUID;
  forwarded_from_author_id : option Z;
  action : option SystemMessageAction;
  is_deleted : bool;
  is_edited : bool;
  has_links : bool;
  attachments : list MessageAttachment.t;
  events : list event;
}.
#[global] Instance settable : Settable t := λ m,
  Mk (id m) (chat_id m) (seq m) (author_id m) (type m) (content m) (reply_to_id m)
     (forwarded_from_chat_id m) (forwarded_from_message_id m) (forwarded_from_author_id m)
     (action m) (is_deleted m) (is_edited m) (has_links m) (attachments m) (events m).

Definition register_event (m : t) (e : event) : t := m <| events := events m ++ [e] |>.
Definition pull_events (m : t) : list event * t := (events m, m <| events := [] |>).

Definition validate_content (m : t) : result error unit :=
  match content m with
  | None | Some [] => mret tt
  | Some s =>
    _ ← raise_if (chat_config.MAX_MESSAGE_LENGTH <? len s)
          (MessageTooLongError (len s) chat_config.MAX_MESSAGE_LENGTH);
    raise_if (bool_decide (0 ∈ s))
      (InvalidMessageError "message content contains null byte")
  end.

(** [sum(1 for a in self.attachments if a.attachment_type in kinds)] *)
Definition count_kind (m : t) (kinds : list AttachmentType) : Z :=
  len (filter (λ a, MessageAttachment.attachment_type a ∈ kinds) (attachments m)).

Definition validate_attachments (m : t) : result error unit :=
  let media_count := count_kind m [ATT_IMAGE; ATT_VIDEO] in
  let file_count := count_kind m [ATT_FILE] in
  let voice_count := count_kind m [ATT_VOICE] in
  let video_note_count := count_kind m [ATT_VIDEO_NOTE] in
  let exclusive_count := voice_count + video_note_count in
  let success := forallb MessageAttachment.is_success (attachments m) in
  _ ← raise_if (chat_config.MAX_MEDIA_PER_MESSAGE <? media_count)
        (AttachmentLimitExceededError media_count);
  _ ← raise_if (chat_config.MAX_FILES_PER_MESSAGE <? file_count)
        (AttachmentLimitExceededError file_count);
  _ ← raise_if (1 <? exclusive_count) (AttachmentLimitExceededError exclusive_count);
  _ ← raise_if (negb (exclusive_count =? 0) && (negb (media_count =? 0) || negb (file_count =? 0)))
        (AttachmentLimitExceededError (exclusive_count + media_count + file_count));
  _ ← raise_if (bool_decide (type m = VOICE) && negb (voice_count =? 1))
        (InvalidMessageError "voice message requires exactly one voice attachment");
  _ ← raise_if (bool_decide (type m = VIDEO_NOTE) && negb (video_note_count =? 1))
        (InvalidMessageError "video_note message requires exactly one video_note attachment");
  _ ← raise_if (negb (exclusive_count =? 0)
                && negb (bool_decide (type m ∈ [VOICE; VIDEO_NOTE; FORWARD])))
        (InvalidMessageError "voice/video_note attachment requires matching message_type");
  raise_if (negb success) (AttachmentNotFoundError []).

(** [create]: [uuid] is the fresh [uuid7()] of the instance. *)
Definition create (uuid : UUID) (sender_id : option Z) (chat_id : UUID) (seq : Z)
  (content : option text) (reply_to_id : option UUID) (message_type : MessageType)
  (forwarded_from_chat_id forwarded_from_message_id : option UUID)
  (forwarded_from_author_id : option Z) (attachments' : option (list MessageAttachment.t))
  (notify : bool) (action : option SystemMessageAction) : result error t :=
  _ ← raise_if (bool_decide (message_type = REPLY) && is_none reply_to_id)
        (InvalidMessageError "reply_to_id is required for reply messages");
  let instance := Mk uuid chat_id seq sender_id message_type content reply_to_id
    forwarded_from_chat_id forwarded_from_message_id forwarded_from_author_id action
    false false (contains_link content) [] [] in
  _ ← validate_content instance;
  let instance :=
    match attachments' with
    | Some l =>
      instance <| attachments :=
        attachments instance ++ ((λ a, MessageAttachment.bind_to_message a seq) <$> l) |>
    | None => instance
    end in
  _ ← (if is_some attachments' || bool_decide (message_type ∈ [VOICE; VIDEO_NOTE])
       then validate_attachments instance else mret tt);
  mret (register_event instance
    (SendedMessageEvent uuid chat_id seq sender_id (message_type_value message_type) notify)).

Definition create_system (uuid : UUID) (actor_id : Z) (chat_id : UUID) (seq : Z)
  (action : SystemMessageAction) (reply_to_id : option UUID) : result error t :=
  create uuid (Some actor_id) chat_id seq None reply_to_id SYSTEM None None None None true
    (Some action).

(** [fresh i] is the [i]-th [uuid7()] of the comprehension *)
Definition forwardable_attachments (fresh : nat → UUID) (m : t) (chat_id : UUID)
  : list MessageAttachment.t :=
  imap (λ i a, MessageAttachment.create_for_forward (fresh i) a chat_id)
    (filter (λ a, MessageAttachment.is_success a = true)
       (merge_sort attachment_id_le (attachments m))).

Definition is_forwardable (m : t) : bool :=
  if is_deleted m || bool_decide (type m = SYSTEM) then false
  else truthy_text (content m) || existsb MessageAttachment.is_success (attachments m).

Definition copy_type (m : t) : MessageType :=
  if bool_decide (type m ∈ [REPLY; FORWARD])
  then for_attachments (filter (λ a, MessageAttachment.is_success a = true) (attachments m))
  else type m.

(** [create_forward]: the attachment ids are allocated first, then the
    message id. *)
Definition create_forward (fresh : nat → UUID) (source : t) (sender_id : Z) (chat_id' : UUID)
  (seq : Z) (hide_author notify : bool) : result error t :=
  let atts := forwardable_attachments fresh source chat_id' in
  let uuid := fresh (length atts) in
  if hide_author then
    create uuid (Some sender_id) chat_id' seq (content source) None (copy_type source)
      None None None (Some atts) notify None
  else
    let is_forward := bool_decide (type source = FORWARD) in
    create uuid (Some sender_id) chat_id' seq (content source) None FORWARD
      (if is_forward then forwarded_from_chat_id source else Some (chat_id source))
      (if is_forward then forwarded_from_message_id source else Some (id source))
      (if is_forward then forwarded_from_author_id source else author_id source)
      (Some atts) notify None.

Definition update_content (m : t) (new_content : text) (modified_by : Z) : result error t :=
  let m := m <| content := Some new_content |> <| is_edited := true |>
             <| has_links := contains_link (Some new_content) |> in
  _ ← validate_content m;
  mret (register_event m (ModifiedMessageEvent (id m) (chat_id m) (seq m) modified_by)).

Definition delete (m : t) (deleted_by : Z) : t :=
  register_event (m <| is_deleted := true |>)
    (DeletedMessageEvent (id m) (chat_id m) (seq m) deleted_by).

Definition unpin (m : t) (unpinned_by : Z) : t :=
  register_event m (UnpinnedMessagesEvent (chat_id m) [id m] unpinned_by false).

(** ** What a created message is *)
Lemma created_Ok uuid sender cid n content' reply ty ffc ffm ffa atts notify act m :
  create uuid sender cid n content' reply ty ffc ffm ffa atts notify act = Ok m →
  id m = uuid ∧ chat_id m = cid ∧ seq m = n ∧ author_id m = sender ∧ type m = ty
  ∧ content m = content' ∧ is_deleted m = false ∧ validate_content m = Ok tt
  ∧ attachments m = (λ a, MessageAttachment.bind_to_message a n) <$> default [] atts
  ∧ forwarded_from_chat_id m = ffc ∧ forwarded_from_message_id m = ffm
  ∧ forwarded_from_author_id m = ffa
  ∧ events m = [SendedMessageEvent uuid cid n sender (message_type_value ty) notify].
Proof.
  unfold create. cbv zeta. intros H.
  apply result_bind_Ok in H as (u1 & _ & H). apply result_bind_Ok in H as ([] & Hv & H).
  apply result_bind_Ok in H as (u3 & _ & H). injection H as <-.
  destruct atts; cbn in *; split_and!; done.
Qed.

Lemma create_forward_Ok fresh source sender cid n hide notify m :
  create_forward fresh source sender cid n hide notify = Ok m →
  chat_id m = cid ∧ seq m = n ∧ author_id m = Some sender ∧ content m = content source
  ∧ is_deleted m = false ∧ validate_content m = Ok tt.
Proof.
  unfold create_forward. destruct hide; intros H; apply created_Ok in H; naive_solver.
Qed.

Lemma update_content_Ok m new by_ m' :
  update_content m new by_ = Ok m' →
  id m' = id m ∧ chat_id m' = chat_id m ∧ seq m' = seq m ∧ author_id m' = author_id m
  ∧ type m' = type m ∧ is_deleted m' = is_deleted m ∧ content m' = Some new
  ∧ is_edited m' = true ∧ has_links m' = contains_link (Some new) ∧ validate_content m' = Ok tt
  ∧ events m' = events m ++ [ModifiedMessageEvent (id m) (chat_id m) (seq m) by_].
Proof.
  unfold update_content. intros H. apply result_bind_Ok in H as ([] & Hv & H). injection H as <-.
  split_and!; done.
Qed.

End Message.

(** [app/chats/models/pinned_message.py] *)
Module ChatPinnedMessage.
Record t : Type := Mk {
  chat_id : UUID;
  message_id : UUID;
  message_seq : Z;
  pinned_by : Z;
  pinned_at : datetime;
}.
Definition create (now : datetime) (chat_id message_id : UUID) (message_seq pinned_by : Z) : t :=
  Mk chat_id message_id message_seq pinned_by now.
End ChatPinnedMessage.

Module MessageReaction.
Record t : Type := Mk { chat_id : UUID; created_at : datetime }.
End MessageReaction.

Module MessageReactionCounter.
Record t : Type := Mk {
  chat_id : UUID;
  count : Z;
  first_reacted_at : datetime;
  last_reacted_at : datetime;
}.
#[global] Instance settable : Settable t := λ c,
  Mk (chat_id c) (count c) (first_reacted_at c) (last_reacted_at c).
End MessageReactionCounter.

Module ReadReceipt.
Record t : Type := Mk { last_read_message_seq : Z }.
End ReadReceipt.

(** A pending read cursor: the payload stored under [<chat_id>:<user_id>];
    [read_at] in milliseconds *)
Record PendingReadCursor : Type := MkCursor {
  cur_chat_id : UUID;
  cur_user_id : Z;
  cur_message_seq : Z;
  cur_support_read_event : bool;
  cur_read_at : Z;
  cur_track_marks : bool;
}.

(** The two Redis keys of the queue: the hash of payloads and the sorted set of
    deadlines, both by field. *)
Record ReadQueue : Type := MkReadQueue {
  rq_pending : gmap (UUID * Z) PendingReadCursor;
  rq_due : gmap (UUID * Z) Z;
}.
#[global] Instance read_queue_settable : Settable ReadQueue := λ q,
  MkReadQueue (rq_pending q) (rq_due q).
