(* ===== verification/ChatModel.v ===== *)
(** [app/chats/models/chat.py]: the chat aggregate. Methods return the updated
    object or the raised error; [events] and [members] are the in-memory
    attributes the session flushes. *)
From S2P Require Import Prelude Config Events MemberModel MessageModel.

Inductive ChatType : Type := DIRECT | GROUP | SUPERGROUP | CHANNEL.
#[export] Instance ChatType_eq_dec : EqDecision ChatType.
Proof. solve_decision. Defined.

Definition chat_type_value (c : ChatType) : string :=
  match c with
  | DIRECT => "direct" | GROUP => "group" | SUPERGROUP => "supergroup" | CHANNEL => "channel"
  end.

Inductive ChatReactionsMode : Type := ALL | SOME | NONE.
#[export] Instance ChatReactionsMode_eq_dec : EqDecision ChatReactionsMode.
Proof. solve_decision. Defined.

Definition reactions_mode_value (m : ChatReactionsMode) : string :=
  match m with ALL => "all" | SOME => "some" | NONE => "none" end.

Inductive ChatFanoutStrategy : Type := FANOUT_ON_WRITE | ACTIVE_SUBSCRIBERS | CHANNEL_SUBSCRIBERS.
#[export] Instance ChatFanoutStrategy_eq_dec : EqDecision ChatFanoutStrategy.
Proof. solve_decision. Defined.

(** [_USERNAME_RE = ^[A-Za-z][A-Za-z0-9_]*[A-Za-z0-9]$], used with [fullmatch] *)
Definition is_letter (c : Z) : bool :=
  ((65 <=? c) && (c <=? 90)) || ((97 <=? c) && (c <=? 122)).
Definition is_alnum (c : Z) : bool := is_letter c || ((48 <=? c) && (c <=? 57)).
Definition is_word (c : Z) : bool := is_alnum c || (c =? 95).

(** [[A-Za-z0-9_]*[A-Za-z0-9]] *)
Fixpoint username_tail (s : text) : bool :=
  match s with
  | [] => false
  | [c] => is_alnum c
  | c :: s' => is_word c && username_tail s'
  end.
Definition username_fullmatch (s : text) : bool :=
  match s with
  | c :: s' => is_letter c && username_tail s'
  | [] => false
  end.

Module Chat.

Record t : Type := Mk {
  id : UUID;
  seq_counter : Z;
  type : ChatType;
  name : option text;
  description : option text;
  username : option text;
  avatar_s3_key : option text;
  avatars : Avatars;
  is_public : bool;
  join_by_request : bool;
  created_by : Z;
  member_count : Z;
  admin_only : bool;
  slow_mode_seconds : Z;
  permissions : gmap string bool;
  reactions_mode : ChatReactionsMode;
  allowed_reactions : list text;
  last_activity_at : option datetime;
  deleted_at : option datetime;
  members : list ChatMember.t;
  events : list event;
}.
#[global] Instance settable : Settable t := λ c,
  Mk (id c) (seq_counter c) (type c) (name c) (description c) (username c) (avatar_s3_key c)
     (avatars c) (is_public c) (join_by_request c) (created_by c) (member_count c)
     (admin_only c) (slow_mode_seconds c) (permissions c) (reactions_mode c)
     (allowed_reactions c) (last_activity_at c) (deleted_at c) (members c) (events c).

(** [BaseModel.register_event], [BaseModel.pull_events],
    [SoftDeleteMixin] *)
Definition register_event (c : t) (e : event) : t := c <| events := events c ++ [e] |>.
Definition pull_events (c : t) : list event * t := (events c, c <| events := [] |>).
Definition soft_delete (now : datetime) (c : t) : t := c <| deleted_at := Some now |>.
Definition is_deleted (c : t) : bool := is_some (deleted_at c).

Definition member_limit (chat_type : ChatType) : Z :=
  match chat_type with
  | DIRECT => 2
  | GROUP => chat_config.MAX_GROUP_MEMBERS
  | SUPERGROUP => chat_config.MAX_SUPERGROUP_MEMBERS
  | CHANNEL => chat_config.MAX_CHANNEL_SUBSCRIBERS
  end.

Definition default_member_role (chat_type : ChatType) : ChatRoleId :=
  match chat_type with
  | DIRECT => DIRECT_MEMBER
  | CHANNEL => VIEWER
  | _ => MEMBER
  end.

Definition resolve_fanout_strategy (chat_type : ChatType) (member_count : Z)
  : ChatFanoutStrategy :=
  match chat_type with
  | CHANNEL => CHANNEL_SUBSCRIBERS
  | SUPERGROUP => ACTIVE_SUBSCRIBERS
  | GROUP =>
    if chat_config.FAN_OUT_WRITE_THRESHOLD <? member_count then ACTIVE_SUBSCRIBERS
    else FANOUT_ON_WRITE
  | DIRECT => FANOUT_ON_WRITE
  end.

Definition fanout_strategy (c : t) : ChatFanoutStrategy :=
  resolve_fanout_strategy (type c) (member_count c).

Definition support_read_event (c : t) : bool :=
  bool_decide (type c = DIRECT) || bool_decide (type c = GROUP).

Definition is_small_group (c : t) : bool :=
  member_count c <=? chat_config.READ_MARKS_MAX_MEMBERS.

Definition tracks_read_marks (c : t) : bool :=
  bool_decide (type c ∈ [GROUP; SUPERGROUP]) && is_small_group c.

Definition _validate_slow_mode (slow_mode_seconds : Z) : result error unit :=
  raise_if ((slow_mode_seconds <? 0)
            || (chat_config.MAX_SLOW_MODE_SECONDS <? slow_mode_seconds))
    (SlowModeOutOfRangeError slow_mode_seconds).

Definition _validate_allowed_reactions (allowed : list text) : result error unit :=
  _ ← raise_if (chat_config.MAX_DISTINCT_REACTIONS_PER_MESSAGE <? len allowed)
        (ReactionNotAllowedError [] (sorted_texts chat_config.DEFAULT_REACTIONS));
  match filter (λ e, e ∉ chat_config.DEFAULT_REACTIONS) allowed with
  | [] => mret tt
  | e :: _ =>
    Err (ReactionNotAllowedError e (sorted_texts chat_config.DEFAULT_REACTIONS))
  end.

Definition add_member (c : t) (member_id : Z) (role_id : ChatRoleId) : t :=
  let c := c <| members := members c ++ [ChatMember.create (id c) member_id role_id] |> in
  register_event c (AddedChatMemberEvent (id c) member_id (role_int role_id)).

(** [for m_id in members_ids: instance.add_member(m_id, role)] *)
Definition add_members (c : t) (ids : list Z) (role_id : ChatRoleId) : t :=
  foldl (λ c m_id, add_member c m_id role_id) c ids.

Definition _register_updated (c : t) (updated_by : Z) : t :=
  register_event c (UpdatedChatEvent (MkUpdatedChat (id c) updated_by (name c) (description c)
    (is_public c) (admin_only c) (slow_mode_seconds c) (permissions c)
    (reactions_mode_value (reactions_mode c)) (allowed_reactions c) (username c)
    (avatar_s3_key c) (join_by_request c) (avatars c))).

(** [create] removes [created_by] from the caller's list in place: the list
    the caller keeps is returned beside the instance. *)
Definition create (uuid : UUID) (created_by : Z) (members_ids : list Z) (chat_type : ChatType)
  (name description : option text) (is_public admin_only : bool) (slow_mode_seconds : Z)
  (permissions : gmap string bool) (join_by_request : bool) : result error (t * list Z) :=
  let members_ids :=
    if bool_decide (created_by ∈ members_ids) then remove_first created_by members_ids
    else members_ids in
  _ ← raise_if (bool_decide (chat_type = DIRECT)
                && (negb (len members_ids =? 1) || bool_decide (head members_ids = Some created_by)))
        (MemberLimitExceededError 2);
  _ ← raise_if (200000 <? len members_ids) (MemberLimitExceededError 200000);
  let participant_count := len members_ids + 1 in
  let limit := member_limit chat_type in
  _ ← raise_if (limit <? participant_count) (MemberLimitExceededError limit);
  _ ← _validate_slow_mode slow_mode_seconds;
  let instance := Mk uuid 0 chat_type name description None None [] is_public
    (join_by_request && negb (bool_decide (chat_type = DIRECT))) created_by 0 admin_only
    slow_mode_seconds permissions ALL [] None None [] [] in
  let instance :=
    match chat_type with
    | DIRECT =>
      let instance := add_member instance created_by DIRECT_MEMBER in
      match members_ids with
      | m :: _ => add_member instance m DIRECT_MEMBER
      | [] => instance
      end
    | GROUP | SUPERGROUP => add_members (add_member instance created_by OWNER) members_ids MEMBER
    | CHANNEL => add_members (add_member instance created_by OWNER) members_ids VIEWER
    end in
  let instance := instance <| member_count := len (members instance) |> in
  mret (register_event instance
          (CreatedChatEvent uuid created_by name members_ids (chat_type_value chat_type)
             (member_count instance)), members_ids).

Definition set_join_by_request (c : t) (jbr : bool) : result error t :=
  _ ← raise_if (jbr && bool_decide (type c = DIRECT))
        (JoinRequestNotAllowedError (id c) "direct_chat");
  mret (c <| join_by_request := jbr |>).

(** [if value is not None: self.field = value] *)
Definition assign {A} (v : option A) (set : A → t → t) (c : t) : t :=
  match v with Some a => set a c | None => c end.

Definition update (c : t) (updated_by : Z) (name' description' : option text)
  (is_public' admin_only' : option bool) (slow_mode_seconds' : option Z)
  (permissions' : option (gmap string bool)) (reactions_mode' : option ChatReactionsMode)
  (allowed_reactions' : option (list text)) (join_by_request' : option bool)
  : result error t :=
  c ← match join_by_request' with Some b => set_join_by_request c b | None => mret c end;
  c ← match slow_mode_seconds' with
      | Some n => _ ← _validate_slow_mode n; mret (c <| slow_mode_seconds := n |>)
      | None => mret c
      end;
  let c := assign admin_only' (λ b c, c <| admin_only := b |>) c in
  let c := assign permissions' (λ p c, c <| permissions := p |>) c in
  let c := assign reactions_mode' (λ m c, c <| reactions_mode := m |>) c in
  c ← match allowed_reactions' with
      | Some l => _ ← _validate_allowed_reactions l; mret (c <| allowed_reactions := l |>)
      | None => mret c
      end;
  let c := assign name' (λ n c, c <| name := Some n |>) c in
  let c := assign description' (λ d c, c <| description := Some d |>) c in
  let c := assign is_public' (λ b c,
             let c := c <| is_public := b |> in
             if b then c else c <| username := None |>) c in
  mret (_register_updated c updated_by).

Definition validate_username (username : text) : result error text :=
  let cleaned := removeprefix 64 (strip username) in
  _ ← raise_if (negb ((chat_config.CHAT_USERNAME_MIN_LENGTH <=? len cleaned)
                      && (len cleaned <=? chat_config.CHAT_USERNAME_MAX_LENGTH)))
        (InvalidChatUsernameError username "length");
  _ ← raise_if (negb (username_fullmatch cleaned)) (InvalidChatUsernameError username "format");
  _ ← raise_if (bool_decide (lower cleaned ∈ chat_config.CHAT_USERNAME_RESERVED))
        (InvalidChatUsernameError username "reserved");
  mret cleaned.

Definition set_username (c : t) (updated_by : Z) (username' : option text) : result error t :=
  match username' with
  | None => mret (_register_updated (c <| username := None |>) updated_by)
  | Some u =>
    _ ← raise_if (bool_decide (type c = DIRECT)) (ChatUsernameNotAllowedError (id c) "direct_chat");
    _ ← raise_if (negb (is_public c)) (ChatUsernameNotAllowedError (id c) "chat_not_public");
    v ← validate_username u;
    mret (_register_updated (c <| username := Some v |>) updated_by)
  end.

(** Returns the chat, the new owner's row with its role changed, and the
    previous owner's id. *)
Definition transfer_ownership (now : datetime) (c : t) (requester_id : Z)
  (new_owner : ChatMember.t) : result error (t * ChatMember.t * Z) :=
  _ ← raise_if (bool_decide (type c = DIRECT)) (InvalidOwnershipTransferError (id c) "direct_chat");
  _ ← raise_if (bool_decide (ChatMember.user_id new_owner = created_by c))
        (InvalidOwnershipTransferError (id c) "already_owner");
  _ ← raise_if (ChatMember.is_banned now new_owner)
        (InvalidOwnershipTransferError (id c) "target_banned");
  let previous_owner_id := created_by c in
  let c := c <| created_by := ChatMember.user_id new_owner |> in
  let new_owner := new_owner <| ChatMember.role_id := OWNER |> in
  mret (register_event c (TransferredChatOwnershipEvent (id c) requester_id previous_owner_id
          (ChatMember.user_id new_owner)), new_owner, previous_owner_id).

Definition pin_message (now : datetime) (c : t) (m : Message.t) (pinned_by pinned_count : Z)
  : result error (t * ChatPinnedMessage.t) :=
  _ ← raise_if (negb (Message.chat_id m =? id c) || Message.is_deleted m)
        (NotFoundMessageError (Message.id m));
  _ ← raise_if (bool_decide (Message.type m = SYSTEM))
        (InvalidMessageError "system messages cannot be pinned");
  _ ← raise_if (chat_config.MAX_PINNED_MESSAGES <=? pinned_count)
        (PinnedMessagesLimitExceededError (id c) chat_config.MAX_PINNED_MESSAGES);
  let pin := ChatPinnedMessage.create now (id c) (Message.id m) (Message.seq m) pinned_by in
  mret (register_event c (PinnedMessageEvent (id c) (Message.id m) (Message.seq m) pinned_by
          (ChatPinnedMessage.pinned_at pin)), pin).

Definition unpin_messages (c : t) (message_ids : list UUID) (unpinned_by : Z) (unpin_all : bool)
  : t :=
  match message_ids with
  | [] => c
  | _ => register_event c (UnpinnedMessagesEvent (id c) message_ids unpinned_by unpin_all)
  end.

Definition approve_join_requests (c : t) (user_ids : list Z) (resolved_by role_id : Z) : t :=
  match user_ids with
  | [] => c
  | _ => register_event c (ApprovedChatJoinRequestsEvent (id c) user_ids resolved_by role_id)
  end.

Definition decline_join_requests (c : t) (user_ids : list Z) (resolved_by : Z)
  (count : option Z) (decline_all : bool) : t :=
  match user_ids, decline_all with
  | [], false => c
  | _, _ =>
    register_event c (DeclinedChatJoinRequestsEvent (id c) user_ids resolved_by
                        (default (len user_ids) count) decline_all)
  end.

Definition delete (now : datetime) (c : t) (deleted_by : Z) : t :=
  register_event (soft_delete now c) (DeletedChatEvent (id c) deleted_by).

Definition leave (c : t) (user_id : Z) : result error t :=
  _ ← raise_if (created_by c =? user_id) (AccessDeniedChatError (id c) user_id);
  mret (register_event c (LeftChatMemberEvent (id c) user_id)).

Definition kick_member (c : t) (target requester_id : Z) : result error t :=
  _ ← raise_if (target =? requester_id) (AccessDeniedChatError (id c) requester_id);
  mret (register_event c (KickedChatMemberEvent (id c) requester_id target)).

Definition ban_member (c : t) (target requester_id : Z) (ban : bool) : result error t :=
  _ ← raise_if (target =? requester_id) (AccessDeniedChatError (id c) requester_id);
  mret (register_event c (BannedChatMemberEvent (id c) requester_id target ban)).

(** [now1] is read for [mute], [now2] for [muted_until] *)
Definition mute_member (now1 now2 : datetime) (c : t) (target : ChatMember.t) (requester_id : Z)
  : result error t :=
  _ ← raise_if (ChatMember.user_id target =? requester_id)
        (AccessDeniedChatError (id c) requester_id);
  mret (register_event c (MutedChatMemberEvent (id c) requester_id (ChatMember.user_id target)
          (ChatMember.is_muted now1 target)
          (if ChatMember.is_muted now2 target then ChatMember.muted_until target else None))).

(** ** Valid settings *)

(** a user name in its stored form *)
Definition username_ok (u : text) : Prop :=
  chat_config.CHAT_USERNAME_MIN_LENGTH ≤ len u ≤ chat_config.CHAT_USERNAME_MAX_LENGTH
  ∧ username_fullmatch u = true ∧ lower u ∉ chat_config.CHAT_USERNAME_RESERVED.

Definition valid (c : t) : Prop :=
  0 ≤ slow_mode_seconds c ≤ chat_config.MAX_SLOW_MODE_SECONDS
  ∧ len (allowed_reactions c) ≤ chat_config.MAX_DISTINCT_REACTIONS_PER_MESSAGE
  ∧ allowed_reactions c ⊆ chat_config.DEFAULT_REACTIONS
  ∧ (join_by_request c = true → type c ≠ DIRECT)
  ∧ ∀ u, username c = Some u → is_public c = true ∧ type c ≠ DIRECT ∧ username_ok u.

Lemma validate_username_iff x u :
  validate_username x = Ok u ↔ u = removeprefix 64 (strip x) ∧ username_ok u.
Proof.
  unfold validate_username, username_ok. cbv zeta. set (v := removeprefix 64 (strip x)). split.
  - intros H. result_inv H. subst u. bool_simpl. done.
  - intros [-> ((? & ?) & Hm & Hr)].
    assert (chat_config.CHAT_USERNAME_MIN_LENGTH <=? len v = true) as -> by lia.
    assert (len v <=? chat_config.CHAT_USERNAME_MAX_LENGTH = true) as -> by lia.
    rewrite Hm. simpl. rewrite bool_decide_eq_false_2 by done. done.
Qed.

Lemma validate_slow_mode_Ok n u :
  _validate_slow_mode n = Ok u → 0 ≤ n ≤ chat_config.MAX_SLOW_MODE_SECONDS.
Proof. unfold _validate_slow_mode. intros H. result_inv H. bool_simpl. lia. Qed.

Lemma validate_allowed_reactions_Ok l u :
  _validate_allowed_reactions l = Ok u →
  len l ≤ chat_config.MAX_DISTINCT_REACTIONS_PER_MESSAGE ∧ l ⊆ chat_config.DEFAULT_REACTIONS.
Proof.
  unfold _validate_allowed_reactions. intros H. result_inv H. bool_simpl. split; [done|].
  destruct (filter _ l) as [|x ?] eqn:Hf; [|done]. intros e He.
  destruct (decide (e ∈ chat_config.DEFAULT_REACTIONS)); [done|].
  assert (e ∈ filter (λ e, e ∉ chat_config.DEFAULT_REACTIONS) l) as Hin
    by (by apply list_elem_of_filter).
  rewrite Hf in Hin. by apply not_elem_of_nil in Hin.
Qed.

Lemma add_members_columns c ids role :
  add_members c ids role =
  c <| members := members c ++ ((λ u, ChatMember.create (id c) u role) <$> ids) |>
    <| events := events c ++ ((λ u, AddedChatMemberEvent (id c) u (role_int role)) <$> ids) |>.
Proof.
  revert c. induction ids as [|u ids IH]; intros c; unfold add_members; simpl.
  - destruct c; unfold modify_field; simpl. by rewrite !app_nil_r.
  - fold (add_members (add_member c u role) ids role). rewrite IH.
    destruct c; unfold modify_field; simpl. by rewrite <- !app_assoc.
Qed.

(** What the setters of a chat keep: its identity, kind, creator, counters,
    pending members and events, and the validity of its settings. *)
Definition keeps (c c' : t) : Prop :=
  id c' = id c ∧ type c' = type c ∧ created_by c' = created_by c
  ∧ member_count c' = member_count c ∧ seq_counter c' = seq_counter c
  ∧ members c' = members c ∧ events c' = events c ∧ deleted_at c' = deleted_at c
  ∧ (valid c → valid c').

Lemma keeps_refl c : keeps c c.
Proof. by unfold keeps. Qed.
Lemma keeps_trans c1 c2 c3 : keeps c1 c2 → keeps c2 c3 → keeps c1 c3.
Proof.
  intros (? & ? & ? & ? & ? & ? & ? & ? & ?) (? & ? & ? & ? & ? & ? & ? & ? & ?).
  unfold keeps. split_and!; try congruence. auto.
Qed.
Lemma keeps_settings c c' :
  id c' = id c → type c' = type c → created_by c' = created_by c →
  member_count c' = member_count c → seq_counter c' = seq_counter c →
  members c' = members c → events c' = events c → deleted_at c' = deleted_at c →
  (valid c → valid c') → keeps c c'.
Proof. unfold keeps. auto 10. Qed.
Lemma keeps_assign {A} (v : option A) set c :
  (∀ a, keeps c (set a c)) → keeps c (assign v set c).
Proof. destruct v; [intros H; apply H|intros _; apply keeps_refl]. Qed.

Lemma keeps_join_by_request c j c' : set_join_by_request c j = Ok c' → keeps c c'.
Proof.
  unfold set_join_by_request. intros H. result_inv H. subst. apply keeps_settings; try done.
  intros (Hs & Hl & Hr & _ & Hu). refine (conj Hs (conj Hl (conj Hr (conj _ Hu)))).
  cbn. intros ->. simpl in *. by apply bool_decide_eq_false in Ha.
Qed.

Lemma keeps_slow_mode c n u : _validate_slow_mode n = Ok u → keeps c (c <| slow_mode_seconds := n |>).
Proof.
  intros H%validate_slow_mode_Ok. apply keeps_settings; try done.
  intros (_ & Hl & Hr & Hj & Hu). exact (conj H (conj Hl (conj Hr (conj Hj Hu)))).
Qed.

Lemma keeps_allowed_reactions c l u :
  _validate_allowed_reactions l = Ok u → keeps c (c <| allowed_reactions := l |>).
Proof.
  intros [Hl Hr]%validate_allowed_reactions_Ok. apply keeps_settings; try done.
  intros (Hs & _ & _ & Hj & Hu). exact (conj Hs (conj Hl (conj Hr (conj Hj Hu)))).
Qed.

Lemma keeps_public c b :
  keeps c (let c := c <| is_public := b |> in if b then c else c <| username := None |>).
Proof.
  destruct b; (apply keeps_settings; [done..|]); intros (Hs & Hl & Hr & Hj & Hu);
    refine (conj Hs (conj Hl (conj Hr (conj Hj _)))); cbn; [|done].
  intros u Hk. by destruct (Hu u Hk) as (_ & ? & ?).
Qed.

(** the event that [update] and [set_username] register *)
Definition updated_event (c : t) (by_ : Z) : event :=
  UpdatedChatEvent (MkUpdatedChat (id c) by_ (name c) (description c) (is_public c) (admin_only c)
    (slow_mode_seconds c) (permissions c) (reactions_mode_value (reactions_mode c))
    (allowed_reactions c) (username c) (avatar_s3_key c) (join_by_request c) (avatars c)).

Lemma update_keeps c by_ n d p a s ps rm ar j c' :
  update c by_ n d p a s ps rm ar j = Ok c' →
  ∃ c1, keeps c c1 ∧ c' = register_event c1 (updated_event c1 by_).
Proof.
  unfold update. intros H. cbv zeta in H.
  apply result_bind_Ok in H as (c1 & H1 & H). apply result_bind_Ok in H as (c2 & H2 & H).
  apply result_bind_Ok in H as (c3 & H3 & H). injection H as <-. eexists. split; [|done].
  apply (keeps_trans _ c1).
  { destruct j; [by eapply keeps_join_by_request|injection H1 as <-; apply keeps_refl]. }
  apply (keeps_trans _ c2).
  { destruct s; [result_inv H2; subst; by eapply keeps_slow_mode|injection H2 as <-; apply keeps_refl]. }
  apply (keeps_trans _ c3).
  { revert H3. set (c4 := assign rm _ _). intros H3. apply (keeps_trans _ c4).
    - unfold c4. eapply keeps_trans; [|eapply keeps_assign; intros; by apply keeps_settings].
      eapply keeps_trans; eapply keeps_assign; intros; by apply keeps_settings.
    - clearbody c4. destruct ar; [result_inv H3; subst; by eapply keeps_allowed_reactions|].
      injection H3 as <-. apply keeps_refl. }
  eapply keeps_trans; [|eapply keeps_assign; intros; apply keeps_public].
  eapply keeps_trans; eapply keeps_assign; intros; by apply keeps_settings.
Qed.

Lemma set_username_keeps c by_ u c' :
  set_username c by_ u = Ok c' →
  ∃ c1, keeps c c1 ∧ c' = register_event c1 (updated_event c1 by_).
Proof.
  unfold set_username. destruct u as [u|]; intros H.
  - result_inv H. subst. apply validate_username_iff in Ha1 as [_ Hok]. bool_simpl.
    eexists. split; [|done]. apply keeps_settings; try done.
    intros (Hs & Hl & Hr & Hj & _). refine (conj Hs (conj Hl (conj Hr (conj Hj _)))).
    cbn. by intros ? [= <-].
  - injection H as <-. eexists. split; [|done]. apply keeps_settings; try done.
    intros (Hs & Hl & Hr & Hj & _). by refine (conj Hs (conj Hl (conj Hr (conj Hj _)))).
Qed.

Lemma valid_delete now c by_ : valid c → valid (delete now c by_).
Proof. done. Qed.

(** [create]: the first participant and the rest, all pending, counted *)
Definition founder_role (ct : ChatType) : ChatRoleId :=
  match ct with DIRECT => DIRECT_MEMBER | _ => OWNER end.

Lemma create_Ok uuid by_ ids ct n d p a s ps j c ids' :
  create uuid by_ ids ct n d p a s ps j = Ok (c, ids') →
  id c = uuid ∧ type c = ct ∧ created_by c = by_ ∧ seq_counter c = 0 ∧ deleted_at c = None
  ∧ ids' = (if bool_decide (by_ ∈ ids) then remove_first by_ ids else ids)
  ∧ members c = ChatMember.create uuid by_ (founder_role ct)
                :: ((λ u, ChatMember.create uuid u (default_member_role ct)) <$> ids')
  ∧ member_count c = len ids' + 1 ∧ member_count c ≤ member_limit ct
  ∧ valid c.
Proof.
  unfold create. cbv zeta. set (rest := if bool_decide _ then _ else _). intros H.
  apply result_bind_Ok in H as (u1 & Ha & H). apply result_bind_Ok in H as (u2 & Ha0 & H).
  apply result_bind_Ok in H as (u3 & Ha1 & H). apply result_bind_Ok in H as (u4 & Ha2 & H).
  apply raise_if_Ok in Ha, Ha0, Ha1. injection H as Hc <-.
  assert (len rest + 1 ≤ member_limit ct) as Hlim by (bool_simpl; lia).
  apply validate_slow_mode_Ok in Ha2. destruct Ha2 as [Hs1 Hs2].
  assert (ct = DIRECT → ∃ u, rest = [u]) as Hdir.
  { intros ->. destruct (len rest =? 1) eqn:Hl.
    - bool_simpl. unfold len in Hl. destruct rest as [|u [|v rest]]; simpl in *; [lia|eauto|lia].
    - simpl in Ha. done. }
  clear Ha Ha0 Ha1. rewrite <- Hc. clear Hc.
  assert (∀ A (x : A) (l : list A), len (x :: l) = len l + 1) as Hlen.
  { intros. unfold len. simpl. lia. }
  assert (∀ c0 : t, slow_mode_seconds c0 = s → allowed_reactions c0 = [] → type c0 = ct →
    join_by_request c0 = j && negb (bool_decide (ct = DIRECT)) → username c0 = None → valid c0) as Hv.
  { intros c0 E1 E2 E3 E4 E5. unfold valid. rewrite E1, E2, E3, E4, E5.
    refine (conj (conj Hs1 Hs2) (conj _ (conj (list_subseteq_nil _) (conj _ _)))); [done| |done].
    intros [_ Hd]%andb_true_iff. by bool_simpl. }
  destruct ct.
  - destruct (Hdir eq_refl) as [u Hu]. rewrite Hu in *. repeat (split; [done|]). by apply Hv.
  - rewrite !add_members_columns. repeat (split; [done|]). cbn [member_count].
    cbn. rewrite Hlen. unfold len in *. rewrite length_fmap. repeat (split; [done|]). by apply Hv.
  - rewrite !add_members_columns. repeat (split; [done|]). cbn [member_count].
    cbn. rewrite Hlen. unfold len in *. rewrite length_fmap. repeat (split; [done|]). by apply Hv.
  - rewrite !add_members_columns. repeat (split; [done|]). cbn [member_count].
    cbn. rewrite Hlen. unfold len in *. rewrite length_fmap. repeat (split; [done|]). by apply Hv.
Qed.

End Chat.
