(* ===== verification/PrivacyModel.v ===== *)
(** Privacy rules and the projection of a user's profile the chat module keeps
    ([app/privacy/utils.py], [app/chats/models/profile.py],
    [app/chats/repositories/privacy.py] class [DirectPeerState]). *)
From S2P Require Import Prelude.

Inductive PrivacyRule : Type := LAST_SEEN | PHOTO | MESSAGES | GROUP_INVITES | CALLS.
#[export] Instance PrivacyRule_eq_dec : EqDecision PrivacyRule.
Proof. solve_decision. Defined.

Definition all_rules : list PrivacyRule := [LAST_SEEN; PHOTO; MESSAGES; GROUP_INVITES; CALLS].

(** [rule.value] *)
Definition rule_value (r : PrivacyRule) : string :=
  match r with
  | LAST_SEEN => "last_seen" | PHOTO => "photo" | MESSAGES => "messages"
  | GROUP_INVITES => "group_invites" | CALLS => "calls"
  end.

#[export] Instance rule_value_inj : Inj (=) (=) rule_value.
Proof. intros [] [] ?; done. Qed.

Inductive PrivacyVisibility : Type := EVERYBODY | CONTACTS | NOBODY.
#[export] Instance PrivacyVisibility_eq_dec : EqDecision PrivacyVisibility.
Proof. solve_decision. Defined.

Definition visibility_value (v : PrivacyVisibility) : string :=
  match v with EVERYBODY => "everybody" | CONTACTS => "contacts" | NOBODY => "nobody" end.

Definition DEFAULT_VISIBILITY : PrivacyVisibility := EVERYBODY.

Definition is_allowed (visibility : PrivacyVisibility) (is_self is_contact : bool)
  (exception : option bool) : bool :=
  if is_self then true
  else match exception with
       | Some b => b
       | None =>
         match visibility with
         | EVERYBODY => true
         | CONTACTS => is_contact
         | NOBODY => false
         end
       end.

(** [parse_visibility]: an unknown or missing value hides *)
Definition parse_visibility (value : option string) : PrivacyVisibility :=
  match value with
  | None => NOBODY
  | Some v =>
    if String.eqb v "everybody" then EVERYBODY
    else if String.eqb v "contacts" then CONTACTS
    else NOBODY
  end.

Lemma parse_visibility_value v : parse_visibility (Some (visibility_value v)) = v.
Proof. by destruct v. Qed.

Module ChatUserProfile.
(** A row of [chat_user_profiles]; [privacy] holds the five
    [privacy_<rule>] columns by rule. *)
Record t : Type := Mk {
  user_id : Z;
  username : option text;
  display_name : option text;
  avatar_s3_key : option text;
  last_event_id : option UUID;
  source_updated_at : option datetime;
  privacy : PrivacyRule → string;
  privacy_source_updated_at : option datetime;
}.
#[global] Instance settable : Settable t := λ p,
  Mk (user_id p) (username p) (display_name p) (avatar_s3_key p) (last_event_id p)
     (source_updated_at p) (privacy p) (privacy_source_updated_at p).

(** column defaults *)
Definition default_privacy (_ : PrivacyRule) : string := visibility_value DEFAULT_VISIBILITY.

Definition visibility (p : t) (rule : PrivacyRule) : PrivacyVisibility :=
  parse_visibility (Some (privacy p rule)).
End ChatUserProfile.

Record DirectPeerState : Type := MkDirectPeerState {
  peer_id : Z;
  peer_blocked : bool;
  peer_visibility : PrivacyVisibility;
  peer_exception : option bool;
}.
