(* ===== verification/Store.v ===== *)
(** The state the chat module works on and the monad its handlers run in.

    A [store] is the content of the chat tables; each table is a finite map
    keyed by its primary key or unique constraint. A [world] holds the two
    views of it a handler distinguishes - what its open transaction sees
    ([w_session]) and what is committed ([w_database]) - next to what a
    rollback does not undo: Redis, calls to external services, and the reads of
    the clock and of the random supplies, which are oracles indexed by the
    number of reads made. *)
From S2P Require Import Prelude Config Events MemberModel InviteModel MessageModel ChatModel PrivacyModel.

(** ** Tables *)
Record store : Type := MkStore {
  chats : gmap UUID Chat.t;
  members : gmap (UUID * Z) ChatMember.t;
  next_member_id : Z;
  messages : gmap UUID Message.t;
  attachments : gmap UUID MessageAttachment.t;
  pins : gmap (UUID * UUID) ChatPinnedMessage.t;
  invites : gmap UUID ChatInviteLink.t;
  join_requests : gmap (UUID * Z) ChatJoinRequest.t;
  reactions : gmap (UUID * Z * text) MessageReaction.t;
  reaction_counters : gmap (UUID * text) MessageReactionCounter.t;
  read_receipts : gmap (UUID * Z) ReadReceipt.t;
  read_marks : gmap (UUID * Z * Z) datetime;
  blocks : gset (Z * Z);
  contacts : gset (Z * Z);
  profiles : gmap Z ChatUserProfile.t;
  privacy_exceptions : gmap (Z * string * Z) bool;
  outbox : list OutboxMessage;
}.
#[global] Instance store_settable : Settable store := λ s,
  MkStore (chats s) (members s) (next_member_id s) (messages s) (attachments s) (pins s)
    (invites s) (join_requests s) (reactions s) (reaction_counters s) (read_receipts s)
    (read_marks s) (blocks s) (contacts s) (profiles s) (privacy_exceptions s) (outbox s).

Definition empty_store : store :=
  MkStore ∅ ∅ 1 ∅ ∅ ∅ ∅ ∅ ∅ ∅ ∅ ∅ ∅ ∅ ∅ ∅ [].

(** Calls that leave the process: LiveKit rooms and the object storage. *)
Inductive external_call : Type :=
| LiveKitCreateRoom (chat_id : UUID)
| LiveKitDeleteRoom (chat_id : UUID).

Record world : Type := MkWorld {
  w_session : store;
  w_database : store;
  w_clock : nat → datetime;
  w_ticks : nat;
  w_uuids : nat → UUID;
  w_uuid_reads : nat;
  w_tokens : nat → text;
  w_token_reads : nat;
  (** [chat:slowmode:<chat>:<user>] with its expiry instant *)
  w_slow_mode : gmap (UUID * Z) datetime;
  (** the integer [TTL] replies for a remaining time in microseconds *)
  w_ttl : Z → Z;
  w_reads : ReadQueue;
  w_calls : list external_call;
}.
#[global] Instance world_settable : Settable world := λ w,
  MkWorld (w_session w) (w_database w) (w_clock w) (w_ticks w) (w_uuids w) (w_uuid_reads w)
    (w_tokens w) (w_token_reads w) (w_slow_mode w) (w_ttl w) (w_reads w)
    (w_calls w).

(** ** The monad *)
Definition M (A : Type) : Type := world → result error A * world.

#[export] Instance M_ret : MRet M := λ A a w, (Ok a, w).
#[export] Instance M_bind : MBind M := λ A B k m w,
  match m w with
  | (Ok a, w') => k a w'
  | (Err e, w') => (Err e, w')
  end.

Definition raise {A} (e : error) : M A := λ w, (Err e, w).
(** a call of pure code, which returns or raises *)
Definition lift {A} (r : result error A) : M A := λ w, (r, w).
(** [if bad: raise e] *)
Definition guard_not (bad : bool) (e : error) : M unit := lift (raise_if bad e).

(** [if o is None: raise e] *)
Definition or_raise {A} (o : option A) (e : error) : M A :=
  match o with Some a => mret a | None => raise e end.

Definition now_utc : M datetime := λ w,
  (Ok (w_clock w (w_ticks w)), w <| w_ticks ::= S |>).
Definition uuid7 : M UUID := λ w,
  (Ok (w_uuids w (w_uuid_reads w)), w <| w_uuid_reads ::= S |>).
(** [n] ids at once: [uuids_from base i] is the [i]-th *)
Definition uuid7_supply (n : nat) : M (nat → UUID) := λ w,
  (Ok (λ i, w_uuids w (w_uuid_reads w + i)%nat), w <| w_uuid_reads ::= (λ k, k + n)%nat |>).
Definition token_urlsafe : M text := λ w,
  (Ok (w_tokens w (w_token_reads w)), w <| w_token_reads ::= S |>).

(** a [SELECT] *)
Definition query {A} (f : store → A) : M A := λ w, (Ok (f (w_session w)), w).
(** a statement that writes *)
Definition execute (f : store → store) : M unit := λ w, (Ok tt, w <| w_session ::= f |>).
(** a statement that writes and returns ([RETURNING]) *)
Definition execute_returning {A} (f : store → A * store) : M A := λ w,
  let '(a, s) := f (w_session w) in (Ok a, w <| w_session := s |>).
(** an insertion that may violate a constraint *)
Definition execute_checked (f : store → result error store) : M unit := λ w,
  match f (w_session w) with
  | Ok s => (Ok tt, w <| w_session := s |>)
  | Err e => (Err e, w)
  end.

Definition call_external (c : external_call) : M unit := λ w,
  (Ok tt, w <| w_calls ::= (λ l, l ++ [c]) |>).

(** [session.commit()], [session.rollback()] *)
Definition commit : M unit := λ w, (Ok tt, w <| w_database := w_session w |>).
Definition rollback : M unit := λ w, (Ok tt, w <| w_session := w_database w |>).

(** [try: m except IntegrityError as exc: h(constraint)] *)
Definition try_integrity {A} (m : M A) (h : string → M A) : M A := λ w,
  match m w with
  | (Err (IntegrityError c), w') => h c w'
  | r => r
  end.

(** [for x in l: f(x)] *)
Fixpoint for_each {A} (l : list A) (f : A → M unit) : M unit :=
  match l with
  | [] => mret tt
  | x :: l' => _ ← f x; for_each l' f
  end.

(** [EventBus.publish]: one outbox row per event, in order. The id of an
    event is drawn when the event object is built; only its freshness matters. *)
Fixpoint publish (events : list event) : M unit :=
  match events with
  | [] => mret tt
  | e :: es =>
    event_id ← uuid7;
    match outbox_of_event event_id e with
    | Some row => _ ← execute (λ s, s <| outbox ::= (λ l, l ++ [row]) |>); publish es
    | None => publish es
    end
  end.

(** One request: the handler runs in a fresh session over the committed state;
    closing the session discards what was not committed. *)
Definition run_command {A} (h : M A) (w : world) : result error A * world :=
  let '(r, w') := h (w <| w_session := w_database w |>) in
  (r, w' <| w_session := w_database w' |>).
