(* ===== verification/Wp.v ===== *)
(** Reasoning about handlers: weakest preconditions for the monad of [Store],
    the class of read-only computations, and the tactic that executes a handler
    symbolically. *)
From S2P Require Import Prelude Config Events Store.

Definition wp {A} (m : M A) (w : world) (Q : result error A → world → Prop) : Prop :=
  Q (m w).1 (m w).2.

(** What a handler that returns establishes, and that one that raises leaves
    the committed state alone. *)
Definition transaction {A} (m : M A) (w : world) (Post : A → world → Prop) : Prop :=
  wp m w (λ r w', match r with
                  | Ok a => Post a w'
                  | Err _ => w_database w' = w_database w
                  end).

(** the world after [t] clock reads *)
Definition at_tick (t : nat) (w : world) : world := w <| w_ticks := t |>.

Section rules.
Context {A B : Type}.
Implicit Types (w : world).

Lemma wp_mono (m : M A) w (P Q : result error A → world → Prop) :
  wp m w P → (∀ r w', P r w' → Q r w') → wp m w Q.
Proof. unfold wp. auto. Qed.

Lemma wp_bind (m : M A) (k : A → M B) w Q :
  wp m w (λ r w', match r with Ok a => wp (k a) w' Q | Err e => Q (Err e) w' end) →
  wp (m ≫= k) w Q.
Proof.
  unfold wp, mbind, M_bind. destruct (m w) as [[a|e] w']; simpl; [|done].
  by destruct (k a w').
Qed.

Lemma wp_ret (a : A) w Q : Q (Ok a) w → wp (mret a) w Q.
Proof. done. Qed.

Lemma wp_raise e w (Q : result error A → world → Prop) : Q (Err e) w → wp (raise e) w Q.
Proof. done. Qed.

Lemma wp_lift (r : result error A) w Q :
  (∀ a, r = Ok a → Q (Ok a) w) → (∀ e, r = Err e → Q (Err e) w) → wp (lift r) w Q.
Proof. destruct r; unfold wp; simpl; auto. Qed.

Lemma wp_guard_not bad e w (Q : result error unit → world → Prop) :
  (bad = false → Q (Ok tt) w) → (bad = true → Q (Err e) w) → wp (guard_not bad e) w Q.
Proof. destruct bad; unfold wp; simpl; auto. Qed.

Lemma wp_or_raise (o : option A) e w Q :
  (∀ a, o = Some a → Q (Ok a) w) → (o = None → Q (Err e) w) → wp (or_raise o e) w Q.
Proof. destruct o; unfold wp; simpl; auto. Qed.

Lemma wp_query (f : store → A) w Q : Q (Ok (f (w_session w))) w → wp (query f) w Q.
Proof. done. Qed.

Lemma wp_execute f w (Q : result error unit → world → Prop) :
  Q (Ok tt) (w <| w_session ::= f |>) → wp (execute f) w Q.
Proof. done. Qed.

Lemma wp_execute_returning (f : store → A * store) w Q :
  (∀ a s, f (w_session w) = (a, s) → Q (Ok a) (w <| w_session := s |>)) →
  wp (execute_returning f) w Q.
Proof. unfold wp, execute_returning. destruct (f (w_session w)); simpl; auto. Qed.

Lemma wp_execute_checked f w (Q : result error unit → world → Prop) :
  (∀ s, f (w_session w) = Ok s → Q (Ok tt) (w <| w_session := s |>)) →
  (∀ e, f (w_session w) = Err e → Q (Err e) w) →
  wp (execute_checked f) w Q.
Proof. unfold wp, execute_checked. destruct (f (w_session w)); simpl; auto. Qed.

Lemma wp_commit w (Q : result error unit → world → Prop) :
  Q (Ok tt) (w <| w_database := w_session w |>) → wp commit w Q.
Proof. done. Qed.

Lemma wp_rollback w (Q : result error unit → world → Prop) :
  Q (Ok tt) (w <| w_session := w_database w |>) → wp rollback w Q.
Proof. done. Qed.

Lemma wp_call_external c w (Q : result error unit → world → Prop) :
  Q (Ok tt) (w <| w_calls ::= (λ l, l ++ [c]) |>) → wp (call_external c) w Q.
Proof. done. Qed.

Lemma wp_now w (Q : result error datetime → world → Prop) :
  (∀ n t, n = w_clock w (w_ticks w) → Q (Ok n) (at_tick t w)) → wp now_utc w Q.
Proof. intros H. by apply H. Qed.

Lemma wp_now_exact w (Q : result error datetime → world → Prop) :
  Q (Ok (w_clock w (w_ticks w))) (at_tick (S (w_ticks w)) w) → wp now_utc w Q.
Proof. done. Qed.

Lemma wp_uuid7 w (Q : result error UUID → world → Prop) :
  (∀ n, Q (Ok (w_uuids w (w_uuid_reads w))) (w <| w_uuid_reads := n |>)) → wp uuid7 w Q.
Proof. intros H. apply H. Qed.

Lemma wp_token w (Q : result error text → world → Prop) :
  (∀ n, Q (Ok (w_tokens w (w_token_reads w))) (w <| w_token_reads := n |>)) →
  wp token_urlsafe w Q.
Proof. intros H. apply H. Qed.

Lemma wp_uuid7_supply k w (Q : result error (nat → UUID) → world → Prop) :
  (∀ n, Q (Ok (λ i, w_uuids w (w_uuid_reads w + i)%nat)) (w <| w_uuid_reads := n |>)) →
  wp (uuid7_supply k) w Q.
Proof. intros H. apply H. Qed.

(** a raise caught as an integrity violation *)
Lemma wp_try_integrity (m : M A) h w Q :
  wp m w (λ r w', match r with
                  | Err (IntegrityError c) => wp (h c) w' Q
                  | _ => Q r w'
                  end) →
  wp (try_integrity m h) w Q.
Proof.
  unfold wp, try_integrity. destruct (m w) as [[a|[]] w']; simpl; auto.
Qed.
End rules.

(** a handler that returned, seen through its specification *)
Lemma transaction_Ok {A} (m : M A) w a w' (Post : A → world → Prop) :
  m w = (Ok a, w') → transaction m w Post → Post a w'.
Proof. unfold transaction, wp. by intros ->. Qed.

Lemma run_pair {A} (m : M A) w a : (m w).1 = Ok a → m w = (Ok a, (m w).2).
Proof. destruct (m w). by intros [= ->]. Qed.

(** ** Read-only computations advance the clock and nothing else *)
Class ReadOnly {A} (m : M A) : Prop := read_only w : ∃ t, (m w).2 = at_tick t w.

Lemma at_tick_self w : w = at_tick (w_ticks w) w.
Proof. by destruct w. Qed.
Lemma at_tick_at_tick t1 t2 w : at_tick t1 (at_tick t2 w) = at_tick t1 w.
Proof. done. Qed.
#[export] Hint Rewrite at_tick_at_tick : msgr.

Section read_only.
Context {A B : Type}.

#[export] Instance ret_ro (a : A) : ReadOnly (mret a).
Proof. intros w. exists (w_ticks w). apply at_tick_self. Qed.
#[export] Instance raise_ro e : ReadOnly (raise (A := A) e).
Proof. intros w. exists (w_ticks w). apply at_tick_self. Qed.
#[export] Instance lift_ro (r : result error A) : ReadOnly (lift r).
Proof. intros w. exists (w_ticks w). apply at_tick_self. Qed.
#[export] Instance query_ro (f : store → A) : ReadOnly (query f).
Proof. intros w. exists (w_ticks w). apply at_tick_self. Qed.
#[export] Instance bind_ro (m : M A) (k : A → M B) :
  ReadOnly m → (∀ a, ReadOnly (k a)) → ReadOnly (m ≫= k).
Proof.
  intros Hm Hk w. unfold mbind, M_bind. destruct (Hm w) as [t Ht].
  destruct (m w) as [[a|e] w']; simpl in *; subst.
  - destruct (Hk a (at_tick t w)) as [t' ->]. by exists t'.
  - by exists t.
Qed.
#[export] Instance if_ro (b : bool) (m1 m2 : M A) :
  ReadOnly m1 → ReadOnly m2 → ReadOnly (if b then m1 else m2).
Proof. by destruct b. Qed.
#[export] Instance option_ro (o : option B) (m : M A) (k : B → M A) :
  ReadOnly m → (∀ b, ReadOnly (k b)) →
  ReadOnly (match o with Some b => k b | None => m end).
Proof. by destruct o. Qed.
#[export] Instance list_ro (l : list B) (m : M A) (k : B → list B → M A) :
  ReadOnly m → (∀ b l', ReadOnly (k b l')) →
  ReadOnly (match l with [] => m | b :: l' => k b l' end).
Proof. by destruct l. Qed.
End read_only.
#[export] Instance guard_ro b e : ReadOnly (guard_not b e).
Proof. apply lift_ro. Qed.
#[export] Instance now_ro : ReadOnly now_utc.
Proof. intros w. by exists (S (w_ticks w)). Qed.

Lemma wp_read_only {A} (m : M A) `{!ReadOnly m} w (Q : result error A → world → Prop) :
  (∀ r t, r = (m w).1 → Q r (at_tick t w)) → wp m w Q.
Proof. intros H. unfold wp. destruct (read_only (m := m) w) as [t ->]. by apply H. Qed.

#[export] Instance or_raise_ro {A} (o : option A) e : ReadOnly (or_raise o e).
Proof. destruct o; apply _. Qed.

(** ** Publishing *)
Fixpoint outbox_rows (ids : nat → UUID) (events : list event) : list OutboxMessage :=
  match events with
  | [] => []
  | e :: es =>
    match outbox_of_event (ids 0%nat) e with
    | Some row => row :: outbox_rows (λ i, ids (S i)) es
    | None => outbox_rows (λ i, ids (S i)) es
    end
  end.

Lemma outbox_rows_payload ids es : ob_payload <$> outbox_rows ids es = es.
Proof.
  revert ids. induction es as [|e es IH]; intros ids; simpl; [done|].
  destruct (outbox_of_event_topic (ids 0%nat) e) as (row & -> & _ & Hp & _ & _).
  csimpl. by rewrite Hp, IH.
Qed.

Lemma outbox_rows_ext ids1 ids2 es :
  (∀ i, ids1 i = ids2 i) → outbox_rows ids1 es = outbox_rows ids2 es.
Proof.
  revert ids1 ids2. induction es as [|e es IH]; intros ids1 ids2 Hi; simpl; [done|].
  rewrite Hi, (IH _ (λ i, ids2 (S i))); [done|]. intros i. apply Hi.
Qed.

(** the store with the rows of [es] appended to the outbox *)
Definition with_events (ids : nat → UUID) (es : list event) (s : store) : store :=
  s <| outbox ::= (λ l, l ++ outbox_rows ids es) |>.

Lemma with_events_nil ids s : with_events ids [] s = s.
Proof. destruct s. unfold with_events, modify_field; simpl. by rewrite app_nil_r. Qed.

Lemma publish_run es w :
  publish es w =
  (Ok tt, w <| w_session ::= with_events (λ i, w_uuids w (w_uuid_reads w + i)%nat) es |>
            <| w_uuid_reads := (w_uuid_reads w + length es)%nat |>).
Proof.
  revert w. induction es as [|e es IH]; intros w; cbn [publish].
  - destruct w. unfold mret, M_ret, modify_field; simpl.
    by rewrite with_events_nil, Nat.add_0_r.
  - unfold mbind, M_bind, uuid7. cbn.
    destruct (outbox_of_event_topic (w_uuids w (w_uuid_reads w)) e) as (row & Hr & _).
    rewrite Hr. cbn. rewrite IH. destruct w as [s d c t u n tk tr sm ttl rq cl].
    unfold with_events, modify_field; simpl in *.
    replace (n + 0)%nat with n by lia. rewrite Hr, <- app_assoc. simpl.
    replace (n + S (length es))%nat with (S (n + length es)) by lia.
    erewrite outbox_rows_ext; [done|]. intros i. simpl. f_equal. lia.
Qed.

Lemma wp_publish es w Q :
  (∀ ids n, Q (Ok tt) (w <| w_session ::= with_events ids es |> <| w_uuid_reads := n |>)) →
  wp (publish es) w Q.
Proof. intros HQ. unfold wp. rewrite publish_run. apply HQ. Qed.
