(* ===== verification/Rbac.v ===== *)
(** Authentication data and role-based access control: [UserJWTData]
    ([app/core/services/auth/dto.py]), the interface [RBACManagerInterface]
    ([app/core/services/auth/rbac.py]) and its implementation [AuthRBACManager]
    ([app/auth/services/rbac.py]) with the built-in roles
    ([app/auth/models/role_permission.py]). *)
From S2P Require Import Prelude.

(** [id] is the decimal string of a user id; every handler converts it with
    [int], so it is kept as the integer. *)
Record UserJWTData : Type := MkJWT {
  jwt_id : Z;
  jwt_username : text;
  jwt_roles : list string;
  jwt_permissions : list string;
  jwt_security_level : Z;
  jwt_device_id : text;
}.

(** [Token]: the claims the tokens carry; [exp] and [iat] are in microseconds *)
Record Token : Type := MkToken {
  tok_type : string;
  tok_sub : Z;
  tok_lvl : Z;
  tok_jti : text;
  tok_did : text;
  tok_exp : datetime;
  tok_iat : datetime;
  tok_username : text;
  tok_roles : list string;
  tok_permissions : list string;
}.

Definition create_from_token (t : Token) : UserJWTData :=
  MkJWT (tok_sub t) (tok_username t) (tok_roles t) (tok_permissions t) (tok_lvl t) (tok_did t).

(** ** What the chat module requires of the permission manager *)
Class RBACManager : Type := {
  is_system_user : UserJWTData → bool;
  check_permission : UserJWTData → gset string → bool;
}.

(** Its contract: a system user may do everything; anyone else exactly what the
    token lists; nothing is required for nothing. *)
Class RBACManagerLaws (R : RBACManager) : Prop := {
  check_permission_system j ps : is_system_user j = true → check_permission j ps = true;
  check_permission_user j ps :
    is_system_user j = false →
    check_permission j ps = true ↔ ps ⊆ list_to_set (jwt_permissions j);
}.

Lemma check_permission_union {R : RBACManager} `{!RBACManagerLaws R} j p q :
  check_permission j (p ∪ q) = check_permission j p && check_permission j q.
Proof.
  destruct (is_system_user j) eqn:Hs; [by rewrite !check_permission_system|].
  apply eq_bool_prop_intro. rewrite !Is_true_true, andb_true_iff, !check_permission_user by done.
  set_solver.
Qed.

(** ** Built-in permissions and roles *)
Inductive PermissionEnum : Type :=
| MANAGE_SYSTEM_SETTINGS | VIEW_SYSTEM_LOGS
| CREATE_USER | UPDATE_USER | DELETE_USER | VIEW_USER | IMPERSONATE_USER
| CREATE_ROLE | UPDATE_ROLE | DELETE_ROLE | VIEW_ROLE | ASSIGN_ROLE | REMOVE_ROLE
| CREATE_PERMISSION | UPDATE_PERMISSION | DELETE_PERMISSION | VIEW_PERMISSION.

Definition permission_name (p : PermissionEnum) : string :=
  match p with
  | MANAGE_SYSTEM_SETTINGS => "system:manage_settings"
  | VIEW_SYSTEM_LOGS => "system:view_logs"
  | CREATE_USER => "user:create"
  | UPDATE_USER => "user:update"
  | DELETE_USER => "user:delete"
  | VIEW_USER => "user:view"
  | IMPERSONATE_USER => "user:impersonate"
  | CREATE_ROLE => "role:create"
  | UPDATE_ROLE => "role:update"
  | DELETE_ROLE => "role:delete"
  | VIEW_ROLE => "role:view"
  | ASSIGN_ROLE => "role:assign"
  | REMOVE_ROLE => "role:remove"
  | CREATE_PERMISSION => "permission:create"
  | UPDATE_PERMISSION => "permission:update"
  | DELETE_PERMISSION => "permission:delete"
  | VIEW_PERMISSION => "permission:view"
  end.

Definition get_all_permissions : list PermissionEnum :=
  [MANAGE_SYSTEM_SETTINGS; VIEW_SYSTEM_LOGS; CREATE_USER; UPDATE_USER; DELETE_USER; VIEW_USER;
   IMPERSONATE_USER; CREATE_ROLE; UPDATE_ROLE; DELETE_ROLE; VIEW_ROLE; ASSIGN_ROLE; REMOVE_ROLE;
   CREATE_PERMISSION; UPDATE_PERMISSION; DELETE_PERMISSION; VIEW_PERMISSION].

Inductive RolesEnum : Type := SUPER_ADMIN | SYSTEM_ADMIN | STANDARD_USER.

Definition role_name (r : RolesEnum) : string :=
  match r with
  | SUPER_ADMIN => "super_admin" | SYSTEM_ADMIN => "system_admin" | STANDARD_USER => "user"
  end.

Definition role_security_level (r : RolesEnum) : Z :=
  match r with SUPER_ADMIN => 10 | SYSTEM_ADMIN => 9 | STANDARD_USER => 1 end.

Definition role_permissions (r : RolesEnum) : list PermissionEnum :=
  match r with
  | SUPER_ADMIN => get_all_permissions
  | SYSTEM_ADMIN =>
    [MANAGE_SYSTEM_SETTINGS; VIEW_SYSTEM_LOGS; CREATE_USER; UPDATE_USER; DELETE_USER; VIEW_USER;
     VIEW_ROLE; ASSIGN_ROLE; REMOVE_ROLE]
  | STANDARD_USER => []
  end.

(** Errors of the manager *)
Inductive rbac_error : Type :=
| InvalidRoleNameError (name : text)
| ProtectedPermissionError (name : string)
| AccessDeniedError (need_permissions : gset string).

Module AuthRBACManager.

Definition system_roles : gset string :=
  {[ role_name SYSTEM_ADMIN; role_name SUPER_ADMIN ]}.

Definition protected_permissions : gset string :=
  list_to_set (permission_name <$>
    [MANAGE_SYSTEM_SETTINGS; CREATE_ROLE; UPDATE_ROLE; ASSIGN_ROLE; REMOVE_ROLE;
     CREATE_PERMISSION; UPDATE_PERMISSION; DELETE_PERMISSION; IMPERSONATE_USER]).

Definition ROLE_NAME_MIN_LEN : Z := 3.
Definition ROLE_NAME_MAX_LEN : Z := 24.
Definition SYSTEM_PREFIXES : list text := [u8 "system_"; u8 "admin_"].

Definition _to_set (l : list string) : gset string := list_to_set l.

(** [str.startswith] *)
Definition startswith (s p : text) : bool := bool_decide (p `prefix_of` s).

Definition is_system_user (j : UserJWTData) : bool :=
  bool_decide (system_roles ∩ _to_set (jwt_roles j) ≠ ∅).

Definition validate_role_name (j : UserJWTData) (name : text) : result rbac_error unit :=
  _ ← raise_if (negb ((ROLE_NAME_MIN_LEN <=? len name) && (len name <=? ROLE_NAME_MAX_LEN)))
        (InvalidRoleNameError name);
  raise_if (existsb (startswith name) SYSTEM_PREFIXES && negb (is_system_user j))
    (AccessDeniedError ({[ "role:create"%string ]} ∖ _to_set (jwt_permissions j))).

Definition validate_permissions (j : UserJWTData) (permission_name : string)
  : result rbac_error unit :=
  if is_system_user j then mret tt
  else
    _ ← raise_if (bool_decide (permission_name ∈ protected_permissions))
          (ProtectedPermissionError permission_name);
    raise_if (bool_decide (permission_name ∉ _to_set (jwt_permissions j)))
      (AccessDeniedError ({[ permission_name ]} ∖ _to_set (jwt_permissions j))).

Definition check_security_level (user_level role_level : Z) : result rbac_error unit :=
  _ ← raise_if (role_level =? 0) (AccessDeniedError ∅);
  raise_if (user_level <=? role_level) (AccessDeniedError ∅).

Definition check_permission (j : UserJWTData) (required : gset string) : bool :=
  if bool_decide (required = ∅) then true
  else if is_system_user j then true
  else bool_decide (required ⊆ _to_set (jwt_permissions j)).

(** ** Lemmas *)

Lemma is_system_user_spec j :
  is_system_user j = true ↔
  role_name SYSTEM_ADMIN ∈ jwt_roles j ∨ role_name SUPER_ADMIN ∈ jwt_roles j.
Proof.
  unfold is_system_user, system_roles, _to_set. rewrite bool_decide_eq_true. split.
  - intros (x & Hx)%set_choose_L. set_solver.
  - set_solver.
Qed.

(** A role can be handed out only by someone strictly above it, and never a
    role without a level. *)
Lemma check_security_level_Ok u r :
  check_security_level u r = Ok tt ↔ r ≠ 0 ∧ r < u.
Proof.
  unfold check_security_level. split.
  - intros H. result_inv H. bool_simpl. lia.
  - intros [Hr Hu]. rewrite (proj2 (Z.eqb_neq r 0)) by done. simpl.
    by rewrite (proj2 (Z.leb_gt u r)) by lia.
Qed.

End AuthRBACManager.

#[export] Instance auth_rbac_manager : RBACManager := {|
  is_system_user := AuthRBACManager.is_system_user;
  check_permission := AuthRBACManager.check_permission;
|}.

(** The implementation discharges the interface's laws. *)
#[export] Instance auth_rbac_manager_laws : RBACManagerLaws auth_rbac_manager.
Proof.
  split; simpl; intros j ps Hs; unfold AuthRBACManager.check_permission; rewrite Hs.
  - by case_bool_decide.
  - unfold AuthRBACManager._to_set. case_bool_decide; [set_solver|].
    by rewrite bool_decide_eq_true.
Qed.
