(* ===== verification/Access.v ===== *)
(** [app/chats/services/access.py]: who may do what in a chat. The service is
    written against the interface [RBACManager]; each read of the clock is an
    argument ([n1], [n2]), in evaluation order. *)
From S2P Require Import Prelude Config MemberModel ChatModel Rbac.

Module ChatAccessService.
Section access.
Context `{R : RBACManager}.

Definition _has_global_chat_admin (j : UserJWTData) : bool :=
  check_permission j {[ "chat:update"%string ]}.

(** [all(member_permissions.get(perm, False) for perm in must)] *)
Definition grants (m : ChatMember.t) (must : list string) : bool :=
  let member_permissions := ChatMember.effective_permissions m in
  forallb (λ perm, default false (member_permissions !! perm)) must.

Definition has_permissions (n1 n2 : datetime) (j : UserJWTData) (member : option ChatMember.t)
  (must_permissions : list string) : bool :=
  if _has_global_chat_admin j then true
  else match member with
       | None => false
       | Some m =>
         if ChatMember.is_banned n1 m then false
         else if bool_decide ("message:send"%string ∈ must_permissions) && ChatMember.is_muted n2 m
              then false
              else grants m must_permissions
       end.

Definition ensure_can_pin (n1 n2 n3 : datetime) (j : UserJWTData) (member : option ChatMember.t)
  (chat_id : UUID) : result error unit :=
  if has_permissions n1 n2 j member ["message:pin"]%string then mret tt
  else match member with
       | None => Err (NotChatMemberError chat_id (jwt_id j))
       | Some m =>
         if ChatMember.is_banned n3 m then Err (NotChatMemberError chat_id (jwt_id j))
         else Err (AccessDeniedChatError chat_id (jwt_id j))
       end.

Definition member_can_send (n1 n2 : datetime) (c : Chat.t) (member : option ChatMember.t) : bool :=
  match member with
  | None => false
  | Some m =>
    if ChatMember.is_banned n1 m || ChatMember.is_muted n2 m then false
    else
      let member_permissions := ChatMember.effective_permissions m in
      if negb (default false (member_permissions !! "message:send"%string)) then false
      else if Chat.admin_only c
              && negb (ChatMember.is_staff m
                       || default false (member_permissions !! "message:send_admin_only"%string))
           then false
      else if bool_decide (Chat.permissions c !! "message:send"%string = Some false)
              && negb (ChatMember.is_staff m)
           then false
      else true
  end.

Definition can_send_message (n1 n2 : datetime) (j : UserJWTData) (c : Chat.t)
  (member : option ChatMember.t) : bool :=
  if _has_global_chat_admin j then true else member_can_send n1 n2 c member.

Definition can_transfer_ownership (n : datetime) (j : UserJWTData) (c : Chat.t)
  (requester : option ChatMember.t) : bool :=
  if _has_global_chat_admin j then true
  else match requester with
       | None => false
       | Some r => negb (ChatMember.is_banned n r) && (ChatMember.user_id r =? Chat.created_by c)
       end.

Definition can_bypass_slow_mode (n : datetime) (member : option ChatMember.t) : bool :=
  match member with
  | None => false
  | Some m => if ChatMember.is_banned n m then false else ChatMember.can_bypass_slow_mode m
  end.

(** Returns the role the validated id names: the caller stores that id. *)
Definition ensure_can_assign_role (n : datetime) (j : UserJWTData)
  (requester : option ChatMember.t) (chat_id : UUID) (role_id : Z) : result error ChatRoleId :=
  match role_of_int role_id, chat_role_level role_id with
  | Some role, Some role_level =>
    if _has_global_chat_admin j then mret role
    else match requester with
         | None => Err (AccessDeniedChatError chat_id (jwt_id j))
         | Some r =>
           if ChatMember.is_banned n r || (ChatRole.level (ChatMember.role r) <=? role_level)
           then Err (AccessDeniedChatError chat_id (jwt_id j))
           else mret role
         end
  | _, _ => Err (InvalidChatRoleError role_id)
  end.

Definition update_member (n : datetime) (j : UserJWTData) (requester : option ChatMember.t)
  (target : ChatMember.t) (must_permissions : list string) : bool :=
  if _has_global_chat_admin j then true
  else match requester with
       | None => false
       | Some r =>
         if ChatMember.is_banned n r || (ChatMember.id r =? ChatMember.id target) then false
         else if grants r must_permissions
              then ChatRole.level (ChatMember.role target) <=? ChatRole.level (ChatMember.role r)
              else false
       end.

(** ** Lemmas *)

Lemma grants_spec m ps :
  grants m ps = true ↔ ∀ p, p ∈ ps → ChatMember.has_permission m p = true.
Proof.
  unfold grants. rewrite forallb_spec.
  by setoid_rewrite ChatMember.has_permission_effective.
Qed.

Lemma has_permissions_member n1 n2 j member ps :
  has_permissions n1 n2 j member ps = true → _has_global_chat_admin j = false →
  ∃ m, member = Some m ∧ ChatMember.is_banned n1 m = false ∧ grants m ps = true.
Proof.
  unfold has_permissions. intros Hp Hg. rewrite Hg in Hp. destruct member as [m|]; [|done].
  repeat case_match; try done. eauto.
Qed.

(** Outside the global administrators, acting on a member takes an unbanned
    membership of one's own, the permission, and at least the target's rank. *)
Lemma update_member_requester n j requester target ps :
  update_member n j requester target ps = true → _has_global_chat_admin j = false →
  ∃ r, requester = Some r ∧ ChatMember.is_banned n r = false ∧
       ChatMember.id r ≠ ChatMember.id target ∧ grants r ps = true ∧
       CHAT_ROLE_LEVELS (ChatMember.role_id target) ≤ CHAT_ROLE_LEVELS (ChatMember.role_id r).
Proof.
  unfold update_member. intros Hu Hg. rewrite Hg in Hu. destruct requester as [r|]; [|done].
  unfold ChatMember.role in Hu. rewrite !role_row_level in Hu.
  repeat case_match; try done. bool_simpl. eauto 6.
Qed.

Lemma ensure_can_assign_role_Ok n j requester cid role_id role :
  ensure_can_assign_role n j requester cid role_id = Ok role →
  role_id = role_int role ∧
  (_has_global_chat_admin j = false →
   ∃ r, requester = Some r ∧ ChatMember.is_banned n r = false ∧
        CHAT_ROLE_LEVELS role < CHAT_ROLE_LEVELS (ChatMember.role_id r)).
Proof.
  unfold ensure_can_assign_role. intros H.
  destruct (role_of_int role_id) as [role'|] eqn:Hr; [|done].
  destruct (chat_role_level role_id) as [l|] eqn:Hl; [|done].
  apply chat_role_level_Some in Hl as (r' & Hr' & ->). apply role_of_int_inv in Hr as Hr2.
  assert (r' = role') as ->.
  { rewrite Hr' in Hr. rewrite role_of_role_int in Hr. congruence. }
  destruct (_has_global_chat_admin j) eqn:Hg; [by injection H as ->|].
  destruct requester as [r|]; [|done]. unfold ChatMember.role in H. rewrite role_row_level in H.
  destruct (_ || _) eqn:Hb in H; [done|]. bool_simpl. injection H as ->. split; [done|]. eauto.
Qed.

(** Hence nobody below the global administrators hands out ownership. *)
Lemma ensure_can_assign_role_not_owner n j requester cid role_id role :
  ensure_can_assign_role n j requester cid role_id = Ok role →
  _has_global_chat_admin j = false → role ≠ OWNER.
Proof.
  intros (_ & Ha)%ensure_can_assign_role_Ok Hg. destruct (Ha Hg) as (r & _ & _ & Hlt).
  intros ->. pose proof (role_level_le_owner (ChatMember.role_id r)). lia.
Qed.

End access.
End ChatAccessService.
