(* ===== verification/ChatRepo.v ===== *)
(** [app/chats/repositories/chat.py]: the chat and membership tables, and what
    the session writes for them when it flushes.

    A query without [ORDER BY] that takes one row takes the first one in the
    iteration order of the table. [with_for_update] takes a row lock, which has
    no effect on one transaction run alone. *)
From S2P Require Import Prelude Config Events MemberModel ChatModel Store.

(** ** Flushing a chat object *)

(** The columns of the row; relations and events are not stored with it. *)
Definition chat_row (c : Chat.t) : Chat.t := c <| Chat.members := [] |> <| Chat.events := [] |>.

(** the unique index [uq_chats_username_lower], which deleted chats keep *)
Definition username_conflict (s : store) (c : Chat.t) : bool :=
  match Chat.username c with
  | None => false
  | Some u =>
    existsb (λ '(k, c'), negb (k =? Chat.id c)
                         && bool_decide (lower <$> Chat.username c' = Some (lower u)))
      (map_to_list (chats s))
  end.

(** [INSERT INTO chat_members]: the serial id, and [uq_chat_member] *)
Definition insert_member (m : ChatMember.t) (s : store) : result error store :=
  let key := (ChatMember.chat_id m, ChatMember.user_id m) in
  match members s !! key with
  | Some _ => Err (IntegrityError "uq_chat_member")
  | None =>
    Ok (s <| members ::= <[key := m <| ChatMember.id := next_member_id s |>]> |>
          <| next_member_id := next_member_id s + 1 |>)
  end.

Lemma insert_member_free m s :
  members s !! (ChatMember.chat_id m, ChatMember.user_id m) = None →
  insert_member m s =
  Ok (s <| members ::= <[(ChatMember.chat_id m, ChatMember.user_id m) :=
             m <| ChatMember.id := next_member_id s |>]> |>
        <| next_member_id := next_member_id s + 1 |>).
Proof. unfold insert_member. by intros ->. Qed.

Lemma insert_member_taken m s x :
  members s !! (ChatMember.chat_id m, ChatMember.user_id m) = Some x →
  insert_member m s = Err (IntegrityError "uq_chat_member").
Proof. unfold insert_member. by intros ->. Qed.

Fixpoint insert_members (l : list ChatMember.t) (s : store) : result error store :=
  match l with
  | [] => Ok s
  | m :: l' => s' ← insert_member m s; insert_members l' s'
  end.

(** flush of the members [chat.add_member] appended *)
Definition flush_members (c : Chat.t) : M unit := execute_checked (insert_members (Chat.members c)).

(** flush of changed columns of a loaded chat *)
Definition flush_chat (c : Chat.t) : M unit := execute_checked (λ s,
  _ ← raise_if (username_conflict s c) (IntegrityError "uq_chats_username_lower");
  Ok (s <| chats ::= <[Chat.id c := chat_row c]> |>)).

(** flush of a membership whose columns changed *)
Definition flush_member (m : ChatMember.t) : M unit :=
  execute (λ s, s <| members ::= <[(ChatMember.chat_id m, ChatMember.user_id m) := m]> |>).

Module ChatRepository.

Definition get_by_id (chat_id : UUID) : M (option Chat.t) := query (λ s,
  c ← chats s !! chat_id;
  if Chat.is_deleted c then None else Some c).

Definition get_by_username (username : text) : M (option Chat.t) := query (λ s,
  first_row (λ _ c, negb (Chat.is_deleted c)
                    && bool_decide (lower <$> Chat.username c = Some (lower username)))
    (chats s)).

Definition member_chat_ids (user_id : Z) (chat_ids : list UUID) : M (gset UUID) :=
  match chat_ids with
  | [] => mret ∅
  | _ =>
    now ← now_utc;
    query (λ s, list_to_set (filter (λ chat_id,
      (match members s !! (chat_id, user_id) with
       | Some m => negb (ChatMember.is_banned now m)
       | None => false
       end) = true) chat_ids))
  end.

Definition get_fanout_strategy (chat_id : UUID) (include_deleted : bool)
  : M (option ChatFanoutStrategy) := query (λ s,
  c ← chats s !! chat_id;
  if negb include_deleted && Chat.is_deleted c then None
  else Some (Chat.resolve_fanout_strategy (Chat.type c) (Chat.member_count c))).

(** a private direct chat with both users, deleted or not *)
Definition get_direct_chat (user_id other_user_id : Z) : M (option Chat.t) := query (λ s,
  first_row (λ k c, bool_decide (Chat.type c = DIRECT) && negb (Chat.is_public c)
                    && is_some (members s !! (k, user_id))
                    && is_some (members s !! (k, other_user_id))) (chats s)).

(** One conditional [UPDATE]; [None] when no live chat matches. *)
Definition allocate_message_seq (chat_id : UUID) (message_date : datetime) (count : Z)
  : M (option Z) := execute_returning (λ s,
  match chats s !! chat_id with
  | Some c =>
    if Chat.is_deleted c then (None, s)
    else
      let n := Chat.seq_counter c + count in
      (Some n, s <| chats ::= <[chat_id := c <| Chat.seq_counter := n |>
                                            <| Chat.last_activity_at := Some message_date |>]> |>)
  | None => (None, s)
  end).

Definition shift_member_count (chat_id : UUID) (delta : Z) (limit : option Z)
  : M (option Z) := execute_returning (λ s,
  match chats s !! chat_id with
  | Some c =>
    let n := Chat.member_count c + delta in
    if Chat.is_deleted c || match limit with Some l => l <? n | None => false end then (None, s)
    else (Some n, s <| chats ::= <[chat_id := c <| Chat.member_count := n |>]> |>)
  | None => (None, s)
  end).

(** [session.add(chat)]: the flush inserts the chat and its members *)
Definition create (c : Chat.t) : M unit := execute_checked (λ s,
  _ ← raise_if (is_some (chats s !! Chat.id c)) (IntegrityError "chats_pkey");
  _ ← raise_if (username_conflict s c) (IntegrityError "uq_chats_username_lower");
  insert_members (Chat.members c) (s <| chats ::= <[Chat.id c := chat_row c]> |>)).

Definition get_chat_and_member (chat_id : UUID) (member_id : Z) : M (Chat.t * ChatMember.t) :=
  row ← query (λ s,
    c ← chats s !! chat_id;
    m ← members s !! (chat_id, member_id);
    if Chat.is_deleted c then None else Some (c, m));
  match row with
  | None => raise (NotFoundChatError chat_id)
  | Some cm => mret cm
  end.

Definition get_member_chat (chat_id : UUID) (member_id : Z) : M (option ChatMember.t) :=
  query (λ s, members s !! (chat_id, member_id)).

(** [override.is_(None) or override] over the roles whose map grants it *)
Definition user_ids_with_permission (chat_id : UUID) (permission : string) (limit : nat)
  : M (list Z) :=
  now ← now_utc;
  query (λ s, take limit (snd ∘ fst <$> filter (λ '((c, _), m),
    c = chat_id ∧ ChatRole.has_permission (ChatMember.role m) permission = true
    ∧ ChatMember.is_banned now m = false
    ∧ ChatMember.permissions_overrides m !! permission ≠ Some false)
    (map_to_list (members s)))).

(** [dict[int, ChatMember]] *)
Definition members_by_user_ids (chat_id : UUID) (user_ids : list Z) : M (gmap Z ChatMember.t) :=
  query (λ s, dict_of (λ u, members s !! (chat_id, u)) (list_to_set user_ids)).

Definition delete_member (m : ChatMember.t) : M unit :=
  execute (λ s, s <| members ::= delete (ChatMember.chat_id m, ChatMember.user_id m) |>).

Definition count_pinned_chats (user_id : Z) : M Z := query (λ s,
  count_where (λ '((c, u), m),
    ((u =? user_id) && ChatMember.is_pinned m
     && match chats s !! c with
        | Some chat => negb (Chat.is_deleted chat)
        | None => false
        end) = true) (members s)).

End ChatRepository.

(** ** Phrases the handlers share *)

(** [await event_bus.publish(chat.pull_events())] *)
Definition publish_chat (c : Chat.t) : M unit := publish (Chat.pull_events c).1.

(** [chat = await get_by_id(...); if chat is None: raise NotFoundChatError] *)
Definition live_chat (chat_id : UUID) : M Chat.t :=
  chat ← ChatRepository.get_by_id chat_id;
  or_raise chat (NotFoundChatError chat_id).

(** [shift_member_count(..., limit=limit)] that raises when refused; the
    statement refreshes the loaded chat ([synchronize_session="fetch"]). *)
Definition take_places (c : Chat.t) (delta : Z) : M Chat.t :=
  let limit := Chat.member_limit (Chat.type c) in
  count ← ChatRepository.shift_member_count (Chat.id c) delta (Some limit);
  count ← or_raise count (MemberLimitExceededError limit);
  mret (c <| Chat.member_count := count |>).
