(* ===== verification/ChatWp.v ===== *)
(** How the statements of [ChatRepo] behave, as rules of [Wp], and the tactic
    that runs a handler through them. *)
From S2P Require Import Prelude Config Events MemberModel ChatModel Store Wp ChatRepo.

Definition live_row (w : world) (k : UUID) (c : Chat.t) : Prop :=
  chats (w_session w) !! k = Some c ∧ Chat.is_deleted c = false.

Lemma wp_get_by_id k w Q :
  (∀ c, live_row w k c → Q (Ok (Some c)) w) →
  ((∀ c, ¬ live_row w k c) → Q (Ok None) w) →
  wp (ChatRepository.get_by_id k) w Q.
Proof.
  intros HS HN. apply wp_query. unfold live_row in *. cbn.
  destruct (chats (w_session w) !! k) as [c|]; cbn; [|apply HN; naive_solver].
  destruct (Chat.is_deleted c) eqn:Hd; [apply HN|apply HS]; naive_solver congruence.
Qed.

Lemma wp_get_chat_and_member k u w Q :
  (∀ c m, live_row w k c → members (w_session w) !! (k, u) = Some m → Q (Ok (c, m)) w) →
  ((∀ c m, live_row w k c → members (w_session w) !! (k, u) ≠ Some m) →
   Q (Err (NotFoundChatError k)) w) →
  wp (ChatRepository.get_chat_and_member k u) w Q.
Proof.
  intros HS HN. apply wp_bind, wp_query. unfold live_row in *. cbn.
  destruct (chats (w_session w) !! k) as [c|] eqn:Hc; cbn; [|apply HN; naive_solver].
  destruct (members (w_session w) !! (k, u)) as [m|] eqn:Hm; cbn; [|apply HN; naive_solver].
  destruct (Chat.is_deleted c) eqn:Hd; [apply HN|apply HS]; naive_solver congruence.
Qed.

(** the counter statement, when it matches the row *)
Definition shifted (k : UUID) (c : Chat.t) (n : Z) (w : world) : world :=
  w <| w_session ::= λ s, s <| chats ::= <[k := c <| Chat.member_count := n |>]> |> |>.

Lemma wp_shift_member_count k d limit w Q :
  (∀ c, live_row w k c →
     (∀ l, limit = Some l → Chat.member_count c + d ≤ l) →
     Q (Ok (Some (Chat.member_count c + d))) (shifted k c (Chat.member_count c + d) w)) →
  ((∀ c, live_row w k c → ∃ l, limit = Some l ∧ l < Chat.member_count c + d) → Q (Ok None) w) →
  wp (ChatRepository.shift_member_count k d limit) w Q.
Proof.
  intros HS HN. apply wp_execute_returning. intros a s Ha.
  assert (w <| w_session := w_session w |> = w) as Hw by (by destruct w).
  unfold live_row in *. destruct (chats (w_session w) !! k) as [c|] eqn:Hc.
  2:{ injection Ha as <- <-. rewrite Hw. apply HN. naive_solver. }
  destruct (Chat.is_deleted c) eqn:Hd; cbn in Ha.
  { injection Ha as <- <-. rewrite Hw. apply HN. naive_solver congruence. }
  destruct (match limit with Some l => l <? Chat.member_count c + d | None => false end) eqn:Hl.
  - injection Ha as <- <-. rewrite Hw. apply HN. intros c' [[= <-] _].
    destruct limit as [l|]; [|done]. exists l. bool_simpl. done.
  - injection Ha as <- <-. apply (HS c); [done|]. intros l ->. bool_simpl. done.
Qed.

Lemma wp_allocate_message_seq k date n w Q :
  (∀ c, live_row w k c →
     Q (Ok (Some (Chat.seq_counter c + n)))
       (w <| w_session ::= λ s, s <| chats ::= <[k :=
          c <| Chat.seq_counter := Chat.seq_counter c + n |>
            <| Chat.last_activity_at := Some date |>]> |> |>)) →
  ((∀ c, ¬ live_row w k c) → Q (Ok None) w) →
  wp (ChatRepository.allocate_message_seq k date n) w Q.
Proof.
  intros HS HN. apply wp_execute_returning. intros a s Ha.
  assert (w <| w_session := w_session w |> = w) as Hw by (by destruct w).
  unfold live_row in *. destruct (chats (w_session w) !! k) as [c|] eqn:Hc.
  2:{ injection Ha as <- <-. rewrite Hw. apply HN. naive_solver. }
  destruct (Chat.is_deleted c) eqn:Hd; injection Ha as <- <-.
  - rewrite Hw. apply HN. naive_solver congruence.
  - by apply (HS c).
Qed.

Lemma wp_flush_chat c w Q :
  (username_conflict (w_session w) c = false →
   Q (Ok tt) (w <| w_session ::= λ s, s <| chats ::= <[Chat.id c := chat_row c]> |> |>)) →
  (Q (Err (IntegrityError "uq_chats_username_lower")) w) →
  wp (flush_chat c) w Q.
Proof.
  intros HS HE. apply wp_execute_checked; destruct (username_conflict (w_session w) c) eqn:Hu;
    cbn; intros x [= <-]; auto.
Qed.

Lemma wp_flush_member m w Q :
  Q (Ok tt) (w <| w_session ::= λ s,
     s <| members ::= <[(ChatMember.chat_id m, ChatMember.user_id m) := m]> |> |>) →
  wp (flush_member m) w Q.
Proof. done. Qed.

Lemma wp_live_chat k w Q :
  (∀ c, live_row w k c → Q (Ok c) w) →
  ((∀ c, ¬ live_row w k c) → Q (Err (NotFoundChatError k)) w) →
  wp (live_chat k) w Q.
Proof.
  intros HS HN. apply wp_bind, wp_get_by_id; intros; apply wp_or_raise; naive_solver.
Qed.

Lemma wp_take_places c d w Q :
  live_row w (Chat.id c) c →
  (Chat.member_count c + d ≤ Chat.member_limit (Chat.type c) →
   Q (Ok (c <| Chat.member_count := Chat.member_count c + d |>))
     (shifted (Chat.id c) c (Chat.member_count c + d) w)) →
  Q (Err (MemberLimitExceededError (Chat.member_limit (Chat.type c)))) w →
  wp (take_places c d) w Q.
Proof.
  intros Hl HS HE. apply wp_bind, wp_shift_member_count.
  - intros c' Hl' Hlim. assert (c' = c) as -> by (destruct Hl, Hl'; congruence).
    apply wp_bind, wp_or_raise; [|done]. intros n [= <-]. apply wp_ret, HS. by apply Hlim.
  - intros _. by apply wp_bind, wp_or_raise.
Qed.

(** the flush of one appended member *)
Lemma wp_flush_one c uid role w Q :
  Chat.members c = [ChatMember.create (Chat.id c) uid role] →
  (members (w_session w) !! (Chat.id c, uid) = None →
   Q (Ok tt) (w <| w_session ::= λ s,
     s <| members ::= <[(Chat.id c, uid) := (ChatMember.create (Chat.id c) uid role)
            <| ChatMember.id := next_member_id s |>]> |>
       <| next_member_id := next_member_id s + 1 |> |>)) →
  (∀ x, members (w_session w) !! (Chat.id c, uid) = Some x →
   Q (Err (IntegrityError "uq_chat_member")) w) →
  wp (flush_members c) w Q.
Proof.
  intros Hm HS HE. unfold flush_members. rewrite Hm. cbn [insert_members].
  destruct (members (w_session w) !! (Chat.id c, uid)) as [x|] eqn:Hk.
  - apply wp_execute_checked; rewrite (insert_member_taken (ChatMember.create (Chat.id c) uid role) _ x Hk); intros y [= <-]; eauto.
  - apply wp_execute_checked; rewrite (insert_member_free (ChatMember.create (Chat.id c) uid role) _ Hk); intros y [= <-]; eauto.
Qed.

(** ** Running a handler *)
Ltac wp_error := try first [reflexivity|assumption].

(** from [m w = (Ok a, w')] and a goal about [w'] to the handler's execution *)
Ltac returned Hr :=
  lazymatch type of Hr with
  | ?m ?w = (Ok ?a, ?w') =>
    pattern a, w';
    lazymatch goal with |- ?P a w' => apply (transaction_Ok m w a w' P Hr); clear Hr end
  end; unfold transaction.

(** a read of the clock, of which most proofs need nothing *)
Ltac wp_clock := apply wp_now; intros ? ? _.

(** rules for the statements of other repositories, added where they are used *)
Ltac wp_extra := fail "no rule".

Ltac wp_step :=
  cbv beta iota zeta;
  lazymatch goal with
  | |- wp (mbind _ (ChatRepository.delete_member _)) _ _ => fail "see wp_member_gone"
  | |- wp (mbind _ (take_places _ _)) _ _ => fail "see wp_newcomer"
  | |- wp (mbind _ _) _ _ => apply wp_bind
  | |- wp (mret _) _ _ => apply wp_ret
  | |- wp (raise _) _ _ => apply wp_raise; wp_error
  | |- wp (lift _) _ _ => apply wp_lift; [intros ? ?|intros ? _; wp_error]
  | |- wp (guard_not _ _) _ _ => apply wp_guard_not; [intros ?|intros _; wp_error]
  | |- wp (or_raise _ _) _ _ => apply wp_or_raise; [intros ? ?|intros _; wp_error]
  | |- wp now_utc _ _ => wp_clock
  | |- wp uuid7 _ _ => apply wp_uuid7; intros ?
  | |- wp (uuid7_supply _) _ _ => apply wp_uuid7_supply; intros ?
  | |- wp token_urlsafe _ _ => apply wp_token; intros ?
  | |- wp commit _ _ => apply wp_commit
  | |- wp (publish _) _ _ => apply wp_publish; intros ? ?
  | |- wp (call_external _) _ _ => apply wp_call_external
  | |- wp (query _) _ _ => apply wp_query
  | |- wp (execute _) _ _ => apply wp_execute
  | |- wp (flush_member _) _ _ => apply wp_flush_member
  | |- wp (flush_chat _) _ _ => apply wp_flush_chat; [intros _|wp_error]
  | |- wp rollback _ _ => apply wp_rollback
  | |- wp (ChatRepository.get_member_chat _ _) _ _ => apply wp_query
  | |- wp (ChatRepository.delete_member _) _ _ => apply wp_execute
  | |- wp (publish_chat _) _ _ => apply wp_publish; intros ? ?
  | |- wp (live_chat _) _ _ => apply wp_live_chat; [intros ? [? ?]|intros _; wp_error]
  | |- wp (ChatRepository.get_by_id _) _ _ =>
    apply wp_get_by_id; [intros ? [? ?]|intros ?]
  | |- wp (ChatRepository.get_chat_and_member _ _) _ _ =>
    apply wp_get_chat_and_member; [intros ? ? [? ?] ?|intros _; wp_error]
  | |- wp _ _ _ => wp_extra
  end; cbv beta iota zeta.

(** a call of a read-only service: what it answers is left abstract *)
Ltac wp_service :=
  let r := fresh "r" in
  lazymatch goal with |- wp ?m ?w ?Q => refine (wp_read_only m w Q _) end;
  intros r ? _; destruct r; [|wp_error].

Ltac wp_steps := repeat wp_step.

#[export] Instance get_by_username_ro u : ReadOnly (ChatRepository.get_by_username u).
Proof. apply query_ro. Qed.
#[export] Instance get_member_chat_ro k u : ReadOnly (ChatRepository.get_member_chat k u).
Proof. apply query_ro. Qed.
#[export] Instance count_pinned_chats_ro u : ReadOnly (ChatRepository.count_pinned_chats u).
Proof. apply query_ro. Qed.
