(* ===== verification/PrivacyService.v ===== *)
(** [app/chats/repositories/blocks.py], [privacy.py], [user_profile.py]: the block list, the projections of contacts, privacy settings and profiles; and [app/chats/services/privacy.py]: blocks and privacy rules, with the decision each of its batched look-ups implements. *)
From S2P Require Import Prelude Config Events MemberModel ChatModel PrivacyModel Store Wp.

Definition in_blocks (s : store) (owner target : Z) : bool :=
  bool_decide ((owner, target) ∈ blocks s).

Module ChatUserBlockRepository.

(** [True] when a row was inserted (deleted) *)
Definition block (owner_id target_id : Z) : M bool := execute_returning (λ s,
  (negb (in_blocks s owner_id target_id), s <| blocks ::= union {[ (owner_id, target_id) ]} |>)).

Definition unblock (owner_id target_id : Z) : M bool := execute_returning (λ s,
  (in_blocks s owner_id target_id, s <| blocks ::= (.∖ {[ (owner_id, target_id) ]}) |>)).

Definition blockers_of (target_id : Z) (owner_ids : gset Z) : M (gset Z) := query (λ s,
  filter (λ o, in_blocks s o target_id = true) owner_ids).

Definition blocked_between (s : store) (a b : Z) : bool := in_blocks s a b || in_blocks s b a.

Definition is_blocked_between (user_id other_user_id : Z) : M bool := query (λ s,
  blocked_between s user_id other_user_id).

Definition blocked_direct_peer (chat_id : UUID) (user_id : Z) : M (option Z) := query (λ s,
  ChatMember.user_id <$> first_row (λ '(c, u) _,
    (c =? chat_id) && negb (u =? user_id) && blocked_between s u user_id) (members s)).

End ChatUserBlockRepository.

(** [d.get(key)] on an association list that keeps a dict's order *)
Definition dict_get {V} (d : list (string * V)) (key : string) : option V :=
  snd <$> head (filter (λ kv, kv.1 = key) d).

Module ChatPrivacyProjectionRepository.

Definition direct_peer_state (chat_id : UUID) (viewer_id : Z) (rule : PrivacyRule)
  : M (option DirectPeerState) := query (λ s,
  peer ← first_row (λ '(c, u) _, (c =? chat_id) && negb (u =? viewer_id)) (members s);
  let peer_id := ChatMember.user_id peer in
  let column := (λ p, ChatUserProfile.privacy p rule) <$> profiles s !! peer_id in
  Some (MkDirectPeerState peer_id
    (ChatUserBlockRepository.blocked_between s peer_id viewer_id)
    (match column with
     | None => DEFAULT_VISIBILITY
     | Some v => parse_visibility (Some v)
     end)
    (privacy_exceptions s !! (peer_id, rule_value rule, viewer_id)))).

(** [dict[int, PrivacyVisibility]] of the owners that have a profile *)
Definition visibility_map (rule : PrivacyRule) (owner_ids : gset Z)
  : M (gmap Z PrivacyVisibility) := query (λ s,
  dict_of (λ o, (λ p, ChatUserProfile.visibility p rule) <$> profiles s !! o) owner_ids).

Definition exceptions_for (rule : PrivacyRule) (target_id : Z) (owner_ids : gset Z)
  : M (gmap Z bool) := query (λ s,
  dict_of (λ o, privacy_exceptions s !! (o, rule_value rule, target_id)) owner_ids).

Definition contacts_of (contact_id : Z) (owner_ids : gset Z) : M (gset Z) := query (λ s,
  filter (λ o, (o, contact_id) ∈ contacts s) owner_ids).

Definition direct_peer (chat_id : UUID) (user_id : Z) : M (option Z) := query (λ s,
  ChatMember.user_id <$>
    first_row (λ '(c, u) _, (c =? chat_id) && negb (u =? user_id)) (members s)).

(** [rules.get(rule.value, DEFAULT)[:16]] for each column *)
Definition privacy_columns (rules : gmap string string) (rule : PrivacyRule) : string :=
  String.substring 0 16
    (default (visibility_value DEFAULT_VISIBILITY) (rules !! rule_value rule)).

(** [ON CONFLICT DO UPDATE ... WHERE stored IS NULL OR stored < source] *)
Definition newer (stored : option datetime) (source : datetime) : bool :=
  match stored with None => true | Some t => t <? source end.

Definition upsert_privacy (user_id : Z) (rules : gmap string string)
  (source_updated_at : datetime) : M bool := execute_returning (λ s,
  match profiles s !! user_id with
  | None =>
    (true, s <| profiles ::= <[user_id := ChatUserProfile.Mk user_id None None None None None
                                 (privacy_columns rules) (Some source_updated_at)]> |>)
  | Some p =>
    if newer (ChatUserProfile.privacy_source_updated_at p) source_updated_at
    then (true, s <| profiles ::= <[user_id :=
            p <| ChatUserProfile.privacy := privacy_columns rules |>
              <| ChatUserProfile.privacy_source_updated_at := Some source_updated_at |>]> |>)
    else (false, s)
  end).

Definition known (rule : string) : bool := bool_decide (rule ∈ rule_value <$> all_rules).

(** The rows of the comprehension, in its order. *)
Definition exception_rows (owner_id : Z)
  (exceptions : list (string * list (string * list Z))) : list ((Z * string * Z) * bool) :=
  '(rule, buckets) ← filter (λ rb, known rb.1 = true) exceptions;
  '(bucket, allow) ← [("allow"%string, true); ("deny"%string, false)];
  target_id ← filter (λ t, t ≠ owner_id) (default [] (dict_get buckets bucket));
  [((owner_id, rule, target_id), allow)].

(** [INSERT ... ON CONFLICT DO NOTHING]: the first row of a key stays *)
Definition insert_or_keep {K V} `{Countable K} (m : gmap K V) (kv : K * V) : gmap K V :=
  match m !! kv.1 with Some _ => m | None => <[kv.1 := kv.2]> m end.

Definition replace_exceptions (owner_id : Z)
  (exceptions : list (string * list (string * list Z))) : M unit := execute (λ s,
  s <| privacy_exceptions ::= (λ m,
         foldl insert_or_keep (filter (λ kv, kv.1.1.1 ≠ owner_id) m)
           (exception_rows owner_id exceptions)) |>).

Definition add_contact (owner_id contact_id : Z) : M bool := execute_returning (λ s,
  (negb (bool_decide ((owner_id, contact_id) ∈ contacts s)),
   s <| contacts ::= union {[ (owner_id, contact_id) ]} |>)).

Definition remove_contact (owner_id contact_id : Z) : M bool := execute_returning (λ s,
  (bool_decide ((owner_id, contact_id) ∈ contacts s),
   s <| contacts ::= (.∖ {[ (owner_id, contact_id) ]}) |>)).

End ChatPrivacyProjectionRepository.

Module ChatUserProfileRepository.

Definition get_by_ids (user_ids : list Z) : M (list ChatUserProfile.t) := query (λ s,
  (snd <$> filter (λ kv, kv.1 ∈ user_ids) (map_to_list (profiles s)))).

Definition get_by_id (user_id : Z) : M (option ChatUserProfile.t) :=
  query (λ s, profiles s !! user_id).

Definition upsert (user_id : Z) (username display_name : option text)
  (avatar_s3_key : option text) (source_updated_at : datetime) (event_id : option UUID)
  : M bool := execute_returning (λ s,
  match profiles s !! user_id with
  | None =>
    (true, s <| profiles ::= <[user_id := ChatUserProfile.Mk user_id username display_name
                                 avatar_s3_key event_id (Some source_updated_at)
                                 ChatUserProfile.default_privacy None]> |>)
  | Some p =>
    if ChatPrivacyProjectionRepository.newer (ChatUserProfile.source_updated_at p)
         source_updated_at
    then (true, s <| profiles ::= <[user_id :=
            p <| ChatUserProfile.username := username |>
              <| ChatUserProfile.display_name := display_name |>
              <| ChatUserProfile.avatar_s3_key := avatar_s3_key |>
              <| ChatUserProfile.last_event_id := event_id |>
              <| ChatUserProfile.source_updated_at := Some source_updated_at |>]> |>)
    else (false, s)
  end).

End ChatUserProfileRepository.

Import ChatPrivacyProjectionRepository ChatUserBlockRepository.

Module ChatPrivacyService.

Definition _peer_allows (state : DirectPeerState) (viewer_id : Z) : M bool :=
  is_contact ←
    (if is_none (peer_exception state) && bool_decide (peer_visibility state = CONTACTS)
     then c ← contacts_of viewer_id {[ peer_id state ]}; mret (bool_decide (c ≠ ∅))
     else mret false);
  mret (is_allowed (peer_visibility state) false is_contact (peer_exception state)).

(** the body shared by [ensure_can_message] and [ensure_can_call] *)
Definition _ensure_direct (rule : PrivacyRule) (restricted : option UUID → Z → error)
  (c : Chat.t) (user_id : Z) : M unit :=
  if negb (bool_decide (Chat.type c = DIRECT)) then mret tt
  else
    state ← direct_peer_state (Chat.id c) user_id rule;
    match state with
    | None => mret tt
    | Some state =>
      _ ← guard_not (peer_blocked state) (UserBlockedError (Some (Chat.id c)) (peer_id state));
      allows ← _peer_allows state user_id;
      guard_not (negb allows) (restricted (Some (Chat.id c)) (peer_id state))
    end.

Definition ensure_can_message : Chat.t → Z → M unit :=
  _ensure_direct MESSAGES MessagesPrivacyRestrictedError.

Definition ensure_can_call : Chat.t → Z → M unit :=
  _ensure_direct CALLS CallsPrivacyRestrictedError.

Definition allowed_by (rule : PrivacyRule) (viewer_id : Z) (owner_ids : gset Z) : M (gset Z) :=
  if bool_decide (owner_ids = ∅) then mret ∅
  else
    let allowed : gset Z := if bool_decide (viewer_id ∈ owner_ids) then {[ viewer_id ]} else ∅ in
    let owners := owner_ids ∖ {[ viewer_id ]} in
    if bool_decide (owners = ∅) then mret allowed
    else
      visibility ← visibility_map rule owners;
      exceptions ← exceptions_for rule viewer_id owners;
      let need_contacts :=
        filter (λ o, exceptions !! o = None
                     ∧ default DEFAULT_VISIBILITY (visibility !! o) = CONTACTS) owners in
      contacts ← (if bool_decide (need_contacts = ∅) then mret ∅
                  else contacts_of viewer_id need_contacts);
      mret (allowed ∪ filter (λ o,
        is_allowed (default DEFAULT_VISIBILITY (visibility !! o)) false
          (bool_decide (o ∈ contacts)) (exceptions !! o) = true) owners).

Definition ensure_can_start_direct (user_id peer_id : Z) : M unit :=
  blocked ← is_blocked_between user_id peer_id;
  _ ← guard_not blocked (UserBlockedError None peer_id);
  allowed ← allowed_by MESSAGES user_id {[ peer_id ]};
  guard_not (bool_decide (peer_id ∉ allowed)) (MessagesPrivacyRestrictedError None peer_id).

(** [sorted] of a set of integers *)
Definition sorted_ids (x : gset Z) : list Z := merge_sort Z.le (elements x).

Definition ensure_can_add (requester_id : Z) (target_ids : list Z) : M unit :=
  let targets : gset Z := list_to_set (filter (λ t, t ≠ requester_id) target_ids) in
  if bool_decide (targets = ∅) then mret tt
  else
    restricted ← blockers_of requester_id targets;
    let rest := targets ∖ restricted in
    restricted ← (if bool_decide (rest = ∅) then mret restricted
                  else allowed ← allowed_by GROUP_INVITES requester_id rest;
                       mret (restricted ∪ (rest ∖ allowed)));
    guard_not (negb (bool_decide (restricted = ∅)))
      (UserPrivacyRestrictedError (sorted_ids restricted)).

Definition _hidden_by_rule (rule : PrivacyRule) (viewer_id : Z) (user_ids : list Z)
  : M (gset Z) :=
  let candidates : gset Z := list_to_set (filter (λ u, u ≠ viewer_id) user_ids) in
  if bool_decide (candidates = ∅) then mret ∅
  else
    hidden ← blockers_of viewer_id candidates;
    let rest := candidates ∖ hidden in
    if bool_decide (rest = ∅) then mret hidden
    else allowed ← allowed_by rule viewer_id rest; mret (hidden ∪ (rest ∖ allowed)).

Definition hidden_photos : Z → list Z → M (gset Z) := _hidden_by_rule PHOTO.
Definition hidden_presence : Z → list Z → M (gset Z) := _hidden_by_rule LAST_SEEN.

(** ** The reference decision *)

(** Does [owner]'s setting for [rule] enroll [viewer]? The viewer's own data
    is always admitted; an exception decides before the visibility. *)
Definition admits (s : store) (rule : PrivacyRule) (owner viewer : Z) : bool :=
  is_allowed
    (match profiles s !! owner with
     | Some p => ChatUserProfile.visibility p rule
     | None => DEFAULT_VISIBILITY
     end)
    (owner =? viewer)
    (bool_decide ((owner, viewer) ∈ contacts s))
    (privacy_exceptions s !! (owner, rule_value rule, viewer)).

(** ** Lemmas *)

#[global] Instance peer_allows_ro st v : ReadOnly (_peer_allows st v).
Proof. unfold _peer_allows. apply _. Qed.
#[global] Instance ensure_direct_ro r f c u : ReadOnly (_ensure_direct r f c u).
Proof. unfold _ensure_direct. apply _. Qed.
#[global] Instance ensure_can_message_ro c u : ReadOnly (ensure_can_message c u).
Proof. apply ensure_direct_ro. Qed.
#[global] Instance ensure_can_call_ro c u : ReadOnly (ensure_can_call c u).
Proof. apply ensure_direct_ro. Qed.
#[global] Instance allowed_by_ro r v o : ReadOnly (allowed_by r v o).
Proof. unfold allowed_by, visibility_map, exceptions_for, contacts_of. apply _. Qed.
#[global] Instance ensure_can_start_direct_ro u p : ReadOnly (ensure_can_start_direct u p).
Proof. unfold ensure_can_start_direct, is_blocked_between. apply _. Qed.
#[global] Instance ensure_can_add_ro r l : ReadOnly (ensure_can_add r l).
Proof. unfold ensure_can_add, blockers_of. apply _. Qed.
#[global] Instance hidden_by_rule_ro r v l : ReadOnly (_hidden_by_rule r v l).
Proof. unfold _hidden_by_rule, blockers_of. apply _. Qed.

(** [allowed_by] only fetches contacts for the owners whose rule needs them;
    its answer is the reference decision on every owner. *)
Lemma allowed_by_run rule viewer owners w :
  allowed_by rule viewer owners w =
  (Ok (filter (λ o, admits (w_session w) rule o viewer = true) owners), w).
Proof.
  unfold allowed_by. case_bool_decide as Ho.
  { by subst. }
  set (s := w_session w).
  assert (viewer ∈ owners → admits s rule viewer viewer = true) as Hself.
  { intros _. unfold admits, is_allowed. by rewrite Z.eqb_refl. }
  case_bool_decide as Hrest.
  { unfold mret, M_ret. do 2 f_equal. apply set_eq. intros o. rewrite elem_of_filter.
    assert (o ∈ owners → o = viewer) as Hv.
    { intros Hin. destruct (decide (o = viewer)) as [|Hne]; [done|]. exfalso.
      apply (not_elem_of_empty (C := gset Z) o). rewrite <- Hrest, elem_of_difference. by rewrite elem_of_singleton. }
    case_bool_decide; [rewrite elem_of_singleton|rewrite elem_of_empty]; naive_solver. }
  unfold visibility_map, exceptions_for, contacts_of, mbind, M_bind, query. fold s.
  set (vis := dict_of (λ o, (λ p, ChatUserProfile.visibility p rule) <$> profiles s !! o) _).
  set (exc := dict_of (λ o, privacy_exceptions s !! (o, rule_value rule, viewer)) _).
  set (need := filter (λ o, exc !! o = None ∧ _) _).
  assert (∀ cs : gset Z, (∀ o, o ∈ need → o ∈ cs ↔ (o, viewer) ∈ contacts s) →
    (if bool_decide (viewer ∈ owners) then {[ viewer ]} else ∅) ∪
      filter (λ o, is_allowed (default DEFAULT_VISIBILITY (vis !! o)) false
                     (bool_decide (o ∈ cs)) (exc !! o) = true) (owners ∖ {[viewer]})
    = filter (λ o, admits s rule o viewer = true) owners) as Hfin.
  2: { destruct (bool_decide (need = ∅)) eqn:Hn; unfold mret, M_ret; do 2 f_equal; apply Hfin.
       - intros o Hin. apply bool_decide_eq_true in Hn. by rewrite Hn in Hin.
       - intros o Hin. rewrite elem_of_filter. naive_solver. }
  intros cs Hcs. apply set_eq. intros o. rewrite elem_of_union, !elem_of_filter.
  destruct (decide (o = viewer)) as [->|Hne].
  { case_bool_decide; [rewrite elem_of_singleton|rewrite elem_of_empty];
      rewrite elem_of_difference, elem_of_singleton; naive_solver. }
  assert (o ∈ owners → vis !! o = (λ p, ChatUserProfile.visibility p rule) <$> profiles s !! o
          ∧ exc !! o = privacy_exceptions s !! (o, rule_value rule, viewer)) as Hlk.
  { intros Hin. unfold vis, exc. rewrite !lookup_dict_of, !decide_True by set_solver. done. }
  rewrite elem_of_difference, elem_of_singleton.
  assert (o ∈ owners → is_allowed (default DEFAULT_VISIBILITY (vis !! o)) false
            (bool_decide (o ∈ cs)) (exc !! o) = admits s rule o viewer) as Hd.
  { intros Hin. destruct (Hlk Hin) as [Hv He]. unfold admits.
    rewrite (proj2 (Z.eqb_neq o viewer) Hne).
    assert (o ∈ need ↔ exc !! o = None ∧ default DEFAULT_VISIBILITY (vis !! o) = CONTACTS) as Hn.
    { unfold need. rewrite elem_of_filter. set_solver. }
    rewrite <- He. revert Hn. rewrite Hv.
    destruct (exc !! o) as [b|]; [done|]. simpl.
    destruct (profiles s !! o) as [p|]; simpl; [|done].
    destruct (ChatUserProfile.visibility p rule); simpl; [done| |done].
    intros Hn. apply bool_decide_ext, Hcs. naive_solver. }
  destruct (decide (o ∈ owners)) as [Hin|]; [rewrite (Hd Hin)|];
    (destruct (bool_decide (viewer ∈ owners));
       [rewrite elem_of_singleton|rewrite elem_of_empty]); naive_solver.
Qed.

(** Who among [targets] refuses to be added by [requester]: those who block
    them, and those whose group-invite rule does not enroll them. *)
Definition refusing (s : store) (rule : PrivacyRule) (viewer : Z) (targets : gset Z) : gset Z :=
  filter (λ t, in_blocks s t viewer || negb (admits s rule t viewer) = true) targets.

(** the two-stage computation (blockers first, then the rule on the rest) *)
Lemma refusing_stages s rule viewer (targets blockers : gset Z) :
  blockers = filter (λ o, in_blocks s o viewer = true) targets →
  blockers ∪ ((targets ∖ blockers)
              ∖ filter (λ o, admits s rule o viewer = true) (targets ∖ blockers))
  = refusing s rule viewer targets.
Proof.
  intros ->. apply set_eq. intros t. unfold refusing.
  rewrite !elem_of_union, !elem_of_difference, !elem_of_filter, !elem_of_difference, !elem_of_filter.
  destruct (in_blocks s t viewer), (admits s rule t viewer); simpl; naive_solver.
Qed.

Lemma refusing_all_blocked s rule viewer (targets blockers : gset Z) :
  blockers = filter (λ o, in_blocks s o viewer = true) targets → targets ∖ blockers = ∅ →
  blockers = refusing s rule viewer targets.
Proof.
  intros Hb He. rewrite <- (refusing_stages s rule viewer targets blockers Hb), He. set_solver.
Qed.

Lemma ensure_can_add_run requester ids w :
  ensure_can_add requester ids w =
  (let bad := refusing (w_session w) GROUP_INVITES requester
                (list_to_set (filter (λ t, t ≠ requester) ids)) in
   if decide (bad = ∅) then Ok tt else Err (UserPrivacyRestrictedError (sorted_ids bad)), w).
Proof.
  unfold ensure_can_add. set (targets := list_to_set _). simpl.
  case_bool_decide as Ht.
  { rewrite decide_True; [done|]. unfold refusing. rewrite Ht. set_solver. }
  unfold blockers_of, mbind, M_bind, query. set (bl := filter _ targets).
  destruct (bool_decide (targets ∖ bl = ∅)) eqn:Hr.
  - apply bool_decide_eq_true in Hr. unfold mret, M_ret.
    rewrite <- (refusing_all_blocked _ GROUP_INVITES requester targets bl eq_refl Hr).
    unfold guard_not, lift, raise_if. by destruct (decide (bl = ∅)) as [->|Hn];
      [|rewrite bool_decide_false by done].
  - rewrite allowed_by_run. unfold mret, M_ret.
    rewrite (refusing_stages (w_session w) GROUP_INVITES requester targets bl eq_refl).
    unfold guard_not, lift, raise_if. by destruct (decide (refusing _ _ _ _ = ∅)) as [->|Hn];
      [|rewrite bool_decide_false by done].
Qed.

Lemma hidden_by_rule_run rule viewer ids w :
  _hidden_by_rule rule viewer ids w =
  (Ok (refusing (w_session w) rule viewer (list_to_set (filter (λ t, t ≠ viewer) ids))), w).
Proof.
  unfold _hidden_by_rule. set (targets := list_to_set _).
  case_bool_decide as Ht.
  { unfold refusing. by rewrite Ht. }
  unfold blockers_of, mbind, M_bind, query. set (bl := filter _ targets).
  destruct (bool_decide (targets ∖ bl = ∅)) eqn:Hr.
  - apply bool_decide_eq_true in Hr.
    by rewrite <- (refusing_all_blocked _ rule viewer targets bl eq_refl Hr).
  - rewrite allowed_by_run. unfold mret, M_ret.
    by rewrite (refusing_stages (w_session w) rule viewer targets bl eq_refl).
Qed.

Lemma ensure_can_start_direct_run user peer w :
  ensure_can_start_direct user peer w =
  (if blocked_between (w_session w) user peer then Err (UserBlockedError None peer)
   else if admits (w_session w) MESSAGES peer user then Ok tt
   else Err (MessagesPrivacyRestrictedError None peer), w).
Proof.
  unfold ensure_can_start_direct, is_blocked_between, mbind, M_bind, query.
  unfold guard_not, lift, raise_if. destruct (blocked_between _ _ _); [done|].
  rewrite allowed_by_run. case_bool_decide as Hin; rewrite elem_of_filter, elem_of_singleton in Hin;
    destruct (admits _ _ _ _); naive_solver.
Qed.

(** The other party of a direct chat, as the query picks it. *)
Definition peer_of (s : store) (chat_id : UUID) (user : Z) : option Z :=
  ChatMember.user_id <$>
    first_row (λ '(c, u) _, (c =? chat_id) && negb (u =? user)) (members s).

Lemma peer_allows_run st viewer w :
  _peer_allows st viewer w =
  (Ok (is_allowed (peer_visibility st) false
         (bool_decide ((peer_id st, viewer) ∈ contacts (w_session w))) (peer_exception st)), w).
Proof.
  destruct st as [q bl [] [b|]]; try done. unfold _peer_allows, contacts_of. simpl.
  unfold mbind, M_bind, query, mret, M_ret. do 3 f_equal. apply bool_decide_ext. split.
  - intros (o & Ho)%set_choose_L. rewrite elem_of_filter, elem_of_singleton in Ho. naive_solver.
  - intros Hin He. apply (not_elem_of_empty (C := gset Z) q). rewrite <- He.
    rewrite elem_of_filter, elem_of_singleton. done.
Qed.

Lemma ensure_direct_run rule restricted c user w :
  (∀ p, peer_of (w_session w) (Chat.id c) user = Some p → p ≠ user) →
  _ensure_direct rule restricted c user w =
  (if bool_decide (Chat.type c = DIRECT) then
     match peer_of (w_session w) (Chat.id c) user with
     | None => Ok tt
     | Some p =>
       if blocked_between (w_session w) p user then Err (UserBlockedError (Some (Chat.id c)) p)
       else if admits (w_session w) rule p user then Ok tt
       else Err (restricted (Some (Chat.id c)) p)
     end
   else Ok tt, w).
Proof.
  unfold _ensure_direct, peer_of. intros Hp. destruct (bool_decide (Chat.type c = DIRECT)); [|done].
  unfold direct_peer_state, mbind, M_bind, query. cbn. set (s := w_session w) in *.
  destruct (first_row _ (members s)) as [m|] eqn:Hm; [|done]. specialize (Hp _ eq_refl).
  cbn. unfold guard_not, lift, raise_if.
  destruct (blocked_between s _ _); [done|]. rewrite peer_allows_run. cbn. fold s.
  assert (is_allowed (match (λ p, ChatUserProfile.privacy p rule) <$>
                              profiles s !! ChatMember.user_id m with
                      | Some v => parse_visibility (Some v)
                      | None => DEFAULT_VISIBILITY
                      end) false (bool_decide ((ChatMember.user_id m, user) ∈ contacts s))
            (privacy_exceptions s !! (ChatMember.user_id m, rule_value rule, user))
          = admits s rule (ChatMember.user_id m) user) as Ha.
  { unfold admits. rewrite (proj2 (Z.eqb_neq _ _) Hp). by destruct (profiles s !! _). }
  cbn in Ha. rewrite Ha. by destruct (admits _ _ _ _).
Qed.

End ChatPrivacyService.
