(* ===== verification/InviteRepo.v ===== *)
(** [app/chats/repositories/invite.py] and [join_request.py], and [app/chats/services/join_requests.py]: filing a join request. *)
From S2P Require Import Prelude Config Events MemberModel InviteModel ChatModel Store Wp ChatRepo.

(** [session.add] or changed columns of a join request, at the flush *)
Definition join_request_row (r : ChatJoinRequest.t) : ChatJoinRequest.t :=
  r <| ChatJoinRequest.events := [] |>.

Definition put_join_request (r : ChatJoinRequest.t) (s : store) : store :=
  s <| join_requests ::=
    <[(ChatJoinRequest.chat_id r, ChatJoinRequest.user_id r) := join_request_row r]> |>.

Definition flush_join_request (r : ChatJoinRequest.t) : M unit := execute (put_join_request r).

Definition put_invite (i : ChatInviteLink.t) (s : store) : store :=
  s <| invites ::= <[ChatInviteLink.id i := i]> |>.

Definition flush_invite (i : ChatInviteLink.t) : M unit := execute (put_invite i).

Module ChatInviteLinkRepository.

(** [session.add]; [code] is unique *)
Definition create (i : ChatInviteLink.t) : M unit := execute_checked (λ s,
  _ ← raise_if (is_some (invites s !! ChatInviteLink.id i)) (IntegrityError "chat_invite_links_pkey");
  _ ← raise_if (is_some (first_row (λ _ i', bool_decide (ChatInviteLink.code i'
                                                       = ChatInviteLink.code i)) (invites s)))
        (IntegrityError "chat_invite_links_code_key");
  Ok (put_invite i s)).

Definition get_by_id (invite_id : UUID) : M (option ChatInviteLink.t) :=
  query (λ s, invites s !! invite_id).

Definition get_by_code (code : text) : M (option ChatInviteLink.t) := query (λ s,
  first_row (λ _ i, bool_decide (ChatInviteLink.code i = code)) (invites s)).

Definition not_revoked (chat_id : UUID) (i : ChatInviteLink.t) : bool :=
  (ChatInviteLink.chat_id i =? chat_id) && negb (ChatInviteLink.is_revoked i).

Definition count_not_revoked (chat_id : UUID) : M Z := query (λ s,
  count_where (λ kv, not_revoked chat_id kv.2 = true) (invites s)).

(** [counts]: how often each link occurs; one [UPDATE ... FROM (VALUES ...)] *)
Definition count_occ (l : list UUID) (x : UUID) : Z := len (filter (λ y, y = x) l).

Definition credit (links : list UUID) (i : ChatInviteLink.t) : ChatInviteLink.t :=
  if bool_decide (ChatInviteLink.id i ∈ links)
  then i <| ChatInviteLink.usage_count ::= (λ n, n + count_occ links (ChatInviteLink.id i)) |>
  else i.

Definition credit_usage (links : list UUID) : M unit := execute (λ s,
  s <| invites ::= fmap (credit links) |>).

(** the [WHERE] of [consume] *)
Definition consumable (now : datetime) (i : ChatInviteLink.t) : bool :=
  negb (ChatInviteLink.is_revoked i)
  && match ChatInviteLink.expires_at i with None => true | Some e => now <? e end
  && match ChatInviteLink.usage_limit i with
     | None => true
     | Some l => ChatInviteLink.usage_count i <? l
     end.

Definition consume (invite_id : UUID) : M (option Z) :=
  now ← now_utc;
  execute_returning (λ s,
    match invites s !! invite_id with
    | Some i =>
      if consumable now i then
        let n := ChatInviteLink.usage_count i + 1 in
        (Some n, s <| invites ::= <[invite_id := i <| ChatInviteLink.usage_count := n |>]> |>)
      else (None, s)
    | None => (None, s)
    end).

(** a link is consumable exactly when it is active *)
Lemma consumable_active now i : consumable now i = ChatInviteLink.is_active now i.
Proof.
  unfold consumable, ChatInviteLink.is_active, ChatInviteLink.inactive_reason,
    ChatInviteLink.is_revoked, ChatInviteLink.is_expired, ChatInviteLink.is_exhausted.
  destruct (ChatInviteLink.revoked_at i); [done|]. simpl.
  assert (∀ a b, (a <? b) = negb (b <=? a)) as Hneg by (intros; lia).
  destruct (ChatInviteLink.expires_at i) as [e|], (ChatInviteLink.usage_limit i) as [l|];
    simpl; rewrite ?Hneg; repeat case_match; simpl in *; done.
Qed.

End ChatInviteLinkRepository.

Module ChatJoinRequestRepository.

Definition get (chat_id : UUID) (user_id : Z) : M (option ChatJoinRequest.t) :=
  query (λ s, join_requests s !! (chat_id, user_id)).

Definition delete (r : ChatJoinRequest.t) : M unit := execute (λ s,
  s <| join_requests ::=
    base.delete (ChatJoinRequest.chat_id r, ChatJoinRequest.user_id r) |>).

Definition pending_in (chat_id : UUID) (r : ChatJoinRequest.t) : bool :=
  (ChatJoinRequest.chat_id r =? chat_id) && ChatJoinRequest.is_pending r.

(** ordered by [user_id] *)
Definition list_pending_for (chat_id : UUID) (user_ids : list Z) : M (list ChatJoinRequest.t) :=
  query (λ s, omap (λ u,
    r ← join_requests s !! (chat_id, u);
    if ChatJoinRequest.is_pending r then Some r else None)
    (merge_sort Z.le (fromkeys user_ids))).

Definition declined_in (chat_id : UUID) (resolved_by : Z) (now : datetime)
  (r : ChatJoinRequest.t) : ChatJoinRequest.t :=
  if pending_in chat_id r then ChatJoinRequest._resolve now r JR_DECLINED resolved_by else r.

Definition decline_all (chat_id : UUID) (resolved_by : Z) : M Z :=
  now ← now_utc;
  execute_returning (λ s,
    (count_where (λ kv, pending_in chat_id kv.2 = true) (join_requests s),
     s <| join_requests ::= fmap (declined_in chat_id resolved_by now) |>)).

Definition pending_count (chat_id : UUID) (s : store) : Z :=
  count_where (λ kv, pending_in chat_id kv.2 = true) (join_requests s).

Definition count_pending (chat_id : UUID) : M Z := query (pending_count chat_id).

End ChatJoinRequestRepository.

Module ChatJoinRequestService.

(** The request it returns carries its event; the caller publishes it, and the
    flush before its commit stores the row. *)
Definition submit (c : Chat.t) (user_id : Z) (invite_link_id : option UUID)
  : M ChatJoinRequest.t :=
  member ← ChatRepository.get_member_chat (Chat.id c) user_id;
  n1 ← now_utc;
  _ ← match member with
      | Some m =>
        if ChatMember.is_banned n1 m then raise (AccessDeniedChatError (Chat.id c) user_id)
        else raise (AlreadyMemberError user_id (Chat.id c))
      | None => mret tt
      end;
  pending ← ChatJoinRequestRepository.count_pending (Chat.id c);
  _ ← guard_not (chat_config.MAX_PENDING_JOIN_REQUESTS <=? pending)
        (JoinRequestsLimitExceededError (Chat.id c));
  existing ← ChatJoinRequestRepository.get (Chat.id c) user_id;
  match existing with
  | Some r =>
    n2 ← now_utc; n3 ← now_utc; n4 ← now_utc;
    lift (ChatJoinRequest.renew n2 n3 n4 r invite_link_id)
  | None =>
    n2 ← now_utc;
    mret (ChatJoinRequest.create n2 (Chat.id c) user_id invite_link_id)
  end.

End ChatJoinRequestService.

(** [publish(request.pull_events())] *)
Definition publish_request (r : ChatJoinRequest.t) : M unit :=
  publish (ChatJoinRequest.pull_events r).1.
