(* ===== verification/MessageRepo.v ===== *)
(** [app/chats/repositories/message.py], [attachment.py] and [pinned_message.py], and slow mode ([app/chats/services/messages.py], [MessageService.is_slow] and its Redis script). A message row is stored without its attachments, which have a table of their own; loading the relationship collects them, ordered by id. Redis is not part of the transaction: a key set here stays when the handler raises afterwards. *)
From S2P Require Import Prelude Config Events MemberModel MessageModel ChatModel Store Wp Rbac Access.

Definition message_row (m : Message.t) : Message.t :=
  m <| Message.attachments := [] |> <| Message.events := [] |>.

(** the [attachments] relationship of a loaded message *)
Definition attachments_of (s : store) (message_id : UUID) : list MessageAttachment.t :=
  merge_sort attachment_id_le
    (snd <$> filter (λ kv, MessageAttachment.message_id kv.2 = Some message_id)
       (map_to_list (attachments s))).

Definition with_attachments (s : store) (m : Message.t) : Message.t :=
  m <| Message.attachments := attachments_of s (Message.id m) |>.

Definition put_attachment (message_id : UUID) (s : store) (a : MessageAttachment.t) : store :=
  s <| attachments ::=
    <[MessageAttachment.id a := a <| MessageAttachment.message_id := Some message_id |>]> |>.

(** The flush of an added message: its row, and each attachment with the
    foreign key set. A claimed attachment keeps its row, which moves here from
    whatever message it belonged to. *)
Definition insert_message (m : Message.t) (s : store) : result error store :=
  match messages s !! Message.id m with
  | Some _ => Err (IntegrityError "messages_pkey")
  | None =>
    Ok (foldl (put_attachment (Message.id m))
          (s <| messages ::= <[Message.id m := message_row m]> |>) (Message.attachments m))
  end.

Fixpoint insert_messages (l : list Message.t) (s : store) : result error store :=
  match l with
  | [] => Ok s
  | m :: l' => s' ← insert_message m s; insert_messages l' s'
  end.

(** flush of changed columns of a loaded message *)
Definition flush_message (m : Message.t) : M unit :=
  execute (λ s, s <| messages ::= <[Message.id m := message_row m]> |>).

Definition publish_message (m : Message.t) : M unit := publish (Message.pull_events m).1.

Module MessageRepository.

Definition live_message (s : store) (message_id : UUID) : option Message.t :=
  m ← messages s !! message_id;
  if Message.is_deleted m then None else Some m.

Definition get_by_id (message_id : UUID) (with_attachment : bool) : M (option Message.t) :=
  query (λ s, (λ m, if with_attachment then with_attachments s m else m) <$>
                live_message s message_id).

Definition message_seq_le (a b : Message.t) : Prop := Message.seq a ≤ Message.seq b.
#[global] Instance message_seq_le_dec : RelDecision message_seq_le.
Proof. intros a b. unfold message_seq_le. apply _. Defined.

(** the live ones among [message_ids], by ascending [seq] *)
Definition get_many_in_chat (chat_id : UUID) (message_ids : list UUID) : M (list Message.t) :=
  query (λ s, merge_sort message_seq_le (omap (λ i,
    m ← live_message s i;
    if Message.chat_id m =? chat_id then Some (with_attachments s m) else None)
    (fromkeys message_ids))).

Definition create (m : Message.t) : M unit := execute_checked (insert_message m).
Definition create_many (l : list Message.t) : M unit := execute_checked (insert_messages l).

End MessageRepository.

Module AttachmentRepository.

Definition get_by_id (attachment_id : UUID) : M (option MessageAttachment.t) :=
  query (λ s, attachments s !! attachment_id).

(** ordered by [created_at], which ids of version 7 follow *)
Definition get_by_ids (attachment_ids : list UUID) : M (list MessageAttachment.t) :=
  query (λ s, merge_sort attachment_id_le
    (omap (λ i, attachments s !! i) (fromkeys attachment_ids))).

End AttachmentRepository.

Module ChatPinnedMessageRepository.

Definition get (chat_id message_id : UUID) : M (option ChatPinnedMessage.t) :=
  query (λ s, pins s !! (chat_id, message_id)).

(** pins of the chat whose message is not deleted *)
Definition live_pins (s : store) (chat_id : UUID) : Z :=
  count_where (λ kv, ((kv.1.1 =? chat_id)
                      && is_some (MessageRepository.live_message s kv.1.2)) = true) (pins s).

Definition count (chat_id : UUID) : M Z := query (λ s, live_pins s chat_id).

Definition create (p : ChatPinnedMessage.t) : M unit := execute_checked (λ s,
  let key := (ChatPinnedMessage.chat_id p, ChatPinnedMessage.message_id p) in
  _ ← raise_if (is_some (pins s !! key)) (IntegrityError "chat_pinned_messages_pkey");
  Ok (s <| pins ::= <[key := p]> |>)).

(** the ids that had a row, in the order asked for *)
Definition delete_many (chat_id : UUID) (message_ids : list UUID) : M (list UUID) :=
  execute_returning (λ s,
    (filter (λ i, is_some (pins s !! (chat_id, i)) = true) (fromkeys message_ids),
     s <| pins ::= filter (λ kv, ¬ (kv.1.1 = chat_id ∧ kv.1.2 ∈ message_ids)) |>)).

Definition delete_all (chat_id : UUID) : M (list UUID) := execute_returning (λ s,
  ((λ kv, kv.1.2) <$> filter (λ kv, kv.1.1 = chat_id) (map_to_list (pins s)),
   s <| pins ::= filter (λ kv, kv.1.1 ≠ chat_id) |>)).

End ChatPinnedMessageRepository.

(** [SET key '1' EX ttl NX], else [TTL key] *)
Definition SCRIPT_SLOW_MODE (key : UUID * Z) (ttl : Z) : M (bool * Z) := λ w,
  let now := w_clock w (w_ticks w) in
  let w := w <| w_ticks ::= S |> in
  let held := match w_slow_mode w !! key with Some e => now <? e | None => false end in
  if held
  then (Ok (false, w_ttl w (default now (w_slow_mode w !! key) - now)), w)
  else (Ok (true, ttl), w <| w_slow_mode ::= <[key := now + seconds ttl]> |>).

Module MessageService.

Definition is_slow (c : Chat.t) (user_id : Z) (member : option ChatMember.t) : M unit :=
  n ← now_utc;
  if (Chat.slow_mode_seconds c <=? 0) || ChatAccessService.can_bypass_slow_mode n member
  then mret tt
  else
    '(allowed, ttl) ← SCRIPT_SLOW_MODE (Chat.id c, user_id) (Chat.slow_mode_seconds c);
    guard_not (negb allowed) (SlowModeLimitError (Chat.id c) (Z.max 1 ttl)).

End MessageService.

(** [is_slow] touches nothing of the store. *)
Lemma wp_is_slow c u m w (Q : result error unit → world → Prop) :
  (∀ r t sm, Q r (w <| w_ticks := t |> <| w_slow_mode := sm |>)) →
  wp (MessageService.is_slow c u m) w Q.
Proof.
  intros HQ. assert (∀ r t, Q r (at_tick t w)) as HQ'.
  { intros r t. specialize (HQ r t (w_slow_mode w)). by destruct w. }
  apply wp_bind, wp_now. intros n t _. destruct (_ || _); [by apply wp_ret|].
  apply wp_bind. unfold wp, SCRIPT_SLOW_MODE. cbv zeta. destruct (match _ with Some _ => _ | None => _ end).
  - apply (HQ' _ (S t)).
  - destruct w. apply HQ.
Qed.
