(* ===== verification/ChatCommands.v ===== *)
(** Handlers of the chat's own life: create, join, update, set_username,
    update_state, delete ([app/chats/commands/chats]). A DTO built from a chat
    or a request is the object it is validated from. *)
From S2P Require Import Prelude Config Events MemberModel InviteModel ChatModel PrivacyModel Store Wp Rbac Access ChatRepo PrivacyService InviteRepo.

Module CreateChat.
Record command : Type := Mk {
  name : option text;
  description : option text;
  chat_type : ChatType;
  member_ids : list Z;
  is_public : bool;
  user_jwt_data : UserJWTData;
  admin_only : bool;
  slow_mode_seconds : Z;
  permissions : gmap string bool;
  join_by_request : bool;
}.
(** [Chat.create] edits the command's list in place: the handler goes on with
    the edited list. A [LiveKitServiceError] of the room call is suppressed. *)
Definition handle (cmd : command) : M Chat.t :=
  let created_by := jwt_id (user_jwt_data cmd) in
  uuid ← uuid7;
  '(chat, member_ids) ← lift (Chat.create uuid created_by (member_ids cmd) (chat_type cmd)
     (name cmd) (description cmd) (is_public cmd) (admin_only cmd) (slow_mode_seconds cmd)
     (permissions cmd) (join_by_request cmd));
  let finish :=
    (_ ← publish_chat chat;
     _ ← ChatRepository.create chat;
     _ ← commit;
     _ ← call_external (LiveKitCreateRoom (Chat.id chat));
     mret chat) in
  if bool_decide (Chat.type chat = DIRECT) then
    match filter (λ u, u ≠ created_by) member_ids with
    | other_user_id :: _ =>
      direct_chat ← ChatRepository.get_direct_chat created_by other_user_id;
      match direct_chat with
      | Some d => mret d
      | None =>
        _ ← ChatPrivacyService.ensure_can_start_direct created_by other_user_id;
        finish
      end
    | [] => finish
    end
  else
    _ ← ChatPrivacyService.ensure_can_add created_by member_ids;
    finish.
End CreateChat.

Inductive JoinResult : Type :=
| Joined (chat : Chat.t)
| Requested (request : ChatJoinRequest.t).

Module JoinChat.
Record command : Type := Mk {
  user_jwt_data : UserJWTData;
  chat_id : UUID;
}.
Definition handle (cmd : command) : M JoinResult :=
  let user_id := jwt_id (user_jwt_data cmd) in
  chat ← live_chat (chat_id cmd);
  _ ← guard_not (bool_decide (Chat.type chat = DIRECT) || negb (Chat.is_public chat))
        (AccessDeniedChatError (chat_id cmd) user_id);
  if Chat.join_by_request chat then
    request ← ChatJoinRequestService.submit chat user_id None;
    _ ← publish_request request;
    _ ← flush_join_request request;
    _ ← commit;
    mret (Requested request)
  else
    existing ← ChatRepository.get_member_chat (chat_id cmd) user_id;
    _ ← guard_not (is_some existing) (AlreadyMemberError user_id (chat_id cmd));
    chat ← take_places chat 1;
    let chat := Chat.add_member chat user_id (Chat.default_member_role (Chat.type chat)) in
    _ ← publish_chat chat;
    _ ← flush_members chat;
    _ ← commit;
    mret (Joined chat).
End JoinChat.

Module UpdateChat.
Record command : Type := Mk {
  chat_id : UUID;
  name : option text;
  description : option text;
  is_public : option bool;
  user_jwt_data : UserJWTData;
  admin_only : option bool;
  slow_mode_seconds : option Z;
  permissions : option (gmap string bool);
  reactions_mode : option ChatReactionsMode;
  allowed_reactions : option (list text);
  join_by_request : option bool;
}.
Section handler.
Context `{R : RBACManager}.
Definition handle (cmd : command) : M Chat.t :=
  chat ← live_chat (chat_id cmd);
  let user_id := jwt_id (user_jwt_data cmd) in
  member ← ChatRepository.get_member_chat (chat_id cmd) user_id;
  n1 ← now_utc; n2 ← now_utc;
  _ ← guard_not (negb (ChatAccessService.has_permissions n1 n2 (user_jwt_data cmd) member
                         ["chat:update"%string]))
        (AccessDeniedChatError (chat_id cmd) user_id);
  chat ← lift (Chat.update chat user_id (name cmd) (description cmd) (is_public cmd)
                 (admin_only cmd) (slow_mode_seconds cmd) (permissions cmd) (reactions_mode cmd)
                 (allowed_reactions cmd) (join_by_request cmd));
  _ ← publish_chat chat;
  _ ← flush_chat chat;
  _ ← commit;
  mret chat.
End handler.
End UpdateChat.

Module SetChatUsername.
Record command : Type := Mk {
  user_jwt_data : UserJWTData;
  chat_id : UUID;
  username : option text;
}.
(** [if "username" in str(exc.orig)]: the violated index carries the word *)
Definition is_username_index (constraint : string) : bool :=
  String.eqb constraint "uq_chats_username_lower".
Section handler.
Context `{R : RBACManager}.
Definition handle (cmd : command) : M Chat.t :=
  let user_id := jwt_id (user_jwt_data cmd) in
  chat ← live_chat (chat_id cmd);
  member ← ChatRepository.get_member_chat (chat_id cmd) user_id;
  n1 ← now_utc; n2 ← now_utc;
  _ ← guard_not (negb (ChatAccessService.has_permissions n1 n2 (user_jwt_data cmd) member
                         ["chat:update"%string]))
        (AccessDeniedChatError (chat_id cmd) user_id);
  username ← match username cmd with
             | Some u => v ← lift (Chat.validate_username u); mret (Some v)
             | None => mret None
             end;
  if bool_decide (username = Chat.username chat) then mret chat
  else
    _ ← match username with
        | Some u =>
          occupied ← ChatRepository.get_by_username u;
          match occupied with
          | Some o => guard_not (negb (Chat.id o =? Chat.id chat)) (ChatUsernameTakenError u)
          | None => mret tt
          end
        | None => mret tt
        end;
    chat ← lift (Chat.set_username chat user_id username);
    _ ← publish_chat chat;
    _ ← try_integrity (_ ← flush_chat chat; commit)
          (λ constraint,
             _ ← rollback;
             if is_username_index constraint
             then raise (ChatUsernameTakenError (default [] username))
             else raise (IntegrityError constraint));
    mret chat.
End handler.
End SetChatUsername.

(** The keys of [provided] the handler tests *)
Inductive state_field : Type := F_PINNED | F_ARCHIVED | F_NOTIFICATIONS | F_DRAFT.
#[export] Instance state_field_eq_dec : EqDecision state_field.
Proof. solve_decision. Defined.

Module UpdateChatState.
Record command : Type := Mk {
  chat_id : UUID;
  user_jwt_data : UserJWTData;
  provided : list state_field;
  pinned : option bool;
  archived : option bool;
  notifications_muted_until : option datetime;
  draft : option text;
}.
(** [bool(x)] of an optional boolean *)
Definition truthy (o : option bool) : bool := default false o.
(** [if cond: member = f(member)] *)
Definition when_provided (cmd : command) (f : state_field) (m m' : ChatMember.t) : ChatMember.t :=
  if bool_decide (f ∈ provided cmd) then m' else m.
Definition handle (cmd : command) : M ChatMember.t :=
  let user_id := jwt_id (user_jwt_data cmd) in
  member ← ChatRepository.get_member_chat (chat_id cmd) user_id;
  member ← or_raise member (NotFoundChatError (chat_id cmd));
  _ ← (if bool_decide (F_PINNED ∈ provided cmd) && truthy (pinned cmd)
          && negb (ChatMember.is_pinned member)
       then
         pinned_count ← ChatRepository.count_pinned_chats user_id;
         guard_not (chat_config.MAX_PINNED_CHATS <=? pinned_count)
           (PinnedChatsLimitExceededError chat_config.MAX_PINNED_CHATS)
       else mret tt);
  n1 ← now_utc; n2 ← now_utc; n3 ← now_utc; n4 ← now_utc;
  let member := when_provided cmd F_PINNED member
                  (ChatMember.set_pinned n1 member (truthy (pinned cmd))) in
  let member := when_provided cmd F_ARCHIVED member
                  (ChatMember.set_archived n2 member (truthy (archived cmd))) in
  let member := when_provided cmd F_NOTIFICATIONS member
                  (ChatMember.mute_notifications n3 member (notifications_muted_until cmd)) in
  let member := when_provided cmd F_DRAFT member
                  (ChatMember.set_draft n4 member (draft cmd)) in
  _ ← flush_member member;
  _ ← commit;
  mret member.
End UpdateChatState.

Module DeleteChat.
Record command : Type := Mk {
  user_jwt_data : UserJWTData;
  chat_id : UUID;
}.
Section handler.
Context `{R : RBACManager}.
Definition handle (cmd : command) : M unit :=
  let requester_id := jwt_id (user_jwt_data cmd) in
  '(chat, member) ← ChatRepository.get_chat_and_member (chat_id cmd) requester_id;
  n1 ← now_utc; n2 ← now_utc;
  _ ← guard_not (negb (ChatAccessService.has_permissions n1 n2 (user_jwt_data cmd) (Some member)
                         ["chat:delete"%string]))
        (AccessDeniedChatError (chat_id cmd) requester_id);
  n3 ← now_utc;
  let chat := Chat.delete n3 chat requester_id in
  _ ← publish_chat chat;
  _ ← flush_chat chat;
  commit.
End handler.
End DeleteChat.
