(* ===== verification/InviteCommands.v ===== *)
(** Handlers of [app/chats/commands/invites] and
    [app/chats/commands/join_requests]. *)
From S2P Require Import Prelude Config Events MemberModel InviteModel ChatModel PrivacyModel Store Wp Rbac Access ChatRepo PrivacyService InviteRepo ChatCommands.

Module CreateInviteLink.
Record command : Type := Mk {
  user_jwt_data : UserJWTData;
  chat_id : UUID;
  name : option text;
  expires_at : option datetime;
  usage_limit : option Z;
  creates_join_request : bool;
}.
Section handler.
Context `{R : RBACManager}.
Definition handle (cmd : command) : M ChatInviteLink.t :=
  let user_id := jwt_id (user_jwt_data cmd) in
  chat ← live_chat (chat_id cmd);
  member ← ChatRepository.get_member_chat (chat_id cmd) user_id;
  n1 ← now_utc; n2 ← now_utc;
  _ ← guard_not (negb (ChatAccessService.has_permissions n1 n2 (user_jwt_data cmd) member
                         ["member:invite"%string]))
        (AccessDeniedChatError (chat_id cmd) user_id);
  _ ← guard_not (bool_decide (Chat.type chat = DIRECT)) (InvalidInviteLinkError "direct_chat");
  links ← ChatInviteLinkRepository.count_not_revoked (Chat.id chat);
  _ ← guard_not (chat_config.MAX_INVITE_LINKS_PER_CHAT <=? links)
        (InviteLinksLimitExceededError chat_config.MAX_INVITE_LINKS_PER_CHAT);
  n3 ← now_utc; uuid ← uuid7; token ← token_urlsafe;
  invite ← lift (ChatInviteLink.create n3 uuid token (Chat.id chat) user_id (name cmd)
                   (expires_at cmd) (usage_limit cmd) (creates_join_request cmd));
  _ ← ChatInviteLinkRepository.create invite;
  _ ← commit;
  mret invite.
End handler.
End CreateInviteLink.

Module RevokeInviteLink.
Record command : Type := Mk {
  user_jwt_data : UserJWTData;
  chat_id : UUID;
  invite_id : UUID;
}.
Section handler.
Context `{R : RBACManager}.
Definition handle (cmd : command) : M ChatInviteLink.t :=
  let user_id := jwt_id (user_jwt_data cmd) in
  member ← ChatRepository.get_member_chat (chat_id cmd) user_id;
  n1 ← now_utc; n2 ← now_utc;
  _ ← guard_not (negb (ChatAccessService.has_permissions n1 n2 (user_jwt_data cmd) member
                         ["member:invite"%string]))
        (AccessDeniedChatError (chat_id cmd) user_id);
  invite ← ChatInviteLinkRepository.get_by_id (invite_id cmd);
  invite ← or_raise invite (NotFoundInviteLinkIdError (invite_id cmd));
  _ ← guard_not (negb (ChatInviteLink.chat_id invite =? chat_id cmd))
        (NotFoundInviteLinkIdError (invite_id cmd));
  if ChatInviteLink.is_revoked invite then mret invite
  else
    n3 ← now_utc;
    let invite := ChatInviteLink.revoke n3 invite in
    _ ← flush_invite invite;
    _ ← commit;
    mret invite.
End handler.
End RevokeInviteLink.

Module JoinChatByInvite.
Record command : Type := Mk {
  user_jwt_data : UserJWTData;
  code : text;
}.
(** [session.refresh(invite)] reads the row again *)
Definition refresh_invite (i : ChatInviteLink.t) : M ChatInviteLink.t :=
  query (λ s, default i (invites s !! ChatInviteLink.id i)).

Definition handle (cmd : command) : M JoinResult :=
  let user_id := jwt_id (user_jwt_data cmd) in
  invite ← ChatInviteLinkRepository.get_by_code (code cmd);
  invite ← or_raise invite (NotFoundInviteLinkError (code cmd));
  n1 ← now_utc;
  _ ← match ChatInviteLink.inactive_reason n1 invite with
      | Some reason => raise (InviteLinkExpiredError reason)
      | None => mret tt
      end;
  chat ← ChatRepository.get_by_id (ChatInviteLink.chat_id invite);
  chat ← or_raise chat (NotFoundInviteLinkError (code cmd));
  _ ← guard_not (bool_decide (Chat.type chat = DIRECT)) (NotFoundInviteLinkError (code cmd));
  if ChatInviteLink.creates_join_request invite then
    request ← ChatJoinRequestService.submit chat user_id (Some (ChatInviteLink.id invite));
    _ ← publish_request request;
    _ ← flush_join_request request;
    _ ← commit;
    mret (Requested request)
  else
    existing ← ChatRepository.get_member_chat (Chat.id chat) user_id;
    n2 ← now_utc;
    _ ← match existing with
        | Some m =>
          if ChatMember.is_banned n2 m then raise (AccessDeniedChatError (Chat.id chat) user_id)
          else raise (AlreadyMemberError user_id (Chat.id chat))
        | None => mret tt
        end;
    consumed ← ChatInviteLinkRepository.consume (ChatInviteLink.id invite);
    match consumed with
    | None =>
      invite ← refresh_invite invite;
      n3 ← now_utc;
      raise (InviteLinkExpiredError
               (default USAGE_LIMIT_REACHED (ChatInviteLink.inactive_reason n3 invite)))
    | Some _ =>
      chat ← take_places chat 1;
      let chat := Chat.add_member chat user_id (Chat.default_member_role (Chat.type chat)) in
      _ ← publish_chat chat;
      _ ← flush_members chat;
      _ ← commit;
      mret (Joined chat)
    end.
End JoinChatByInvite.

(** [JoinRequestsResolutionDTO] *)
Record Resolution : Type := MkResolution { resolved : list Z; skipped : list Z }.

Module ApproveJoinRequests.
Record command : Type := Mk {
  user_jwt_data : UserJWTData;
  chat_id : UUID;
  user_ids : list Z;
}.

(** The loop over the pending requests: those approved, and those among them
    to add as members. *)
Fixpoint resolve_pending (requester_id : Z) (members : gmap Z ChatMember.t)
  (pending : list ChatJoinRequest.t) : M (list ChatJoinRequest.t * list ChatJoinRequest.t) :=
  match pending with
  | [] => mret ([], [])
  | request :: rest =>
    n1 ← now_utc;
    let member := members !! ChatJoinRequest.user_id request in
    if match member with Some m => ChatMember.is_banned n1 m | None => false end
    then resolve_pending requester_id members rest
    else
      n2 ← now_utc;
      let request := ChatJoinRequest.approve n2 request requester_id in
      '(approved, to_add) ← resolve_pending requester_id members rest;
      mret (request :: approved, if is_none member then request :: to_add else to_add)
  end.

(** the links of the requests to add, for [Counter] *)
Definition credited (to_add : list ChatJoinRequest.t) : list UUID :=
  omap ChatJoinRequest.invite_link_id to_add.

Section handler.
Context `{R : RBACManager}.
Definition handle (cmd : command) : M Resolution :=
  let requester_id := jwt_id (user_jwt_data cmd) in
  let wanted := fromkeys (user_ids cmd) in
  '(chat, requester) ← ChatRepository.get_chat_and_member (chat_id cmd) requester_id;
  n1 ← now_utc; n2 ← now_utc;
  _ ← guard_not (negb (ChatAccessService.has_permissions n1 n2 (user_jwt_data cmd)
                         (Some requester) ["member:invite"%string]))
        (AccessDeniedChatError (Chat.id chat) requester_id);
  pending ← ChatJoinRequestRepository.list_pending_for (Chat.id chat) wanted;
  members ← ChatRepository.members_by_user_ids (Chat.id chat)
              (ChatJoinRequest.user_id <$> pending);
  '(approved, to_add) ← resolve_pending requester_id members pending;
  let approved_ids := ChatJoinRequest.user_id <$> approved in
  let role_id := Chat.default_member_role (Chat.type chat) in
  chat ← match to_add with
         | [] => mret chat
         | _ =>
           chat ← take_places chat (len to_add);
           let chat := Chat.add_members chat (ChatJoinRequest.user_id <$> to_add) role_id in
           _ ← ChatInviteLinkRepository.credit_usage (credited to_add);
           mret chat
         end;
  let chat := Chat.approve_join_requests chat approved_ids requester_id (role_int role_id) in
  _ ← publish_chat chat;
  _ ← flush_members chat;
  _ ← for_each approved flush_join_request;
  _ ← commit;
  mret (MkResolution approved_ids
          (merge_sort Z.le (filter (λ u, u ∉ approved_ids) wanted))).
End handler.
End ApproveJoinRequests.

Module DeclineJoinRequests.
Record command : Type := Mk {
  user_jwt_data : UserJWTData;
  chat_id : UUID;
  user_ids : list Z;
}.
(** [for request in pending: request.decline(resolved_by=requester_id)] *)
Fixpoint decline_each (requester_id : Z) (pending : list ChatJoinRequest.t)
  : M (list ChatJoinRequest.t) :=
  match pending with
  | [] => mret []
  | request :: rest =>
    n ← now_utc;
    rest ← decline_each requester_id rest;
    mret (ChatJoinRequest.decline n request requester_id :: rest)
  end.
Section handler.
Context `{R : RBACManager}.
Definition handle (cmd : command) : M Resolution :=
  let requester_id := jwt_id (user_jwt_data cmd) in
  let wanted := fromkeys (user_ids cmd) in
  '(chat, requester) ← ChatRepository.get_chat_and_member (chat_id cmd) requester_id;
  n1 ← now_utc; n2 ← now_utc;
  _ ← guard_not (negb (ChatAccessService.has_permissions n1 n2 (user_jwt_data cmd)
                         (Some requester) ["member:invite"%string]))
        (AccessDeniedChatError (Chat.id chat) requester_id);
  pending ← ChatJoinRequestRepository.list_pending_for (Chat.id chat) wanted;
  pending ← decline_each requester_id pending;
  let declined := ChatJoinRequest.user_id <$> pending in
  let chat := Chat.decline_join_requests chat declined requester_id None false in
  _ ← publish_chat chat;
  _ ← for_each pending flush_join_request;
  _ ← commit;
  mret (MkResolution declined (merge_sort Z.le (filter (λ u, u ∉ declined) wanted))).
End handler.
End DeclineJoinRequests.

Module DeclineAllJoinRequests.
Record command : Type := Mk {
  user_jwt_data : UserJWTData;
  chat_id : UUID;
}.
Section handler.
Context `{R : RBACManager}.
Definition handle (cmd : command) : M Z :=
  let requester_id := jwt_id (user_jwt_data cmd) in
  '(chat, requester) ← ChatRepository.get_chat_and_member (chat_id cmd) requester_id;
  n1 ← now_utc; n2 ← now_utc;
  _ ← guard_not (negb (ChatAccessService.has_permissions n1 n2 (user_jwt_data cmd)
                         (Some requester) ["member:invite"%string]))
        (AccessDeniedChatError (Chat.id chat) requester_id);
  declined ← ChatJoinRequestRepository.decline_all (Chat.id chat) requester_id;
  _ ← (if declined =? 0 then mret tt
       else publish_chat (Chat.decline_join_requests chat [] requester_id (Some declined) true));
  _ ← commit;
  mret declined.
End handler.
End DeclineAllJoinRequests.

Module CancelJoinRequest.
Record command : Type := Mk {
  user_jwt_data : UserJWTData;
  chat_id : UUID;
}.
Definition handle (cmd : command) : M unit :=
  let user_id := jwt_id (user_jwt_data cmd) in
  request ← ChatJoinRequestRepository.get (chat_id cmd) user_id;
  request ← or_raise request (NotFoundJoinRequestError (chat_id cmd) user_id);
  _ ← guard_not (negb (ChatJoinRequest.is_pending request))
        (NotFoundJoinRequestError (chat_id cmd) user_id);
  let request := ChatJoinRequest.cancel request in
  _ ← ChatJoinRequestRepository.delete request;
  _ ← publish_request request;
  commit.
End CancelJoinRequest.
