(* ===== verification/MembershipCommands.v ===== *)
(** Handlers that change who belongs to a chat and with what standing
    ([app/chats/commands/chats]: add_member, kick,
    leave, ban_member, unban_member, mute_member, unmute_member, change_role,
    transfer_ownership). *)
From S2P Require Import Prelude Config Events MemberModel ChatModel PrivacyModel Store Wp Rbac Access ChatRepo PrivacyService.

Module AddMember.
Record command : Type := Mk {
  user_jwt_data : UserJWTData;
  chat_id : UUID;
  target_user_id : Z;
  role_id : Z;
}.
Section handler.
Context `{R : RBACManager}.
Definition handle (cmd : command) : M unit :=
  let requester_id := jwt_id (user_jwt_data cmd) in
  '(chat, requester) ← ChatRepository.get_chat_and_member (chat_id cmd) requester_id;
  n1 ← now_utc; n2 ← now_utc;
  _ ← guard_not (negb (ChatAccessService.has_permissions n1 n2 (user_jwt_data cmd)
                         (Some requester) ["member:invite"%string]))
        (AccessDeniedChatError (Chat.id chat) requester_id);
  n3 ← now_utc;
  role ← lift (ChatAccessService.ensure_can_assign_role n3 (user_jwt_data cmd)
                 (Some requester) (chat_id cmd) (role_id cmd));
  existing ← ChatRepository.get_member_chat (chat_id cmd) (target_user_id cmd);
  _ ← guard_not (is_some existing) (AlreadyMemberError (target_user_id cmd) (chat_id cmd));
  _ ← ChatPrivacyService.ensure_can_add requester_id [target_user_id cmd];
  chat ← take_places chat 1;
  let chat := Chat.add_member chat (target_user_id cmd) role in
  _ ← publish_chat chat;
  _ ← flush_members chat;
  commit.
End handler.
End AddMember.

Module KickMember.
Record command : Type := Mk {
  user_jwt_data : UserJWTData;
  chat_id : UUID;
  target_user_id : Z;
}.
Section handler.
Context `{R : RBACManager}.
Definition handle (cmd : command) : M unit :=
  chat ← live_chat (chat_id cmd);
  let requester_id := jwt_id (user_jwt_data cmd) in
  requester ← ChatRepository.get_member_chat (chat_id cmd) requester_id;
  target ← ChatRepository.get_member_chat (chat_id cmd) (target_user_id cmd);
  target ← or_raise target (NotChatMemberError (chat_id cmd) (target_user_id cmd));
  n ← now_utc;
  _ ← guard_not (negb (ChatAccessService.update_member n (user_jwt_data cmd) requester target
                         ["member:kick"%string]))
        (AccessDeniedChatError (Chat.id chat) requester_id);
  chat ← lift (Chat.kick_member chat (target_user_id cmd) requester_id);
  _ ← ChatRepository.delete_member target;
  _ ← ChatRepository.shift_member_count (Chat.id chat) (-1) None;
  _ ← publish_chat chat;
  commit.
End handler.
End KickMember.

Module LeaveChat.
Record command : Type := Mk {
  chat_id : UUID;
  user_jwt_data : UserJWTData;
}.
Definition handle (cmd : command) : M unit :=
  chat ← live_chat (chat_id cmd);
  let user_id := jwt_id (user_jwt_data cmd) in
  member ← ChatRepository.get_member_chat (chat_id cmd) user_id;
  member ← or_raise member (NotChatMemberError (chat_id cmd) user_id);
  chat ← lift (Chat.leave chat user_id);
  _ ← ChatRepository.delete_member member;
  _ ← ChatRepository.shift_member_count (Chat.id chat) (-1) None;
  _ ← publish_chat chat;
  commit.
End LeaveChat.

(** The opening shared by the handlers of bans and mutes: the live chat, the
    requester and the target, and the right to act on the target. *)
Section target.
Context `{R : RBACManager}.
Definition authorised_target (j : UserJWTData) (chat_id : UUID) (target_user_id : Z)
  (permission : string) : M (Chat.t * ChatMember.t) :=
  chat ← live_chat chat_id;
  let requester_id := jwt_id j in
  requester ← ChatRepository.get_member_chat chat_id requester_id;
  target ← ChatRepository.get_member_chat chat_id target_user_id;
  target ← or_raise target (NotChatMemberError chat_id target_user_id);
  n ← now_utc;
  _ ← guard_not (negb (ChatAccessService.update_member n j requester target [permission]))
        (AccessDeniedChatError chat_id requester_id);
  mret (chat, target).
End target.

Module BanMember.
Record command : Type := Mk {
  user_jwt_data : UserJWTData;
  chat_id : UUID;
  target_user_id : Z;
  banned_until : option datetime;
  reason : option text;
}.
Section handler.
Context `{R : RBACManager}.
Definition handle (cmd : command) : M unit :=
  let requester_id := jwt_id (user_jwt_data cmd) in
  '(chat, target) ← authorised_target (user_jwt_data cmd) (chat_id cmd) (target_user_id cmd)
                      "member:ban";
  n1 ← now_utc; n2 ← now_utc;
  let target := ChatMember.ban n1 n2 target requester_id (reason cmd) (banned_until cmd) in
  n3 ← now_utc;
  chat ← lift (Chat.ban_member chat (target_user_id cmd) requester_id
                 (ChatMember.is_banned n3 target));
  _ ← publish_chat chat;
  _ ← flush_member target;
  commit.
End handler.
End BanMember.

Module UnbanMember.
Record command : Type := Mk {
  user_jwt_data : UserJWTData;
  chat_id : UUID;
  target_user_id : Z;
}.
Section handler.
Context `{R : RBACManager}.
Definition handle (cmd : command) : M unit :=
  let requester_id := jwt_id (user_jwt_data cmd) in
  '(chat, target) ← authorised_target (user_jwt_data cmd) (chat_id cmd) (target_user_id cmd)
                      "member:ban";
  n1 ← now_utc;
  if negb (ChatMember.is_banned n1 target) then mret tt
  else
    n2 ← now_utc;
    let target := ChatMember.unban n2 target requester_id in
    chat ← lift (Chat.ban_member chat (target_user_id cmd) requester_id false);
    _ ← publish_chat chat;
    _ ← flush_member target;
    commit.
End handler.
End UnbanMember.

Module MuteMember.
Record command : Type := Mk {
  user_jwt_data : UserJWTData;
  chat_id : UUID;
  target_user_id : Z;
  muted_until : option datetime;
}.
Section handler.
Context `{R : RBACManager}.
Definition handle (cmd : command) : M unit :=
  let requester_id := jwt_id (user_jwt_data cmd) in
  '(chat, target) ← authorised_target (user_jwt_data cmd) (chat_id cmd) (target_user_id cmd)
                      "member:mute";
  n1 ← now_utc;
  let was_muted := ChatMember.is_muted n1 target in
  let previous_until := ChatMember.muted_until target in
  n2 ← now_utc;
  let target := ChatMember.mute n2 target (muted_until cmd) in
  n3 ← now_utc;
  if bool_decide (was_muted = ChatMember.is_muted n3 target)
     && bool_decide (previous_until = ChatMember.muted_until target)
  then mret tt
  else
    n4 ← now_utc; n5 ← now_utc;
    chat ← lift (Chat.mute_member n4 n5 chat target requester_id);
    _ ← publish_chat chat;
    _ ← flush_member target;
    commit.
End handler.
End MuteMember.

Module UnmuteMember.
Record command : Type := Mk {
  user_jwt_data : UserJWTData;
  chat_id : UUID;
  target_user_id : Z;
}.
Section handler.
Context `{R : RBACManager}.
Definition handle (cmd : command) : M unit :=
  let requester_id := jwt_id (user_jwt_data cmd) in
  '(chat, target) ← authorised_target (user_jwt_data cmd) (chat_id cmd) (target_user_id cmd)
                      "member:mute";
  n1 ← now_utc;
  if negb (ChatMember.is_muted n1 target) then mret tt
  else
    let target := ChatMember.unmute target in
    n2 ← now_utc; n3 ← now_utc;
    chat ← lift (Chat.mute_member n2 n3 chat target requester_id);
    _ ← publish_chat chat;
    _ ← flush_member target;
    commit.
End handler.
End UnmuteMember.

Module ChangeMemberRole.
Record command : Type := Mk {
  user_jwt_data : UserJWTData;
  chat_id : UUID;
  target_user_id : Z;
  role_id : Z;
}.
Section handler.
Context `{R : RBACManager}.
Definition handle (cmd : command) : M unit :=
  let requester_id := jwt_id (user_jwt_data cmd) in
  requester ← ChatRepository.get_member_chat (chat_id cmd) requester_id;
  target ← ChatRepository.get_member_chat (chat_id cmd) (target_user_id cmd);
  target ← or_raise target (NotChatMemberError (chat_id cmd) (target_user_id cmd));
  n1 ← now_utc;
  _ ← guard_not (negb (ChatAccessService.update_member n1 (user_jwt_data cmd) requester target
                         ["role:change"%string]))
        (AccessDeniedChatError (chat_id cmd) requester_id);
  n2 ← now_utc;
  role ← lift (ChatAccessService.ensure_can_assign_role n2 (user_jwt_data cmd) requester
                 (chat_id cmd) (role_id cmd));
  let target := target <| ChatMember.role_id := role |> in
  _ ← flush_member target;
  commit.
End handler.
End ChangeMemberRole.

Module TransferChatOwnership.
Record command : Type := Mk {
  user_jwt_data : UserJWTData;
  chat_id : UUID;
  new_owner_id : Z;
}.
Section handler.
Context `{R : RBACManager}.
Definition handle (cmd : command) : M unit :=
  let requester_id := jwt_id (user_jwt_data cmd) in
  chat ← live_chat (chat_id cmd);
  requester ← ChatRepository.get_member_chat (chat_id cmd) requester_id;
  n1 ← now_utc;
  _ ← guard_not (negb (ChatAccessService.can_transfer_ownership n1 (user_jwt_data cmd) chat
                         requester))
        (AccessDeniedChatError (chat_id cmd) requester_id);
  new_owner ← ChatRepository.get_member_chat (chat_id cmd) (new_owner_id cmd);
  new_owner ← or_raise new_owner (NotChatMemberError (chat_id cmd) (new_owner_id cmd));
  n2 ← now_utc;
  '(chat, new_owner, previous_owner_id) ←
    lift (Chat.transfer_ownership n2 chat requester_id new_owner);
  previous_owner ←
    match requester with
    | Some r =>
      if ChatMember.user_id r =? previous_owner_id then mret (Some r)
      else ChatRepository.get_member_chat (chat_id cmd) previous_owner_id
    | None => ChatRepository.get_member_chat (chat_id cmd) previous_owner_id
    end;
  _ ← publish_chat chat;
  _ ← flush_chat chat;
  _ ← flush_member new_owner;
  _ ← match previous_owner with
      | Some p => flush_member (p <| ChatMember.role_id := ADMIN |>)
      | None => mret tt
      end;
  commit.
End handler.
End TransferChatOwnership.
