(* ===== verification/MessageCommands.v ===== *)
(** Handlers of [app/chats/commands/messages] (sending, forwarding, editing, deleting) and [app/chats/commands/pins]. *)
From S2P Require Import Prelude Config Events MemberModel MessageModel ChatModel PrivacyModel Store Wp Rbac Access ChatRepo PrivacyService MessageRepo.

Module SendMessage.
Record command : Type := Mk {
  chat_id : UUID;
  content : option text;
  reply_to_id : option UUID;
  message_type : MessageType;
  upload_tokens : list UUID;
  user_jwt_data : UserJWTData;
}.
Section handler.
Context `{R : RBACManager}.
Definition handle (cmd : command) : M Message.t :=
  let user_id := jwt_id (user_jwt_data cmd) in
  '(chat, member) ← ChatRepository.get_chat_and_member (chat_id cmd) user_id;
  n1 ← now_utc; n2 ← now_utc;
  _ ← guard_not (negb (ChatAccessService.can_send_message n1 n2 (user_jwt_data cmd) chat
                         (Some member)))
        (AccessDeniedChatError (chat_id cmd) user_id);
  _ ← ChatPrivacyService.ensure_can_message chat user_id;
  _ ← MessageService.is_slow chat user_id (Some member);
  claimed ← match upload_tokens cmd with
            | [] => mret []
            | tokens => AttachmentRepository.get_by_ids tokens
            end;
  _ ← guard_not (negb (bool_decide (claimed = []))
                 && negb (len (upload_tokens cmd) =? len claimed))
        (AttachmentNotFoundError []);
  _ ← match reply_to_id cmd with
      | Some r =>
        reply_msg ← MessageRepository.get_by_id r false;
        guard_not (is_none reply_msg) (NotFoundMessageError r)
      | None => mret tt
      end;
  message_date ← now_utc;
  next_seq ← ChatRepository.allocate_message_seq (chat_id cmd) message_date 1;
  next_seq ← or_raise next_seq (NotFoundChatError (chat_id cmd));
  uuid ← uuid7;
  msg ← lift (Message.create uuid (Some user_id) (chat_id cmd) next_seq (content cmd)
                (reply_to_id cmd) (message_type cmd) None None None (Some claimed) true None);
  _ ← publish_message msg;
  _ ← MessageRepository.create msg;
  _ ← commit;
  mret msg.
End handler.
End SendMessage.

(** [x if y is None else y] *)
Definition none_else {A} (y x : option A) : option A := match y with None => x | Some _ => y end.

Module ForwardMessage.
Record command : Type := Mk {
  user_jwt_data : UserJWTData;
  source_chat_id : UUID;
  source_message_id : UUID;
  target_chat_id : UUID;
  comment : option text;
}.
Section handler.
Context `{R : RBACManager}.
Definition handle (cmd : command) : M Message.t :=
  let user_id := jwt_id (user_jwt_data cmd) in
  source_member ← ChatRepository.get_member_chat (source_chat_id cmd) user_id;
  source_member ← or_raise source_member (NotChatMemberError (source_chat_id cmd) user_id);
  source_msg ← MessageRepository.get_by_id (source_message_id cmd) true;
  source_msg ← or_raise source_msg (NotFoundMessageError (source_message_id cmd));
  _ ← guard_not (negb (Message.chat_id source_msg =? source_chat_id cmd)
                 || Message.is_deleted source_msg)
        (NotFoundMessageError (source_message_id cmd));
  n1 ← now_utc; n2 ← now_utc;
  _ ← guard_not (negb (ChatAccessService.has_permissions n1 n2 (user_jwt_data cmd)
                         (Some source_member) ["message:read"%string]))
        (AccessDeniedChatError (source_chat_id cmd) user_id);
  '(target_chat, target_member) ←
    ChatRepository.get_chat_and_member (target_chat_id cmd) user_id;
  n3 ← now_utc; n4 ← now_utc;
  _ ← guard_not (negb (ChatAccessService.can_send_message n3 n4 (user_jwt_data cmd) target_chat
                         (Some target_member)))
        (AccessDeniedChatError (target_chat_id cmd) user_id);
  _ ← ChatPrivacyService.ensure_can_message target_chat user_id;
  _ ← MessageService.is_slow target_chat user_id (Some target_member);
  fresh ← uuid7_supply (length (Message.attachments source_msg));
  let forward_attachments :=
    imap (λ i a, MessageAttachment.create_for_forward (fresh i) a (Chat.id target_chat))
      (filter (λ a, MessageAttachment.is_success a = true) (Message.attachments source_msg)) in
  message_date ← now_utc;
  next_seq ← ChatRepository.allocate_message_seq (target_chat_id cmd) message_date 1;
  next_seq ← or_raise next_seq (NotFoundChatError (target_chat_id cmd));
  uuid ← uuid7;
  forwarded_msg ← lift (Message.create uuid (Some user_id) (target_chat_id cmd) next_seq
    (if truthy_text (comment cmd) then comment cmd else Message.content source_msg)
    None FORWARD
    (none_else (Message.forwarded_from_chat_id source_msg) (Some (Message.chat_id source_msg)))
    (none_else (Message.forwarded_from_message_id source_msg) (Some (Message.id source_msg)))
    (none_else (Message.forwarded_from_author_id source_msg) (Message.author_id source_msg))
    (Some forward_attachments) true None);
  _ ← publish_message forwarded_msg;
  _ ← MessageRepository.create forwarded_msg;
  _ ← commit;
  mret forwarded_msg.
End handler.
End ForwardMessage.

Module ForwardMessages.
Record command : Type := Mk {
  user_jwt_data : UserJWTData;
  source_chat_id : UUID;
  source_message_ids : list UUID;
  target_chat_id : UUID;
  hide_author : bool;
  comment : option text;
}.

(** [created.append(Message.create_forward(...))] for each source; the last one
    notifies. A forwarded message takes one id per attachment and one of its
    own: [base] is where its ids start in the supply. *)
Fixpoint build_forwards (fresh : nat → UUID) (cmd : command) (user_id : Z)
  (sources : list Message.t) (seq : Z) : result error (list Message.t) :=
  match sources with
  | [] => mret []
  | source :: rest =>
    m ← Message.create_forward fresh source user_id (target_chat_id cmd) seq (hide_author cmd)
          (bool_decide (rest = []));
    let used := S (length (Message.attachments m)) in
    ms ← build_forwards (λ i, fresh (used + i)%nat) cmd user_id rest (seq + 1);
    mret (m :: ms)
  end.

Definition _build_messages (fresh : nat → UUID) (cmd : command) (user_id : Z)
  (sources : list Message.t) (comment : option text) (first_seq : Z)
  : result error (list Message.t) :=
  if truthy_text comment then
    m ← Message.create (fresh 0%nat) (Some user_id) (target_chat_id cmd) first_seq comment None
          TEXT None None None None false None;
    ms ← build_forwards (λ i, fresh (S i)) cmd user_id sources (first_seq + 1);
    mret (m :: ms)
  else build_forwards fresh cmd user_id sources first_seq.

Definition _ensure_slow_mode (c : Chat.t) (member : ChatMember.t) (user_id total : Z) : M unit :=
  n ← now_utc;
  if (Chat.slow_mode_seconds c <=? 0) || ChatAccessService.can_bypass_slow_mode n (Some member)
  then mret tt
  else
    _ ← guard_not (1 <? total) (SlowModeMultipleMessagesError (Chat.id c) total);
    MessageService.is_slow c user_id (Some member).

(** [command.comment.strip() if command.comment else None] *)
Definition cleaned_comment (cmd : command) : option text :=
  if truthy_text (comment cmd) then strip <$> comment cmd else None.

Definition ids_needed (sources : list Message.t) : nat :=
  S (sum_list ((λ m, S (length (Message.attachments m))) <$> sources)).

Section handler.
Context `{R : RBACManager}.
Definition handle (cmd : command) : M (list Message.t) :=
  let user_id := jwt_id (user_jwt_data cmd) in
  let source_ids := fromkeys (source_message_ids cmd) in
  source_member ← ChatRepository.get_member_chat (source_chat_id cmd) user_id;
  source_member ← or_raise source_member (NotChatMemberError (source_chat_id cmd) user_id);
  n0 ← now_utc;
  _ ← guard_not (ChatMember.is_banned n0 source_member)
        (NotChatMemberError (source_chat_id cmd) user_id);
  n1 ← now_utc; n2 ← now_utc;
  _ ← guard_not (negb (ChatAccessService.has_permissions n1 n2 (user_jwt_data cmd)
                         (Some source_member) ["message:read"%string]))
        (AccessDeniedChatError (source_chat_id cmd) user_id);
  sources ← MessageRepository.get_many_in_chat (source_chat_id cmd) source_ids;
  _ ← match sources, source_ids with
      | [], i :: _ => raise (NotFoundMessageError i)
      | [], [] => raise IndexError
      | _, _ => mret tt
      end;
  let forwardable := filter (λ m, Message.is_forwardable m = true) sources in
  _ ← guard_not (bool_decide (forwardable = []))
        (InvalidMessageError "selected messages have nothing to forward");
  '(target_chat, target_member) ←
    ChatRepository.get_chat_and_member (target_chat_id cmd) user_id;
  n3 ← now_utc; n4 ← now_utc;
  _ ← guard_not (negb (ChatAccessService.can_send_message n3 n4 (user_jwt_data cmd) target_chat
                         (Some target_member)))
        (AccessDeniedChatError (target_chat_id cmd) user_id);
  _ ← ChatPrivacyService.ensure_can_message target_chat user_id;
  let comment := cleaned_comment cmd in
  let total := len forwardable + (if truthy_text comment then 1 else 0) in
  _ ← _ensure_slow_mode target_chat target_member user_id total;
  message_date ← now_utc;
  last_seq ← ChatRepository.allocate_message_seq (target_chat_id cmd) message_date total;
  last_seq ← or_raise last_seq (NotFoundChatError (target_chat_id cmd));
  fresh ← uuid7_supply (ids_needed forwardable);
  created ← lift (_build_messages fresh cmd user_id forwardable comment (last_seq - total + 1));
  _ ← publish (concat ((λ m, (Message.pull_events m).1) <$> created));
  _ ← MessageRepository.create_many created;
  _ ← commit;
  mret created.
End handler.
End ForwardMessages.

Module EditMessage.
Record command : Type := Mk {
  user_jwt_data : UserJWTData;
  chat_id : UUID;
  message_id : UUID;
  new_content : text;
}.
Definition handle (cmd : command) : M Message.t :=
  let user_id := jwt_id (user_jwt_data cmd) in
  message ← MessageRepository.get_by_id (message_id cmd) false;
  message ← or_raise message (NotFoundMessageError (message_id cmd));
  _ ← guard_not (negb (Message.chat_id message =? chat_id cmd))
        (NotFoundMessageError (message_id cmd));
  _ ← guard_not (negb (bool_decide (Message.author_id message = Some user_id))
                 || negb (Message.chat_id message =? chat_id cmd))
        (AccessDeniedChatError (chat_id cmd) user_id);
  message ← lift (Message.update_content message (new_content cmd) user_id);
  _ ← publish_message message;
  _ ← flush_message message;
  _ ← commit;
  mret message.
End EditMessage.

Module DeleteMessage.
Record command : Type := Mk {
  chat_id : UUID;
  message_id : UUID;
  user_jwt_data : UserJWTData;
}.
Section handler.
Context `{R : RBACManager}.
Definition handle (cmd : command) : M unit :=
  let user_id := jwt_id (user_jwt_data cmd) in
  message ← MessageRepository.get_by_id (message_id cmd) false;
  message ← or_raise message (NotFoundMessageError (message_id cmd));
  _ ← guard_not (negb (Message.chat_id message =? chat_id cmd))
        (NotFoundMessageError (message_id cmd));
  member ← ChatRepository.get_member_chat (chat_id cmd) user_id;
  member ← or_raise member (NotChatMemberError (chat_id cmd) user_id);
  n1 ← now_utc; n2 ← now_utc;
  _ ← guard_not (negb (bool_decide (Message.author_id message = Some user_id))
                 && negb (ChatAccessService.has_permissions n1 n2 (user_jwt_data cmd)
                            (Some member) ["message:delete"%string]))
        (AccessDeniedChatError (chat_id cmd) user_id);
  let message := Message.delete message user_id in
  unpinned ← ChatPinnedMessageRepository.delete_many (chat_id cmd) [Message.id message];
  let message := match unpinned with
                 | [] => message
                 | _ => Message.unpin message user_id
                 end in
  _ ← publish_message message;
  _ ← flush_message message;
  commit.
End handler.
End DeleteMessage.

Module PinMessage.
Record command : Type := Mk {
  user_jwt_data : UserJWTData;
  chat_id : UUID;
  message_id : UUID;
}.
Section handler.
Context `{R : RBACManager}.
(** Returns the pin the DTO is built from. *)
Definition handle (cmd : command) : M ChatPinnedMessage.t :=
  let user_id := jwt_id (user_jwt_data cmd) in
  chat ← live_chat (chat_id cmd);
  member ← ChatRepository.get_member_chat (chat_id cmd) user_id;
  n1 ← now_utc; n2 ← now_utc; n3 ← now_utc;
  _ ← lift (ChatAccessService.ensure_can_pin n1 n2 n3 (user_jwt_data cmd) member (chat_id cmd));
  message ← MessageRepository.get_by_id (message_id cmd) true;
  message ← or_raise message (NotFoundMessageError (message_id cmd));
  _ ← guard_not (negb (Message.chat_id message =? chat_id cmd))
        (NotFoundMessageError (message_id cmd));
  existing ← ChatPinnedMessageRepository.get (chat_id cmd) (message_id cmd);
  match existing with
  | Some pin => mret pin
  | None =>
    pinned_count ← ChatPinnedMessageRepository.count (chat_id cmd);
    n4 ← now_utc;
    '(chat, pin) ← lift (Chat.pin_message n4 chat message user_id pinned_count);
    n5 ← now_utc;
    seq ← ChatRepository.allocate_message_seq (chat_id cmd) n5 1;
    seq ← or_raise seq (NotFoundChatError (chat_id cmd));
    uuid ← uuid7;
    notice ← lift (Message.create_system uuid user_id (chat_id cmd) seq MESSAGE_PINNED
                     (Some (Message.id message)));
    _ ← publish ((Chat.pull_events chat).1 ++ (Message.pull_events notice).1);
    _ ← ChatPinnedMessageRepository.create pin;
    _ ← MessageRepository.create notice;
    _ ← commit;
    mret pin
  end.
End handler.
End PinMessage.

Module UnpinMessages.
Record command : Type := Mk {
  user_jwt_data : UserJWTData;
  chat_id : UUID;
  message_id : option UUID;
}.
Section handler.
Context `{R : RBACManager}.
Definition handle (cmd : command) : M unit :=
  let user_id := jwt_id (user_jwt_data cmd) in
  chat ← live_chat (chat_id cmd);
  member ← ChatRepository.get_member_chat (chat_id cmd) user_id;
  n1 ← now_utc; n2 ← now_utc; n3 ← now_utc;
  _ ← lift (ChatAccessService.ensure_can_pin n1 n2 n3 (user_jwt_data cmd) member (chat_id cmd));
  unpinned ← match message_id cmd with
             | None => ChatPinnedMessageRepository.delete_all (chat_id cmd)
             | Some i => ChatPinnedMessageRepository.delete_many (chat_id cmd) [i]
             end;
  match unpinned with
  | [] => mret tt
  | _ =>
    let chat := Chat.unpin_messages chat unpinned user_id (is_none (message_id cmd)) in
    _ ← publish_chat chat;
    commit
  end.
End handler.
End UnpinMessages.
