(* ===== verification/Reactions.v ===== *)
(** [app/chats/repositories/reaction.py], [app/chats/services/reaction_policy.py] and the handlers of [app/chats/commands/reactions]. *)
From S2P Require Import Prelude Config Events MemberModel MessageModel ChatModel Store Wp Rbac ChatRepo MessageRepo.

Record MessageReactionState : Type := MkReactionState {
  groups : list ReactionGroupSnapshot;
  my_emojis : gset text;
  recent_by_emoji : list (text * list Z);
}.

(** ** Order of the reports *)

(** [ORDER BY count DESC, emoji ASC] *)
Definition group_le (a b : ReactionGroupSnapshot) : Prop :=
  rg_count b < rg_count a ∨ (rg_count a = rg_count b ∧ text_le (rg_emoji a) (rg_emoji b)).
#[export] Instance group_le_dec : RelDecision group_le.
Proof. intros a b. unfold group_le. apply _. Defined.

(** [ORDER BY created_at DESC, user_id DESC] *)
Definition recent_le (a b : datetime * Z) : Prop := b.1 < a.1 ∨ (a.1 = b.1 ∧ b.2 ≤ a.2).
#[export] Instance recent_le_dec : RelDecision recent_le.
Proof. intros a b. unfold recent_le. apply _. Defined.

Module MessageReactionRepository.

(** [SELECT count( * ) FROM message_reaction_counters WHERE message_id = ...] *)
Definition distinct_emojis (s : store) (message_id : UUID) : Z :=
  count_where (λ kv, kv.1.1 = message_id) (reaction_counters s).

Definition count_distinct_emojis (message_id : UUID) : M Z :=
  query (λ s, distinct_emojis s message_id).

Definition user_emojis (s : store) (message_id : UUID) (user_id : Z) : list text :=
  snd ∘ fst <$> filter (λ '((m, u, _), _), m = message_id ∧ u = user_id)
                  (map_to_list (reactions s)).

Definition list_user_emojis (message_id : UUID) (user_id : Z) : M (list text) :=
  query (λ s, user_emojis s message_id user_id).

(** [_BUMP_COUNTER_UP_SQL] *)
Definition bump_up (chat_id message_id : UUID) (emoji : text) (now : datetime) (s : store)
  : store * Z :=
  let key := (message_id, emoji) in
  match reaction_counters s !! key with
  | None =>
    (s <| reaction_counters ::= <[key := MessageReactionCounter.Mk chat_id 1 now now]> |>, 1)
  | Some c =>
    let n := MessageReactionCounter.count c + 1 in
    (s <| reaction_counters ::= <[key :=
       c <| MessageReactionCounter.count := n |>
         <| MessageReactionCounter.last_reacted_at := now |>]> |>, n)
  end.

(** [_BUMP_COUNTER_DOWN_SQL] then [_DROP_EMPTY_COUNTER_SQL] *)
Definition bump_down (message_id : UUID) (emoji : text) (now : datetime) (s : store)
  : store * option Z :=
  let key := (message_id, emoji) in
  match reaction_counters s !! key with
  | None => (s, None)
  | Some c =>
    let n := MessageReactionCounter.count c - 1 in
    let c := c <| MessageReactionCounter.count := n |>
               <| MessageReactionCounter.last_reacted_at := now |> in
    (if n <=? 0 then s <| reaction_counters ::= delete key |>
     else s <| reaction_counters ::= <[key := c]> |>, Some n)
  end.

(** [INSERT ... ON CONFLICT DO NOTHING RETURNING], then the counter *)
Definition added (chat_id message_id : UUID) (user_id : Z) (emoji : text) (now : datetime)
  (s : store) : option Z * store :=
  let key := (message_id, user_id, emoji) in
  match reactions s !! key with
  | Some _ => (None, s)
  | None =>
    let '(s, n) := bump_up chat_id message_id emoji now
        (s <| reactions ::= <[key := MessageReaction.Mk chat_id now]> |>) in
    (Some n, s)
  end.

Definition add_reaction (chat_id message_id : UUID) (user_id : Z) (emoji : text) : M (option Z) :=
  now ← now_utc;
  execute_returning (added chat_id message_id user_id emoji now).

Definition removed (message_id : UUID) (user_id : Z) (emoji : text) (now : datetime)
  (s : store) : option Z * store :=
  let key := (message_id, user_id, emoji) in
  match reactions s !! key with
  | None => (None, s)
  | Some _ =>
    let '(s, n) := bump_down message_id emoji now (s <| reactions ::= delete key |>) in
    (Some (default 0 n), s)
  end.

Definition remove_reaction (message_id : UUID) (user_id : Z) (emoji : text) : M (option Z) :=
  now ← now_utc;
  execute_returning (removed message_id user_id emoji now).

(** The two loops range over set differences, in an order of the sets. *)
Definition set_reactions (chat_id message_id : UUID) (user_id : Z) (emojis : list text) : M bool :=
  locked ← list_user_emojis message_id user_id;
  let current : gset text := list_to_set locked in
  let target : gset text := list_to_set emojis in
  let to_add := target ∖ current in
  let to_remove := current ∖ target in
  if bool_decide (to_add = ∅) && bool_decide (to_remove = ∅) then mret false
  else
    _ ← for_each (elements to_remove) (λ e, _ ← remove_reaction message_id user_id e; mret tt);
    _ ← for_each (elements to_add) (λ e, _ ← add_reaction chat_id message_id user_id e; mret tt);
    mret true.

Definition current_groups (s : store) (message_id : UUID) : list ReactionGroupSnapshot :=
  merge_sort group_le
    ((λ kv, MkReactionGroup kv.1.2 (MessageReactionCounter.count kv.2)) <$>
       filter (λ kv, kv.1.1 = message_id ∧ 0 < MessageReactionCounter.count kv.2)
         (map_to_list (reaction_counters s))).

Definition get_current_groups (message_id : UUID) : M (list ReactionGroupSnapshot) :=
  query (λ s, current_groups s message_id).

(** the lateral join: the latest users of one emoji *)
Definition recent_users (s : store) (message_id : UUID) (emoji : text) : list Z :=
  snd <$> take chat_config.REACTION_RECENT_USERS_LIMIT
    (merge_sort recent_le
       ((λ '((_, u, _), r), (MessageReaction.created_at r, u)) <$>
          filter (λ '((m, _, e), _), m = message_id ∧ e = emoji) (map_to_list (reactions s)))).

(** [get_reaction_state_for_messages([message_id], user_id).get(message_id)]:
    [None] when the message has no counter above zero *)
Definition reaction_state (s : store) (message_id : UUID) (user_id : Z)
  : option MessageReactionState :=
  match current_groups s message_id with
  | [] => None
  | gs =>
    Some (MkReactionState gs (list_to_set (user_emojis s message_id user_id))
      (if chat_config.REACTIONS_INCLUDE_RECENT_USERS then
         filter (λ el, el.2 ≠ [])
           ((λ g, (rg_emoji g, recent_users s message_id (rg_emoji g))) <$> gs)
       else []))
  end.

(** for each distinct id, in order of first occurrence; ids without a group
    have no entry *)
Definition get_reaction_state_for_messages (message_ids : list UUID) (user_id : Z)
  : M (list (UUID * MessageReactionState)) :=
  query (λ s, omap (λ i, pair i <$> reaction_state s i user_id) (fromkeys message_ids)).

(** the users of one emoji, by id, one more than the page holds *)
Definition get_users_by_emoji (message_id : UUID) (emoji : text) (limit : nat)
  (cursor_user_id : option Z) : M (list Z) := query (λ s,
  take (S limit) (merge_sort Z.le
    (snd ∘ fst ∘ fst <$> filter (λ '((m, u, e), _),
       m = message_id ∧ e = emoji
       ∧ match cursor_user_id with Some c => c <? u | None => true end = true)
       (map_to_list (reactions s))))).

(** The reactions of the message that carry [emoji] *)
Definition reaction_rows (s : store) (message_id : UUID) (emoji : text) : Z :=
  count_where (λ kv, kv.1.1.1 = message_id ∧ kv.1.2 = emoji) (reactions s).

End MessageReactionRepository.

Module ReactionPolicy.

Definition ensure_can_react (now : datetime) (c : Chat.t) (m : ChatMember.t) : result error unit :=
  _ ← raise_if (ChatMember.is_muted now m)
        (AccessDeniedChatError (Chat.id c) (ChatMember.user_id m));
  raise_if (bool_decide (Chat.reactions_mode c = NONE)) (ReactionsDisabledError (Chat.id c)).

Definition validate_emoji (c : Chat.t) (emoji : text) : result error unit :=
  _ ← raise_if (bool_decide (emoji ∉ chat_config.DEFAULT_REACTIONS))
        (InvalidReactionError (take 64 emoji));
  _ ← raise_if (bool_decide (Chat.reactions_mode c = NONE)) (ReactionsDisabledError (Chat.id c));
  raise_if (bool_decide (Chat.reactions_mode c = SOME)
            && bool_decide (emoji ∉ Chat.allowed_reactions c))
    (ReactionNotAllowedError emoji (Chat.allowed_reactions c)).

Definition validate (now : datetime) (c : Chat.t) (m : ChatMember.t) (emoji : text)
  : result error unit :=
  _ ← ensure_can_react now c m;
  validate_emoji c emoji.

End ReactionPolicy.

(** [build_reaction_event] *)
Definition build_reaction_event (chat_id message_id : UUID) (actor_id : Z) (action : string)
  : M event :=
  groups ← MessageReactionRepository.get_current_groups message_id;
  recent ← (if chat_config.REACTIONS_INCLUDE_RECENT_USERS && negb (bool_decide (groups = []))
            then
              state ← MessageReactionRepository.get_reaction_state_for_messages [message_id]
                        actor_id;
              mret (match state with
                    | (_, msg_state) :: _ => recent_by_emoji msg_state
                    | [] => []
                    end)
            else mret []);
  mret (ReactionUpdatedEvent message_id chat_id actor_id action groups recent).

(** The opening the three handlers share: the chat and the caller's membership,
    not banned, and a live message of the chat. *)
Definition reacting_member (chat_id message_id : UUID) (user_id : Z)
  : M (Chat.t * ChatMember.t) :=
  '(chat, member) ← ChatRepository.get_chat_and_member chat_id user_id;
  n ← now_utc;
  _ ← guard_not (ChatMember.is_banned n member) (NotChatMemberError chat_id user_id);
  message ← MessageRepository.get_by_id message_id false;
  message ← or_raise message (NotFoundMessageError message_id);
  _ ← guard_not (negb (Message.chat_id message =? chat_id)) (NotFoundMessageError message_id);
  mret (chat, member).

Definition too_many_for_user : error :=
  TooManyReactionsError chat_config.MAX_REACTIONS_PER_USER_PER_MESSAGE "user".
Definition too_many_on_message : error :=
  TooManyReactionsError chat_config.MAX_DISTINCT_REACTIONS_PER_MESSAGE "message".

Module SetReaction.
Record command : Type := Mk {
  chat_id : UUID;
  message_id : UUID;
  emoji : text;
  user_jwt_data : UserJWTData;
}.
Definition handle (cmd : command) : M unit :=
  let user_id := jwt_id (user_jwt_data cmd) in
  '(chat, member) ← reacting_member (chat_id cmd) (message_id cmd) user_id;
  n ← now_utc;
  _ ← lift (ReactionPolicy.validate n chat member (emoji cmd));
  existing ← MessageReactionRepository.list_user_emojis (message_id cmd) user_id;
  _ ← (if bool_decide (emoji cmd ∉ existing) then
         _ ← guard_not (chat_config.MAX_REACTIONS_PER_USER_PER_MESSAGE <=? len existing)
               too_many_for_user;
         distinct ← MessageReactionRepository.count_distinct_emojis (message_id cmd);
         guard_not (chat_config.MAX_DISTINCT_REACTIONS_PER_MESSAGE <=? distinct)
           too_many_on_message
       else mret tt);
  applied ← MessageReactionRepository.add_reaction (chat_id cmd) (message_id cmd) user_id
              (emoji cmd);
  match applied with
  | None => mret tt
  | Some _ =>
    e ← build_reaction_event (chat_id cmd) (message_id cmd) user_id "add";
    _ ← publish [e];
    commit
  end.
End SetReaction.

Module SetReactions.
Record command : Type := Mk {
  chat_id : UUID;
  message_id : UUID;
  emojis : list text;
  user_jwt_data : UserJWTData;
}.
Definition handle (cmd : command) : M unit :=
  let user_id := jwt_id (user_jwt_data cmd) in
  let target := fromkeys (emojis cmd) in
  '(chat, member) ← reacting_member (chat_id cmd) (message_id cmd) user_id;
  _ ← (if bool_decide (target = []) then mret tt
       else
         n ← now_utc;
         _ ← lift (ReactionPolicy.ensure_can_react n chat member);
         _ ← for_each target (λ e, lift (ReactionPolicy.validate_emoji chat e));
         _ ← guard_not (chat_config.MAX_REACTIONS_PER_USER_PER_MESSAGE <? len target)
               too_many_for_user;
         mine ← MessageReactionRepository.list_user_emojis (message_id cmd) user_id;
         let new_emojis := (list_to_set target : gset text) ∖ list_to_set mine in
         if bool_decide (new_emojis = ∅) then mret tt
         else
           distinct ← MessageReactionRepository.count_distinct_emojis (message_id cmd);
           groups ← MessageReactionRepository.get_current_groups (message_id cmd);
           let existing_groups : gset text := list_to_set (rg_emoji <$> groups) in
           let added_distinct := Z.of_nat (size (new_emojis ∖ existing_groups)) in
           guard_not (chat_config.MAX_DISTINCT_REACTIONS_PER_MESSAGE <? distinct + added_distinct)
             too_many_on_message);
  changed ← MessageReactionRepository.set_reactions (chat_id cmd) (message_id cmd) user_id target;
  if negb changed then mret tt
  else
    e ← build_reaction_event (chat_id cmd) (message_id cmd) user_id "replace";
    _ ← publish [e];
    commit.
End SetReactions.

Module RemoveReaction.
Record command : Type := Mk {
  chat_id : UUID;
  message_id : UUID;
  emoji : text;
  user_jwt_data : UserJWTData;
}.
Definition handle (cmd : command) : M unit :=
  let user_id := jwt_id (user_jwt_data cmd) in
  _ ← reacting_member (chat_id cmd) (message_id cmd) user_id;
  applied ← MessageReactionRepository.remove_reaction (message_id cmd) user_id (emoji cmd);
  match applied with
  | None => mret tt
  | Some _ =>
    e ← build_reaction_event (chat_id cmd) (message_id cmd) user_id "remove";
    _ ← publish [e];
    commit
  end.
End RemoveReaction.
