(* ===== verification/ReadReceipts.v ===== *)
(** Read receipts: [app/chats/repositories/reads.py], the queue that coalesces
    cursors ([app/chats/services/read_coalescer.py]), the flusher
    ([read_flusher.py]) and the handler of mark_read. The Lua scripts run
    atomically; the queue lives in Redis, outside the transaction. *)
From S2P Require Import Prelude Config Events MemberModel MessageModel ChatModel Store Wp Rbac Access ChatRepo.

Abbreviation read_key := (UUID * Z)%type (only parsing).
Definition key_of (c : PendingReadCursor) : read_key := (cur_chat_id c, cur_user_id c).

(** [now_ms()] *)
Definition now_ms : M Z := now ← now_utc; mret (now `quot` 1000).

Module ReadReceiptRepository.

(** One upsert: the stored cursor moves only forward. *)
Definition upsert (key : read_key) (message_seq : Z) (s : store) : bool * store :=
  match read_receipts s !! key with
  | Some r =>
    if ReadReceipt.last_read_message_seq r <? message_seq
    then (true, s <| read_receipts ::= <[key := ReadReceipt.Mk message_seq]> |>)
    else (false, s)
  | None => (true, s <| read_receipts ::= <[key := ReadReceipt.Mk message_seq]> |>)
  end.

Definition mark_read (user_id : Z) (chat_id : UUID) (message_seq : Z) : M bool :=
  execute_returning (upsert (chat_id, user_id) message_seq).

(** the keys whose row was inserted or advanced *)
Fixpoint upsert_many (cursors : list (UUID * Z * Z)) (s : store) : gset read_key * store :=
  match cursors with
  | [] => (∅, s)
  | (c, u, n) :: rest =>
    let '(advanced, s) := upsert (c, u) n s in
    let '(keys, s) := upsert_many rest s in
    (if advanced then {[ (c, u) ]} ∪ keys else keys, s)
  end.

Definition mark_read_many (cursors : list (UUID * Z * Z)) : M (gset read_key) :=
  match cursors with
  | [] => mret ∅
  | _ => execute_returning (upsert_many cursors)
  end.

(** [ON CONFLICT DO NOTHING] on (chat, user, seq) *)
Definition add_mark (s : store) (mark : UUID * Z * Z * Z) : store :=
  let '(c, u, n, at_) := mark in
  match read_marks s !! (c, u, n) with
  | Some _ => s
  | None => s <| read_marks ::= <[(c, u, n) := at_]> |>
  end.

Definition add_marks (marks : list (UUID * Z * Z * Z)) : M unit :=
  execute (λ s, foldl add_mark s marks).

End ReadReceiptRepository.

Module ReadReceiptCoalesceQueue.

(** [_ENQUEUE_LUA] *)
Definition ENQUEUE_LUA (cursor : PendingReadCursor) (deadline : Z) (q : ReadQueue)
  : bool * ReadQueue :=
  let field := key_of cursor in
  let stale := match rq_pending q !! field with
               | Some current => cur_message_seq cursor <=? cur_message_seq current
               | None => false
               end in
  if stale then (false, q)
  else
    let q := q <| rq_pending ::= <[field := cursor]> |> in
    (true, match rq_due q !! field with
           | Some _ => q
           | None => q <| rq_due ::= <[field := deadline]> |>
           end).

Definition deadline_le (a b : read_key * Z) : Prop := a.2 ≤ b.2.
#[global] Instance deadline_le_dec : RelDecision deadline_le.
Proof. intros a b. unfold deadline_le. apply _. Defined.

(** [ZRANGEBYSCORE due -inf now LIMIT 0 n] *)
Definition due_fields (now : Z) (n : Z) (q : ReadQueue) : list read_key :=
  take (Z.to_nat n)
    (fst <$> merge_sort deadline_le (filter (λ kd, kd.2 ≤ now) (map_to_list (rq_due q)))).

(** [_CLAIM_DUE_LUA]: the fields leave both keys; a field without a payload
    yields nothing *)
Definition CLAIM_DUE_LUA (now n : Z) (q : ReadQueue) : list PendingReadCursor * ReadQueue :=
  let due := due_fields now n q in
  (omap (λ field, rq_pending q !! field) due,
   MkReadQueue (filter (λ kv, kv.1 ∉ due) (rq_pending q))
               (filter (λ kv, kv.1 ∉ due) (rq_due q))).

(** A Redis script *)
Definition eval_script {A} (f : ReadQueue → A * ReadQueue) : M A := λ w,
  let '(a, q) := f (w_reads w) in (Ok a, w <| w_reads := q |>).

Definition enqueue (chat_id : UUID) (user_id message_seq : Z)
  (support_read_event track_marks : bool) : M bool :=
  ms ← now_ms;
  eval_script (ENQUEUE_LUA
    (MkCursor chat_id user_id message_seq support_read_event ms track_marks)
    (ms + chat_config.READ_RECEIPTS_COALESCE_WINDOW_MS)).

Definition claim_due : M (list PendingReadCursor) :=
  ms ← now_ms;
  eval_script (CLAIM_DUE_LUA ms chat_config.READ_RECEIPTS_COALESCE_MAX_KEYS_PER_TICK).

Definition requeue (cursors : list PendingReadCursor) : M unit :=
  for_each cursors (λ c,
    _ ← enqueue (cur_chat_id c) (cur_user_id c) (cur_message_seq c) (cur_support_read_event c)
          (cur_track_marks c);
    mret tt).

Definition peek_many (user_id : Z) (chat_ids : list UUID) : M (gmap UUID PendingReadCursor) :=
  λ w, (Ok (dict_of (λ c, rq_pending (w_reads w) !! (c, user_id)) (list_to_set chat_ids)), w).

End ReadReceiptCoalesceQueue.

Module ReadReceiptFlusher.

Definition flush (cursors : list PendingReadCursor) : M Z :=
  match cursors with
  | [] => mret 0
  | _ =>
    advanced ← ReadReceiptRepository.mark_read_many
                 ((λ c, (cur_chat_id c, cur_user_id c, cur_message_seq c)) <$> cursors);
    _ ← ReadReceiptRepository.add_marks
          ((λ c, (cur_chat_id c, cur_user_id c, cur_message_seq c, cur_read_at c)) <$>
             filter (λ c, cur_track_marks c = true ∧ key_of c ∈ advanced) cursors);
    let events := (λ c, ReadedMessageEvent (cur_chat_id c) (cur_message_seq c) (cur_user_id c)) <$>
      filter (λ c, cur_support_read_event c = true ∧ key_of c ∈ advanced) cursors in
    _ ← publish events;
    _ ← commit;
    mret (Z.of_nat (size advanced))
  end.

End ReadReceiptFlusher.

(** One turn of the loop of [run_read_receipt_coalescer]
    ([app/chats/tasks/read_coalescer.py]). [flush] is the flusher the container
    hands out, run in a request scope of its own; when it raises, the cursors go
    back to the queue, and the loop logs the error and goes on. *)
Definition run_read_receipt_coalescer (flush : list PendingReadCursor → M Z) : M unit := λ w,
  match ReadReceiptCoalesceQueue.claim_due w with
  | (Ok [], w) => (Ok tt, w)
  | (Ok cursors, w) =>
    match run_command (flush cursors) w with
    | (Ok _, w) => (Ok tt, w)
    | (Err _, w) => (Ok tt, (ReadReceiptCoalesceQueue.requeue cursors w).2)
    end
  | (Err _, w) => (Ok tt, w)
  end.

Module MarkAsRead.
Record command : Type := Mk {
  chat_id : UUID;
  message_seq : Z;
  user_jwt_data : UserJWTData;
}.
Section handler.
Context `{R : RBACManager}.
Definition handle (cmd : command) : M bool :=
  let user_id := jwt_id (user_jwt_data cmd) in
  '(chat, member) ← ChatRepository.get_chat_and_member (chat_id cmd) user_id;
  n1 ← now_utc; n2 ← now_utc;
  _ ← guard_not (negb (ChatAccessService.has_permissions n1 n2 (user_jwt_data cmd) (Some member)
                         ["message:read"%string]))
        (AccessDeniedChatError (chat_id cmd) user_id);
  let message_seq := Z.min (message_seq cmd) (Chat.seq_counter chat) in
  ReadReceiptCoalesceQueue.enqueue (chat_id cmd) user_id message_seq
    (Chat.support_read_event chat) (Chat.tracks_read_marks chat).
End handler.
End MarkAsRead.
