(* ===== verification/WsModel.v ===== *)
(** Texts the realtime layer writes to Redis and reads back - [str(int)], [int(str)], [str.partition], [str(UUID)] and [UUID(str)] of Python, and the keys and route values of [app/core/websocket/keys.py] - and its data: a websocket connection ([websocket.py]), the frames queued on it, the entries of a gateway's stream ([dtos.py]), the typing state kept on a connection ([app/chats/services/typing.py]) and the part of Redis the layer shares. A monotonic instant ([time.monotonic()]) is a number of microseconds. *)
From Stdlib Require Import DecimalZ.
From S2P Require Import Prelude Config Events MessageModel ChatModel.

(** ** [str(n)] and [int(s)] *)
Fixpoint uint_text (u : Decimal.uint) : text :=
  match u with
  | Decimal.Nil => []
  | Decimal.D0 u => 48 :: uint_text u
  | Decimal.D1 u => 49 :: uint_text u
  | Decimal.D2 u => 50 :: uint_text u
  | Decimal.D3 u => 51 :: uint_text u
  | Decimal.D4 u => 52 :: uint_text u
  | Decimal.D5 u => 53 :: uint_text u
  | Decimal.D6 u => 54 :: uint_text u
  | Decimal.D7 u => 55 :: uint_text u
  | Decimal.D8 u => 56 :: uint_text u
  | Decimal.D9 u => 57 :: uint_text u
  end.

Definition str_int (n : Z) : text :=
  match Z.to_int n with
  | Decimal.Pos u => uint_text u
  | Decimal.Neg u => 45 :: uint_text u
  end.

Definition digit (c : Z) : option (Decimal.uint → Decimal.uint) :=
  match c with
  | 48 => Some Decimal.D0 | 49 => Some Decimal.D1 | 50 => Some Decimal.D2
  | 51 => Some Decimal.D3 | 52 => Some Decimal.D4 | 53 => Some Decimal.D5
  | 54 => Some Decimal.D6 | 55 => Some Decimal.D7 | 56 => Some Decimal.D8
  | 57 => Some Decimal.D9
  | _ => None
  end.

(** decimal digits, with single underscores between them *)
Fixpoint digits_uint (s : text) : option Decimal.uint :=
  match s with
  | [] => Some Decimal.Nil
  | c :: s' =>
    if c =? 95
    then match s' with
         | d :: _ => if is_some (digit d) then digits_uint s' else None
         | [] => None
         end
    else f ← digit c; f <$> digits_uint s'
  end.

Definition unsigned (s : text) : option Decimal.uint :=
  match s with
  | c :: _ => if is_some (digit c) then digits_uint s else None
  | [] => None
  end.

(** [int(s)], [None] for its [ValueError]; digits outside ASCII, which Python
    also takes, are left out *)
Definition py_int (s : text) : option Z :=
  match strip s with
  | 45 :: s' => (λ u, Z.of_int (Decimal.Neg u)) <$> unsigned s'
  | 43 :: s' => (λ u, Z.of_int (Decimal.Pos u)) <$> unsigned s'
  | s' => (λ u, Z.of_int (Decimal.Pos u)) <$> unsigned s'
  end.

(** ** [str.partition] of a one-character separator *)
Fixpoint partition (sep : Z) (s : text) : text * bool * text :=
  match s with
  | [] => ([], false, [])
  | c :: s' =>
    if c =? sep then ([], true, s')
    else let '(a, found, b) := partition sep s' in (c :: a, found, b)
  end.

(** ** Ids as text: [8-4-4-4-12] hexadecimal digits *)
Definition hex_char (n : Z) : Z := if n <? 10 then 48 + n else 87 + n.

(** the [k] lowest hexadecimal digits of [n], the highest first *)
Fixpoint hex (k : nat) (n : Z) : text :=
  match k with
  | O => []
  | S k' => hex k' (n / 16) ++ [hex_char (n mod 16)]
  end.

Definition str_uuid (u : UUID) : text :=
  let h := hex 32 u in
  take 8 h ++ 45 :: take 4 (drop 8 h) ++ 45 :: take 4 (drop 12 h) ++ 45 :: take 4 (drop 16 h)
    ++ 45 :: drop 20 h.

#[global] Arguments str_uuid : simpl never.

Definition hex_value (c : Z) : option Z :=
  if (48 <=? c) && (c <=? 57) then Some (c - 48)
  else if (97 <=? c) && (c <=? 102) then Some (c - 87)
  else if (65 <=? c) && (c <=? 70) then Some (c - 55)
  else None.

Fixpoint unhex (acc : Z) (s : text) : option Z :=
  match s with
  | [] => Some acc
  | c :: s' => v ← hex_value c; unhex (16 * acc + v) s'
  end.

Fixpoint drop_braces (s : text) : text :=
  match s with
  | c :: s' => if (c =? 123) || (c =? 125) then drop_braces s' else s
  | [] => []
  end.

(** [UUID(s)], [None] for its [ValueError]: braces around and hyphens are
    dropped, then there must be 32 digits. The [urn:uuid:] prefix Python drops
    as well, and the spaces, signs and underscores [int(s, 16)] takes, are left
    out. *)
Definition parse_uuid (s : text) : option UUID :=
  let h := filter (λ c, c ≠ 45) (reverse (drop_braces (reverse (drop_braces s)))) in
  if len h =? 32 then unhex 0 h else None.

(** ** Keys *)
Definition colon : Z := 58.

Module WebsocketKeys.
Definition presence_last_seen_zset : text := u8 "ws:v1:presence:last_seen".
Definition user_route_key (user_id : Z) : text := u8 "ws:route:user:" ++ str_int user_id.
Definition gateway_route_key (gateway_id : text) : text := u8 "ws:route:gateway:" ++ gateway_id.
Definition connection_key (connection_id : text) : text := u8 "ws:conn:" ++ connection_id.
Definition gateway_stream_key (gateway_id : text) : text :=
  u8 "ws:gateway:" ++ gateway_id ++ u8 ":stream".
Definition active_subscription_key (channel : text) : text := u8 "ws:sub:chat:" ++ channel.
Definition connection_subscription_key (connection_id channel : text) : text :=
  u8 "ws:sub:conn:" ++ connection_id ++ colon :: channel.
Definition active_subscription_route (user_id : Z) (gateway_id connection_id : text) : text :=
  str_int user_id ++ colon :: gateway_id ++ colon :: connection_id.
End WebsocketKeys.

(** the member of a user's route set: [f"{gateway_id}:{connection_id}"] *)
Definition user_route (gateway_id connection_id : text) : text :=
  gateway_id ++ colon :: connection_id.

Definition empty_text (s : text) : bool := match s with [] => true | _ => false end.

(** how [_lookup_online_routes] and [send_user_payload] read it back *)
Definition parse_user_route (route : text) : option (text * text) :=
  let '(gateway_id, sep, connection_id) := partition colon route in
  if negb sep || empty_text gateway_id || empty_text connection_id then None
  else Some (gateway_id, connection_id).

(** [parse_active_subscription_route] of the delivery router *)
Definition parse_active_subscription_route (route : text) : option (Z * text * text * text) :=
  let '(user_id_str, sep1, rest) := partition colon route in
  let '(gateway_id, sep2, connection_id) := partition colon rest in
  if negb sep1 || negb sep2 || empty_text user_id_str || empty_text gateway_id
     || empty_text connection_id then None
  else uid ← py_int user_id_str; Some (uid, gateway_id, connection_id, route).

(** ** What is written is read back *)
Lemma digits_uint_text u : digits_uint (uint_text u) = Some u.
Proof. induction u; simpl; rewrite ?IHu; done. Qed.

Lemma unsigned_text u : u ≠ Decimal.Nil → unsigned (uint_text u) = Some u.
Proof. intros Hu. destruct u; [done|..]; exact (digits_uint_text _). Qed.

Lemma uint_text_digits u : Forall (λ c, 48 ≤ c ≤ 57) (uint_text u).
Proof. induction u; simpl; constructor; (lia || done). Qed.

Lemma lstrip_cons c s : is_space c = false → lstrip (c :: s) = c :: s.
Proof. simpl. by intros ->. Qed.

Lemma strip_id s : Forall (λ c, is_space c = false) s → strip s = s.
Proof.
  intros Hs. unfold strip. assert (lstrip s = s) as ->.
  { destruct Hs; [done|]. by apply lstrip_cons. }
  assert (Forall (λ c, is_space c = false) (reverse s)) as Hr by (by rewrite Forall_reverse).
  assert (lstrip (reverse s) = reverse s) as ->.
  { destruct Hr; [done|]. by apply lstrip_cons. }
  apply reverse_involutive.
Qed.

Lemma str_int_chars n : Forall (λ c, 48 ≤ c ≤ 57 ∨ c = 45) (str_int n).
Proof.
  unfold str_int. assert (∀ u, Forall (λ c, 48 ≤ c ≤ 57 ∨ c = 45) (uint_text u)) as Hu.
  { intros u. eapply list.Forall_impl; [apply uint_text_digits|]. naive_solver. }
  destruct (Z.to_int n); [done|]. constructor; [by right|done].
Qed.

Lemma to_int_unsigned n :
  match Z.to_int n with Decimal.Pos u | Decimal.Neg u => u end ≠ Decimal.Nil.
Proof.
  destruct n as [|p|p]; simpl; [done|..]; apply DecimalPos.Unsigned.to_uint_nonnil.
Qed.

Lemma uint_text_cons u : u ≠ Decimal.Nil → ∃ c s, uint_text u = c :: s ∧ 48 ≤ c ≤ 57.
Proof. intros Hu. destruct u; [done|..]; (eexists _, _; split; [reflexivity|lia]). Qed.

Lemma py_int_str n : py_int (str_int n) = Some n.
Proof.
  unfold py_int. rewrite strip_id.
  2:{ eapply list.Forall_impl; [apply str_int_chars|]. cbn. unfold is_space. intros c Hc. lia. }
  transitivity (Some (Z.of_int (Z.to_int n))); [|by rewrite DecimalZ.of_to].
  pose proof (to_int_unsigned n) as Hn. unfold str_int.
  destruct (Z.to_int n) as [u|u].
  - pose proof (unsigned_text u Hn) as Hu.
    destruct (uint_text_cons u Hn) as (c & s & E & Hc). rewrite E in *.
    assert (c ≠ 45 ∧ c ≠ 43) as [H1 H2] by lia.
    destruct c as [|p|p]; [lia| |lia].
    do 6 (destruct p as [p|p|]; try (exfalso; lia); try (rewrite Hu; done)).
  - by rewrite unsigned_text.
Qed.

Lemma partition_app sep a b : sep ∉ a → partition sep (a ++ sep :: b) = (a, true, b).
Proof.
  induction a as [|c a IH]; intros Ha; simpl.
  - by rewrite Z.eqb_refl.
  - apply not_elem_of_cons in Ha as [Hc Ha].
    rewrite (proj2 (Z.eqb_neq c sep)) by congruence. by rewrite IH.
Qed.

Lemma str_int_colon n : colon ∉ str_int n.
Proof.
  intros Hin. pose proof (str_int_chars n) as Hall. rewrite list.Forall_forall in Hall.
  apply Hall in Hin. unfold colon in Hin. lia.
Qed.

Lemma str_int_nonempty n : empty_text (str_int n) = false.
Proof.
  unfold str_int. pose proof (to_int_unsigned n) as Hn. destruct (Z.to_int n) as [u|u]; [|done].
  by destruct (uint_text_cons u Hn) as (c & s & -> & _).
Qed.

(** an id that survives [partition]: what [default_gateway_id] must give *)
Definition plain (s : text) : Prop := colon ∉ s ∧ s ≠ [].

Lemma plain_nonempty s : plain s → empty_text s = false.
Proof. intros [_ Hs]. by destruct s. Qed.

Lemma parse_user_route_written g c :
  plain g → c ≠ [] → parse_user_route (user_route g c) = Some (g, c).
Proof.
  intros Hg Hc. unfold parse_user_route, user_route. rewrite partition_app by apply Hg.
  rewrite (plain_nonempty g Hg). by destruct c.
Qed.

Lemma parse_subscription_written u g c :
  plain g → c ≠ [] →
  parse_active_subscription_route (WebsocketKeys.active_subscription_route u g c)
  = Some (u, g, c, WebsocketKeys.active_subscription_route u g c).
Proof.
  intros Hg Hc. unfold parse_active_subscription_route, WebsocketKeys.active_subscription_route.
  rewrite partition_app by apply str_int_colon. rewrite partition_app by apply Hg.
  rewrite str_int_nonempty, (plain_nonempty g Hg), py_int_str. by destruct c.
Qed.

Lemma str_int_inj n m : str_int n = str_int m → n = m.
Proof. intros E. pose proof (py_int_str n) as H. rewrite E, py_int_str in H. congruence. Qed.

(** ** Ids *)
Lemma hex_value_char n : 0 ≤ n < 16 → hex_value (hex_char n) = Some n.
Proof.
  intros Hn. unfold hex_value, hex_char. destruct (n <? 10) eqn:E; bool_simpl.
  - rewrite (proj2 (Z.leb_le 48 _)), (proj2 (Z.leb_le _ 57)) by lia. cbn. f_equal. lia.
  - rewrite (proj2 (Z.leb_gt (87 + n) 57)), andb_false_r by lia.
    rewrite (proj2 (Z.leb_le 97 _)), (proj2 (Z.leb_le _ 102)) by lia. cbn. f_equal. lia.
Qed.

Lemma unhex_app s1 s2 : ∀ acc, unhex acc (s1 ++ s2) = unhex acc s1 ≫= λ a, unhex a s2.
Proof.
  induction s1 as [|c s1 IH]; intros acc; simpl; [done|]. destruct (hex_value c); simpl; [apply IH|done].
Qed.

Lemma unhex_hex k : ∀ n acc, 0 ≤ n → unhex acc (hex k n) = Some (acc * 16 ^ Z.of_nat k + n mod 16 ^ Z.of_nat k).
Proof.
  induction k as [|k IH]; intros n acc Hn.
  - simpl. rewrite Z.mod_1_r. f_equal. lia.
  - cbn [hex]. rewrite unhex_app, IH by (apply Z.div_pos; lia). cbn [mbind option_bind unhex].
    rewrite hex_value_char by (apply Z.mod_pos_bound; lia). cbn [mbind option_bind]. f_equal.
    replace (16 ^ Z.of_nat (S k)) with (16 * 16 ^ Z.of_nat k) by (rewrite Nat2Z.inj_succ, Z.pow_succ_r; lia).
    rewrite (Z.rem_mul_r n 16) by lia. ring.
Qed.

Lemma length_hex k : ∀ n, length (hex k n) = k.
Proof. induction k as [|k IH]; intros n; simpl; [done|]. rewrite length_app, IH. simpl. lia. Qed.

Definition hexadecimal (c : Z) : Prop := 48 ≤ c ≤ 57 ∨ 97 ≤ c ≤ 102.

Lemma hex_chars k : ∀ n, Forall hexadecimal (hex k n).
Proof.
  induction k as [|k IH]; intros n; simpl; [constructor|]. apply Forall_app; split; [done|].
  constructor; [|constructor]. pose proof (Z.mod_pos_bound n 16 ltac:(lia)).
  unfold hexadecimal, hex_char. destruct (_ <? _) eqn:E; bool_simpl; lia.
Qed.

Lemma filter_hexadecimal s : Forall hexadecimal s → filter (λ c, c ≠ 45) s = s.
Proof.
  induction 1 as [|c s Hc Hs IH]; [done|]. rewrite filter_cons_True; [by rewrite IH|].
  unfold hexadecimal in Hc. lia.
Qed.

Lemma drop_braces_id s c : hexadecimal c → drop_braces (c :: s) = c :: s.
Proof.
  intros Hc. simpl. unfold hexadecimal in Hc.
  by rewrite (proj2 (Z.eqb_neq c 123)), (proj2 (Z.eqb_neq c 125)) by lia.
Qed.

(** the 36 characters, as five runs of digits *)
Lemma str_uuid_runs u : ∃ a b c d e, Forall hexadecimal (a ++ b ++ c ++ d ++ e) ∧ a ≠ [] ∧ e ≠ []
  ∧ hex 32 u = a ++ b ++ c ++ d ++ e
  ∧ str_uuid u = a ++ 45 :: b ++ 45 :: c ++ 45 :: d ++ 45 :: e.
Proof.
  pose proof (hex_chars 32 u) as Hh. unfold str_uuid. cbv zeta.
  set (h := hex 32 u) in *. exists (take 8 h), (take 4 (drop 8 h)), (take 4 (drop 12 h)), (take 4 (drop 16 h)), (drop 20 h).
  assert (h = take 8 h ++ take 4 (drop 8 h) ++ take 4 (drop 12 h) ++ take 4 (drop 16 h) ++ drop 20 h) as E. by reflexivity.
  rewrite <- E. split_and!; try done.
Qed.

Lemma parse_str_uuid u : 0 ≤ u < 2 ^ 128 → parse_uuid (str_uuid u) = Some u.
Proof.
  intros Hu. destruct (str_uuid_runs u) as (a & b & c & d & e & Hall & Ha & He & Hh & ->).
  rewrite !Forall_app in Hall. destruct Hall as (Fa & Fb & Fc & Fd & Fe).
  destruct a as [|x a]; [done|]. unfold parse_uuid.
  rewrite <- app_comm_cons, drop_braces_id by (by inversion Fa).
  destruct (exists_last He) as (e' & y & ->).
  assert (reverse (x :: a ++ 45 :: b ++ 45 :: c ++ 45 :: d ++ 45 :: e' ++ [y])
    = y :: reverse (x :: a ++ 45 :: b ++ 45 :: c ++ 45 :: d ++ 45 :: e')) as ->.
  { rewrite <- reverse_snoc. f_equal. by repeat (simpl; rewrite <- app_assoc). }
  rewrite drop_braces_id by (apply Forall_app in Fe as [_ Fy]; by inversion Fy).
  rewrite reverse_cons, reverse_involutive.
  assert (filter (λ c0 : Z, c0 ≠ 45) ((x :: a ++ 45 :: b ++ 45 :: c ++ 45 :: d ++ 45 :: e') ++ [y])
    = hex 32 u) as ->.
  { rewrite Hh. change (x :: a ++ 45 :: b ++ 45 :: c ++ 45 :: d ++ 45 :: e')
      with ((x :: a) ++ 45 :: b ++ 45 :: c ++ 45 :: d ++ 45 :: e').
    rewrite !list.filter_app. repeat (rewrite (filter_cons_False _ 45) by (intros H; by apply H); rewrite ?list.filter_app).
    apply Forall_app in Fe as [Fe Fy].
    rewrite !filter_hexadecimal by done. by rewrite <- !app_assoc. }
  unfold len. rewrite length_hex, unhex_hex by lia. rewrite Z.mod_small; [|by change (16 ^ Z.of_nat 32) with (2 ^ 128)].
  done.
Qed.

(** Constants of [app/core/configs/app.py] *)
Module app_config.
Definition WS_HEARTBEAT_INTERVAL : Z := 30.
Definition WS_HEARTBEAT_TIMEOUT : Z := 75.
Definition WS_SEND_QUEUE_SIZE : Z := 256.
Definition WS_MAX_CONNECTIONS_PER_USER : Z := 2.
Definition WS_PRESENCE_TTL : Z := 90.
Definition WS_PRESENCE_CLEANUP_EVERY_TICKS : Z := 10.
Definition WS_GATEWAY_STREAM_CLAIM_COUNT : nat := 100.
Definition WS_GATEWAY_STREAM_READ_COUNT : nat := 200.
Definition WS_GATEWAY_STREAM_USERS_PER_ENTRY : nat := Z.to_nat 1000.
End app_config.

(** ** An insertion-ordered dict keyed by text *)
Module OrderedDict.
Section dict.
Context {V : Type}.
Implicit Types (d : list (text * V)) (k : text).

Fixpoint get d k : option V :=
  match d with
  | [] => None
  | (k', v) :: d' => if decide (k' = k) then Some v else get d' k
  end.

(** [d[k] = v] keeps the place of a key that exists *)
Fixpoint set d k (v : V) : list (text * V) :=
  match d with
  | [] => [(k, v)]
  | (k', v') :: d' => if decide (k' = k) then (k, v) :: d' else (k', v') :: set d' k v
  end.

Definition del d k : list (text * V) := filter (λ kv, kv.1 ≠ k) d.
End dict.
End OrderedDict.

(** ** Typing ([app/chats/schemas/ws.py], [app/chats/services/typing.py]) *)
Inductive TypingAction : Type :=
| ACT_TYPING | ACT_RECORD_VOICE | ACT_UPLOAD_VOICE | ACT_RECORD_VIDEO_NOTE
| ACT_UPLOAD_VIDEO_NOTE | ACT_UPLOAD_PHOTO | ACT_UPLOAD_VIDEO | ACT_UPLOAD_FILE | ACT_CANCEL.
#[export] Instance TypingAction_eq_dec : EqDecision TypingAction.
Proof. solve_decision. Defined.

Record TypingContext : Type := MkTypingContext {
  tc_fanout_strategy : ChatFanoutStrategy;
  tc_denied_code : option string;
  tc_loaded_at : Z;
}.

Definition is_fresh (c : TypingContext) (now : Z) : bool :=
  now - tc_loaded_at c <? seconds chat_config.TYPING_CONTEXT_TTL_SECONDS.

Record TypingState : Type := MkTypingState {
  ts_context : option TypingContext;
  ts_action : option TypingAction;
  ts_sent_at : Z;
}.
#[global] Instance typing_state_settable : Settable TypingState := λ s,
  MkTypingState (ts_context s) (ts_action s) (ts_sent_at s).

Definition is_active (s : TypingState) (now : Z) : bool :=
  is_some (ts_action s) && (now - ts_sent_at s <? seconds chat_config.TYPING_TTL_SECONDS).

(** [(now - sent_at) * 1000 < interval], in microseconds *)
Definition is_throttled (s : TypingState) (action : TypingAction) (now : Z) : bool :=
  bool_decide (ts_action s = Some action)
  && (now - ts_sent_at s <? chat_config.TYPING_BROADCAST_INTERVAL_MS * 1000).

Abbreviation typing_states := (list (text * TypingState)) (only parsing).

(** [min(states, key=...)]: the first key of the least [sent_at] *)
Fixpoint oldest_key (states : typing_states) : option (text * Z) :=
  match states with
  | [] => None
  | (k, s) :: rest =>
    match oldest_key rest with
    | Some (k', t) => if t <? ts_sent_at s then Some (k', t) else Some (k, ts_sent_at s)
    | None => Some (k, ts_sent_at s)
    end
  end.

(** [track_typing_state]: the state of the chat, and the dict that holds it *)
Definition track_typing_state (states : typing_states) (chat_id : text) (now : Z)
  : TypingState * typing_states :=
  match OrderedDict.get states chat_id with
  | Some s => (s, states)
  | None =>
    let states :=
      if chat_config.TYPING_MAX_TRACKED_CHATS <=? len states
      then filter (λ kv, is_active kv.2 now = true) states else states in
    let states :=
      if chat_config.TYPING_MAX_TRACKED_CHATS <=? len states
      then match oldest_key states with
           | Some (k, _) => OrderedDict.del states k
           | None => states
           end
      else states in
    let s := MkTypingState None None 0 in
    (s, OrderedDict.set states chat_id s)
  end.

(** ** What travels to a client *)

(** [WsEvent.delta]: the payload of a domain event less the fields
    [_DELTA_SKIP_FIELDS], or one of the two dicts typing sends *)
Inductive Delta : Type :=
| DEvent (e : event)
| DTypingStart (user_id : Z) (action : TypingAction)
| DTypingStop (user_id : Z).

Record ReactionUpdateWSDTO : Type := MkReactionUpdate {
  ru_message_id : UUID;
  ru_chat_id : UUID;
  ru_actor_id : Z;
  ru_action : string;
  ru_groups : list (ReactionGroupSnapshot * list Z);
}.

Record MessagePayloadWS : Type := MkMessagePayload {
  mp_event_id : UUID;
  mp_event_name : string;
  mp_event : Delta;
  mp_message : option Message.t;
  mp_reaction : option ReactionUpdateWSDTO;
}.

Record DeliveryDTO : Type := MkDelivery {
  dv_type : string;
  dv_channel : text;
  dv_payload : MessagePayloadWS;
  dv_require_subscription : bool;
  dv_recipients : list Z;
  dv_ts : datetime;
  dv_expires_at : option datetime;
}.

Inductive frame : Type :=
| FEvent (type : string) (channel : text) (payload : MessagePayloadWS) (ts : datetime)
| FPing (connection_id : text)
| FPong
| FError (code : string)
| FSubscribed (chat_id : text) (last_seq : option Z)
| FUnsubscribed (chat_id : text)
| FHistory (chat_id : text) (after_seq : Z) (messages : list Message.t) (has_more : bool)
    (next_last_seq : Z).

(** the frame [_send_or_unregister] queues for a delivery *)
Definition frame_of (d : DeliveryDTO) : frame := FEvent (dv_type d) (dv_channel d) (dv_payload d) (dv_ts d).

(** ** A connection *)
Module WSConnection.

(** [closed] holds the code it was closed with; a queued frame carries its
    [enqueued_at]. The two tasks that write and ping are their steps below. *)
Record t : Type := Mk {
  user_id : Z;
  device_id : text;
  gateway_id : text;
  connection_id : text;
  connected_at : datetime;
  last_seen_at : datetime;
  subscriptions : gset text;
  last_seq_by_chat : gmap text Z;
  typing_by_chat : typing_states;
  send_queue : list (frame * datetime);
  closed : option Z;
}.
#[global] Instance settable : Settable t := λ c,
  Mk (user_id c) (device_id c) (gateway_id c) (connection_id c) (connected_at c) (last_seen_at c)
     (subscriptions c) (last_seq_by_chat c) (typing_by_chat c) (send_queue c) (closed c).

Definition touch (now : datetime) (c : t) : t := c <| last_seen_at := now |>.

(** [try_send]: [QueueFull] is the refusal of a bounded queue *)
Definition try_send (now : datetime) (c : t) (f : frame) : bool * t :=
  if is_some (closed c) then (false, c)
  else if app_config.WS_SEND_QUEUE_SIZE <=? len (send_queue c) then (false, c)
  else (true, c <| send_queue := send_queue c ++ [(f, now)] |>).

Definition close (code : Z) (c : t) : t :=
  match closed c with
  | Some _ => c
  | None => c <| closed := Some code |>
  end.

(** one turn of [_writer_loop]: the frame handed to the socket *)
Definition writer_step (c : t) : option (frame * t) :=
  match closed c, send_queue c with
  | None, (f, _) :: q => Some (f, c <| send_queue := q |>)
  | _, _ => None
  end.

(** one turn of [_heartbeat_loop] after its sleep; [false] ends the loop *)
Definition heartbeat_step (now now' : datetime) (c : t) : bool * t :=
  if is_some (closed c) then (false, c)
  else if seconds app_config.WS_HEARTBEAT_TIMEOUT <? now - last_seen_at c
  then (false, close 1001 c)
  else try_send now' c (FPing (connection_id c)).

End WSConnection.

(** ** Redis *)

(** a consumer group's view of one stream: entries not delivered yet, and those
    delivered but not acknowledged, both oldest first. [None] is a field that
    does not validate as a [DeliveryDTO]. *)
Record Stream : Type := MkStream {
  st_new : list (nat * option DeliveryDTO);
  st_pending : list (nat * option DeliveryDTO);
  st_next : nat;
}.
#[global] Instance stream_settable : Settable Stream := λ s,
  MkStream (st_new s) (st_pending s) (st_next s).

(** [rd_sets]: every set, as pairs of its key and a member; [rd_keys]: string
    values; [rd_streams]: by key; [rd_presence]: the sorted set of users by the
    instant they were last seen *)
Record redis : Type := MkRedis {
  rd_sets : gset (text * text);
  rd_keys : gmap text text;
  rd_streams : gmap text Stream;
  rd_presence : gmap text datetime;
}.
#[global] Instance redis_settable : Settable redis := λ r,
  MkRedis (rd_sets r) (rd_keys r) (rd_streams r) (rd_presence r).

Definition SADD (key member : text) (r : redis) : redis := r <| rd_sets ::= ({[ (key, member) ]} ∪.) |>.
Definition SREM (key member : text) (r : redis) : redis := r <| rd_sets ::= (λ s, s ∖ {[ (key, member) ]}) |>.
Definition SMEMBERS (key : text) (r : redis) : list text :=
  snd <$> filter (λ km, km.1 = key) (elements (rd_sets r)).
Definition SET (key value : text) (r : redis) : redis := r <| rd_keys ::= <[key := value]> |>.
Definition EXISTS (key : text) (r : redis) : bool := is_some (rd_keys r !! key).
(** [DEL] of a string or a set *)
Definition DEL (key : text) (r : redis) : redis :=
  r <| rd_keys ::= delete key |> <| rd_sets ::= filter (λ km, km.1 ≠ key) |>.
Definition SCARD (key : text) (r : redis) : Z := len (SMEMBERS key r).

Definition empty_stream : Stream := MkStream [] [] 0.

(** [XADD]; the cap of [WS_GATEWAY_STREAM_MAXLEN] entries is left out *)
Definition XADD (key : text) (d : DeliveryDTO) (r : redis) : redis :=
  let s := default empty_stream (rd_streams r !! key) in
  r <| rd_streams ::= <[key := s <| st_new := st_new s ++ [(st_next s, Some d)] |> <| st_next := S (st_next s) |>]> |>.

(** [XREADGROUP ... >] with a count: new entries become pending *)
Definition XREADGROUP (count : nat) (s : Stream) : list (nat * option DeliveryDTO) * Stream :=
  (take count (st_new s),
   s <| st_new := drop count (st_new s) |> <| st_pending := st_pending s ++ take count (st_new s) |>).

(** [XAUTOCLAIM] from an id: the pending entries idle long enough, up to a
    count, and the id to go on from, [0] at the end *)
Definition XAUTOCLAIM (idle : nat → bool) (start count : nat) (s : Stream)
  : nat * list (nat * option DeliveryDTO) :=
  let found := filter (λ e, (start <= e.1)%nat ∧ idle e.1 = true) (st_pending s) in
  (match drop count found with [] => 0%nat | e :: _ => e.1 end, take count found).

Definition XACK (ids : list nat) (s : Stream) : Stream :=
  s <| st_pending ::= filter (λ e, e.1 ∉ ids) |>.

Lemma elem_of_SMEMBERS key m r : m ∈ SMEMBERS key r ↔ (key, m) ∈ rd_sets r.
Proof.
  unfold SMEMBERS. rewrite list_elem_of_fmap. split.
  - intros ([k m'] & -> & [Hk Hin]%list_elem_of_filter). cbn in *. subst. by apply elem_of_elements.
  - intros Hin. exists (key, m). split; [done|]. apply list_elem_of_filter. split; [done|].
    by apply elem_of_elements.
Qed.

Lemma NoDup_SMEMBERS key r : NoDup (SMEMBERS key r).
Proof.
  unfold SMEMBERS. apply NoDup_fmap_2_strong; [|apply list.NoDup_filter, NoDup_elements].
  intros [k1 m1] [k2 m2] [E1 _]%list_elem_of_filter [E2 _]%list_elem_of_filter E. cbn in *. congruence.
Qed.

(** ** Presence ([app/core/websocket/presence.py]) *)
Module PresenceService.

Definition _is_fresh_score (score : option datetime) (now_ts : datetime) : bool :=
  match score with
  | None => false
  | Some score => now_ts - score <=? seconds app_config.WS_PRESENCE_TTL
  end.

Definition set_online (now : datetime) (user_id : Z) (r : redis) : redis :=
  r <| rd_presence ::= <[str_int user_id := now]> |>.

Definition refresh (now : datetime) (user_ids : list Z) (r : redis) : redis :=
  foldl (λ r u, set_online now u r) r user_ids.

Definition set_offline (user_id : Z) (r : redis) : redis :=
  r <| rd_presence ::= delete (str_int user_id) |>.

(** scores from [0] to the threshold go *)
Definition cleanup_stale (now : datetime) (r : redis) : redis :=
  r <| rd_presence ::= filter (λ ks, ¬ (0 ≤ ks.2 ≤ now - seconds app_config.WS_PRESENCE_TTL)) |>.

Definition get_online_status (now_ts : datetime) (user_ids : list Z) (r : redis) : list (Z * bool) :=
  (λ u, (u, _is_fresh_score (rd_presence r !! str_int u) now_ts)) <$> user_ids.

End PresenceService.
