(* ===== verification/MessageQueries.v ===== *)
(** What a client is shown of the messages of a chat: the DTOs with the profiles
    and reactions next to each message ([app/chats/dtos/messages.py],
    [services/reaction_attach.py], [ChatPrivacyService.hide_avatars]), and the
    queries of [app/chats/queries/messages], [pins], [reactions] and
    [attachments] with the statements they read. Presigned URLs, which are put
    into the DTOs last, are left out; the full-text match of PostgreSQL is a
    parameter. *)
From S2P Require Import Prelude Config Events MemberModel MessageModel ChatModel PrivacyModel Store Wp Rbac ChatRepo PrivacyService MessageRepo Reactions ReadReceipts WsModel.

(** ** DTOs *)
Record ChatProfileDTO : Type := MkChatProfileDTO {
  cpd_user_id : Z;
  cpd_username : option text;
  cpd_display_name : option text;
  cpd_avatar_s3_key : option text;
}.
#[export] Instance ChatProfileDTO_settable : Settable ChatProfileDTO := λ p,
  MkChatProfileDTO (cpd_user_id p) (cpd_username p) (cpd_display_name p) (cpd_avatar_s3_key p).

Definition chat_profile_dto (p : ChatUserProfile.t) : ChatProfileDTO :=
  MkChatProfileDTO (ChatUserProfile.user_id p) (ChatUserProfile.username p)
    (ChatUserProfile.display_name p) (ChatUserProfile.avatar_s3_key p).

Record ReactionGroupDTO : Type := MkReactionGroupDTO {
  rgd_emoji : text;
  rgd_count : Z;
  rgd_reacted_by_me : bool;
  rgd_recent_user_ids : list Z;
}.

(** a [MessageDTO] without its nested ones: the message with its attachments,
    its author's profile and its reactions *)
Record MessageNode : Type := MkMessageNode {
  node_message : Message.t;
  node_profile : option ChatProfileDTO;
  node_reactions : list ReactionGroupDTO;
}.
#[export] Instance MessageNode_settable : Settable MessageNode := λ n,
  MkMessageNode (node_message n) (node_profile n) (node_reactions n).

(** [reply_to] and [forwarded_from] are loaded one level deep: their own
    relationships are [noload] *)
Record MessageDTO : Type := MkMessageDTO {
  dto_node : MessageNode;
  dto_reply_to : option MessageNode;
  dto_forwarded_from : option MessageNode;
}.

Definition dto_map (f : MessageNode → MessageNode) (d : MessageDTO) : MessageDTO :=
  MkMessageDTO (f (dto_node d)) (f <$> dto_reply_to d) (f <$> dto_forwarded_from d).
Definition dto_nodes (d : MessageDTO) : list MessageNode :=
  dto_node d :: option_list (dto_reply_to d) ++ option_list (dto_forwarded_from d).
Definition dto_id (d : MessageDTO) : UUID := Message.id (node_message (dto_node d)).

(** [message_load_options]: relationships follow the foreign keys, whatever the
    state of the row they lead to *)
Definition load_node (s : store) (m : Message.t) : MessageNode :=
  MkMessageNode (with_attachments s m)
    (a ← Message.author_id m; chat_profile_dto <$> profiles s !! a) [].
Definition load_message (s : store) (m : Message.t) : MessageDTO :=
  MkMessageDTO (load_node s m)
    (i ← Message.reply_to_id m; load_node s <$> messages s !! i)
    (i ← Message.forwarded_from_message_id m; load_node s <$> messages s !! i).

(** ** Avatars *)

(** [profile.avatar_s3_key or profile.avatar_url] *)
Definition has_avatar (p : ChatProfileDTO) : bool :=
  match cpd_avatar_s3_key p with Some (_ :: _) => true | _ => false end.

Definition strip_avatars (hidden : gset Z) (p : ChatProfileDTO) : ChatProfileDTO :=
  if bool_decide (cpd_user_id p ∈ hidden) then p <| cpd_avatar_s3_key := None |> else p.

(** [hide_avatars] reads who is hidden among the holders of an avatar, and
    strips those holders *)
Definition hidden_holders (viewer_id : Z) (profiles : list (option ChatProfileDTO)) : M (gset Z) :=
  match filter (λ p, has_avatar p = true) (omap id profiles) with
  | [] => mret ∅
  | holders => ChatPrivacyService.hidden_photos viewer_id (cpd_user_id <$> holders)
  end.
Definition hide_avatar (hidden : gset Z) (p : ChatProfileDTO) : ChatProfileDTO :=
  if has_avatar p then strip_avatars hidden p else p.
Definition hide_avatars (viewer_id : Z) (profiles : list (option ChatProfileDTO))
  : M (list (option ChatProfileDTO)) :=
  hidden ← hidden_holders viewer_id profiles;
  mret ((λ p : option ChatProfileDTO, hide_avatar hidden <$> p) <$> profiles).

(** [MessageService.message_profiles] *)
Definition message_profiles (l : list MessageDTO) : list ChatProfileDTO :=
  d ← l; omap node_profile (dto_nodes d).

(** [hide_avatars] on the profiles the DTOs hold *)
Definition hide_in_node (hidden : gset Z) (n : MessageNode) : MessageNode :=
  n <| node_profile ::= fmap (hide_avatar hidden) |>.
Definition hide_in_messages (viewer_id : Z) (l : list MessageDTO) : M (list MessageDTO) :=
  hidden ← hidden_holders viewer_id (Some <$> message_profiles l);
  mret (dto_map (hide_in_node hidden) <$> l).

(** ** Reactions *)
Definition group_dtos (state : option MessageReactionState) : list ReactionGroupDTO :=
  match state with
  | None => []
  | Some st =>
    (λ g, MkReactionGroupDTO (rg_emoji g) (rg_count g) (bool_decide (rg_emoji g ∈ my_emojis st))
            (default [] (snd <$> (snd <$> list_find (λ el, el.1 = rg_emoji g) (recent_by_emoji st)))))
      <$> groups st
  end.

Module ReactionAttachService.
Definition attach (l : list MessageDTO) (user_id : Z) : M (list MessageDTO) :=
  match l with
  | [] => mret []
  | _ =>
    state ← MessageReactionRepository.get_reaction_state_for_messages
              (d ← l; (λ n, Message.id (node_message n)) <$> dto_nodes d) user_id;
    mret (dto_map (λ n, n <| node_reactions :=
            group_dtos (list_to_map (M := gmap UUID MessageReactionState) state !! Message.id (node_message n)) |>)
            <$> l)
  end.
End ReactionAttachService.

(** the steps every message page goes through *)
Definition present (user_id : Z) (l : list MessageDTO) : M (list MessageDTO) :=
  l ← hide_in_messages user_id l;
  ReactionAttachService.attach l user_id.

(** ** Pages by key *)

(** [rows[:limit]] and [len(rows) > limit], of a statement that reads one row
    more than the page holds *)
Definition page_of {A} (limit : nat) (rows : list A) : list A * bool :=
  (take limit rows, bool_decide (limit < length rows)%nat).
(** [key(page[-1]) if has_next and page else None] *)
Definition next_of {A K} (key : A → K) (page : list A * bool) : option K :=
  if page.2 then key <$> list.last page.1 else None.

(** ** Pages of messages *)

(** [if member is None or member.is_banned: raise NotChatMemberError] *)
Definition ensure_reader (chat_id : UUID) (user_id : Z) : M unit :=
  member ← ChatRepository.get_member_chat chat_id user_id;
  match member with
  | None => raise (NotChatMemberError chat_id user_id)
  | Some m => now ← now_utc; guard_not (ChatMember.is_banned now m) (NotChatMemberError chat_id user_id)
  end.

(** [min(max(limit, 1), most)] *)
Definition clamp (most limit : Z) : nat := Z.to_nat (Z.min (Z.max limit 1) most).

Definition message_seq_ge (a b : Message.t) : Prop := Message.seq b ≤ Message.seq a.
#[export] Instance message_seq_ge_dec : RelDecision message_seq_ge.
Proof. intros a b. unfold message_seq_ge. apply _. Defined.

(** the live messages of a chat, in the order of the table *)
Definition live_in (s : store) (chat_id : UUID) : list Message.t :=
  filter (λ m, Message.chat_id m = chat_id ∧ Message.is_deleted m = false) (map_to_list (messages s)).*2.

Definition before_seq (cursor : option Z) (m : Message.t) : bool :=
  match cursor with Some c => Message.seq m <? c | None => true end.

(** [get_paginated_chat_messages]: [backward] is the default direction *)
Definition get_paginated_chat_messages (chat_id : UUID) (cursor_seq : option Z) (limit : nat) (backward : bool)
  : M (list MessageDTO) := query (λ s,
  load_message s <$> take (S limit)
    (match cursor_seq, backward with
     | Some c, false => merge_sort MessageRepository.message_seq_le
                          (filter (λ m, c < Message.seq m) (live_in s chat_id))
     | _, _ => merge_sort message_seq_ge
                 (filter (λ m, before_seq cursor_seq m = true) (live_in s chat_id))
     end)).

Definition dto_seq (d : MessageDTO) : Z := Message.seq (node_message (dto_node d)).

Record MessagesDTO : Type := MkMessagesDTO {
  md_messages : list MessageDTO;
  md_next_cursor : option Z;
  md_has_next : bool;
}.

Module GetMessages.
Definition handle (chat_id : UUID) (limit : Z) (cursor_message_seq : option Z) (j : UserJWTData)
  : M MessagesDTO :=
  let user_id := jwt_id j in
  _ ← ensure_reader chat_id user_id;
  let limit := clamp 100 limit in
  messages ← get_paginated_chat_messages chat_id cursor_message_seq limit true;
  let page := page_of limit messages in
  dtos ← present user_id page.1;
  mret (MkMessagesDTO dtos (next_of dto_seq page) page.2).
End GetMessages.

Module GetMessageContext.
Definition get_message_context (chat_id : UUID) (target_seq : Z) (limit : nat) : M (list MessageDTO) :=
  query (λ s,
    let half := (limit / 2)%nat in
    let older := take half (merge_sort message_seq_ge
                   (filter (λ m, Message.seq m ≤ target_seq) (live_in s chat_id))) in
    let newer := take half (merge_sort MessageRepository.message_seq_le
                   (filter (λ m, target_seq < Message.seq m) (live_in s chat_id))) in
    load_message s <$> merge_sort MessageRepository.message_seq_le (older ++ newer)).

Definition handle (chat_id : UUID) (target_seq limit : Z) (j : UserJWTData) : M MessagesDTO :=
  let user_id := jwt_id j in
  _ ← ensure_reader chat_id user_id;
  messages ← get_message_context chat_id target_seq (clamp 100 limit);
  dtos ← present user_id messages;
  mret (MkMessagesDTO dtos None false).
End GetMessageContext.

(** [message is None or message.chat_id != query.chat_id] *)
Definition message_in_chat (chat_id message_id : UUID) : M Message.t :=
  message ← MessageRepository.get_by_id message_id false;
  match message with
  | Some m => if Message.chat_id m =? chat_id then mret m else raise (NotFoundMessageError message_id)
  | None => raise (NotFoundMessageError message_id)
  end.

Module GetMessageDetail.
Definition handle (chat_id message_id : UUID) (j : UserJWTData) : M MessageDTO :=
  let user_id := jwt_id j in
  _ ← ensure_reader chat_id user_id;
  m ← message_in_chat chat_id message_id;
  d ← query (λ s, load_message s m);
  dtos ← present user_id [d];
  mret (default d (head dtos)).
End GetMessageDetail.

(** ** Who has read a message *)
Record MessageReader : Type := MkReader {
  rd_user_id : Z;
  rd_read_at : datetime;
  rd_profile : option ChatProfileDTO;
}.
#[export] Instance MessageReader_settable : Settable MessageReader := λ r,
  MkReader (rd_user_id r) (rd_read_at r) (rd_profile r).

Definition reader_le (a b : MessageReader) : Prop :=
  rd_read_at b < rd_read_at a ∨ (rd_read_at a = rd_read_at b ∧ rd_user_id a ≤ rd_user_id b).
#[export] Instance reader_le_dec : RelDecision reader_le.
Proof. intros a b. unfold reader_le. apply _. Defined.

Definition mark_le (a b : Z * datetime) : Prop := a.1 ≤ b.1.
#[export] Instance mark_le_dec : RelDecision mark_le.
Proof. intros a b. unfold mark_le. apply _. Defined.

(** the lateral join: the first mark at or after [message_seq] *)
Definition first_mark (s : store) (chat_id : UUID) (user_id message_seq : Z) : option datetime :=
  snd <$> head (merge_sort mark_le
    (omap (λ '((c, u, n), at_), if (c =? chat_id) && (u =? user_id) && (message_seq <=? n)
                                then Some (n, at_) else None) (map_to_list (read_marks s)))).

Definition get_message_readers (chat_id : UUID) (message_seq exclude_user_id : Z) (limit : nat)
  : M (list MessageReader) :=
  now ← now_utc;
  query (λ s, take limit (merge_sort reader_le
    (omap (λ '((c, u), m),
       if (c =? chat_id) && negb (u =? exclude_user_id) && negb (ChatMember.is_banned now m) then
         (λ at_, MkReader u at_ (chat_profile_dto <$> profiles s !! u)) <$> first_mark s chat_id u message_seq
       else None) (map_to_list (members s))))).

Module GetMessageReads.
(** [created_at] gives the column of that name of a message row *)
Definition handle (created_at : UUID → datetime) (chat_id message_id : UUID) (j : UserJWTData)
  : M (list MessageReader) :=
  let user_id := jwt_id j in
  chat ← live_chat chat_id;
  _ ← ensure_reader chat_id user_id;
  m ← message_in_chat chat_id message_id;
  _ ← guard_not (negb (bool_decide (Message.author_id m = Some user_id))) (AccessDeniedChatError chat_id user_id);
  _ ← guard_not (negb (bool_decide (Chat.type chat ∈ [GROUP; SUPERGROUP])))
        (ReadReceiptsUnavailableError chat_id CHAT_TYPE);
  _ ← guard_not (negb (Chat.is_small_group chat)) (ReadReceiptsUnavailableError chat_id CHAT_TOO_LARGE);
  now ← now_utc;
  _ ← guard_not (created_at message_id <? now - seconds (chat_config.READ_MARKS_RETENTION_DAYS * 86400))
        (ReadReceiptsUnavailableError chat_id MESSAGE_TOO_OLD);
  readers ← get_message_readers chat_id (Message.seq m) user_id (Z.to_nat chat_config.READ_MARKS_MAX_MEMBERS);
  hidden ← hidden_holders user_id (rd_profile <$> readers);
  mret ((λ r, r <| rd_profile ::= fmap (hide_avatar hidden) |>) <$> readers).
End GetMessageReads.

(** ** Search *)

(** Python's Unicode tables, and the match of PostgreSQL's [to_tsvector] with a
    [to_tsquery] of words *)
Class TextSearch : Type := {
  casefold : text → text;
  is_word : Z → bool;
  ts_match : text → text → bool;
}.

(** [[term for term in re.split(r"\W+", s) if term]]: the maximal runs of word
    characters; [acc] is the current one, reversed *)
Definition close_term (acc : text) : list text := match acc with [] => [] | _ => [reverse acc] end.
Fixpoint terms_from `{TextSearch} (acc : text) (s : text) : list text :=
  match s with
  | [] => close_term acc
  | c :: s' => if is_word c then terms_from (c :: acc) s' else close_term acc ++ terms_from [] s'
  end.

Fixpoint join (sep : text) (l : list text) : text :=
  match l with
  | [] => []
  | [x] => x
  | x :: l' => x ++ sep ++ join sep l'
  end.

(** [*exact, last = terms; " & ".join([*exact, f"{last}:*"])] *)
Definition prefix_query (terms : list text) : text :=
  match list.last terms with
  | Some t => join (u8 " & ") (take (pred (length terms)) terms ++ [t ++ u8 ":*"])
  | None => []
  end.

Record SearchChatPreviewDTO : Type := MkSearchChat {
  sc_id : UUID;
  sc_type : ChatType;
  sc_name : option text;
}.
Definition search_chat (c : Chat.t) : SearchChatPreviewDTO := MkSearchChat (Chat.id c) (Chat.type c) (Chat.name c).

Definition message_id_ge (a b : Message.t) : Prop := Message.id b ≤ Message.id a.
#[export] Instance message_id_ge_dec : RelDecision message_id_ge.
Proof. intros a b. unfold message_id_ge. apply _. Defined.

(** the chat of a message the user may search: a live chat they are an unbanned
    member of *)
Definition searched_chat (s : store) (now : datetime) (user_id : Z) (m : Message.t) : option Chat.t :=
  c ← chats s !! Message.chat_id m;
  mb ← members s !! (Message.chat_id m, user_id);
  if ChatMember.is_banned now mb || Chat.is_deleted c then None else Some c.

(** [Message.content] matches; a null vector matches nothing *)
Definition search_hit `{TextSearch} (tsquery : text) (chat_id last_message_id : option UUID) (m : Message.t) : bool :=
  negb (Message.is_deleted m)
  && match Message.content m with Some t => ts_match t tsquery | None => false end
  && match chat_id with Some c => Message.chat_id m =? c | None => true end
  && match last_message_id with Some i => Message.id m <? i | None => true end.

Definition search_visible `{TextSearch} (user_id : Z) (tsquery : text) (limit : nat)
  (chat_id last_message_id : option UUID) : M (list (Message.t * Chat.t)) :=
  now ← now_utc;
  query (λ s, take (S limit)
    (omap (λ m, pair m <$> searched_chat s now user_id m)
       (merge_sort message_id_ge
          (filter (λ m, search_hit tsquery chat_id last_message_id m = true) (map_to_list (messages s)).*2)))).

(** only the author's profile is loaded next to a found message *)
Definition load_found (s : store) (m : Message.t) : MessageDTO :=
  MkMessageDTO (MkMessageNode m (a ← Message.author_id m; chat_profile_dto <$> profiles s !! a) []) None None.

Record MessageSearchDTO : Type := MkMessageSearch {
  ms_has_next : bool;
  ms_items : list (MessageDTO * SearchChatPreviewDTO);
  ms_next_message_id : option UUID;
}.

Module SearchMessages.
Definition handle `{TextSearch} (q : text) (chat_id : option UUID) (limit : Z) (last_message_id : option UUID)
  (j : UserJWTData) : M MessageSearchDTO :=
  let user_id := jwt_id j in
  let limit := clamp chat_config.MESSAGE_SEARCH_MAX_LIMIT limit in
  match terms_from [] (casefold q) with
  | [] => mret (MkMessageSearch false [] None)
  | terms =>
    let terms := take chat_config.MESSAGE_SEARCH_MAX_TERMS terms in
    rows ← search_visible user_id (prefix_query terms) limit chat_id last_message_id;
    let page := page_of limit rows in
    items ← query (λ s, (λ r, (load_found s r.1, search_chat r.2)) <$> page.1);
    hidden ← hidden_holders user_id ((λ i, node_profile (dto_node i.1)) <$> items);
    mret (MkMessageSearch page.2 ((λ i, (dto_map (hide_in_node hidden) i.1, i.2)) <$> items)
            (next_of (Message.id ∘ fst) page))
  end.
End SearchMessages.

(** ** Pinned messages *)
Record PinnedMessageDTO : Type := MkPinnedMessage {
  pm_message : MessageDTO;
  pm_pinned_by : Z;
  pm_pinned_at : datetime;
}.
Record PinnedMessagesDTO : Type := MkPinnedMessages {
  pms_items : list PinnedMessageDTO;
  pms_total : Z;
  pms_has_next : bool;
  pms_next_cursor : option Z;
}.

Definition pin_seq_ge (a b : ChatPinnedMessage.t * Message.t) : Prop :=
  ChatPinnedMessage.message_seq b.1 ≤ ChatPinnedMessage.message_seq a.1.
#[export] Instance pin_seq_ge_dec : RelDecision pin_seq_ge.
Proof. intros a b. unfold pin_seq_ge. apply _. Defined.

(** the pins of a chat joined with their live messages *)
Definition pinned_in (s : store) (chat_id : UUID) : list (ChatPinnedMessage.t * Message.t) :=
  omap (λ '((c, i), p), if c =? chat_id then pair p <$> MessageRepository.live_message s i else None)
    (map_to_list (pins s)).

Definition get_pinned_page (chat_id : UUID) (limit : nat) (before_seq : option Z)
  : M (list (ChatPinnedMessage.t * MessageDTO)) := query (λ s,
  (λ r, (r.1, load_message s r.2)) <$> take (S limit) (merge_sort pin_seq_ge
    (filter (λ r, match before_seq with Some c => ChatPinnedMessage.message_seq r.1 <? c | None => true end = true)
       (pinned_in s chat_id)))).

Module GetPinnedMessages.
Definition handle (chat_id : UUID) (limit : Z) (before_seq : option Z) (j : UserJWTData) : M PinnedMessagesDTO :=
  let user_id := jwt_id j in
  _ ← ensure_reader chat_id user_id;
  let limit := clamp chat_config.PINNED_MESSAGES_MAX_PAGE_SIZE limit in
  rows ← get_pinned_page chat_id limit before_seq;
  let page := page_of limit rows in
  dtos ← present user_id page.1.*2;
  total ← ChatPinnedMessageRepository.count chat_id;
  mret (MkPinnedMessages
          (zip_with (λ r d, MkPinnedMessage d (ChatPinnedMessage.pinned_by r.1) (ChatPinnedMessage.pinned_at r.1))
             page.1 dtos)
          total page.2 (next_of (ChatPinnedMessage.message_seq ∘ fst) page)).
End GetPinnedMessages.

(** ** Reactions of a message *)
Record MessageReactionsDTO : Type := MkMessageReactions {
  mr_groups : list ReactionGroupDTO;
  mr_users : list Z;
  mr_has_next : bool;
  mr_next_user_id : option Z;
}.

Module GetMessageReactions.
Definition handle (chat_id message_id : UUID) (emoji : option text) (limit : Z) (cursor_user_id : option Z)
  (j : UserJWTData) : M MessageReactionsDTO :=
  let user_id := jwt_id j in
  _ ← ensure_reader chat_id user_id;
  _ ← message_in_chat chat_id message_id;
  state ← MessageReactionRepository.get_reaction_state_for_messages [message_id] user_id;
  let groups := group_dtos (list_to_map (M := gmap UUID MessageReactionState) state !! message_id) in
  match emoji with
  | None => mret (MkMessageReactions groups [] false None)
  | Some e =>
    let limit := clamp 100 limit in
    rows ← MessageReactionRepository.get_users_by_emoji message_id e limit cursor_user_id;
    let page := page_of limit rows in
    mret (MkMessageReactions groups page.1 page.2 (next_of id page))
  end.
End GetMessageReactions.

(** ** Shared media *)
Inductive SharedMediaType : Type :=
| SM_PHOTO | SM_VIDEO | SM_MEDIA | SM_FILE | SM_VOICE | SM_LINK.

Definition SHARED_MEDIA_ATTACHMENT_TYPES (t : SharedMediaType) : list AttachmentType :=
  match t with
  | SM_PHOTO => [ATT_IMAGE]
  | SM_VIDEO => [ATT_VIDEO]
  | SM_MEDIA => [ATT_IMAGE; ATT_VIDEO]
  | SM_FILE => [ATT_FILE]
  | SM_VOICE => [ATT_VOICE; ATT_VIDEO_NOTE]
  | SM_LINK => []
  end.

(** [int(raw_seq), UUID(raw_id) if raw_id else ZERO_UUID] of a cursor; either
    may raise [ValueError] *)
Definition parse_cursor (cursor : option text) : result error (option (Z * UUID)) :=
  match cursor with
  | None => Ok None
  | Some c =>
    let '(raw_seq, _, raw_id) := partition colon c in
    seq ← from_option Ok (Err ValueError) (py_int raw_seq);
    i ← match raw_id with [] => Ok 0 | _ => from_option Ok (Err ValueError) (parse_uuid raw_id) end;
    Ok (Some (seq, i))
  end.
(** [f"{last.message_seq}:{last.id}"] *)
Definition media_cursor (k : Z * UUID) : text := str_int k.1 ++ colon :: str_uuid k.2.

Definition media_row : Type := MessageAttachment.t * Message.t.
(** [(row[0].message_seq or 0, row[0].id)] *)
Definition media_key (r : media_row) : Z * UUID :=
  (default 0 (MessageAttachment.message_seq r.1), MessageAttachment.id r.1).
Definition key_below (k1 k2 : Z * UUID) : bool := (k1.1 <? k2.1) || ((k1.1 =? k2.1) && (k1.2 <? k2.2)).
Definition media_ge (a b : media_row) : Prop := key_below (media_key a) (media_key b) = false.
#[export] Instance media_ge_dec : RelDecision media_ge.
Proof. intros a b. unfold media_ge. apply _. Defined.

(** the rows of one attachment type: processed, of a live message of the chat *)
Definition media_in (s : store) (chat_id : UUID) (t : AttachmentType) : list media_row :=
  omap (λ a,
    m ← (i ← MessageAttachment.message_id a; MessageRepository.live_message s i);
    if (MessageAttachment.chat_id a =? chat_id) && (Message.chat_id m =? chat_id)
       && bool_decide (MessageAttachment.attachment_type a = t)
       && is_some (MessageAttachment.message_seq a)
       && bool_decide (MessageAttachment.attachment_status a = SUCCESS)
    then Some (a, m) else None) (map_to_list (attachments s)).*2.

Definition before_media (before : option (Z * UUID)) (r : media_row) : bool :=
  match before with Some k => key_below (media_key r) k | None => true end.

(** one statement per type, each with the limit; their rows sorted together *)
Definition get_shared_media_page (chat_id : UUID) (types : list AttachmentType) (limit : nat)
  (before : option (Z * UUID)) : M (list media_row) := query (λ s,
  take limit (merge_sort media_ge (t ← fromkeys types;
    take limit (merge_sort media_ge (filter (λ r, before_media before r = true) (media_in s chat_id t)))))).

Definition get_link_messages_page (chat_id : UUID) (limit : nat) (before : option Z) : M (list Message.t) :=
  query (λ s, take limit (merge_sort message_seq_ge
    (filter (λ m, Message.has_links m = true ∧ before_seq before m = true) (live_in s chat_id)))).

Record SharedMediaDTO : Type := MkSharedMedia {
  sm_items : list (Message.t * option MessageAttachment.t);
  sm_has_next : bool;
  sm_next_cursor : option text;
}.

Module GetSharedMedia.
Definition handle (chat_id : UUID) (media_type : SharedMediaType) (limit : Z) (cursor : option text)
  (j : UserJWTData) : M SharedMediaDTO :=
  let user_id := jwt_id j in
  _ ← ensure_reader chat_id user_id;
  let limit := clamp chat_config.SHARED_MEDIA_MAX_PAGE_SIZE limit in
  before ← lift (parse_cursor cursor);
  match media_type with
  | SM_LINK =>
    rows ← get_link_messages_page chat_id (S limit) (fst <$> before);
    let page := page_of limit rows in
    mret (MkSharedMedia ((λ m, (m, None)) <$> page.1) page.2 (next_of (str_int ∘ Message.seq) page))
  | _ =>
    rows ← get_shared_media_page chat_id (SHARED_MEDIA_ATTACHMENT_TYPES media_type) (S limit) before;
    let page := page_of limit rows in
    mret (MkSharedMedia ((λ r, (r.2, Some r.1)) <$> page.1) page.2 (next_of (media_cursor ∘ media_key) page))
  end.
End GetSharedMedia.

(** The attachment a download url is made for. There is no test of
    [member.is_banned] here. *)
Module GetAttachmentDownloadUrl.
Definition handle (chat_id message_id attachment_id : UUID) (j : UserJWTData) : M MessageAttachment.t :=
  let user_id := jwt_id j in
  member ← ChatRepository.get_member_chat chat_id user_id;
  _ ← guard_not (is_none member) (NotChatMemberError chat_id user_id);
  a ← AttachmentRepository.get_by_id attachment_id;
  match a with
  | Some a =>
    if bool_decide (MessageAttachment.message_id a = Some message_id) && (MessageAttachment.chat_id a =? chat_id)
    then mret a else raise (AttachmentNotFoundError (str_uuid attachment_id))
  | None => raise (AttachmentNotFoundError (str_uuid attachment_id))
  end.
End GetAttachmentDownloadUrl.
