(* ===== verification/ChatQueries.v ===== *)
(** The chat list, a chat's page, its members, the public catalogue, invite
    links and join requests as a client reads them: the queries of
    [app/chats/queries/chats], [invites] and [join_requests], the statements of
    the repositories behind them and their DTOs. Presigned URLs and the
    [last_read_at] of a cursor are left out. *)
From S2P Require Import Prelude Config Events MemberModel InviteModel MessageModel ChatModel PrivacyModel Store Wp Rbac Access ChatRepo PrivacyService InviteRepo MessageRepo ReadReceipts WsModel MessageQueries.

(** a list comprehension whose items read the clock *)
Fixpoint for_all {A B} (f : A → M B) (l : list A) : M (list B) :=
  match l with
  | [] => mret []
  | x :: l' => y ← f x; ys ← for_all f l'; mret (y :: ys)
  end.

(** ** Members *)
Record MemberChatDTO : Type := MkMemberChat {
  mc_user_id : Z;
  mc_role_id : ChatRoleId;
  mc_is_muted : bool;
  mc_is_banned : bool;
  mc_muted_until : option datetime;
  mc_banned_until : option datetime;
  mc_permissions_overrides : gmap string bool;
  mc_profile : option ChatProfileDTO;
}.
#[export] Instance MemberChatDTO_settable : Settable MemberChatDTO := λ m,
  MkMemberChat (mc_user_id m) (mc_role_id m) (mc_is_muted m) (mc_is_banned m) (mc_muted_until m)
    (mc_banned_until m) (mc_permissions_overrides m) (mc_profile m).

(** [MemberChatDTO.model_validate(member)] with the relationship [profile] loaded *)
Definition member_dto (m : ChatMember.t * option ChatUserProfile.t) : M MemberChatDTO :=
  n1 ← now_utc; n2 ← now_utc;
  mret (MkMemberChat (ChatMember.user_id m.1) (ChatMember.role_id m.1) (ChatMember.is_muted n1 m.1)
          (ChatMember.is_banned n2 m.1) (ChatMember.muted_until m.1) (ChatMember.banned_until m.1)
          (ChatMember.permissions_overrides m.1) (chat_profile_dto <$> m.2)).

Definition member_id_le (a b : ChatMember.t) : Prop := ChatMember.user_id a ≤ ChatMember.user_id b.
#[export] Instance member_id_le_dec : RelDecision member_id_le.
Proof. intros a b. unfold member_id_le. apply _. Defined.

(** the unbanned members of a chat *)
Definition active_members (s : store) (now : datetime) (chat_id : UUID) : list ChatMember.t :=
  filter (λ m, ChatMember.is_banned now m = false)
    (snd <$> filter (λ kv, kv.1.1 = chat_id) (map_to_list (members s))).

(** one row more than [limit] *)
Definition get_chat_members (chat_id : UUID) (limit : nat) (cursor_user_id : option Z)
  : M (list (ChatMember.t * option ChatUserProfile.t)) :=
  now ← now_utc;
  query (λ s, (λ m, (m, profiles s !! ChatMember.user_id m)) <$>
    take (S limit) (merge_sort member_id_le
      (filter (λ m, match cursor_user_id with Some c => c <? ChatMember.user_id m | None => true end = true)
         (active_members s now chat_id)))).

Record ListMembers : Type := MkListMembers {
  lm_members : list MemberChatDTO;
  lm_has_next : bool;
  lm_next_user_id : option Z;
  lm_presence : list (Z * bool);
}.

Module GetChatMembers.
(** [r] is what Redis holds of the presence of users *)
Definition presence (r : redis) (include_presence : bool) (requester_id : Z) (user_ids : list Z) : M (list (Z * bool)) :=
  if include_presence && negb (bool_decide (user_ids = [])) then
    hidden_presence ← ChatPrivacyService.hidden_presence requester_id user_ids;
    now ← now_utc;
    mret ((λ ub : Z * bool, (ub.1, ub.2 && negb (bool_decide (ub.1 ∈ hidden_presence)))) <$>
            PresenceService.get_online_status now user_ids r)
  else mret [].

Definition handle (r : redis) (chat_id : UUID) (limit : Z) (cursor_user_id : option Z) (include_presence : bool)
  (j : UserJWTData) : M ListMembers :=
  let requester_id := jwt_id j in
  _ ← live_chat chat_id;
  _ ← ensure_reader chat_id requester_id;
  let limit := clamp 30 limit in
  rows ← get_chat_members chat_id limit cursor_user_id;
  let page := page_of limit rows in
  let user_ids := (λ m, ChatMember.user_id m.1) <$> page.1 in
  hidden ← ChatPrivacyService.hidden_photos requester_id user_ids;
  online ← presence r include_presence requester_id user_ids;
  dtos ← for_all member_dto page.1;
  mret (MkListMembers ((λ d, d <| mc_profile ::= fmap (strip_avatars hidden) |>) <$> dtos) page.2
          (next_of (ChatMember.user_id ∘ fst) page) online).
End GetChatMembers.

(** ** One chat *)
Record ChatDetailDTO : Type := MkChatDetail {
  det_chat : Chat.t;
  det_reactions_mode : ChatReactionsMode;
  det_allowed_reactions : list text;
  det_members : list MemberChatDTO;
}.

Module GetChatDetail.
(** [reactions_mode] and [allowed_reactions] are not passed: the DTO has their
    defaults. The other fields of the DTO are the columns of [det_chat]. *)
Definition handle (chat_id : UUID) (j : UserJWTData) : M ChatDetailDTO :=
  let user_id := jwt_id j in
  chat ← live_chat chat_id;
  _ ← ensure_reader chat_id user_id;
  rows ← get_chat_members (Chat.id chat) 10 None;
  dtos ← for_all member_dto rows;
  hidden ← hidden_holders user_id (mc_profile <$> dtos);
  mret (MkChatDetail chat ALL []
          ((λ d, d <| mc_profile ::= fmap (hide_avatar hidden) |>) <$> dtos)).
End GetChatDetail.

(** ** The list of a user's chats *)
Record ChatDTO : Type := MkChatDTO {
  cd_chat : Chat.t;
  cd_join_by_request : bool;
  cd_reactions_mode : ChatReactionsMode;
  cd_allowed_reactions : list text;
  cd_unread_count : Z;
  cd_me : MemberChatDTO;
  cd_last_read : option Z;
  cd_last_message : option MessageDTO;
  cd_peer : option ChatProfileDTO;
  cd_members_preview : list ChatProfileDTO;
  cd_is_pinned : bool;
  cd_pinned_at : option datetime;
  cd_is_archived : bool;
  cd_notifications_muted_until : option datetime;
  cd_is_muted_by_me : bool;
  cd_draft : option text;
}.
#[export] Instance ChatDTO_settable : Settable ChatDTO := λ d,
  MkChatDTO (cd_chat d) (cd_join_by_request d) (cd_reactions_mode d) (cd_allowed_reactions d) (cd_unread_count d)
    (cd_me d) (cd_last_read d) (cd_last_message d) (cd_peer d) (cd_members_preview d) (cd_is_pinned d)
    (cd_pinned_at d) (cd_is_archived d) (cd_notifications_muted_until d) (cd_is_muted_by_me d) (cd_draft d).

Definition chat_profiles (d : ChatDTO) : list (option ChatProfileDTO) :=
  mc_profile (cd_me d) :: match cd_last_message d with Some m => [node_profile (dto_node m)] | None => [] end
  ++ cd_peer d :: (Some <$> cd_members_preview d).
Definition hide_in_chat (hidden : gset Z) (d : ChatDTO) : ChatDTO :=
  d <| cd_me ::= (λ m, m <| mc_profile ::= fmap (hide_avatar hidden) |>) |>
    <| cd_last_message ::= fmap (dto_map (hide_in_node hidden)) |>
    <| cd_peer ::= fmap (hide_avatar hidden) |>
    <| cd_members_preview ::= fmap (hide_avatar hidden) |>.

(** a row of [_user_chats_stmt] *)
Record UserChatRow : Type := MkUserChat {
  uc_chat : Chat.t;
  uc_member : ChatMember.t;
  uc_read : option ReadReceipt.t;
  uc_message : option Message.t;
}.

(** the outer join on [seq = seq_counter] of a live message *)
Definition latest_messages (s : store) (c : Chat.t) : list (option Message.t) :=
  match filter (λ m, Message.seq m = Chat.seq_counter c) (live_in s (Chat.id c)) with
  | [] => [None]
  | l => Some <$> l
  end.

(** the rows of one membership: none, or one for each latest message *)
Definition member_chats (s : store) (now : datetime) (user_id : Z) (archived : bool) (kv : UUID * Z * ChatMember.t)
  : list UserChatRow :=
  let '((c, u), m) := kv in
  if (u =? user_id) && negb (ChatMember.is_banned now m) && Bool.eqb (ChatMember.is_archived m) archived then
    match chats s !! c with
    | Some chat =>
      if Chat.is_deleted chat then []
      else MkUserChat chat m (read_receipts s !! (c, u)) <$> latest_messages s chat
    | None => []
    end
  else [].
Definition user_chats (s : store) (now : datetime) (user_id : Z) (archived : bool) : list UserChatRow :=
  map_to_list (members s) ≫= member_chats s now user_id archived.

(** [ORDER BY last_activity_at DESC NULLS LAST, id DESC] *)
Definition chat_key (r : UserChatRow) : option datetime * UUID := (Chat.last_activity_at (uc_chat r), Chat.id (uc_chat r)).
Definition activity_ge (a b : UserChatRow) : Prop :=
  match chat_key a, chat_key b with
  | (Some x, i), (Some y, k) => y < x ∨ (x = y ∧ k ≤ i)
  | (Some _, _), (None, _) => True
  | (None, _), (Some _, _) => False
  | (None, i), (None, k) => k ≤ i
  end.
#[export] Instance activity_ge_dec : RelDecision activity_ge.
Proof. intros a b. unfold activity_ge. destruct (chat_key a) as [[] ], (chat_key b) as [[] ]; apply _. Defined.

(** the condition of a later page; [NULL < x] and [NULL = x] do not hold *)
Definition before_chat (last_activity_at : option datetime) (chat_id : option UUID) (r : UserChatRow) : bool :=
  match last_activity_at, chat_id with
  | Some x, Some i =>
    match chat_key r with
    | (Some y, k) => (y <? x) || ((y =? x) && (k <? i))
    | (None, _) => false
    end
  | _, _ => true
  end.

Definition get_chats (user_id : Z) (limit : nat) (last_activity_at : option datetime) (chat_id : option UUID)
  (archived : bool) : M (list UserChatRow) :=
  now ← now_utc;
  query (λ s, take (S limit) (merge_sort activity_ge
    (filter (λ r, ChatMember.is_pinned (uc_member r) = false ∧ before_chat last_activity_at chat_id r = true)
       (user_chats s now user_id archived)))).

Definition pinned_ge (a b : UserChatRow) : Prop :=
  default 0 (ChatMember.pinned_at (uc_member b)) ≤ default 0 (ChatMember.pinned_at (uc_member a)).
#[export] Instance pinned_ge_dec : RelDecision pinned_ge.
Proof. intros a b. unfold pinned_ge. apply _. Defined.

Definition get_pinned_chats (user_id : Z) (limit : nat) (archived : bool) : M (list UserChatRow) :=
  now ← now_utc;
  query (λ s, take limit (merge_sort pinned_ge
    (filter (λ r, ChatMember.is_pinned (uc_member r) = true) (user_chats s now user_id archived)))).

(** [_counterpart_profile] of a user and their row, when there is one *)
Definition _counterpart_profile (c : Z * option ChatUserProfile.t) : ChatProfileDTO :=
  match c.2 with Some p => chat_profile_dto p | None => MkChatProfileDTO c.1 None None None end.

(** the first [per_chat] other members, by id *)
Definition counterparts (s : store) (now : datetime) (user_id : Z) (per_chat : nat) (chat_id : UUID)
  : list (Z * option ChatUserProfile.t) :=
  (λ m, (ChatMember.user_id m, profiles s !! ChatMember.user_id m)) <$>
    take per_chat (merge_sort member_id_le
      (filter (λ m, ChatMember.user_id m ≠ user_id) (active_members s now chat_id))).

(** a chat without a counterpart has no key, which its [get(chat.id, [])] reads
    as no counterpart *)
Definition get_chat_counterparts (user_id : Z) (chat_ids : list UUID) (per_chat : nat)
  : M (gmap UUID (list (Z * option ChatUserProfile.t))) :=
  match chat_ids with
  | [] => mret ∅
  | _ => now ← now_utc;
         query (λ s, dict_of (λ c, Some (counterparts s now user_id per_chat c)) (list_to_set chat_ids))
  end.

Definition is_peer_type (t : ChatType) : bool := bool_decide (t = DIRECT).
Definition is_preview_type (t : ChatType) : bool := bool_decide (t ∈ [GROUP; SUPERGROUP]).

Definition _merge_read_cursor (stored : option ReadReceipt.t) (pending : option PendingReadCursor) : option Z :=
  let detail := ReadReceipt.last_read_message_seq <$> stored in
  match pending with
  | None => detail
  | Some p => match detail with
              | Some n => if cur_message_seq p <=? n then Some n else Some (cur_message_seq p)
              | None => Some (cur_message_seq p)
              end
  end.

(** the [ChatDTO] of a row *)
Definition chat_dto (pending : gmap UUID PendingReadCursor)
  (counterparts : gmap UUID (list (Z * option ChatUserProfile.t))) (s : store) (r : UserChatRow) : M ChatDTO :=
  let chat := uc_chat r in
  let member := uc_member r in
  let last_read := _merge_read_cursor (uc_read r) (pending !! Chat.id chat) in
  me ← member_dto (member, profiles s !! ChatMember.user_id member);
  let others := default [] (counterparts !! Chat.id chat) in
  now ← now_utc;
  mret (MkChatDTO chat false ALL []
    (match last_read with Some n => Z.max 0 (Chat.seq_counter chat - n) | None => Chat.seq_counter chat end)
    me last_read (load_found s <$> uc_message r)
    (if is_peer_type (Chat.type chat) then _counterpart_profile <$> head others else None)
    (if is_preview_type (Chat.type chat) then _counterpart_profile <$> others else [])
    (ChatMember.is_pinned member) (ChatMember.pinned_at member) (ChatMember.is_archived member)
    (ChatMember.notifications_muted_until member)
    (match ChatMember.notifications_muted_until member with Some t => now <? t | None => false end)
    (ChatMember.draft member)).

Record ListChats : Type := MkListChats {
  lc_has_next : bool;
  lc_chats : list ChatDTO;
  lc_next_date : option datetime;
  lc_next_chat_id : option UUID;
}.

Module GetListChatUser.
(** [join_by_request], [reactions_mode] and [allowed_reactions] are not passed
    to the DTO either *)
Definition handle (limit : Z) (last_chat_id : option UUID) (last_activity_at : option datetime) (archived : bool)
  (j : UserJWTData) : M ListChats :=
  let limit := clamp 100 limit in
  let user_id := jwt_id j in
  let is_first_page := is_none last_activity_at || is_none last_chat_id in
  rows ← get_chats user_id limit last_activity_at last_chat_id archived;
  let page := page_of limit rows in
  pinned ← if is_first_page then get_pinned_chats user_id (Z.to_nat chat_config.MAX_PINNED_CHATS) archived
           else mret [];
  let listed := pinned ++ page.1 in
  pending ← ReadReceiptCoalesceQueue.peek_many user_id ((λ r, Chat.id (uc_chat r)) <$> listed);
  counterparts ← get_chat_counterparts user_id
    ((λ r, Chat.id (uc_chat r)) <$>
       filter (λ r, is_peer_type (Chat.type (uc_chat r)) || is_preview_type (Chat.type (uc_chat r)) = true) listed)
    chat_config.CHAT_MEMBERS_PREVIEW_LIMIT;
  s ← query id;
  dtos ← for_all (chat_dto pending counterparts s) listed;
  hidden ← hidden_holders user_id (d ← dtos; chat_profiles d);
  mret (MkListChats page.2 (hide_in_chat hidden <$> dtos)
          (next_of (Chat.last_activity_at ∘ uc_chat) page ≫= id) (next_of (Chat.id ∘ uc_chat) page)).
End GetListChatUser.

(** ** The public catalogue *)
Record ChatPreviewDTO : Type := MkChatPreview {
  cp_chat : Chat.t;
  cp_is_member : bool;
}.

Definition is_member_of (user_id : Z) (chat_id : UUID) : M bool :=
  member_of ← ChatRepository.member_chat_ids user_id [chat_id];
  mret (bool_decide (chat_id ∈ member_of)).

Definition at_char : Z := 64.
Module GetChatByUsername.
Definition handle (username : text) (j : UserJWTData) : M ChatPreviewDTO :=
  let name := removeprefix at_char (strip username) in
  chat ← match name with [] => mret None | _ => ChatRepository.get_by_username name end;
  match chat with
  | Some c =>
    if Chat.is_public c then
      member ← is_member_of (jwt_id j) (Chat.id c);
      mret (MkChatPreview c member)
    else raise (NotFoundChatUsernameError username)
  | None => raise (NotFoundChatUsernameError username)
  end.
End GetChatByUsername.

(** SQL's [LIKE ... ESCAPE '\']: [%] stands for any text, [_] for any
    character *)
Definition percent : Z := 37.
Definition underscore : Z := 95.
Definition backslash : Z := 92.
Fixpoint like (p : text) : text → bool :=
  match p with
  | [] => λ s, bool_decide (s = [])
  | c :: p' =>
    if c =? backslash then
      match p' with
      | d :: p'' => λ s, match s with x :: s' => (x =? d) && like p'' s' | [] => false end
      | [] => λ _, false
      end
    else if c =? percent then
      fix any s := like p' s || match s with _ :: s' => any s' | [] => false end
    else λ s, match s with x :: s' => ((c =? underscore) || (x =? c)) && like p' s' | [] => false end
  end.
(** the three [replace] calls *)
Definition escape_like (p : text) : text :=
  c ← p; if bool_decide (c ∈ [backslash; percent; underscore]) then [backslash; c] else [c].

Definition username_char (c : Z) : bool :=
  ((97 <=? c) && (c <=? 122)) || ((48 <=? c) && (c <=? 57)) || (c =? underscore).

(** [(lower(username) = exact) DESC NULLS LAST, member_count DESC, id DESC] *)
Definition exactness (exact_username : option text) (c : Chat.t) : Z :=
  match exact_username with
  | Some u => match lower <$> Chat.username c with
              | Some v => if bool_decide (v = u) then 2 else 1
              | None => 0
              end
  | None => 0
  end.
Definition public_ge (exact_username : option text) (a b : Chat.t) : Prop :=
  exactness exact_username b < exactness exact_username a
  ∨ (exactness exact_username a = exactness exact_username b
     ∧ (Chat.member_count b < Chat.member_count a
        ∨ (Chat.member_count a = Chat.member_count b ∧ Chat.id b ≤ Chat.id a))).
#[export] Instance public_ge_dec u : RelDecision (public_ge u).
Proof. intros a b. unfold public_ge. apply _. Defined.

Definition matches_public `{TextSearch} (username_prefix tsquery : option text) (c : Chat.t) : bool :=
  match username_prefix, Chat.username c with
  | Some p, Some u => like (escape_like p ++ [percent]) (lower u)
  | _, _ => false
  end
  || match tsquery with Some q => ts_match (default [] (Chat.name c)) q | None => false end.

Definition search_public `{TextSearch} (username_prefix tsquery exact_username : option text) (limit : nat)
  : M (list Chat.t) :=
  if is_none username_prefix && is_none tsquery then mret []
  else query (λ s, take limit (merge_sort (public_ge exact_username)
    (filter (λ c, Chat.is_public c = true ∧ Chat.is_deleted c = false ∧ Chat.type c ∈ [GROUP; SUPERGROUP; CHANNEL]
                  ∧ matches_public username_prefix tsquery c = true) (map_to_list (chats s)).*2))).

Module SearchPublicChats.
Definition handle `{TextSearch} (q : text) (limit : Z) (j : UserJWTData) : M (list ChatPreviewDTO) :=
  let limit := clamp chat_config.PUBLIC_CHAT_SEARCH_MAX_LIMIT limit in
  let by_username_only := bool_decide (head (strip q) = Some at_char) in
  let normalized := casefold (removeprefix at_char (strip q)) in
  let username_prefix :=
    if negb (bool_decide (normalized = [])) && forallb username_char normalized then Some normalized else None in
  let tsquery := if by_username_only then None
                 else match take chat_config.PUBLIC_CHAT_SEARCH_MAX_TERMS (terms_from [] normalized) with
                      | [] => None
                      | terms => Some (prefix_query terms)
                      end in
  chats ← search_public username_prefix tsquery username_prefix limit;
  match chats with
  | [] => mret []
  | _ =>
    member_of ← ChatRepository.member_chat_ids (jwt_id j) (Chat.id <$> chats);
    mret ((λ c, MkChatPreview c (bool_decide (Chat.id c ∈ member_of))) <$> chats)
  end.
End SearchPublicChats.

(** ** Invite links *)

(** the guard of the lists of links and of requests *)
Definition ensure_can_invite (chat_id : UUID) (j : UserJWTData) : M unit :=
  member ← ChatRepository.get_member_chat chat_id (jwt_id j);
  n1 ← now_utc; n2 ← now_utc;
  guard_not (negb (ChatAccessService.has_permissions n1 n2 j member ["member:invite"%string]))
    (AccessDeniedChatError chat_id (jwt_id j)).

Record ChatInviteLinkDTO : Type := MkInviteDTO {
  il_link : ChatInviteLink.t;
  il_is_revoked : bool;
  il_is_expired : bool;
  il_is_active : bool;
}.
Definition invite_dto (i : ChatInviteLink.t) : M ChatInviteLinkDTO :=
  n1 ← now_utc; n2 ← now_utc;
  mret (MkInviteDTO i (ChatInviteLink.is_revoked i) (ChatInviteLink.is_expired n1 i) (ChatInviteLink.is_active n2 i)).

Definition invite_ge (a b : ChatInviteLink.t) : Prop := ChatInviteLink.id b ≤ ChatInviteLink.id a.
#[export] Instance invite_ge_dec : RelDecision invite_ge.
Proof. intros a b. unfold invite_ge. apply _. Defined.

Definition list_page (chat_id : UUID) (limit : nat) (last_invite_id : option UUID) : M (list ChatInviteLink.t) :=
  query (λ s, take (S limit) (merge_sort invite_ge
    (filter (λ i, ChatInviteLink.chat_id i = chat_id
                  ∧ match last_invite_id with Some c => ChatInviteLink.id i <? c | None => true end = true)
       (map_to_list (invites s)).*2))).

Record ListInviteLinks : Type := MkListInvites {
  li_invites : list ChatInviteLinkDTO;
  li_has_next : bool;
  li_next_invite_id : option UUID;
}.

Module GetInviteLinks.
Definition handle (chat_id : UUID) (limit : Z) (last_invite_id : option UUID) (j : UserJWTData) : M ListInviteLinks :=
  _ ← ensure_can_invite chat_id j;
  let limit := clamp chat_config.INVITE_LINKS_MAX_PAGE_SIZE limit in
  rows ← list_page chat_id limit last_invite_id;
  let page := page_of limit rows in
  dtos ← for_all invite_dto page.1;
  mret (MkListInvites dtos page.2 (next_of ChatInviteLink.id page)).
End GetInviteLinks.

Record ChatInvitePreviewDTO : Type := MkInvitePreview {
  ip_chat : ChatPreviewDTO;
  ip_expires_at : option datetime;
  ip_creates_join_request : bool;
  ip_join_request_status : option JoinRequestStatus;
}.

Module GetInvitePreview.
Definition handle (code : text) (j : UserJWTData) : M ChatInvitePreviewDTO :=
  invite ← ChatInviteLinkRepository.get_by_code code;
  invite ← or_raise invite (NotFoundInviteLinkError code);
  now ← now_utc;
  match ChatInviteLink.inactive_reason now invite with
  | Some reason => raise (InviteLinkExpiredError reason)
  | None =>
    chat ← ChatRepository.get_by_id (ChatInviteLink.chat_id invite);
    match chat with
    | Some c =>
      if bool_decide (Chat.type c = DIRECT) then raise (NotFoundInviteLinkError code)
      else
        let user_id := jwt_id j in
        member ← is_member_of user_id (Chat.id c);
        request ← if ChatInviteLink.creates_join_request invite && negb member
                  then ChatJoinRequestRepository.get (Chat.id c) user_id else mret None;
        mret (MkInvitePreview (MkChatPreview c member) (ChatInviteLink.expires_at invite)
                (ChatInviteLink.creates_join_request invite) (ChatJoinRequest.status <$> request))
    | None => raise (NotFoundInviteLinkError code)
    end
  end.
End GetInvitePreview.

(** ** Join requests *)
Definition request_key (r : ChatJoinRequest.t) : Z * Z := (ChatJoinRequest.requested_at r, ChatJoinRequest.user_id r).
Definition request_ge (a b : ChatJoinRequest.t) : Prop := key_below (request_key a) (request_key b) = false.
#[export] Instance request_ge_dec : RelDecision request_ge.
Proof. intros a b. unfold request_ge. apply _. Defined.

Definition before_request (last_requested_at : option datetime) (last_user_id : option Z) (r : ChatJoinRequest.t) : bool :=
  match last_requested_at, last_user_id with
  | Some t, Some u => key_below (request_key r) (t, u)
  | _, _ => true
  end.
Definition list_pending (chat_id : UUID) (limit : nat) (last_requested_at : option datetime) (last_user_id : option Z)
  : M (list (ChatJoinRequest.t * option ChatUserProfile.t)) := query (λ s,
  (λ r, (r, profiles s !! ChatJoinRequest.user_id r)) <$>
    take (S limit) (merge_sort request_ge
      (filter (λ r, ChatJoinRequestRepository.pending_in chat_id r = true
                    ∧ before_request last_requested_at last_user_id r = true)
         (map_to_list (join_requests s)).*2))).

Record ListJoinRequests : Type := MkListRequests {
  lr_requests : list (ChatJoinRequest.t * ChatProfileDTO);
  lr_total : Z;
  lr_has_next : bool;
  lr_next_requested_at : option datetime;
  lr_next_user_id : option Z;
}.

Module GetJoinRequests.
Definition handle (chat_id : UUID) (limit : Z) (last_requested_at : option datetime) (last_user_id : option Z)
  (j : UserJWTData) : M ListJoinRequests :=
  _ ← ensure_can_invite chat_id j;
  let limit := clamp chat_config.JOIN_REQUESTS_MAX_PAGE_SIZE limit in
  rows ← list_pending chat_id limit last_requested_at last_user_id;
  let page := page_of limit rows in
  let requests := (λ r, (r.1, _counterpart_profile (ChatJoinRequest.user_id r.1, r.2))) <$> page.1 in
  hidden ← hidden_holders (jwt_id j) ((λ r, Some r.2) <$> requests);
  total ← ChatJoinRequestRepository.count_pending chat_id;
  mret (MkListRequests ((λ r, (r.1, hide_avatar hidden r.2)) <$> requests) total page.2
          (next_of (ChatJoinRequest.requested_at ∘ fst) page) (next_of (ChatJoinRequest.user_id ∘ fst) page)).
End GetJoinRequests.
