(* ===== verification/Gateway.v ===== *)
(** The connections of one gateway process
    ([app/core/websocket/manager.py], [ConnectionManager]).

    The body of each [async with self._lock] block and each Redis pipeline is
    one definition, and a method is their composition; tasks a method starts
    ([asyncio.create_task]) are returned. TTLs of keys are left to the
    environment: a key may vanish between two steps. *)
From S2P Require Import Prelude Config Events WsModel.

(** [self.unregister(conn, close_code=...)] to run later *)
Record unregister_task : Type := MkUnregister {
  ut_connection_id : text;
  ut_close_code : Z;
}.

Module ConnectionManager.

(** [objects] are the connection objects this process holds, by their
    [connection_id]; [connections_by_id] is the key set of the dict. *)
Record t : Type := Mk {
  gateway_id : text;
  objects : gmap text WSConnection.t;
  connections_by_id : gset text;
  connections_by_user : gmap Z (gset text);
}.
#[global] Instance settable : Settable t := λ m,
  Mk (gateway_id m) (objects m) (connections_by_id m) (connections_by_user m).

Definition stream_key (m : t) : text := WebsocketKeys.gateway_stream_key (gateway_id m).

Definition user_conns (m : t) (user_id : Z) : gset text :=
  default ∅ (connections_by_user m !! user_id).

(** the registered connections among some ids *)
Definition registered (m : t) (ids : list text) : list WSConnection.t :=
  omap (λ cid, if bool_decide (cid ∈ connections_by_id m) then objects m !! cid else None) ids.

Definition connected_le (a b : WSConnection.t) : Prop :=
  WSConnection.connected_at a ≤ WSConnection.connected_at b.
#[global] Instance connected_le_dec : RelDecision connected_le.
Proof. intros a b. unfold connected_le. apply _. Defined.

(** ** Registering *)

(** the locked block of [register]: the manager, whether the connection is its
    user's first here, and the connections over the limit, oldest first *)
Definition register_locked (conn : WSConnection.t) (m : t) : t * bool * list WSConnection.t :=
  let conn := conn <| WSConnection.gateway_id := gateway_id m |> in
  let cid := WSConnection.connection_id conn in
  let ids := {[ cid ]} ∪ user_conns m (WSConnection.user_id conn) in
  let m := m <| objects ::= <[cid := conn]> |> <| connections_by_id ::= ({[ cid ]} ∪.) |>
             <| connections_by_user ::= <[WSConnection.user_id conn := ids]> |> in
  let overflow := Z.of_nat (size ids) - app_config.WS_MAX_CONNECTIONS_PER_USER in
  (m, Z.of_nat (size ids) =? 1,
   if 0 <? overflow
   then take (Z.to_nat overflow) (merge_sort connected_le (registered m (elements ids)))
   else []).

(** The value of a connection's key is never read; its user stands for it. *)
Definition set_route_users (m : t) (conn : WSConnection.t) (r : redis) : redis :=
  let cid := WSConnection.connection_id conn in
  let uid := WSConnection.user_id conn in
  SET (WebsocketKeys.connection_key cid) (str_int uid)
    (SADD (WebsocketKeys.gateway_route_key (gateway_id m)) cid
       (SADD (WebsocketKeys.user_route_key uid) (user_route (gateway_id m) cid) r)).

Definition register (now : datetime) (conn : WSConnection.t) (m : t) (r : redis)
  : t * redis * list unregister_task :=
  let '(m, is_first_local_connection, stale_to_close) := register_locked conn m in
  let r := set_route_users m conn r in
  let r := if is_first_local_connection
           then PresenceService.set_online now (WSConnection.user_id conn) r else r in
  (m, r, (λ stale, MkUnregister (WSConnection.connection_id stale) 1012) <$>
           filter (λ stale, WSConnection.connection_id stale ≠ WSConnection.connection_id conn)
             stale_to_close).

(** ** Unregistering *)

(** the locked block of [unregister]: the manager and the channels the
    connection was subscribed to *)
Definition unregister_locked (conn : WSConnection.t) (m : t) : t * gset text :=
  let cid := WSConnection.connection_id conn in
  let uid := WSConnection.user_id conn in
  let m := m <| connections_by_id ::= (λ s, s ∖ {[ cid ]}) |> in
  let m := match connections_by_user m !! uid with
           | Some ids =>
             let ids := ids ∖ {[ cid ]} in
             m <| connections_by_user ::=
               (if bool_decide (ids = ∅) then delete uid else <[uid := ids]>) |>
           | None => m
           end in
  (m <| objects ::= alter (λ c, c <| WSConnection.subscriptions := ∅ |>) cid |>,
   WSConnection.subscriptions conn).

Definition drop_subscription (gateway_id : text) (conn : WSConnection.t) (channel : text) (r : redis) : redis :=
  let cid := WSConnection.connection_id conn in
  DEL (WebsocketKeys.connection_subscription_key cid channel)
    (SREM (WebsocketKeys.active_subscription_key channel)
       (WebsocketKeys.active_subscription_route (WSConnection.user_id conn) gateway_id cid) r).

Definition drop_routes (m : t) (conn : WSConnection.t) (channels : gset text) (r : redis) : redis :=
  let cid := WSConnection.connection_id conn in
  let r := SREM (WebsocketKeys.user_route_key (WSConnection.user_id conn)) (user_route (gateway_id m) cid) r in
  let r := SREM (WebsocketKeys.gateway_route_key (gateway_id m)) cid r in
  let r := DEL (WebsocketKeys.connection_key cid) r in
  foldl (λ r channel, drop_subscription (gateway_id m) conn channel r) r (elements channels).

Definition close_conn (cid : text) (code : Z) (m : t) : t :=
  m <| objects ::= alter (WSConnection.close code) cid |>.

Definition unregister (conn : WSConnection.t) (close_code : Z) (m : t) (r : redis) : t * redis :=
  let '(m, channels) := unregister_locked conn m in
  let r := drop_routes m conn channels r in
  (close_conn (WSConnection.connection_id conn) close_code m, r).

(** a task that was started, when it runs *)
Definition run_task (k : unregister_task) (mr : t * redis) : t * redis :=
  match objects mr.1 !! ut_connection_id k with
  | Some conn => unregister conn (ut_close_code k) mr.1 mr.2
  | None => mr
  end.

(** ** Subscriptions *)
Definition add_subscription (m : t) (conn : WSConnection.t) (channel : text) (r : redis) : redis :=
  let cid := WSConnection.connection_id conn in
  let route := WebsocketKeys.active_subscription_route (WSConnection.user_id conn) (gateway_id m) cid in
  SET (WebsocketKeys.connection_subscription_key cid channel) route
    (SADD (WebsocketKeys.active_subscription_key channel) route r).

Definition subscribe_channel (cid : text) (channel : text) (m : t) (r : redis) : t * redis :=
  match objects m !! cid with
  | Some conn =>
    (m <| objects ::= <[cid := conn <| WSConnection.subscriptions ::= ({[ channel ]} ∪.) |>]> |>,
     add_subscription m conn channel r)
  | None => (m, r)
  end.

Definition unsubscribe_channel (cid : text) (channel : text) (m : t) (r : redis) : t * redis :=
  match objects m !! cid with
  | Some conn =>
    (m <| objects ::= <[cid := conn <| WSConnection.subscriptions ::= (λ s, s ∖ {[ channel ]}) |>]> |>,
     drop_subscription (gateway_id m) conn channel r)
  | None => (m, r)
  end.

(** ** Sending *)

(** the connections of a delivery, chosen under the lock *)
Definition targets (d : DeliveryDTO) (m : t) : list WSConnection.t :=
  uid ← dv_recipients d;
  filter (λ conn, dv_require_subscription d = false ∨ dv_channel d ∈ WSConnection.subscriptions conn)
    (registered m (elements (user_conns m uid))).

(** [_send_or_unregister] *)
Definition _send_or_unregister (now : datetime) (d : DeliveryDTO) (cid : text) (m : t)
  : t * list unregister_task :=
  match objects m !! cid with
  | Some conn =>
    let '(sent, conn) := WSConnection.try_send now conn (frame_of d) in
    (m <| objects ::= <[cid := conn]> |>, if sent then [] else [MkUnregister cid 1013])
  | None => (m, [])
  end.

(** [_send_to_connections]; the batches of [gather] only bound how many sends
    are awaited at once *)
Fixpoint _send_to_connections (now : datetime) (d : DeliveryDTO) (cids : list text) (m : t)
  : t * list unregister_task :=
  match cids with
  | [] => (m, [])
  | cid :: rest =>
    let '(m, k) := _send_or_unregister now d cid m in
    let '(m, ks) := _send_to_connections now d rest m in
    (m, k ++ ks)
  end.

Definition send_to_users_local (now : datetime) (d : DeliveryDTO) (m : t) : t * list unregister_task :=
  _send_to_connections now d (WSConnection.connection_id <$> targets d m) m.

(** ** The gateway's stream *)

(** [_process_gateway_stream_entry]; [None] is the exception of a field that
    does not validate *)
Definition _process_gateway_stream_entry (now : datetime) (e : option DeliveryDTO) (m : t)
  : option (t * list unregister_task) :=
  d ← e;
  Some (match dv_expires_at d with
        | Some until => if until <=? now then (m, []) else send_to_users_local now d m
        | None => send_to_users_local now d m
        end).

(** [_process_entries]: the manager, the tasks and the ids to acknowledge *)
Fixpoint _process_entries (now : datetime) (entries : list (nat * option DeliveryDTO)) (m : t)
  : t * list unregister_task * list nat :=
  match entries with
  | [] => (m, [], [])
  | (i, e) :: rest =>
    match _process_gateway_stream_entry now e m with
    | Some (m, k) =>
      let '(m, ks, ids) := _process_entries now rest m in (m, k ++ ks, i :: ids)
    | None => _process_entries now rest m
    end
  end.

Definition stream_of (m : t) (r : redis) : Stream :=
  default empty_stream (rd_streams r !! stream_key m).

Definition with_stream (m : t) (s : Stream) (r : redis) : redis :=
  r <| rd_streams ::= <[stream_key m := s]> |>.

(** one read of [_consume_gateway_stream_loop] *)
Definition consume_once (now : datetime) (m : t) (r : redis) : t * redis * list unregister_task :=
  let '(entries, s) := XREADGROUP app_config.WS_GATEWAY_STREAM_READ_COUNT (stream_of m r) in
  let '(m', tasks, ids) := _process_entries now entries m in
  (m', with_stream m (XACK ids s) r, tasks).

(** [_claim_pending_entries]: [fuel] bounds the rounds *)
Fixpoint claim_rounds (fuel : nat) (idle : nat → bool) (now : datetime) (cursor : nat) (m : t) (s : Stream)
  : t * Stream * list unregister_task :=
  match fuel with
  | O => (m, s, [])
  | S fuel =>
    let '(next, entries) := XAUTOCLAIM idle cursor app_config.WS_GATEWAY_STREAM_CLAIM_COUNT s in
    let '(m, tasks, ids) := _process_entries now entries m in
    let s := XACK ids s in
    match next, entries with
    | O, _ | _, [] => (m, s, tasks)
    | _, _ => let '(m, s, tasks') := claim_rounds fuel idle now next m s in (m, s, tasks ++ tasks')
    end
  end.

Definition _claim_pending_entries (idle : nat → bool) (now : datetime) (m : t) (r : redis)
  : t * redis * list unregister_task :=
  let s := stream_of m r in
  let '(m', s, tasks) := claim_rounds (S (length (st_pending s))) idle now 0 m s in
  (m', with_stream m s r, tasks).

(** ** The refresh loop *)

(** the Redis half of a refresh, for one open connection *)
Definition refresh_conn (m : t) (conn : WSConnection.t) (r : redis) : redis :=
  foldl (λ r channel, add_subscription m conn channel r) (set_route_users m conn r)
    (elements (WSConnection.subscriptions conn)).

Definition all_connections (m : t) : list WSConnection.t := registered m (elements (connections_by_id m)).

Fixpoint refresh_all (conns : list WSConnection.t) (m : t) (r : redis) : t * redis :=
  match conns with
  | [] => (m, r)
  | conn :: rest =>
    if is_some (WSConnection.closed conn)
    then let '(m, r) := unregister conn 1000 m r in refresh_all rest m r
    else refresh_all rest m (refresh_conn m conn r)
  end.

(** one turn of [_refresh_routes_loop] *)
Definition refresh_turn (now : datetime) (tick : Z) (m : t) (r : redis) : t * redis :=
  let conns := all_connections m in
  let '(m, r) := refresh_all conns m r in
  let online := WSConnection.user_id <$> filter (λ c, WSConnection.closed c = None) conns in
  let r := PresenceService.refresh now (fromkeys online) r in
  (m, if tick mod app_config.WS_PRESENCE_CLEANUP_EVERY_TICKS =? 0
      then PresenceService.cleanup_stale now r else r).

(** ** Shutdown *)
Definition shutdown (m : t) (r : redis) : t * redis :=
  let '(m, r) := foldl (λ mr conn, unregister conn 1001 mr.1 mr.2) (m, r) (all_connections m) in
  let key := WebsocketKeys.gateway_route_key (gateway_id m) in
  let leftovers := SMEMBERS key r in
  (m, match leftovers with
      | [] => r
      | _ => DEL key (foldl (λ r cid, DEL (WebsocketKeys.connection_key cid) r) r leftovers)
      end).

(** ** One user's own events *)
(** [send_user_payload]: [recipients[0]] raises on an empty list *)
Definition send_user_payload (d : DeliveryDTO) (r : redis) : result error redis :=
  match dv_recipients d with
  | [] => Err IndexError
  | uid :: _ =>
    let gateways := fromkeys (omap (λ raw,
      let '(gateway_id, _, connection_id) := partition colon raw in
      if empty_text gateway_id || empty_text connection_id then None else Some gateway_id)
      (SMEMBERS (WebsocketKeys.user_route_key uid) r)) in
    Ok (foldl (λ r g, XADD (WebsocketKeys.gateway_stream_key g) d r) r gateways)
  end.

End ConnectionManager.
