(* ===== verification/Delivery.v ===== *)
(** Routing of chat events to gateways
    ([app/chats/services/delivery_router.py], [app/chats/dtos/delivery.py],
    [app/chats/services/reaction_coalescer.py], [app/chats/tasks/coalescer.py],
    [app/chats/consumers/delivery.py]).

    The reads of one routing come from one snapshot of the tables. The router's
    own state is Redis, the clean-ups it starts as tasks and the messages it
    hands to the broker. *)
From S2P Require Import Prelude Config Events MemberModel MessageModel ChatModel Store MessageRepo WsModel.

(** ** Events on the wire ([app/chats/dtos/delivery.py]) *)
Record DictEventDTO : Type := MkDictEvent {
  de_event_id : UUID;
  de_payload : event;
  de_created_at : datetime;
}.
Definition de_event_name (e : DictEventDTO) : string := get_name (de_payload e).

Definition REACTION_EVENT_NAME : string := "chats.message.reaction_updated".
Definition CHAT_DELETED_EVENT_NAME : string := "chats.chat.deleted".

Definition CHAT_EVENT_TO_WS_TYPE : gmap string string := list_to_map [
  ("chats.message.sent", "new_message"); ("chats.message.modified", "message_edited");
  ("chats.message.deleted", "message_deleted"); ("chats.message.readed", "messages_read");
  ("chats.message.pinned", "message_pinned"); ("chats.message.unpinned", "message_unpinned");
  ("chats.member.added", "member_joined"); ("chats.member.left", "member_left");
  ("chats.member.kicked", "member_kick"); ("chats.member.banned", "member_banned");
  ("chats.member.muted", "member_muted");
  ("chats.join_request.created", "join_request_created");
  ("chats.join_request.approved", "join_request_approved");
  ("chats.join_request.declined", "join_request_declined");
  ("chats.join_request.cancelled", "join_request_cancelled");
  ("chats.chat.created", "chat_created"); ("chats.chat.updated", "chat_updated");
  ("chats.chat.ownership_transferred", "chat_ownership_transferred");
  (CHAT_DELETED_EVENT_NAME, "chat_deleted"); (REACTION_EVENT_NAME, "reaction_update")]%string.

Definition MESSAGE_HYDRATED_EVENTS : list string := ["chats.message.sent"; "chats.message.modified"]%string.
Definition JOIN_REQUEST_STAFF_EVENTS : list string :=
  ["chats.join_request.created"; "chats.join_request.approved"; "chats.join_request.declined";
   "chats.join_request.cancelled"]%string.
Definition JOIN_REQUEST_APPLICANT_EVENTS : list string :=
  ["chats.join_request.approved"; "chats.join_request.declined"]%string.
Definition OFFLINE_SIGNAL_EVENT_NAMES : list string := ["chats.message.sent"]%string.
Definition JOIN_REQUEST_PERMISSION : string := "member:invite".

Record WsEvent : Type := MkWsEvent {
  we_type : string;
  we_event_name : string;
  we_event_id : UUID;
  we_chat_id : UUID;
  we_delta : Delta;
  we_ts : datetime;
  we_fanout_strategy : ChatFanoutStrategy;
}.

Definition WsEvent_build (e : DictEventDTO) (ws_type : string) (f : ChatFanoutStrategy) : WsEvent :=
  MkWsEvent ws_type (de_event_name e) (de_event_id e) (get_aggregate_id (de_payload e))
    (DEvent (de_payload e)) (de_created_at e) f.

(** [delta.get("notify", True) is not False] *)
Definition delta_notifies (d : Delta) : bool :=
  match d with DEvent (SendedMessageEvent _ _ _ _ _ notify) => notify | _ => true end.

(** [delta.get("sender_id")] *)
Definition delta_sender_id (d : Delta) : option Z :=
  match d with DEvent (SendedMessageEvent _ _ _ sender _ _) => sender | _ => None end.

(** [delta.get("user_ids", ())] *)
Definition delta_user_ids (d : Delta) : list Z :=
  match d with
  | DEvent (ApprovedChatJoinRequestsEvent _ ids _ _) => ids
  | DEvent (DeclinedChatJoinRequestsEvent _ ids _ _ _) => ids
  | _ => []
  end.

(** The user of an event of [MEMBER_REMOVED_EVENT_FIELDS], a lifted ban apart *)
Definition removed_member (d : Delta) : option Z :=
  match d with
  | DEvent (KickedChatMemberEvent _ _ target) => Some target
  | DEvent (BannedChatMemberEvent _ _ target ban) => if ban then Some target else None
  | DEvent (LeftChatMemberEvent _ u) => Some u
  | _ => None
  end.

Definition build_reaction_ws_dto (e : DictEventDTO) : option ReactionUpdateWSDTO :=
  match de_payload e with
  | ReactionUpdatedEvent m c actor action groups recent =>
    Some (MkReactionUpdate m c actor action
      ((λ g, (g, from_option snd [] (list_find (λ x, x.1 = rg_emoji g) recent ≫= λ ix, Some ix.2))) <$> groups))
  | _ => None
  end.

(** [chunks]: [batch] is the list being filled; [size] is positive here *)
Fixpoint chunks_from {A} (size : nat) (batch items : list A) : list (list A) :=
  match items with
  | [] => match batch with [] => [] | _ => [batch] end
  | x :: rest =>
    let batch := batch ++ [x] in
    if bool_decide (size <= length batch)%nat then batch :: chunks_from size [] rest
    else chunks_from size batch rest
  end.
Definition chunks {A} (size : nat) (items : list A) : list (list A) := chunks_from size [] items.

(** ** Members to deliver to ([app/chats/repositories/chat.py]) *)
Record DeliveryMember : Type := MkDeliveryMember {
  dm_user_id : Z;
  dm_notifications_muted_until : option datetime;
}.

Definition delivery_member_le (a b : DeliveryMember) : Prop := dm_user_id a ≤ dm_user_id b.
#[export] Instance delivery_member_le_dec : RelDecision delivery_member_le.
Proof. intros a b. unfold delivery_member_le. apply _. Defined.

(** the rows of one page: unbanned members past a user id, by user id *)
Definition delivery_page (now : datetime) (s : store) (chat_id : UUID) (last_user_id : Z) (batch_size : nat)
  : list DeliveryMember :=
  take batch_size (merge_sort delivery_member_le (omap (λ kv,
    if bool_decide (kv.1.1 = chat_id) && negb (ChatMember.is_banned now kv.2) && (last_user_id <? kv.1.2)
    then Some (MkDeliveryMember kv.1.2 (ChatMember.notifications_muted_until kv.2)) else None)
    (map_to_list (members s)))).

(** [iter_delivery_members]: [fuel] bounds the pages; the last page is empty *)
Fixpoint delivery_pages (fuel : nat) (now : datetime) (s : store) (chat_id : UUID) (batch_size : nat)
  (last_user_id : Z) : list (list DeliveryMember) :=
  match fuel with
  | O => []
  | S fuel =>
    let page := delivery_page now s chat_id last_user_id batch_size in
    match list.last page with
    | None => []
    | Some m => page :: delivery_pages fuel now s chat_id batch_size (dm_user_id m)
    end
  end.

Definition iter_delivery_members (now : datetime) (s : store) (chat_id : UUID) (batch_size : nat)
  : list (list DeliveryMember) :=
  delivery_pages (S (size (members s))) now s chat_id batch_size (-1).

(** [user_ids_with_permission]; the [LIMIT] has no order, here that of the table *)
Definition user_ids_with_permission (now : datetime) (s : store) (chat_id : UUID) (permission : string)
  (limit : nat) : list Z :=
  take limit (omap (λ kv : (UUID * Z) * ChatMember.t,
    let m := kv.2 in
    if bool_decide (kv.1.1 = chat_id)
       && default false (ChatRole.permissions (ChatRolesEnum (ChatMember.role_id m)) !! permission)
       && negb (ChatMember.is_banned now m)
       && default true (ChatMember.permissions_overrides m !! permission)
    then Some kv.1.2 else None) (map_to_list (members s))).

Definition get_fanout_strategy (s : store) (chat_id : UUID) (include_deleted : bool)
  : option ChatFanoutStrategy :=
  c ← chats s !! chat_id;
  if Chat.is_deleted c && negb include_deleted then None else Some (Chat.fanout_strategy c).

(** ** The router *)
Record OfflineSignal : Type := MkOfflineSignal {
  os_chat_id : UUID;
  os_event : WsEvent;
  os_offline_user_ids : list Z;
}.

(** [rs_cleanups]: [SREM]s of stale members started as tasks *)
Record router_state : Type := MkRouter {
  rs_redis : redis;
  rs_cleanups : list (text * text);
  rs_signals : list OfflineSignal;
  rs_reactions : gmap (UUID * UUID) DictEventDTO * gmap (UUID * UUID) Z;
}.
#[global] Instance router_settable : Settable router_state := λ x,
  MkRouter (rs_redis x) (rs_cleanups x) (rs_signals x) (rs_reactions x).

(** [RouteMap]: users by gateway, in order of first occurrence *)
Abbreviation RouteMap := (list (text * gset Z)) (only parsing).

(** [routes.setdefault(gateway_id, set()).add(user_id)] *)
Definition add_route (gateway_id : text) (user_id : Z) (routes : RouteMap) : RouteMap :=
  OrderedDict.set routes gateway_id ({[ user_id ]} ∪ default ∅ (OrderedDict.get routes gateway_id)).

Definition unmuted (now : datetime) (l : list DeliveryMember) : list Z :=
  dm_user_id <$> filter (λ m, match dm_notifications_muted_until m with
                              | None => true | Some until => until <=? now end = true) l.

(** [sorted] of a set *)
Definition sorted_ids (X : gset Z) : list Z := merge_sort Z.le (elements X).

Module ChatDeliveryRouter.

(** [_lookup_online_routes]: the map, and the members that do not parse *)
Definition _lookup_online_routes (r : redis) (ids : list Z) : RouteMap * list (text * text) :=
  foldl (λ acc u,
    foldl (λ acc route,
      match parse_user_route route with
      | Some (gateway_id, _) => (add_route gateway_id u acc.1, acc.2)
      | None => (acc.1, acc.2 ++ [(WebsocketKeys.user_route_key u, route)])
      end) acc (SMEMBERS (WebsocketKeys.user_route_key u) r)) ([], []) ids.

Definition lookup (ids : list Z) (x : router_state) : RouteMap * router_state :=
  let '(routes, stale) := _lookup_online_routes (rs_redis x) ids in
  (routes, x <| rs_cleanups := rs_cleanups x ++ stale |>).

(** the entries of [_enqueue_gateway_deliveries], in order *)
Definition gateway_entries (routes : RouteMap) (ev : WsEvent) (payload : MessagePayloadWS)
  (require_subscription : bool) (expires_at : option datetime) : list (text * DeliveryDTO) :=
  '(gateway_id, users) ← routes;
  (λ user_chunk, (gateway_id,
     MkDelivery (we_type ev) (str_uuid (we_chat_id ev)) payload require_subscription user_chunk
       (we_ts ev) expires_at)) <$>
    chunks app_config.WS_GATEWAY_STREAM_USERS_PER_ENTRY (sorted_ids users).

Definition _enqueue_gateway_deliveries (routes : RouteMap) (ev : WsEvent) (payload : MessagePayloadWS)
  (require_subscription : bool) (expires_at : option datetime) (x : router_state) : router_state :=
  x <| rs_redis := foldl (λ r gd, XADD (WebsocketKeys.gateway_stream_key gd.1) gd.2 r) (rs_redis x)
         (gateway_entries routes ev payload require_subscription expires_at) |>.

Definition online_users (routes : RouteMap) : gset Z := ⋃ (snd <$> routes).

Definition _offline_recipients (ev : WsEvent) (lookup_batch : list Z) (routes : RouteMap) : list Z :=
  sorted_ids (list_to_set lookup_batch ∖ online_users routes
              ∖ match delta_sender_id (we_delta ev) with Some u => {[ u ]} | None => ∅ end).

(** one chunk of members of [_route_fanout_on_write] *)
Definition fanout_chunk (now : datetime) (ev : WsEvent) (payload : MessagePayloadWS)
  (exclude_user_ids : gset Z) (expires_at : option datetime) (with_offline_signal : bool)
  (member_batch : list DeliveryMember) (x : router_state) : list Z * router_state :=
  let lookup_batch := filter (λ u, u ∉ exclude_user_ids) (dm_user_id <$> member_batch) in
  let '(routes, x) := lookup lookup_batch x in
  (if with_offline_signal then _offline_recipients ev (unmuted now member_batch) routes else [],
   _enqueue_gateway_deliveries routes ev payload false expires_at x).

Fixpoint fanout_chunks (now : datetime) (ev : WsEvent) (payload : MessagePayloadWS)
  (exclude_user_ids : gset Z) (expires_at : option datetime) (with_offline_signal : bool)
  (batches : list (list DeliveryMember)) (x : router_state) : list Z * router_state :=
  match batches with
  | [] => ([], x)
  | b :: rest =>
    let '(off, x) := fanout_chunk now ev payload exclude_user_ids expires_at with_offline_signal b x in
    let '(off', x) := fanout_chunks now ev payload exclude_user_ids expires_at with_offline_signal rest x in
    (off ++ off', x)
  end.

Definition member_batches (now : datetime) (s : store) (chat_id : UUID) : list (list DeliveryMember) :=
  iter_delivery_members now s chat_id chat_config.DELIVERY_ROUTER_MEMBER_BATCH_SIZE
    ≫= chunks chat_config.DELIVERY_ROUTER_ROUTE_LOOKUP_BATCH_SIZE.

Definition _route_fanout_on_write (now : datetime) (s : store) (ev : WsEvent) (payload : MessagePayloadWS)
  (exclude_user_ids : gset Z) (expires_at : option datetime) (x : router_state) : router_state :=
  let with_offline_signal :=
    bool_decide (we_event_name ev ∈ OFFLINE_SIGNAL_EVENT_NAMES) && delta_notifies (we_delta ev) in
  let '(offline_user_ids, x) :=
    fanout_chunks now ev payload exclude_user_ids expires_at with_offline_signal
      (member_batches now s (we_chat_id ev)) x in
  match offline_user_ids with
  | [] => x
  | _ => x <| rs_signals := rs_signals x ++ [MkOfflineSignal (we_chat_id ev) ev offline_user_ids] |>
  end.

(** ** Subscribers *)

(** [_validate_active_subscriber_batch] *)
Definition _validate_active_subscriber_batch (key : text) (routes : list (Z * text * text * text))
  (x : router_state) : RouteMap * router_state :=
  foldl (λ acc route,
    let '(user_id, gateway_id, connection_id, raw) := route in
    if EXISTS (WebsocketKeys.connection_key connection_id) (rs_redis x)
    then (add_route gateway_id user_id acc.1, acc.2)
    else (acc.1, acc.2 <| rs_cleanups ::= (λ l, l ++ [(key, raw)]) |>)) ([], x) routes.

(** The batches of [_iter_active_subscriber_routes]: the scan yields each
    member once; one that does not parse is removed on the way. *)
Definition subscriber_batches (batch_size : nat) (key : text) (r : redis)
  : list (list (Z * text * text * text)) * redis :=
  let raw := SMEMBERS key r in
  (chunks batch_size (omap parse_active_subscription_route raw),
   foldl (λ r route, SREM key route r) r
     (filter (λ route, parse_active_subscription_route route = None) raw)).

Definition subtract_users (exclude_user_ids : gset Z) (routes : RouteMap) : RouteMap :=
  filter (λ gu, gu.2 ≠ ∅) ((λ gu, (gu.1, gu.2 ∖ exclude_user_ids)) <$> routes).

Definition subscriber_batch (ev : WsEvent) (payload : MessagePayloadWS) (exclude_user_ids : gset Z)
  (expires_at : option datetime) (key : text) (x : router_state) (batch : list (Z * text * text * text))
  : router_state :=
  let '(routes, x) := _validate_active_subscriber_batch key batch x in
  let routes := if bool_decide (exclude_user_ids = ∅) then routes else subtract_users exclude_user_ids routes in
  _enqueue_gateway_deliveries routes ev payload true expires_at x.

Definition _route_to_active_subscribers (ev : WsEvent) (payload : MessagePayloadWS)
  (exclude_user_ids : gset Z) (expires_at : option datetime) (x : router_state) : router_state :=
  let key := WebsocketKeys.active_subscription_key (str_uuid (we_chat_id ev)) in
  let '(batches, r) :=
    subscriber_batches chat_config.DELIVERY_ROUTER_ACTIVE_SUBSCRIBER_SCAN_BATCH_SIZE key (rs_redis x) in
  foldl (subscriber_batch ev payload exclude_user_ids expires_at key) (x <| rs_redis := r |>) batches.

(** ** Join requests and removed members *)
Definition _route_join_request (now : datetime) (s : store) (ev : WsEvent) (payload : MessagePayloadWS)
  (x : router_state) : router_state :=
  let staff := user_ids_with_permission now s (we_chat_id ev) JOIN_REQUEST_PERMISSION
                 chat_config.JOIN_REQUEST_FANOUT_LIMIT in
  let recipients : gset Z := list_to_set staff ∪
    (if bool_decide (we_event_name ev ∈ JOIN_REQUEST_APPLICANT_EVENTS)
     then list_to_set (delta_user_ids (we_delta ev)) else ∅) in
  let '(routes, x) := lookup (elements recipients) x in
  _enqueue_gateway_deliveries routes ev payload false None x.

Definition _route_to_removed_member (ev : WsEvent) (payload : MessagePayloadWS) (x : router_state)
  : router_state :=
  match removed_member (we_delta ev) with
  | None => x
  | Some target =>
    let '(routes, x) := lookup [target] x in
    _enqueue_gateway_deliveries routes ev payload false None x
  end.

(** ** Entry points *)
Definition _dispatch (now : datetime) (s : store) (ev : WsEvent) (message : option Message.t)
  (reaction : option ReactionUpdateWSDTO) (x : router_state) : router_state :=
  let payload := MkMessagePayload (we_event_id ev) (we_event_name ev) (we_delta ev) message reaction in
  if bool_decide (we_event_name ev ∈ JOIN_REQUEST_STAFF_EVENTS)
  then _route_join_request now s ev payload x
  else
    let x := _route_to_removed_member ev payload x in
    match we_fanout_strategy ev with
    | FANOUT_ON_WRITE => _route_fanout_on_write now s ev payload ∅ None x
    | _ => _route_to_active_subscribers ev payload ∅ None x
    end.

Definition route_ephemeral (now : datetime) (s : store) (ev : WsEvent) (expires_at : datetime)
  (exclude_user_ids : gset Z) (x : router_state) : router_state :=
  let payload := MkMessagePayload (we_event_id ev) (we_event_name ev) (we_delta ev) None None in
  match we_fanout_strategy ev with
  | FANOUT_ON_WRITE => _route_fanout_on_write now s ev payload exclude_user_ids (Some expires_at) x
  | _ => _route_to_active_subscribers ev payload exclude_user_ids (Some expires_at) x
  end.

Definition route_reaction_snapshot (now : datetime) (s : store) (e : DictEventDTO) (x : router_state)
  : router_state :=
  match chats s !! get_aggregate_id (de_payload e) with
  | Some c =>
    if Chat.is_deleted c then x
    else _dispatch now s (WsEvent_build e "reaction_update" (Chat.fanout_strategy c)) None
           (build_reaction_ws_dto e) x
  | None => x
  end.

(** the message a hydrated event carries *)
Definition hydrated (s : store) (e : event) : option Message.t :=
  match e with
  | SendedMessageEvent i _ _ _ _ _ | ModifiedMessageEvent i _ _ _ =>
    with_attachments s <$> MessageRepository.live_message s i
  | _ => None
  end.

End ChatDeliveryRouter.

(** ** Reactions are coalesced ([app/chats/services/reaction_coalescer.py]) *)
Module ReactionCoalesceQueue.

Definition field_of (e : event) : option (UUID * UUID) :=
  match e with ReactionUpdatedEvent m c _ _ _ _ => Some (c, m) | _ => None end.

(** [HSET], then [ZADD NX] of the deadline *)
Definition enqueue (ms : Z) (e : DictEventDTO) (x : router_state) : router_state :=
  match field_of (de_payload e) with
  | None => x
  | Some field =>
    let '(pending, due) := rs_reactions x in
    x <| rs_reactions :=
      (<[field := e]> pending,
       match due !! field with
       | Some _ => due
       | None => <[field := ms + chat_config.REACTIONS_COALESCE_WINDOW_MS]> due
       end) |>
  end.

Definition deadline_le (a b : (UUID * UUID) * Z) : Prop := a.2 ≤ b.2.
#[global] Instance deadline_le_dec : RelDecision deadline_le.
Proof. intros a b. unfold deadline_le. apply _. Defined.

(** [_CLAIM_DUE_LUA] *)
Definition claim_due (ms : Z) (x : router_state) : list DictEventDTO * router_state :=
  let '(pending, due) := rs_reactions x in
  let fields := take (Z.to_nat chat_config.REACTIONS_COALESCE_MAX_KEYS_PER_TICK)
    (fst <$> merge_sort deadline_le (filter (λ kd, kd.2 ≤ ms) (map_to_list due))) in
  (omap (λ f, pending !! f) fields,
   x <| rs_reactions := (filter (λ kv, kv.1 ∉ fields) pending, filter (λ kv, kv.1 ∉ fields) due) |>).

(** one turn of [run_reaction_coalescer] *)
Definition turn (now : datetime) (ms : Z) (s : store) (x : router_state) : router_state :=
  let '(snapshots, x) := claim_due ms x in
  foldl (λ x e, ChatDeliveryRouter.route_reaction_snapshot now s e x) x snapshots.

End ReactionCoalesceQueue.

(** [ChatDeliveryRouter.route_broker_message] *)
Definition route_broker_message (now : datetime) (ms : Z) (s : store) (e : DictEventDTO) (x : router_state)
  : router_state :=
  match CHAT_EVENT_TO_WS_TYPE !! de_event_name e with
  | None => x
  | Some ws_type =>
    if bool_decide (de_event_name e = REACTION_EVENT_NAME) then ReactionCoalesceQueue.enqueue ms e x
    else match get_fanout_strategy s (get_aggregate_id (de_payload e))
                 (bool_decide (de_event_name e = CHAT_DELETED_EVENT_NAME)) with
         | None => x
         | Some f =>
           let ev := WsEvent_build e ws_type f in
           if bool_decide (de_event_name e ∈ MESSAGE_HYDRATED_EVENTS)
           then match ChatDeliveryRouter.hydrated s (de_payload e) with
                | None => x
                | Some m => ChatDeliveryRouter._dispatch now s ev (Some m) None x
                end
           else ChatDeliveryRouter._dispatch now s ev None None x
         end
  end.

(** [route_chat_delivery_event]: [route] is the router's call, which raises when
    it answers [false]; what it did before stays. [processed] are the ids the
    guard has seen. *)
Definition route_chat_delivery_event (route : DictEventDTO → router_state → bool * router_state)
  (e : DictEventDTO) (processed : gset UUID) (x : router_state)
  : bool * gset UUID * router_state :=
  if bool_decide (de_event_id e ∈ processed) then (true, processed, x)
  else
    let '(ok, x) := route e x in
    (ok, if ok then {[ de_event_id e ]} ∪ processed else processed ∖ {[ de_event_id e ]}, x).
