(* ===== verification/WsCommands.v ===== *)
(** Handlers of what a client sends over its websocket
    ([app/chats/commands/websockets]). The DTOs of a history are the messages
    they are validated from. *)
From S2P Require Import Prelude Config Events MemberModel MessageModel ChatModel PrivacyModel Store Rbac Access ChatRepo PrivacyService MessageRepo WsModel Gateway Delivery.

(** one gateway process next to the router's state, whose Redis they share *)
Record node : Type := MkNode {
  nd_manager : ConnectionManager.t;
  nd_router : router_state;
}.
#[global] Instance node_settable : Settable node := λ n, MkNode (nd_manager n) (nd_router n).

(** [command.conn.try_send(...)], its answer dropped *)
Definition send (now : datetime) (cid : text) (f : frame) (n : node) : node :=
  n <| nd_manager ::= λ m, m <| ConnectionManager.objects ::=
         alter (λ c, (WSConnection.try_send now c f).2) cid |> |>.

(** a method of the manager that also writes to Redis *)
Definition on_manager (f : ConnectionManager.t → redis → ConnectionManager.t * redis) (n : node) : node :=
  let '(m, r) := f (nd_manager n) (rs_redis (nd_router n)) in
  n <| nd_manager := m |> <| nd_router ::= (λ x, x <| rs_redis := r |>) |>.

(** [MessageRepository.get_chat_messages_after_seq] *)
Definition get_chat_messages_after_seq (s : store) (chat_id : UUID) (last_seq : Z) (limit : nat)
  : list Message.t :=
  take (S limit) (merge_sort MessageRepository.message_seq_le (omap (λ kv : UUID * Message.t,
    let m := kv.2 in
    if (Message.chat_id m =? chat_id) && (last_seq <? Message.seq m) && negb (Message.is_deleted m)
    then Some (with_attachments s m) else None) (map_to_list (messages s)))).

(** the history frame and the position it leads to: [batch], [next_last_seq],
    [has_more] *)
Definition replay (s : store) (chat_id : UUID) (last_seq : Z) : list Message.t * Z * bool :=
  let limit := chat_config.WS_REPLAY_BATCH_SIZE in
  let messages := get_chat_messages_after_seq s chat_id last_seq limit in
  let batch := take limit messages in
  (batch, from_option Message.seq last_seq (list.last batch), bool_decide (limit < length messages)%nat).

Definition send_history (now : datetime) (s : store) (cid : text) (chat_id : UUID) (key : text) (last_seq : Z)
  (n : node) : node :=
  let after := Z.max 0 last_seq in
  let '(batch, next_last_seq, has_more) := replay s chat_id after in
  let n := n <| nd_manager ::= λ m, m <| ConnectionManager.objects ::=
             alter (λ c, c <| WSConnection.last_seq_by_chat ::= <[key := next_last_seq]> |>) cid |> |> in
  send now cid (FHistory key after batch has_more next_last_seq) n.

(** [member is None or member.is_banned] *)
Definition no_access (now : datetime) (s : store) (chat_id : UUID) (user_id : Z) : bool :=
  match members s !! (chat_id, user_id) with
  | None => true
  | Some m => ChatMember.is_banned now m
  end.

Module SubscribeCommand.
Record command : Type := Mk {
  conn : text;
  chat_id : text;
  user_id : Z;
  last_seq : option Z;
}.
(** [None] is the [ValueError] of [UUID(command.chat_id)] *)
Definition handle (now : datetime) (s : store) (cmd : command) (n : node) : option node :=
  chat ← parse_uuid (chat_id cmd);
  if no_access now s chat (user_id cmd)
  then Some (send now (conn cmd) (FError "NOT_CHAT_MEMBER") n)
  else
    let n := on_manager (ConnectionManager.subscribe_channel (conn cmd) (chat_id cmd)) n in
    let n := send now (conn cmd) (FSubscribed (str_uuid chat) (last_seq cmd)) n in
    Some (match last_seq cmd with
          | Some l => send_history now s (conn cmd) chat (str_uuid chat) l n
          | None => n
          end).
End SubscribeCommand.

Module UnsubscribeCommand.
Record command : Type := Mk { conn : text; chat_id : text }.
Definition handle (now : datetime) (cmd : command) (n : node) : node :=
  let n := on_manager (ConnectionManager.unsubscribe_channel (conn cmd) (chat_id cmd)) n in
  send now (conn cmd) (FUnsubscribed (chat_id cmd)) n.
End UnsubscribeCommand.

Module PingCommand.
Definition handle (now : datetime) (conn : text) (n : node) : node := send now conn FPong n.
End PingCommand.

Module PongCommand.
Definition handle (now : datetime) (conn : text) (n : node) : node :=
  n <| nd_manager ::= λ m, m <| ConnectionManager.objects ::= alter (WSConnection.touch now) conn |> |>.
End PongCommand.

Module ResumeCommand.
Record command : Type := Mk { conn : text; user_id : Z; cursor : list (text * Z) }.

Fixpoint resume_each (now : datetime) (s : store) (cmd : command) (cursor : list (text * Z)) (n : node)
  : option node :=
  match cursor with
  | [] => Some n
  | (key, cursor_seq) :: rest =>
    chat ← parse_uuid key;
    if no_access now s chat (user_id cmd)
    then resume_each now s cmd rest (send now (conn cmd) (FError "NOT_CHAT_MEMBER") n)
    else
      let n := on_manager (ConnectionManager.subscribe_channel (conn cmd) key) n in
      let n := send now (conn cmd) (FSubscribed key (Some cursor_seq)) n in
      resume_each now s cmd rest (send_history now s (conn cmd) chat key cursor_seq n)
  end.

(** the user is the connection's own, [command.conn.user_id] *)
Definition handle (now : datetime) (s : store) (cmd : command) (n : node) : option node :=
  if 20 <? len (cursor cmd) then Some (send now (conn cmd) (FError "MAX_LIMIT_CURSOR") n)
  else resume_each now s cmd (cursor cmd) n.
End ResumeCommand.

Module TypingCommand.
Record command : Type := Mk { conn : text; chat_id : UUID; action : TypingAction }.

(** the event [send] builds *)
Definition typing_event (ts : datetime) (event_id chat_id : UUID) (f : ChatFanoutStrategy) (d : Delta) : WsEvent :=
  let t := match d with DTypingStop _ => "typing_stop" | _ => "typing_start" end%string in
  MkWsEvent t t event_id chat_id d ts f.

Definition send_typing (chat_id : UUID) (f : ChatFanoutStrategy) (user_id : Z) (d : Delta) (n : node) : M node :=
  ts ← now_utc;
  event_id ← uuid7;
  s ← query (λ s, s);
  now ← now_utc;
  mret (n <| nd_router ::= ChatDeliveryRouter.route_ephemeral now s (typing_event ts event_id chat_id f d)
              (ts + seconds chat_config.TYPING_TTL_SECONDS) {[ user_id ]} |>).

(** [try: ensure_can_message except UserBlockedError ... except
    MessagesPrivacyRestrictedError ...]: the code it was refused with *)
Definition message_denial (c : Chat.t) (user_id : Z) : M (option string) := λ w,
  match ChatPrivacyService.ensure_can_message c user_id w with
  | (Ok _, w) => (Ok None, w)
  | (Err (UserBlockedError _ _), w) => (Ok (Some "USER_BLOCKED"%string), w)
  | (Err (MessagesPrivacyRestrictedError _ _), w) => (Ok (Some "MESSAGES_PRIVACY_RESTRICTED"%string), w)
  | (Err e, w) => (Err e, w)
  end.

(** the row pair, or [None] where [get_chat_and_member] raises NotFoundChatError *)
Definition chat_and_member (chat_id : UUID) (user_id : Z) : M (option (Chat.t * ChatMember.t)) := query (λ s,
  c ← chats s !! chat_id;
  m ← members s !! (chat_id, user_id);
  if Chat.is_deleted c then None else Some (c, m)).

Definition typing_context (user_id : Z) (chat_id : UUID) (mono : Z) : M TypingContext :=
  found ← chat_and_member chat_id user_id;
  match found with
  | None => mret (MkTypingContext FANOUT_ON_WRITE (Some "NOT_FOUND_CHAT"%string) mono)
  | Some (c, member) =>
    n0 ← now_utc;
    if ChatMember.is_banned n0 member
    then mret (MkTypingContext (Chat.fanout_strategy c) (Some "NOT_CHAT_MEMBER"%string) mono)
    else
      n1 ← now_utc; n2 ← now_utc;
      if bool_decide (Chat.type c = CHANNEL)
         || negb (ChatAccessService.member_can_send n1 n2 c (Some member))
      then mret (MkTypingContext (Chat.fanout_strategy c) (Some "CHAT_ACCESS_DENIED"%string) mono)
      else
        denied ← message_denial c user_id;
        mret (MkTypingContext (Chat.fanout_strategy c) denied mono)
  end.

(** [conn.typing_by_chat] of a connection, and its update *)
Definition with_states (cid : text) (states : typing_states) (n : node) : node :=
  n <| nd_manager ::= λ m, m <| ConnectionManager.objects ::=
         alter (λ c, c <| WSConnection.typing_by_chat := states |>) cid |> |>.

(** The end of [handle], once the context is known to allow: the state is
    stamped and the event sent. *)
Definition broadcast (mono : Z) (cmd : command) (user_id : Z) (context : TypingContext) (states : typing_states)
  (n : node) : M node :=
  let key := str_uuid (chat_id cmd) in
  let states := OrderedDict.set states key (MkTypingState (Some context) (Some (action cmd)) mono) in
  send_typing (chat_id cmd) (tc_fanout_strategy context) user_id (DTypingStart user_id (action cmd))
    (with_states (conn cmd) states n).

Definition handle (mono : Z) (cmd : command) (n : node) : M node :=
  match ConnectionManager.objects (nd_manager n) !! conn cmd with
  | None => mret n
  | Some c =>
    let user_id := WSConnection.user_id c in
    let states := WSConnection.typing_by_chat c in
    let key := str_uuid (chat_id cmd) in
    if bool_decide (action cmd = ACT_CANCEL) then
      match OrderedDict.get states key with
      | Some st =>
        match ts_context st with
        | Some context =>
          if is_active st mono then
            send_typing (chat_id cmd) (tc_fanout_strategy context) user_id (DTypingStop user_id)
              (with_states (conn cmd) (OrderedDict.set states key (st <| ts_action := None |>)) n)
          else mret n
        | None => mret n
        end
      | None => mret n
      end
    else
      let '(st, states) := track_typing_state states key mono in
      let n := with_states (conn cmd) states n in
      if is_throttled st (action cmd) mono then mret n
      else
        match (c ← ts_context st; if is_fresh c mono then Some c else None) with
        | Some context =>
          if is_some (tc_denied_code context) then mret n
          else broadcast mono cmd user_id context states n
        | None =>
          context ← typing_context user_id (chat_id cmd) mono;
          let states := OrderedDict.set states key (st <| ts_context := Some context |>) in
          let n := with_states (conn cmd) states n in
          match tc_denied_code context with
          | Some code => now ← now_utc; mret (send now (conn cmd) (FError code) n)
          | None => broadcast mono cmd user_id context states n
          end
        end
  end.
End TypingCommand.
