(* ===== verification/GatewaySpec.v ===== *)
(** The registry of a gateway is consistent, and what a delivery does. *)
From S2P Require Import Prelude Config Events WsModel Gateway.
Import ConnectionManager.

(** ** Consistency of the registry *)

(** Objects are filed under their own id; the two indexes agree with each
    other and with the objects, and no user has an empty set. *)
Record gateway_ok (m : t) : Prop := {
  go_object cid c : objects m !! cid = Some c → WSConnection.connection_id c = cid;
  go_live cid : cid ∈ connections_by_id m →
    ∃ c, objects m !! cid = Some c ∧ cid ∈ user_conns m (WSConnection.user_id c);
  go_user u cid : cid ∈ user_conns m u →
    cid ∈ connections_by_id m ∧ ∃ c, objects m !! cid = Some c ∧ WSConnection.user_id c = u;
  go_entry u : connections_by_user m !! u ≠ Some ∅;
}.

Definition empty_gateway (gateway_id : text) : t := Mk gateway_id ∅ ∅ ∅.

Lemma gateway_ok_empty g : gateway_ok (empty_gateway g).
Proof.
  split; cbn.
  - intros cid c Hc. simplify_map_eq/=.
  - set_solver.
  - intros u cid. unfold user_conns. cbn. rewrite lookup_empty. set_solver.
  - intros u. by rewrite lookup_empty.
Qed.

(** what a connection keeps for life *)
Definition same_identity (c c' : WSConnection.t) : Prop :=
  WSConnection.connection_id c' = WSConnection.connection_id c
  ∧ WSConnection.user_id c' = WSConnection.user_id c.

(** The changes of the registry. *)
Inductive gateway_step : t → t → Prop :=
| gateway_register m conn :
    objects m !! WSConnection.connection_id conn = None →
    gateway_step m (register_locked conn m).1.1
| gateway_unregister m cid c conn :
    objects m !! cid = Some c → same_identity c conn → gateway_step m (unregister_locked conn m).1
| gateway_object m cid c c' :
    objects m !! cid = Some c → same_identity c c' →
    gateway_step m (m <| objects ::= <[cid := c']> |>).

Definition gateway_steps : t → t → Prop := rtc gateway_step.

(** the sets of users after the locked block of [register] *)
Lemma register_users m conn u :
  user_conns (register_locked conn m).1.1 u =
    if decide (u = WSConnection.user_id conn)
    then {[ WSConnection.connection_id conn ]} ∪ user_conns m u else user_conns m u.
Proof. unfold register_locked, user_conns. cbn. case_decide; by simplify_map_eq. Qed.

Lemma register_objects m conn cid :
  objects (register_locked conn m).1.1 !! cid =
    if decide (cid = WSConnection.connection_id conn)
    then Some (conn <| WSConnection.gateway_id := gateway_id m |>) else objects m !! cid.
Proof. unfold register_locked. cbn. case_decide; by simplify_map_eq/=. Qed.

Lemma register_ids m conn :
  connections_by_id (register_locked conn m).1.1 = {[ WSConnection.connection_id conn ]} ∪ connections_by_id m.
Proof. done. Qed.

Lemma ok_register m conn :
  gateway_ok m → objects m !! WSConnection.connection_id conn = None →
  gateway_ok (register_locked conn m).1.1.
Proof.
  intros [Hobj Hlive Huser Hentry] Hfresh. split.
  - intros cid c. rewrite register_objects. case_decide; [|by apply Hobj]. intros [= <-]. by subst.
  - intros cid. rewrite register_ids, elem_of_union, elem_of_singleton, register_objects. intros Hc.
    case_decide as Hd; [eexists; split; [done|]; rewrite register_users; cbn; rewrite decide_True by done; set_solver|].
    destruct Hc as [?|Hc]; [done|]. destruct (Hlive _ Hc) as (c & Hk & Hin). exists c. split; [done|].
    rewrite register_users. case_decide; set_solver.
  - intros u cid. rewrite register_users, register_ids, register_objects. intros Hc.
    destruct (decide (cid = WSConnection.connection_id conn)) as [->|Hne].
    + assert (u = WSConnection.user_id conn) as ->.
      { case_decide; [done|]. by destruct (Huser _ _ Hc) as (_ & c & ? & _); simplify_eq. }
      split; [set_solver|]. by eexists.
    + assert (cid ∈ user_conns m u) as Hin by (case_decide; set_solver).
      destruct (Huser _ _ Hin) as (? & ?). split; [set_solver|done].
  - intros u. unfold register_locked. cbn. intros [[_ H]|[_ H]]%lookup_insert_Some; [set_solver|by apply Hentry in H].
Qed.

(** the sets of users after the locked block of [unregister] *)
Lemma unregister_users m conn u :
  user_conns (unregister_locked conn m).1 u =
    if decide (u = WSConnection.user_id conn)
    then user_conns m u ∖ {[ WSConnection.connection_id conn ]} else user_conns m u.
Proof.
  unfold unregister_locked, user_conns. cbn.
  destruct (connections_by_user m !! WSConnection.user_id conn) as [ids|] eqn:Hids; cbn.
  - case_bool_decide as He; case_decide as Hu; subst; simplify_map_eq/=; try done;
      rewrite ?lookup_delete_ne, ?lookup_insert_ne by done; done.
  - case_decide; subst; [|done]. rewrite Hids. set_solver.
Qed.

Lemma unregister_objects m conn cid :
  objects (unregister_locked conn m).1 !! cid =
    if decide (cid = WSConnection.connection_id conn)
    then (λ c, c <| WSConnection.subscriptions := ∅ |>) <$> objects m !! cid else objects m !! cid.
Proof.
  unfold unregister_locked. cbn. case_match; cbn; (case_decide; subst;
    [by rewrite lookup_alter_eq|by rewrite lookup_alter_ne]).
Qed.

Lemma unregister_ids m conn :
  connections_by_id (unregister_locked conn m).1 = connections_by_id m ∖ {[ WSConnection.connection_id conn ]}.
Proof. unfold unregister_locked. cbn. by case_match. Qed.

Lemma ok_unregister m cid c0 conn :
  gateway_ok m → objects m !! cid = Some c0 → same_identity c0 conn → gateway_ok (unregister_locked conn m).1.
Proof.
  intros [Hobj Hlive Huser Hentry] Hc [Hid1 Hid2].
  pose proof (Hobj _ _ Hc) as Hid. rewrite <- Hid1 in Hid. split.
  - intros k c. rewrite unregister_objects. case_decide; subst; [|by apply Hobj].
    intros (c' & Hc' & ->)%fmap_Some. cbn. by apply Hobj.
  - intros k. rewrite unregister_ids, elem_of_difference, elem_of_singleton. intros [Hk Hne].
    destruct (Hlive _ Hk) as (c & Hk' & Hin). exists c. rewrite unregister_objects, unregister_users.
    rewrite decide_False by done. split; [done|]. case_decide; set_solver.
  - intros u k. rewrite unregister_users, unregister_ids, unregister_objects. intros Hin.
    assert (k ∈ user_conns m u) as Hin' by (case_decide; set_solver).
    destruct (Huser _ _ Hin') as (? & c & Hk & Hu). split.
    + case_decide as Hd; [set_solver|]. apply elem_of_difference. split; [done|].
      intros ->%elem_of_singleton. apply Hd. rewrite Hid in Hk. congruence.
    + rewrite Hk. destruct (decide (k = WSConnection.connection_id conn)); eexists; (split; [reflexivity|done]).
  - intros u. unfold unregister_locked. cbn.
    destruct (connections_by_user m !! WSConnection.user_id conn) as [ids|] eqn:Hids; cbn; [|by apply Hentry].
    case_bool_decide as He.
    + intros [_ H]%lookup_delete_Some. by apply Hentry in H.
    + intros [[_ H]|[_ H]]%lookup_insert_Some; [done|by apply Hentry in H].
Qed.

Lemma ok_object m cid c c' :
  gateway_ok m → objects m !! cid = Some c → same_identity c c' →
  gateway_ok (m <| objects ::= <[cid := c']> |>).
Proof.
  intros [Hobj Hlive Huser Hentry] Hc [Hi Hu]. split; cbn;
    change (user_conns (m <| objects ::= <[cid := c']> |>)) with (user_conns m).
  - intros k x [[<- <-]|[_ Hx]]%lookup_insert_Some; [|by apply Hobj]. rewrite Hi. by apply Hobj.
  - intros k Hk. destruct (Hlive _ Hk) as (x & Hx & Hin). destruct (decide (cid = k)) as [->|].
    + exists c'. rewrite lookup_insert_eq. split; [done|]. congruence.
    + exists x. by rewrite lookup_insert_ne.
  - intros u k Hin. destruct (Huser u k Hin) as (? & x & Hx & ?). split; [done|].
    destruct (decide (cid = k)) as [->|].
    + exists c'. rewrite lookup_insert_eq. split; [done|]. congruence.
    + exists x. by rewrite lookup_insert_ne.
  - done.
Qed.

Lemma ok_step m m' : gateway_ok m → gateway_step m m' → gateway_ok m'.
Proof. intros Hok Hs. destruct Hs; eauto using ok_register, ok_unregister, ok_object. Qed.

Lemma ok_steps m m' : gateway_steps m m' → gateway_ok m → gateway_ok m'.
Proof. induction 1; eauto using ok_step. Qed.

(** ** Methods are sequences of steps *)
Lemma steps_object m cid c c' :
  objects m !! cid = Some c → same_identity c c' →
  gateway_steps m (m <| objects ::= <[cid := c']> |>).
Proof. intros. by eapply rtc_once, gateway_object. Qed.

Lemma steps_alter m cid f :
  (∀ c, same_identity c (f c)) → gateway_steps m (m <| objects ::= alter f cid |>).
Proof.
  intros Hf. destruct (objects m !! cid) as [c|] eqn:Hc.
  - replace (m <| objects ::= alter f cid |>) with (m <| objects ::= <[cid := f c]> |>).
    { by eapply steps_object. }
    destruct m; unfold modify_field; cbn in *. f_equal. apply map_eq. intros k.
    destruct (decide (k = cid)) as [->|].
    + by rewrite lookup_insert_eq, lookup_alter_eq, Hc.
    + by rewrite lookup_insert_ne, lookup_alter_ne.
  - replace (m <| objects ::= alter f cid |>) with m; [apply rtc_refl|].
    destruct m; unfold modify_field; cbn in *. f_equal. symmetry. apply map_eq. intros k.
    destruct (decide (k = cid)) as [->|]; [rewrite lookup_alter_eq, Hc; done|by rewrite lookup_alter_ne].
Qed.

Lemma steps_register now conn m r :
  objects m !! WSConnection.connection_id conn = None →
  gateway_steps m (register now conn m r).1.1.
Proof.
  intros Hf. unfold register. pose proof (gateway_register m conn Hf) as H.
  destruct (register_locked conn m) as [[m' first] stale]. by apply rtc_once.
Qed.

Lemma close_identity code c : same_identity c (WSConnection.close code c).
Proof. unfold WSConnection.close. by destruct (WSConnection.closed c). Qed.

Lemma try_send_identity now c f : same_identity c (WSConnection.try_send now c f).2.
Proof. unfold WSConnection.try_send. by repeat case_match; simplify_eq/=. Qed.

Lemma steps_unregister conn code m r cid c :
  objects m !! cid = Some c → same_identity c conn → gateway_steps m (unregister conn code m r).1.
Proof.
  intros Hc Hs. unfold unregister. pose proof (gateway_unregister m cid c conn Hc Hs) as H.
  destruct (unregister_locked conn m) as [m' channels]. cbn in *.
  eapply rtc_l; [done|]. apply steps_alter. intros x. apply close_identity.
Qed.

Lemma steps_task k mr : gateway_steps mr.1 (run_task k mr).1.
Proof.
  unfold run_task. destruct (objects mr.1 !! ut_connection_id k) eqn:Hc; [|apply rtc_refl].
  by eapply steps_unregister; [|split].
Qed.

Lemma steps_tasks ks mr : gateway_steps mr.1 (foldl (λ mr k, run_task k mr) mr ks).1.
Proof.
  revert mr. induction ks as [|k ks IH]; intros mr; simpl; [apply rtc_refl|].
  etrans; [apply steps_task|apply IH].
Qed.

Lemma steps_subscribe cid channel m r : gateway_steps m (subscribe_channel cid channel m r).1.
Proof.
  unfold subscribe_channel. destruct (objects m !! cid) eqn:Hc; [|apply rtc_refl]. by eapply steps_object.
Qed.

Lemma steps_unsubscribe cid channel m r : gateway_steps m (unsubscribe_channel cid channel m r).1.
Proof.
  unfold unsubscribe_channel. destruct (objects m !! cid) eqn:Hc; [|apply rtc_refl]. by eapply steps_object.
Qed.

Lemma steps_send_one now d cid m : gateway_steps m (_send_or_unregister now d cid m).1.
Proof.
  unfold _send_or_unregister. destruct (objects m !! cid) as [c|] eqn:Hc; [|apply rtc_refl].
  pose proof (try_send_identity now c (frame_of d)). destruct (WSConnection.try_send _ _ _). by eapply steps_object.
Qed.

Lemma steps_send_many now d cids m : gateway_steps m (_send_to_connections now d cids m).1.
Proof.
  revert m. induction cids as [|cid cids IH]; intros m; simpl; [apply rtc_refl|].
  pose proof (steps_send_one now d cid m). destruct (_send_or_unregister now d cid m) as [m1 k].
  pose proof (IH m1). destruct (_send_to_connections now d cids m1). by etrans.
Qed.

Lemma steps_entry now e m x : _process_gateway_stream_entry now e m = Some x → gateway_steps m x.1.
Proof.
  unfold _process_gateway_stream_entry. destruct e as [d|]; [|done]. intros [= <-].
  repeat case_match; try apply rtc_refl; apply steps_send_many.
Qed.

Lemma steps_entries now es m : gateway_steps m (_process_entries now es m).1.1.
Proof.
  revert m. induction es as [|[i e] es IH]; intros m; simpl; [apply rtc_refl|].
  destruct (_process_gateway_stream_entry now e m) as [[m1 k]|] eqn:He; [|apply IH].
  apply steps_entry in He. pose proof (IH m1). destruct (_process_entries now es m1) as [[??]?].
  by etrans.
Qed.

Lemma steps_consume now m r : gateway_steps m (consume_once now m r).1.1.
Proof.
  unfold consume_once. destruct (XREADGROUP _ _) as [es s]. pose proof (steps_entries now es m).
  by destruct (_process_entries now es m) as [[??]?].
Qed.

Lemma steps_claim_rounds fuel idle now cursor m s : gateway_steps m (claim_rounds fuel idle now cursor m s).1.1.
Proof.
  revert cursor m s. induction fuel as [|fuel IH]; intros cursor m s; cbn [claim_rounds]; [apply rtc_refl|].
  destruct (XAUTOCLAIM idle cursor app_config.WS_GATEWAY_STREAM_CLAIM_COUNT s) as [next es]. pose proof (steps_entries now es m) as H.
  destruct (_process_entries now es m) as [[m1 tasks] ids]. cbn in H.
  destruct next as [|next], es as [|e es]; try exact H.
  pose proof (IH (S next) m1 (XACK ids s)). destruct (claim_rounds fuel idle now (S next) m1 (XACK ids s)) as [[??]?].
  by etrans.
Qed.

Lemma steps_claim idle now m r : gateway_steps m (_claim_pending_entries idle now m r).1.1.
Proof.
  unfold _claim_pending_entries. pose proof (steps_claim_rounds (S (length (st_pending (stream_of m r)))) idle now 0 m (stream_of m r)).
  by destruct (claim_rounds (S (length (st_pending (stream_of m r)))) idle now 0 m (stream_of m r)) as [[??]?].
Qed.

(** Objects are never lost and keep their identity. *)
Lemma step_identity m m' cid c :
  gateway_step m m' → gateway_ok m → objects m !! cid = Some c →
  ∃ c', objects m' !! cid = Some c' ∧ same_identity c c'.
Proof.
  intros Hs Hok Hc. destruct Hs as [m conn Hf|m k c0 conn Hk Hid|m k c0 c1 Hk Hid].
  - rewrite register_objects. case_decide; [subst; congruence|]. by eexists.
  - rewrite unregister_objects, Hc. case_decide; by eexists.
  - cbn. destruct (decide (k = cid)) as [->|]; [|by eexists; rewrite lookup_insert_ne].
    simplify_eq. eexists. rewrite lookup_insert_eq. by split.
Qed.

Lemma steps_identity m m' :
  gateway_steps m m' → gateway_ok m → ∀ cid c, objects m !! cid = Some c →
  ∃ c', objects m' !! cid = Some c' ∧ same_identity c c'.
Proof.
  induction 1 as [|m m1 m' H1 _ IH]; intros Hok cid c Hc; [by eexists|].
  destruct (step_identity _ _ _ _ H1 Hok Hc) as (c1 & Hc1 & [Hi Hu]).
  destruct (IH (ok_step _ _ Hok H1) _ _ Hc1) as (c2 & Hc2 & [Hi2 Hu2]).
  eexists. split; [done|]. split; congruence.
Qed.

(** the connections of a snapshot are objects the manager holds *)
Definition held (m : t) (conns : list WSConnection.t) : Prop :=
  Forall (λ conn, ∃ cid c, objects m !! cid = Some c ∧ same_identity c conn) conns.

Lemma held_steps m m' conns : gateway_ok m → gateway_steps m m' → held m conns → held m' conns.
Proof.
  intros Hok Hs Hh. eapply list.Forall_impl; [exact Hh|]. intros conn (cid & c & Hc & [Hi Hu]).
  destruct (steps_identity _ _ Hs Hok _ _ Hc) as (c' & Hc' & [Hi' Hu']).
  eexists _, _. split; [done|]. split; congruence.
Qed.

Lemma held_registered m ids : held m (registered m ids).
Proof.
  apply list.Forall_forall. intros conn (cid & _ & Hc)%list_elem_of_omap. case_bool_decide; [|done].
  by eexists _, _.
Qed.

Lemma steps_refresh_all conns m r : gateway_ok m → held m conns → gateway_steps m (refresh_all conns m r).1.
Proof.
  revert m r. induction conns as [|conn conns IH]; intros m r Hok Hh; cbn [refresh_all]; [apply rtc_refl|].
  apply Forall_cons_iff in Hh as [(cid & c & Hc & Hs) Hh]. case_match; [|by apply IH].
  pose proof (steps_unregister conn 1000 m r cid c Hc Hs) as H1.
  destruct (unregister conn 1000 m r) as [m1 r1]. cbn in H1.
  etrans; [done|]. apply IH; eauto using ok_steps, held_steps.
Qed.

Lemma steps_refresh now tick m r : gateway_ok m → gateway_steps m (refresh_turn now tick m r).1.
Proof.
  intros Hok. unfold refresh_turn.
  pose proof (steps_refresh_all (all_connections m) m r Hok (held_registered _ _)).
  by destruct (refresh_all _ _ _).
Qed.

Lemma steps_unregister_each code conns mr :
  gateway_ok mr.1 → held mr.1 conns →
  gateway_steps mr.1 (foldl (λ mr conn, unregister conn code mr.1 mr.2) mr conns).1.
Proof.
  revert mr. induction conns as [|conn conns IH]; intros mr Hok Hh; cbn [foldl]; [apply rtc_refl|].
  apply Forall_cons_iff in Hh as [(cid & c & Hc & Hs) Hh].
  pose proof (steps_unregister conn code mr.1 mr.2 cid c Hc Hs) as H1.
  etrans; [done|]. apply IH; eauto using ok_steps, held_steps.
Qed.

Lemma steps_shutdown m r : gateway_ok m → gateway_steps m (shutdown m r).1.
Proof.
  intros Hok. unfold shutdown.
  pose proof (steps_unregister_each 1001 (all_connections m) (m, r) Hok (held_registered _ _)) as H.
  by destruct (foldl _ _ _).
Qed.

(** ** A gateway at work *)

(** what happens to a gateway, tasks included: [WBeat] is a turn of a
    connection's heartbeat and [WWrite] one of its writer *)
Inductive gateway_op : Type :=
| WRegister (now : datetime) (conn : WSConnection.t)
| WTask (k : unregister_task)
| WSubscribe (cid channel : text)
| WUnsubscribe (cid channel : text)
| WDeliver (now : datetime) (d : DeliveryDTO)
| WConsume (now : datetime)
| WClaim (idle : nat → bool) (now : datetime)
| WRefresh (now : datetime) (tick : Z)
| WBeat (now now' : datetime) (cid : text)
| WWrite (cid : text)
| WShutdown.

Definition write_one (c : WSConnection.t) : WSConnection.t :=
  from_option snd c (WSConnection.writer_step c).

Definition gateway_perform (op : gateway_op) (mr : t * redis) : t * redis :=
  let '(m, r) := mr in
  match op with
  | WRegister now conn => (register now conn m r).1
  | WTask k => run_task k mr
  | WSubscribe cid channel => subscribe_channel cid channel m r
  | WUnsubscribe cid channel => unsubscribe_channel cid channel m r
  | WDeliver now d => ((send_to_users_local now d m).1, r)
  | WConsume now => (consume_once now m r).1
  | WClaim idle now => (_claim_pending_entries idle now m r).1
  | WRefresh now tick => refresh_turn now tick m r
  | WBeat now now' cid => (m <| objects ::= alter (λ c, (WSConnection.heartbeat_step now now' c).2) cid |>, r)
  | WWrite cid => (m <| objects ::= alter write_one cid |>, r)
  | WShutdown => shutdown m r
  end.

(** A connection gets a fresh [uuid4] as its id. *)
Definition op_fresh (op : gateway_op) (m : t) : Prop :=
  match op with
  | WRegister _ conn => objects m !! WSConnection.connection_id conn = None
  | _ => True
  end.

Fixpoint gateway_run (ops : list gateway_op) (mr : t * redis) : t * redis :=
  match ops with
  | [] => mr
  | op :: ops => gateway_run ops (gateway_perform op mr)
  end.

Fixpoint ops_fresh (ops : list gateway_op) (mr : t * redis) : Prop :=
  match ops with
  | [] => True
  | op :: ops => op_fresh op mr.1 ∧ ops_fresh ops (gateway_perform op mr)
  end.

Lemma heartbeat_identity now now' c : same_identity c (WSConnection.heartbeat_step now now' c).2.
Proof.
  unfold WSConnection.heartbeat_step. case_match; [done|]. case_match; [apply close_identity|].
  apply try_send_identity.
Qed.

Lemma write_identity c : same_identity c (write_one c).
Proof. unfold write_one, WSConnection.writer_step. repeat case_match; done. Qed.

Lemma steps_perform op mr : gateway_ok mr.1 → op_fresh op mr.1 → gateway_steps mr.1 (gateway_perform op mr).1.
Proof.
  destruct mr as [m r]. intros Hok Hf.
  destruct op; cbn [gateway_perform fst] in *;
    eauto using steps_register, steps_subscribe, steps_unsubscribe, steps_consume, steps_claim, steps_refresh,
      steps_shutdown.
  - apply (steps_task k (m, r)).
  - apply steps_send_many.
  - apply steps_alter. apply heartbeat_identity.
  - apply steps_alter. apply write_identity.
Qed.

Lemma steps_run ops mr :
  gateway_ok mr.1 → ops_fresh ops mr → gateway_steps mr.1 (gateway_run ops mr).1.
Proof.
  revert mr. induction ops as [|op ops IH]; intros mr Hok Hf; cbn [gateway_run]; [apply rtc_refl|].
  destruct Hf as [Hf Hfs]. pose proof (steps_perform op mr Hok Hf).
  etrans; [done|]. apply IH; eauto using ok_steps.
Qed.

(** ** Eviction *)

Lemma alter_users m cid f u : user_conns (m <| objects ::= alter f cid |>) u = user_conns m u.
Proof. done. Qed.

Lemma unregister_conns conn code m r u :
  user_conns (unregister conn code m r).1 u =
    if decide (u = WSConnection.user_id conn)
    then user_conns m u ∖ {[ WSConnection.connection_id conn ]} else user_conns m u.
Proof.
  unfold unregister. rewrite <- unregister_users. by destruct (unregister_locked conn m).
Qed.

Lemma task_conns k mr u :
  gateway_ok mr.1 → user_conns (run_task k mr).1 u = user_conns mr.1 u ∖ {[ ut_connection_id k ]}.
Proof.
  intros Hok. unfold run_task.
  assert (∀ v, (∀ c, objects mr.1 !! ut_connection_id k = Some c → WSConnection.user_id c ≠ v) →
    user_conns mr.1 v = user_conns mr.1 v ∖ {[ ut_connection_id k ]}) as Hout.
  { intros v Hv. assert (ut_connection_id k ∉ user_conns mr.1 v); [|set_solver].
    intros (_ & c & Hc & Hu)%(go_user _ Hok). by eapply Hv. }
  destruct (objects mr.1 !! ut_connection_id k) as [c|] eqn:Hc; [|by apply Hout].
  rewrite unregister_conns, (go_object _ Hok _ _ Hc). case_decide; [done|]. apply Hout. naive_solver.
Qed.

Lemma tasks_conns ks mr u :
  gateway_ok mr.1 →
  user_conns (foldl (λ mr k, run_task k mr) mr ks).1 u
    = user_conns mr.1 u ∖ list_to_set (ut_connection_id <$> ks).
Proof.
  revert mr. induction ks as [|k ks IH]; intros mr Hok; cbn [foldl]; [set_solver|].
  rewrite IH by eauto using ok_steps, steps_task. rewrite task_conns by done. set_solver.
Qed.

(** the connections of a user, as objects *)
Lemma registered_user m u :
  gateway_ok m → WSConnection.connection_id <$> registered m (elements (user_conns m u)) = elements (user_conns m u).
Proof.
  intros Hok. assert (∀ cid, cid ∈ elements (user_conns m u) → cid ∈ user_conns m u) as Hin.
  { intros cid. apply elem_of_elements. }
  revert Hin. generalize (elements (user_conns m u)). induction l as [|cid l IH]; intros Hin; [done|].
  destruct (go_user _ Hok u cid) as (Hid & c & Hc & _); [apply Hin; left|].
  unfold registered in *. cbn. rewrite bool_decide_true, Hc by done. cbn.
  rewrite (go_object _ Hok _ _ Hc), IH; [done|]. intros k Hk. apply Hin. by right.
Qed.

Lemma elem_of_registered m ids c :
  c ∈ registered m ids ↔ ∃ cid, cid ∈ ids ∧ cid ∈ connections_by_id m ∧ objects m !! cid = Some c.
Proof.
  unfold registered. rewrite list_elem_of_omap. split.
  - intros (cid & Hin & H). case_bool_decide; [|done]. by exists cid.
  - intros (cid & Hin & Hid & Hc). exists cid. by rewrite bool_decide_true.
Qed.

#[export] Instance connected_total : Total connected_le.
Proof. intros a b. unfold connected_le. lia. Qed.
#[export] Instance connected_trans : Transitive connected_le.
Proof. intros a b c. unfold connected_le. lia. Qed.

Lemma sorted_split {A} (R : relation A) `{!Transitive R} (l1 l2 : list A) :
  Sorted R (l1 ++ l2) → ∀ a b, a ∈ l1 → b ∈ l2 → R a b.
Proof.
  intros Hs%Sorted_StronglySorted; [|done]. intros a b Ha Hb.
  induction l1 as [|x l1 IH]; [by apply elem_of_nil in Ha|].
  inversion Hs as [|?? Hs' Hall]; subst. apply elem_of_cons in Ha as [->|Ha]; [|by apply IH].
  rewrite list.Forall_forall in Hall. apply Hall, elem_of_app. by right.
Qed.

(** the user's connections after [register], oldest first, and the excess *)
Definition by_age (m : t) (u : Z) : list WSConnection.t :=
  merge_sort connected_le (registered m (elements (user_conns m u))).
Definition excess (m : t) (u : Z) : nat :=
  Z.to_nat (Z.of_nat (size (user_conns m u)) - app_config.WS_MAX_CONNECTIONS_PER_USER).

Lemma register_stale m conn :
  (register_locked conn m).2 =
    take (excess (register_locked conn m).1.1 (WSConnection.user_id conn))
      (by_age (register_locked conn m).1.1 (WSConnection.user_id conn)).
Proof.
  unfold excess, by_age. rewrite register_users, decide_True by done.
  unfold register_locked. cbn. set (ids := _ ∪ _). case_match eqn:E; bool_simpl; [done|].
  replace (Z.to_nat _) with 0%nat by lia. done.
Qed.

Lemma by_age_ids m u :
  gateway_ok m → WSConnection.connection_id <$> by_age m u ≡ₚ elements (user_conns m u).
Proof. intros Hok. unfold by_age. by rewrite merge_sort_Permutation, registered_user. Qed.

Lemma length_by_age m u : gateway_ok m → length (by_age m u) = size (user_conns m u).
Proof.
  intros Hok. rewrite <- (length_fmap WSConnection.connection_id), by_age_ids by done. done.
Qed.

Lemma elem_of_by_age m u c :
  gateway_ok m → c ∈ by_age m u ↔ ∃ cid, cid ∈ user_conns m u ∧ objects m !! cid = Some c.
Proof.
  intros Hok. unfold by_age. rewrite merge_sort_Permutation, elem_of_registered.
  setoid_rewrite elem_of_elements. split.
  - intros (cid & ? & _ & ?). by exists cid.
  - intros (cid & Hin & ?). exists cid. split_and!; [done| |done]. by apply (go_user _ Hok) in Hin as [? _].
Qed.

Lemma by_age_sorted m u : Sorted connected_le (by_age m u).
Proof. apply Sorted_merge_sort, _. Qed.

(** the ids the excess leaves *)
Lemma kept_ids m u n :
  gateway_ok m →
  user_conns m u ∖ list_to_set (WSConnection.connection_id <$> take n (by_age m u))
    = list_to_set (WSConnection.connection_id <$> drop n (by_age m u)).
Proof.
  intros Hok. pose proof (by_age_ids m u Hok) as Hp.
  assert (NoDup (WSConnection.connection_id <$> by_age m u)) as Hnd by (rewrite Hp; apply NoDup_elements).
  assert (∀ cid, cid ∈ user_conns m u ↔ cid ∈ WSConnection.connection_id <$> by_age m u) as Hin.
  { intros cid. by rewrite Hp, elem_of_elements. }
  rewrite <- (take_drop n (by_age m u)), fmap_app in Hin, Hnd.
  apply list.NoDup_app in Hnd as (_ & Hdis & _). apply set_eq. intros cid.
  rewrite elem_of_difference, Hin, elem_of_app, !elem_of_list_to_set. naive_solver.
Qed.

Lemma size_kept m u n :
  gateway_ok m →
  size (user_conns m u ∖ list_to_set (WSConnection.connection_id <$> take n (by_age m u)))
    = (size (user_conns m u) - n)%nat.
Proof.
  intros Hok. rewrite kept_ids by done. rewrite size_list_to_set.
  - by rewrite length_fmap, length_drop, length_by_age.
  - rewrite fmap_drop. eapply sublist_NoDup; [|apply sublist_drop].
    rewrite by_age_ids by done. apply NoDup_elements.
Qed.

(** ** Local delivery *)

(** the frame goes to a connection: what becomes of it, and whether it is
    taken *)
Definition offered (now : datetime) (d : DeliveryDTO) (c : WSConnection.t) : WSConnection.t :=
  (WSConnection.try_send now c (frame_of d)).2.
Definition refuses (now : datetime) (d : DeliveryDTO) (m : t) (cid : text) : Prop :=
  ∃ c, objects m !! cid = Some c ∧ (WSConnection.try_send now c (frame_of d)).1 = false.
#[export] Instance refuses_dec now d m cid : Decision (refuses now d m cid).
Proof.
  unfold refuses. destruct (objects m !! cid) as [c|] eqn:Hc.
  - destruct (WSConnection.try_send now c (frame_of d)).1 eqn:E; [right|left; by exists c].
    intros (c' & [= <-] & E'). congruence.
  - right. by intros (? & ? & _).
Defined.

Lemma send_one_objects now d cid m :
  (_send_or_unregister now d cid m).1 = m <| objects ::= alter (offered now d) cid |>.
Proof.
  unfold _send_or_unregister. destruct (objects m !! cid) as [c|] eqn:Hc.
  - unfold offered. destruct (WSConnection.try_send now c (frame_of d)) as [b c'] eqn:E. cbn.
    destruct m; unfold modify_field; cbn in *. f_equal. apply map_eq. intros k.
    destruct (decide (k = cid)) as [->|].
    + by rewrite lookup_insert_eq, lookup_alter_eq, Hc; cbn; rewrite E.
    + by rewrite lookup_insert_ne, lookup_alter_ne.
  - destruct m; unfold modify_field; cbn in *. f_equal. apply map_eq. intros k.
    destruct (decide (k = cid)) as [->|]; [by rewrite lookup_alter_eq, Hc|by rewrite lookup_alter_ne].
Qed.

Lemma send_one_tasks now d cid m :
  (_send_or_unregister now d cid m).2 = (if decide (refuses now d m cid) then [MkUnregister cid 1013] else []).
Proof.
  unfold _send_or_unregister. case_decide as Hr.
  - destruct Hr as (c & -> & E). by destruct (WSConnection.try_send _ _ _); simplify_eq/=.
  - destruct (objects m !! cid) as [c|] eqn:Hc; [|done].
    destruct (WSConnection.try_send now c (frame_of d)) as [[] c'] eqn:E; [done|].
    exfalso. apply Hr. exists c. by rewrite E.
Qed.

Lemma send_many_spec now d cids m :
  NoDup cids →
  (∀ cid, objects (_send_to_connections now d cids m).1 !! cid =
     (if decide (cid ∈ cids) then offered now d else id) <$> objects m !! cid)
  ∧ (_send_to_connections now d cids m).2
    = (λ cid, MkUnregister cid 1013) <$> filter (refuses now d m) cids.
Proof.
  revert m. induction cids as [|cid cids IH]; intros m Hnd.
  { cbn. split; [|done]. intros k. by destruct (objects m !! k). }
  apply list.NoDup_cons in Hnd as [Hout Hnd].
  cbn [_send_to_connections]. pose proof (send_one_objects now d cid m) as Ho.
  pose proof (send_one_tasks now d cid m) as Ht.
  destruct (_send_or_unregister now d cid m) as [m1 k]. cbn in Ho, Ht. subst m1 k.
  set (m1 := m <| objects ::= alter (offered now d) cid |>).
  destruct (IH m1 Hnd) as [IHo IHt]. destruct (_send_to_connections now d cids m1) as [m2 ks].
  cbn [fst snd] in IHo, IHt |- *. split.
  - intros k. rewrite IHo. unfold m1. cbn. destruct (decide (k = cid)) as [->|Hne].
    + rewrite lookup_alter_eq, decide_False, decide_True by (done || by left). by destruct (objects m !! cid).
    + rewrite lookup_alter_ne by done. destruct (decide (k ∈ cids)) as [Hin|Hin].
      * rewrite decide_True by (by right). done.
      * rewrite decide_False; [done|]. by intros [?|?]%elem_of_cons.
  - rewrite IHt, filter_cons. assert (filter (refuses now d m1) cids = filter (refuses now d m) cids) as ->.
    { apply filter_iff_in. intros x Hx. unfold refuses, m1. cbn.
      rewrite lookup_alter_ne; [done|]. by intros <-. }
    by case_decide.
Qed.

Lemma elem_of_targets d m cid :
  gateway_ok m →
  cid ∈ WSConnection.connection_id <$> targets d m ↔
  ∃ u c, u ∈ dv_recipients d ∧ cid ∈ user_conns m u ∧ objects m !! cid = Some c
    ∧ (dv_require_subscription d = false ∨ dv_channel d ∈ WSConnection.subscriptions c).
Proof.
  intros Hok. rewrite list_elem_of_fmap. unfold targets. split.
  - intros (c & -> & (u & Hc & Hu)%list_elem_of_bind).
    apply list_elem_of_filter in Hc as [Hs (k & Hk & _ & Hc)%elem_of_registered].
    apply elem_of_elements in Hk. exists u, c. rewrite (go_object _ Hok _ _ Hc). by split_and!.
  - intros (u & c & Hu & Hin & Hc & Hs). exists c. rewrite (go_object _ Hok _ _ Hc). split; [done|].
    apply list_elem_of_bind. exists u. split; [|done]. apply list_elem_of_filter. split; [done|].
    apply elem_of_registered. exists cid. rewrite elem_of_elements. split_and!; [done| |done].
    by apply (go_user _ Hok) in Hin as [? _].
Qed.

Lemma fmap_filter_sublist {A B} (f : A → B) (P : A → Prop) `{!∀ x, Decision (P x)} (l : list A) :
  f <$> filter P l `sublist_of` f <$> l.
Proof. apply fmap_sublist, sublist_filter. Qed.

(** A connection belongs to one user, so it is chosen once. *)
Lemma NoDup_targets d m :
  gateway_ok m → NoDup (dv_recipients d) → NoDup (WSConnection.connection_id <$> targets d m).
Proof.
  intros Hok. unfold targets. generalize (dv_recipients d) as us.
  induction us as [|u us IH]; [constructor|].
  intros [Hu Hnd]%list.NoDup_cons. cbn. rewrite fmap_app. apply list.NoDup_app. split_and!; [| |by apply IH].
  - eapply sublist_NoDup; [|apply fmap_filter_sublist].
    rewrite registered_user by done. apply NoDup_elements.
  - intros cid (c & -> & [_ (k & Hk & _ & Hc)%elem_of_registered]%list_elem_of_filter)%list_elem_of_fmap
      (c' & E & (u' & Hc' & Hu')%list_elem_of_bind)%list_elem_of_fmap.
    apply list_elem_of_filter in Hc' as [_ (k' & Hk' & _ & Hc')%elem_of_registered].
    apply elem_of_elements in Hk, Hk'. pose proof (go_object _ Hok _ _ Hc). pose proof (go_object _ Hok _ _ Hc').
    destruct (go_user _ Hok _ _ Hk) as (_ & x & Hx & ?), (go_user _ Hok _ _ Hk') as (_ & y & Hy & ?). congruence.
Qed.

(** ** A batch of entries *)
Definition offer (now : datetime) (f : frame) (c : WSConnection.t) : WSConnection.t :=
  (WSConnection.try_send now c f).2.

Lemma local_indexes now d m :
  connections_by_id (send_to_users_local now d m).1 = connections_by_id m
  ∧ connections_by_user (send_to_users_local now d m).1 = connections_by_user m
  ∧ gateway_id (send_to_users_local now d m).1 = gateway_id m.
Proof.
  unfold send_to_users_local. generalize (WSConnection.connection_id <$> targets d m) as cids. intros cids.
  revert m. induction cids as [|cid cids IH]; intros m; cbn [_send_to_connections]; [done|].
  pose proof (send_one_objects now d cid m) as E. destruct (_send_or_unregister now d cid m) as [m1 k].
  cbn in E. subst m1. pose proof (IH (m <| objects ::= alter (offered now d) cid |>)) as (H1 & H2 & H3).
  destruct (_send_to_connections _ _ _ _). cbn in *. done.
Qed.

(** an unconditional delivery: exactly the live connections of its recipients
    are offered the frame *)
Lemma local_objects now d m cid c :
  gateway_ok m → NoDup (dv_recipients d) → dv_require_subscription d = false →
  objects m !! cid = Some c →
  objects (send_to_users_local now d m).1 !! cid =
    Some (if decide (cid ∈ connections_by_id m ∧ WSConnection.user_id c ∈ dv_recipients d)
          then offer now (frame_of d) c else c).
Proof.
  intros Hok Hnd Hreq Hc. unfold send_to_users_local.
  rewrite (proj1 (send_many_spec now d _ m (NoDup_targets d m Hok Hnd))), Hc.
  assert (cid ∈ WSConnection.connection_id <$> targets d m
    ↔ cid ∈ connections_by_id m ∧ WSConnection.user_id c ∈ dv_recipients d) as Hiff.
  { rewrite elem_of_targets by done. split.
    - intros (u & c' & Hu & Hin & Hc' & _). apply (go_user _ Hok) in Hin as (? & c'' & ? & ?). simplify_eq. done.
    - intros [Hin Hu]. exists (WSConnection.user_id c), c. split_and!; [done| |done|by left].
      apply (go_live _ Hok) in Hin as (c' & ? & ?). by simplify_eq. }
  case_decide; case_decide; (done || tauto).
Qed.

Lemma process_objects now f es ds m cid c :
  gateway_ok m → snd <$> es = Some <$> ds → NoDup (ds ≫= dv_recipients) →
  Forall (λ d, dv_require_subscription d = false ∧ dv_expires_at d = None ∧ frame_of d = f) ds →
  objects m !! cid = Some c →
  objects (_process_entries now es m).1.1 !! cid =
    Some (if decide (cid ∈ connections_by_id m ∧ WSConnection.user_id c ∈ ds ≫= dv_recipients)
          then offer now f c else c).
Proof.
  revert ds m c. induction es as [|[i e] es IH]; intros [|d ds] m c Hok E Hnd Hall Hc; simplify_eq/=.
  - rewrite Hc, decide_False; [done|]. by intros [_ ?%elem_of_nil].
  - apply Forall_cons_iff in Hall as [(Hreq & Hexp & <-) Hall].
    apply list.NoDup_app in Hnd as (Hd & Hdis & Hnd). cbn. rewrite Hexp. cbn.
    pose proof (local_objects now d m cid c Hok Hd Hreq Hc) as H1. pose proof (local_indexes now d m) as (Hi & _).
    pose proof (ok_steps _ _ (steps_send_many now d (WSConnection.connection_id <$> targets d m) m) Hok) as Hok1.
    change (_send_to_connections now d (WSConnection.connection_id <$> targets d m) m) with (send_to_users_local now d m) in Hok1.
    destruct (send_to_users_local now d m) as [m1 k] eqn:Hm1. cbn in H1, Hi, Hok1.
    eapply (IH ds m1) in H1; [|done..].
    destruct (_process_entries now es m1) as [[m2 ks] ids]. cbn in H1 |- *. rewrite H1, Hi. f_equal.
    set (c1 := if decide _ then offer now (frame_of d) c else c).
    assert (WSConnection.user_id c1 = WSConnection.user_id c) as ->.
    { unfold c1. clear. case_decide; [apply try_send_identity|done]. }
    pose proof (elem_of_app (dv_recipients d) (ds ≫= dv_recipients) (WSConnection.user_id c)) as Happ.
    pose proof (Hdis (WSConnection.user_id c)). clear H1. unfold c1.
    repeat case_decide; (done || tauto).
Qed.

(** a recipient's connection that does not take the frame is to be unregistered *)
Lemma process_refused now f es ds m cid c :
  gateway_ok m → snd <$> es = Some <$> ds → NoDup (ds ≫= dv_recipients) →
  Forall (λ d, dv_require_subscription d = false ∧ dv_expires_at d = None ∧ frame_of d = f) ds →
  objects m !! cid = Some c → cid ∈ connections_by_id m → WSConnection.user_id c ∈ ds ≫= dv_recipients →
  (WSConnection.try_send now c f).1 = false →
  MkUnregister cid 1013 ∈ (_process_entries now es m).1.2.
Proof.
  revert ds m. induction es as [|[i e] es IH]; intros [|d ds] m Hok E Hnd Hall Hc Hin Hu Hf; simplify_eq/=.
  - by apply elem_of_nil in Hu.
  - apply Forall_cons_iff in Hall as [(Hreq & Hexp & Hfr) Hall].
    apply list.NoDup_app in Hnd as (Hd & Hdis & Hnd). cbn. rewrite Hexp. cbn.
    pose proof (local_objects now d m cid c Hok Hd Hreq Hc) as H1. pose proof (local_indexes now d m) as (Hi & _).
    pose proof (ok_steps _ _ (steps_send_many now d (WSConnection.connection_id <$> targets d m) m) Hok) as Hok1.
    change (_send_to_connections now d (WSConnection.connection_id <$> targets d m) m) with (send_to_users_local now d m) in Hok1.
    assert (WSConnection.user_id c ∈ dv_recipients d → MkUnregister cid 1013 ∈ (send_to_users_local now d m).2) as Hhere.
    { intros Hur. unfold send_to_users_local. rewrite (proj2 (send_many_spec now d _ m (NoDup_targets d m Hok Hd))).
      apply list_elem_of_fmap. exists cid. split; [done|]. apply list_elem_of_filter. split; [exists c; by rewrite Hfr|].
      apply elem_of_targets; [done|]. destruct (go_live _ Hok _ Hin) as (c' & Hc' & Hcu).
      rewrite Hc in Hc'. injection Hc' as <-. exists (WSConnection.user_id c), c. split_and!; [done..|by left]. }
    destruct (send_to_users_local now d m) as [m1 k]. cbn in H1, Hi, Hok1, Hhere.
    assert (snd <$> es = Some <$> ds) as Heq by done. specialize (IH ds m1 Hok1 Heq Hnd Hall). destruct (_process_entries now es m1) as [[m2 ks] ids]. cbn in IH |- *.
    apply elem_of_app. destruct (decide (WSConnection.user_id c ∈ dv_recipients d)) as [Hur|Hur]; [left; by apply Hhere|right].
    apply IH; [|by rewrite Hi|by apply elem_of_app in Hu as [?|?]|done].
    rewrite H1, decide_False; [done|]. tauto.
Qed.

(** the newest connection is not among the oldest, unless all are *)
Lemma newest_kept m conn n :
  let m1 := (register_locked conn m).1.1 in
  let uid := WSConnection.user_id conn in
  gateway_ok m → objects m !! WSConnection.connection_id conn = None →
  (∀ k c, k ∈ user_conns m uid → objects m !! k = Some c →
    WSConnection.connected_at c < WSConnection.connected_at conn) →
  (n < length (by_age m1 uid))%nat →
  ∀ c, c ∈ take n (by_age m1 uid) → WSConnection.connection_id c ≠ WSConnection.connection_id conn.
Proof.
  intros m1 uid Hok Hf Hnew Hn c Hc Hid.
  assert (gateway_ok m1) as Hok1 by (by apply ok_register).
  pose proof (by_age_sorted m1 uid) as Hsort. rewrite <- (take_drop n (by_age m1 uid)) in Hsort.
  destruct (drop n (by_age m1 uid)) as [|y l] eqn:Hd.
  { assert (length (drop n (by_age m1 uid)) = 0%nat) as E by (by rewrite Hd). rewrite length_drop in E. lia. }
  pose proof (sorted_split connected_le _ _ Hsort c y Hc ltac:(by left)) as Hle.
  assert (c ∈ by_age m1 uid) as Hc' by (eapply elem_of_sublist; [exact Hc|apply sublist_take]).
  assert (y ∈ by_age m1 uid) as Hy.
  { eapply elem_of_sublist; [|apply (sublist_drop _ n)]. rewrite Hd. by left. }
  apply elem_of_by_age in Hc' as (kc & Hkc & Hoc), Hy as (ky & Hky & Hoy); [|done..].
  pose proof (go_object _ Hok1 _ _ Hoc) as Ec. pose proof (go_object _ Hok1 _ _ Hoy) as Ey.
  assert (ky ≠ kc) as Hne.
  { intros ->. assert (NoDup (WSConnection.connection_id <$> by_age m1 uid)) as Hnd
      by (rewrite by_age_ids by done; apply NoDup_elements).
    rewrite <- (take_drop n (by_age m1 uid)), Hd, fmap_app in Hnd. apply list.NoDup_app in Hnd as (_ & Hdis & _).
    apply (Hdis kc); [rewrite <- Ec|rewrite <- Ey]; [by apply list_elem_of_fmap_2|]. cbn. by left. }
  unfold m1 in Hoc, Hoy. rewrite register_objects in Hoc, Hoy.
  rewrite decide_True in Hoc by congruence. rewrite decide_False in Hoy by congruence.
  unfold m1 in Hky. rewrite register_users, decide_True in Hky by done.
  assert (ky ∈ user_conns m uid) as Hin by set_solver.
  pose proof (Hnew _ _ Hin Hoy). unfold connected_le in Hle. simplify_eq/=. lia.
Qed.

Lemma excess_lt m u : (0 < size (user_conns m u))%nat → (excess m u < size (user_conns m u))%nat.
Proof. unfold excess, app_config.WS_MAX_CONNECTIONS_PER_USER. lia. Qed.

(** the ids of the tasks a registration of the newest connection starts *)
Lemma register_tasks now conn m r m1 r1 tasks :
  let uid := WSConnection.user_id conn in
  gateway_ok m → objects m !! WSConnection.connection_id conn = None →
  (∀ k c, k ∈ user_conns m uid → objects m !! k = Some c →
    WSConnection.connected_at c < WSConnection.connected_at conn) →
  register now conn m r = (m1, r1, tasks) →
  m1 = (register_locked conn m).1.1 ∧ gateway_ok m1 ∧ WSConnection.connection_id conn ∈ user_conns m1 uid
  ∧ ut_connection_id <$> tasks = WSConnection.connection_id <$> take (excess m1 uid) (by_age m1 uid)
  ∧ ∀ c, c ∈ take (excess m1 uid) (by_age m1 uid) → WSConnection.connection_id c ≠ WSConnection.connection_id conn.
Proof.
  intros uid Hok Hf Hnew Hreg.
  assert (m1 = (register_locked conn m).1.1) as ->.
  { revert Hreg. unfold register. destruct (register_locked conn m) as [[??]?]. by intros [= <- _ _]. }
  assert (gateway_ok (register_locked conn m).1.1) as Hok1 by (by apply ok_register).
  assert (WSConnection.connection_id conn ∈ user_conns (register_locked conn m).1.1 uid) as Hin.
  { rewrite register_users, decide_True by done. set_solver. }
  assert (∀ c, c ∈ take (excess (register_locked conn m).1.1 uid) (by_age (register_locked conn m).1.1 uid) →
    WSConnection.connection_id c ≠ WSConnection.connection_id conn) as Hkeep.
  { apply newest_kept; [done..|]. rewrite length_by_age by done. apply excess_lt.
    apply Nat.neq_0_lt_0. intros He%size_empty_inv. set_solver. }
  split_and!; try done.
  revert Hreg. unfold register. pose proof (register_stale m conn) as Hs.
  destruct (register_locked conn m) as [[m' first] stale]. cbn in Hs, Hkeep. intros [= _ <-].
  rewrite <- list_fmap_compose, Hs. cbn [fst]. fold uid. rewrite filter_all; done.
Qed.
