(* ===== verification/DeliverySpec.v ===== *)
(** What a fan-out writes: the pages of members cover every unbanned member
    once, and each gateway's stream gets each of them that has a connection
    there once. *)
From S2P Require Import Prelude Config Events MemberModel MessageModel ChatModel Store MessageRepo WsModel Gateway Delivery.

(** ** Pages of members *)
#[export] Instance delivery_member_total : Total delivery_member_le.
Proof. intros a b. unfold delivery_member_le. lia. Qed.
#[export] Instance delivery_member_trans : Transitive delivery_member_le.
Proof. intros a b c. unfold delivery_member_le. lia. Qed.

(** the row of a member the chat delivers to *)
Definition delivers_to (now : datetime) (s : store) (chat_id : UUID) (m : DeliveryMember) : Prop :=
  ∃ row, members s !! (chat_id, dm_user_id m) = Some row ∧ ChatMember.is_banned now row = false
    ∧ dm_notifications_muted_until m = ChatMember.notifications_muted_until row.

(** the query behind a page, without its limit *)
Definition members_past (now : datetime) (s : store) (chat_id : UUID) (last_user_id : Z) : list DeliveryMember :=
  merge_sort delivery_member_le (omap (λ kv : (UUID * Z) * ChatMember.t,
    if bool_decide (kv.1.1 = chat_id) && negb (ChatMember.is_banned now kv.2) && (last_user_id <? kv.1.2)
    then Some (MkDeliveryMember kv.1.2 (ChatMember.notifications_muted_until kv.2)) else None)
    (map_to_list (members s))).

Lemma delivery_page_take now s chat last n :
  delivery_page now s chat last n = take n (members_past now s chat last).
Proof. done. Qed.

Lemma elem_of_members_past now s chat last m :
  m ∈ members_past now s chat last ↔ delivers_to now s chat m ∧ last < dm_user_id m.
Proof.
  unfold members_past. rewrite merge_sort_Permutation, list_elem_of_omap. split.
  - intros ([[c u] row] & Hin%elem_of_map_to_list & H). cbn in H. case_match eqn:E; [|done].
    simplify_eq/=. bool_simpl. subst. cbn. split; [|lia]. by exists row.
  - intros [(row & Hrow & Hb & Hm) Hlt]. destruct m as [u muted]. cbn in *.
    exists ((chat, u), row). rewrite elem_of_map_to_list. split; [done|]. cbn.
    rewrite bool_decide_true, Hb by done. cbn. rewrite (proj2 (Z.ltb_lt _ _)) by lia. by rewrite Hm.
Qed.

Lemma members_past_sorted now s chat last : StronglySorted (key_lt dm_user_id) (members_past now s chat last).
Proof.
  assert (NoDup (dm_user_id <$> members_past now s chat last)) as Hnd.
  { unfold members_past. rewrite merge_sort_Permutation.
    assert (NoDup (map_to_list (members s)).*1) as Hk by apply NoDup_fst_map_to_list.
    revert Hk. generalize (map_to_list (members s)). induction l as [|[[c u] row] l IH]; [constructor|].
    cbn [fmap list_fmap]. intros [Hout Hk]%list.NoDup_cons. cbn [omap list_omap fst snd]. case_match eqn:E; [|by apply IH].
    case_match eqn:E'; [|done]. simplify_eq. cbn. apply list.NoDup_cons. split; [|by apply IH].
    bool_simpl. subst.
    intros (x & -> & ([[c' u'] row'] & Hin & Hx)%list_elem_of_omap)%list_elem_of_fmap. cbn in Hx.
    case_match eqn:E''; [|done]. bool_simpl. simplify_eq/=.
    apply Hout. apply list_elem_of_fmap. by exists ((chat, u'), row'). }
  assert (StronglySorted delivery_member_le (members_past now s chat last)) as Hs.
  { apply Sorted_StronglySorted; [apply _|]. unfold members_past. apply Sorted_merge_sort, _. }
  by apply sorted_strictly.
Qed.

Lemma members_past_next now s chat last n m :
  list.last (take n (members_past now s chat last)) = Some m →
  members_past now s chat (dm_user_id m) = drop n (members_past now s chat last).
Proof.
  apply (next_page dm_user_id (members_past now s chat) (delivers_to now s chat));
    [apply members_past_sorted|apply elem_of_members_past].
Qed.

(** Enough fuel: every page but the last drops at least one member. *)
Lemma concat_pages fuel now s chat n last :
  (0 < n)%nat → (length (members_past now s chat last) < fuel)%nat →
  concat (delivery_pages fuel now s chat n last) = members_past now s chat last.
Proof.
  intros Hn. revert last. induction fuel as [|fuel IH]; intros last Hf; [lia|].
  cbn [delivery_pages]. rewrite delivery_page_take. destruct (list.last _) as [m|] eqn:Hm.
  - cbn [concat]. rewrite IH; rewrite (members_past_next _ _ _ _ _ _ Hm); [apply take_drop|].
    rewrite length_drop. destruct (members_past now s chat last); [|cbn in *; lia].
    by rewrite take_nil in Hm.
  - apply last_None in Hm. destruct (members_past now s chat last) as [|x l]; [done|]. by destruct n; [lia|].
Qed.

Lemma length_members_past now s chat last : (length (members_past now s chat last) <= size (members s))%nat.
Proof.
  unfold members_past. rewrite merge_sort_Permutation, <- length_map_to_list.
  induction (map_to_list (members s)) as [|kv l IH]; cbn [omap list_omap]; [done|].
  case_match; cbn; lia.
Qed.

Lemma concat_iter now s chat n :
  (0 < n)%nat → concat (iter_delivery_members now s chat n) = members_past now s chat (-1).
Proof.
  intros Hn. apply concat_pages; [done|]. pose proof (length_members_past now s chat (-1)). lia.
Qed.

(** ** Chunks *)
Lemma concat_chunks {A} size (items : list A) : concat (chunks size items) = items.
Proof.
  unfold chunks. enough (∀ batch, concat (chunks_from size batch items) = batch ++ items) by (by rewrite H).
  induction items as [|x items IH]; intros batch; cbn [chunks_from].
  - destruct batch; cbn; by rewrite ?app_nil_r.
  - case_bool_decide; cbn [concat]; rewrite IH; by rewrite <- ?app_assoc.
Qed.

Lemma chunks_size {A} size (items : list A) :
  (0 < size)%nat → Forall (λ c, c ≠ [] ∧ (length c <= size)%nat) (chunks size items).
Proof.
  intros Hs. unfold chunks.
  enough (∀ batch, (length batch < size)%nat → Forall (λ c, c ≠ [] ∧ (length c <= size)%nat) (chunks_from size batch items))
    as H by (by apply H).
  induction items as [|x items IH]; intros batch Hb; cbn [chunks_from].
  - destruct batch; constructor; [|done]. split; [done|lia].
  - case_bool_decide as Hd; rewrite length_app in Hd; cbn in Hd.
    + constructor; [|by apply IH]. rewrite length_app. cbn. split; [|lia]. by destruct batch.
    + apply IH. rewrite length_app. cbn. lia.
Qed.

(** ** Routes of users *)

(** where the route set of a user says they are connected *)
Definition online_at (sets : gset (text * text)) (u : Z) (g : text) : Prop :=
  ∃ route cid, (WebsocketKeys.user_route_key u, route) ∈ sets ∧ parse_user_route route = Some (g, cid).

(** the users a map sends to a gateway *)
Definition users_at (routes : list (text * gset Z)) (g : text) : gset Z :=
  default ∅ (OrderedDict.get routes g).

Lemma get_set {V} (d : list (text * V)) k v k' :
  OrderedDict.get (OrderedDict.set d k v) k' = if decide (k = k') then Some v else OrderedDict.get d k'.
Proof.
  induction d as [|[k0 v0] d IH]; cbn; [by case_decide|].
  destruct (decide (k0 = k)) as [->|Hne]; cbn; [by case_decide|].
  rewrite IH. repeat case_decide; congruence.
Qed.

Lemma elem_of_set_keys {V} (d : list (text * V)) k v k' :
  k' ∈ fst <$> OrderedDict.set d k v → k' = k ∨ k' ∈ fst <$> d.
Proof.
  induction d as [|[k0 v0] d IH]; cbn.
  - intros ?%list_elem_of_singleton. by left.
  - case_decide; subst; cbn; rewrite !elem_of_cons; naive_solver.
Qed.

Lemma NoDup_set_keys {V} (d : list (text * V)) k v :
  NoDup (fst <$> d) → NoDup (fst <$> OrderedDict.set d k v).
Proof.
  induction d as [|[k0 v0] d IH]; cbn; [intros _; apply NoDup_singleton|].
  intros [Hout Hnd]%list.NoDup_cons. case_decide as Hd; subst; cbn; apply list.NoDup_cons; [done|].
  split; [|by apply IH]. intros [->|?]%elem_of_set_keys; done.
Qed.

Lemma get_elem_of {V} (d : list (text * V)) k v : NoDup (fst <$> d) → OrderedDict.get d k = Some v ↔ (k, v) ∈ d.
Proof.
  induction d as [|[k0 v0] d IH]; cbn; [by rewrite elem_of_nil|].
  intros [Hout Hnd]%list.NoDup_cons. rewrite elem_of_cons. case_decide as Hd; subst.
  - split; [intros [= <-]; by left|]. intros [[= <-]|Hin]; [done|]. exfalso. apply Hout.
    apply list_elem_of_fmap. by exists (k, v).
  - rewrite IH by done. naive_solver.
Qed.

(** A route map has each gateway once. *)
Definition routes_ok (routes : list (text * gset Z)) : Prop := NoDup (fst <$> routes).

Lemma users_at_add g u routes g' :
  users_at (add_route g u routes) g' = if decide (g = g') then {[ u ]} ∪ users_at routes g else users_at routes g'.
Proof. unfold users_at, add_route. rewrite get_set. case_decide; subst; done. Qed.

(** the inner loop of [_lookup_online_routes] *)
Definition lookup_one (r : redis) (acc : list (text * gset Z) * list (text * text)) (u : Z) :=
  foldl (λ acc route,
      match parse_user_route route with
      | Some (gateway_id, _) => (add_route gateway_id u acc.1, acc.2)
      | None => (acc.1, acc.2 ++ [(WebsocketKeys.user_route_key u, route)])
      end) acc (SMEMBERS (WebsocketKeys.user_route_key u) r).

Lemma lookup_one_spec r acc u :
  routes_ok acc.1 →
  routes_ok (lookup_one r acc u).1
  ∧ ∀ g v, v ∈ users_at (lookup_one r acc u).1 g ↔ v ∈ users_at acc.1 g ∨ v = u ∧ online_at (rd_sets r) u g.
Proof.
  unfold lookup_one, online_at. setoid_rewrite <- elem_of_SMEMBERS.
  generalize (SMEMBERS (WebsocketKeys.user_route_key u) r) as l. intros l. revert acc.
  induction l as [|route l IH]; intros acc Hok; cbn [foldl].
  { split; [done|]. intros g v. split; [by left|]. intros [?|(_ & ? & ? & []%elem_of_nil & _)]; done. }
  destruct (parse_user_route route) as [[g0 c0]|] eqn:Hp.
  - destruct (IH (add_route g0 u acc.1, acc.2)) as [H1 H2]; [by apply NoDup_set_keys|].
    split; [done|]. intros g v. rewrite H2. cbn [fst]. rewrite users_at_add. setoid_rewrite elem_of_cons.
    case_decide as Hd; [subst g0; rewrite elem_of_union, elem_of_singleton|]; naive_solver congruence.
  - destruct (IH (acc.1, acc.2 ++ [(WebsocketKeys.user_route_key u, route)])) as [H1 H2]; [done|].
    split; [done|]. intros g v. rewrite H2. cbn [fst]. setoid_rewrite elem_of_cons. naive_solver congruence.
Qed.

Lemma lookup_routes_spec r ids :
  let routes := (ChatDeliveryRouter._lookup_online_routes r ids).1 in
  routes_ok routes ∧ ∀ g v, v ∈ users_at routes g ↔ v ∈ ids ∧ online_at (rd_sets r) v g.
Proof.
  cbv zeta. change (ChatDeliveryRouter._lookup_online_routes r ids) with (foldl (lookup_one r) ([], []) ids).
  enough (∀ acc, routes_ok acc.1 →
    routes_ok (foldl (lookup_one r) acc ids).1
    ∧ ∀ g v, v ∈ users_at (foldl (lookup_one r) acc ids).1 g
        ↔ v ∈ users_at acc.1 g ∨ v ∈ ids ∧ online_at (rd_sets r) v g) as H.
  { destruct (H ([], [])) as [H1 H2]; [constructor|]. split; [done|]. intros g v. rewrite H2. cbn.
    unfold users_at. cbn. set_solver. }
  induction ids as [|u ids IH]; intros acc Hok; cbn [foldl].
  - split; [done|]. intros g v. rewrite elem_of_nil. tauto.
  - destruct (lookup_one_spec r acc u Hok) as [H1 H2], (IH _ H1) as [H3 H4]. split; [done|].
    intros g v. rewrite H4, H2, elem_of_cons. naive_solver.
Qed.

(** ** Entries for the gateways *)
Import ChatDeliveryRouter.

Lemma elem_of_sorted_ids X u : u ∈ sorted_ids X ↔ u ∈ X.
Proof. unfold sorted_ids. by rewrite merge_sort_Permutation, elem_of_elements. Qed.

Lemma NoDup_sorted_ids X : NoDup (sorted_ids X).
Proof. unfold sorted_ids. rewrite merge_sort_Permutation. apply NoDup_elements. Qed.

(** everyone the entries name at a gateway *)
Definition recipients_at (g : text) (entries : list (text * DeliveryDTO)) : list Z :=
  entries ≫= λ gd, if decide (gd.1 = g) then dv_recipients gd.2 else [].

Lemma recipients_at_app g e1 e2 : recipients_at g (e1 ++ e2) = recipients_at g e1 ++ recipients_at g e2.
Proof. apply bind_app. Qed.

Lemma recipients_at_chunk g g' (mk : list Z → DeliveryDTO) (chunks : list (list Z)) :
  (∀ c, dv_recipients (mk c) = c) →
  recipients_at g ((λ c, (g', mk c)) <$> chunks) = if decide (g' = g) then concat chunks else [].
Proof.
  intros Hmk. unfold recipients_at. induction chunks as [|c chunks IH]; cbn.
  - by case_decide.
  - rewrite IH, Hmk. by case_decide.
Qed.

Lemma recipients_at_entries g routes ev payload req until :
  routes_ok routes →
  recipients_at g (gateway_entries routes ev payload req until) = sorted_ids (users_at routes g).
Proof.
  unfold gateway_entries, routes_ok, users_at. induction routes as [|[g0 users] routes IH]; [done|].
  cbn [fmap list_fmap fst mbind list_bind OrderedDict.get].
  intros [Hout Hnd]%list.NoDup_cons. rewrite recipients_at_app, IH by done.
  rewrite recipients_at_chunk, concat_chunks by done. case_decide as Hd; [|done].
  assert (OrderedDict.get routes g = None) as ->; [|cbn; apply app_nil_r].
  destruct (OrderedDict.get routes g) as [X|] eqn:E; [|done]. apply get_elem_of in E; [|done].
  exfalso. apply Hout. apply list_elem_of_fmap. exists (g, X). by subst.
Qed.

(** what the entries of an event have in common *)
Definition carries (ev : WsEvent) (payload : MessagePayloadWS) (req : bool) (until : option datetime)
  (d : DeliveryDTO) : Prop :=
  dv_type d = we_type ev ∧ dv_channel d = str_uuid (we_chat_id ev) ∧ dv_payload d = payload
  ∧ dv_require_subscription d = req ∧ dv_ts d = we_ts ev ∧ dv_expires_at d = until
  ∧ dv_recipients d ≠ [] ∧ (length (dv_recipients d) <= app_config.WS_GATEWAY_STREAM_USERS_PER_ENTRY)%nat.

Lemma entries_carry routes ev payload req until :
  Forall (λ gd, carries ev payload req until gd.2) (gateway_entries routes ev payload req until).
Proof.
  apply list.Forall_forall. intros [g d] ([g0 users] & Hin & _)%list_elem_of_bind.
  apply list_elem_of_fmap in Hin as (c & [= -> ->] & Hc). cbn.
  assert (0 < app_config.WS_GATEWAY_STREAM_USERS_PER_ENTRY)%nat as Hpos.
  { unfold app_config.WS_GATEWAY_STREAM_USERS_PER_ENTRY. lia. }
  pose proof (chunks_size app_config.WS_GATEWAY_STREAM_USERS_PER_ENTRY (sorted_ids users) Hpos) as Hall.
  rewrite list.Forall_forall in Hall. apply Hall in Hc as [? ?]. by split_and!.
Qed.

(** ** Streams *)
Definition add_all (r : redis) (entries : list (text * DeliveryDTO)) : redis :=
  foldl (λ r gd, XADD (WebsocketKeys.gateway_stream_key gd.1) gd.2 r) r entries.

Lemma add_all_app r e1 e2 : add_all r (e1 ++ e2) = add_all (add_all r e1) e2.
Proof. apply foldl_app. Qed.

Lemma add_all_sets r entries : rd_sets (add_all r entries) = rd_sets r.
Proof. revert r. induction entries as [|gd entries IH]; intros r; [done|]. unfold add_all in *. cbn. by rewrite IH. Qed.

(** ** The fan-out *)
Lemma lookup_sets r r' ids : rd_sets r = rd_sets r' → _lookup_online_routes r ids = _lookup_online_routes r' ids.
Proof. intros E. unfold _lookup_online_routes, SMEMBERS. by rewrite E. Qed.

Section fanout.
Context (now : datetime) (ev : WsEvent) (payload : MessagePayloadWS) (exclude : gset Z) (until : option datetime).

Definition batch_routes (r : redis) (b : list DeliveryMember) : list (text * gset Z) :=
  (_lookup_online_routes r (filter (λ u, u ∉ exclude) (dm_user_id <$> b))).1.
Definition batch_entries (r : redis) (b : list DeliveryMember) : list (text * DeliveryDTO) :=
  gateway_entries (batch_routes r b) ev payload false until.
Definition batch_offline (r : redis) (b : list DeliveryMember) : list Z :=
  _offline_recipients ev (unmuted now b) (batch_routes r b).

Lemma batch_routes_sets r r' b : rd_sets r = rd_sets r' → batch_routes r b = batch_routes r' b.
Proof. intros E. unfold batch_routes. by rewrite (lookup_sets r r'). Qed.

Lemma fanout_chunks_spec sig batches x :
  let '(off, x') := fanout_chunks now ev payload exclude until sig batches x in
  rs_redis x' = add_all (rs_redis x) (batches ≫= batch_entries (rs_redis x))
  ∧ rs_signals x' = rs_signals x ∧ rs_reactions x' = rs_reactions x
  ∧ off = if sig then batches ≫= batch_offline (rs_redis x) else [].
Proof.
  revert x. induction batches as [|b batches IH]; intros x; cbn [fanout_chunks]; [by destruct sig|].
  unfold fanout_chunk, lookup. 
  destruct (_lookup_online_routes (rs_redis x) (filter (λ u, u ∉ exclude) (dm_user_id <$> b))) as [routes stale] eqn:Hl.
  assert (routes = batch_routes (rs_redis x) b) as -> by (unfold batch_routes; by rewrite Hl).
  set (x1 := _enqueue_gateway_deliveries _ _ _ _ _ _).
  assert (rs_redis x1 = add_all (rs_redis x) (batch_entries (rs_redis x) b)) as Hx1 by done.
  specialize (IH x1). destruct (fanout_chunks now ev payload exclude until sig batches x1) as [off' x2].
  destruct IH as (Hr & Hs & Hre & Hoff). rewrite Hx1 in Hr, Hoff.
  assert (∀ b', batch_routes (add_all (rs_redis x) (batch_entries (rs_redis x) b)) b' = batch_routes (rs_redis x) b') as E.
  { intros b'. apply batch_routes_sets, add_all_sets. }
  assert (∀ b', batch_entries (add_all (rs_redis x) (batch_entries (rs_redis x) b)) b' = batch_entries (rs_redis x) b') as E1.
  { intros b'. unfold batch_entries at 1. by rewrite E. }
  assert (∀ b', batch_offline (add_all (rs_redis x) (batch_entries (rs_redis x) b)) b' = batch_offline (rs_redis x) b') as E2.
  { intros b'. unfold batch_offline. by rewrite E. }
  split_and!; [|done|done|].
  - rewrite Hr. cbn [mbind list_bind]. rewrite add_all_app. f_equal. apply list_bind_ext; done.
  - rewrite Hoff. destruct sig; [|done]. cbn [mbind list_bind]. f_equal. apply list_bind_ext; done.
Qed.

Lemma batch_routes_ok r b : routes_ok (batch_routes r b).
Proof. apply lookup_routes_spec. Qed.

Lemma elem_of_batch_routes r b g u :
  u ∈ users_at (batch_routes r b) g ↔ u ∈ dm_user_id <$> b ∧ u ∉ exclude ∧ online_at (rd_sets r) u g.
Proof.
  unfold batch_routes. rewrite (proj2 (lookup_routes_spec r _)), list_elem_of_filter. tauto.
Qed.

Lemma recipients_at_batches r g batches :
  recipients_at g (batches ≫= batch_entries r) = batches ≫= λ b, sorted_ids (users_at (batch_routes r b) g).
Proof.
  induction batches as [|b batches IH]; [done|]. cbn [mbind list_bind].
  rewrite recipients_at_app, IH. unfold batch_entries at 1. by rewrite recipients_at_entries by apply batch_routes_ok.
Qed.

Lemma elem_of_recipients_at r g batches u :
  u ∈ recipients_at g (batches ≫= batch_entries r)
  ↔ u ∈ dm_user_id <$> concat batches ∧ u ∉ exclude ∧ online_at (rd_sets r) u g.
Proof.
  rewrite recipients_at_batches. induction batches as [|b batches IH]; cbn [mbind list_bind concat].
  - cbn. set_solver.
  - rewrite elem_of_app, IH, elem_of_sorted_ids, elem_of_batch_routes, fmap_app, elem_of_app. tauto.
Qed.

Lemma NoDup_recipients_at r g batches :
  NoDup (dm_user_id <$> concat batches) → NoDup (recipients_at g (batches ≫= batch_entries r)).
Proof.
  induction batches as [|b batches IH]; [constructor|]. cbn [mbind list_bind concat].
  rewrite fmap_app, list.NoDup_app. intros (Hb & Hdis & Hnd). rewrite recipients_at_app, list.NoDup_app.
  unfold batch_entries at 1 2. rewrite recipients_at_entries by apply batch_routes_ok.
  split_and!; [apply NoDup_sorted_ids| |by apply IH].
  intros u [Hu _]%elem_of_sorted_ids%elem_of_batch_routes [Hu' _]%elem_of_recipients_at. by apply (Hdis u).
Qed.

(** ** Who is offline *)
Lemma elem_of_online_users routes u :
  routes_ok routes → u ∈ online_users routes ↔ ∃ g, u ∈ users_at routes g.
Proof.
  intros Hok. unfold online_users. rewrite elem_of_union_list. split.
  - intros (X & ([g X'] & -> & Hin)%list_elem_of_fmap & Hu). exists g. unfold users_at.
    by rewrite (proj2 (get_elem_of _ _ _ Hok) Hin).
  - intros [g Hu]. unfold users_at in Hu. destruct (OrderedDict.get routes g) as [X|] eqn:E; [|cbn in Hu; set_solver].
    exists X. split; [|done]. apply list_elem_of_fmap. exists (g, X). split; [done|]. by apply get_elem_of.
Qed.

(** a member who is not muted now *)
Definition listening (m : DeliveryMember) : Prop :=
  match dm_notifications_muted_until m with None => True | Some until => until ≤ now end.

Lemma elem_of_unmuted b u : u ∈ unmuted now b ↔ ∃ m, m ∈ b ∧ dm_user_id m = u ∧ listening m.
Proof.
  unfold unmuted, listening. rewrite list_elem_of_fmap. setoid_rewrite list_elem_of_filter. split.
  - intros (m & -> & Hm & Hin). exists m. split_and!; [done..|]. case_match; [bool_simpl; lia|done].
  - intros (m & Hin & <- & Hm). exists m. split_and!; [done| |done]. case_match; [by apply Z.leb_le|done].
Qed.

(** no connection anywhere among those looked up *)
Definition unreached (r : redis) (u : Z) : Prop := u ∈ exclude ∨ ∀ g, ¬ online_at (rd_sets r) u g.

Lemma elem_of_batch_offline r b u :
  u ∈ batch_offline r b ↔
  (∃ m, m ∈ b ∧ dm_user_id m = u ∧ listening m) ∧ unreached r u ∧ delta_sender_id (we_delta ev) ≠ Some u.
Proof.
  unfold batch_offline, _offline_recipients, unreached.
  rewrite elem_of_sorted_ids, !elem_of_difference, elem_of_list_to_set, elem_of_unmuted,
    elem_of_online_users by apply batch_routes_ok.
  setoid_rewrite elem_of_batch_routes.
  assert (u ∉ (match delta_sender_id (we_delta ev) with Some u => {[ u ]} | None => ∅ end : gset Z)
    ↔ delta_sender_id (we_delta ev) ≠ Some u) as ->.
  { destruct (delta_sender_id (we_delta ev)); [rewrite elem_of_singleton; naive_solver congruence|].
    split; [done|]. intros _. apply not_elem_of_empty. }
  split.
  - intros [[(m & Hin & <- & Hl) Hg] Hs]. split_and!; [by exists m| |done].
    destruct (decide (dm_user_id m ∈ exclude)); [by left|right].
    intros g Ho. apply Hg. exists g. split_and!; [by apply list_elem_of_fmap_2|done..].
  - intros ((m & Hin & <- & Hl) & Hg & Hs). split_and!; [by exists m| |done].
    intros (g & _ & Hx & Ho). destruct Hg as [|Hg]; [done|by apply (Hg g)].
Qed.

Lemma elem_of_offline r batches u :
  u ∈ (batches ≫= batch_offline r) ↔
  (∃ m, m ∈ concat batches ∧ dm_user_id m = u ∧ listening m) ∧ unreached r u ∧ delta_sender_id (we_delta ev) ≠ Some u.
Proof.
  rewrite list_elem_of_bind. setoid_rewrite elem_of_batch_offline. setoid_rewrite list_elem_of_In.
  setoid_rewrite in_concat. naive_solver.
Qed.

Lemma NoDup_offline r batches :
  NoDup (dm_user_id <$> concat batches) → NoDup (batches ≫= batch_offline r).
Proof.
  induction batches as [|b batches IH]; [constructor|]. cbn [mbind list_bind concat].
  rewrite fmap_app, !list.NoDup_app. intros (Hb & Hdis & Hnd). split_and!; [apply NoDup_sorted_ids| |by apply IH].
  intros u [(m & Hm & <- & _) _]%elem_of_batch_offline [(m' & Hm' & E & _) _]%elem_of_offline.
  apply (Hdis (dm_user_id m)); [by apply list_elem_of_fmap_2|]. rewrite <- E. by apply list_elem_of_fmap_2.
Qed.
End fanout.

(** the members of a chat, through the pages and the chunks *)
Lemma concat_member_batches now s chat : concat (member_batches now s chat) = members_past now s chat (-1).
Proof.
  unfold member_batches. rewrite <- (concat_iter now s chat chat_config.DELIVERY_ROUTER_MEMBER_BATCH_SIZE).
  - induction (iter_delivery_members _ _ _ _) as [|p ps IH]; [done|]. cbn [mbind list_bind concat].
    by rewrite concat_app, concat_chunks, IH.
  - unfold chat_config.DELIVERY_ROUTER_MEMBER_BATCH_SIZE. lia.
Qed.

Lemma NoDup_member_ids now s chat last : NoDup (dm_user_id <$> members_past now s chat last).
Proof.
  pose proof (members_past_sorted now s chat last) as Hs. induction Hs as [|m l Hs IH Hall]; [constructor|].
  cbn. apply list.NoDup_cons. split; [|done]. intros (x & E & Hx)%list_elem_of_fmap.
  rewrite list.Forall_forall in Hall. apply Hall in Hx. unfold key_lt in Hx. lia.
Qed.

(** an unbanned member *)
Definition active_member (now : datetime) (s : store) (chat_id : UUID) (u : Z) : Prop :=
  ∃ row, members s !! (chat_id, u) = Some row ∧ ChatMember.is_banned now row = false.

Lemma elem_of_member_ids now s chat u :
  u ∈ dm_user_id <$> members_past now s chat (-1) ↔ active_member now s chat u ∧ 0 ≤ u.
Proof.
  rewrite list_elem_of_fmap. setoid_rewrite elem_of_members_past. unfold delivers_to, active_member. split.
  - intros (m & -> & (row & ? & ? & _) & ?). split; [by exists row|lia].
  - intros [(row & Hrow & Hb) Hu]. exists (MkDeliveryMember u (ChatMember.notifications_muted_until row)).
    split; [done|]. split; [by exists row|cbn; lia].
Qed.

(** ** What reaches a stream *)
Definition deliveries_at (g : text) (entries : list (text * DeliveryDTO)) : list DeliveryDTO :=
  entries ≫= λ gd, if decide (gd.1 = g) then [gd.2] else [].

Lemma recipients_deliveries g entries : recipients_at g entries = deliveries_at g entries ≫= dv_recipients.
Proof.
  unfold recipients_at, deliveries_at. induction entries as [|gd entries IH]; [done|]. cbn [mbind list_bind].
  rewrite bind_app, <- IH. case_decide; [|done]. cbn. by rewrite app_nil_r.
Qed.

Lemma stream_key_inj g g' : WebsocketKeys.gateway_stream_key g = WebsocketKeys.gateway_stream_key g' → g = g'.
Proof. unfold WebsocketKeys.gateway_stream_key. intros E%app_inv_head. by apply app_inv_tail in E. Qed.

Definition gateway_stream (g : text) (r : redis) : Stream :=
  default empty_stream (rd_streams r !! WebsocketKeys.gateway_stream_key g).

Lemma XADD_stream key key' d r :
  snd <$> st_new (default empty_stream (rd_streams (XADD key d r) !! key'))
    = (snd <$> st_new (default empty_stream (rd_streams r !! key'))) ++ if decide (key = key') then [Some d] else [].
Proof.
  unfold XADD. cbn. case_decide as Hd.
  - subst. by rewrite lookup_insert_eq; cbn; rewrite fmap_app.
  - rewrite lookup_insert_ne by done. by rewrite app_nil_r.
Qed.

Lemma add_all_stream g r entries :
  snd <$> st_new (gateway_stream g (add_all r entries))
    = (snd <$> st_new (gateway_stream g r)) ++ (Some <$> deliveries_at g entries).
Proof.
  revert r. induction entries as [|[g0 d] entries IH]; intros r; [by rewrite app_nil_r|].
  unfold add_all, deliveries_at in *. cbn [foldl mbind list_bind fst snd]. rewrite IH, fmap_app, (assoc_L (++)). f_equal.
  unfold gateway_stream. rewrite XADD_stream. f_equal. destruct (decide (g0 = g)) as [->|Hne].
  - by rewrite decide_True.
  - rewrite decide_False; [done|]. intros E. by apply Hne, stream_key_inj.
Qed.

Lemma deliveries_carry (P : DeliveryDTO → Prop) g entries :
  Forall (λ gd, P gd.2) entries → Forall P (deliveries_at g entries).
Proof.
  intros Hall. apply list.Forall_forall. intros d (gd & Hd & Hin)%list_elem_of_bind.
  rewrite list.Forall_forall in Hall. case_decide; [|by apply elem_of_nil in Hd].
  apply list_elem_of_singleton in Hd as ->. by apply Hall.
Qed.
