(* ===== verification/WsSpec.v ===== *)
(** What the websocket commands keep: the typing states of a connection stay
    few, and a history is replayed without gaps. *)
From S2P Require Import Prelude Config Events MemberModel MessageModel ChatModel PrivacyModel Store Wp Rbac Access ChatRepo PrivacyService MessageRepo WsModel Gateway Delivery WsCommands.

(** ** Replaying a chat *)
Section replay.
Context (s : store) (chat_id : UUID).

(** The chat's messages carry distinct numbers. *)
Definition distinct_seqs : Prop := ∀ k1 k2 m1 m2,
  messages s !! k1 = Some m1 → messages s !! k2 = Some m2 →
  Message.chat_id m1 = chat_id → Message.chat_id m2 = chat_id → Message.seq m1 = Message.seq m2 → k1 = k2.

(** a message the replay shows *)
Definition shown (x : Message.t) : Prop :=
  ∃ k m, messages s !! k = Some m ∧ Message.chat_id m = chat_id ∧ Message.is_deleted m = false
    ∧ x = with_attachments s m.

Definition row_after (last_seq : Z) (kv : UUID * Message.t) : option Message.t :=
  if (Message.chat_id kv.2 =? chat_id) && (last_seq <? Message.seq kv.2) && negb (Message.is_deleted kv.2)
  then Some (with_attachments s kv.2) else None.

Definition messages_after (last_seq : Z) : list Message.t :=
  merge_sort MessageRepository.message_seq_le (omap (row_after last_seq) (map_to_list (messages s))).

Lemma seq_with_attachments m : Message.seq (with_attachments s m) = Message.seq m.
Proof. done. Qed.

Lemma row_after_Some last_seq k m x :
  row_after last_seq (k, m) = Some x ↔
  Message.chat_id m = chat_id ∧ last_seq < Message.seq m ∧ Message.is_deleted m = false ∧ x = with_attachments s m.
Proof.
  unfold row_after. cbn [snd]. split.
  - case_match eqn:E; [|done]. bool_simpl. intros [= <-]. by split_and!.
  - intros (-> & Hlt & -> & ->). by rewrite Z.eqb_refl, (proj2 (Z.ltb_lt _ _) Hlt).
Qed.

Lemma elem_of_messages_after last_seq x : x ∈ messages_after last_seq ↔ shown x ∧ last_seq < Message.seq x.
Proof.
  unfold messages_after, shown. rewrite merge_sort_Permutation, list_elem_of_omap. split.
  - intros ([k m] & Hin%elem_of_map_to_list & (? & ? & ? & ->)%row_after_Some).
    rewrite seq_with_attachments. split; [by exists k, m|done].
  - intros [(k & m & Hk & ? & ? & ->) Hlt]. exists (k, m). rewrite elem_of_map_to_list, row_after_Some. by split_and!.
Qed.

#[local] Instance seq_le_total : Total MessageRepository.message_seq_le.
Proof. intros a b. unfold MessageRepository.message_seq_le. lia. Qed.
#[local] Instance seq_le_trans : Transitive MessageRepository.message_seq_le.
Proof. intros a b c. unfold MessageRepository.message_seq_le. lia. Qed.

Lemma NoDup_seqs last_seq : distinct_seqs → NoDup (Message.seq <$> messages_after last_seq).
Proof.
  intros Hd. unfold messages_after. rewrite merge_sort_Permutation.
  assert (∀ kv, kv ∈ map_to_list (messages s) → messages s !! kv.1 = Some kv.2) as Hin.
  { intros [k m]. apply elem_of_map_to_list. }
  pose proof (NoDup_fst_map_to_list (messages s)) as Hk. revert Hk Hin.
  generalize (map_to_list (messages s)). induction l as [|[k m] l IH]; intros Hk Hin; [constructor|].
  cbn in Hk. apply list.NoDup_cons in Hk as [Hout Hk]. cbn [omap list_omap].
  destruct (row_after last_seq (k, m)) as [x|] eqn:Hx; [|apply IH; [done|]; intros; apply Hin; by right].
  cbn. apply list.NoDup_cons. split; [|apply IH; [done|]; intros; apply Hin; by right].
  intros (y & E & ([k' m'] & Hin' & Hy)%list_elem_of_omap)%list_elem_of_fmap.
  apply row_after_Some in Hx as (? & ? & ? & ->), Hy as (? & ? & ? & ->). rewrite !seq_with_attachments in E.
  assert (k = k') as <-.
  { eapply Hd; [apply (Hin (k, m)); by left|apply (Hin (k', m')); by right|done..]. }
  apply Hout. apply list_elem_of_fmap. by exists (k, m').
Qed.

Lemma messages_after_sorted last_seq :
  distinct_seqs → StronglySorted (key_lt Message.seq) (messages_after last_seq).
Proof.
  intros Hd. apply sorted_strictly; [|by apply NoDup_seqs].
  apply Sorted_StronglySorted; [intros a b c; cbn; lia|].
  exact (Sorted_merge_sort MessageRepository.message_seq_le _).
Qed.

(** A client that reconnects with the position the last frame gave it, until
    it is told there is no more. *)
Fixpoint catch_up (fuel : nat) (last_seq : Z) : list Message.t :=
  match fuel with
  | O => []
  | S fuel =>
    let '(batch, next_last_seq, has_more) := replay s chat_id last_seq in
    batch ++ if has_more then catch_up fuel next_last_seq else []
  end.

Lemma after_seq_take last_seq n :
  get_chat_messages_after_seq s chat_id last_seq n = take (S n) (messages_after last_seq).
Proof. done. Qed.

Lemma replay_batch last_seq :
  replay s chat_id last_seq =
    (let L := messages_after last_seq in let n := chat_config.WS_REPLAY_BATCH_SIZE in
     (take n L, from_option Message.seq last_seq (list.last (take n L)), bool_decide (n < length L)%nat)).
Proof.
  unfold replay. rewrite after_seq_take. cbv zeta.
  rewrite take_take, Nat.min_l by lia. f_equal. rewrite length_take.
  apply bool_decide_ext. lia.
Qed.

Lemma replay_positive : (0 < chat_config.WS_REPLAY_BATCH_SIZE)%nat.
Proof. unfold chat_config.WS_REPLAY_BATCH_SIZE. lia. Qed.

Lemma catch_up_all fuel last_seq :
  distinct_seqs → (length (messages_after last_seq) < fuel)%nat → catch_up fuel last_seq = messages_after last_seq.
Proof.
  intros Hd. revert last_seq. induction fuel as [|fuel IH]; intros last_seq Hf; [lia|].
  cbn [catch_up]. rewrite replay_batch. cbv zeta. pose proof replay_positive as Hpos.
  case_bool_decide as Hn; [|rewrite app_nil_r; apply take_ge; lia].
  destruct (list.last (take _ (messages_after last_seq))) as [m|] eqn:Hm.
  - cbn [from_option].
    assert (messages_after (Message.seq m) = drop chat_config.WS_REPLAY_BATCH_SIZE (messages_after last_seq)) as E.
    { eapply (next_page Message.seq messages_after shown);
        [intros; by apply messages_after_sorted|apply elem_of_messages_after|done]. }
    rewrite IH; rewrite E; [apply take_drop|rewrite length_drop; lia].
  - apply last_None in Hm. destruct (messages_after last_seq); cbn in *; [lia|].
    by destruct chat_config.WS_REPLAY_BATCH_SIZE; [lia|].
Qed.
End replay.

(** ** Typing states *)
Definition few (states : typing_states) : Prop := len states ≤ chat_config.TYPING_MAX_TRACKED_CHATS.

Lemma len_set_present {V} (d : list (text * V)) k v v' :
  OrderedDict.get d k = Some v' → len (OrderedDict.set d k v) = len d.
Proof.
  unfold len. induction d as [|[k0 v0] d IH]; cbn; [done|]. case_decide; cbn; [lia|]. intros Hl%IH. lia.
Qed.

Lemma len_set_absent {V} (d : list (text * V)) k v :
  len (OrderedDict.set d k v) ≤ 1 + len d.
Proof.
  unfold len. induction d as [|[k0 v0] d IH]; cbn; [lia|]. case_decide; cbn; lia.
Qed.

Lemma get_set_eq {V} (d : list (text * V)) k v : OrderedDict.get (OrderedDict.set d k v) k = Some v.
Proof.
  induction d as [|[k0 v0] d IH]; cbn; [by rewrite decide_True|].
  case_decide; cbn; [by rewrite decide_True|by rewrite decide_False].
Qed.

Lemma oldest_key_in (states : typing_states) k t : oldest_key states = Some (k, t) → k ∈ fst <$> states.
Proof.
  revert k t. induction states as [|[k0 s] states IH]; intros k t; cbn; [done|].
  destruct (oldest_key states) as [[k1 t1]|]; [case_match|]; intros [= <- <-]; set_solver.
Qed.

Lemma len_del_present {V} (d : list (text * V)) k : k ∈ fst <$> d → len (OrderedDict.del d k) < len d.
Proof.
  unfold len, OrderedDict.del. intros ([k' v] & -> & Hin)%list_elem_of_fmap. apply inj_lt.
  eapply length_filter_lt; [exact Hin|]. cbn. intros Hne. by apply Hne.
Qed.

Lemma oldest_key_some (states : typing_states) : states ≠ [] → ∃ k t, oldest_key states = Some (k, t).
Proof.
  destruct states as [|[k s] states]; [done|]. intros _. cbn. destruct (oldest_key states) as [[??]|]; [case_match|]; eauto.
Qed.

(** the chat is tracked, under the state returned, among few *)
Lemma track_few states key now :
  few states → let '(st, states') := track_typing_state states key now in
  few states' ∧ OrderedDict.get states' key = Some st.
Proof.
  unfold few, track_typing_state. intros Hf.
  destruct (OrderedDict.get states key) as [st|] eqn:Hg; [done|].
  split; [|apply get_set_eq].
  match goal with |- context [if _ then filter ?P states else states] =>
    set (states1 := if chat_config.TYPING_MAX_TRACKED_CHATS <=? len states then filter P states else states) end.
  assert (len states1 ≤ chat_config.TYPING_MAX_TRACKED_CHATS) as H1.
  { unfold states1. case_match; [|done]. unfold len in *. etrans; [apply inj_le, length_filter|done]. }
  etrans; [apply len_set_absent|]. case_match eqn:E; bool_simpl; [|lia].
  assert (states1 ≠ []) as Hne.
  { intros ->. unfold len, chat_config.TYPING_MAX_TRACKED_CHATS in E. cbn in E. lia. }
  destruct (oldest_key_some _ Hne) as (k & t & Hk). rewrite Hk.
  apply oldest_key_in, len_del_present in Hk. lia.
Qed.

(** ** The typing command *)
Import ConnectionManager.
Import TypingCommand.

Definition node_few (n : node) : Prop :=
  ∀ cid c, objects (nd_manager n) !! cid = Some c → few (WSConnection.typing_by_chat c).

(** the last broadcast of a chat is on record: what it announced, when, and the
    context that allowed it *)
Definition stamped (cmd : command) (mono : Z) (n : node) : Prop :=
  ∃ c context, objects (nd_manager n) !! conn cmd = Some c
    ∧ OrderedDict.get (WSConnection.typing_by_chat c) (str_uuid (chat_id cmd))
      = Some (MkTypingState (Some context) (Some (action cmd)) mono)
    ∧ tc_denied_code context = None ∧ is_fresh context mono = true.

Lemma few_with_states cid states n : node_few n → few states → node_few (with_states cid states n).
Proof.
  intros Hn Hf k c. cbn. destruct (decide (k = cid)) as [->|Hne].
  - rewrite lookup_alter_eq. intros (c0 & _ & ->)%fmap_Some. done.
  - rewrite lookup_alter_ne by done. apply Hn.
Qed.

Lemma with_states_lookup cid states n c :
  objects (nd_manager n) !! cid = Some c →
  objects (nd_manager (with_states cid states n)) !! cid = Some (c <| WSConnection.typing_by_chat := states |>).
Proof. intros Hc. cbn. by rewrite lookup_alter_eq, Hc. Qed.

Lemma few_set_present states k v v' : OrderedDict.get states k = Some v' → few states → few (OrderedDict.set states k v).
Proof. unfold few. intros Hg. by rewrite (len_set_present _ _ _ _ Hg). Qed.

Lemma few_send now cid f n : node_few n → node_few (send now cid f n).
Proof.
  intros Hn k c. cbn. destruct (decide (k = cid)) as [->|Hne].
  - rewrite lookup_alter_eq. intros (c0 & Hc0 & ->)%fmap_Some. specialize (Hn _ _ Hc0).
    unfold WSConnection.try_send. by repeat case_match.
  - rewrite lookup_alter_ne by done. apply Hn.
Qed.

(** what [send_typing] leaves alone *)
Lemma send_typing_manager chat f u d n w :
  ∃ n' w', send_typing chat f u d n w = (Ok n', w') ∧ nd_manager n' = nd_manager n.
Proof. by eexists _, _. Qed.

Lemma fresh_now f denied mono : is_fresh (MkTypingContext f denied mono) mono = true.
Proof. unfold is_fresh. cbn. unfold seconds, chat_config.TYPING_CONTEXT_TTL_SECONDS. lia. Qed.

(** a context is stamped with the instant it was loaded at *)
Lemma typing_context_loaded u chat mono w :
  wp (typing_context u chat mono) w (λ r _, ∀ context, r = Ok context → tc_loaded_at context = mono).
Proof.
  unfold wp. destruct (typing_context u chat mono w) as [r w'] eqn:E. cbn. intros context ->.
  revert E. unfold typing_context. unfold mbind, M_bind.
  repeat first [case_match; simplify_eq/= | intros [= <- <-]; done | done].
Qed.

Lemma length_messages_after s chat last_seq : (length (messages_after s chat last_seq) <= size (messages s))%nat.
Proof.
  unfold messages_after. rewrite merge_sort_Permutation, <- length_map_to_list.
  induction (map_to_list (messages s)) as [|kv l IH]; cbn [omap list_omap]; [done|].
  case_match; cbn [length]; lia.
Qed.

(** ** One typing signal *)
Lemma broadcast_stamped mono cmd u context states n w c :
  node_few n → few states → objects (nd_manager n) !! conn cmd = Some c →
  is_some (OrderedDict.get states (str_uuid (chat_id cmd))) = true →
  tc_denied_code context = None → is_fresh context mono = true →
  wp (broadcast mono cmd u context states n) w (λ r _, ∀ n', r = Ok n' → node_few n' ∧ stamped cmd mono n').
Proof.
  intros Hn Hf Hc Hp Hd Hfr. unfold broadcast.
  set (states' := OrderedDict.set states _ _).
  destruct (send_typing_manager (chat_id cmd) (tc_fanout_strategy context) u (DTypingStart u (action cmd))
    (with_states (conn cmd) states' n) w) as (n1 & w1 & E & Hm).
  unfold wp. rewrite E. cbn. intros n' [= <-].
  assert (few states') as Hf'.
  { destruct (OrderedDict.get states (str_uuid (chat_id cmd))) as [st|] eqn:Hg; [|done]. by eapply few_set_present. }
  split.
  - intros k x. rewrite Hm. by apply few_with_states.
  - pose proof (with_states_lookup (conn cmd) states' n c Hc) as Hl. rewrite <- Hm in Hl.
    exists (c <| WSConnection.typing_by_chat := states' |>), context. split_and!; [done| |done..].
    apply get_set_eq.
Qed.

(** the state the command finds or starts *)
Definition tracked (cmd : command) (mono : Z) (c : WSConnection.t) : TypingState :=
  (track_typing_state (WSConnection.typing_by_chat c) (str_uuid (chat_id cmd)) mono).1.

Lemma handle_signal mono cmd n w :
  node_few n → action cmd ≠ ACT_CANCEL →
  wp (handle mono cmd n) w (λ r w', ∀ n', r = Ok n' →
    node_few n'
    ∧ (nd_router n' = nd_router n ∨ stamped cmd mono n')
    ∧ ∀ c, objects (nd_manager n) !! conn cmd = Some c → is_throttled (tracked cmd mono c) (action cmd) mono = true →
        nd_router n' = nd_router n ∧ w' = w).
Proof.
  intros Hn Ha. unfold handle. destruct (objects (nd_manager n) !! conn cmd) as [c|] eqn:Hc.
  2:{ apply wp_ret. intros n' [= <-]. split_and!; [done|by left|]. by intros c [=]. }
  rewrite bool_decide_false by done. unfold tracked.
  pose proof (track_few (WSConnection.typing_by_chat c) (str_uuid (chat_id cmd)) mono (Hn _ _ Hc)) as Ht.
  destruct (track_typing_state _ _ _) as [st states] eqn:Htr. destruct Ht as [Hf Hg].
  set (n1 := with_states (conn cmd) states n).
  assert (node_few n1) as Hn1 by (by apply few_with_states).
  pose proof (with_states_lookup (conn cmd) states n c Hc) as Hc1. fold n1 in Hc1.
  destruct (is_throttled st (action cmd) mono) eqn:Hth.
  { apply wp_ret. intros n' [= <-]. split_and!; [done|by left|]. done. }
  assert (∀ c', Some c = Some c' →
    is_throttled (track_typing_state (WSConnection.typing_by_chat c') (str_uuid (chat_id cmd)) mono).1 (action cmd) mono
      = false) as Hnot.
  { intros c' [= <-]. by rewrite Htr. }
  destruct (ts_context st ≫= _) as [context|] eqn:Hctx.
  - apply bind_Some in Hctx as (c0 & _ & Hfr). destruct (is_fresh c0 mono) eqn:Hfresh; [|done]. injection Hfr as ->.
    destruct (tc_denied_code context) as [code|] eqn:Hden; cbn [is_some].
    { apply wp_ret. intros n' [= <-]. split_and!; [done|by left|]. intros c' E Hy. by rewrite (Hnot _ E) in Hy. }
    eapply wp_mono; [eapply (broadcast_stamped mono cmd _ context states n1 w); [done..|exact Hc1| |done|done]; by rewrite Hg|].
    cbn. intros r w' Hr n' ->. destruct (Hr n' eq_refl) as [H1 H2]. split_and!; [done|by right|].
    intros c' E Hy. by rewrite (Hnot _ E) in Hy.
  - apply wp_bind. eapply wp_mono; [apply typing_context_loaded|]. cbn. intros [context|e] w1 Hload.
    2:{ intros n' [=]. }
    specialize (Hload context eq_refl).
    set (states2 := OrderedDict.set states _ _).
    assert (few states2) as Hf2 by (by eapply few_set_present).
    set (n2 := with_states (conn cmd) states2 n1).
    assert (node_few n2) as Hn2 by (by apply few_with_states).
    pose proof (with_states_lookup (conn cmd) states2 n1 _ Hc1) as Hc2. fold n2 in Hc2.
    destruct (tc_denied_code context) as [code|] eqn:Hden.
    + cbn. intros n' [= <-]. split_and!; [by apply few_send|by left|]. intros c' E Hy. by rewrite (Hnot _ E) in Hy.
    + eapply wp_mono; [eapply (broadcast_stamped mono cmd _ context states2 n2); [done..|exact Hc2| |done|]|].
      * unfold states2. by rewrite get_set_eq.
      * unfold is_fresh. rewrite Hload. unfold seconds, chat_config.TYPING_CONTEXT_TTL_SECONDS. lia.
      * cbn. intros r w' Hr n' ->. destruct (Hr n' eq_refl) as [H1 H2]. split_and!; [done|by right|].
        intros c' E Hy. by rewrite (Hnot _ E) in Hy.
Qed.
