(* ===== verification/Spec.v ===== *)
(** The abstract specification of the chat module's state: atomic changes of
    the store, each with the guard under which it is allowed. A handler refines
    it: what it commits is reached from what was committed by such changes
    ([steps]). [priv] tells whether the caller is a global administrator, whose
    requests bypass the ranks of the chat. *)
From S2P Require Import Prelude Config Events MemberModel InviteModel MessageModel ChatModel PrivacyModel Store Wp ChatRepo.

(** ** Effects *)

(** [uid] becomes a member of [c] with [role]: the row, its serial id and the
    chat's counter *)
Definition enroll (c : Chat.t) (uid : Z) (role : ChatRoleId) (s : store) : store :=
  s <| chats ::= <[Chat.id c := c <| Chat.member_count := Chat.member_count c + 1 |>]> |>
    <| members ::= <[(Chat.id c, uid) :=
         (ChatMember.create (Chat.id c) uid role) <| ChatMember.id := next_member_id s |>]> |>
    <| next_member_id := next_member_id s + 1 |>.

(** [uid] stops being a member *)
Definition expel (c : Chat.t) (uid : Z) (s : store) : store :=
  s <| chats ::= <[Chat.id c := c <| Chat.member_count := Chat.member_count c - 1 |>]> |>
    <| members ::= delete (Chat.id c, uid) |>.

Definition put_chat (c : Chat.t) (s : store) : store :=
  s <| chats ::= <[Chat.id c := c]> |>.

Definition put_member (m : ChatMember.t) (s : store) : store :=
  s <| members ::= <[(ChatMember.chat_id m, ChatMember.user_id m) := m]> |>.

(** what a membership keeps through bans, mutes, pins and drafts *)
Definition same_standing (m m' : ChatMember.t) : Prop :=
  ChatMember.id m' = ChatMember.id m ∧ ChatMember.chat_id m' = ChatMember.chat_id m
  ∧ ChatMember.user_id m' = ChatMember.user_id m ∧ ChatMember.role_id m' = ChatMember.role_id m
  ∧ ChatMember.permissions_overrides m' = ChatMember.permissions_overrides m.

(** what a chat keeps through its own updates *)
Definition same_chat (c c' : Chat.t) : Prop :=
  Chat.id c' = Chat.id c ∧ Chat.type c' = Chat.type c ∧ Chat.created_by c' = Chat.created_by c
  ∧ Chat.member_count c' = Chat.member_count c ∧ Chat.seq_counter c' = Chat.seq_counter c
  ∧ Chat.members c' = [] ∧ Chat.events c' = [] ∧ (Chat.valid c → Chat.valid c').

(** the role the creator of a chat holds *)
Definition creator_role (t : ChatType) : ChatRoleId :=
  match t with DIRECT => DIRECT_MEMBER | _ => OWNER end.

(** A role a newcomer may be given without being a global administrator *)
Definition plain_role (t : ChatType) (r : ChatRoleId) : Prop :=
  match t with DIRECT => r = DIRECT_MEMBER | _ => r ≠ OWNER end.

(** ** Steps *)
Inductive step (priv : bool) (s : store) : store → Prop :=
| step_emit ids es : step priv s (with_events ids es s)
| step_create c :
  chats s !! Chat.id c = None →
  Chat.member_count c = 0 → Chat.seq_counter c = 0 → Chat.members c = [] → Chat.events c = [] →
  Chat.is_deleted c = false → Chat.valid c →
  step priv s (enroll c (Chat.created_by c) (creator_role (Chat.type c)) s)
| step_enroll c uid role :
  chats s !! Chat.id c = Some c → Chat.is_deleted c = false →
  members s !! (Chat.id c, uid) = None →
  Chat.member_count c + 1 ≤ Chat.member_limit (Chat.type c) →
  (priv = true ∨ plain_role (Chat.type c) role) →
  step priv s (enroll c uid role s)
| step_expel c uid m :
  chats s !! Chat.id c = Some c → Chat.is_deleted c = false →
  members s !! (Chat.id c, uid) = Some m →
  (priv = true ∨ uid ≠ Chat.created_by c) →
  step priv s (expel c uid s)
| step_member m m' :
  members s !! (ChatMember.chat_id m, ChatMember.user_id m) = Some m → same_standing m m' →
  step priv s (put_member m' s)
| step_role m role :
  members s !! (ChatMember.chat_id m, ChatMember.user_id m) = Some m →
  (priv = true ∨
   role ≠ OWNER ∧ ∀ c, chats s !! ChatMember.chat_id m = Some c →
     Chat.type c ≠ DIRECT ∧ ChatMember.user_id m ≠ Chat.created_by c) →
  step priv s (put_member (m <| ChatMember.role_id := role |>) s)
| step_transfer c new old :
  chats s !! Chat.id c = Some c → Chat.is_deleted c = false → Chat.type c ≠ DIRECT →
  members s !! (Chat.id c, ChatMember.user_id new) = Some new →
  ChatMember.chat_id new = Chat.id c →
  ChatMember.user_id new ≠ Chat.created_by c →
  members s !! (Chat.id c, Chat.created_by c) = old →
  step priv s
    (from_option (λ o, put_member (o <| ChatMember.role_id := ADMIN |>)) id old
       (put_member (new <| ChatMember.role_id := OWNER |>)
          (put_chat (c <| Chat.created_by := ChatMember.user_id new |>) s)))
| step_chat c c' :
  chats s !! Chat.id c = Some c → same_chat c c' →
  step priv s (put_chat c' s).

Definition steps (priv : bool) : relation store := rtc (step priv).

#[export] Hint Constructors step : msgr.

Lemma steps_one priv s s' : step priv s s' → steps priv s s'.
Proof. apply rtc_once. Qed.
Lemma steps_then priv s1 s2 s3 : steps priv s1 s2 → step priv s2 s3 → steps priv s1 s3.
Proof. apply rtc_r. Qed.
Lemma steps_emit priv ids es s s' : steps priv s s' → steps priv s (with_events ids es s').
Proof. intros Hs. eapply steps_then; [done|constructor]. Qed.

(** A property every step preserves holds in every reachable store. *)
Definition preserved (priv : bool) (I : store → Prop) : Prop :=
  ∀ s s', I s → step priv s s' → I s'.

Lemma preserved_steps priv I s s' : preserved priv I → I s → steps priv s s' → I s'.
Proof. intros Hp Hi. induction 1; eauto. Qed.

Lemma preserved_and priv I J : preserved priv I → preserved priv J → preserved priv (λ s, I s ∧ J s).
Proof. intros HI HJ s s' [? ?] Hs. split; eauto. Qed.

(** an invariant that may lean on another one *)
Lemma preserved_under priv I J :
  preserved priv I → (∀ s s', I s → J s → step priv s s' → J s') →
  preserved priv (λ s, I s ∧ J s).
Proof. intros HI HJ s s' [? ?] Hs. split; eauto. Qed.

(** ** Well-formed tables *)

(** The rows are filed under their own keys; a membership refers to a chat
    (foreign key) and no two share an id. *)
Record wf (s : store) : Prop := {
  wf_chat k c : chats s !! k = Some c → Chat.id c = k ∧ Chat.members c = [] ∧ Chat.events c = [];
  wf_member k m : members s !! k = Some m → k = (ChatMember.chat_id m, ChatMember.user_id m);
  wf_member_chat c u m : members s !! (c, u) = Some m → is_Some (chats s !! c);
  wf_member_id k m : members s !! k = Some m → ChatMember.id m < next_member_id s;
  wf_member_id_inj k1 k2 m1 m2 :
    members s !! k1 = Some m1 → members s !! k2 = Some m2 →
    ChatMember.id m1 = ChatMember.id m2 → k1 = k2;
  wf_overrides k m : members s !! k = Some m → ChatMember.permissions_overrides m = ∅;
}.

Lemma wf_empty : wf empty_store.
Proof. by split; intros; simplify_map_eq/=. Qed.

Section wf_effects.
Context (s : store).

Lemma wf_put_chat c :
  wf s → Chat.members c = [] → Chat.events c = [] → wf (put_chat c s).
Proof.
  intros [] Hm He. unfold put_chat, modify_field. split; cbn; try done.
  - intros k c'. rewrite lookup_insert_Some. naive_solver.
  - intros k u m Hk. rewrite lookup_insert_is_Some. destruct (decide (Chat.id c = k)); eauto.
Qed.

Lemma wf_put_member m m' :
  wf s → members s !! (ChatMember.chat_id m, ChatMember.user_id m) = Some m →
  ChatMember.id m' = ChatMember.id m → ChatMember.chat_id m' = ChatMember.chat_id m →
  ChatMember.user_id m' = ChatMember.user_id m →
  ChatMember.permissions_overrides m' = ChatMember.permissions_overrides m →
  wf (put_member m' s).
Proof.
  intros [Hc Hm Hmc Hid Hinj Hov] Hk Hi Hc' Hu Ho. unfold put_member, modify_field.
  rewrite Hc', Hu. split; cbn; try done.
  - intros k x. rewrite lookup_insert_Some. intros [[<- <-]|[? ?]]; [congruence|eauto].
  - intros c u x. rewrite lookup_insert_Some. intros [[[= <- <-] <-]|[? ?]]; eauto.
  - intros k x. rewrite lookup_insert_Some. intros [[<- <-]|[? ?]]; [rewrite Hi|]; eauto.
  - intros k1 k2 x1 x2. rewrite !lookup_insert_Some.
    intros [[<- <-]|[? ?]] [[<- <-]|[? ?]]; rewrite ?Hi; eauto.
  - intros k x. rewrite lookup_insert_Some. intros [[<- <-]|[? ?]]; [rewrite Ho|]; eauto.
Qed.

Lemma wf_enroll c uid role :
  wf s → Chat.members c = [] → Chat.events c = [] → wf (enroll c uid role s).
Proof.
  intros Hwf HM HE. pose proof Hwf as [Hc Hm Hmc Hid Hinj Hov].
  unfold enroll, modify_field. split; cbn; try done.
  - intros k c'. rewrite lookup_insert_Some. naive_solver.
  - intros k x. rewrite lookup_insert_Some. intros [[<- <-]|[? ?]]; [done|eauto].
  - intros k u x. rewrite lookup_insert_Some, lookup_insert_is_Some.
    destruct (decide (Chat.id c = k)); [by left|].
    intros [[[= <- <-] <-]|[? ?]]; [done|eauto].
  - intros k x. rewrite lookup_insert_Some. intros [[<- <-]|[? Hx]]; cbn; [lia|].
    apply Hid in Hx. lia.
  - intros k1 k2 x1 x2. rewrite !lookup_insert_Some.
    intros [[<- <-]|[? H1]] [[<- <-]|[? H2]]; cbn; try done; intros Heq.
    + apply Hid in H2. lia.
    + apply Hid in H1. lia.
    + eauto.
  - intros k x. rewrite lookup_insert_Some. intros [[<- <-]|[? ?]]; [done|eauto].
Qed.

Lemma wf_expel c uid :
  wf s → Chat.members c = [] → Chat.events c = [] → wf (expel c uid s).
Proof.
  intros [Hc Hm Hmc Hid Hinj Hov] HM HE. unfold expel, modify_field. split; cbn; try done.
  - intros k c'. rewrite lookup_insert_Some. naive_solver.
  - intros k x [_ Hx]%lookup_delete_Some. eauto.
  - intros k u x [_ Hx]%lookup_delete_Some. rewrite lookup_insert_is_Some.
    destruct (decide (Chat.id c = k)); eauto.
  - intros k x [_ Hx]%lookup_delete_Some. eauto.
  - intros k1 k2 x1 x2 [_ H1]%lookup_delete_Some [_ H2]%lookup_delete_Some. eauto.
  - intros k x [_ Hx]%lookup_delete_Some. eauto.
Qed.
End wf_effects.

Lemma wf_step priv : preserved priv wf.
Proof.
  intros s s' Hwf Hs. pose proof Hwf as [Hc Hm _ _ _ _]. destruct Hs.
  - destruct Hwf. by split.
  - by apply wf_enroll.
  - apply Hc in H as (? & ? & ?). by apply wf_enroll.
  - apply Hc in H as (? & ? & ?). by apply wf_expel.
  - destruct H0 as (? & ? & ? & ? & ?). eapply wf_put_member; eauto.
  - eapply wf_put_member; eauto.
  - apply Hc in H as (? & HM & HE).
    assert (wf (put_member (new <| ChatMember.role_id := OWNER |>)
                  (put_chat (c <| Chat.created_by := ChatMember.user_id new |>) s))) as Hw.
    { eapply (wf_put_member _ new); try done; [by apply wf_put_chat|].
      rewrite H3. done. }
    destruct old as [o|]; [|done]. simpl. apply Hm in H5 as Hk. injection Hk as Hk1 Hk2.
    eapply (wf_put_member _ o); try done. cbn. rewrite <- Hk1, <- Hk2.
    rewrite lookup_insert_ne; [done|]. cbn. congruence.
  - destruct H0 as (? & ? & ? & ? & ? & ? & ? & ?). by apply wf_put_chat.
Qed.
