(* ===== verification/MembershipInv.v ===== *)
(** Invariants of the membership tables over the steps of [Spec]: the counter
    of a chat is its number of rows and stays within the limit of its type, and
    outside the requests of global administrators a chat has exactly one owner,
    its [created_by]. *)
From S2P Require Import Prelude Config Events MemberModel InviteModel MessageModel ChatModel PrivacyModel Store Wp ChatRepo Spec.

(** [SELECT count( * ) FROM chat_members WHERE chat_id = cid] *)
Definition member_rows (cid : UUID) (s : store) : Z :=
  count_where (λ kv, kv.1.1 = cid) (members s).

Definition count_ok (s : store) : Prop :=
  ∀ cid c, chats s !! cid = Some c →
    Chat.member_count c = member_rows cid s
    ∧ Chat.member_count c ≤ Chat.member_limit (Chat.type c).

(** the standing of a chat's creator *)
Definition creator_ok (s : store) : Prop :=
  ∀ cid c, chats s !! cid = Some c →
    (∃ m, members s !! (cid, Chat.created_by c) = Some m
          ∧ ChatMember.role_id m = creator_role (Chat.type c))
    ∧ ∀ u m, members s !! (cid, u) = Some m →
        if decide (u = Chat.created_by c)
        then ChatMember.role_id m = creator_role (Chat.type c)
        else plain_role (Chat.type c) (ChatMember.role_id m).

(** ** The counter *)
Section rows.
Context (s : store).

Lemma member_rows_put c c' : member_rows c (put_chat c' s) = member_rows c s.
Proof. done. Qed.

Lemma member_rows_put_member c m m' :
  members s !! (ChatMember.chat_id m, ChatMember.user_id m) = Some m' →
  member_rows c (put_member m s) = member_rows c s.
Proof. intros Hk. unfold member_rows. by eapply (count_where_update (λ kv, kv.1.1 = c)). Qed.

Lemma member_rows_enroll k c uid role :
  members s !! (Chat.id c, uid) = None →
  member_rows k (enroll c uid role s) =
  member_rows k s + (if decide (k = Chat.id c) then 1 else 0).
Proof.
  intros Hn. unfold member_rows, enroll, modify_field; cbn. case_decide as Hk.
  - by apply (count_where_insert_in (λ kv, kv.1.1 = k)).
  - rewrite (count_where_insert_out (λ kv, kv.1.1 = k)); naive_solver lia.
Qed.

Lemma member_rows_expel k c uid m :
  members s !! (Chat.id c, uid) = Some m →
  member_rows k (expel c uid s) =
  member_rows k s - (if decide (k = Chat.id c) then 1 else 0).
Proof.
  intros Hn. unfold member_rows, expel, modify_field; cbn. case_decide as Hk.
  - by eapply (count_where_delete_in (λ kv, kv.1.1 = k)).
  - rewrite (count_where_delete_out (λ kv, kv.1.1 = k)); naive_solver lia.
Qed.

Lemma member_rows_no_chat k : wf s → chats s !! k = None → member_rows k s = 0.
Proof.
  intros Hwf Hk. apply count_where_zero. intros [c u] m Hm <-; cbn in *.
  destruct (wf_member_chat _ Hwf _ _ _ Hm) as [? ?]. congruence.
Qed.
End rows.

Lemma member_limit_pos t : 1 ≤ Chat.member_limit t.
Proof. by destruct t. Qed.
#[export] Hint Resolve member_limit_pos : msgr.

Lemma count_ok_put_member s m m' :
  count_ok s → members s !! (ChatMember.chat_id m, ChatMember.user_id m) = Some m' →
  count_ok (put_member m s).
Proof.
  intros Hc Hk cid c Hl. erewrite member_rows_put_member by done. by apply Hc.
Qed.

Lemma count_ok_put_chat s c c' :
  count_ok s → chats s !! Chat.id c = Some c → Chat.id c' = Chat.id c →
  Chat.type c' = Chat.type c → Chat.member_count c' = Chat.member_count c →
  count_ok (put_chat c' s).
Proof.
  intros Hc Hk Hi Ht Hn cid x. unfold put_chat, modify_field; cbn. rewrite Hi, lookup_insert_Some.
  intros [[<- <-]|[_ Hx]]; [rewrite Hn, Ht|]; by apply Hc.
Qed.

Lemma count_ok_step priv s s' : wf s → count_ok s → step priv s s' → count_ok s'.
Proof.
  intros Hwf Hc Hs. destruct Hs.
  - done.
  - intros cid x. rewrite member_rows_enroll.
    2:{ apply eq_None_not_Some. intros [m Hm]. apply (wf_member_chat _ Hwf) in Hm as [? ?].
        congruence. }
    unfold enroll, modify_field; cbn. rewrite lookup_insert_Some.
    intros [[<- <-]|[Hne Hx]]; cbn.
    + rewrite decide_True, member_rows_no_chat by done.
      pose proof (member_limit_pos (Chat.type c)). lia.
    + rewrite decide_False by done. apply Hc in Hx. lia.
  - intros cid x. rewrite member_rows_enroll by done. unfold enroll, modify_field; cbn.
    rewrite lookup_insert_Some. intros [[<- <-]|[Hne Hx]]; cbn.
    + rewrite decide_True by done. apply Hc in H. lia.
    + rewrite decide_False by done. apply Hc in Hx. lia.
  - intros cid x. erewrite member_rows_expel by done. unfold expel, modify_field; cbn.
    rewrite lookup_insert_Some. intros [[<- <-]|[Hne Hx]]; cbn.
    + rewrite decide_True by done. apply Hc in H. lia.
    + rewrite decide_False by done. apply Hc in Hx. lia.
  - destruct H0 as (_ & E1 & E2 & _). apply (count_ok_put_member _ m' m); [done|]. by rewrite E1, E2.
  - by eapply count_ok_put_member.
  - assert (count_ok (put_member (new <| ChatMember.role_id := OWNER |>)
              (put_chat (c <| Chat.created_by := ChatMember.user_id new |>) s))) as Hp.
    { eapply count_ok_put_member; [by eapply count_ok_put_chat|]. cbn. by rewrite H3. }
    destruct old as [o|]; [|done]. simpl. apply (wf_member _ Hwf) in H5 as Hk.
    injection Hk as Hk1 Hk2. apply (count_ok_put_member _ _ o); [done|]. cbn.
    rewrite <- Hk1, <- Hk2, lookup_insert_ne; [done|]. congruence.
  - destruct H0 as (? & ? & ? & ? & _). by eapply count_ok_put_chat.
Qed.

Lemma wf_count_preserved priv : preserved priv (λ s, wf s ∧ count_ok s).
Proof. apply preserved_under; [apply wf_step|apply count_ok_step]. Qed.

(** ** The owner *)
Lemma creator_plain t : ¬ plain_role t (creator_role t) ∨ t = DIRECT.
Proof. destruct t; naive_solver. Qed.

Lemma creator_ok_put_member s m m' :
  creator_ok s → members s !! (ChatMember.chat_id m, ChatMember.user_id m) = Some m →
  ChatMember.chat_id m' = ChatMember.chat_id m → ChatMember.user_id m' = ChatMember.user_id m →
  (∀ c, chats s !! ChatMember.chat_id m = Some c →
     if decide (ChatMember.user_id m = Chat.created_by c)
     then ChatMember.role_id m' = creator_role (Chat.type c)
     else plain_role (Chat.type c) (ChatMember.role_id m')) →
  creator_ok (put_member m' s).
Proof.
  intros Hc Hk E1 E2 Hr cid c Hl. unfold put_member, modify_field in *; cbn in *.
  rewrite E1, E2 in *. destruct (Hc cid c Hl) as [(o & Ho & Hor) Hall].
  destruct (decide (cid = ChatMember.chat_id m)) as [->|Hne].
  - specialize (Hr c Hl). split.
    + destruct (decide (ChatMember.user_id m = Chat.created_by c)) as [He|He].
      * exists m'. by rewrite He, lookup_insert_eq.
      * exists o. rewrite lookup_insert_ne by congruence. done.
    + intros u x. rewrite lookup_insert_Some. intros [[[= <-] <-]|[_ Hx]]; [done|]. by apply Hall.
  - split; [exists o; rewrite lookup_insert_ne by congruence; done|].
    intros u x. rewrite lookup_insert_Some. intros [[[= ? <-] <-]|[_ Hx]]; [done|]. by apply Hall.
Qed.

Lemma creator_ok_put_chat s c c' :
  creator_ok s → chats s !! Chat.id c = Some c → Chat.id c' = Chat.id c →
  Chat.type c' = Chat.type c → Chat.created_by c' = Chat.created_by c →
  creator_ok (put_chat c' s).
Proof.
  intros Hc Hk Hi Ht Hn cid x. unfold put_chat, modify_field; cbn. rewrite Hi, lookup_insert_Some.
  intros [[<- <-]|[_ Hx]]; [rewrite Hn, Ht|]; by apply Hc.
Qed.

Lemma creator_ok_create s c :
  wf s → creator_ok s → chats s !! Chat.id c = None →
  creator_ok (enroll c (Chat.created_by c) (creator_role (Chat.type c)) s).
Proof.
  intros Hwf Hc Hk cid x. unfold enroll, modify_field; cbn. rewrite lookup_insert_Some.
  intros [[<- <-]|[Hne Hx]]; cbn.
  - split; [eexists; by rewrite lookup_insert_eq|].
    intros u m. rewrite lookup_insert_Some. intros [[[= <-] <-]|[_ Hm]].
    + by rewrite decide_True.
    + apply (wf_member_chat _ Hwf) in Hm as [? ?]. congruence.
  - destruct (Hc cid x Hx) as [(m & Hm & Hr) Hall]. split.
    + exists m. by rewrite lookup_insert_ne by congruence.
    + intros u y. rewrite lookup_insert_ne by congruence. apply Hall.
Qed.

Lemma creator_ok_enroll s c uid role :
  creator_ok s → chats s !! Chat.id c = Some c → members s !! (Chat.id c, uid) = None →
  plain_role (Chat.type c) role → creator_ok (enroll c uid role s).
Proof.
  intros Hc Hk Hn Hr cid x. unfold enroll, modify_field; cbn.
  rewrite lookup_insert_Some. intros [[<- <-]|[Hne Hx]]; cbn.
  - destruct (Hc _ _ Hk) as [(m & Hm & Hmr) Hall]. split.
    + exists m. rewrite lookup_insert_ne by congruence. done.
    + intros u y. rewrite lookup_insert_Some. intros [[[= <-] <-]|[_ Hy]]; [|by apply Hall].
      rewrite decide_False by congruence. done.
  - destruct (Hc cid x Hx) as [(m & Hm & Hmr) Hall]. split.
    + exists m. by rewrite lookup_insert_ne by congruence.
    + intros u y. rewrite lookup_insert_ne by congruence. apply Hall.
Qed.

Lemma creator_ok_expel s c uid :
  creator_ok s → chats s !! Chat.id c = Some c → uid ≠ Chat.created_by c →
  creator_ok (expel c uid s).
Proof.
  intros Hc Hk Hn cid x. unfold expel, modify_field; cbn. rewrite lookup_insert_Some.
  intros [[<- <-]|[Hne Hx]]; cbn.
  - destruct (Hc _ _ Hk) as [(m & Hm & Hr) Hall]. split.
    + exists m. by rewrite lookup_delete_ne by congruence.
    + intros u y [_ Hy]%lookup_delete_Some. by apply Hall.
  - destruct (Hc cid x Hx) as [(m & Hm & Hr) Hall]. split.
    + exists m. by rewrite lookup_delete_ne by congruence.
    + intros u y [_ Hy]%lookup_delete_Some. by apply Hall.
Qed.

(** the three rows an ownership transfer writes *)
Lemma creator_ok_transfer s c new old :
  wf s → creator_ok s → chats s !! Chat.id c = Some c → Chat.type c ≠ DIRECT →
  members s !! (Chat.id c, ChatMember.user_id new) = Some new →
  ChatMember.chat_id new = Chat.id c → ChatMember.user_id new ≠ Chat.created_by c →
  members s !! (Chat.id c, Chat.created_by c) = Some old →
  creator_ok (put_member (old <| ChatMember.role_id := ADMIN |>)
    (put_member (new <| ChatMember.role_id := OWNER |>)
       (put_chat (c <| Chat.created_by := ChatMember.user_id new |>) s))).
Proof.
  intros Hwf Hc Hk Ht Hnew Hcid Hne Hold. apply (wf_member _ Hwf) in Hold as Hkey.
  injection Hkey as Hk1 Hk2. intros cid x. unfold put_member, put_chat, modify_field; cbn.
  rewrite Hcid, <- Hk1, <- Hk2, lookup_insert_Some. intros [[<- <-]|[Hn Hx]]; cbn.
  - assert (creator_role (Chat.type c) = OWNER) as -> by (by destruct (Chat.type c)).
    destruct (Hc _ _ Hk) as [_ Hall]. split.
    + eexists. rewrite lookup_insert_ne by congruence. by rewrite lookup_insert_eq.
    + intros u y. rewrite !lookup_insert_Some.
      intros [[[= <-] <-]|[Hu [[[= <-] <-]|[Hu' Hy]]]]; cbn.
      * rewrite decide_False by done. by destruct (Chat.type c).
      * by rewrite decide_True.
      * rewrite decide_False by congruence. specialize (Hall u y Hy).
        by rewrite decide_False in Hall by congruence.
  - destruct (Hc cid x Hx) as [(m & Hm & Hr) Hall]. split.
    + exists m. by rewrite !lookup_insert_ne by congruence.
    + intros u y. rewrite !lookup_insert_ne by congruence. apply Hall.
Qed.

Lemma creator_ok_step s s' : wf s → creator_ok s → step false s s' → creator_ok s'.
Proof.
  intros Hwf Hc Hs. destruct Hs.
  - done.
  - by apply creator_ok_create.
  - destruct H3 as [|]; [done|]. by apply creator_ok_enroll.
  - destruct H2 as [|]; [done|]. by apply creator_ok_expel.
  - destruct H0 as (_ & E1 & E2 & E3 & _). eapply creator_ok_put_member; eauto.
    intros c Hl. destruct (Hc _ _ Hl) as [_ Hall]. rewrite E3. by apply Hall.
  - destruct H0 as [|[Hr Hall]]; [done|]. eapply creator_ok_put_member; eauto.
    intros c [Ht Hu]%Hall. rewrite decide_False by done. by destruct (Chat.type c).
  - destruct (Hc _ _ H) as [(o & Ho & _) _]. rewrite Ho in H5. subst old.
    by apply creator_ok_transfer.
  - destruct H0 as (? & ? & ? & _). by eapply creator_ok_put_chat.
Qed.

Lemma wf_creator_preserved : preserved false (λ s, wf s ∧ creator_ok s).
Proof. apply preserved_under; [apply wf_step|apply creator_ok_step]. Qed.

(** ** What the ranks give *)

(** With no overrides, a member holds the permissions of their role. *)
Lemma has_permission_role s k m p :
  wf s → members s !! k = Some m →
  ChatMember.has_permission m p = ChatRole.has_permission (ChatRolesEnum (ChatMember.role_id m)) p.
Proof.
  intros Hwf Hk. unfold ChatMember.has_permission.
  by rewrite (wf_overrides _ Hwf _ _ Hk), lookup_empty.
Qed.

Lemma direct_role s k c u m :
  creator_ok s → chats s !! k = Some c → Chat.type c = DIRECT → members s !! (k, u) = Some m →
  ChatMember.role_id m = DIRECT_MEMBER.
Proof.
  intros Hc Hk Ht Hm. destruct (Hc _ _ Hk) as [_ Hall]. specialize (Hall _ _ Hm).
  rewrite Ht in Hall. by case_decide.
Qed.

(** Outside direct chats, the owner's row is the creator's. *)
Lemma owner_is_creator s k c u m :
  creator_ok s → chats s !! k = Some c → members s !! (k, u) = Some m →
  ChatMember.role_id m = OWNER → u = Chat.created_by c ∧ Chat.type c ≠ DIRECT.
Proof.
  intros Hc Hk Hm Hr. destruct (Hc _ _ Hk) as [_ Hall]. specialize (Hall _ _ Hm).
  case_decide; rewrite Hr in Hall; destruct (Chat.type c); naive_solver.
Qed.

Lemma creator_is_owner s k c m :
  creator_ok s → chats s !! k = Some c → members s !! (k, Chat.created_by c) = Some m →
  Chat.type c ≠ DIRECT → ChatMember.role_id m = OWNER.
Proof.
  intros Hc Hk Hm Ht. destruct (Hc _ _ Hk) as [_ Hall]. specialize (Hall _ _ Hm).
  rewrite decide_True in Hall by done. by destruct (Chat.type c).
Qed.

(** Whatever sequence of membership changes the chat module makes, a
    chat's counter is its number of membership rows and within its limit. *)
Theorem reachable_count priv s : steps priv empty_store s → count_ok s.
Proof.
  intros Hs. eapply (preserved_steps priv (λ s, wf s ∧ count_ok s)); eauto using wf_count_preserved.
  split; [apply wf_empty|]. intros cid c Hc. simplify_map_eq.
Qed.

Lemma reachable_count_witness : count_ok (with_events (λ _, 0) [] empty_store).
Proof. apply (reachable_count true). apply steps_one. apply step_emit. Defined.
