(* ===== verification/MembershipSpec.v ===== *)
(** The handlers of [MembershipCommands] refine [Spec]: what each commits is
    reached from the committed store by the specification's steps, and a
    handler that raises commits nothing. *)
From S2P Require Import Prelude Config Events MemberModel ChatModel PrivacyModel Store Wp Rbac Access ChatRepo ChatWp PrivacyService MembershipCommands Spec MembershipInv.

(** A newcomer's place taken, their row inserted, the event published. *)
Lemma wp_newcomer c uid role w Q :
  live_row w (Chat.id c) c → Chat.members c = [] → Chat.events c = [] →
  (∀ ids w', w_database w' = with_events ids [AddedChatMemberEvent (Chat.id c) uid (role_int role)]
                               (enroll c uid role (w_session w)) →
     w_session w' = w_database w' →
     members (w_session w) !! (Chat.id c, uid) = None →
     Chat.member_count c + 1 ≤ Chat.member_limit (Chat.type c) →
     Q (Ok tt) w') →
  (∀ e w', w_database w' = w_database w → Q (Err e) w') →
  wp (chat ← take_places c 1;
      let chat := Chat.add_member chat uid role in
      _ ← publish_chat chat;
      _ ← flush_members chat;
      commit) w Q.
Proof.
  intros Hl Hm He HS HE. apply wp_bind, wp_take_places; [done| |by apply HE].
  intros Hlim. apply wp_bind, wp_publish. intros ids n.
  apply wp_bind, (wp_flush_one _ uid role); [cbn; by rewrite Hm| |].
  - intros Hn. apply wp_commit. eapply HS; [|done|done|done].
    cbn. rewrite He. reflexivity.
  - intros x Hx. by apply HE.
Qed.

(** ** Refinement *)

(** A request may be held to the unprivileged steps when its caller is not a
    global administrator and the owners are still in order; any request may be
    held to the privileged ones. *)
Definition clearance `{RBACManager} (priv : bool) (j : UserJWTData) (s : store) : Prop :=
  priv = true ∨ ChatAccessService._has_global_chat_admin j = false ∧ creator_ok s.

Definition refines {A} (priv : bool) (m : M A) (w : world) : Prop :=
  transaction m w (λ _ w', steps priv (w_database w) (w_database w')).

Section refinement.
Context `{R : RBACManager}.

(** a request starts from the committed state, whose tables are in order *)
Definition ready (w : world) : Prop := wf (w_session w) ∧ w_session w = w_database w.

Lemma ready_row w k c :
  ready w → live_row w k c →
  Chat.id c = k ∧ Chat.members c = [] ∧ Chat.events c = [] ∧
  chats (w_database w) !! k = Some c ∧ Chat.is_deleted c = false.
Proof.
  intros [Hwf Heq] [Hk Hd]. destruct (wf_chat _ Hwf _ _ Hk) as (? & ? & ?).
  rewrite <- Heq. done.
Qed.

(** A permission the direct role lacks is not held in a direct chat. *)
Lemma direct_not_granted s k c u m p :
  wf s → creator_ok s → chats s !! k = Some c → members s !! (k, u) = Some m →
  ChatMember.has_permission m p = true →
  ChatRole.has_permission (ChatRolesEnum DIRECT_MEMBER) p = false → Chat.type c ≠ DIRECT.
Proof.
  intros Hwf Hc Hk Hm Hp Hd Ht. erewrite has_permission_role in Hp by done.
  erewrite direct_role in Hp by done. congruence.
Qed.

Lemma granted_one m p : ChatAccessService.grants m [p] = true → ChatMember.has_permission m p = true.
Proof. rewrite ChatAccessService.grants_spec. set_solver. Qed.

(** Acting on another member, unprivileged, never reaches the creator and does
    not happen in a direct chat. *)
Lemma acting_on_target s n j k c requester m p :
  wf s → creator_ok s → ChatAccessService._has_global_chat_admin j = false →
  chats s !! k = Some c → members s !! (k, ChatMember.user_id m) = Some m →
  members s !! (k, jwt_id j) = requester →
  ChatRole.has_permission (ChatRolesEnum DIRECT_MEMBER) p = false →
  ChatAccessService.update_member n j requester m [p] = true →
  Chat.type c ≠ DIRECT ∧ ChatMember.user_id m ≠ Chat.created_by c.
Proof.
  intros Hwf Hc Hg Hk Hm Hreq Hp Hu.
  destruct (ChatAccessService.update_member_requester _ _ _ _ _ Hu Hg)
    as (r & -> & _ & Hne & Hgr & Hlvl).
  assert (Chat.type c ≠ DIRECT) as Ht
    by (eapply direct_not_granted; eauto using granted_one).
  split; [done|]. intros Hcr. rewrite Hcr in Hm.
  rewrite (creator_is_owner _ _ _ _ Hc Hk Hm Ht) in Hlvl. apply role_level_owner in Hlvl.
  destruct (owner_is_creator _ _ _ _ _ Hc Hk Hreq Hlvl) as [Hj _].
  rewrite Hj in Hreq. rewrite Hreq in Hm. congruence.
Qed.

Lemma AddMember_refines priv cmd w :
  ready w → clearance priv (AddMember.user_jwt_data cmd) (w_session w) →
  refines priv (AddMember.handle cmd) w.
Proof.
  intros Hr Hcl. unfold refines, transaction, AddMember.handle. wp_steps.
  destruct (ready_row _ _ _ Hr (conj H H0)) as (Hid & Hm & He & Hdb & Hd). subst.
  wp_service. apply wp_newcomer; try done.
  - by rewrite Hid.
  - intros ids w' Hdb' _ Hn Hlim. rewrite Hdb'. apply steps_emit, steps_one.
    destruct Hr as [Hwf <-]. apply step_enroll; try done; [by rewrite Hid|].
    destruct Hcl as [|[Hg Hc]]; [by left|right]. bool_simpl.
    destruct (ChatAccessService.has_permissions_member _ _ _ _ _ H2 Hg) as (r & [= <-] & _ & Hgr).
    assert (Chat.type c ≠ DIRECT) as Ht by (eapply direct_not_granted; eauto using granted_one).
    apply ChatAccessService.ensure_can_assign_role_not_owner in H3; [|done].
    by destruct (Chat.type c).
Qed.

(** the committed store after a member left *)
Lemma expelled_step priv s c k u m ids es :
  wf s → chats s !! k = Some c → Chat.is_deleted c = false → members s !! (k, u) = Some m →
  (priv = true ∨ u ≠ Chat.created_by c) →
  steps priv s (with_events ids es
    (s <| members ::= delete (k, u) |>
       <| chats ::= <[k := c <| Chat.member_count := Chat.member_count c + -1 |>]> |>)).
Proof.
  intros Hwf Hk Hd Hm Hp. apply steps_emit, steps_one.
  destruct (wf_chat _ Hwf _ _ Hk) as (Hid & _ & _). rewrite <- Hid in *.
  exact (step_expel priv s c u m Hk Hd Hm Hp).
Qed.

(** the end of [kick] and [leave] *)
Lemma wp_member_gone k c u m c' w Q :
  wf (w_session w) → live_row w k c → members (w_session w) !! (k, u) = Some m →
  Chat.id c' = k →
  (∀ ids w', w_database w' = with_events ids (Chat.events c')
      ((w_session w) <| members ::= delete (k, u) |>
        <| chats ::= <[k := c <| Chat.member_count := Chat.member_count c + -1 |>]> |>) →
     Q (Ok tt) w') →
  wp (_ ← ChatRepository.delete_member m;
      _ ← ChatRepository.shift_member_count (Chat.id c') (-1) None;
      _ ← publish_chat c';
      commit) w Q.
Proof.
  intros Hwf [Hk Hd] Hm Hid HS. apply (wf_member _ Hwf) in Hm as Hkey. injection Hkey as Hk1 Hk2.
  apply wp_bind, wp_execute, wp_bind, wp_shift_member_count.
  - intros x [Hx _] _. rewrite Hid in *. assert (x = c) as -> by (cbn in Hx; congruence).
    wp_steps. apply (HS ids). cbn. rewrite <- Hk1, <- Hk2. reflexivity.
  - intros Hno. exfalso. destruct (Hno c) as (l & ? & _); [|done]. rewrite Hid. by split.
Qed.

Lemma KickMember_refines priv cmd w :
  ready w → clearance priv (KickMember.user_jwt_data cmd) (w_session w) →
  refines priv (KickMember.handle cmd) w.
Proof.
  intros Hr Hcl. unfold refines, transaction, KickMember.handle. wp_steps.
  destruct (ready_row _ _ _ Hr (conj H H0)) as (Hid & Hm & He & Hdb & Hd).
  eapply (wp_member_gone (KickMember.chat_id cmd) c (KickMember.target_user_id cmd));
    [apply Hr|done|done|unfold Chat.kick_member in H3; result_inv H3; by subst|].
  intros ids w' ->. cbn. destruct Hr as [Hwf <-]. eapply expelled_step; try done.
  destruct Hcl as [|[Hg Hc]]; [by left|right]. bool_simpl.
  pose proof (wf_member _ Hwf _ _ H1) as Hkey. injection Hkey as Hk1 Hk2. rewrite Hk2 in *.
  by eapply acting_on_target in H2 as [? ?].
Qed.

Lemma LeaveChat_refines priv cmd w :
  ready w → refines priv (LeaveChat.handle cmd) w.
Proof.
  intros Hr. unfold refines, transaction, LeaveChat.handle. wp_steps.
  destruct (ready_row _ _ _ Hr (conj H H0)) as (Hid & Hm & He & Hdb & Hd).
  unfold Chat.leave in H2. result_inv H2. bool_simpl.
  eapply (wp_member_gone (LeaveChat.chat_id cmd) c (jwt_id (LeaveChat.user_jwt_data cmd)));
    [apply Hr|done|done|by subst|].
  intros ids w' ->. cbn. destruct Hr as [Hwf <-]. eapply expelled_step; try done. auto.
Qed.

(** ** Bans, mutes and roles *)
Lemma wp_authorised_target j k u p w Q :
  (∀ c m t n, live_row w k c → members (w_session w) !! (k, u) = Some m →
     ChatAccessService.update_member n j (members (w_session w) !! (k, jwt_id j)) m [p] = true →
     Q (Ok (c, m)) (at_tick t w)) →
  (∀ e t, Q (Err e) (at_tick t w)) →
  wp (authorised_target j k u p) w Q.
Proof.
  intros HS HE. unfold authorised_target. wp_steps; try (rewrite (at_tick_self w); apply HE).
  bool_simpl. eapply HS; done.
Qed.

(** what a handler leaves when it rewrites one membership *)
Lemma rewritten_member priv s k u m m' ids es :
  wf s → members s !! (k, u) = Some m → same_standing m m' →
  steps priv s (with_events ids es (put_member m' s)).
Proof.
  intros Hwf Hm Hst. apply (wf_member _ Hwf) in Hm as Hkey. injection Hkey as -> ->.
  apply steps_emit, steps_one. by eapply step_member.
Qed.

Ltac rewritten Hwf Hm :=
  match goal with
  | |- context [with_events ?ids ?es] =>
    match goal with
    | |- context [<[(ChatMember.chat_id ?m', _) := _]>] =>
      refine (rewritten_member _ _ _ _ _ m' ids es Hwf Hm _); done
    end
  end.

Lemma BanMember_refines priv cmd w : ready w → refines priv (BanMember.handle cmd) w.
Proof.
  intros [Hwf Heq]. unfold refines, transaction, BanMember.handle. wp_steps.
  apply wp_authorised_target; [|done]. intros c m t n Hl Hm Hu. wp_steps.
  rewrite <- Heq. rewritten Hwf Hm.
Qed.

Lemma UnbanMember_refines priv cmd w : ready w → refines priv (UnbanMember.handle cmd) w.
Proof.
  intros [Hwf Heq]. unfold refines, transaction, UnbanMember.handle. wp_steps.
  apply wp_authorised_target; [|done]. intros c m t n Hl Hm Hu. wp_steps.
  case_match; wp_steps; [apply rtc_refl|]. rewrite <- Heq. rewritten Hwf Hm.
Qed.

Lemma MuteMember_refines priv cmd w : ready w → refines priv (MuteMember.handle cmd) w.
Proof.
  intros [Hwf Heq]. unfold refines, transaction, MuteMember.handle. wp_steps.
  apply wp_authorised_target; [|done]. intros c m t n Hl Hm Hu. wp_steps.
  case_match; wp_steps; [apply rtc_refl|]. rewrite <- Heq. rewritten Hwf Hm.
Qed.

Lemma UnmuteMember_refines priv cmd w : ready w → refines priv (UnmuteMember.handle cmd) w.
Proof.
  intros [Hwf Heq]. unfold refines, transaction, UnmuteMember.handle. wp_steps.
  apply wp_authorised_target; [|done]. intros c m t n Hl Hm Hu. wp_steps.
  case_match; wp_steps; [apply rtc_refl|]. rewrite <- Heq. rewritten Hwf Hm.
Qed.

Lemma ChangeMemberRole_refines priv cmd w :
  ready w → clearance priv (ChangeMemberRole.user_jwt_data cmd) (w_session w) →
  refines priv (ChangeMemberRole.handle cmd) w.
Proof.
  intros [Hwf Heq] Hcl. unfold refines, transaction, ChangeMemberRole.handle. wp_steps.
  rewrite <- Heq. apply (wf_member _ Hwf) in H as Hkey. injection Hkey as Hk Hu.
  rewrite Hk, Hu in H. apply steps_one, (step_role _ _ a); [done|].
  destruct Hcl as [|[Hg Hc]]; [by left|right]. bool_simpl. split.
  - by eapply ChatAccessService.ensure_can_assign_role_not_owner.
  - intros c Hl. rewrite <- Hk in *.
    by eapply (acting_on_target _ _ _ _ c _ a "role:change") in H0.
Qed.

Lemma transfer_ownership_Ok now c requester new c' new' prev :
  Chat.transfer_ownership now c requester new = Ok (c', new', prev) →
  Chat.type c ≠ DIRECT ∧ ChatMember.user_id new ≠ Chat.created_by c
  ∧ ChatMember.is_banned now new = false ∧ prev = Chat.created_by c
  ∧ new' = new <| ChatMember.role_id := OWNER |>
  ∧ c' = Chat.register_event (c <| Chat.created_by := ChatMember.user_id new |>)
           (TransferredChatOwnershipEvent (Chat.id c) requester prev (ChatMember.user_id new)).
Proof.
  unfold Chat.transfer_ownership. intros H. result_inv H. bool_simpl. naive_solver.
Qed.

(** the row of a loaded chat whose members and events were empty *)
Lemma chat_row_events c es :
  Chat.members c = [] → Chat.events c = [] → chat_row (c <| Chat.events := es |>) = c.
Proof. destruct c; cbn. by intros -> ->. Qed.

Lemma wp_previous_owner k r u w Q :
  wf (w_session w) → members (w_session w) !! (k, jwt_id r) = u →
  ∀ prev,
  Q (Ok (members (w_session w) !! (k, prev))) w →
  wp (match u with
      | Some m => if ChatMember.user_id m =? prev then mret (Some m)
                  else ChatRepository.get_member_chat k prev
      | None => ChatRepository.get_member_chat k prev
      end) w Q.
Proof.
  intros Hwf Hu prev HQ. destruct u as [m|]; [|by apply wp_query].
  destruct (ChatMember.user_id m =? prev) eqn:Hp; [|by apply wp_query].
  apply (wf_member _ Hwf) in Hu as Hkey. injection Hkey as Hk1 Hk2. bool_simpl.
  rewrite <- Hk2 in Hp. rewrite Hp in Hu. rewrite Hu in HQ. by apply wp_ret.
Qed.

Lemma TransferChatOwnership_refines priv cmd w :
  ready w → refines priv (TransferChatOwnership.handle cmd) w.
Proof.
  intros Hr. unfold refines, transaction, TransferChatOwnership.handle. wp_steps.
  destruct (ready_row _ _ _ Hr (conj H H0)) as (Hid & Hm & He & Hdb & Hd).
  destruct a0 as [[c' new'] prev].
  destruct (transfer_ownership_Ok _ _ _ _ _ _ _ H3) as (Ht & Hne & _ & -> & -> & ->).
  destruct Hr as [Hwf Heq]. wp_step.
  apply (wp_previous_owner _ (TransferChatOwnership.user_jwt_data cmd)); [done|done|].
  wp_step. wp_step. wp_step. apply wp_flush_chat; [intros _|reflexivity].
  change (w_session (at_tick t w)) with (w_session w) in H2.
  pose proof (wf_member _ Hwf _ _ H2) as Hkey. injection Hkey as Hk1 Hk2.
  assert (steps priv (w_session w) (with_events ids
    [TransferredChatOwnershipEvent (Chat.id c) (jwt_id (TransferChatOwnership.user_jwt_data cmd))
       (Chat.created_by c) (ChatMember.user_id a)]
    (from_option (λ o, put_member (o <| ChatMember.role_id := ADMIN |>)) id
       (members (w_session w) !! (Chat.id c, Chat.created_by c))
       (put_member (a <| ChatMember.role_id := OWNER |>)
          (put_chat (c <| Chat.created_by := ChatMember.user_id a |>) (w_session w)))))) as Hst.
  { apply steps_emit, steps_one, step_transfer; try done; rewrite ?Hid; congruence. }
  assert (chat_row (Chat.register_event (c <| Chat.created_by := ChatMember.user_id a |>)
    (TransferredChatOwnershipEvent (Chat.id c) (jwt_id (TransferChatOwnership.user_jwt_data cmd))
       (Chat.created_by c) (ChatMember.user_id a)))
    = c <| Chat.created_by := ChatMember.user_id a |>) as -> by (by apply chat_row_events).
  rewrite <- Heq. unfold Chat.pull_events. cbn. rewrite He. cbn. rewrite <- Hid.
  destruct (members (w_session w) !! (_, Chat.created_by c)) as [o|]; wp_steps; exact Hst.
Qed.
End refinement.
