(* ===== verification/TableInv.v ===== *)
(** The abstract specification of the other tables - messages, pins, invite
    links, join requests, reactions, read receipts - as guarded atomic changes
    of the store, the step relation of the system (one change of any table), and
    the invariants of the message, pin, invite-link and join-request tables that
    every such change keeps. *)
From S2P Require Import Prelude Config Events MemberModel InviteModel MessageModel ChatModel PrivacyModel Store Wp ChatRepo InviteRepo MessageRepo Reactions ReadReceipts Spec.

(** ** Messages *)
Definition put_message (m : Message.t) (s : store) : store :=
  s <| messages ::= <[Message.id m := m]> |>.

(** sequence numbers from [first] on *)
Fixpoint numbered (first : Z) (ms : list Message.t) : Prop :=
  match ms with
  | [] => True
  | m :: ms' => Message.seq m = first ∧ numbered (first + 1) ms'
  end.

(** what a message keeps when it is edited or deleted *)
Definition same_message (m m' : Message.t) : Prop :=
  Message.id m' = Message.id m ∧ Message.chat_id m' = Message.chat_id m
  ∧ Message.seq m' = Message.seq m ∧ Message.author_id m' = Message.author_id m
  ∧ Message.type m' = Message.type m ∧ Message.attachments m' = [] ∧ Message.events m' = [].

(** the chat after [n] numbers were taken from its counter *)
Definition advance_seq (c : Chat.t) (n : Z) (date : datetime) : Chat.t :=
  c <| Chat.seq_counter := Chat.seq_counter c + n |> <| Chat.last_activity_at := Some date |>.

Inductive message_step (s : store) : store → Prop :=
| step_post c date ms s' :
  chats s !! Chat.id c = Some c → Chat.is_deleted c = false →
  numbered (Chat.seq_counter c + 1) ms →
  Forall (λ m, Message.chat_id m = Chat.id c ∧ Message.validate_content m = Ok tt) ms →
  insert_messages ms (put_chat (advance_seq c (len ms) date) s) = Ok s' →
  message_step s s'
| step_edit m m' :
  messages s !! Message.id m = Some m → Message.is_deleted m = false → same_message m m' →
  Message.validate_content m' = Ok tt →
  (Message.is_deleted m' = true → pins s !! (Message.chat_id m, Message.id m) = None) →
  message_step s (put_message m' s).

(** ** Pins *)
Inductive pin_step (s : store) : store → Prop :=
| step_pin p m :
  MessageRepository.live_message s (ChatPinnedMessage.message_id p) = Some m →
  Message.chat_id m = ChatPinnedMessage.chat_id p → Message.type m ≠ SYSTEM →
  Message.seq m = ChatPinnedMessage.message_seq p →
  pins s !! (ChatPinnedMessage.chat_id p, ChatPinnedMessage.message_id p) = None →
  ChatPinnedMessageRepository.live_pins s (ChatPinnedMessage.chat_id p)
    < chat_config.MAX_PINNED_MESSAGES →
  pin_step s (s <| pins ::=
    <[(ChatPinnedMessage.chat_id p, ChatPinnedMessage.message_id p) := p]> |>)
| step_unpin (P : (UUID * UUID) * ChatPinnedMessage.t → Prop) `{∀ x, Decision (P x)} :
  pin_step s (s <| pins ::= filter P |>).

(** ** Invite links *)
Definition links_of (s : store) (chat_id : UUID) : Z :=
  count_where (λ kv, ChatInviteLinkRepository.not_revoked chat_id kv.2 = true) (invites s).

Inductive invite_step (s : store) : store → Prop :=
| step_link_new i c :
  chats s !! ChatInviteLink.chat_id i = Some c → Chat.type c ≠ DIRECT →
  ChatInviteLink.usage_ok i → ChatInviteLink.is_revoked i = false →
  invites s !! ChatInviteLink.id i = None →
  (∀ k j, invites s !! k = Some j → ChatInviteLink.code j ≠ ChatInviteLink.code i) →
  links_of s (ChatInviteLink.chat_id i) < chat_config.MAX_INVITE_LINKS_PER_CHAT →
  invite_step s (put_invite i s)
| step_link_revoke i at_ :
  invites s !! ChatInviteLink.id i = Some i → ChatInviteLink.is_revoked i = false →
  invite_step s (put_invite (i <| ChatInviteLink.revoked_at := Some at_ |>) s)
| step_link_use i now :
  invites s !! ChatInviteLink.id i = Some i → ChatInviteLink.is_active now i = true →
  ChatInviteLink.creates_join_request i = false →
  invite_step s
    (put_invite (i <| ChatInviteLink.usage_count := ChatInviteLink.usage_count i + 1 |>) s)
| step_link_credit links :
  (∀ l i, l ∈ links → invites s !! l = Some i → ChatInviteLink.creates_join_request i = true) →
  invite_step s (s <| invites ::= fmap (ChatInviteLinkRepository.credit links) |>).

(** ** Join requests *)

(** the link a request came through is one that files requests *)
Definition request_link (s : store) (r : ChatJoinRequest.t) : Prop :=
  ∀ l, ChatJoinRequest.invite_link_id r = Some l →
  ∃ i, invites s !! l = Some i ∧ ChatInviteLink.creates_join_request i = true.

Definition request_key (r : ChatJoinRequest.t) : UUID * Z :=
  (ChatJoinRequest.chat_id r, ChatJoinRequest.user_id r).

Inductive request_step (s : store) : store → Prop :=
| step_submit r c :
  chats s !! ChatJoinRequest.chat_id r = Some c → Chat.is_deleted c = false →
  members s !! request_key r = None →
  ChatJoinRequestRepository.pending_count (ChatJoinRequest.chat_id r) s
    < chat_config.MAX_PENDING_JOIN_REQUESTS →
  (∀ r0, join_requests s !! request_key r = Some r0 → ChatJoinRequest.is_pending r0 = false) →
  ChatJoinRequest.coherent r → ChatJoinRequest.is_pending r = true → request_link s r →
  request_step s (put_join_request r s)
| step_resolve r now status by_ :
  join_requests s !! request_key r = Some r → ChatJoinRequest.is_pending r = true →
  status ≠ JR_PENDING →
  request_step s (put_join_request (ChatJoinRequest._resolve now r status by_) s)
| step_decline_all chat_id by_ now :
  request_step s (s <| join_requests ::=
    fmap (ChatJoinRequestRepository.declined_in chat_id by_ now) |>)
| step_cancel r :
  join_requests s !! request_key r = Some r → ChatJoinRequest.is_pending r = true →
  request_step s (s <| join_requests ::= delete (request_key r) |>).

(** ** Reactions *)
Inductive reaction_step (s : store) : store → Prop :=
| step_react chat_id message_id user_id emoji now n s' m :
  MessageRepository.live_message s message_id = Some m → Message.chat_id m = chat_id →
  emoji ∈ chat_config.DEFAULT_REACTIONS →
  len (MessageReactionRepository.user_emojis s message_id user_id)
    < chat_config.MAX_REACTIONS_PER_USER_PER_MESSAGE →
  (is_Some (reaction_counters s !! (message_id, emoji))
   ∨ MessageReactionRepository.distinct_emojis s message_id
       < chat_config.MAX_DISTINCT_REACTIONS_PER_MESSAGE) →
  MessageReactionRepository.added chat_id message_id user_id emoji now s = (Some n, s') →
  reaction_step s s'
| step_unreact message_id user_id emoji now n s' :
  MessageReactionRepository.removed message_id user_id emoji now s = (Some n, s') →
  reaction_step s s'.

(** ** Read receipts *)
Inductive receipt_step (s : store) : store → Prop :=
| step_read key n : receipt_step s (ReadReceiptRepository.upsert key n s).2
| step_mark mark : receipt_step s (ReadReceiptRepository.add_mark s mark).

(** ** The system *)
Inductive sys_step (priv : bool) (s s' : store) : Prop :=
| sys_membership : step priv s s' → sys_step priv s s'
| sys_message : message_step s s' → sys_step priv s s'
| sys_pin : pin_step s s' → sys_step priv s s'
| sys_invite : invite_step s s' → sys_step priv s s'
| sys_request : request_step s s' → sys_step priv s s'
| sys_reaction : reaction_step s s' → sys_step priv s s'
| sys_receipt : receipt_step s s' → sys_step priv s s'.

Definition sys_steps (priv : bool) : relation store := rtc (sys_step priv).

#[export] Hint Constructors sys_step message_step pin_step invite_step request_step reaction_step receipt_step : msgr.

Lemma steps_sys priv s s' : steps priv s s' → sys_steps priv s s'.
Proof. induction 1; [apply rtc_refl|]. eapply rtc_l; [by apply sys_membership|done]. Qed.

Lemma sys_steps_trans priv s1 s2 s3 :
  sys_steps priv s1 s2 → sys_steps priv s2 s3 → sys_steps priv s1 s3.
Proof. unfold sys_steps. intros ? ?. by etrans. Qed.

Lemma sys_then priv s1 s2 s3 : sys_steps priv s1 s2 → sys_step priv s2 s3 → sys_steps priv s1 s3.
Proof. apply rtc_r. Qed.

Lemma sys_emit priv ids es s s' : sys_steps priv s s' → sys_steps priv s (with_events ids es s').
Proof. intros Hs. eapply sys_then; [done|apply sys_membership, step_emit]. Qed.

(** A property that every change keeps holds throughout. *)
Lemma sys_preserved priv (I : store → Prop) s s' :
  (∀ s s', I s → sys_step priv s s' → I s') → I s → sys_steps priv s s' → I s'.
Proof. intros Hp Hi. induction 1; eauto. Qed.

(** ** What each group of changes leaves alone *)

(** the tables beside chats and members *)
Definition same_tables (s s' : store) : Prop :=
  messages s' = messages s ∧ pins s' = pins s ∧ invites s' = invites s
  ∧ join_requests s' = join_requests s ∧ reactions s' = reactions s
  ∧ reaction_counters s' = reaction_counters s ∧ read_receipts s' = read_receipts s.

(** Chats are never removed; they keep their kind and their sequence counter,
    and a new one starts at zero. *)
Definition chats_evolve (s s' : store) : Prop :=
  (∀ k c, chats s !! k = Some c →
     ∃ c', chats s' !! k = Some c' ∧ Chat.type c' = Chat.type c
           ∧ Chat.seq_counter c' = Chat.seq_counter c)
  ∧ ∀ k c', chats s' !! k = Some c' → chats s !! k = None →
     Chat.seq_counter c' = 0 ∧ Chat.valid c'.

Lemma evolve_same s s' : chats s' = chats s → chats_evolve s s'.
Proof. intros E. split; rewrite E; [eauto|congruence]. Qed.

Lemma evolve_insert s s' k c c' :
  chats s !! k = Some c → chats s' = <[k := c']> (chats s) →
  Chat.type c' = Chat.type c → Chat.seq_counter c' = Chat.seq_counter c → chats_evolve s s'.
Proof.
  intros Hk E Ht Hs. split; rewrite E.
  - intros k0 c0 H0. destruct (decide (k = k0)) as [->|]; simplify_map_eq; eauto.
  - intros k0 c0 [[<- <-]|[? ?]]%lookup_insert_Some; congruence.
Qed.

Lemma step_frame priv s s' : wf s → step priv s s' → same_tables s s' ∧ chats_evolve s s'.
Proof.
  intros Hwf Hs. destruct Hs.
  - split; [done|by apply evolve_same].
  - split; [done|]. split; cbn.
    + intros k c0 Hk. exists c0. rewrite lookup_insert_ne by congruence. done.
    + intros k c' [[<- <-]|[? ?]]%lookup_insert_Some; [done|congruence].
  - split; [done|by eapply evolve_insert].
  - split; [done|by eapply evolve_insert].
  - split; [done|by apply evolve_same].
  - split; [done|by apply evolve_same].
  - destruct old; (split; [done|by eapply evolve_insert]).
  - destruct H0 as (Hi & ? & ? & ? & ? & _). split; [done|]. eapply evolve_insert; try done.
    cbn. by rewrite Hi.
Qed.

(** A change of messages advances one chat's counter at most. *)
Lemma insert_message_tables m s s' :
  insert_message m s = Ok s' →
  messages s !! Message.id m = None ∧ messages s' = <[Message.id m := message_row m]> (messages s)
  ∧ s' = s <| messages := messages s' |> <| attachments := attachments s' |>.
Proof.
  unfold insert_message. destruct (messages s !! _) eqn:Hm; [done|]. intros [= <-].
  split; [done|].
  assert (∀ l s0, let s1 := foldl (put_attachment (Message.id m)) s0 l in
    messages s1 = messages s0
    ∧ s1 = s0 <| messages := messages s1 |> <| attachments := attachments s1 |>) as Hf.
  { induction l as [|a l IH]; intros s0; simpl; [by destruct s0|].
    destruct (IH (put_attachment (Message.id m) s0 a)) as [E1 E2]. split; [by rewrite E1|].
    etrans; [exact E2|]. by destruct s0. }
  destruct (Hf (Message.attachments m) (s <| messages ::= <[Message.id m := message_row m]> |>))
    as [E1 E2]. split; [by rewrite E1|]. etrans; [exact E2|]. by destruct s.
Qed.

Lemma insert_messages_tables ms s s' :
  insert_messages ms s = Ok s' →
  s' = s <| messages := messages s' |> <| attachments := attachments s' |>.
Proof.
  revert s. induction ms as [|m ms IH]; intros s; simpl.
  - intros [= <-]. by destruct s.
  - intros (s1 & H1 & H2)%result_bind_Ok. apply insert_message_tables in H1 as (_ & _ & E).
    apply IH in H2. etrans; [exact H2|]. rewrite E. by destruct s.
Qed.

(** ** Settings *)
Definition chats_valid (s : store) : Prop :=
  ∀ k c, chats s !! k = Some c → Chat.valid c.

Lemma chats_valid_insert s s' k c :
  chats_valid s → chats s' = <[k := c]> (chats s) → Chat.valid c → chats_valid s'.
Proof.
  intros Hv E Hc k0 c0 Hk. rewrite E in Hk.
  apply lookup_insert_Some in Hk as [[_ <-]|[_ Hk]]; eauto.
Qed.

Lemma chats_valid_step priv s s' : chats_valid s → step priv s s' → chats_valid s'.
Proof.
  intros Hv Hs. destruct Hs; try done.
  - by eapply chats_valid_insert.
  - eapply chats_valid_insert; [done..|]. by apply Hv in H.
  - eapply chats_valid_insert; [done..|]. by apply Hv in H.
  - apply Hv in H. destruct old; by eapply chats_valid_insert.
  - destruct H0 as (Hi & _ & _ & _ & _ & _ & _ & Hk). eapply chats_valid_insert; [done..|].
    eapply Hk, Hv, H.
Qed.

(** ** Messages and sequence numbers *)
Record messages_ok (s : store) : Prop := {
  mo_row k m : messages s !! k = Some m →
    Message.id m = k ∧ Message.attachments m = [] ∧ Message.events m = []
    ∧ Message.validate_content m = Ok tt;
  mo_chat k m : messages s !! k = Some m →
    ∃ c, chats s !! Message.chat_id m = Some c ∧ 1 ≤ Message.seq m ≤ Chat.seq_counter c;
  mo_seq k1 k2 m1 m2 : messages s !! k1 = Some m1 → messages s !! k2 = Some m2 →
    Message.chat_id m1 = Message.chat_id m2 → Message.seq m1 = Message.seq m2 → k1 = k2;
  mo_counter k c : chats s !! k = Some c → 0 ≤ Chat.seq_counter c;
}.

Lemma messages_ok_empty : messages_ok empty_store.
Proof. by split; intros; simplify_map_eq/=. Qed.

Lemma messages_ok_frame s s' :
  messages s' = messages s → chats_evolve s s' → messages_ok s → messages_ok s'.
Proof.
  intros E [Hev Hnew] [Hr Hc Hq Hn]. split; rewrite ?E; try done.
  - intros k m (c & Hk & Hs)%Hc. destruct (Hev _ _ Hk) as (c' & ? & _ & Hsq).
    exists c'. by rewrite Hsq.
  - intros k c' Hk. destruct (chats s !! k) as [c|] eqn:Hck.
    + destruct (Hev _ _ Hck) as (c1 & Hc1 & _ & Hsq). simplify_map_eq. rewrite Hsq. eauto.
    + destruct (Hnew _ _ Hk Hck) as [-> _]. done.
Qed.

(** room for the next numbers of a chat *)
Definition free_from (s : store) (cid : UUID) (first : Z) : Prop :=
  ∀ k m, messages s !! k = Some m → Message.chat_id m = cid → Message.seq m < first.

Lemma messages_ok_insert s s' m c first :
  messages_ok s → insert_message m s = Ok s' →
  chats s !! Message.chat_id m = Some c → Message.validate_content m = Ok tt →
  Message.seq m = first → 1 ≤ first ≤ Chat.seq_counter c → free_from s (Message.chat_id m) first →
  messages_ok s' ∧ free_from s' (Message.chat_id m) (first + 1) ∧ chats s' = chats s.
Proof.
  intros [Hr Hc Hq Hn] Hi Hk Hv Hs Hle Hf.
  apply insert_message_tables in Hi as (Hfresh & Hms & E).
  assert (chats s' = chats s) as Hch by (by rewrite E).
  split; [|split; [|done]]. 1: split; rewrite ?Hch, ?Hms; try done.
  - intros k x [[<- <-]|[? Hx]]%lookup_insert_Some; [done|eauto].
  - intros k x [[<- <-]|[? Hx]]%lookup_insert_Some; [|eauto]. exists c. split; [done|]. cbn. lia.
  - intros k1 k2 m1 m2.
    intros [[<- <-]|[? H1]]%lookup_insert_Some [[<- <-]|[? H2]]%lookup_insert_Some; cbn; try done.
    + intros Ec Es. specialize (Hf _ _ H2). lia.
    + intros Ec Es. specialize (Hf _ _ H1 Ec). lia.
    + eauto.
  - intros k x. rewrite Hms. intros [[<- <-]|[? Hx]]%lookup_insert_Some; cbn; [lia|].
    intros Hcid. specialize (Hf _ _ Hx Hcid). lia.
Qed.

Lemma messages_ok_inserts ms s s' cid c first :
  messages_ok s → insert_messages ms s = Ok s' → chats s !! cid = Some c →
  Forall (λ m, Message.chat_id m = cid ∧ Message.validate_content m = Ok tt) ms →
  numbered first ms → 1 ≤ first → first + len ms - 1 ≤ Chat.seq_counter c →
  free_from s cid first → messages_ok s'.
Proof.
  revert s first. induction ms as [|m ms IH]; intros s first Hok; simpl.
  - by intros [= <-].
  - intros (s1 & H1 & H2)%result_bind_Ok Hk [[Hcid Hv] Hall]%Forall_cons_iff [Hs Hnum] Hle Hlen Hf.
    unfold len in *; simpl in *. subst cid.
    destruct (messages_ok_insert s s1 m c first) as (Hok1 & Hf1 & Hch); try done; [lia|].
    eapply (IH s1 (first + 1)); try done; [by rewrite Hch|lia..].
Qed.

Lemma messages_ok_step s s' : wf s → messages_ok s → message_step s s' → messages_ok s'.
Proof.
  intros Hwf Hok Hs. pose proof Hok as [Hr Hc Hq Hn]. destruct Hs.
  - set (s1 := put_chat (advance_seq c (len ms) date) s) in *.
    assert (chats s1 = <[Chat.id c := advance_seq c (len ms) date]> (chats s)) as E by done.
    assert (messages_ok s1) as Hok1.
    { split; rewrite ?E; try done.
      - intros k m Hk. destruct (Hc k m Hk) as (c' & Hc' & ?).
        destruct (decide (Chat.id c = Message.chat_id m)) as [Heq|].
        + rewrite <- Heq, lookup_insert_eq in *. eexists. split; [done|]. cbn.
          simplify_map_eq. unfold len. lia.
        + exists c'. by rewrite lookup_insert_ne.
      - intros k x [[<- <-]|[? Hx]]%lookup_insert_Some; [|eauto]. cbn. unfold len.
        specialize (Hn _ _ H). lia. }
    apply Hn in H as Hpos. eapply (messages_ok_inserts ms s1 s'); try done.
    + by rewrite E, lookup_insert_eq.
    + lia.
    + cbn. lia.
    + intros k m Hk Hcid. destruct (Hc k m Hk) as (c' & Hc' & ?). rewrite Hcid in Hc'.
      simplify_map_eq. lia.
  - destruct H1 as (E1 & E2 & E3 & _ & _ & E4 & E5).
    split; cbn; rewrite ?E1; try done.
    + intros k x [[<- <-]|[? Hx]]%lookup_insert_Some; [done|eauto].
    + intros k x [[<- <-]|[? Hx]]%lookup_insert_Some; [rewrite E2, E3|]; eauto.
    + intros k1 k2 m1 m2.
      intros [[<- <-]|[? H1']]%lookup_insert_Some [[<- <-]|[? H2']]%lookup_insert_Some;
        rewrite ?E2, ?E3; eauto.
Qed.

(** ** Pins *)
Definition pins_of (s : store) (chat_id : UUID) : Z :=
  count_where (λ kv, kv.1.1 = chat_id) (pins s).

(** Every pin is filed under its own key, for a live message of the chat that
    is not a notice. *)
Definition pin_ok (s : store) (k : UUID * UUID) (p : ChatPinnedMessage.t) : Prop :=
  k = (ChatPinnedMessage.chat_id p, ChatPinnedMessage.message_id p) ∧
  ∃ m, messages s !! ChatPinnedMessage.message_id p = Some m ∧ Message.is_deleted m = false
       ∧ Message.chat_id m = ChatPinnedMessage.chat_id p ∧ Message.type m ≠ SYSTEM
       ∧ Message.seq m = ChatPinnedMessage.message_seq p.

Definition pins_ok (s : store) : Prop :=
  (∀ k p, pins s !! k = Some p → pin_ok s k p)
  ∧ ∀ cid, pins_of s cid ≤ chat_config.MAX_PINNED_MESSAGES.

Lemma live_message_Some s k m :
  MessageRepository.live_message s k = Some m ↔ messages s !! k = Some m ∧ Message.is_deleted m = false.
Proof.
  unfold MessageRepository.live_message. destruct (messages s !! k) as [x|]; cbn; [|naive_solver].
  destruct (Message.is_deleted x) eqn:Hd; naive_solver congruence.
Qed.

(** the count the limit is checked against is the number of pins *)
Lemma live_pins_all s cid :
  pins_ok s → ChatPinnedMessageRepository.live_pins s cid = pins_of s cid.
Proof.
  intros [Hp _]. apply count_where_ext. intros [c i] p (Hk & m & Hm & Hd & _)%Hp. cbn in *.
  injection Hk as -> ->.
  rewrite (proj2 (live_message_Some _ _ _) (conj Hm Hd)). cbn. rewrite andb_true_r.
  apply Z.eqb_eq.
Qed.

Lemma pins_ok_empty : pins_ok empty_store.
Proof. split; [by intros ? ? ?|]. intros cid. unfold pins_of. cbn. by rewrite count_where_empty. Qed.

Lemma pins_ok_frame s s' :
  pins s' = pins s →
  (∀ k p m, pins s !! k = Some p → messages s !! ChatPinnedMessage.message_id p = Some m →
     Message.is_deleted m = false →
     ∃ m', messages s' !! ChatPinnedMessage.message_id p = Some m' ∧ Message.is_deleted m' = false
           ∧ Message.chat_id m' = Message.chat_id m ∧ Message.type m' = Message.type m
           ∧ Message.seq m' = Message.seq m) →
  pins_ok s → pins_ok s'.
Proof.
  intros E Hm [Hp Hn]. split; unfold pins_of; rewrite E; [|done].
  intros k p Hk. destruct (Hp k p Hk) as (-> & m & Hl & Hd & Hc & Ht & Hs).
  destruct (Hm _ _ _ Hk Hl Hd) as (m' & ? & ? & E1 & E2 & E3). split; [done|].
  exists m'. rewrite E1, E2, E3. done.
Qed.

Lemma insert_messages_old ms s s' k m :
  insert_messages ms s = Ok s' → messages s !! k = Some m → messages s' !! k = Some m.
Proof.
  revert s. induction ms as [|x ms IH]; intros s; simpl.
  - by intros [= <-].
  - intros (s1 & (Hf & E & _)%insert_message_tables & H2)%result_bind_Ok Hk.
    apply (IH s1); [done|]. rewrite E. rewrite lookup_insert_ne; [done|]. congruence.
Qed.

Lemma pins_ok_message s s' : messages_ok s → pins_ok s → message_step s s' → pins_ok s'.
Proof.
  intros Hok Hp Hs. destruct Hs.
  - apply insert_messages_tables in H3 as E. eapply (pins_ok_frame s); [exact (f_equal pins E)| |exact Hp].
    intros k p m _ Hm Hd. exists m. split; [|done].
    by eapply (insert_messages_old ms (put_chat (advance_seq c (len ms) date) s)).
  - destruct H1 as (E1 & E2 & E3 & _ & E4 & _). eapply (pins_ok_frame s); [done| |exact Hp].
    intros k p x Hk Hm Hd. cbn. rewrite E1.
    destruct (decide (Message.id m = ChatPinnedMessage.message_id p)) as [He|]; [|exists x; by rewrite lookup_insert_ne].
    exists m'. rewrite He, lookup_insert_eq. rewrite He in H. simplify_map_eq.
    split; [done|]. split; [|done]. destruct (Message.is_deleted m') eqn:Hd'; [|done].
    destruct Hp as [Hp _]. destruct (Hp _ _ Hk) as (-> & y & Hy & _ & Hc & _). simplify_map_eq.
    rewrite Hc, He in H3. by rewrite H3 in Hk.
Qed.

Lemma pins_ok_step s s' : pins_ok s → pin_step s s' → pins_ok s'.
Proof.
  intros Hp Hs. pose proof Hp as [Hrow Hcnt]. destruct Hs.
  - apply live_message_Some in H as [Hm Hd]. split; unfold pins_of; cbn.
    + intros k x [[<- <-]|[_ Hx]]%lookup_insert_Some; [|by apply Hrow].
      split; [done|]. exists m. done.
    + intros cid. destruct (decide (ChatPinnedMessage.chat_id p = cid)) as [<-|].
      * rewrite (count_where_insert_in (λ kv, kv.1.1 = ChatPinnedMessage.chat_id p)) by done.
        rewrite live_pins_all in H4 by done. unfold pins_of in H4. lia.
      * rewrite (count_where_insert_out (λ kv, kv.1.1 = cid)) by (cbn; congruence).
        apply Hcnt.
  - split; unfold pins_of; cbn.
    + intros k x [Hx _]%map_lookup_filter_Some. by apply Hrow.
    + intros cid. etrans; [apply count_where_filter|apply Hcnt].
Qed.

(** ** Invite links *)
Record invites_ok (s : store) : Prop := {
  io_row k i : invites s !! k = Some i → ChatInviteLink.id i = k ∧ ChatInviteLink.usage_ok i;
  io_chat k i : invites s !! k = Some i →
    ∃ c, chats s !! ChatInviteLink.chat_id i = Some c ∧ Chat.type c ≠ DIRECT;
  io_code k1 k2 i1 i2 : invites s !! k1 = Some i1 → invites s !! k2 = Some i2 →
    ChatInviteLink.code i1 = ChatInviteLink.code i2 → k1 = k2;
  io_count cid : links_of s cid ≤ chat_config.MAX_INVITE_LINKS_PER_CHAT;
}.

Lemma invites_ok_empty : invites_ok empty_store.
Proof. split; intros; simplify_map_eq/=. unfold links_of. cbn. by rewrite count_where_empty. Qed.

Lemma invites_ok_frame s s' :
  invites s' = invites s →
  (∀ k c, chats s !! k = Some c → ∃ c', chats s' !! k = Some c' ∧ Chat.type c' = Chat.type c) →
  invites_ok s → invites_ok s'.
Proof.
  intros E Hev [Hr Hc Hq Hn]. split; unfold links_of; rewrite ?E; try done.
  intros k i (c & Hk & Ht)%Hc. destruct (Hev _ _ Hk) as (c' & ? & E'). exists c'. by rewrite E'.
Qed.

(** a link rewritten in place, not coming back to life *)
Lemma invites_ok_put s i i' :
  invites_ok s → invites s !! ChatInviteLink.id i = Some i →
  ChatInviteLink.id i' = ChatInviteLink.id i → ChatInviteLink.chat_id i' = ChatInviteLink.chat_id i →
  ChatInviteLink.code i' = ChatInviteLink.code i → ChatInviteLink.usage_ok i' →
  (ChatInviteLink.is_revoked i = true → ChatInviteLink.is_revoked i' = true) →
  invites_ok (put_invite i' s).
Proof.
  intros [Hr Hc Hq Hn] Hk E1 E2 E3 Hu Hrev. unfold put_invite. rewrite E1. split; cbn.
  - intros k x [[<- <-]|[_ Hx]]%lookup_insert_Some; [done|by apply Hr].
  - intros k x [[<- <-]|[_ Hx]]%lookup_insert_Some; [rewrite E2|]; eauto.
  - intros k1 k2 x1 x2.
    intros [[<- <-]|[? H1]]%lookup_insert_Some [[<- <-]|[? H2]]%lookup_insert_Some;
      rewrite ?E3; eauto.
  - intros cid. etrans; [|apply (Hn cid)]. eapply count_where_update_le; [done|].
    cbn. unfold ChatInviteLinkRepository.not_revoked. rewrite E2.
    destruct (ChatInviteLink.is_revoked i); [|by rewrite andb_true_r; intros [? _]%andb_true_iff].
    by rewrite Hrev, andb_false_r.
Qed.

(** the occurrences credited to a link *)
Lemma count_occ_nonneg l x : 0 ≤ ChatInviteLinkRepository.count_occ l x.
Proof. unfold ChatInviteLinkRepository.count_occ, len. lia. Qed.

Lemma credit_columns links i :
  let i' := ChatInviteLinkRepository.credit links i in
  ChatInviteLink.id i' = ChatInviteLink.id i ∧ ChatInviteLink.chat_id i' = ChatInviteLink.chat_id i
  ∧ ChatInviteLink.code i' = ChatInviteLink.code i
  ∧ ChatInviteLink.creates_join_request i' = ChatInviteLink.creates_join_request i
  ∧ ChatInviteLink.revoked_at i' = ChatInviteLink.revoked_at i.
Proof. cbv zeta. unfold ChatInviteLinkRepository.credit. by case_bool_decide. Qed.

Lemma credit_usage_ok links i :
  ChatInviteLink.usage_ok i →
  (ChatInviteLink.id i ∈ links → ChatInviteLink.creates_join_request i = true) →
  ChatInviteLink.usage_ok (ChatInviteLinkRepository.credit links i).
Proof.
  intros [H0 Hl] Hc. unfold ChatInviteLinkRepository.credit. case_bool_decide as Hin; [|done].
  pose proof (count_occ_nonneg links (ChatInviteLink.id i)). split; cbn; [lia|].
  intros l [_ Hn]%Hl. rewrite Hc in Hn by done. done.
Qed.

Lemma invites_ok_step s s' : invites_ok s → invite_step s s' → invites_ok s'.
Proof.
  intros Hok Hs. pose proof Hok as [Hr Hc Hq Hn]. destruct Hs.
  - split; cbn.
    + intros k x [[<- <-]|[_ Hx]]%lookup_insert_Some; [done|by apply Hr].
    + intros k x [[<- <-]|[_ Hx]]%lookup_insert_Some; eauto.
    + intros k1 k2 x1 x2.
      intros [[<- <-]|[? H1']]%lookup_insert_Some [[<- <-]|[? H2']]%lookup_insert_Some; eauto.
      * intros E. by destruct (H4 _ _ H2').
      * intros E. by destruct (H4 _ _ H1').
    + intros cid. destruct (decide (ChatInviteLink.chat_id i = cid)) as [<-|Hne].
      * etrans; [apply count_where_insert_le|]. unfold links_of in H5. lia.
      * etrans; [apply count_where_insert_not|apply Hn]. cbn.
        unfold ChatInviteLinkRepository.not_revoked. by intros [?%Z.eqb_eq _]%andb_true_iff.
  - apply (invites_ok_put _ i); try done. by apply (Hr _ _ H).
  - apply (invites_ok_put _ i); try done. destruct (Hr _ _ H) as [_ [H2 Hl]].
    split; cbn; [lia|]. intros l El. destruct (Hl l El). split; [|done].
    unfold ChatInviteLink.is_active, ChatInviteLink.inactive_reason in H0.
    destruct (ChatInviteLink.is_revoked i), (ChatInviteLink.is_expired now i); try done.
    unfold ChatInviteLink.is_exhausted in H0. rewrite El in H0.
    destruct (l <=? ChatInviteLink.usage_count i) eqn:E; [done|]. bool_simpl. lia.
  - split; cbn.
    + intros k x. rewrite lookup_fmap, fmap_Some. intros (i & Hi & ->).
      destruct (credit_columns links i) as (-> & _). destruct (Hr _ _ Hi) as [Hid Hu].
      split; [done|]. apply credit_usage_ok; [done|]. rewrite Hid. eauto.
    + intros k x. rewrite lookup_fmap, fmap_Some. intros (i & Hi & ->).
      destruct (credit_columns links i) as (_ & -> & _). eauto.
    + intros k1 k2 x1 x2. rewrite !lookup_fmap, !fmap_Some. intros (i1 & H1 & ->) (i2 & H2 & ->).
      destruct (credit_columns links i1) as (_ & _ & -> & _).
      destruct (credit_columns links i2) as (_ & _ & -> & _). eauto.
    + intros cid. etrans; [|apply (Hn cid)]. apply count_where_fmap_le. intros k i _. cbn.
      unfold ChatInviteLinkRepository.not_revoked, ChatInviteLink.is_revoked.
      by destruct (credit_columns links i) as (_ & -> & _ & _ & ->).
Qed.

(** links stay, and keep what they are for *)
Lemma invite_step_links s s' l i :
  invites_ok s → invite_step s s' → invites s !! l = Some i →
  ∃ i', invites s' !! l = Some i'
        ∧ ChatInviteLink.creates_join_request i' = ChatInviteLink.creates_join_request i.
Proof.
  intros Hok Hs Hk. destruct Hs; cbn.
  - exists i. rewrite lookup_insert_ne by congruence. done.
  - destruct (decide (ChatInviteLink.id i0 = l)) as [<-|]; simplify_map_eq; eauto.
  - destruct (decide (ChatInviteLink.id i0 = l)) as [<-|]; simplify_map_eq; eauto.
  - rewrite lookup_fmap, Hk. cbn. eexists. split; [done|].
    by destruct (credit_columns links i) as (_ & _ & _ & -> & _).
Qed.

(** ** Join requests *)
Record requests_ok (s : store) : Prop := {
  ro_row k r : join_requests s !! k = Some r →
    request_key r = k ∧ ChatJoinRequest.coherent r ∧ ChatJoinRequest.events r = [];
  ro_link k r : join_requests s !! k = Some r → request_link s r;
  ro_chat c u r : join_requests s !! (c, u) = Some r → is_Some (chats s !! c);
  ro_count cid : ChatJoinRequestRepository.pending_count cid s
    ≤ chat_config.MAX_PENDING_JOIN_REQUESTS;
}.

Lemma requests_ok_empty : requests_ok empty_store.
Proof.
  split; intros; simplify_map_eq/=. unfold ChatJoinRequestRepository.pending_count. cbn.
  by rewrite count_where_empty.
Qed.

Lemma requests_ok_frame s s' :
  join_requests s' = join_requests s →
  (∀ l i, invites s !! l = Some i → ∃ i', invites s' !! l = Some i'
     ∧ ChatInviteLink.creates_join_request i' = ChatInviteLink.creates_join_request i) →
  (∀ k, is_Some (chats s !! k) → is_Some (chats s' !! k)) →
  requests_ok s → requests_ok s'.
Proof.
  intros E Hi Hch [Hr Hl Hc Hn].
  split; unfold ChatJoinRequestRepository.pending_count; rewrite ?E; try done.
  - intros k r Hk l El. destruct (Hl k r Hk l El) as (i & Hii & Hcr).
    destruct (Hi _ _ Hii) as (i' & ? & E'). exists i'. by rewrite E'.
  - eauto.
Qed.

(** a request resolved in place *)
Lemma pending_in_chat cid r :
  ChatJoinRequestRepository.pending_in cid r = true ↔
  ChatJoinRequest.chat_id r = cid ∧ ChatJoinRequest.is_pending r = true.
Proof. unfold ChatJoinRequestRepository.pending_in. by rewrite andb_true_iff, Z.eqb_eq. Qed.

Lemma resolve_columns now r st by_ :
  let r' := ChatJoinRequest._resolve now r st by_ in
  request_key r' = request_key r ∧ ChatJoinRequest.is_pending r' = false
  ∧ ChatJoinRequest.events r' = ChatJoinRequest.events r
  ∧ ChatJoinRequest.invite_link_id r' = ChatJoinRequest.invite_link_id r.
Proof. done. Qed.

Lemma requests_ok_step s s' : requests_ok s → request_step s s' → requests_ok s'.
Proof.
  intros [Hr Hl Hc Hn] Hs. destruct Hs.
  - split; unfold put_join_request; cbn.
    + intros k x [[<- <-]|[_ Hx]]%lookup_insert_Some; [done|by apply Hr].
    + intros k x [[<- <-]|[_ Hx]]%lookup_insert_Some; [done|by apply (Hl k)].
    + intros c0 u x [[[= <- <-] <-]|[_ Hx]]%lookup_insert_Some; eauto.
    + intros cid. destruct (decide (ChatJoinRequest.chat_id r = cid)) as [<-|Hne].
      * etrans; [apply count_where_insert_le|].
        unfold ChatJoinRequestRepository.pending_count in H2. lia.
      * etrans; [apply count_where_insert_not|apply Hn]. cbn.
        by intros [? _]%pending_in_chat.
  - destruct (Hr _ _ H) as (_ & _ & Hev).
    split; unfold put_join_request; cbn.
    + intros k x [[<- <-]|[_ Hx]]%lookup_insert_Some; [|by apply Hr].
      split; [done|]. split; [by apply ChatJoinRequest.coherent_resolve|done].
    + intros k x [[<- <-]|[_ Hx]]%lookup_insert_Some; [by apply (Hl _ _ H)|by apply (Hl k)].
    + intros c0 u x [[[= <- <-] <-]|[_ Hx]]%lookup_insert_Some; eauto.
    + intros cid. etrans; [apply count_where_insert_not|apply Hn]. cbn.
      by intros [_ ?]%pending_in_chat.
  - split; cbn.
    + intros k x. rewrite lookup_fmap, fmap_Some. intros (r & Hk & ->).
      destruct (Hr _ _ Hk) as (Hid & Hco & Hev).
      unfold ChatJoinRequestRepository.declined_in. case_match; [|done].
      split; [done|]. split; [by apply ChatJoinRequest.coherent_resolve|done].
    + intros k x. rewrite lookup_fmap, fmap_Some. intros (r & Hk & ->).
      unfold ChatJoinRequestRepository.declined_in. case_match; exact (Hl k r Hk).
    + intros c u x. rewrite lookup_fmap, fmap_Some. intros (r & Hk & _). eauto.
    + intros cid. etrans; [|apply (Hn cid)]. apply count_where_fmap_le. intros k r _. cbn.
      unfold ChatJoinRequestRepository.declined_in. case_match; [|done].
      by intros [_ ?]%pending_in_chat.
  - split; cbn.
    + intros k x [_ Hx]%lookup_delete_Some. by apply Hr.
    + intros k x [_ Hx]%lookup_delete_Some. by apply (Hl k).
    + intros c u x [_ Hx]%lookup_delete_Some. eauto.
    + intros cid. etrans; [|apply (Hn cid)]. unfold ChatJoinRequestRepository.pending_count; cbn.
      unfold count_where. apply Nat2Z.inj_le, map_subseteq_size, map_filter_subseteq_mono,
        delete_subseteq.
Qed.
