(* ===== verification/ReactionInv.v ===== *)
(** The invariant of reactions: the counters the SQL statements maintain are
    the numbers of rows, and the limits per user and per message hold. *)
From S2P Require Import Prelude Config Events MessageModel ChatModel Store Wp ChatRepo MessageRepo Reactions Spec TableInv.

Import MessageReactionRepository.

(** ** What the statements change *)
Lemma added_Some c m u e now s n s' :
  added c m u e now s = (Some n, s') →
  reactions s !! (m, u, e) = None ∧
  ∃ row, s' = s <| reactions := <[(m, u, e) := MessageReaction.Mk c now]> (reactions s) |>
                <| reaction_counters := <[(m, e) := row]> (reaction_counters s) |>
         ∧ MessageReactionCounter.count row
           = default 0 (MessageReactionCounter.count <$> reaction_counters s !! (m, e)) + 1
         ∧ n = MessageReactionCounter.count row.
Proof.
  unfold added, bump_up. destruct (reactions s !! _) eqn:Hr; [done|]. cbn.
  destruct (reaction_counters s !! _) as [row|] eqn:Hc; cbn; intros [= <- <-];
    (split; [done|]); eexists; split_and!; done.
Qed.

Lemma removed_Some m u e now s n s' :
  removed m u e now s = (Some n, s') →
  is_Some (reactions s !! (m, u, e)) ∧
  ∃ counters, s' = s <| reactions := delete (m, u, e) (reactions s) |>
                     <| reaction_counters := counters |>
    ∧ match reaction_counters s !! (m, e) with
      | None => counters = reaction_counters s
      | Some row =>
        if MessageReactionCounter.count row - 1 <=? 0
        then counters = delete (m, e) (reaction_counters s)
        else ∃ row', MessageReactionCounter.count row' = MessageReactionCounter.count row - 1
                     ∧ counters = <[(m, e) := row']> (reaction_counters s)
      end.
Proof.
  unfold removed, bump_down. destruct (reactions s !! _) eqn:Hr; [|done]. cbn.
  destruct (reaction_counters s !! _) as [row|] eqn:Hc; cbn.
  - destruct (_ <=? 0) eqn:Hz; intros [= <- <-]; (split; [eauto|]); eexists; (split; [done|]);
      first [done|refine (ex_intro _ _ (conj _ eq_refl)); done].
  - intros [= <- <-]. split; [eauto|]. exists (reaction_counters s). split; [by destruct s|done].
Qed.

(** ** Counting rows *)
Definition user_rows (s : store) (m : UUID) (u : Z) : Z :=
  count_where (λ '((m', u', _), _), m' = m ∧ u' = u) (reactions s).

Lemma user_emojis_rows s m u : len (user_emojis s m u) = user_rows s m u.
Proof. unfold user_emojis, user_rows. rewrite count_where_list. unfold len. by rewrite length_fmap. Qed.

Lemma elem_of_user_emojis s m u e : e ∈ user_emojis s m u ↔ is_Some (reactions s !! (m, u, e)).
Proof.
  unfold user_emojis. rewrite list_elem_of_fmap. split.
  - intros ([[[m' u'] e'] r] & -> & [[-> ->] Hk%elem_of_map_to_list]%list_elem_of_filter). eauto.
  - intros [r Hr]. exists ((m, u, e), r). split; [done|].
    apply list_elem_of_filter. split; [done|]. by apply elem_of_map_to_list.
Qed.

Record reactions_ok (s : store) : Prop := {
  rc_count m e :
    match reaction_counters s !! (m, e) with
    | Some row => MessageReactionCounter.count row = reaction_rows s m e
                  ∧ 0 < MessageReactionCounter.count row
    | None => reaction_rows s m e = 0
    end;
  rc_user m u : len (user_emojis s m u) ≤ chat_config.MAX_REACTIONS_PER_USER_PER_MESSAGE;
  rc_distinct m : distinct_emojis s m ≤ chat_config.MAX_DISTINCT_REACTIONS_PER_MESSAGE;
  rc_row m u e r : reactions s !! (m, u, e) = Some r → e ∈ chat_config.DEFAULT_REACTIONS;
  rc_message m u e r : reactions s !! (m, u, e) = Some r →
    ∃ x, messages s !! m = Some x ∧ Message.chat_id x = MessageReaction.chat_id r;
}.

Lemma reactions_ok_empty : reactions_ok empty_store.
Proof.
  split; intros; simplify_map_eq/=; rewrite ?user_emojis_rows; unfold user_rows, reaction_rows,
    distinct_emojis; cbn; by rewrite count_where_empty.
Qed.

Lemma reactions_ok_frame s s' :
  reactions s' = reactions s → reaction_counters s' = reaction_counters s →
  (∀ k x, messages s !! k = Some x → ∃ x', messages s' !! k = Some x' ∧ Message.chat_id x' = Message.chat_id x) →
  reactions_ok s → reactions_ok s'.
Proof.
  intros E1 E2 Hm [Hc Hu Hd Hr Hx].
  split; unfold user_emojis, distinct_emojis, reaction_rows; rewrite ?E1, ?E2; try done.
  intros m u e r (x & Hk & Hcid)%Hx. destruct (Hm _ _ Hk) as (x' & ? & E). exists x'. by rewrite E.
Qed.

Lemma reaction_rows_added s m u e row m' e' :
  reactions s !! (m, u, e) = None →
  count_where (λ kv, kv.1.1.1 = m' ∧ kv.1.2 = e') (<[(m, u, e) := row]> (reactions s))
  = reaction_rows s m' e' + (if decide (m = m' ∧ e = e') then 1 else 0).
Proof.
  intros Hn. unfold reaction_rows. case_decide.
  - by apply (count_where_insert_in (λ kv, kv.1.1.1 = m' ∧ kv.1.2 = e')).
  - rewrite (count_where_insert_out (λ kv, kv.1.1.1 = m' ∧ kv.1.2 = e')); [lia|congruence|done].
Qed.

Lemma reaction_rows_removed s m u e m' e' :
  is_Some (reactions s !! (m, u, e)) →
  count_where (λ kv, kv.1.1.1 = m' ∧ kv.1.2 = e') (delete (m, u, e) (reactions s))
  = reaction_rows s m' e' - (if decide (m = m' ∧ e = e') then 1 else 0).
Proof.
  intros [r Hr]. unfold reaction_rows. case_decide.
  - by eapply (count_where_delete_in (λ kv, kv.1.1.1 = m' ∧ kv.1.2 = e')).
  - rewrite (count_where_delete_out (λ kv, kv.1.1.1 = m' ∧ kv.1.2 = e')); [lia|naive_solver].
Qed.

(** a table of counters that follows the rows through one change *)
Definition counted (rows : UUID → text → Z) (counters : gmap (UUID * text) MessageReactionCounter.t)
  : Prop :=
  ∀ m e, match counters !! (m, e) with
         | Some row => MessageReactionCounter.count row = rows m e
                       ∧ 0 < MessageReactionCounter.count row
         | None => rows m e = 0
         end.

Lemma counted_put rows counters m e row (rows' : UUID → text → Z) :
  counted rows counters →
  (∀ m' e', rows' m' e' = if decide (m = m' ∧ e = e') then MessageReactionCounter.count row
                          else rows m' e') →
  0 < MessageReactionCounter.count row → counted rows' (<[(m, e) := row]> counters).
Proof.
  intros Hc Hr Hpos m' e'. rewrite Hr. case_decide as Hd.
  - destruct Hd as [<- <-]. by rewrite lookup_insert_eq.
  - rewrite lookup_insert_ne by naive_solver. apply Hc.
Qed.

Lemma counted_drop rows counters m e (rows' : UUID → text → Z) :
  counted rows counters →
  (∀ m' e', rows' m' e' = if decide (m = m' ∧ e = e') then 0 else rows m' e') →
  counted rows' (delete (m, e) counters).
Proof.
  intros Hc Hr m' e'. rewrite Hr. case_decide as Hd.
  - destruct Hd as [<- <-]. by rewrite lookup_delete_eq.
  - rewrite lookup_delete_ne by naive_solver. apply Hc.
Qed.

Lemma distinct_put s m e row m' :
  count_where (λ kv, kv.1.1 = m') (<[(m, e) := row]> (reaction_counters s))
  ≤ distinct_emojis s m' + (if decide (m = m' ∧ reaction_counters s !! (m, e) = None) then 1 else 0).
Proof.
  unfold distinct_emojis. case_decide as Hd; [apply count_where_insert_le|].
  destruct (reaction_counters s !! (m, e)) as [row0|] eqn:Hk.
  - etrans; [by eapply count_where_update_le|]. lia.
  - etrans; [apply count_where_insert_not; cbn; naive_solver|]. lia.
Qed.

Lemma distinct_drop s m e m' :
  count_where (λ kv, kv.1.1 = m') (delete (m, e) (reaction_counters s)) ≤ distinct_emojis s m'.
Proof.
  unfold distinct_emojis, count_where. apply Nat2Z.inj_le, map_subseteq_size,
    map_filter_subseteq_mono, delete_subseteq.
Qed.

Lemma user_rows_added s m u e row m' u' :
  count_where (λ '((m0, u0, _), _), m0 = m' ∧ u0 = u') (<[(m, u, e) := row]> (reactions s))
  ≤ user_rows s m' u' + (if decide (m = m' ∧ u = u') then 1 else 0).
Proof.
  unfold user_rows. case_decide as Hd; [apply count_where_insert_le|].
  etrans; [apply count_where_insert_not; naive_solver|]. lia.
Qed.

Lemma user_rows_removed s m u e m' u' :
  count_where (λ '((m0, u0, _), _), m0 = m' ∧ u0 = u') (delete (m, u, e) (reactions s))
  ≤ user_rows s m' u'.
Proof.
  unfold user_rows, count_where. apply Nat2Z.inj_le, map_subseteq_size,
    map_filter_subseteq_mono, delete_subseteq.
Qed.

Lemma reactions_ok_step s s' : reactions_ok s → reaction_step s s' → reactions_ok s'.
Proof.
  intros [Hc Hu Hd Hr Hx] Hs. destruct Hs as [c m u e now n s' x Hm Hcid He Hlen Hdis Ha|m u e now n s' Ha].
  - apply added_Some in Ha as (Hn & row & -> & Hcnt & _).
    assert (MessageReactionCounter.count row = reaction_rows s m e + 1) as Hrow.
    { rewrite Hcnt. specialize (Hc m e). destruct (reaction_counters s !! _); cbn; lia. }
    split; cbn.
    + refine (counted_put (reaction_rows s) _ _ _ row _ Hc _ _).
      * intros m' e'. unfold reaction_rows at 1. cbn. rewrite reaction_rows_added by done.
        case_decide as E; [destruct E as [<- <-]|]; lia.
      * pose proof (count_where_nonneg (λ kv, kv.1.1.1 = m ∧ kv.1.2 = e) (reactions s)).
        unfold reaction_rows in Hrow. lia.
    + intros m' u'. rewrite user_emojis_rows. unfold user_rows; cbn.
      etrans; [apply user_rows_added|]. specialize (Hu m' u'). rewrite user_emojis_rows in Hu, Hlen.
      case_decide as E; [destruct E as [<- <-]|]; lia.
    + intros m'. unfold distinct_emojis; cbn. etrans; [apply distinct_put|].
      specialize (Hd m'). case_decide as E; [destruct E as [<- E]|lia].
      destruct Hdis as [[? ?]|]; [congruence|lia].
    + intros m' u' e' r [[[= <- <- <-] _]|[_ Hk]]%lookup_insert_Some; eauto.
    + intros m' u' e' r [[[= <- <- <-] <-]|[_ Hk]]%lookup_insert_Some; [|eauto].
      exists x. split; [|done]. unfold MessageRepository.live_message in Hm.
      destruct (messages s !! m) as [y|]; cbn in Hm; [|done]. by destruct (Message.is_deleted y).
  - apply removed_Some in Ha as (Hn & counters & -> & Hcnt).
    assert (∀ m' e', count_where (λ kv, kv.1.1.1 = m' ∧ kv.1.2 = e') (delete (m, u, e) (reactions s))
      = if decide (m = m' ∧ e = e') then reaction_rows s m e - 1 else reaction_rows s m' e') as Hrows.
    { intros m' e'. rewrite reaction_rows_removed by done.
      case_decide as E; [destruct E as [<- <-]|]; lia. }
    assert (0 < reaction_rows s m e) as Hpos.
    { destruct Hn as [r Hk]. by eapply (count_where_pos (λ kv, kv.1.1.1 = m ∧ kv.1.2 = e)). }
    pose proof (Hc m e) as Hce. destruct (reaction_counters s !! (m, e)) as [row|] eqn:Hk; [|lia].
    split; cbn.
    + destruct (_ <=? 0) eqn:Hz; bool_simpl.
      * subst counters. apply (counted_drop (reaction_rows s)); [exact Hc|].
        intros m' e'. unfold reaction_rows at 1. cbn. rewrite Hrows. case_decide; lia.
      * destruct Hcnt as (row' & Hrow' & ->). refine (counted_put (reaction_rows s) _ _ _ row' _ Hc _ _); [|lia].
        intros m' e'. unfold reaction_rows at 1. cbn. rewrite Hrows. case_decide; lia.
    + intros m' u'. rewrite user_emojis_rows. unfold user_rows; cbn.
      etrans; [apply user_rows_removed|]. rewrite <- user_emojis_rows. apply Hu.
    + intros m'. unfold distinct_emojis; cbn. specialize (Hd m'). destruct (_ <=? 0).
      * subst. etrans; [apply distinct_drop|done].
      * destruct Hcnt as (row' & _ & ->). etrans; [apply distinct_put|].
        rewrite decide_False by (rewrite Hk; naive_solver). lia.
    + intros m' u' e' r [_ Hk']%lookup_delete_Some. eauto.
    + intros m' u' e' r [_ Hk']%lookup_delete_Some. eauto.
Qed.
