(* ===== verification/SystemInv.v ===== *)
(** The invariant of the whole store, kept by every change of the system, and the ownership invariant kept by the changes of ordinary users; what it means for a handler to refine the system's steps, and the phrases of the handlers whose effect is a sequence of them. *)
From S2P Require Import Prelude Config Events MemberModel InviteModel MessageModel ChatModel PrivacyModel Store Wp Rbac Access ChatRepo ChatWp InviteRepo MessageRepo Reactions ReadReceipts Spec MembershipInv MembershipSpec TableInv ReactionInv.

Record sound (s : store) : Prop := {
  sound_wf : wf s;
  sound_count : count_ok s;
  sound_valid : chats_valid s;
  sound_messages : messages_ok s;
  sound_pins : pins_ok s;
  sound_invites : invites_ok s;
  sound_requests : requests_ok s;
  sound_reactions : reactions_ok s;
}.
#[export] Hint Resolve sound_wf sound_count sound_valid sound_messages sound_pins sound_invites
  sound_requests sound_reactions : msgr.

Lemma sound_empty : sound empty_store.
Proof.
  split; [apply wf_empty|done|done|apply messages_ok_empty|apply pins_ok_empty|apply invites_ok_empty
         |apply requests_ok_empty|apply reactions_ok_empty].
Qed.

(** ** The membership tables under the other changes *)
Definition same_membership (s s' : store) : Prop :=
  chats s' = chats s ∧ members s' = members s ∧ next_member_id s' = next_member_id s.

Lemma same_membership_inv s s' :
  same_membership s s' →
  (wf s → wf s') ∧ (count_ok s → count_ok s') ∧ (creator_ok s → creator_ok s')
  ∧ (chats_valid s → chats_valid s').
Proof.
  intros (E1 & E2 & E3). split_and!.
  - intros []. by split; rewrite ?E1, ?E2, ?E3.
  - unfold count_ok, member_rows. by rewrite E1, E2.
  - unfold creator_ok. by rewrite E1, E2.
  - unfold chats_valid. by rewrite E1.
Qed.

Lemma membership_inv_advance s c n date :
  chats s !! Chat.id c = Some c → wf s → let s' := put_chat (advance_seq c n date) s in
  wf s' ∧ (count_ok s → count_ok s') ∧ (creator_ok s → creator_ok s')
  ∧ (chats_valid s → chats_valid s').
Proof.
  intros Hk Hwf s'. destruct (wf_chat _ Hwf _ _ Hk) as (_ & Hm & He). split_and!.
  - by apply wf_put_chat.
  - intros Hc. by apply (count_ok_put_chat _ c).
  - intros Hc. by apply (creator_ok_put_chat _ c).
  - intros Hv. eapply chats_valid_insert; [done..|]. by apply Hv in Hk.
Qed.

Lemma other_step_membership s s' :
  pin_step s s' ∨ invite_step s s' ∨ request_step s s' ∨ reaction_step s s' ∨ receipt_step s s' →
  same_membership s s'.
Proof.
  intros [H|[H|[H|[H|H]]]]; destruct H; try done.
  - apply added_Some in H4 as (_ & row & -> & _). done.
  - apply removed_Some in H as (_ & cs & -> & _). done.
  - unfold ReadReceiptRepository.upsert. by repeat case_match.
  - destruct mark as [[[c u] n] t]. cbn. by case_match.
Qed.

Lemma message_step_membership s s' :
  wf s → message_step s s' →
  wf s' ∧ (count_ok s → count_ok s') ∧ (creator_ok s → creator_ok s') ∧ (chats_valid s → chats_valid s').
Proof.
  intros Hwf Hs. destruct Hs.
  - destruct (membership_inv_advance s c (len ms) date H Hwf) as (? & ? & ? & ?).
    apply insert_messages_tables in H3.
    destruct (same_membership_inv (put_chat (advance_seq c (len ms) date) s) s')
      as (? & ? & ? & ?); [by rewrite H3|].
    split_and!; auto.
  - destruct (same_membership_inv s (put_message m' s)) as (? & ? & ? & ?); [done|]. auto.
Qed.

(** ** What the message changes leave alone *)
Lemma message_step_frame s s' :
  message_step s s' →
  pins s' = pins s ∧ invites s' = invites s ∧ join_requests s' = join_requests s
  ∧ reactions s' = reactions s ∧ reaction_counters s' = reaction_counters s
  ∧ read_receipts s' = read_receipts s
  ∧ (∀ k c, chats s !! k = Some c → ∃ c', chats s' !! k = Some c' ∧ Chat.type c' = Chat.type c
       ∧ Chat.seq_counter c ≤ Chat.seq_counter c').
Proof.
  intros Hs. destruct Hs.
  - apply insert_messages_tables in H3. rewrite H3. split_and!; try done. cbn.
    intros k x Hk. destruct (decide (Chat.id c = k)) as [<-|]; simplify_map_eq; [|by eauto with lia].
    eexists. split; [done|]. cbn. unfold len. split; [done|lia].
  - split_and!; eauto with lia.
Qed.

Lemma message_step_rows s s' :
  message_step s s' → ∀ k x, messages s !! k = Some x →
  ∃ x', messages s' !! k = Some x' ∧ Message.chat_id x' = Message.chat_id x.
Proof.
  intros Hs k x Hk. destruct Hs.
  - exists x. split; [|done]. by eapply (insert_messages_old ms (put_chat (advance_seq c (len ms) date) s)).
  - destruct H1 as (E1 & E2 & _). cbn. rewrite E1.
    destruct (decide (Message.id m = k)) as [<-|]; simplify_map_eq; eauto.
Qed.

(** ** Every change keeps the store sound *)
Lemma sound_membership priv s s' : sound s → step priv s s' → sound s'.
Proof.
  intros [Hw Hc Hv Hm Hp Hi Hq Hr] Hs.
  destruct (step_frame _ _ _ Hw Hs) as [(E1 & E2 & E3 & E4 & E5 & E6 & _) Hev].
  split.
  - by eapply wf_step.
  - by eapply count_ok_step.
  - by eapply chats_valid_step.
  - by apply (messages_ok_frame s).
  - eapply (pins_ok_frame s); eauto. rewrite E1. eauto 10.
  - eapply (invites_ok_frame s); eauto. intros k c (c' & ? & ? & _)%Hev. eauto.
  - eapply (requests_ok_frame s); eauto; rewrite ?E3; eauto. intros k [c (c' & ? & _)%Hev]. eauto.
  - eapply (reactions_ok_frame s); eauto. rewrite E1. eauto.
Qed.

Lemma sound_message s s' : sound s → message_step s s' → sound s'.
Proof.
  intros [Hw Hc Hv Hm Hp Hi Hq Hr] Hs.
  destruct (message_step_membership _ _ Hw Hs) as (? & ? & _ & ?).
  destruct (message_step_frame _ _ Hs) as (E1 & E2 & E3 & E4 & E5 & _ & Hch).
  split; auto.
  - by apply (messages_ok_step s).
  - by apply (pins_ok_message s).
  - eapply (invites_ok_frame s); eauto. intros k c (c' & ? & ? & _)%Hch. eauto.
  - eapply (requests_ok_frame s); eauto; rewrite ?E2; eauto. intros k [c (c' & ? & _)%Hch]. eauto.
  - eapply (reactions_ok_frame s); eauto. by apply message_step_rows.
Qed.

(** the tables a change of another table leaves alone *)
Lemma sound_other s s' :
  sound s → same_membership s s' → messages s' = messages s →
  (pins s' = pins s ∨ pins_ok s') → (invites s' = invites s ∨ invites_ok s') →
  (∀ l i, invites s !! l = Some i → ∃ i', invites s' !! l = Some i'
     ∧ ChatInviteLink.creates_join_request i' = ChatInviteLink.creates_join_request i) →
  (join_requests s' = join_requests s ∨ requests_ok s') →
  (reactions s' = reactions s ∧ reaction_counters s' = reaction_counters s ∨ reactions_ok s') →
  sound s'.
Proof.
  intros [Hw Hc Hv Hm Hp Hi Hq Hr] Hsm Em HP HI HL HQ HR.
  destruct (same_membership_inv _ _ Hsm) as (? & ? & _ & ?). destruct Hsm as (E1 & E2 & E3).
  split; auto.
  - eapply messages_ok_frame; [done|by apply evolve_same|done].
  - destruct HP; [|done]. eapply (pins_ok_frame s); eauto. rewrite Em. eauto 10.
  - destruct HI; [|done]. eapply (invites_ok_frame s); eauto. rewrite E1. eauto.
  - destruct HQ; [|done]. eapply (requests_ok_frame s); eauto. by rewrite E1.
  - destruct HR as [[? ?]|]; [|done]. eapply (reactions_ok_frame s); eauto. rewrite Em. eauto.
Qed.

Lemma sound_step priv s s' : sound s → sys_step priv s s' → sound s'.
Proof.
  intros Hs [H|H|H|H|H|H|H].
  - by eapply sound_membership.
  - by eapply sound_message.
  - assert (pins_ok s') by (eapply pins_ok_step; eauto with msgr).
    apply (sound_other s); eauto using other_step_membership; destruct H; eauto.
  - assert (invites_ok s') by (eapply invites_ok_step; eauto with msgr).
    apply (sound_other s); eauto using other_step_membership, invite_step_links with msgr; destruct H; eauto.
  - assert (requests_ok s') by (eapply requests_ok_step; eauto with msgr).
    apply (sound_other s); eauto 6 using other_step_membership; destruct H; eauto.
  - assert (reactions_ok s') by (eapply reactions_ok_step; eauto with msgr).
    assert (messages s' = messages s ∧ pins s' = pins s ∧ invites s' = invites s
            ∧ join_requests s' = join_requests s) as (? & ? & E & ?).
    { destruct H as [? ? ? ? ? ? ? ? ? ? ? ? ? Ha|? ? ? ? ? ? Ha];
        [apply added_Some in Ha as (_ & row & -> & _)|apply removed_Some in Ha as (_ & cs & -> & _)];
        done. }
    apply (sound_other s); eauto 7 using other_step_membership. rewrite E. eauto.
  - assert (s' = s <| read_receipts := read_receipts s' |> <| read_marks := read_marks s' |>) as ->.
    { destruct H.
      - unfold ReadReceiptRepository.upsert. repeat case_match; by destruct s.
      - destruct mark as [[[c u] n] t]. cbn. case_match; by destruct s. }
    apply (sound_other s); eauto. done.
Qed.

Lemma sound_steps priv s s' : sound s → sys_steps priv s s' → sound s'.
Proof. intros Hs. apply sys_preserved; eauto using sound_step. Qed.

(** ** Ownership *)
Lemma creator_ok_sys s s' : wf s → creator_ok s → sys_step false s s' → creator_ok s'.
Proof.
  intros Hw Hc [H|H|H|H|H|H|H].
  - by eapply creator_ok_step.
  - by apply (message_step_membership _ _ Hw H).
  - apply (same_membership_inv s); [|done]. apply other_step_membership. auto.
  - apply (same_membership_inv s); [|done]. apply other_step_membership. auto.
  - apply (same_membership_inv s); [|done]. apply other_step_membership. auto.
  - apply (same_membership_inv s); [|done]. apply other_step_membership. auto.
  - apply (same_membership_inv s); [|done]. apply other_step_membership. auto 10.
Qed.

Lemma owned_steps s s' :
  sound s → creator_ok s → sys_steps false s s' → sound s' ∧ creator_ok s'.
Proof.
  intros Hs Hc. apply (sys_preserved false (λ s, sound s ∧ creator_ok s)); [|done].
  intros s1 s2 [? ?] ?. split; [by eapply sound_step|]. eapply creator_ok_sys; eauto with msgr.
Qed.

(** What a handler commits is reached by guarded changes; when it raises, it
    has committed nothing. *)
Definition sys_refines {A} (priv : bool) (m : M A) (w : world) : Prop :=
  transaction m w (λ _ w', sys_steps priv (w_database w) (w_database w')).

(** a request starts in a session over a sound committed store *)
Definition opened (w : world) : Prop := sound (w_session w) ∧ w_session w = w_database w.

Lemma opened_ready w : opened w → ready w.
Proof. intros [[] ?]. by split. Qed.

Lemma refines_sys {A} priv (m : M A) w : refines priv m w → sys_refines priv m w.
Proof.
  unfold refines, sys_refines, transaction. intros H. eapply wp_mono; [exact H|].
  intros [a|e] w'; [apply steps_sys|done].
Qed.

Lemma opened_chat w k c :
  opened w → live_row w k c →
  Chat.id c = k ∧ Chat.members c = [] ∧ Chat.events c = [] ∧
  chats (w_database w) !! k = Some c ∧ Chat.is_deleted c = false ∧ Chat.valid c.
Proof.
  intros Ho Hl. destruct (ready_row w k c (opened_ready _ Ho) Hl) as (? & ? & ? & ? & ?).
  destruct Ho as [Hs Heq]. split_and!; try done. rewrite Heq in Hs. by eapply sound_valid.
Qed.

(** ** Several newcomers at once *)
Lemma with_count_same c : c <| Chat.member_count := Chat.member_count c + 0 |> = c.
Proof. destruct c. unfold modify_field; simpl. by rewrite Z.add_0_r. Qed.

Lemma put_chat_same c s : chats s !! Chat.id c = Some c → put_chat c s = s.
Proof. intros Hk. destruct s. unfold put_chat, modify_field; simpl in *. by rewrite insert_id. Qed.

Lemma put_chat_twice c c' s : Chat.id c' = Chat.id c → put_chat c' (put_chat c s) = put_chat c' s.
Proof.
  intros E. destruct s. unfold put_chat, modify_field; simpl. by rewrite E, insert_insert_eq.
Qed.

Lemma enroll_rows priv role ids : ∀ c s s',
  chats s !! Chat.id c = Some c → Chat.is_deleted c = false →
  (priv = true ∨ plain_role (Chat.type c) role) →
  Chat.member_count c + len ids ≤ Chat.member_limit (Chat.type c) →
  insert_members ((λ u, ChatMember.create (Chat.id c) u role) <$> ids)
    (put_chat (c <| Chat.member_count := Chat.member_count c + len ids |>) s) = Ok s' →
  steps priv s s'.
Proof.
  induction ids as [|u ids IH]; intros c s s' Hk Hd Hp Hlim; csimpl.
  - intros [= <-]. rewrite with_count_same, put_chat_same by done. apply rtc_refl.
  - intros (s1 & H1 & H2)%result_bind_Ok.
    assert (members s !! (Chat.id c, u) = None) as Hn.
    { unfold insert_member in H1. cbn in H1. by destruct (members s !! _). }
    rewrite insert_member_free in H1 by done. injection H1 as <-.
    assert (len (u :: ids) = len ids + 1) as Hl by (unfold len; simpl; lia).
    rewrite Hl in Hlim. assert (0 ≤ len ids) by (unfold len; lia). eapply rtc_l.
    { apply (step_enroll priv s c u role); try done. lia. }
    eapply (IH (c <| Chat.member_count := Chat.member_count c + 1 |>)); try done.
    + cbn. by rewrite lookup_insert_eq.
    + cbn. lia.
    + rewrite <- H2. f_equal. rewrite Hl. destruct s; unfold put_chat, enroll, modify_field; simpl.
      rewrite insert_insert_eq. do 3 f_equal. lia.
Qed.

(** the insertion of members touches their table only *)
Lemma insert_members_frame l s s' :
  insert_members l s = Ok s' →
  s' = s <| members := members s' |> <| next_member_id := next_member_id s' |>.
Proof.
  revert s. induction l as [|m l IH]; intros s; simpl.
  - intros [= <-]. by destruct s.
  - intros (s1 & H1 & H2)%result_bind_Ok. apply IH in H2. etrans; [exact H2|].
    unfold insert_member in H1. destruct (members s !! _); [done|]. injection H1 as <-.
    by destruct s.
Qed.

(** ** The statements of the invite and request tables *)
Ltac wp_extra ::=
  lazymatch goal with
  | |- wp (ChatJoinRequestRepository.count_pending _) _ _ => apply wp_query
  | |- wp (ChatJoinRequestRepository.get _ _) _ _ => apply wp_query
  | |- wp (ChatJoinRequestRepository.list_pending_for _ _) _ _ => apply wp_query
  | |- wp (ChatJoinRequestRepository.delete _) _ _ => apply wp_execute
  | |- wp (ChatInviteLinkRepository.get_by_id _) _ _ => apply wp_query
  | |- wp (ChatInviteLinkRepository.get_by_code _) _ _ => apply wp_query
  | |- wp (ChatInviteLinkRepository.count_not_revoked _) _ _ => apply wp_query
  | |- wp (ChatInviteLinkRepository.credit_usage _) _ _ => apply wp_execute
  | |- wp (ChatRepository.members_by_user_ids _ _) _ _ => apply wp_query
  | |- wp (flush_join_request _) _ _ => apply wp_execute
  | |- wp (flush_invite _) _ _ => apply wp_execute
  | |- wp (publish_request _) _ _ => apply wp_publish; intros ? ?
  end.

(** ** Join requests *)

(** a request about to be stored *)
Definition filed (s : store) (c : Chat.t) (uid : Z) (link : option UUID) (r : ChatJoinRequest.t)
  : Prop :=
  request_key r = (Chat.id c, uid) ∧ ChatJoinRequest.invite_link_id r = link
  ∧ ChatJoinRequest.coherent r ∧ ChatJoinRequest.is_pending r = true
  ∧ members s !! (Chat.id c, uid) = None
  ∧ ChatJoinRequestRepository.pending_count (Chat.id c) s < chat_config.MAX_PENDING_JOIN_REQUESTS
  ∧ ∀ r0, join_requests s !! (Chat.id c, uid) = Some r0 → ChatJoinRequest.is_pending r0 = false.

Lemma renew_Ok n1 n2 n3 r link r' :
  ChatJoinRequest.renew n1 n2 n3 r link = Ok r' →
  ChatJoinRequest.is_pending r = false ∧ request_key r' = request_key r
  ∧ ChatJoinRequest.invite_link_id r' = link ∧ ChatJoinRequest.coherent r'
  ∧ ChatJoinRequest.is_pending r' = true.
Proof.
  intros H. pose proof (ChatJoinRequest.coherent_renew _ _ _ _ _ _ H) as Hc.
  unfold ChatJoinRequest.renew in H. result_inv H. by subst.
Qed.

Lemma wp_submit c uid link w (Q : result error ChatJoinRequest.t → world → Prop) :
  opened w → live_row w (Chat.id c) c →
  (∀ r t, filed (w_session w) c uid link r → Q (Ok r) (at_tick t w)) →
  (∀ e t, Q (Err e) (at_tick t w)) →
  wp (ChatJoinRequestService.submit c uid link) w Q.
Proof.
  intros [Hs _] Hl HS HE. unfold ChatJoinRequestService.submit.
  destruct (members (w_session w) !! (Chat.id c, uid)) as [m|] eqn:Hm.
  { wp_step. wp_step. rewrite Hm. wp_steps. case_match; wp_steps; apply HE. }
  wp_step. wp_step. rewrite Hm. do 8 wp_step; [|apply HE]. bool_simpl. do 2 wp_step.
  change (w_session (at_tick t w)) with (w_session w).
  destruct (join_requests (w_session w) !! (Chat.id c, uid)) as [r0|] eqn:Hr0.
  - wp_steps; [|apply HE]. apply HS. apply renew_Ok in H0 as (Hp & Hk & ? & ? & ?).
    destruct (ro_row _ (sound_requests _ Hs) _ _ Hr0) as (Hkey & _).
    unfold filed. rewrite Hk, Hkey. split_and!; try done. intros r1 Hr1. simplify_map_eq. done.
  - wp_steps. apply HS. unfold filed. split_and!; try done. congruence.
Qed.

Lemma request_filed priv s c uid link r ids es :
  sound s → chats s !! Chat.id c = Some c → Chat.is_deleted c = false → filed s c uid link r →
  (∀ l, link = Some l → ∃ i, invites s !! l = Some i ∧ ChatInviteLink.creates_join_request i = true) →
  sys_steps priv s (put_join_request r (with_events ids es s)).
Proof.
  intros Hs Hk Hd (Hkey & Hlink & Hc & Hp & Hm & Hn & Hold) Hl.
  apply (sys_emit priv ids es s (put_join_request r s)), rtc_once, sys_request.
  assert (ChatJoinRequest.chat_id r = Chat.id c) as Hcid by (by injection Hkey).
  eapply (step_submit _ r c); rewrite ?Hcid, ?Hkey; try done.
  intros l El. apply Hl. congruence.
Qed.

(** ** One newcomer, with what the handler does after its commit *)
Lemma wp_newcomer_then {A} (c : Chat.t) uid (k : Chat.t → M A) w Q :
  let role := Chat.default_member_role (Chat.type c) in
  live_row w (Chat.id c) c → Chat.members c = [] → Chat.events c = [] →
  (∀ c' ids w', w_database w' = with_events ids [AddedChatMemberEvent (Chat.id c) uid (role_int role)]
                               (enroll c uid role (w_session w)) →
     members (w_session w) !! (Chat.id c, uid) = None →
     Chat.member_count c + 1 ≤ Chat.member_limit (Chat.type c) →
     wp (k c') w' Q) →
  (∀ e w', w_database w' = w_database w → Q (Err e) w') →
  wp (chat ← take_places c 1;
      let chat := Chat.add_member chat uid (Chat.default_member_role (Chat.type chat)) in
      _ ← publish_chat chat;
      _ ← flush_members chat;
      _ ← commit;
      k chat) w Q.
Proof.
  intros role Hl Hm He HS HE. apply wp_bind, wp_take_places; [done| |by apply HE].
  intros Hlim. apply wp_bind, wp_publish. intros ids n.
  apply wp_bind, (wp_flush_one _ uid role); [cbn; by rewrite Hm| |].
  - intros Hn. apply wp_bind, wp_commit. eapply HS; [|done|done].
    cbn. rewrite He. reflexivity.
  - intros x Hx. by apply HE.
Qed.
