(* ===== verification/ChatSpec.v ===== *)
(** The handlers of [ChatCommands] refine the system's steps. *)
From S2P Require Import Prelude Config Events MemberModel InviteModel MessageModel ChatModel PrivacyModel Store Wp Rbac Access ChatRepo ChatWp PrivacyService InviteRepo ChatCommands Spec MembershipInv MembershipSpec TableInv ReactionInv SystemInv.

(** ** A chat's own columns *)
Lemma chat_flushed priv s k c c1 ids es :
  wf s → chats s !! k = Some c → same_chat c (chat_row c1) →
  sys_steps priv s ((with_events ids es s) <| chats ::= <[Chat.id c1 := chat_row c1]> |>).
Proof.
  intros Hwf Hk Hc. destruct (wf_chat _ Hwf _ _ Hk) as (Hid & _ & _).
  apply (sys_emit priv ids es s (put_chat (chat_row c1) s)), steps_sys, steps_one.
  apply (step_chat _ _ c); [by rewrite Hid|done].
Qed.

Lemma chat_rewritten priv s k c c1 ids es :
  wf s → chats s !! k = Some c → Chat.keeps c c1 →
  sys_steps priv s ((with_events ids es s) <| chats ::= <[Chat.id c1 := chat_row c1]> |>).
Proof.
  intros Hwf Hk (E1 & E2 & E3 & E4 & E5 & E6 & E7 & E8 & Hv).
  eapply chat_flushed; [done..|]. unfold same_chat, chat_row; cbn. by split_and!.
Qed.

(** one membership rewritten *)
Lemma member_rewritten priv s k u m m' :
  wf s → members s !! (k, u) = Some m → same_standing m m' → sys_steps priv s (put_member m' s).
Proof.
  intros Hwf Hm Hst. apply (wf_member _ Hwf) in Hm as Hkey. injection Hkey as -> ->.
  apply steps_sys, steps_one. by eapply step_member.
Qed.

Section refinement.
Context `{R : RBACManager}.

Lemma UpdateChat_refines priv cmd w : opened w → sys_refines priv (UpdateChat.handle cmd) w.
Proof.
  intros Ho. unfold sys_refines, transaction, UpdateChat.handle. wp_steps.
  destruct (opened_chat _ _ _ Ho (conj H H0)) as (Hid & Hm & He & Hdb & _).
  apply Chat.update_keeps in H2 as (c1 & Hk & ->). destruct Ho as [[Hwf] Heq].
  rewrite <- Heq in *. exact (chat_rewritten priv _ _ c c1 ids _ Hwf Hdb Hk).
Qed.

Lemma SetChatUsername_refines priv cmd w :
  opened w → sys_refines priv (SetChatUsername.handle cmd) w.
Proof.
  intros Ho. unfold sys_refines, transaction, SetChatUsername.handle. wp_steps.
  destruct (opened_chat _ _ _ Ho (conj H H0)) as (Hid & Hm & He & Hdb & _).
  wp_service. case_bool_decide; [apply rtc_refl|]. wp_step. wp_service. wp_steps.
  apply Chat.set_username_keeps in H3 as (c1 & Hk & ->). destruct Ho as [[Hwf] Heq].
  apply wp_try_integrity. wp_steps.
  rewrite <- Heq in *. exact (chat_rewritten priv _ _ c c1 ids _ Hwf Hdb Hk).
Qed.

(** ** Pins, archive, notifications, drafts *)
Lemma when_provided_standing cmd f m m1 m2 :
  same_standing m m1 → same_standing m1 m2 →
  same_standing m (UpdateChatState.when_provided cmd f m1 m2).
Proof.
  unfold same_standing, UpdateChatState.when_provided. case_bool_decide; [|done].
  intros (-> & -> & -> & -> & ->) (-> & -> & -> & -> & ->). done.
Qed.

Lemma same_standing_refl m : same_standing m m.
Proof. by unfold same_standing. Qed.

Lemma UpdateChatState_refines priv cmd w : opened w → sys_refines priv (UpdateChatState.handle cmd) w.
Proof.
  intros [[Hwf] Heq]. unfold sys_refines, transaction, UpdateChatState.handle. wp_steps.
  wp_service. wp_steps. rewrite <- Heq.
  match goal with |- context [<[(ChatMember.chat_id ?m', _) := _]>] =>
    apply (member_rewritten priv _ _ _ a m' Hwf H)
  end.
  repeat (apply when_provided_standing; [|by unfold same_standing]). apply same_standing_refl.
Qed.

Lemma DeleteChat_refines priv cmd w : opened w → sys_refines priv (DeleteChat.handle cmd) w.
Proof.
  intros Ho. unfold sys_refines, transaction, DeleteChat.handle. wp_steps.
  destruct (opened_chat _ _ _ Ho (conj H H0)) as (Hid & Hm & He & Hdb & _). destruct Ho as [[Hwf] Heq].
  rewrite <- Heq in *.
  apply (chat_flushed priv _ _ c (Chat.delete n1 c _) ids _ Hwf Hdb). by unfold same_chat.
Qed.

(** ** Joining *)
Lemma default_role_plain t : plain_role t (Chat.default_member_role t).
Proof. by destruct t. Qed.

Lemma enrolled priv s c k uid role ids es :
  chats s !! k = Some c → Chat.id c = k → Chat.is_deleted c = false →
  members s !! (Chat.id c, uid) = None →
  Chat.member_count c + 1 ≤ Chat.member_limit (Chat.type c) →
  (priv = true ∨ plain_role (Chat.type c) role) →
  sys_steps priv s (with_events ids es (enroll c uid role s)).
Proof.
  intros Hk <- Hd Hm Hl Hp. apply sys_emit, steps_sys, steps_one. by apply step_enroll.
Qed.

Lemma JoinChat_refines priv cmd w : opened w → sys_refines priv (JoinChat.handle cmd) w.
Proof.
  intros Ho. unfold sys_refines, transaction, JoinChat.handle. wp_steps.
  destruct (opened_chat _ _ _ Ho (conj H H0)) as (Hid & Hm & He & Hdb & Hd & _).
  destruct (Chat.join_by_request c) eqn:Hj.
  - apply wp_bind, wp_submit; [exact Ho|by rewrite Hid| |done]. intros r t Hr. wp_steps.
    destruct Ho as [Hs Heq]. rewrite <- Heq.
    refine (request_filed priv _ c _ None r ids _ Hs _ Hd Hr _); [by rewrite Hid|done].
  - wp_steps. refine (wp_newcomer_then c _ (λ chat, mret (Joined chat)) _ _ _ Hm He _ _); [by rewrite Hid| |done].
    intros c' ids w' Hdb' Hn Hlim. wp_steps. rewrite Hdb'. destruct Ho as [_ <-].
    eapply enrolled; eauto using default_role_plain.
Qed.
End refinement.

(** ** Creating a chat *)
Lemma founding_role t : creator_role t = Chat.founder_role t.
Proof. by destruct t. Qed.

(** the founder and the other first members of a new chat *)
Lemma founded priv s c ids s' :
  chats s !! Chat.id c = None → Chat.events c = [] → Chat.is_deleted c = false →
  Chat.seq_counter c = 0 → Chat.valid c →
  Chat.member_count c = len ids + 1 → Chat.member_count c ≤ Chat.member_limit (Chat.type c) →
  Chat.members c = [] →
  insert_members (ChatMember.create (Chat.id c) (Chat.created_by c) (Chat.founder_role (Chat.type c))
                  :: ((λ u, ChatMember.create (Chat.id c) u (Chat.default_member_role (Chat.type c))) <$> ids))
    (put_chat c s) = Ok s' →
  steps priv s s'.
Proof.
  intros Hk He Hd Hq Hv Hn Hl Hm (s1 & H1 & H2)%result_bind_Ok.
  set (c0 := c <| Chat.member_count := 0 |>).
  assert (members s !! (Chat.id c, Chat.created_by c) = None) as Hfree.
  { unfold insert_member in H1. cbn in H1. by destruct (members s !! _). }
  rewrite insert_member_free in H1 by done. injection H1 as <-.
  eapply rtc_l; [apply (step_create priv s c0); done|].
  eapply (enroll_rows priv _ ids (c0 <| Chat.member_count := 1 |>)); try done.
  - cbn. by rewrite lookup_insert_eq.
  - right. apply default_role_plain.
  - cbn. lia.
  - rewrite <- H2. f_equal. unfold c0. rewrite founding_role.
    destruct s; unfold put_chat, enroll, modify_field; simpl. rewrite insert_insert_eq.
    do 3 f_equal. rewrite (Z.add_comm 1), <- Hn. by destruct c.
Qed.

Lemma wp_chat_create c w (Q : result error unit → world → Prop) :
  (∀ s, chats (w_session w) !! Chat.id c = None →
     insert_members (Chat.members c) (put_chat (chat_row c) (w_session w)) = Ok s →
     Q (Ok tt) (w <| w_session := s |>)) →
  (∀ e, Q (Err e) w) →
  wp (ChatRepository.create c) w Q.
Proof.
  intros HS HE. apply wp_execute_checked; [|auto]. intros s H.
  apply result_bind_Ok in H as (u1 & H1 & H). apply result_bind_Ok in H as (u2 & H2 & H).
  apply raise_if_Ok in H1. apply HS; [|done]. by destruct (chats _ !! _).
Qed.

Lemma CreateChat_refines priv cmd w : opened w → sys_refines priv (CreateChat.handle cmd) w.
Proof.
  intros [Hs Heq]. unfold sys_refines, transaction, CreateChat.handle. wp_step. wp_step.
  apply wp_bind, wp_lift; [|done]. intros [c ids] Hc.
  apply Chat.create_Ok in Hc as (Hid & Ht & Hby & Hq & Hdel & _ & Hm & Hn & Hl & Hv).
  cbv beta iota zeta. set (finish := _ ← publish_chat c; _).
  assert (∀ w1, w_session w1 = w_session w → w_database w1 = w_database w →
    wp finish w1 (λ r w', match r with
      | Ok _ => sys_steps priv (w_database w) (w_database w')
      | Err _ => w_database w' = w_database w end)) as Hfin.
  { intros w1 Es Ed. unfold finish. wp_steps. apply wp_chat_create; [|done].
    intros s Hk Hins. wp_steps. cbn. cbn in Hk, Hins. rewrite Es in Hk, Hins. rewrite <- Heq.
    transitivity (with_events ids0 (Chat.events c) (w_session w)); [by apply sys_emit, rtc_refl|].
    apply steps_sys. eapply (founded _ _ (chat_row c) ids); try done; cbn; rewrite ?Ht; try done.
    - unfold Chat.is_deleted in *; cbn. by rewrite Hdel.
    - by rewrite <- Hins, Hm, Hid, Hby. }
  clearbody finish. case_bool_decide.
  - destruct (filter _ ids) as [|other ?].
    + by apply Hfin.
    + apply wp_bind, wp_query. case_match; [by wp_steps; apply rtc_refl|].
      wp_step. wp_service. by apply Hfin.
  - wp_step. wp_service. by apply Hfin.
Qed.
