(* ===== verification/InviteSpec.v ===== *)
(** The handlers of [InviteCommands] refine the system's steps. *)
From S2P Require Import Prelude Config Events MemberModel InviteModel MessageModel ChatModel PrivacyModel Store Wp Rbac Access ChatRepo ChatWp PrivacyService InviteRepo ChatCommands InviteCommands Spec MembershipInv MembershipSpec TableInv ReactionInv SystemInv ChatSpec.

(** ** Links *)
Lemma create_link_Ok now uuid token cid by_ name exp lim req i :
  ChatInviteLink.create now uuid token cid by_ name exp lim req = Ok i →
  ChatInviteLink.id i = uuid ∧ ChatInviteLink.chat_id i = cid ∧ ChatInviteLink.code i = token
  ∧ ChatInviteLink.is_revoked i = false ∧ ChatInviteLink.usage_ok i.
Proof.
  intros H. pose proof (ChatInviteLink.create_usage_ok _ _ _ _ _ _ _ _ _ _ H) as Hu.
  unfold ChatInviteLink.create in H. result_inv H. by subst.
Qed.

Lemma wp_link_create i w (Q : result error unit → world → Prop) :
  (invites (w_session w) !! ChatInviteLink.id i = None →
   (∀ k j, invites (w_session w) !! k = Some j → ChatInviteLink.code j ≠ ChatInviteLink.code i) →
   Q (Ok tt) (w <| w_session := put_invite i (w_session w) |>)) →
  (∀ e, Q (Err e) w) →
  wp (ChatInviteLinkRepository.create i) w Q.
Proof.
  intros HS HE. apply wp_execute_checked; [|auto]. intros s H.
  apply result_bind_Ok in H as (u1 & H1 & H). apply result_bind_Ok in H as (u2 & H2 & [= <-]).
  apply raise_if_Ok in H1, H2. apply HS.
  - by destruct (invites _ !! _).
  - destruct (first_row _ _) eqn:Hf; [done|]. intros k j Hk Hc.
    by apply (proj1 (first_row_None _ _) Hf) in Hk; bool_simpl.
Qed.

Lemma code_row s code i :
  invites_ok s → first_row (λ _ i, bool_decide (ChatInviteLink.code i = code)) (invites s) = Some i →
  invites s !! ChatInviteLink.id i = Some i ∧ ChatInviteLink.code i = code.
Proof.
  intros Hok (k & Hk & Hc)%first_row_Some. bool_simpl.
  destruct (io_row _ Hok _ _ Hk) as [-> _]. done.
Qed.

Lemma wp_consume l w (Q : result error (option Z) → world → Prop) :
  (∀ now t i, invites (w_session w) !! l = Some i → ChatInviteLink.is_active now i = true →
     Q (Ok (Some (ChatInviteLink.usage_count i + 1)))
       ((at_tick t w) <| w_session := (w_session w) <| invites ::= <[l :=
          i <| ChatInviteLink.usage_count := ChatInviteLink.usage_count i + 1 |>]> |> |>)) →
  (∀ t, Q (Ok None) (at_tick t w)) →
  wp (ChatInviteLinkRepository.consume l) w Q.
Proof.
  intros HS HN. apply wp_bind, wp_now. intros n t _. apply wp_execute_returning. intros a s Ha.
  cbn in Ha. assert ((at_tick t w) <| w_session := w_session w |> = at_tick t w) as Hw by (by destruct w).
  destruct (invites (w_session w) !! l) as [i|] eqn:Hi.
  - rewrite ChatInviteLinkRepository.consumable_active in Ha.
    destruct (ChatInviteLink.is_active n i) eqn:Ha'; injection Ha as <- <-; [eauto|].
    rewrite Hw. apply HN.
  - injection Ha as <- <-. rewrite Hw. apply HN.
Qed.

Section refinement.
Context `{R : RBACManager}.

Lemma CreateInviteLink_refines priv cmd w :
  opened w → sys_refines priv (CreateInviteLink.handle cmd) w.
Proof.
  intros Ho. unfold sys_refines, transaction, CreateInviteLink.handle. wp_steps.
  destruct (opened_chat _ _ _ Ho (conj H H0)) as (Hid & _). destruct Ho as [Hs Heq].
  apply create_link_Ok in H4 as (Ei & Ec & Ek & Hr & Hu). apply wp_link_create; [|done].
  intros Hfresh Hcode. wp_steps. cbn in *. rewrite <- Heq. bool_simpl. apply rtc_once, sys_invite.
  refine (step_link_new _ a c _ H2 Hu Hr Hfresh Hcode _); rewrite Ec; [by rewrite Hid|exact H3].
Qed.

Lemma RevokeInviteLink_refines priv cmd w :
  opened w → sys_refines priv (RevokeInviteLink.handle cmd) w.
Proof.
  intros [Hs Heq]. unfold sys_refines, transaction, RevokeInviteLink.handle. wp_steps.
  destruct (ChatInviteLink.is_revoked a) eqn:Hr; wp_steps; [apply rtc_refl|].
  cbn in *. rewrite <- Heq. destruct (io_row _ (sound_invites _ Hs) _ _ H0) as [Hid _].
  assert (ChatInviteLink.revoke n1 a = a <| ChatInviteLink.revoked_at := Some n1 |>) as ->.
  { unfold ChatInviteLink.revoke, ChatInviteLink.is_revoked in *.
    by destruct (ChatInviteLink.revoked_at a). }
  apply rtc_once, sys_invite, (step_link_revoke _ a n1); [by rewrite Hid|done].
Qed.
End refinement.

Lemma JoinChatByInvite_refines priv cmd w :
  opened w → sys_refines priv (JoinChatByInvite.handle cmd) w.
Proof.
  intros Ho. unfold sys_refines, transaction, JoinChatByInvite.handle. wp_steps.
  apply code_row in H as [Hi Hcode]; [|by apply sound_invites, Ho].
  wp_service. wp_steps; [|done].
  match goal with Ha : Some _ = Some _ |- _ => injection Ha as <- end.
  match goal with Hc : chats _ !! _ = Some c, Hd : Chat.is_deleted c = false |- _ =>
    destruct (opened_chat w _ c Ho (conj Hc Hd)) as (Hid & Hm & He & Hdb & Hd' & _);
    assert (live_row w (Chat.id c) c) as Hl by (by rewrite Hid) end.
  destruct Ho as [Hs Heq]. rewrite <- Heq in Hdb.
  destruct (ChatInviteLink.creates_join_request a) eqn:Hreq.
  - apply wp_bind, wp_submit; [done|exact Hl| |done]. intros r t1 Hr. wp_steps.
    rewrite <- Heq. refine (request_filed priv _ c _ _ r ids _ Hs _ Hd' Hr _); [by rewrite Hid|].
    intros l [= <-]. eauto.
  - wp_steps. case_match; [case_match; wp_steps|]. wp_steps. apply wp_consume.
    + intros now t2 i Hi' Hact. cbn in Hi'. assert (i = a) as -> by congruence.
      cbv beta iota.
      apply (wp_newcomer_then c _ (λ chat, mret (Joined chat))); [exact Hl|exact Hm|exact He| |done].
      intros c' ids w' Hdb' Hn Hlim. wp_steps. rewrite Hdb'. cbn. rewrite <- Heq.
      set (i' := a <| ChatInviteLink.usage_count := ChatInviteLink.usage_count a + 1 |>).
      apply (rtc_l _ _ (put_invite i' (w_session w))); [by apply sys_invite, (step_link_use _ a now)|].
      refine (enrolled priv (put_invite i' (w_session w)) c (Chat.id c) _ _ ids _ _ eq_refl Hd' Hn
                Hlim (or_intror (default_role_plain _))). by rewrite Hid.
    + intros t2. wp_steps. apply wp_query. by wp_steps.
Qed.

(** ** Resolving requests *)

(** the pending requests a handler lists *)
Definition listed (s : store) (cid : UUID) (ids : list Z) : list ChatJoinRequest.t :=
  omap (λ u, r ← join_requests s !! (cid, u);
             if ChatJoinRequest.is_pending r then Some r else None)
    (merge_sort Z.le (fromkeys ids)).

(** requests about to be resolved: pending rows, one per user *)
Definition pending_rows (s : store) (l : list ChatJoinRequest.t) : Prop :=
  NoDup (request_key <$> l) ∧
  ∀ r, r ∈ l → join_requests s !! request_key r = Some r ∧ ChatJoinRequest.is_pending r = true.

Lemma NoDup_omap_keys {A B K} (f : A → option B) (key : B → K) (src : A → K) (l : list A) :
  NoDup (src <$> l) → (∀ x y, f x = Some y → key y = src x) → NoDup (key <$> omap f l).
Proof.
  intros Hnd Hk. induction l as [|x l IH]; csimpl; [constructor|].
  apply list.NoDup_cons in Hnd as [Hx Hnd]. destruct (f x) as [y|] eqn:Hf; [|auto]. csimpl.
  constructor; [|auto]. rewrite (Hk _ _ Hf). intros Hin. apply Hx.
  apply list_elem_of_fmap in Hin as (y' & E & (x' & Hx' & Hf')%list_elem_of_omap).
  rewrite E, (Hk _ _ Hf'). by apply list_elem_of_fmap_2.
Qed.

Lemma listed_rows s cid ids :
  requests_ok s → pending_rows s (listed s cid ids)
  ∧ ∀ r, r ∈ listed s cid ids → ChatJoinRequest.chat_id r = cid.
Proof.
  intros Hok. unfold listed.
  assert (∀ u r, (r ← join_requests s !! (cid, u);
            if ChatJoinRequest.is_pending r then Some r else None) = Some r →
          join_requests s !! (cid, u) = Some r ∧ ChatJoinRequest.is_pending r = true
          ∧ request_key r = (cid, u)) as Hrow.
  { intros u r. destruct (join_requests s !! (cid, u)) as [r'|] eqn:Hk; cbn; [|done].
    destruct (ChatJoinRequest.is_pending r') eqn:Hp; [|done]. intros [= ->].
    destruct (ro_row _ Hok _ _ Hk) as (? & _). done. }
  split; [split|].
  - eapply (NoDup_omap_keys _ _ (λ u, (cid, u))); [|by intros u r (? & ? & ?)%Hrow].
    apply NoDup_fmap_2; [intros ?? [= ?]; done|].
    rewrite merge_sort_Permutation. apply NoDup_fromkeys.
  - intros r (u & _ & (? & ? & ->)%Hrow)%list_elem_of_omap. done.
  - intros r (u & _ & (? & ? & [= ? _])%Hrow)%list_elem_of_omap. done.
Qed.

(** the statements that store the resolved requests *)
Definition put_requests (l : list ChatJoinRequest.t) (s : store) : store :=
  foldl (λ s r, put_join_request r s) s l.

Lemma wp_flush_requests l w (Q : result error unit → world → Prop) :
  Q (Ok tt) (w <| w_session ::= put_requests l |>) → wp (for_each l flush_join_request) w Q.
Proof.
  revert w. induction l as [|r l IH]; intros w HQ; simpl.
  - apply wp_ret. by destruct w.
  - apply wp_bind, wp_execute, IH. by destruct w.
Qed.

(** a request resolved with a status and an instant *)
Definition resolved_as (st : JoinRequestStatus) (by_ : Z) (r r' : ChatJoinRequest.t) : Prop :=
  ∃ now, r' = ChatJoinRequest._resolve now r st by_.

Lemma resolve_steps priv st by_ : st ≠ JR_PENDING → ∀ l l' s,
  Forall2 (resolved_as st by_) l l' → pending_rows s l →
  sys_steps priv s (put_requests l' s).
Proof.
  intros Hst l l' s Hl. revert s. induction Hl as [|r r' l l' [now ->] Hl IH]; intros s [Hnd Hrow].
  { apply rtc_refl. }
  apply list.NoDup_cons in Hnd as [Hr Hnd].
  destruct (Hrow r) as [Hk Hp]; [by left|]. eapply rtc_l.
  { apply sys_request. by apply (step_resolve s r now st by_). }
  apply IH. split; [done|]. intros x Hx. destruct (Hrow x) as [Hkx Hpx]; [by right|].
  split; [|done]. unfold put_join_request; cbn. rewrite lookup_insert_ne; [done|].
  intros E. apply Hr. change (request_key r = request_key x) in E. rewrite E.
  by apply list_elem_of_fmap_2.
Qed.

Lemma wp_resolve_pending by_ (ms : gmap Z ChatMember.t) pending : ∀ w Q,
  (∀ l approved to_add t, l `sublist_of` pending →
     Forall2 (resolved_as JR_APPROVED by_) l approved → to_add `sublist_of` approved →
     Q (Ok (approved, to_add)) (at_tick t w)) →
  wp (ApproveJoinRequests.resolve_pending by_ ms pending) w Q.
Proof.
  induction pending as [|r pending IH]; intros w Q HQ; simpl.
  - apply wp_ret. rewrite (at_tick_self w). by eapply HQ.
  - apply wp_bind, wp_now. intros n1 t1 _. cbv zeta. case_match.
    { apply IH. intros l approved to_add t Hl Ha Hs. eapply HQ; [by apply sublist_cons|done..]. }
    apply wp_bind, wp_now. intros n2 t2 _. apply wp_bind, IH.
    intros l approved to_add t Hl Ha Hs. apply wp_ret.
    eapply (HQ (r :: l)); [by apply sublist_skip|constructor; [by exists n2|done]|].
    destruct (is_none _); [by apply sublist_skip|by apply sublist_cons].
Qed.

Lemma wp_decline_each by_ pending : ∀ w Q,
  (∀ declined t, Forall2 (resolved_as JR_DECLINED by_) pending declined →
     Q (Ok declined) (at_tick t w)) →
  wp (DeclineJoinRequests.decline_each by_ pending) w Q.
Proof.
  induction pending as [|r pending IH]; intros w Q HQ; simpl.
  - apply wp_ret. rewrite (at_tick_self w). by apply HQ.
  - apply wp_bind, wp_now. intros n t _. apply wp_bind, IH. intros declined t' Hd.
    apply wp_ret. apply HQ. constructor; [by exists n|done].
Qed.

Lemma sublist_map {A B} (f : A → B) l l' : l' `sublist_of` l → (f <$> l') `sublist_of` (f <$> l).
Proof. induction 1; csimpl; by constructor. Qed.

Lemma pending_sublist s l l' : l' `sublist_of` l → pending_rows s l → pending_rows s l'.
Proof.
  intros Hl [Hnd Hrow]. split.
  - eapply sublist_NoDup; [done|]. by apply sublist_map.
  - intros r Hr. apply Hrow. by eapply sublist_subseteq.
Qed.

(** the links credited are links that file requests *)
Lemma credited_links s l approved to_add by_ :
  requests_ok s → pending_rows s l → Forall2 (resolved_as JR_APPROVED by_) l approved →
  to_add `sublist_of` approved → ∀ k i, k ∈ ApproveJoinRequests.credited to_add →
  invites s !! k = Some i → ChatInviteLink.creates_join_request i = true.
Proof.
  intros Hok [_ Hrow] Ha Hs k i (r & Hr & Hk)%list_elem_of_omap Hi.
  eapply sublist_subseteq in Hr; [|exact Hs]. apply list_elem_of_lookup in Hr as [j Hj].
  destruct (Forall2_lookup_r _ _ _ j r Ha Hj) as (r0 & Hj0 & now & ->).
  destruct (Hrow r0) as [Hk0 _]; [by eapply list_elem_of_lookup_2|].
  destruct (ro_link _ Hok _ _ Hk0 k Hk) as (i' & ? & ?). congruence.
Qed.

Lemma approved_members c ids by_ role :
  Chat.members (Chat.approve_join_requests c ids by_ role) = Chat.members c.
Proof. unfold Chat.approve_join_requests. by case_match. Qed.

Section resolution.
Context `{R : RBACManager}.

Lemma DeclineJoinRequests_refines priv cmd w :
  opened w → sys_refines priv (DeclineJoinRequests.handle cmd) w.
Proof.
  intros [Hs Heq]. unfold sys_refines, transaction, DeclineJoinRequests.handle. wp_steps.
  apply wp_decline_each. intros declined td Hd. wp_steps. apply wp_flush_requests. wp_steps.
  cbn. rewrite <- Heq.
  destruct (listed_rows (w_session w) (Chat.id c) (fromkeys (DeclineJoinRequests.user_ids cmd)))
    as [Hrows _]; [auto with msgr|].
  eapply rtc_l; [apply sys_membership, (step_emit priv _ ids)|].
  eapply (resolve_steps priv JR_DECLINED); [done|exact Hd|exact Hrows].
Qed.

Lemma DeclineAllJoinRequests_refines priv cmd w :
  opened w → sys_refines priv (DeclineAllJoinRequests.handle cmd) w.
Proof.
  intros [Hs Heq]. unfold sys_refines, transaction, DeclineAllJoinRequests.handle. wp_steps.
  apply wp_bind, wp_now. intros n2 t2 _. apply wp_execute_returning. intros a s [= <- <-].
  assert (∀ s', s' = w_session w →
    sys_steps priv s' (s' <| join_requests ::= fmap (ChatJoinRequestRepository.declined_in
      (Chat.id c) (jwt_id (DeclineAllJoinRequests.user_jwt_data cmd)) n2) |>)) as Hall.
  { intros s' _. apply rtc_once, sys_request, step_decline_all. }
  wp_steps. destruct (_ =? 0); wp_steps; cbn; rewrite <- Heq; [by apply Hall|].
  by apply (sys_emit priv ids _ _ _ (Hall _ eq_refl)).
Qed.

Lemma ApproveJoinRequests_refines priv cmd w :
  opened w → sys_refines priv (ApproveJoinRequests.handle cmd) w.
Proof.
  intros Ho. unfold sys_refines, transaction, ApproveJoinRequests.handle. wp_steps.
  destruct (opened_chat _ _ _ Ho (conj H H0)) as (Hid & Hm & He & Hdb & Hd & _).
  destruct Ho as [Hs Heq]. rewrite <- Heq in *.
  apply wp_resolve_pending. intros l approved to_add ta Hl Ha Hta. cbv beta iota zeta.
  destruct (listed_rows (w_session w) (Chat.id c) (fromkeys (ApproveJoinRequests.user_ids cmd)))
    as [Hrows _]; [auto with msgr|].
  eapply pending_sublist in Hrows; [|exact Hl].
  assert (∀ s, pending_rows s l → sys_steps priv s (put_requests approved s)) as Hres.
  { intros s Hrs. by eapply (resolve_steps priv JR_APPROVED). }
  wp_step. destruct to_add as [|r0 to_add'] eqn:Eta.
  - wp_steps. apply wp_execute_checked; [|done]. intros s Hins.
    assert (s = with_events ids (Chat.pull_events (Chat.approve_join_requests c
      (ChatJoinRequest.user_id <$> approved) (jwt_id (ApproveJoinRequests.user_jwt_data cmd))
      (role_int (Chat.default_member_role (Chat.type c))))).1 (w_session w)) as ->.
    { revert Hins. unfold Chat.approve_join_requests. case_match; cbn; rewrite Hm; by intros [= <-]. }
    wp_steps. apply wp_flush_requests. wp_steps. cbn.
    eapply rtc_l; [apply sys_membership, (step_emit priv _ ids)|]. by apply Hres.
  - rewrite <- Eta in *. clear Eta r0 to_add'. cbv beta iota. apply wp_bind.
    apply wp_take_places; [by rewrite Hid| |done]. intros Hlim. wp_steps.
    apply wp_execute_checked; [|done]. intros s Hins. wp_steps. apply wp_flush_requests. wp_steps.
    cbn. rewrite approved_members, Chat.add_members_columns in Hins. cbn in Hins.
    rewrite Hm in Hins. cbn in Hins.
    set (s1 := (w_session w) <| invites ::=
      fmap (ChatInviteLinkRepository.credit (ApproveJoinRequests.credited to_add)) |>).
    apply (rtc_l _ _ s1).
    { apply sys_invite, step_link_credit. eapply credited_links; eauto with msgr. }
    eapply rtc_l; [apply sys_membership, (step_emit priv s1 ids)|].
    apply insert_members_frame in Hins as Hframe.
    transitivity s; [|apply Hres; by rewrite Hframe].
    apply steps_sys. eapply (enroll_rows priv _ (ChatJoinRequest.user_id <$> to_add) c); try done.
    + cbn. by rewrite Hid.
    + right. apply default_role_plain.
    + unfold len in *. by rewrite length_fmap.
    + rewrite <- Hins. unfold len. by rewrite length_fmap.
Qed.

Lemma CancelJoinRequest_refines priv cmd w :
  opened w → sys_refines priv (CancelJoinRequest.handle cmd) w.
Proof.
  intros [Hs Heq]. unfold sys_refines, transaction, CancelJoinRequest.handle. wp_steps.
  bool_simpl. cbn in *. rewrite <- Heq.
  destruct (ro_row _ (sound_requests _ Hs) _ _ H) as (Hkey & _).
  apply (sys_emit priv ids _ _ ((w_session w) <| join_requests ::= delete (request_key a) |>)).
  apply rtc_once, sys_request, step_cancel; [by rewrite Hkey|done].
Qed.
End resolution.
