(* ===== verification/MessageSpec.v ===== *)
(** The handlers of [MessageCommands] refine the system's
    steps. *)
From S2P Require Import Prelude Config Events MemberModel MessageModel ChatModel PrivacyModel Store Wp Rbac Access ChatRepo ChatWp PrivacyService MessageRepo MessageCommands Spec MembershipInv MembershipSpec TableInv ReactionInv SystemInv.

(** ** Posting *)
Lemma posted priv s k c date ms ids es s' :
  sound s → chats s !! k = Some c → Chat.is_deleted c = false →
  numbered (Chat.seq_counter c + 1) ms →
  Forall (λ m, Message.chat_id m = k ∧ Message.validate_content m = Ok tt) ms →
  insert_messages ms (with_events ids es
    (s <| chats ::= <[k := c <| Chat.seq_counter := Chat.seq_counter c + len ms |>
                             <| Chat.last_activity_at := Some date |>]> |>)) = Ok s' →
  sys_steps priv s s'.
Proof.
  intros Hs Hk Hd Hn Hf Hi. destruct (wf_chat _ (sound_wf _ Hs) _ _ Hk) as (Hid & _). subst k.
  eapply rtc_l; [apply sys_membership, (step_emit priv s ids es)|]. apply rtc_once, sys_message.
  by apply (step_post _ c date ms).
Qed.

Lemma insert_one m s s' : insert_message m s = Ok s' → insert_messages [m] s = Ok s'.
Proof. simpl. intros ->. done. Qed.

(** ** The statements of the message tables *)
Ltac wp_extra ::=
  lazymatch goal with
  | |- wp (MessageRepository.get_by_id _ _) _ _ => apply wp_query
  | |- wp (MessageRepository.get_many_in_chat _ _) _ _ => apply wp_query
  | |- wp (AttachmentRepository.get_by_ids _) _ _ => apply wp_query
  | |- wp (ChatPinnedMessageRepository.get _ _) _ _ => apply wp_query
  | |- wp (ChatPinnedMessageRepository.count _) _ _ => apply wp_query
  | |- wp (flush_message _) _ _ => apply wp_execute
  | |- wp (publish_message _) _ _ => apply wp_publish; intros ? ?
  end.

#[export] Instance get_by_ids_ro l : ReadOnly (AttachmentRepository.get_by_ids l).
Proof. apply query_ro. Qed.
#[export] Instance message_get_by_id_ro i b : ReadOnly (MessageRepository.get_by_id i b).
Proof. apply query_ro. Qed.

(** [is_slow] changes nothing a refinement speaks of. *)
Lemma wp_slow c u m w (Q : result error unit → world → Prop) :
  (∀ w', w_session w' = w_session w → w_database w' = w_database w → Q (Ok tt) w') →
  (∀ e w', w_database w' = w_database w → Q (Err e) w') →
  wp (MessageService.is_slow c u m) w Q.
Proof. intros HS HE. apply wp_is_slow. intros [[]|e] t sm; [by apply HS|by apply HE]. Qed.

Lemma wp_message_create m w (Q : result error unit → world → Prop) :
  (∀ s, insert_message m (w_session w) = Ok s → Q (Ok tt) (w <| w_session := s |>)) →
  (∀ e, Q (Err e) w) →
  wp (MessageRepository.create m) w Q.
Proof. intros HS HE. apply wp_execute_checked; auto. Qed.

(** Numbers taken from the counter of a live chat *)
Lemma wp_allocated {B} k date n e (f : Z → M B) w Q :
  (∀ c, live_row w k c →
     wp (f (Chat.seq_counter c + n)) (w <| w_session ::= λ s, s <| chats ::= <[k :=
          c <| Chat.seq_counter := Chat.seq_counter c + n |>
            <| Chat.last_activity_at := Some date |>]> |> |>) Q) →
  Q (Err e) w →
  wp (x ← ChatRepository.allocate_message_seq k date n; x ← or_raise x e; f x) w Q.
Proof.
  intros HS HE. apply wp_bind, wp_allocate_message_seq.
  - intros c Hl. apply wp_bind, wp_or_raise; [intros ? [= <-]|done]. by apply HS.
  - intros _. by apply wp_bind, wp_or_raise.
Qed.

(** The end of [send] and [forward]: a number is taken, the message built,
    its event published, the row inserted. *)
Lemma wp_post k (build : Z → UUID → result error Message.t) w
  (Q : result error Message.t → world → Prop) :
  (∀ c date ids uuid m (s : store) (w' : world), live_row w k c → build (Chat.seq_counter c + 1) uuid = Ok m →
     insert_message m (with_events ids (Message.events m)
       ((w_session w) <| chats ::= <[k := advance_seq c 1 date]> |>)) = Ok s →
     w_database w' = s → Q (Ok m) w') →
  (∀ e w', w_database w' = w_database w → Q (Err e) w') →
  wp (date ← now_utc;
      n ← ChatRepository.allocate_message_seq k date 1;
      n ← or_raise n (NotFoundChatError k);
      uuid ← uuid7;
      msg ← lift (build n uuid);
      _ ← publish_message msg;
      _ ← MessageRepository.create msg;
      _ ← commit;
      mret msg) w Q.
Proof.
  intros HS HE. apply wp_bind, wp_now. intros n t _. cbv beta iota.
  apply wp_allocated; [|by apply HE]. intros c Hl. wp_step. wp_step. wp_step.
  apply wp_lift; [intros m Hm|intros; by apply HE]. wp_step. wp_step. wp_step.
  apply wp_message_create; [|intros; by apply HE]. intros s Hins.
  wp_steps. by refine (HS c n ids _ m s _ Hl Hm Hins _).
Qed.

Lemma wp_posting priv w0 k (build : Z → UUID → result error Message.t) w :
  opened w0 → w_session w = w_session w0 → w_database w = w_database w0 →
  (∀ n uuid m, build n uuid = Ok m →
     Message.chat_id m = k ∧ Message.seq m = n ∧ Message.validate_content m = Ok tt) →
  wp (date ← now_utc;
      n ← ChatRepository.allocate_message_seq k date 1;
      n ← or_raise n (NotFoundChatError k);
      uuid ← uuid7;
      msg ← lift (build n uuid);
      _ ← publish_message msg;
      _ ← MessageRepository.create msg;
      _ ← commit;
      mret msg) w
    (λ r w', match r with
      | Ok _ => sys_steps priv (w_database w0) (w_database w')
      | Err _ => w_database w' = w_database w0
      end).
Proof.
  intros [Hs Heq] Es Ed Hb. apply wp_post; [|by intros e w' ->].
  intros c date ids uuid m s w' [Hk Hd] Hm Hins ->. apply Hb in Hm as (Hcid & Hseq & Hv).
  rewrite Es, <- Heq in *.
  eapply (posted priv (w_session w0) k c date [m]); [done..| | |].
  - by split.
  - by constructor.
  - apply insert_one. exact Hins.
Qed.

Section refinement.
Context `{R : RBACManager}.

Lemma SendMessage_refines priv cmd w : opened w → sys_refines priv (SendMessage.handle cmd) w.
Proof.
  intros Ho. unfold sys_refines, transaction, SendMessage.handle. wp_steps.
  wp_service. wp_step. apply wp_slow; [|done]. intros w1 Es Ed. wp_step. wp_service. wp_step.
  apply wp_guard_not; [intros _|done]. wp_step. wp_service.
  apply (wp_posting priv w); [done..|]. intros n' uuid m' Hm.
  apply Message.created_Ok in Hm as (_ & ? & ? & _ & _ & _ & _ & ? & _). done.
Qed.

Lemma ForwardMessage_refines priv cmd w :
  opened w → sys_refines priv (ForwardMessage.handle cmd) w.
Proof.
  intros Ho. unfold sys_refines, transaction, ForwardMessage.handle. wp_steps.
  wp_service. wp_step. apply wp_slow; [|done]. intros w1 Es Ed. wp_step. wp_step.
  apply (wp_posting priv w); [done..|]. intros n' uuid m' Hm.
  apply Message.created_Ok in Hm as (_ & ? & ? & _ & _ & _ & _ & ? & _). done.
Qed.

(** ** Several messages at once *)
Lemma build_forwards_Ok cmd user_id : ∀ sources fresh n ms,
  ForwardMessages.build_forwards fresh cmd user_id sources n = Ok ms →
  numbered n ms ∧ length ms = length sources
  ∧ Forall (λ m, Message.chat_id m = ForwardMessages.target_chat_id cmd
                 ∧ Message.validate_content m = Ok tt) ms.
Proof.
  induction sources as [|x sources IH]; intros fresh n ms; simpl.
  - intros [= <-]. repeat constructor.
  - intros H. apply result_bind_Ok in H as (m & Hm & H). apply result_bind_Ok in H as (ms' & Hms & H).
    injection H as <-. apply IH in Hms as (? & ? & ?).
    apply Message.create_forward_Ok in Hm as (? & ? & _ & _ & _ & ?). simpl. split_and!; auto.
Qed.

Lemma build_messages_Ok fresh cmd user_id sources comment first ms :
  ForwardMessages._build_messages fresh cmd user_id sources comment first = Ok ms →
  numbered first ms
  ∧ len ms = len sources + (if truthy_text comment then 1 else 0)
  ∧ Forall (λ m, Message.chat_id m = ForwardMessages.target_chat_id cmd
                 ∧ Message.validate_content m = Ok tt) ms.
Proof.
  unfold ForwardMessages._build_messages, len. destruct (truthy_text comment); intros H.
  - apply result_bind_Ok in H as (m & Hm & H). apply result_bind_Ok in H as (ms' & Hms & H).
    injection H as <-. apply build_forwards_Ok in Hms as (? & E & ?).
    apply Message.created_Ok in Hm as (_ & ? & ? & _ & _ & _ & _ & ? & _).
    simpl. split_and!; [done|done|lia|auto].
  - apply build_forwards_Ok in H as (? & E & ?). split_and!; [done|lia|done].
Qed.

Lemma wp_ensure_slow c m u n w (Q : result error unit → world → Prop) :
  (∀ w', w_session w' = w_session w → w_database w' = w_database w → Q (Ok tt) w') →
  (∀ e w', w_database w' = w_database w → Q (Err e) w') →
  wp (ForwardMessages._ensure_slow_mode c m u n) w Q.
Proof.
  intros HS HE. unfold ForwardMessages._ensure_slow_mode. wp_steps. destruct (_ || _).
  - wp_steps. by apply HS.
  - wp_step. apply wp_guard_not; [intros _|intros _; by apply HE]. by apply wp_slow.
Qed.

Lemma wp_create_many ms w (Q : result error unit → world → Prop) :
  (∀ s, insert_messages ms (w_session w) = Ok s → Q (Ok tt) (w <| w_session := s |>)) →
  (∀ e, Q (Err e) w) →
  wp (MessageRepository.create_many ms) w Q.
Proof. intros HS HE. apply wp_execute_checked; auto. Qed.

Lemma ForwardMessages_refines priv cmd w :
  opened w → sys_refines priv (ForwardMessages.handle cmd) w.
Proof.
  intros Ho. unfold sys_refines, transaction, ForwardMessages.handle. wp_steps.
  wp_service. wp_steps. wp_service. cbv zeta.
  set (forwardable := filter _ _). set (comment := ForwardMessages.cleaned_comment cmd).
  clearbody forwardable comment. wp_step. apply wp_ensure_slow; [|done]. intros w1 Es Ed. wp_step. wp_step.
  apply wp_allocated; [|done]. intros c' [Hk Hd]. cbn in Hk. wp_steps.
  match goal with Hb : ForwardMessages._build_messages _ _ _ _ _ _ = Ok ?l |- _ =>
    rename l into ms; apply build_messages_Ok in Hb as (Hnum & Hlen & Hall) end.
  rewrite <- Hlen in *. apply wp_create_many; [|done]. intros s Hins. wp_steps. cbn. cbn in Hins.
  rewrite Es in *. destruct Ho as [Hs Heq]. rewrite <- Heq.
  replace (Chat.seq_counter c' + len ms - len ms + 1) with (Chat.seq_counter c' + 1) in Hnum by lia.
  exact (posted priv (w_session w) _ c' _ ms ids _ s Hs Hk Hd Hnum Hall Hins).
Qed.

(** ** Editing and deleting *)
Lemma message_found s i m :
  messages_ok s → MessageRepository.live_message s i = Some m →
  messages s !! Message.id m = Some m ∧ Message.id m = i ∧ Message.is_deleted m = false
  ∧ Message.attachments m = [] ∧ Message.events m = [] ∧ Message.validate_content m = Ok tt.
Proof.
  intros Hok [Hm Hd]%live_message_Some. destruct (mo_row _ Hok _ _ Hm) as (<- & ? & ? & ?).
  done.
Qed.

Lemma EditMessage_refines priv cmd w : opened w → sys_refines priv (EditMessage.handle cmd) w.
Proof.
  intros [Hs Heq]. unfold sys_refines, transaction, EditMessage.handle. wp_steps.
  change (λ m : Message.t, m) with (@id Message.t) in *. rewrite option_fmap_id in *.
  lazymatch goal with
  | Hl : MessageRepository.live_message _ _ = Some ?m, Hu : Message.update_content _ _ _ = Ok ?m' |- _ =>
    apply message_found in Hl as (Hm & _ & Hd & _); [|auto with msgr];
    apply Message.update_content_Ok in Hu as (E1 & E2 & E3 & E4 & E5 & E6 & _ & _ & _ & E7 & _);
    cbn; rewrite <- Heq;
    apply (sys_emit priv ids _ _ (put_message (message_row m') (w_session w)));
    apply rtc_once, sys_message, (step_edit _ m); try done
  end.
  cbn. by rewrite E6, Hd.
Qed.

(** the pins go before the message they point to *)
Lemma unpinned_edit (P : (UUID * UUID) * ChatPinnedMessage.t → Prop) `{∀ x, Decision (P x)}
  priv s m m' ids es :
  messages s !! Message.id m = Some m → Message.is_deleted m = false → same_message m m' →
  Message.validate_content m' = Ok tt →
  (∀ p, ¬ P ((Message.chat_id m, Message.id m), p)) →
  sys_steps priv s (put_message m' (with_events ids es (s <| pins ::= filter P |>))).
Proof.
  intros Hm Hd Hsame Hv HP.
  eapply rtc_l; [apply sys_pin, (step_unpin s P)|].
  eapply rtc_l; [apply sys_membership, (step_emit priv _ ids es)|].
  apply rtc_once, sys_message, (step_edit _ m); try done. intros _. cbn.
  apply map_lookup_filter_None. right. intros x _. apply HP.
Qed.

Lemma DeleteMessage_refines priv cmd w : opened w → sys_refines priv (DeleteMessage.handle cmd) w.
Proof.
  intros [Hs Heq]. unfold sys_refines, transaction, DeleteMessage.handle. wp_steps.
  change (λ m : Message.t, m) with (@id Message.t) in *. rewrite option_fmap_id in *.
  unfold ChatPinnedMessageRepository.delete_many. apply wp_execute_returning. intros ids0 s [= <- <-].
  lazymatch goal with
  | Hl : MessageRepository.live_message _ _ = Some ?m, Hg : negb (Message.chat_id ?m =? _) = false |- _ =>
    apply message_found in Hl as (Hm & _ & Hd & Ha & He & Hv); [|auto with msgr];
    apply negb_false_iff, Z.eqb_eq in Hg
  end.
  destruct (filter _ _); wp_steps; cbn; rewrite <- Heq;
    (lazymatch goal with |- context [message_row ?m'] =>
       eapply (unpinned_edit _ priv (w_session w) a (message_row m')) end;
     try done; cbn; intros p Hp; apply Hp; split; [done|by left]).
Qed.

(** ** Pinning *)
Lemma pin_message_Ok now c m by_ n c' p :
  Chat.pin_message now c m by_ n = Ok (c', p) →
  Message.chat_id m = Chat.id c ∧ Message.is_deleted m = false ∧ Message.type m ≠ SYSTEM
  ∧ n < chat_config.MAX_PINNED_MESSAGES
  ∧ p = ChatPinnedMessage.create now (Chat.id c) (Message.id m) (Message.seq m) by_.
Proof.
  unfold Chat.pin_message. intros H. result_inv H. bool_simpl. naive_solver.
Qed.

Lemma wp_pin_create p w (Q : result error unit → world → Prop) :
  (pins (w_session w) !! (ChatPinnedMessage.chat_id p, ChatPinnedMessage.message_id p) = None →
   Q (Ok tt) (w <| w_session ::= λ s, s <| pins ::=
     <[(ChatPinnedMessage.chat_id p, ChatPinnedMessage.message_id p) := p]> |> |>)) →
  (∀ e, Q (Err e) w) →
  wp (ChatPinnedMessageRepository.create p) w Q.
Proof.
  intros HS HE. apply wp_execute_checked; cbv zeta; destruct (pins _ !! _) eqn:Hk; cbn;
    intros x [= <-]; auto.
Qed.

Lemma pin_posted priv s k c date p m notice ids es s' :
  sound s → chats s !! k = Some c → Chat.is_deleted c = false →
  MessageRepository.live_message s (ChatPinnedMessage.message_id p) = Some m →
  Message.chat_id m = ChatPinnedMessage.chat_id p → Message.type m ≠ SYSTEM →
  Message.seq m = ChatPinnedMessage.message_seq p →
  pins s !! (ChatPinnedMessage.chat_id p, ChatPinnedMessage.message_id p) = None →
  ChatPinnedMessageRepository.live_pins s (ChatPinnedMessage.chat_id p)
    < chat_config.MAX_PINNED_MESSAGES →
  Message.seq notice = Chat.seq_counter c + 1 →
  Message.chat_id notice = k → Message.validate_content notice = Ok tt →
  insert_message notice (s <| chats ::= <[k := advance_seq c 1 date]> |>
       <| outbox ::= (λ l, l ++ outbox_rows ids es) |>
       <| pins ::= <[(ChatPinnedMessage.chat_id p, ChatPinnedMessage.message_id p) := p]> |>) = Ok s' →
  sys_steps priv s s'.
Proof.
  intros Hs Hk Hd Hl Hc Ht Hq Hp Hn Hseq Hcid Hv Hi.
  set (s1 := s <| pins ::= <[(ChatPinnedMessage.chat_id p, ChatPinnedMessage.message_id p) := p]> |>).
  assert (sys_step priv s s1) as Hstep by (by eapply sys_pin, step_pin).
  eapply rtc_l; [exact Hstep|].
  eapply (posted priv s1 k c date [notice] ids es); try done.
  - by eapply sound_step.
  - by constructor.
  - apply insert_one. exact Hi.
Qed.

Lemma PinMessage_refines priv cmd w : opened w → sys_refines priv (PinMessage.handle cmd) w.
Proof.
  intros Ho. unfold sys_refines, transaction, PinMessage.handle. wp_steps.
  destruct (pins _ !! _) as [pin|] eqn:Hpin; [wp_step; apply rtc_refl|].
  wp_steps. lazymatch goal with x : (Chat.t * ChatPinnedMessage.t)%type |- _ => destruct x as [c' p] end.
  lazymatch goal with H : Chat.pin_message _ _ _ _ _ = Ok _ |- _ =>
    apply pin_message_Ok in H as (Hc & Hd & Ht & Hn & ->) end.
  wp_step. wp_step. apply wp_allocated; [|done]. intros c2 [Hk2 Hd2]. cbn in Hk2. wp_steps.
  lazymatch goal with H : Message.create_system _ _ _ _ _ _ = Ok _ |- _ =>
    apply Message.created_Ok in H as (_ & Hcid & Hseq & _ & _ & _ & _ & Hv & _) end.
  apply wp_pin_create; [|done]. intros _. wp_step. apply wp_message_create; [|done].
  intros s Hins. wp_steps. cbn. cbn in Hins.
  destruct (ready_row _ _ c (opened_ready _ Ho) ltac:(by split)) as (Hid & _).
  destruct Ho as [Hs Heq]. rewrite <- Heq.
  lazymatch goal with H : _ <$> _ = Some ?x |- _ =>
    apply fmap_Some in H as (m0 & Hl & ->); pose proof Hl as Hl0;
    apply message_found in Hl0 as (_ & Hi & _); [|auto with msgr] end.
  cbn in Hc, Ht, Hins, Hn. rewrite <- Hid in *. rewrite <- Hi in *.
  exact (pin_posted priv _ (Chat.id c) c2 _ (ChatPinnedMessage.create _ (Chat.id c) (Message.id m0)
    (Message.seq m0) _) m0 _ ids _ _ Hs Hk2 Hd2 Hl Hc Ht eq_refl Hpin Hn Hseq Hcid Hv Hins).
Qed.

Lemma pins_dropped (P : (UUID * UUID) * ChatPinnedMessage.t → Prop) `{∀ x, Decision (P x)}
  priv s ids es : sys_steps priv s (with_events ids es (s <| pins ::= filter P |>)).
Proof.
  eapply rtc_l; [apply sys_pin, (step_unpin s P)|]. apply rtc_once, sys_membership, (step_emit priv _ ids).
Qed.

Lemma UnpinMessages_refines priv cmd w :
  opened w → sys_refines priv (UnpinMessages.handle cmd) w.
Proof.
  intros [Hs Heq]. unfold sys_refines, transaction, UnpinMessages.handle. wp_steps.
  unfold ChatPinnedMessageRepository.delete_many, ChatPinnedMessageRepository.delete_all.
  destruct (UnpinMessages.message_id cmd) as [i|]; apply wp_execute_returning; intros ids0 s [= <- <-];
    (case_match; [wp_steps; apply rtc_refl|]); wp_steps; cbn; rewrite <- Heq; exact (@pins_dropped _ _ priv _ ids _).
Qed.
End refinement.
