(* ===== verification/ReactionSpec.v ===== *)
(** The handlers of [Reactions] refine the system's steps, and the
    reactions a replacement leaves are the ones asked for. *)
From S2P Require Import Prelude Config Events MemberModel MessageModel ChatModel Store Wp Rbac ChatRepo ChatWp MessageRepo Reactions Spec MembershipInv TableInv ReactionInv SystemInv.

Import MessageReactionRepository.

#[export] Instance message_by_id_ro i b : ReadOnly (MessageRepository.get_by_id i b).
Proof. apply query_ro. Qed.
#[export] Instance current_groups_ro i : ReadOnly (get_current_groups i).
Proof. apply query_ro. Qed.
#[export] Instance reaction_state_ro l u : ReadOnly (get_reaction_state_for_messages l u).
Proof. apply query_ro. Qed.
#[export] Instance build_reaction_event_ro c m u a : ReadOnly (build_reaction_event c m u a).
Proof. unfold build_reaction_event. apply _. Qed.

Lemma wp_for_each {A} (f : A → M unit) x l w Q :
  wp (f x) w (λ r w', match r with Ok _ => wp (for_each l f) w' Q | Err e => Q (Err e) w' end) →
  wp (for_each (x :: l) f) w Q.
Proof. apply wp_bind. Qed.

(** ** Loops of the replacement *)

(** the session's store replaced, some clock reads later *)
Definition moved (t : nat) (s : store) (w : world) : world := at_tick t (w <| w_session := s |>).

Definition only_reactions (s s' : store) : Prop :=
  s' = s <| reactions := reactions s' |> <| reaction_counters := reaction_counters s' |>.

Lemma only_reactions_trans s1 s2 s3 :
  only_reactions s1 s2 → only_reactions s2 s3 → only_reactions s1 s3.
Proof. unfold only_reactions. intros -> ->. by destruct s1. Qed.

Lemma removed_only m u e now s o s' : removed m u e now s = (o, s') → only_reactions s s'.
Proof.
  destruct o as [n|].
  - intros (_ & cs & -> & _)%removed_Some. by destruct s.
  - unfold removed, only_reactions. destruct (reactions s !! _); [by destruct (bump_down _ _ _ _)|].
    intros [= <-]. by destruct s.
Qed.

Lemma added_only c m u e now s o s' : added c m u e now s = (o, s') → only_reactions s s'.
Proof.
  destruct o as [n|].
  - intros (_ & row & -> & _)%added_Some. by destruct s.
  - unfold added, only_reactions. destruct (reactions s !! _); [|by destruct (bump_up _ _ _ _ _)].
    intros [= <-]. by destruct s.
Qed.

(** what the removal of the reactions [l] of a user to a message does *)
Record removals (m : UUID) (u : Z) (l : list text) (s s' : store) : Prop := {
  rm_only : only_reactions s s';
  rm_rows m' u' e : reactions s' !! (m', u', e)
    = if decide (m' = m ∧ u' = u ∧ e ∈ l) then None else reactions s !! (m', u', e);
  rm_counters e : e ∉ l → reaction_counters s' !! (m, e) = reaction_counters s !! (m, e);
  rm_distinct : distinct_emojis s' m ≤ distinct_emojis s m;
  rm_steps priv : sys_steps priv s s';
}.

Lemma removals_nil m u s : removals m u [] s s.
Proof.
  split; [by destruct s| |done|done|intros; apply rtc_refl].
  intros m' u' e. rewrite decide_False; [done|]. intros (_ & _ & H). by apply elem_of_nil in H.
Qed.

Lemma removal_one m u e now s o s' :
  removed m u e now s = (o, s') → removals m u [e] s s'.
Proof.
  intros Hr. pose proof (removed_only _ _ _ _ _ _ _ Hr) as Honly. destruct o as [n|].
  - pose proof Hr as Hr0. apply removed_Some in Hr as (_ & cs & E & Hcs).
    split; [done|..].
    + intros m' u' e'. rewrite E. cbn. case_decide as Hd.
      * destruct Hd as (-> & -> & ->%list_elem_of_singleton). apply lookup_delete_eq.
      * apply lookup_delete_ne. intros [= -> -> ->]. apply Hd. split_and!; try done. by left.
    + intros e' Hne%not_elem_of_cons. rewrite E. cbn.
      destruct (reaction_counters s !! (m, e)) as [row|]; [|by subst].
      destruct (_ <=? 0); [subst; apply lookup_delete_ne; naive_solver|].
      destruct Hcs as (row' & _ & ->). apply lookup_insert_ne. naive_solver.
    + rewrite E. unfold distinct_emojis at 1. cbn.
      destruct (reaction_counters s !! (m, e)) as [row|] eqn:Hk; [|by subst].
      destruct (_ <=? 0); [subst; apply distinct_drop|].
      destruct Hcs as (row' & _ & ->). etrans; [apply distinct_put|].
      rewrite decide_False by (rewrite Hk; naive_solver). lia.
    + intros priv. apply rtc_once, sys_reaction. by eapply step_unreact.
  - unfold removed in Hr. destruct (reactions s !! _) eqn:Hk; [by destruct (bump_down _ _ _ _)|].
    injection Hr as <-. split; [done| |done|done|intros; apply rtc_refl].
    intros m' u' e'. case_decide as Hd; [|done].
    by destruct Hd as (-> & -> & ->%list_elem_of_singleton).
Qed.

Lemma removals_cons m u e l s1 s2 s3 :
  removals m u [e] s1 s2 → removals m u l s2 s3 → removals m u (e :: l) s1 s3.
Proof.
  intros [] []. split.
  - by eapply only_reactions_trans.
  - intros m' u' e'. rewrite rm_rows1, rm_rows0.
    repeat case_decide; rewrite ?list_elem_of_singleton, ?elem_of_cons in *; naive_solver.
  - intros e' [? ?]%not_elem_of_cons. rewrite rm_counters1 by done. apply rm_counters0. set_solver.
  - lia.
  - intros priv. by eapply sys_steps_trans, rm_steps1.
Qed.

Lemma wp_removals m u l : ∀ w (Q : result error unit → world → Prop),
  (∀ s' t, removals m u l (w_session w) s' → Q (Ok tt) (moved t s' w)) →
  wp (for_each l (λ e, _ ← remove_reaction m u e; mret tt)) w Q.
Proof.
  induction l as [|e l IH]; intros w Q HQ.
  - apply wp_ret. specialize (HQ (w_session w) (w_ticks w) (removals_nil _ _ _)). by destruct w.
  - apply wp_for_each, wp_bind, wp_bind, wp_now. intros n t _. apply wp_execute_returning.
    intros o s Ho. apply wp_ret, IH. intros s' t' Hs'. apply (HQ s').
    eapply removals_cons; [by eapply removal_one|exact Hs'].
Qed.

(** what the addition of the reactions [l] does *)
Record additions (m : UUID) (u : Z) (l : list text) (s s' : store) : Prop := {
  ad_only : only_reactions s s';
  ad_in e : e ∈ l → is_Some (reactions s' !! (m, u, e));
  ad_out m' u' e : ¬ (m' = m ∧ u' = u ∧ e ∈ l) → reactions s' !! (m', u', e) = reactions s !! (m', u', e);
  ad_steps priv : sys_steps priv s s';
}.

(** groups that [l] would open on the message *)
Definition new_groups (s : store) (m : UUID) (l : list text) : Z :=
  len (filter (λ e, reaction_counters s !! (m, e) = None) l).

(** there is room for [l] on the message, for the user *)
Record room (c m : UUID) (u : Z) (l : list text) (s : store) : Prop := {
  ro_live : ∃ x, MessageRepository.live_message s m = Some x ∧ Message.chat_id x = c;
  ro_nodup : NoDup l;
  ro_fresh e : e ∈ l → e ∈ chat_config.DEFAULT_REACTIONS ∧ reactions s !! (m, u, e) = None;
  ro_user : len (user_emojis s m u) + len l ≤ chat_config.MAX_REACTIONS_PER_USER_PER_MESSAGE;
  ro_groups : distinct_emojis s m + new_groups s m l
              ≤ chat_config.MAX_DISTINCT_REACTIONS_PER_MESSAGE;
}.

Lemma additions_nil m u s : additions m u [] s s.
Proof.
  split; [by destruct s| |done|intros; apply rtc_refl]. intros e H. by apply elem_of_nil in H.
Qed.

Lemma added_fresh c m u e now s :
  reactions s !! (m, u, e) = None → ∃ n s', added c m u e now s = (Some n, s').
Proof.
  intros Hn. unfold added. rewrite Hn. destruct (bump_up c m e now _) as [s' n]. eauto.
Qed.

Lemma live_message_only s s' m :
  only_reactions s s' → MessageRepository.live_message s' m = MessageRepository.live_message s m.
Proof. intros ->. done. Qed.

Lemma new_groups_cons s m e l :
  new_groups s m (e :: l)
  = (if decide (reaction_counters s !! (m, e) = None) then 1 else 0) + new_groups s m l.
Proof. unfold new_groups, len. rewrite filter_cons. case_decide; simpl; lia. Qed.

Lemma new_groups_ext s s' m l :
  (∀ e, e ∈ l → reaction_counters s' !! (m, e) = reaction_counters s !! (m, e)) →
  new_groups s' m l = new_groups s m l.
Proof.
  induction l as [|e l IH]; intros He; [done|].
  rewrite !new_groups_cons, IH, (He e) by set_solver. done.
Qed.

Lemma addition_step priv c m u e l now n s s' :
  room c m u (e :: l) s → added c m u e now s = (Some n, s') →
  sys_step priv s s' ∧ room c m u l s' ∧ only_reactions s s'
  ∧ is_Some (reactions s' !! (m, u, e))
  ∧ ∀ k, k ≠ (m, u, e) → reactions s' !! k = reactions s !! k.
Proof.
  intros [(x & Hx & Hc) Hnd Hf Hu Hg] Ha. destruct (Hf e ltac:(by left)) as [He Hn].
  apply list.NoDup_cons in Hnd as [Hel Hnd]. rewrite new_groups_cons in Hg.
  assert (len (e :: l) = len l + 1) as Hlen by (unfold len; simpl; lia). rewrite Hlen in Hu.
  assert (0 ≤ len l) as Hl by (unfold len; lia).
  assert (0 ≤ new_groups s m l) as Hng by (unfold new_groups, len; lia).
  pose proof (added_only _ _ _ _ _ _ _ _ Ha) as Honly.
  pose proof Ha as Ha0. apply added_Some in Ha as (_ & row & E & _).
  assert (∀ k, k ≠ (m, u, e) → reactions s' !! k = reactions s !! k) as Hrows.
  { intros k Hk. rewrite E. by apply lookup_insert_ne. }
  split_and!; try done.
  - apply sys_reaction. eapply step_react; try done; [lia|].
    destruct (reaction_counters s !! (m, e)) eqn:Hk; [by left; eauto|right].
    rewrite decide_True in Hg by done. lia.
  - split; try done.
    + exists x. by rewrite (live_message_only s).
    + intros e' He'. split; [apply Hf; by right|]. rewrite Hrows; [apply Hf; by right|].
      intros [= ->]. done.
    + rewrite user_emojis_rows in Hu |- *. rewrite E. unfold user_rows at 1; cbn.
      pose proof (user_rows_added s m u e (MessageReaction.Mk c now) m u) as Hr.
      rewrite decide_True in Hr by done. lia.
    + rewrite (new_groups_ext s).
      2:{ intros e' He'. rewrite E. cbn. apply lookup_insert_ne. intros [= ->]. done. }
      rewrite E. unfold distinct_emojis at 1; cbn.
      pose proof (distinct_put s m e row m) as Hd. repeat case_decide; try lia; tauto.
  - rewrite E. cbn. rewrite lookup_insert_eq. eauto.
Qed.

Lemma wp_additions c m u l : ∀ w (Q : result error unit → world → Prop),
  room c m u l (w_session w) →
  (∀ s' t, additions m u l (w_session w) s' → Q (Ok tt) (moved t s' w)) →
  wp (for_each l (λ e, _ ← add_reaction c m u e; mret tt)) w Q.
Proof.
  induction l as [|e l IH]; intros w Q Hroom HQ.
  - apply wp_ret. specialize (HQ (w_session w) (w_ticks w) (additions_nil _ _ _)). by destruct w.
  - apply wp_for_each, wp_bind, wp_bind, wp_now. intros now t _. apply wp_execute_returning.
    intros o s Ho. destruct (added_fresh c m u e now (w_session w)) as (n & s0 & Ha).
    { apply (ro_fresh _ _ _ _ _ Hroom). by left. }
    cbn in Ho. rewrite Ha in Ho. injection Ho as <- <-.
    assert (∀ priv, _) as Hstep by (intros priv; exact (addition_step priv _ _ _ _ _ _ _ _ _ Hroom Ha)).
    destruct (Hstep false) as (_ & Hroom' & Honly & Hin & Hout).
    apply wp_ret, IH; [done|]. intros s' t' [H1 H2 H3 H4]. apply (HQ s'). split.
    + by eapply only_reactions_trans.
    + intros e' [->|He']%elem_of_cons; [|by apply H2].
      destruct (decide (e ∈ l)) as [|Hnin]; [by apply H2|]. rewrite H3 by naive_solver. exact Hin.
    + intros m' u' e' Hne. rewrite H3 by (rewrite elem_of_cons in Hne; naive_solver). apply Hout.
      intros [= -> -> ->]. apply Hne. split_and!; try done. by left.
    + intros priv. eapply rtc_l; [apply (Hstep priv)|apply H4].
Qed.

(** ** The handlers *)
Lemma wp_reacting k i u w (Q : result error (Chat.t * ChatMember.t) → world → Prop) :
  (∀ c m x t, live_row w k c → members (w_session w) !! (k, u) = Some m →
     MessageRepository.live_message (w_session w) i = Some x → Message.chat_id x = k →
     Q (Ok (c, m)) (at_tick t w)) →
  (∀ e t, Q (Err e) (at_tick t w)) →
  wp (reacting_member k i u) w Q.
Proof.
  intros HS HE. assert (∀ e, Q (Err e) w) as HE0 by (intros e; rewrite (at_tick_self w); apply HE).
  apply wp_bind, wp_get_chat_and_member; [|by auto]. intros c m Hl Hm.
  apply wp_bind, wp_now. intros n t _. apply wp_bind, wp_guard_not; intros _; [|apply HE].
  apply wp_bind, wp_query. change (λ m : Message.t, m) with (@id Message.t). rewrite option_fmap_id.
  apply wp_bind, wp_or_raise; [|intros _; apply HE]. intros x Hx.
  apply wp_bind, wp_guard_not; [|intros _; apply HE]. intros Hc. bool_simpl.
  apply wp_ret. by eapply HS.
Qed.

Lemma validate_emoji_default c e : ReactionPolicy.validate_emoji c e = Ok tt → e ∈ chat_config.DEFAULT_REACTIONS.
Proof.
  unfold ReactionPolicy.validate_emoji. intros H. result_inv H. bool_simpl.
  destruct (decide (e ∈ chat_config.DEFAULT_REACTIONS)); [done|]. tauto.
Qed.

(** what all three do once the table changed *)
Lemma wp_reaction_event c m u a w (Q : result error unit → world → Prop) :
  (∀ ids es w', w_database w' = with_events ids es (w_session w) → w_session w' = w_database w' →
     Q (Ok tt) w') →
  (∀ e t, Q (Err e) (at_tick t w)) →
  wp (e ← build_reaction_event c m u a; _ ← publish [e]; commit) w Q.
Proof.
  intros HS HE. apply wp_bind, (wp_read_only (build_reaction_event c m u a)). intros [e|err] t _; [|apply HE].
  apply wp_bind, wp_publish. intros ids n. apply wp_commit. by eapply HS.
Qed.

Lemma SetReaction_refines priv cmd w : opened w → sys_refines priv (SetReaction.handle cmd) w.
Proof.
  intros [Hs Heq]. unfold sys_refines, transaction, SetReaction.handle.
  apply wp_bind, wp_reacting; [|done]. intros c m x t Hl Hm Hx Hc. cbn iota beta.
  apply wp_bind, wp_now. intros n t' _. apply wp_bind, wp_lift; [|done]. intros [] Hv.
  apply result_bind_Ok in Hv as (_ & _ & Hv%validate_emoji_default).
  apply wp_bind, wp_query. cbn.
  case_bool_decide as Hin.
  - apply wp_bind, wp_bind, wp_guard_not; [|done]. intros Hu. apply wp_bind, wp_query, wp_guard_not; [|done].
    intros Hd. bool_simpl. cbn in Hd. apply wp_bind, wp_bind, wp_now. intros now t'' _.
    apply wp_execute_returning. intros o s Ho. cbn in Ho. destruct o as [k|]; [|apply rtc_refl].
    apply wp_reaction_event; [|done]. intros ids es w' -> _. rewrite <- Heq. cbn. apply sys_emit, rtc_once.
    apply sys_reaction. by eapply step_react; eauto.
  - apply wp_bind, wp_ret, wp_bind, wp_bind, wp_now. intros now t'' _. apply wp_execute_returning.
    intros o s Ho. unfold added in Ho.
    assert (is_Some (reactions (w_session w) !! (SetReaction.message_id cmd,
      jwt_id (SetReaction.user_jwt_data cmd), SetReaction.emoji cmd))) as [r Hr].
    { by apply elem_of_user_emojis. }
    cbn in Ho. rewrite Hr in Ho. injection Ho as <- <-. apply rtc_refl.
Qed.

Lemma RemoveReaction_refines priv cmd w : opened w → sys_refines priv (RemoveReaction.handle cmd) w.
Proof.
  intros [Hs Heq]. unfold sys_refines, transaction, RemoveReaction.handle.
  apply wp_bind, wp_reacting; [|done]. intros c m x t Hl Hm Hx Hc. cbn iota beta.
  apply wp_bind, wp_bind, wp_now. intros now t' _. apply wp_execute_returning.
  intros o s Ho. cbn in Ho. destruct o as [k|]; [|apply rtc_refl].
  apply wp_reaction_event; [|done]. intros ids es w' -> _. rewrite <- Heq. cbn. apply sys_emit, rtc_once.
  apply sys_reaction. by eapply step_unreact.
Qed.

Lemma NoDup_user_emojis s m u : NoDup (user_emojis s m u).
Proof.
  unfold user_emojis. apply NoDup_fmap_2_strong.
  - intros [[[m1 u1] e1] r1] [[[m2 u2] e2] r2].
    intros [[-> ->] H1%elem_of_map_to_list]%list_elem_of_filter
      [[-> ->] H2%elem_of_map_to_list]%list_elem_of_filter. cbn. intros ->. congruence.
  - apply list.NoDup_filter, NoDup_map_to_list.
Qed.

(** the groups a message shows are the counters it has *)
Lemma current_groups_counters s m e :
  reactions_ok s → e ∈ rg_emoji <$> current_groups s m ↔ is_Some (reaction_counters s !! (m, e)).
Proof.
  intros Hok. rewrite list_elem_of_fmap. unfold current_groups. split.
  - intros (g & -> & Hg). rewrite merge_sort_Permutation, list_elem_of_fmap in Hg.
    destruct Hg as ([[m' e'] row] & -> & [[Hm _] Hk%elem_of_map_to_list]%list_elem_of_filter).
    cbn in *. subst. eauto.
  - intros [row Hk]. exists (MkReactionGroup e (MessageReactionCounter.count row)). split; [done|].
    rewrite merge_sort_Permutation, list_elem_of_fmap. exists ((m, e), row). split; [done|].
    apply list_elem_of_filter. split; [|by apply elem_of_map_to_list].
    pose proof (rc_count _ Hok m e) as Hc. rewrite Hk in Hc. split; [done|]. apply Hc.
Qed.

(** ** Replacing a user's reactions *)
Lemma wp_validate_emojis c l w (Q : result error unit → world → Prop) :
  (Forall (λ e, e ∈ chat_config.DEFAULT_REACTIONS) l → Q (Ok tt) w) → (∀ e, Q (Err e) w) →
  wp (for_each l (λ e, lift (ReactionPolicy.validate_emoji c e))) w Q.
Proof.
  induction l as [|e l IH]; intros HS HE; [by apply HS|].
  apply wp_for_each, wp_lift; [|by auto]. intros [] Hv%validate_emoji_default.
  apply IH; [|done]. intros Hl. apply HS. by constructor.
Qed.

(** The checks of [SetReactions] before it writes *)
Definition admissible (s : store) (m : UUID) (u : Z) (target : list text) : Prop :=
  let fresh : gset text := list_to_set target ∖ list_to_set (user_emojis s m u) in
  let open : gset text := list_to_set (rg_emoji <$> current_groups s m) in
  fresh = ∅ ∨
  Forall (λ e, e ∈ chat_config.DEFAULT_REACTIONS) target
  ∧ len target ≤ chat_config.MAX_REACTIONS_PER_USER_PER_MESSAGE
  ∧ distinct_emojis s m + Z.of_nat (size (fresh ∖ open))
    ≤ chat_config.MAX_DISTINCT_REACTIONS_PER_MESSAGE.

Lemma new_groups_size (s : store) (m : UUID) (X : gset text) :
  reactions_ok s →
  new_groups s m (elements X)
  = Z.of_nat (size (X ∖ list_to_set (rg_emoji <$> current_groups s m))).
Proof.
  intros Hok. unfold new_groups, len. f_equal.
  rewrite <- (size_list_to_set (C := gset text)) by apply list.NoDup_filter, NoDup_elements.
  f_equal. apply set_eq. intros e.
  rewrite elem_of_list_to_set, list_elem_of_filter, elem_of_elements, elem_of_difference,
    elem_of_list_to_set, current_groups_counters by done.
  rewrite eq_None_not_Some. tauto.
Qed.

Lemma user_emojis_after s s1 m u l e :
  removals m u l s s1 → e ∈ user_emojis s1 m u ↔ e ∈ user_emojis s m u ∧ e ∉ l.
Proof.
  intros Hr. rewrite !elem_of_user_emojis, (rm_rows _ _ _ _ _ Hr). case_decide.
  - split; [by intros []|]. naive_solver.
  - naive_solver.
Qed.

Lemma room_after s s1 c m u target x :
  reactions_ok s → reactions_ok s1 → NoDup target → admissible s m u target →
  MessageRepository.live_message s m = Some x → Message.chat_id x = c →
  let current : gset text := list_to_set (user_emojis s m u) in
  removals m u (elements (current ∖ list_to_set target)) s s1 →
  room c m u (elements ((list_to_set target : gset text) ∖ current)) s1.
Proof.
  intros Hok Hok1 Hnd Hadm Hx Hc current Hrm.
  pose proof (λ e, user_emojis_after _ _ _ _ _ e Hrm) as Hmine. pose proof Hrm as [Ho Hr Hcs Hd _].
  set (X := (list_to_set target : gset text) ∖ current).
  assert (∀ e, e ∈ elements X → e ∈ target ∧ e ∉ user_emojis s m u) as HX.
  { intros e. unfold X, current. rewrite elem_of_elements. set_solver. }
  split.
  - exists x. by rewrite (live_message_only s).
  - apply NoDup_elements.
  - intros e He. destruct (HX e He) as [Ht Hn]. split.
    + destruct Hadm as [E|(Hall & _)].
      * change (X = ∅) in E. rewrite E, elements_empty in He. by apply elem_of_nil in He.
      * rewrite list.Forall_forall in Hall. auto.
    + apply eq_None_not_Some. rewrite <- elem_of_user_emojis, Hmine. tauto.
  - destruct Hadm as [E|(_ & Hlen & _)].
    + change (X = ∅) in E. rewrite E, elements_empty. pose proof (rc_user _ Hok1 m u).
      unfold len in *; simpl. lia.
    + etrans; [|exact Hlen]. unfold len. rewrite <- Nat2Z.inj_add, <- length_app. apply Nat2Z.inj_le.
      apply submseteq_length, NoDup_submseteq.
      * apply list.NoDup_app. split_and!; [apply NoDup_user_emojis| |apply NoDup_elements].
        intros e [He _]%Hmine [_ Hn]%HX. exact (Hn He).
      * intros e [He|He]%elem_of_app; [|by destruct (HX e He)]. apply Hmine in He as [He Hn].
        rewrite elem_of_elements in Hn. unfold current in Hn.
        destruct (decide (e ∈ target)) as [|Hnt]; [done|]. destruct Hn.
        by rewrite elem_of_difference, !elem_of_list_to_set.
  - rewrite (new_groups_ext s).
    2:{ intros e He%HX. apply Hcs. rewrite elem_of_elements. unfold current. set_solver. }
    rewrite new_groups_size by done. destruct Hadm as [E|(_ & _ & Hg)].
    + change (X = ∅) in E.
      assert (X ∖ list_to_set (rg_emoji <$> current_groups s m) = ∅) as -> by set_solver.
      rewrite size_empty.
      pose proof (rc_distinct _ Hok m). lia.
    + fold current X in Hg. lia.
Qed.

(** after the command, the user's reactions to the message are those asked for
    and every other reaction is as before *)
Definition replaced (m : UUID) (u : Z) (target : list text) (s s' : store) : Prop :=
  ∀ m' u' e, is_Some (reactions s' !! (m', u', e)) ↔
    if decide (m' = m ∧ u' = u) then e ∈ target else is_Some (reactions s !! (m', u', e)).

Lemma replaced_by s s1 s2 m u target :
  let current : gset text := list_to_set (user_emojis s m u) in
  removals m u (elements (current ∖ list_to_set target)) s s1 →
  additions m u (elements ((list_to_set target : gset text) ∖ current)) s1 s2 →
  replaced m u target s s2.
Proof.
  intros current [_ Hr _ _ _] [_ Hin Hout _] m' u' e.
  assert (e ∈ elements current ↔ is_Some (reactions s !! (m, u, e))) as Hcur.
  { unfold current. rewrite elem_of_elements, elem_of_list_to_set. apply elem_of_user_emojis. }
  rewrite elem_of_elements in Hcur.
  destruct (decide (e ∈ elements ((list_to_set target : gset text) ∖ current))) as [He|He].
  - case_decide as Hd.
    + destruct Hd as [-> ->]. split; [|auto]. rewrite elem_of_elements in He. set_solver.
    + rewrite Hout, Hr by naive_solver. rewrite decide_False by naive_solver. done.
  - rewrite Hout, Hr by naive_solver. rewrite elem_of_elements in He.
    rewrite elem_of_difference, elem_of_list_to_set in He.
    assert (e ∈ elements (current ∖ list_to_set target) ↔ e ∈ current ∧ e ∉ target) as Hrem.
    { by rewrite elem_of_elements, elem_of_difference, elem_of_list_to_set. }
    case_decide as Hd.
    + destruct Hd as (-> & -> & [? ?]%Hrem). rewrite decide_True by done.
      split; [by intros []|done].
    + case_decide as Hd2; [|done]. destruct Hd2 as [-> ->]. rewrite <- Hcur.
      destruct (decide (e ∈ target)), (decide (e ∈ current)); naive_solver.
Qed.

Lemma wp_set_reactions c m u target x w (Q : result error bool → world → Prop) :
  sound (w_session w) → NoDup target → admissible (w_session w) m u target →
  MessageRepository.live_message (w_session w) m = Some x → Message.chat_id x = c →
  (∀ b s' t, (∀ priv, sys_steps priv (w_session w) s') → replaced m u target (w_session w) s' →
     (b = false → s' = w_session w) → Q (Ok b) (moved t s' w)) →
  wp (set_reactions c m u target) w Q.
Proof.
  intros Hs Hnd Hadm Hx Hc HQ. apply wp_bind, wp_query. cbv zeta.
  set (current := (list_to_set (user_emojis (w_session w) m u) : gset text)).
  destruct (_ && _) eqn:Hb.
  - bool_simpl. specialize (HQ false (w_session w) (w_ticks w)).
    replace (moved _ _ w) with w in HQ by (by destruct w). apply wp_ret, HQ; [|clear HQ|done].
    { intros. apply rtc_refl. }
    apply (replaced_by _ (w_session w)); fold current.
    + rewrite H0, elements_empty. apply removals_nil.
    + rewrite H, elements_empty. apply additions_nil.
  - apply wp_bind, wp_removals. intros s1 t1 Hrm. apply wp_bind.
    assert (sound s1) as Hs1 by (eapply (sound_steps false), (rm_steps _ _ _ _ _ Hrm); done).
    apply (wp_additions c m u).
    + eapply (room_after (w_session w)); eauto with msgr.
    + intros s2 t2 Had. apply wp_ret. refine (HQ true s2 t2 _ _ _); [|by eapply replaced_by|done].
      intros priv. eapply sys_steps_trans; [apply (rm_steps _ _ _ _ _ Hrm)|apply (ad_steps _ _ _ _ _ Had)].
Qed.

(** the checks of the handler make the replacement admissible *)
Lemma wp_admissible c member m u target w (Q : result error unit → world → Prop) :
  (∀ t, admissible (w_session w) m u target → Q (Ok tt) (at_tick t w)) →
  (∀ e t, Q (Err e) (at_tick t w)) →
  wp (if bool_decide (target = []) then mret tt
      else
        n ← now_utc;
        _ ← lift (ReactionPolicy.ensure_can_react n c member);
        _ ← for_each target (λ e, lift (ReactionPolicy.validate_emoji c e));
        _ ← guard_not (chat_config.MAX_REACTIONS_PER_USER_PER_MESSAGE <? len target)
              too_many_for_user;
        mine ← list_user_emojis m u;
        let new_emojis := (list_to_set target : gset text) ∖ list_to_set mine in
        if bool_decide (new_emojis = ∅) then mret tt
        else
          distinct ← count_distinct_emojis m;
          groups ← get_current_groups m;
          let existing_groups : gset text := list_to_set (rg_emoji <$> groups) in
          let added_distinct := Z.of_nat (size (new_emojis ∖ existing_groups)) in
          guard_not (chat_config.MAX_DISTINCT_REACTIONS_PER_MESSAGE <? distinct + added_distinct)
            too_many_on_message) w Q.
Proof.
  intros HS HE. case_bool_decide as Ht.
  { apply wp_ret. rewrite (at_tick_self w). apply HS. left. subst. set_solver. }
  apply wp_bind, wp_now. intros n t _. apply wp_bind, wp_lift; [intros _ _|intros; apply HE].
  apply wp_bind, wp_validate_emojis; [intros Hall|intros; apply HE].
  apply wp_bind, wp_guard_not; intros Hu; [|apply HE]. apply wp_bind, wp_query. cbv zeta.
  case_bool_decide as Hn; [by apply wp_ret, HS; left|].
  apply wp_bind, wp_query, wp_bind, wp_query, wp_guard_not; intros Hg; [|apply HE].
  bool_simpl. apply HS. right. done.
Qed.

(** what a successful [SetReactions] does *)
Lemma SetReactions_runs priv cmd w :
  opened w →
  transaction (SetReactions.handle cmd) w (λ _ w',
    sys_steps priv (w_database w) (w_database w')
    ∧ replaced (SetReactions.message_id cmd) (jwt_id (SetReactions.user_jwt_data cmd))
        (SetReactions.emojis cmd) (w_database w) (w_database w')).
Proof.
  intros [Hs Heq]. unfold transaction, SetReactions.handle. cbv zeta.
  set (target := fromkeys (SetReactions.emojis cmd)).
  assert (∀ s s' m u, replaced m u target s s' → replaced m u (SetReactions.emojis cmd) s s') as Htarget.
  { intros s s' m u Hr m' u' e. specialize (Hr m' u' e). case_decide; [|done].
    unfold target in Hr. by rewrite elem_of_fromkeys in Hr. }
  apply wp_bind, wp_reacting; [|done]. intros c m x t Hl Hm Hx Hc. cbn iota beta.
  apply wp_bind, wp_admissible; [|done]. intros t1 Hadm.
  apply wp_bind, (wp_set_reactions _ _ _ _ x); try done; [apply NoDup_fromkeys|].
  intros b s' t2 Hsteps Hrep Hsame. cbn in Hsteps, Hrep, Hsame. rewrite Heq in Hsteps, Hrep, Hsame.
  destruct b; cbn [negb].
  - apply wp_reaction_event; [|done]. intros ids es w' -> _. cbn. split; [apply sys_emit, Hsteps|].
    apply Htarget. exact Hrep.
  - apply wp_ret. cbn. rewrite Hsame in Hrep by done. split; [apply rtc_refl|auto].
Qed.

Lemma SetReactions_refines priv cmd w : opened w → sys_refines priv (SetReactions.handle cmd) w.
Proof.
  intros Ho. eapply wp_mono; [by apply (SetReactions_runs priv)|]. by intros [] w'; [intros []|].
Qed.
