(* ===== verification/ReadSpec.v ===== *)
(** Read receipts: cursors move only forward, from the queue to the table, and
    none is lost when a flush fails. *)
From S2P Require Import Prelude Config Events MemberModel MessageModel ChatModel Store Wp Rbac Access ChatRepo ChatWp ReadReceipts Spec MembershipInv MembershipSpec TableInv ReactionInv SystemInv.

Import ReadReceiptRepository ReadReceiptCoalesceQueue.

(** ** The table *)

(** the cursor a user has reached *)
Definition receipt (s : store) (key : read_key) : option Z :=
  ReadReceipt.last_read_message_seq <$> read_receipts s !! key.

Definition further (o : option Z) (n : Z) : Z := from_option (λ m, Z.max m n) n o.

Lemma upsert_receipt key n s key' :
  receipt (upsert key n s).2 key' =
    if decide (key' = key) then Some (further (receipt s key) n) else receipt s key'.
Proof.
  unfold upsert, receipt, further.
  destruct (read_receipts s !! key) as [r|] eqn:Hk; [destruct (_ <? n) eqn:Hl|]; cbn; bool_simpl;
    case_decide; subst; simplify_map_eq/=; try done; f_equal; lia.
Qed.

Lemma upsert_advanced key n s :
  (upsert key n s).1 = true ↔ receipt (upsert key n s).2 key ≠ receipt s key.
Proof.
  rewrite upsert_receipt, decide_True by done. unfold upsert, receipt, further.
  destruct (read_receipts s !! key) as [r|]; [destruct (_ <? n) eqn:Hl|]; cbn; bool_simpl;
    split; try done; intros H; try (intros [= E]); try lia; destruct H; f_equal; lia.
Qed.

(** where a list of cursors takes the cursor [o] of [key] *)
Definition reach (key : read_key) : option Z → list (UUID * Z * Z) → option Z :=
  foldl (λ o '(c, u, n), if decide (key = (c, u)) then Some (further o n) else o).

Lemma upsert_many_receipt cursors : ∀ s key,
  receipt (upsert_many cursors s).2 key = reach key (receipt s key) cursors.
Proof.
  induction cursors as [|[[c u] n] rest IH]; intros s key; [done|].
  cbn [upsert_many]. pose proof (upsert_receipt (c, u) n s key) as Hu.
  destruct (upsert (c, u) n s) as [a s1]. cbn in Hu. specialize (IH s1 key).
  destruct (upsert_many rest s1) as [keys s2]. cbn in *. rewrite IH, Hu.
  case_decide; subst; done.
Qed.

(** [o] is at least as far as [n] *)
Definition at_least (o : option Z) (n : Z) : Prop := ∃ m, o = Some m ∧ n ≤ m.

Lemma reach_from key cursors : ∀ o n, at_least o n → at_least (reach key o cursors) n.
Proof.
  induction cursors as [|[[c u] n'] rest IH]; intros o n Ho; [done|]. cbn. apply IH.
  case_decide; [|done]. destruct Ho as (m & -> & ?). eexists. split; [done|]. cbn. lia.
Qed.

Lemma reach_covers cursors c u n : ∀ o,
  (c, u, n) ∈ cursors → at_least (reach (c, u) o cursors) n.
Proof.
  induction cursors as [|[[c' u'] n'] rest IH]; intros o; [by intros ?%elem_of_nil|].
  intros [[= -> -> ->]|Hin]%elem_of_cons; cbn; [|by apply IH].
  rewrite decide_True by done. apply reach_from. eexists. split; [done|].
  destruct o; cbn; lia.
Qed.

(** the keys reported as advanced are those whose cursor moved *)
Lemma upsert_many_advanced cursors : ∀ s key,
  key ∈ (upsert_many cursors s).1 ↔ receipt (upsert_many cursors s).2 key ≠ receipt s key.
Proof.
  induction cursors as [|[[c u] n] rest IH]; intros s key; [cbn; set_solver|].
  rewrite upsert_many_receipt. cbn [upsert_many].
  pose proof (upsert_receipt (c, u) n s key) as Hu. pose proof (upsert_advanced (c, u) n s) as Ha.
  pose proof (upsert_receipt (c, u) n s (c, u)) as Hcu. rewrite decide_True in Hcu by done.
  destruct (upsert (c, u) n s) as [a s1]. cbn in Hu, Ha, Hcu. specialize (IH s1 key).
  rewrite upsert_many_receipt, Hu in IH. destruct (upsert_many rest s1) as [keys s2]. cbn in *.
  destruct (decide (key = (c, u))) as [->|Hne]; [|destruct a; set_solver].
  destruct a.
  - split; [intros _|set_solver]. intros Hr. destruct Ha as [Ha _]. specialize (Ha eq_refl).
    destruct (reach_from (c, u) rest (Some (further (receipt s (c, u)) n)) (further (receipt s (c, u)) n))
      as (m & Hm & Hle); [by eexists|].
    rewrite Hm in Hr. rewrite Hcu, <- Hr in Ha. apply Ha. f_equal. rewrite <- Hr in Hle. cbn in *. lia.
  - assert (receipt s (c, u) = Some (further (receipt s (c, u)) n)) as E.
    { rewrite <- Hcu. symmetry. apply dec_stable. intros Hn. destruct Ha as [_ Ha].
      by specialize (Ha Hn). }
    rewrite <- E in *. exact IH.
Qed.

Lemma upsert_many_steps priv cursors : ∀ s, sys_steps priv s (upsert_many cursors s).2.
Proof.
  induction cursors as [|[[c u] n] rest IH]; intros s; [apply rtc_refl|]. cbn.
  pose proof (step_read s (c, u) n) as Hs. destruct (upsert (c, u) n s) as [a s1].
  specialize (IH s1). destruct (upsert_many rest s1). eapply rtc_l; [by apply sys_receipt|done].
Qed.

Lemma add_marks_steps priv marks : ∀ s, sys_steps priv s (foldl add_mark s marks).
Proof.
  induction marks as [|m marks IH]; intros s; [apply rtc_refl|]. cbn.
  eapply rtc_l; [apply sys_receipt, step_mark|apply IH].
Qed.

Lemma add_marks_receipts marks : ∀ s, read_receipts (foldl add_mark s marks) = read_receipts s.
Proof.
  induction marks as [|[[[c u] n] t] marks IH]; intros s; [done|]. cbn. rewrite IH. by case_match.
Qed.

(** ** The flusher *)
Abbreviation positions cursors :=
  ((λ c, (cur_chat_id c, cur_user_id c, cur_message_seq c)) <$> (cursors : list PendingReadCursor)).

(** what a flush that returns has committed *)
Record flushed (cursors : list PendingReadCursor) (w w' : world) : Prop := {
  fl_steps priv : sys_steps priv (w_database w) (w_database w');
  fl_receipt key : receipt (w_database w') key = reach key (receipt (w_database w) key) (positions cursors);
  fl_outbox : ∃ es, ob_payload <$> outbox (w_database w')
      = (ob_payload <$> outbox (w_database w)) ++ es
    ∧ es = (λ c, ReadedMessageEvent (cur_chat_id c) (cur_message_seq c) (cur_user_id c)) <$>
             filter (λ c, cur_support_read_event c = true
                          ∧ receipt (w_database w') (key_of c) ≠ receipt (w_database w) (key_of c))
               cursors;
  fl_queue : w_reads w' = w_reads w;
}.

Lemma upsert_many_outbox cursors : ∀ s, outbox (upsert_many cursors s).2 = outbox s.
Proof.
  induction cursors as [|[[c u] n] rest IH]; intros s; [done|]. cbn.
  assert (outbox (upsert (c, u) n s).2 = outbox s) as Hu by (unfold upsert; by repeat case_match).
  destruct (upsert (c, u) n s) as [a s1]. specialize (IH s1).
  destruct (upsert_many rest s1). cbn in *. congruence.
Qed.

Lemma add_marks_outbox marks : ∀ s, outbox (foldl add_mark s marks) = outbox s.
Proof.
  induction marks as [|[[[c u] n] t] marks IH]; intros s; [done|]. cbn. rewrite IH. by case_match.
Qed.

Lemma flush_runs cursors w :
  w_session w = w_database w →
  transaction (ReadReceiptFlusher.flush cursors) w (λ _ w', flushed cursors w w').
Proof.
  intros Heq. unfold transaction, ReadReceiptFlusher.flush. destruct cursors as [|c0 cs0] eqn:Ec.
  { apply wp_ret. split; [intros; apply rtc_refl|done| |done]. exists []. by rewrite app_nil_r. }
  rewrite <- Ec. assert (cursors ≠ []) as Hne by congruence. clear Ec c0 cs0.
  apply wp_bind. unfold mark_read_many. destruct (positions cursors) as [|p0 ps0] eqn:Ep.
  { by destruct cursors. }
  rewrite <- Ep. clear Ep p0 ps0. apply wp_execute_returning. intros advanced s1 Hs1.
  apply wp_bind, wp_execute, wp_bind, wp_publish. intros ids n. apply wp_bind, wp_commit, wp_ret.
  assert (s1 = (upsert_many (positions cursors) (w_session w)).2) as E1 by (by rewrite Hs1).
  assert (advanced = (upsert_many (positions cursors) (w_session w)).1) as Ea by (by rewrite Hs1).
  split; cbn.
  - intros priv. apply sys_emit. eapply sys_steps_trans; [|apply add_marks_steps].
    rewrite E1, <- Heq. apply upsert_many_steps.
  - intros key. unfold receipt at 1. cbn. rewrite add_marks_receipts, E1, <- Heq.
    apply upsert_many_receipt.
  - eexists. split; [|reflexivity]. rewrite add_marks_outbox, fmap_app, outbox_rows_payload.
    rewrite E1, upsert_many_outbox, Heq. f_equal. f_equal. apply list_filter_iff.
    intros c. rewrite Ea, Heq, upsert_many_advanced. unfold receipt at 3. cbn.
    rewrite add_marks_receipts. done.
  - done.
Qed.

(** ** The queue *)
Definition pending (q : ReadQueue) (key : read_key) : option Z := cur_message_seq <$> rq_pending q !! key.

(** Every pending cursor is filed under its own key and has a deadline. *)
Record queue_ok (q : ReadQueue) : Prop := {
  qo_key k c : rq_pending q !! k = Some c → key_of c = k;
  qo_due k : is_Some (rq_pending q !! k) ↔ is_Some (rq_due q !! k);
}.

Lemma enqueue_pending cursor d q k :
  pending (ENQUEUE_LUA cursor d q).2 k =
    if decide (k = key_of cursor) then Some (further (pending q k) (cur_message_seq cursor))
    else pending q k.
Proof.
  unfold ENQUEUE_LUA, pending, further.
  destruct (rq_pending q !! key_of cursor) as [c|] eqn:Hk; [destruct (_ <=? _) eqn:Hl|];
    bool_simpl; cbn; repeat case_match; cbn; case_decide; subst; simplify_map_eq/=; try done;
    f_equal; lia.
Qed.

(** a pending key keeps the deadline its first cursor got *)
Lemma enqueue_due cursor d q k :
  queue_ok q →
  rq_due (ENQUEUE_LUA cursor d q).2 !! k =
    if decide (k = key_of cursor) then Some (default d (rq_due q !! k)) else rq_due q !! k.
Proof.
  intros [_ Hdue]. specialize (Hdue (key_of cursor)). unfold ENQUEUE_LUA.
  destruct (rq_pending q !! key_of cursor) as [c|] eqn:Hk; [destruct (_ <=? _)|]; cbn;
    destruct (rq_due q !! key_of cursor) as [x|] eqn:Hx; cbn; case_decide; subst;
    simplify_map_eq/=; try done; destruct Hdue as [H1 H2]; exfalso;
    first [by destruct (H1 ltac:(eauto))|by destruct (H2 ltac:(eauto))].
Qed.

Lemma queue_ok_enqueue cursor d q : queue_ok q → queue_ok (ENQUEUE_LUA cursor d q).2.
Proof.
  intros Hq. pose proof (enqueue_due cursor d q) as Hd. pose proof (enqueue_pending cursor d q) as Hp.
  pose proof Hq as [Hkey Hdue]. split.
  - intros k c. unfold ENQUEUE_LUA. destruct (match _ with Some _ => _ | None => _ end); [by apply Hkey|].
    cbn. case_match; cbn; (intros [[<- <-]|[? ?]]%lookup_insert_Some; [done|by apply Hkey]).
  - intros k. rewrite Hd by done. specialize (Hp k). unfold pending in Hp.
    rewrite <- (fmap_is_Some cur_message_seq), Hp. case_decide; [by split; eauto|].
    by rewrite fmap_is_Some.
Qed.

(** ** Claiming *)
Lemma claim_splits now n q k c :
  queue_ok q → rq_pending q !! k = Some c →
  (c ∈ (CLAIM_DUE_LUA now n q).1 ∧ rq_pending (CLAIM_DUE_LUA now n q).2 !! k = None)
  ∨ rq_pending (CLAIM_DUE_LUA now n q).2 !! k = Some c.
Proof.
  intros Hq Hk. cbn. destruct (decide (k ∈ due_fields now n q)) as [Hin|Hout].
  - left. split; [apply list_elem_of_omap; eauto|]. apply map_lookup_filter_None. right. cbn. tauto.
  - right. by apply map_lookup_filter_Some.
Qed.

Lemma due_fields_deadline now n q k :
  k ∈ due_fields now n q → ∃ d, rq_due q !! k = Some d ∧ d ≤ now.
Proof.
  unfold due_fields. intros Hk%elem_of_take. destruct Hk as (i & Hi & _).
  apply list_elem_of_lookup_2, list_elem_of_fmap in Hi as ([k' d] & -> & Hd).
  rewrite merge_sort_Permutation, list_elem_of_filter, elem_of_map_to_list in Hd. naive_solver.
Qed.

Lemma queue_ok_claim now n q : queue_ok q → queue_ok (CLAIM_DUE_LUA now n q).2.
Proof.
  intros [Hkey Hdue]. split; cbn.
  - intros k c [Hk _]%map_lookup_filter_Some. auto.
  - intros k. unfold is_Some. setoid_rewrite map_lookup_filter_Some. cbn.
    specialize (Hdue k). unfold is_Some in Hdue. naive_solver.
Qed.

(** ** Requeueing and the worker *)
Lemma further_at_least o n m : at_least o m → at_least (Some (further o n)) m.
Proof. intros (k & -> & ?). eexists. split; [done|]. cbn. lia. Qed.

Lemma further_self o n : at_least (Some (further o n)) n.
Proof. eexists. split; [done|]. destruct o; cbn; lia. Qed.

(** what putting cursors back does to a world *)
Record requeued (cursors : list PendingReadCursor) (w w' : world) : Prop := {
  re_session : w_session w' = w_session w;
  re_database : w_database w' = w_database w;
  re_ok : queue_ok (w_reads w) → queue_ok (w_reads w');
  re_keeps k n : at_least (pending (w_reads w) k) n → at_least (pending (w_reads w') k) n;
  re_has c : c ∈ cursors → at_least (pending (w_reads w') (key_of c)) (cur_message_seq c);
}.

(** the queue after [enqueue], whatever the clock says *)
Lemma enqueue_run c u n ev marks w :
  ∃ at_ d, let r := ENQUEUE_LUA (MkCursor c u n ev at_ marks) d (w_reads w) in
    ∃ t, enqueue c u n ev marks w = (Ok r.1, w <| w_ticks := t |> <| w_reads := r.2 |>).
Proof.
  set (ms := w_clock w (w_ticks w) `quot` 1000).
  exists ms, (ms + chat_config.READ_RECEIPTS_COALESCE_WINDOW_MS). cbv zeta. exists (S (w_ticks w)).
  unfold enqueue, now_ms, eval_script, mbind, M_bind, now_utc, mret, M_ret. cbn. fold ms.
  by destruct (ENQUEUE_LUA _ _ _).
Qed.

Lemma requeue_run cursors : ∀ w, ∃ w', requeue cursors w = (Ok tt, w') ∧ requeued cursors w w'.
Proof.
  induction cursors as [|c cursors IH]; intros w.
  - exists w. split; [done|]. split; try done. intros c Hc. by apply elem_of_nil in Hc.
  - destruct (enqueue_run (cur_chat_id c) (cur_user_id c) (cur_message_seq c) (cur_support_read_event c)
      (cur_track_marks c) w) as (at_ & d & t & Hr). cbv zeta in Hr.
    set (c' := MkCursor _ _ _ _ at_ _) in Hr.
    set (w1 := w <| w_ticks := t |> <| w_reads := (ENQUEUE_LUA c' d (w_reads w)).2 |>) in Hr.
    destruct (IH w1) as (w' & Hw' & [H1 H2 H3 H4 H5]). exists w'. split.
    { unfold requeue in *. cbn [for_each]. unfold mbind, M_bind. rewrite Hr. cbn. exact Hw'. }
    pose proof (enqueue_pending c' d (w_reads w)) as Hp. change (key_of c') with (key_of c) in Hp.
    change (cur_message_seq c') with (cur_message_seq c) in Hp. split.
    + by rewrite H1.
    + by rewrite H2.
    + intros Hq. apply H3. by apply queue_ok_enqueue.
    + intros k n Hk. apply H4. cbn. rewrite Hp. case_decide; [by apply further_at_least|done].
    + intros x [->|Hx]%elem_of_cons; [|by apply H5]. apply H4. cbn. rewrite Hp, decide_True by done.
      apply further_self.
Qed.

(** A flusher that, when it returns, has committed the cursors, and when it
    raises has committed nothing; it does not touch the queue. *)
Definition sound_flusher (flush : list PendingReadCursor → M Z) : Prop :=
  ∀ cursors w, w_session w = w_database w →
    match flush cursors w with
    | (Ok _, w') => flushed cursors w w'
    | (Err _, w') => w_database w' = w_database w ∧ w_reads w' = w_reads w
    end.

Lemma flush_returns cursors w e w' : ReadReceiptFlusher.flush cursors w ≠ (Err e, w').
Proof.
  unfold ReadReceiptFlusher.flush. destruct cursors as [|c cs]; [done|].
  unfold mark_read_many, execute_returning, mbind, M_bind. csimpl.
  destruct (upsert _ _ _) as [b s0], (upsert_many (positions cs) s0) as [adv s].
  rewrite publish_run. done.
Qed.

Lemma flusher_sound : sound_flusher ReadReceiptFlusher.flush.
Proof.
  intros cursors w Heq. pose proof (flush_runs cursors w Heq) as Hf. unfold transaction, wp in Hf.
  destruct (ReadReceiptFlusher.flush cursors w) as [[n|e] w'] eqn:Hr; [done|].
  by apply flush_returns in Hr.
Qed.

(** the cursor [n] of [key] is held by the queue or by the table *)
Definition held (w : world) (key : read_key) (n : Z) : Prop :=
  at_least (pending (w_reads w) key) n ∨ at_least (receipt (w_database w) key) n.

Lemma claim_run w :
  ∃ now t, claim_due w =
    (Ok (CLAIM_DUE_LUA now chat_config.READ_RECEIPTS_COALESCE_MAX_KEYS_PER_TICK (w_reads w)).1,
     w <| w_ticks := t |>
       <| w_reads := (CLAIM_DUE_LUA now chat_config.READ_RECEIPTS_COALESCE_MAX_KEYS_PER_TICK (w_reads w)).2 |>).
Proof. eexists _, _. reflexivity. Qed.

Lemma in_positions c (cursors : list PendingReadCursor) :
  c ∈ cursors → (cur_chat_id c, cur_user_id c, cur_message_seq c) ∈ positions cursors.
Proof. intros Hc. apply list_elem_of_fmap. eauto. Qed.

Section mark_as_read.
Context `{R : RBACManager}.

(** What [MarkAsRead] does when it returns: the committed store is as it was,
    and the caller's cursor waits in the queue, never past the last message. *)
Lemma MarkAsRead_runs cmd w :
  transaction (MarkAsRead.handle cmd) w (λ _ w',
    w_database w' = w_database w ∧ ∃ c,
      chats (w_session w) !! MarkAsRead.chat_id cmd = Some c ∧
      ∀ k, pending (w_reads w') k =
        if decide (k = (MarkAsRead.chat_id cmd, jwt_id (MarkAsRead.user_jwt_data cmd)))
        then Some (further (pending (w_reads w) k) (Z.min (MarkAsRead.message_seq cmd) (Chat.seq_counter c)))
        else pending (w_reads w) k).
Proof.
  unfold transaction, MarkAsRead.handle. wp_steps.
  lazymatch goal with |- wp (enqueue ?c ?u ?n ?e ?m) ?w0 _ =>
    destruct (enqueue_run c u n e m w0) as (at_ & d & t' & Hr) end.
  unfold wp. rewrite Hr. cbn. split; [done|]. exists c. split; [done|]. intros k.
  exact (enqueue_pending (MkCursor _ _ _ _ _ _) _ _ k).
Qed.

Lemma MarkAsRead_refines priv cmd w : sys_refines priv (MarkAsRead.handle cmd) w.
Proof.
  eapply wp_mono; [apply MarkAsRead_runs|]. intros [b|e] w'; [|done]. intros [-> _]. apply rtc_refl.
Qed.
End mark_as_read.
