(* ===== verification/System.v ===== *)
(** The system: the requests of the chat module and the worker of the read queue, run one after the other over the committed store; and what no change of the system ever takes back: events in the outbox, chats, the place of a message, deletions, read cursors and read marks. *)
From S2P Require Import Prelude Config Events MemberModel InviteModel MessageModel ChatModel PrivacyModel Store Wp Rbac Access ChatRepo ChatWp PrivacyService InviteRepo MessageRepo ChatCommands InviteCommands MembershipCommands MessageCommands Reactions ReadReceipts Spec MembershipInv MembershipSpec TableInv ReactionInv SystemInv ChatSpec InviteSpec MessageSpec ReactionSpec ReadSpec.

Record grows (s s' : store) : Prop := {
  gr_outbox : outbox s `prefix_of` outbox s';
  gr_chat k c : chats s !! k = Some c → ∃ c', chats s' !! k = Some c'
    ∧ Chat.type c' = Chat.type c ∧ Chat.seq_counter c ≤ Chat.seq_counter c';
  gr_message k m : messages s !! k = Some m → ∃ m', messages s' !! k = Some m'
    ∧ Message.chat_id m' = Message.chat_id m ∧ Message.seq m' = Message.seq m
    ∧ Message.author_id m' = Message.author_id m ∧ (Message.is_deleted m = true → m' = m);
  gr_receipt key n : at_least (receipt s key) n → at_least (receipt s' key) n;
  gr_mark k t : read_marks s !! k = Some t → read_marks s' !! k = Some t;
}.

#[export] Instance grows_refl : Reflexive grows.
Proof. intros s. split; eauto 10 with lia. Qed.

#[export] Instance grows_trans : Transitive grows.
Proof.
  intros s1 s2 s3 [Ho Hc Hm Hr Hk] [Ho' Hc' Hm' Hr' Hk']. split; eauto.
  - by etrans.
  - intros k c (c1 & H1 & Et & ?)%Hc. destruct (Hc' k c1 H1) as (c2 & ? & Et' & ?).
    exists c2. split_and!; [done|congruence|lia].
  - intros k m (m1 & H1 & E1 & E2 & E3 & Hd)%Hm.
    destruct (Hm' k m1 H1) as (m2 & ? & E1' & E2' & E3' & Hd'). exists m2.
    split_and!; try congruence. intros Hdel. specialize (Hd Hdel) as ->. auto.
Qed.

(** a change outside the outbox and the tables of messages and reads *)
Lemma grows_quiet s s' :
  outbox s' = outbox s → messages s' = messages s → read_receipts s' = read_receipts s →
  read_marks s' = read_marks s →
  (∀ k c, chats s !! k = Some c → ∃ c', chats s' !! k = Some c'
     ∧ Chat.type c' = Chat.type c ∧ Chat.seq_counter c ≤ Chat.seq_counter c') →
  grows s s'.
Proof.
  intros E1 E2 E3 E4 Hc. split; unfold receipt; rewrite ?E1, ?E2, ?E3, ?E4; eauto 10.
Qed.

Lemma step_outbox_marks priv s s' :
  step priv s s' →
  outbox s `prefix_of` outbox s' ∧ read_marks s' = read_marks s.
Proof.
  intros Hs. destruct Hs; try by split.
  - split; [by apply prefix_app_r|done].
  - by destruct old.
Qed.

Lemma grows_membership priv s s' : wf s → step priv s s' → grows s s'.
Proof.
  intros Hw Hs. destruct (step_frame _ _ _ Hw Hs) as [(E1 & _ & _ & _ & _ & _ & E2) [Hev _]].
  destruct (step_outbox_marks _ _ _ Hs) as [Hp E3]. split; unfold receipt; rewrite ?E1, ?E2, ?E3; eauto 10.
  intros k c (c' & ? & ? & Hq)%Hev. exists c'. split_and!; [done..|lia].
Qed.

Lemma grows_step priv s s' : sound s → sys_step priv s s' → grows s s'.
Proof.
  intros Hsound [H|H|H|H|H|H|H].
  - eapply grows_membership; eauto with msgr.
  - destruct (message_step_frame _ _ H) as (_ & _ & _ & _ & _ & Er & Hch). destruct H.
    + pose proof (insert_messages_tables _ _ _ H3) as E. split.
      * by rewrite E.
      * exact Hch.
      * intros k m Hk. exists m. split; [|done].
        by eapply (insert_messages_old ms (put_chat (advance_seq c (len ms) date) s)).
      * intros key n. unfold receipt. by rewrite Er.
      * by rewrite E.
    + split; try done. intros k x Hk. destruct H1 as (Ei & Ec & Eq & Ea & _). cbn. rewrite Ei.
      destruct (decide (Message.id m = k)) as [<-|Hne].
      * rewrite lookup_insert_eq. simplify_map_eq. eexists. split_and!; try done. congruence.
      * rewrite lookup_insert_ne by done. eauto 10.
  - destruct H; apply grows_quiet; eauto with lia.
  - destruct H; apply grows_quiet; eauto with lia.
  - destruct H; apply grows_quiet; eauto with lia.
  - destruct H as [? ? ? ? ? ? ? ? ? ? ? ? ? Ha|? ? ? ? ? ? Ha];
      [apply added_Some in Ha as (_ & row & -> & _)|apply removed_Some in Ha as (_ & cs & -> & _)];
      apply grows_quiet; eauto with lia.
  - destruct H.
    + assert (∀ s1, s1 = (ReadReceiptRepository.upsert key n s).2 →
        outbox s1 = outbox s ∧ chats s1 = chats s ∧ messages s1 = messages s ∧ read_marks s1 = read_marks s)
        as Hf by (intros s1 ->; unfold ReadReceiptRepository.upsert; by repeat case_match).
      destruct (Hf _ eq_refl) as (E1 & E2 & E3 & E4). split; rewrite ?E1, ?E2, ?E3, ?E4; eauto 10 with lia.
      intros key' m Hm. rewrite upsert_receipt. case_decide as Hd; [subst|done].
      destruct Hm as (r & -> & ?). eexists. split; [done|]. cbn. lia.
    + destruct mark as [[[c u] n] t]. cbn. destruct (read_marks s !! (c, u, n)) eqn:Hk; [reflexivity|].
      split; cbn; eauto 10 with lia. intros k x Hx. rewrite lookup_insert_ne; [done|congruence].
Qed.

Lemma grows_steps priv s s' : sound s → sys_steps priv s s' → sound s' ∧ grows s s'.
Proof.
  intros Hs. induction 1 as [s|s1 s2 s3 H1 H2 IH]; [done|].
  destruct IH as [? ?]; [by eapply sound_step|]. split; [done|]. etrans; [by eapply grows_step|done].
Qed.

Inductive request : Type :=
| ReqCreateChat (cmd : CreateChat.command)
| ReqJoinChat (cmd : JoinChat.command)
| ReqUpdateChat (cmd : UpdateChat.command)
| ReqSetChatUsername (cmd : SetChatUsername.command)
| ReqUpdateChatState (cmd : UpdateChatState.command)
| ReqDeleteChat (cmd : DeleteChat.command)
| ReqAddMember (cmd : AddMember.command)
| ReqKickMember (cmd : KickMember.command)
| ReqLeaveChat (cmd : LeaveChat.command)
| ReqBanMember (cmd : BanMember.command)
| ReqUnbanMember (cmd : UnbanMember.command)
| ReqMuteMember (cmd : MuteMember.command)
| ReqUnmuteMember (cmd : UnmuteMember.command)
| ReqChangeMemberRole (cmd : ChangeMemberRole.command)
| ReqTransferChatOwnership (cmd : TransferChatOwnership.command)
| ReqCreateInviteLink (cmd : CreateInviteLink.command)
| ReqRevokeInviteLink (cmd : RevokeInviteLink.command)
| ReqJoinChatByInvite (cmd : JoinChatByInvite.command)
| ReqApproveJoinRequests (cmd : ApproveJoinRequests.command)
| ReqDeclineJoinRequests (cmd : DeclineJoinRequests.command)
| ReqDeclineAllJoinRequests (cmd : DeclineAllJoinRequests.command)
| ReqCancelJoinRequest (cmd : CancelJoinRequest.command)
| ReqSendMessage (cmd : SendMessage.command)
| ReqForwardMessage (cmd : ForwardMessage.command)
| ReqForwardMessages (cmd : ForwardMessages.command)
| ReqEditMessage (cmd : EditMessage.command)
| ReqDeleteMessage (cmd : DeleteMessage.command)
| ReqPinMessage (cmd : PinMessage.command)
| ReqUnpinMessages (cmd : UnpinMessages.command)
| ReqSetReaction (cmd : SetReaction.command)
| ReqSetReactions (cmd : SetReactions.command)
| ReqRemoveReaction (cmd : RemoveReaction.command)
| ReqMarkAsRead (cmd : MarkAsRead.command).

Definition caller (r : request) : UserJWTData :=
  match r with
  | ReqCreateChat c => CreateChat.user_jwt_data c
  | ReqJoinChat c => JoinChat.user_jwt_data c
  | ReqUpdateChat c => UpdateChat.user_jwt_data c
  | ReqSetChatUsername c => SetChatUsername.user_jwt_data c
  | ReqUpdateChatState c => UpdateChatState.user_jwt_data c
  | ReqDeleteChat c => DeleteChat.user_jwt_data c
  | ReqAddMember c => AddMember.user_jwt_data c
  | ReqKickMember c => KickMember.user_jwt_data c
  | ReqLeaveChat c => LeaveChat.user_jwt_data c
  | ReqBanMember c => BanMember.user_jwt_data c
  | ReqUnbanMember c => UnbanMember.user_jwt_data c
  | ReqMuteMember c => MuteMember.user_jwt_data c
  | ReqUnmuteMember c => UnmuteMember.user_jwt_data c
  | ReqChangeMemberRole c => ChangeMemberRole.user_jwt_data c
  | ReqTransferChatOwnership c => TransferChatOwnership.user_jwt_data c
  | ReqCreateInviteLink c => CreateInviteLink.user_jwt_data c
  | ReqRevokeInviteLink c => RevokeInviteLink.user_jwt_data c
  | ReqJoinChatByInvite c => JoinChatByInvite.user_jwt_data c
  | ReqApproveJoinRequests c => ApproveJoinRequests.user_jwt_data c
  | ReqDeclineJoinRequests c => DeclineJoinRequests.user_jwt_data c
  | ReqDeclineAllJoinRequests c => DeclineAllJoinRequests.user_jwt_data c
  | ReqCancelJoinRequest c => CancelJoinRequest.user_jwt_data c
  | ReqSendMessage c => SendMessage.user_jwt_data c
  | ReqForwardMessage c => ForwardMessage.user_jwt_data c
  | ReqForwardMessages c => ForwardMessages.user_jwt_data c
  | ReqEditMessage c => EditMessage.user_jwt_data c
  | ReqDeleteMessage c => DeleteMessage.user_jwt_data c
  | ReqPinMessage c => PinMessage.user_jwt_data c
  | ReqUnpinMessages c => UnpinMessages.user_jwt_data c
  | ReqSetReaction c => SetReaction.user_jwt_data c
  | ReqSetReactions c => SetReactions.user_jwt_data c
  | ReqRemoveReaction c => RemoveReaction.user_jwt_data c
  | ReqMarkAsRead c => MarkAsRead.user_jwt_data c
  end.

Section system.
Context `{R : RBACManager}.

(** the handler of a request; the answers to the clients are left out *)
Definition serve (r : request) : M unit :=
  let done {A} (m : M A) : M unit := _ ← m; mret tt in
  match r with
  | ReqCreateChat c => done (CreateChat.handle c)
  | ReqJoinChat c => done (JoinChat.handle c)
  | ReqUpdateChat c => done (UpdateChat.handle c)
  | ReqSetChatUsername c => done (SetChatUsername.handle c)
  | ReqUpdateChatState c => done (UpdateChatState.handle c)
  | ReqDeleteChat c => done (DeleteChat.handle c)
  | ReqAddMember c => done (AddMember.handle c)
  | ReqKickMember c => done (KickMember.handle c)
  | ReqLeaveChat c => done (LeaveChat.handle c)
  | ReqBanMember c => done (BanMember.handle c)
  | ReqUnbanMember c => done (UnbanMember.handle c)
  | ReqMuteMember c => done (MuteMember.handle c)
  | ReqUnmuteMember c => done (UnmuteMember.handle c)
  | ReqChangeMemberRole c => done (ChangeMemberRole.handle c)
  | ReqTransferChatOwnership c => done (TransferChatOwnership.handle c)
  | ReqCreateInviteLink c => done (CreateInviteLink.handle c)
  | ReqRevokeInviteLink c => done (RevokeInviteLink.handle c)
  | ReqJoinChatByInvite c => done (JoinChatByInvite.handle c)
  | ReqApproveJoinRequests c => done (ApproveJoinRequests.handle c)
  | ReqDeclineJoinRequests c => done (DeclineJoinRequests.handle c)
  | ReqDeclineAllJoinRequests c => done (DeclineAllJoinRequests.handle c)
  | ReqCancelJoinRequest c => done (CancelJoinRequest.handle c)
  | ReqSendMessage c => done (SendMessage.handle c)
  | ReqForwardMessage c => done (ForwardMessage.handle c)
  | ReqForwardMessages c => done (ForwardMessages.handle c)
  | ReqEditMessage c => done (EditMessage.handle c)
  | ReqDeleteMessage c => done (DeleteMessage.handle c)
  | ReqPinMessage c => done (PinMessage.handle c)
  | ReqUnpinMessages c => done (UnpinMessages.handle c)
  | ReqSetReaction c => done (SetReaction.handle c)
  | ReqSetReactions c => done (SetReactions.handle c)
  | ReqRemoveReaction c => done (RemoveReaction.handle c)
  | ReqMarkAsRead c => done (MarkAsRead.handle c)
  end.

(** What happens to the system: a request, or a turn of the worker. *)
Inductive activity : Type :=
| Request (r : request)
| CoalescerTurn.

Definition perform (a : activity) (w : world) : world :=
  match a with
  | Request r => (run_command (serve r) w).2
  | CoalescerTurn => (run_read_receipt_coalescer ReadReceiptFlusher.flush w).2
  end.

(** a history, from the oldest activity on *)
Definition perform_all (l : list activity) (w : world) : world := foldl (λ w a, perform a w) w l.

(** ** One activity *)
Lemma sys_refines_done {A} priv (m : M A) w :
  sys_refines priv m w → sys_refines priv (_ ← m; mret tt) w.
Proof.
  unfold sys_refines, transaction. intros H. apply wp_bind. eapply wp_mono; [exact H|].
  by intros [a|e] w'.
Qed.

Lemma serve_refines priv r w :
  opened w → clearance priv (caller r) (w_session w) → sys_refines priv (serve r) w.
Proof.
  intros Ho Hc. pose proof (opened_ready _ Ho) as Hr.
  destruct r; apply sys_refines_done; cbn [caller] in Hc.
  - by apply CreateChat_refines.
  - by apply JoinChat_refines.
  - by apply UpdateChat_refines.
  - by apply SetChatUsername_refines.
  - by apply UpdateChatState_refines.
  - by apply DeleteChat_refines.
  - by apply refines_sys, AddMember_refines.
  - by apply refines_sys, KickMember_refines.
  - by apply refines_sys, LeaveChat_refines.
  - by apply refines_sys, BanMember_refines.
  - by apply refines_sys, UnbanMember_refines.
  - by apply refines_sys, MuteMember_refines.
  - by apply refines_sys, UnmuteMember_refines.
  - by apply refines_sys, ChangeMemberRole_refines.
  - by apply refines_sys, TransferChatOwnership_refines.
  - by apply CreateInviteLink_refines.
  - by apply RevokeInviteLink_refines.
  - by apply JoinChatByInvite_refines.
  - by apply ApproveJoinRequests_refines.
  - by apply DeclineJoinRequests_refines.
  - by apply DeclineAllJoinRequests_refines.
  - by apply CancelJoinRequest_refines.
  - by apply SendMessage_refines.
  - by apply ForwardMessage_refines.
  - by apply ForwardMessages_refines.
  - by apply EditMessage_refines.
  - by apply DeleteMessage_refines.
  - by apply PinMessage_refines.
  - by apply UnpinMessages_refines.
  - by apply SetReaction_refines.
  - by apply SetReactions_refines.
  - by apply RemoveReaction_refines.
  - by apply MarkAsRead_refines.
Qed.
End system.

(** ** Histories *)
Section histories.
Context `{R : RBACManager}.

Definition changed (priv : bool) (w w' : world) : Prop :=
  sys_steps priv (w_database w) (w_database w').

Lemma turn_steps priv w : changed priv w (perform CoalescerTurn w).
Proof.
  unfold changed. cbn. unfold run_read_receipt_coalescer. destruct (claim_run w) as (now & t & ->).
  set (w1 := w <| w_ticks := t |> <| w_reads := _ |>).
  destruct (ReadReceiptCoalesceQueue.CLAIM_DUE_LUA _ _ _).1 as [|c0 cs]; [apply rtc_refl|].
  unfold run_command. set (w2 := w1 <| w_session := w_database w1 |>).
  pose proof (flusher_sound (c0 :: cs) w2 eq_refl) as Hf.
  destruct (ReadReceiptFlusher.flush (c0 :: cs) w2) as [[k|e] w3].
  - destruct Hf as [Hsteps _ _ _]. apply (Hsteps priv).
  - destruct Hf as [Hdb _].
    destruct (requeue_run (c0 :: cs) (w3 <| w_session := w_database w3 |>)) as (w4 & -> & [_ Hdb4 _ _ _]).
    cbn in *. rewrite Hdb4, Hdb. apply rtc_refl.
Qed.

Lemma request_steps priv r w :
  sound (w_database w) → clearance priv (caller r) (w_database w) →
  changed priv w (perform (Request r) w).
Proof.
  intros Hs Hc. pose proof (serve_refines priv r (w <| w_session := w_database w |>)) as Hr.
  unfold sys_refines, transaction, wp, changed in *. cbn. unfold run_command.
  destruct (serve r _) as [[[]|e] w']; cbn in *.
  - by apply Hr.
  - rewrite Hr by done. apply rtc_refl.
Qed.

(** an activity of a caller who is not a global administrator *)
Definition ordinary (a : activity) : Prop :=
  match a with
  | Request r => ChatAccessService._has_global_chat_admin (caller r) = false
  | CoalescerTurn => True
  end.

Lemma perform_steps a w : sound (w_database w) → changed true w (perform a w).
Proof.
  intros Hs. destruct a as [r|]; [|apply turn_steps]. apply request_steps; [done|by left].
Qed.

Lemma perform_ordinary a w :
  ordinary a → sound (w_database w) → creator_ok (w_database w) → changed false w (perform a w).
Proof.
  intros Ha Hs Hc. destruct a as [r|]; [|apply turn_steps]. apply request_steps; [done|by right].
Qed.

Lemma histories_steps l : ∀ w, sound (w_database w) →
  sound (w_database (perform_all l w)) ∧ changed true w (perform_all l w).
Proof.
  induction l as [|a l IH]; intros w Hs; [by split; [|apply rtc_refl]|].
  pose proof (perform_steps a w Hs) as Hst. destruct (IH (perform a w)) as [H1 H2].
  { by eapply sound_steps. }
  split; [done|]. by eapply sys_steps_trans.
Qed.

Lemma ordinary_histories_steps l : ∀ w,
  Forall ordinary l → sound (w_database w) → creator_ok (w_database w) →
  sound (w_database (perform_all l w)) ∧ creator_ok (w_database (perform_all l w)).
Proof.
  induction l as [|a l IH]; intros w Hl Hs Hc; [done|].
  apply Forall_cons_iff in Hl as [Ha Hl].
  pose proof (perform_ordinary a w Ha Hs Hc) as Hst. apply owned_steps in Hst as [? ?]; [|done..].
  by apply IH.
Qed.
End histories.
