(* ===== verification/Histories.v ===== *)
(** Concrete worlds on which the theorems are instantiated - an empty database, and the one a short history leaves: Alice (1) opens a public group, Bob (2) joins it and writes a message; runs of that group in which the code does something its own rules elsewhere rule out; and the theorems over whole histories of requests and worker turns: what holds in every database the system can reach. *)
From S2P Require Import Prelude Config Events MemberModel InviteModel MessageModel ChatModel PrivacyModel Store Wp Rbac Access ChatRepo InviteRepo MessageRepo ChatCommands InviteCommands MembershipCommands MessageCommands Reactions ReadReceipts Spec MembershipInv MembershipSpec TableInv ReactionInv SystemInv ReadSpec System.

(** one read of the clock per second, ids 1, 2, 3, ... *)
Definition sample_clock (n : nat) : datetime := 1000000 * (1700000000 + Z.of_nat n).

Definition blank : world :=
  MkWorld empty_store empty_store sample_clock 0 (λ n, Z.of_nat n + 1) 0
    (λ n, [65 + Z.of_nat n]) 0 ∅ (λ d, d `quot` 1000000) (MkReadQueue ∅ ∅) [].

Definition user (uid : Z) : UserJWTData := MkJWT uid (u8 "someone") [] [] 1 (u8 "device").

(** id of the group: the first uuid drawn *)
Definition group_id : UUID := 1.

Definition open_group : request := ReqCreateChat
  (CreateChat.Mk (Some (u8 "Climbers")) None GROUP [] true (user 1) false 0 ∅ false).
Definition bob_joins : request := ReqJoinChat (JoinChat.Mk (user 2) group_id).
Definition bob_writes : SendMessage.command :=
  SendMessage.Mk group_id (Some (u8 "hello")) None TEXT [] (user 2).

Definition sample_history : list activity :=
  [Request open_group; Request bob_joins; Request (ReqSendMessage bob_writes)].

(** Alice pins the message, reacts to it and makes a link; Carol (3) asks to
    join through the link. *)
Definition busy_history : list activity :=
  sample_history ++
  [Request (ReqPinMessage (PinMessage.Mk (user 1) group_id 5));
   Request (ReqSetReactions (SetReactions.Mk group_id 5 (take 2 chat_config.DEFAULT_REACTIONS) (user 1)));
   Request (ReqCreateInviteLink (CreateInviteLink.Mk (user 1) group_id None None None true));
   Request (ReqJoinChatByInvite (JoinChatByInvite.Mk (user 3) [65]))].

Section samples.
Context `{R : RBACManager}.

(** A history that ends with a request leaves an open session. *)
Lemma opened_after l r w : sound (w_database w) → opened (perform_all (l ++ [Request r]) w).
Proof.
  intros Hs. destruct (histories_steps (l ++ [Request r]) w Hs) as [Hsound _].
  unfold perform_all in *. rewrite foldl_app in *. cbn [foldl perform] in *.
  set (w1 := foldl _ w l) in *. unfold run_command in *. destruct (serve r _) as [res w']. by split.
Qed.

Lemma opened_blank : opened blank.
Proof. split; [apply sound_empty|done]. Qed.
End samples.

Definition group_world : world := perform_all sample_history blank.

Definition busy_world : world := perform_all busy_history blank.

Lemma opened_group : opened group_world.
Proof. apply (opened_after [_; _]), sound_empty. Qed.

Lemma opened_busy : opened busy_world.
Proof. apply (opened_after [_; _; _; _; _; _]), sound_empty. Qed.

(** ** Rows of the sample database *)

(** the row a lookup finds *)
Ltac found_row lookup :=
  let r := eval vm_compute in lookup in
  lazymatch r with Some ?x => exact x end.

Definition group_chat : Chat.t := ltac:(found_row (chats (w_database group_world) !! group_id)).
Definition alice : ChatMember.t := ltac:(found_row (members (w_database group_world) !! (group_id, 1))).
Definition bob : ChatMember.t := ltac:(found_row (members (w_database group_world) !! (group_id, 2))).
Definition hello_id : UUID := 5.
Definition hello : Message.t := ltac:(found_row (messages (w_database group_world) !! hello_id)).

Lemma group_row : chats (w_database group_world) !! group_id = Some group_chat.
Proof. vm_compute. reflexivity. Qed.
Lemma alice_row : members (w_database group_world) !! (group_id, 1) = Some alice.
Proof. vm_compute. reflexivity. Qed.
Lemma bob_row : members (w_database group_world) !! (group_id, 2) = Some bob.
Proof. vm_compute. reflexivity. Qed.
Lemma hello_row : messages (w_database group_world) !! hello_id = Some hello.
Proof. vm_compute. reflexivity. Qed.

Definition the_pin : ChatPinnedMessage.t :=
  ltac:(found_row (pins (w_database busy_world) !! (group_id, hello_id))).
Definition link_id : UUID := 11.
Definition the_link : ChatInviteLink.t := ltac:(found_row (invites (w_database busy_world) !! link_id)).
Definition carols_request : ChatJoinRequest.t :=
  ltac:(found_row (join_requests (w_database busy_world) !! (group_id, 3))).

Lemma pin_row : pins (w_database busy_world) !! (group_id, hello_id) = Some the_pin.
Proof. vm_compute. reflexivity. Qed.
Lemma link_row : invites (w_database busy_world) !! link_id = Some the_link.
Proof. vm_compute. reflexivity. Qed.
Lemma request_row : join_requests (w_database busy_world) !! (group_id, 3) = Some carols_request.
Proof. vm_compute. reflexivity. Qed.

(** A permanent ban lasts only while the row exists: [leave] deletes it, bans
    included, and [join] makes a new one. *)
Definition evasion : list activity :=
  sample_history ++
  [Request (ReqBanMember (BanMember.Mk (user 1) group_id 2 None None));
   Request (ReqLeaveChat (LeaveChat.Mk group_id (user 2)));
   Request (ReqJoinChat (JoinChat.Mk (user 2) group_id))].

Lemma banned_then_back :
  ChatMember.is_banned (sample_clock 100) <$> (members (w_database (perform_all (take 4 evasion) blank)) !! (group_id, 2)) = Some true
  ∧ ChatMember.is_banned (sample_clock 100) <$> (members (w_database (perform_all evasion blank)) !! (group_id, 2)) = Some false.
Proof. split; vm_compute; reflexivity. Qed.

(** [send] checks that the message answered exists, not that it belongs to the
    chat: Alice's second group answers a message of the first. *)
Definition second_group_id : UUID := 7.
Definition stranger_reply : SendMessage.command :=
  SendMessage.Mk second_group_id (Some (u8 "re")) (Some hello_id) REPLY [] (user 1).
Definition two_groups : world := perform_all (sample_history ++ [Request open_group]) blank.

Lemma reply_across_chats :
  ∃ m, (SendMessage.handle stranger_reply two_groups).1 = Ok m
    ∧ Message.chat_id m = second_group_id ∧ Message.reply_to_id m = Some hello_id
    ∧ Message.chat_id <$> (messages (w_database two_groups) !! hello_id) = Some group_id.
Proof. eexists. split_and!; vm_compute; reflexivity. Qed.

(** [modify] asks only for authorship: a banned author still edits. *)
Lemma banned_author_edits :
  ∃ m, (EditMessage.handle (EditMessage.Mk (user 2) group_id hello_id (u8 "edited"))
          (perform_all (take 4 evasion) blank)).1 = Ok m
    ∧ Message.is_edited m = true.
Proof. eexists. split; vm_compute; reflexivity. Qed.

Section histories.
Context `{R : RBACManager}.
Implicit Types (l : list activity) (w : world) (s : store).

(** a committed store some history leads to, from an empty database *)
Definition reached (s : store) : Prop :=
  ∃ l w, w_database w = empty_store ∧ s = w_database (perform_all l w).

(** ... of callers none of whom is a global administrator *)
Definition reached_by_users (s : store) : Prop :=
  ∃ l w, w_database w = empty_store ∧ Forall ordinary l ∧ s = w_database (perform_all l w).

Lemma reached_sound s : reached s → sound s.
Proof.
  intros (l & w & Hw & ->). apply histories_steps. rewrite Hw. apply sound_empty.
Qed.

Lemma creator_ok_empty : creator_ok empty_store.
Proof. intros k c Hk. simplify_map_eq/=. Qed.

Lemma reached_creator s : reached_by_users s → creator_ok s.
Proof.
  intros (l & w & Hw & Hl & ->). apply ordinary_histories_steps; [done|..]; rewrite Hw.
  - apply sound_empty.
  - apply creator_ok_empty.
Qed.

(** C1: in every database a history of ordinary requests leads to, a group or
    channel has exactly one owner - the user its [created_by] names, who is
    still a member - and nobody of a direct chat holds any role but the direct
    one. *)
Theorem one_owner s k c :
  reached_by_users s → chats s !! k = Some c →
  (∃ m, members s !! (k, Chat.created_by c) = Some m ∧
        ChatMember.role_id m = match Chat.type c with DIRECT => DIRECT_MEMBER | _ => OWNER end)
  ∧ ∀ u m, members s !! (k, u) = Some m →
      (ChatMember.role_id m = OWNER ↔ u = Chat.created_by c ∧ Chat.type c ≠ DIRECT)
      ∧ (Chat.type c = DIRECT → ChatMember.role_id m = DIRECT_MEMBER).
Proof.
  intros Hr Hk. pose proof (reached_creator s Hr) as Hc. destruct (Hc k c Hk) as [Hex Hall].
  split; [by destruct (Chat.type c)|]. intros u m Hm. specialize (Hall u m Hm). split; [split|].
  - intros Ho. by eapply owner_is_creator.
  - intros [-> Ht]. by eapply creator_is_owner.
  - intros Ht. rewrite Ht in Hall. by case_decide.
Qed.

(** C3: in every reachable database a chat's [member_count] is the number of
    its membership rows, within the limit of its type. *)
Theorem member_counts s k c :
  reached s → chats s !! k = Some c →
  Chat.member_count c = count_where (λ kv, kv.1.1 = k) (members s)
  ∧ Chat.member_count c ≤ Chat.member_limit (Chat.type c).
Proof. intros Hr Hk. by apply (sound_count _ (reached_sound s Hr)). Qed.

(** C4: in every reachable database the messages of a chat carry distinct
    numbers between 1 and the chat's counter, and every stored text respects
    the limits. *)
Theorem message_numbers s k1 k2 m1 m2 :
  reached s → messages s !! k1 = Some m1 → messages s !! k2 = Some m2 →
  (∃ c, chats s !! Message.chat_id m1 = Some c ∧ 1 ≤ Message.seq m1 ≤ Chat.seq_counter c)
  ∧ Message.validate_content m1 = Ok tt
  ∧ (Message.chat_id m1 = Message.chat_id m2 → Message.seq m1 = Message.seq m2 → k1 = k2).
Proof.
  intros Hr H1 H2. pose proof (sound_messages _ (reached_sound s Hr)) as Hm. split_and!.
  - by eapply mo_chat.
  - by destruct (mo_row _ Hm _ _ H1) as (_ & _ & _ & ?).
  - intros. by eapply mo_seq.
Qed.

(** C5: in every reachable database a pin refers to a live message of its chat
    which is not a system notice, under the number that message has, and a chat
    has at most [MAX_PINNED_MESSAGES] pins. *)
Theorem pins_live s cid mid p :
  reached s → pins s !! (cid, mid) = Some p →
  (∃ m, messages s !! mid = Some m ∧ Message.is_deleted m = false ∧ Message.chat_id m = cid
        ∧ Message.type m ≠ SYSTEM ∧ Message.seq m = ChatPinnedMessage.message_seq p)
  ∧ count_where (λ kv, kv.1.1 = cid) (pins s) ≤ chat_config.MAX_PINNED_MESSAGES.
Proof.
  intros Hr Hp. destruct (sound_pins _ (reached_sound s Hr)) as [Hok Hn].
  destruct (Hok _ _ Hp) as [[= -> ->] Hm]. split; [done|apply Hn].
Qed.

(** C6: in every reachable database the reaction counters of a message are the
    numbers of its reactions, a user has at most three of them, a message shows
    at most twenty kinds, all from the built-in list. *)
Theorem reactions_counted s m e :
  reached s →
  MessageReactionCounter.count <$> reaction_counters s !! (m, e)
    = (let n := MessageReactionRepository.reaction_rows s m e in if n =? 0 then None else Some n)
  ∧ (∀ u, len (MessageReactionRepository.user_emojis s m u)
          ≤ chat_config.MAX_REACTIONS_PER_USER_PER_MESSAGE)
  ∧ MessageReactionRepository.distinct_emojis s m ≤ chat_config.MAX_DISTINCT_REACTIONS_PER_MESSAGE
  ∧ ∀ u r, reactions s !! (m, u, e) = Some r → e ∈ chat_config.DEFAULT_REACTIONS.
Proof.
  intros Hr. pose proof (sound_reactions _ (reached_sound s Hr)) as Hok. split_and!.
  - pose proof (rc_count _ Hok m e) as Hc. cbv zeta. destruct (reaction_counters s !! (m, e)) as [row|]; cbn.
    + destruct Hc as [<- Hpos]. destruct (_ =? 0) eqn:Hz; [bool_simpl; lia|done].
    + by rewrite Hc.
  - intros u. apply (rc_user _ Hok).
  - apply (rc_distinct _ Hok).
  - intros u r. apply (rc_row _ Hok).
Qed.

(** C7: in every reachable database an invite link is used at most as often as
    its limit says, its code is its own, it never leads into a direct chat, and
    a chat keeps at most [MAX_INVITE_LINKS_PER_CHAT] links alive. *)
Theorem invite_links s k i :
  reached s → invites s !! k = Some i →
  (∀ n, ChatInviteLink.usage_limit i = Some n → 0 ≤ ChatInviteLink.usage_count i ≤ n)
  ∧ (∀ k' i', invites s !! k' = Some i' → ChatInviteLink.code i' = ChatInviteLink.code i → k' = k)
  ∧ (∃ c, chats s !! ChatInviteLink.chat_id i = Some c ∧ Chat.type c ≠ DIRECT)
  ∧ links_of s (ChatInviteLink.chat_id i) ≤ chat_config.MAX_INVITE_LINKS_PER_CHAT.
Proof.
  intros Hr Hk. pose proof (sound_invites _ (reached_sound s Hr)) as Hok. split_and!.
  - intros n Hn. destruct (io_row _ Hok _ _ Hk) as [_ [? Hl]]. destruct (Hl n Hn). lia.
  - intros k' i' Hk' Hc. by eapply io_code.
  - by eapply io_chat.
  - apply (io_count _ Hok).
Qed.

(** C8: in every reachable database a join request is pending exactly when it
    has no resolution, it belongs to an existing chat, a link it came through
    is one that files requests, and a chat has at most
    [MAX_PENDING_JOIN_REQUESTS] pending ones. *)
Theorem join_requests_coherent s cid u r :
  reached s → join_requests s !! (cid, u) = Some r →
  (ChatJoinRequest.status r = JR_PENDING ↔
     ChatJoinRequest.resolved_at r = None ∧ ChatJoinRequest.resolved_by r = None)
  ∧ is_Some (chats s !! cid)
  ∧ (∀ link, ChatJoinRequest.invite_link_id r = Some link →
       ∃ i, invites s !! link = Some i ∧ ChatInviteLink.creates_join_request i = true)
  ∧ ChatJoinRequestRepository.pending_count cid s ≤ chat_config.MAX_PENDING_JOIN_REQUESTS.
Proof.
  intros Hr Hk. pose proof (sound_requests _ (reached_sound s Hr)) as Hok. split_and!.
  - destruct (ro_row _ Hok _ _ Hk) as (_ & Hco & _). unfold ChatJoinRequest.coherent in Hco.
    destruct (ChatJoinRequest.status r); [done|..]; (split; [done|]);
      destruct Hco as [[x ->] _]; by intros [? _].
  - by eapply ro_chat.
  - by eapply ro_link.
  - apply (ro_count _ Hok).
Qed.

(** C2: a request that raises leaves the committed database as it was; one that
    returns has changed it by guarded atomic changes of the specification - and
    by the unprivileged ones only, when its caller is not a global administrator
    and ownership was in order. *)
Theorem requests_refine r w :
  sound (w_database w) →
  match run_command (serve r) w with
  | (Err _, w') => w_database w' = w_database w
  | (Ok _, w') =>
    sys_steps true (w_database w) (w_database w')
    ∧ (ChatAccessService._has_global_chat_admin (caller r) = false → creator_ok (w_database w) →
       sys_steps false (w_database w) (w_database w'))
  end.
Proof.
  intros Hs. set (w0 := w <| w_session := w_database w |>). assert (opened w0) as Ho by done.
  pose proof (serve_refines true r w0 Ho (or_introl eq_refl)) as Ht.
  pose proof (serve_refines false r w0 Ho) as Hf. unfold sys_refines, transaction, wp in *.
  unfold run_command. fold w0. destruct (serve r w0) as [[[]|e] w']; cbn in *; [|done].
  split; [done|]. intros Hg Hc. apply Hf. by right.
Qed.

(** C9: no history takes back an event of the outbox, a chat, the place of a
    message in its chat, its author, its deletion, the cursor a user has
    reached, or a read mark. *)
Theorem history_grows l w :
  sound (w_database w) → grows (w_database w) (w_database (perform_all l w)).
Proof.
  intros Hs. destruct (histories_steps l w Hs) as [_ Hst]. by apply (grows_steps true).
Qed.
End histories.

(** ** Instances *)
Lemma reached_group : reached (w_database group_world).
Proof. by exists sample_history, blank. Qed.

Lemma reached_group_by_users : reached_by_users (w_database group_world).
Proof. exists sample_history, blank. split; [done|]. split; [|done]. repeat constructor. Qed.

Lemma reached_busy : reached (w_database busy_world).
Proof. by exists busy_history, blank. Qed.

Lemma one_owner_witness :
  ∃ m, members (w_database group_world) !! (group_id, 1) = Some m ∧ ChatMember.role_id m = OWNER.
Proof. exact (proj1 (one_owner _ group_id group_chat reached_group_by_users group_row)). Defined.

Lemma member_counts_witness :
  2 = count_where (λ kv, kv.1.1 = group_id) (members (w_database group_world)) ∧ 2 ≤ 1000000.
Proof. split; [exact (proj1 (member_counts _ group_id group_chat reached_group group_row))|lia]. Defined.

Lemma message_numbers_witness :
  Message.validate_content hello = Ok tt ∧ 1 ≤ Message.seq hello.
Proof.
  destruct (message_numbers _ _ _ _ _ reached_group hello_row hello_row) as ((c & _ & ? & _) & Hv & _).
  by split.
Defined.

Lemma reactions_counted_witness :
  len (MessageReactionRepository.user_emojis (w_database group_world) hello_id 2) ≤ 3.
Proof.
  destruct (reactions_counted _ hello_id (u8 "x") reached_group) as (_ & Hu & _). exact (Hu 2).
Defined.

Lemma pins_live_witness :
  count_where (λ kv, kv.1.1 = group_id) (pins (w_database busy_world)) ≤ 100.
Proof. exact (proj2 (pins_live _ group_id hello_id the_pin reached_busy pin_row)). Defined.

Lemma invite_links_witness :
  ∃ c, chats (w_database busy_world) !! ChatInviteLink.chat_id the_link = Some c ∧ Chat.type c ≠ DIRECT.
Proof.
  destruct (invite_links _ link_id the_link reached_busy link_row) as (_ & _ & Hc & _). exact Hc.
Defined.

Lemma join_requests_coherent_witness :
  ∃ i, invites (w_database busy_world) !! link_id = Some i
       ∧ ChatInviteLink.creates_join_request i = true.
Proof.
  destruct (join_requests_coherent _ group_id 3 carols_request reached_busy request_row)
    as (_ & _ & Hl & _). exact (Hl link_id eq_refl).
Defined.

Lemma requests_refine_witness :
  (run_command (serve bob_joins) group_world).1 = Err (AlreadyMemberError 2 group_id)
  ∧ w_database (run_command (serve bob_joins) group_world).2 = w_database group_world.
Proof.
  pose proof (requests_refine bob_joins group_world (reached_sound _ reached_group)) as H.
  assert ((run_command (serve bob_joins) group_world).1 = Err (AlreadyMemberError 2 group_id)) as E
    by (vm_compute; reflexivity).
  destruct (run_command (serve bob_joins) group_world) as [[u|e] w']; [discriminate E|].
  split; [exact E|exact H].
Defined.

Lemma history_grows_witness : grows (w_database group_world)
  (w_database (perform_all [Request (ReqSendMessage bob_writes)] group_world)).
Proof. exact (history_grows _ _ (reached_sound _ reached_group)). Defined.
