(* ===== verification/MembershipTheorems.v ===== *)
(** What the handlers of membership do when they return, and whom they obey; the decisions of the services, each against what it is meant to decide. *)
From S2P Require Import Prelude Config Events MemberModel InviteModel ChatModel PrivacyModel Store Wp Rbac Access ChatRepo ChatWp PrivacyService InviteRepo ChatCommands MembershipCommands Spec MembershipInv MembershipSpec TableInv SystemInv System Histories.

Ltac wp_clock ::= apply wp_now_exact.

(** the [i]-th read of the clock from here *)
Definition clock_at (w : world) (i : nat) : datetime := w_clock w (i + w_ticks w).

Section membership.
Context `{R : RBACManager}.

(** The standing an ordinary caller needs to act on [target]. *)
Definition outranks (s : store) (now : datetime) (chat_id : UUID) (caller : Z) (target : ChatMember.t)
  (permission : string) : Prop :=
  ∃ r, members s !! (chat_id, caller) = Some r ∧ ChatMember.is_banned now r = false
    ∧ ChatMember.user_id target ≠ caller ∧ ChatMember.has_permission r permission = true
    ∧ CHAT_ROLE_LEVELS (ChatMember.role_id target) ≤ CHAT_ROLE_LEVELS (ChatMember.role_id r).

Lemma member_key s k u m :
  wf s → members s !! (k, u) = Some m → ChatMember.chat_id m = k ∧ ChatMember.user_id m = u.
Proof. intros Hw Hm. apply (wf_member _ Hw) in Hm. by injection Hm. Qed.

Lemma update_member_outranks s now k u j target p :
  wf s → members s !! (k, u) = Some target →
  ChatAccessService._has_global_chat_admin j = false →
  ChatAccessService.update_member now j (members s !! (k, jwt_id j)) target [p] = true →
  outranks s now k (jwt_id j) target p.
Proof.
  intros Hw Ht Hg Hu. destruct (member_key _ _ _ _ Hw Ht) as [_ <-].
  destruct (ChatAccessService.update_member_requester _ _ _ _ _ Hu Hg) as (r & Hr & Hb & Hne & Hp & Hl).
  exists r. split_and!; try done; [|by apply granted_one]. intros E. rewrite E in Ht. congruence.
Qed.

Lemma wp_authorised j k u p w (Q : result error (Chat.t * ChatMember.t) → world → Prop) :
  (∀ c t, live_row w k c → members (w_session w) !! (k, u) = Some t →
     ChatAccessService.update_member (clock_at w 0) j (members (w_session w) !! (k, jwt_id j)) t [p] = true →
     Q (Ok (c, t)) (at_tick (S (w_ticks w)) w)) →
  (∀ e t, Q (Err e) (at_tick t w)) →
  wp (authorised_target j k u p) w Q.
Proof.
  intros HS HE. assert (∀ e, Q (Err e) w) as HE0 by (intros e; rewrite (at_tick_self w); apply HE).
  unfold authorised_target. wp_steps; try apply HE0; try apply HE. bool_simpl. by apply HS.
Qed.

(** A ban that returns was ordered by someone who, if not a global
    administrator, is an unbanned member other than the target, with the right
    to ban and at least the target's rank; it changes the target's membership
    row, by [ChatMember.ban], and no other. *)
Theorem ban_effect cmd w w' :
  opened w → BanMember.handle cmd w = (Ok tt, w') →
  let caller := BanMember.user_jwt_data cmd in
  ∃ c target,
    chats (w_database w) !! BanMember.chat_id cmd = Some c ∧ Chat.is_deleted c = false ∧
    members (w_database w) !! (BanMember.chat_id cmd, BanMember.target_user_id cmd) = Some target ∧
    (ChatAccessService._has_global_chat_admin caller = false →
     outranks (w_database w) (clock_at w 0) (BanMember.chat_id cmd) (jwt_id caller) target "member:ban") ∧
    members (w_database w') =
      <[(BanMember.chat_id cmd, BanMember.target_user_id cmd) :=
          ChatMember.ban (clock_at w 1) (clock_at w 2) target (jwt_id caller) (BanMember.reason cmd)
            (BanMember.banned_until cmd)]> (members (w_database w)) ∧
    chats (w_database w') = chats (w_database w).
Proof.
  intros Ho Hr caller. returned Hr. unfold BanMember.handle. apply wp_bind, wp_authorised; [|done]. intros c t Hl Hm Hu.
  wp_steps. cbn. destruct Hl as [Hk Hd]. pose proof Ho as [Hs Heq].
  destruct (member_key _ _ _ _ (sound_wf _ Hs) Hm) as [-> ->]. exists c, t. rewrite <- Heq.
  split_and!; try done.
  intros Hg. eapply update_member_outranks; eauto with msgr.
Qed.

(** A kick that returns was ordered by someone entitled to it, never by
    the target; the target's row is gone, every other row stays, and the
    chat's counter fell by one. *)
Theorem kick_effect cmd w w' :
  opened w → KickMember.handle cmd w = (Ok tt, w') →
  let caller := KickMember.user_jwt_data cmd in
  ∃ c target,
    chats (w_database w) !! KickMember.chat_id cmd = Some c ∧
    members (w_database w) !! (KickMember.chat_id cmd, KickMember.target_user_id cmd) = Some target ∧
    KickMember.target_user_id cmd ≠ jwt_id caller ∧
    (ChatAccessService._has_global_chat_admin caller = false →
     outranks (w_database w) (clock_at w 0) (KickMember.chat_id cmd) (jwt_id caller) target "member:kick") ∧
    members (w_database w') =
      delete (KickMember.chat_id cmd, KickMember.target_user_id cmd) (members (w_database w)) ∧
    chats (w_database w') =
      <[KickMember.chat_id cmd := c <| Chat.member_count := Chat.member_count c - 1 |>]> (chats (w_database w)).
Proof.
  intros Ho Hr caller. returned Hr. unfold KickMember.handle. wp_steps.
  destruct (opened_chat _ _ _ Ho (conj H H0)) as (Hid & _).
  unfold Chat.kick_member in H3. result_inv H3. bool_simpl.
  eapply (wp_member_gone (KickMember.chat_id cmd) c (KickMember.target_user_id cmd));
    [apply Ho|done|done|by subst|].
  intros ids w1 ->. cbn. destruct Ho as [Hs Heq]. exists c, a. rewrite <- Heq.
  split_and!; try done. intros Hg. eapply update_member_outranks; eauto with msgr.
Qed.

(** A change of role that returns stored the role asked for in the
    target's row and nowhere else; an ordinary caller outranked the target and
    stands strictly above the role handed out. *)
Theorem change_role_effect cmd w w' :
  opened w → ChangeMemberRole.handle cmd w = (Ok tt, w') →
  let caller := ChangeMemberRole.user_jwt_data cmd in
  let chat_id := ChangeMemberRole.chat_id cmd in
  ∃ target role,
    members (w_database w) !! (chat_id, ChangeMemberRole.target_user_id cmd) = Some target ∧
    ChangeMemberRole.role_id cmd = role_int role ∧
    w_database w' = put_member (target <| ChatMember.role_id := role |>) (w_database w) ∧
    (ChatAccessService._has_global_chat_admin caller = false →
     outranks (w_database w) (clock_at w 0) chat_id (jwt_id caller) target "role:change" ∧
     ∃ r, members (w_database w) !! (chat_id, jwt_id caller) = Some r ∧
          CHAT_ROLE_LEVELS role < CHAT_ROLE_LEVELS (ChatMember.role_id r)).
Proof.
  intros Ho Hr caller chat_id. returned Hr. unfold ChangeMemberRole.handle. wp_steps. cbn.
  destruct Ho as [Hs Heq]. bool_simpl.
  lazymatch goal with H : ChatAccessService.ensure_can_assign_role _ _ _ _ _ = Ok ?r |- _ =>
    apply ChatAccessService.ensure_can_assign_role_Ok in H as [Hid Hlev]; exists a, r end.
  rewrite <- Heq. split_and!; try done. intros Hg. split.
  - eapply update_member_outranks; eauto with msgr.
  - destruct (Hlev Hg) as (r & Hreq & _ & ?). eauto.
Qed.

(** Who may be added without refusing it *)
Definition accepts (s : store) (requester target : Z) : Prop :=
  target ≠ requester →
  in_blocks s target requester = false
  ∧ ChatPrivacyService.admits s GROUP_INVITES target requester = true.

Lemma wp_ensure_can_add requester ids w (Q : result error unit → world → Prop) :
  ((∀ t, t ∈ ids → accepts (w_session w) requester t) → Q (Ok tt) w) →
  (∀ e, Q (Err e) w) →
  wp (ChatPrivacyService.ensure_can_add requester ids) w Q.
Proof.
  intros HS HE. unfold wp. rewrite ChatPrivacyService.ensure_can_add_run. cbv zeta.
  case_decide as Hp; [|apply HE]. apply HS. intros t Ht Hne.
  assert (t ∉ ChatPrivacyService.refusing (w_session w) GROUP_INVITES requester
      (list_to_set (filter (λ t, t ≠ requester) ids))) as Hnot by (rewrite Hp; set_solver).
  unfold ChatPrivacyService.refusing in Hnot.
  rewrite elem_of_filter, elem_of_list_to_set, list_elem_of_filter in Hnot.
  destruct (in_blocks _ _ _), (ChatPrivacyService.admits _ _ _ _); cbn in Hnot; naive_solver.
Qed.

(** An addition that returns gave the newcomer a row with the role asked
    for, counted them within the limit and announced them; an ordinary caller is
    an unbanned member with the right to invite who stands above that role, and
    the newcomer neither blocks the caller nor refuses invitations. *)
Theorem add_member_effect cmd w w' :
  opened w → AddMember.handle cmd w = (Ok tt, w') →
  let caller := AddMember.user_jwt_data cmd in
  let chat_id := AddMember.chat_id cmd in
  let target := AddMember.target_user_id cmd in
  ∃ c r role ids,
    chats (w_database w) !! chat_id = Some c ∧ Chat.is_deleted c = false ∧
    members (w_database w) !! (chat_id, target) = None ∧
    members (w_database w) !! (chat_id, jwt_id caller) = Some r ∧
    AddMember.role_id cmd = role_int role ∧
    Chat.member_count c + 1 ≤ Chat.member_limit (Chat.type c) ∧
    accepts (w_database w) (jwt_id caller) target ∧
    (ChatAccessService._has_global_chat_admin caller = false →
     ChatMember.is_banned (clock_at w 0) r = false ∧
     ChatMember.has_permission r "member:invite" = true ∧
     CHAT_ROLE_LEVELS role < CHAT_ROLE_LEVELS (ChatMember.role_id r)) ∧
    w_database w' = with_events ids [AddedChatMemberEvent chat_id target (role_int role)]
                      (enroll c target role (w_database w)).
Proof.
  intros Ho Hr caller chat_id target. returned Hr. unfold AddMember.handle. wp_steps.
  destruct (opened_chat _ _ _ Ho (conj H H0)) as (Hid & Hm & He & Hdb & Hd & _). bool_simpl.
  lazymatch goal with H : ChatAccessService.ensure_can_assign_role _ _ _ _ _ = Ok ?r |- _ =>
    apply ChatAccessService.ensure_can_assign_role_Ok in H as [Hrole Hlev]; rename r into role end.
  apply wp_ensure_can_add; [intros Hp|done].
  refine (wp_newcomer c _ role _ _ _ Hm He _ _); [by rewrite Hid| |done].
  intros ids w1 Hdb1 _ Hn Hlim. destruct Ho as [Hs Heq]. exists c, m, role, ids. rewrite <- Heq in *.
  rewrite Hid in *. split_and!; try done.
  - apply Hp. by left.
  - intros Hg. destruct (ChatAccessService.has_permissions_member _ _ _ _ _ H2 Hg) as (r & [= <-] & ? & ?).
    destruct (Hlev Hg) as (r & [= <-] & _ & ?). split_and!; try done. by apply granted_one.
Qed.

(** A departure that returns was the caller's own, never the creator's; it
    removes the caller's row and no other. *)
Theorem leave_effect cmd w w' :
  opened w → LeaveChat.handle cmd w = (Ok tt, w') →
  let uid := jwt_id (LeaveChat.user_jwt_data cmd) in
  ∃ c m ids,
    chats (w_database w) !! LeaveChat.chat_id cmd = Some c ∧ Chat.created_by c ≠ uid ∧
    members (w_database w) !! (LeaveChat.chat_id cmd, uid) = Some m ∧
    w_database w' = with_events ids [LeftChatMemberEvent (LeaveChat.chat_id cmd) uid]
                      (expel c uid (w_database w)).
Proof.
  intros Ho Hr uid. returned Hr. unfold LeaveChat.handle. wp_steps.
  destruct (opened_chat _ _ _ Ho (conj H H0)) as (Hid & Hm & He & _).
  unfold Chat.leave in H2. result_inv H2. bool_simpl.
  eapply (wp_member_gone (LeaveChat.chat_id cmd) c uid); [apply Ho|done|done|by subst|].
  intros ids w1 ->. destruct Ho as [Hs Heq]. exists c, a, ids. rewrite <- Heq.
  split_and!; try done. subst a0. cbn. rewrite He. unfold expel. rewrite Hid. done.
Qed.

(** the rows after the two flushes of a transfer *)
Lemma transferred_rows (ms : gmap (UUID * Z) ChatMember.t) k new old_id m :
  new ≠ old_id →
  ∀ ms', ms' = match ms !! (k, old_id) with
               | Some o => <[(k, old_id) := o <| ChatMember.role_id := ADMIN |>]>
               | None => id
               end (<[(k, new) := m <| ChatMember.role_id := OWNER |>]> ms) →
  ∀ k' u, ms' !! (k', u) =
    if decide (k' = k ∧ u = new) then Some (m <| ChatMember.role_id := OWNER |>)
    else if decide (k' = k ∧ u = old_id)
         then (λ o, o <| ChatMember.role_id := ADMIN |>) <$> ms !! (k, u)
         else ms !! (k', u).
Proof.
  intros Hne ms' -> k' u. destruct (ms !! (k, old_id)) as [o|] eqn:Ho; unfold id; repeat case_decide;
    destruct_and?; subst; try done;
    rewrite ?(lookup_insert_ne _ (k, old_id)), ?lookup_insert_eq by naive_solver;
    rewrite ?(lookup_insert_ne _ (k, new)), ?lookup_insert_eq, ?Ho by naive_solver; done.
Qed.

(** A transfer of ownership that returns was ordered by the owner (or a
    global administrator) in a chat that is not direct; the new owner is a
    member, not banned and not the old one; afterwards the chat's [created_by]
    names them, they hold OWNER, the previous owner's row, if any, holds ADMIN,
    and every other row is as it was. *)
Theorem transfer_effect cmd w w' :
  opened w → TransferChatOwnership.handle cmd w = (Ok tt, w') →
  let caller := TransferChatOwnership.user_jwt_data cmd in
  let k := TransferChatOwnership.chat_id cmd in
  let new := TransferChatOwnership.new_owner_id cmd in
  ∃ c m,
    chats (w_database w) !! k = Some c ∧ Chat.type c ≠ DIRECT ∧ new ≠ Chat.created_by c ∧
    (ChatAccessService._has_global_chat_admin caller = false → jwt_id caller = Chat.created_by c) ∧
    members (w_database w) !! (k, new) = Some m ∧ ChatMember.is_banned (clock_at w 1) m = false ∧
    chats (w_database w') = <[k := c <| Chat.created_by := new |>]> (chats (w_database w)) ∧
    ∀ k' u, members (w_database w') !! (k', u) =
      (if decide (k' = k ∧ u = new) then Some (m <| ChatMember.role_id := OWNER |>)
       else if decide (k' = k ∧ u = Chat.created_by c)
       then (λ o, o <| ChatMember.role_id := ADMIN |>) <$> members (w_database w) !! (k, u)
       else members (w_database w) !! (k', u)).
Proof.
  intros Ho Hr caller k new. returned Hr. unfold TransferChatOwnership.handle. wp_steps.
  destruct (opened_chat _ _ _ Ho (conj H H0)) as (Hid & Hm & He & Hdb & Hd & _).
  destruct a0 as [[c' new'] prev].
  destruct (transfer_ownership_Ok _ _ _ _ _ _ _ H3) as (Ht & Hne & Hban & -> & -> & ->).
  destruct Ho as [Hs Heq]. pose proof (sound_wf _ Hs) as Hwf. wp_step.
  apply (wp_previous_owner _ (TransferChatOwnership.user_jwt_data cmd)); [done|done|].
  wp_step. wp_step. wp_step. apply wp_flush_chat; [intros _|reflexivity].
  cbn in H2. destruct (member_key _ _ _ _ Hwf H2) as [Hk1 Hk2].
  assert (∀ w1, chats (w_database w1) = <[k := c <| Chat.created_by := new |>]> (chats (w_session w)) →
    members (w_database w1) = match members (w_session w) !! (k, Chat.created_by c) with
      | Some o => <[(k, Chat.created_by c) := o <| ChatMember.role_id := ADMIN |>]>
      | None => id
      end (<[(k, new) := a <| ChatMember.role_id := OWNER |>]> (members (w_session w))) →
    ∃ c m,
      chats (w_database w) !! k = Some c ∧ Chat.type c ≠ DIRECT ∧ new ≠ Chat.created_by c ∧
      (ChatAccessService._has_global_chat_admin caller = false → jwt_id caller = Chat.created_by c) ∧
      members (w_database w) !! (k, new) = Some m ∧ ChatMember.is_banned (clock_at w 1) m = false ∧
      chats (w_database w1) = <[k := c <| Chat.created_by := new |>]> (chats (w_database w)) ∧
      ∀ k' u, members (w_database w1) !! (k', u) =
        (if decide (k' = k ∧ u = new) then Some (m <| ChatMember.role_id := OWNER |>)
         else if decide (k' = k ∧ u = Chat.created_by c)
         then (λ o, o <| ChatMember.role_id := ADMIN |>) <$> members (w_database w) !! (k, u)
         else members (w_database w) !! (k', u))) as Hfin.
  { intros w1 Hch Hms. exists c, a. rewrite <- Heq. rewrite Hk2 in Hne. split_and!; try done.
    - intros Hg. bool_simpl. unfold ChatAccessService.can_transfer_ownership in H1.
      unfold caller in Hg. rewrite Hg in H1.
      destruct (members (w_session w) !! _) as [r|] eqn:Hreq in H1; [|done]. bool_simpl.
      destruct (member_key _ _ _ _ Hwf Hreq) as [_ E]. unfold caller. by rewrite <- E.
    - by apply transferred_rows. }
  lazymatch goal with
  | |- context [match ?x with Some p => flush_member _ | None => _ end] => destruct x as [o|] eqn:Hold
  end; cbn in Hold;
    [destruct (member_key _ _ _ _ Hwf Hold) as [Ho1 Ho2]|];
    wp_steps; apply Hfin; cbn; unfold k, new; rewrite ?Hold, ?Hid, ?Hk1, ?Hk2, ?Ho1, ?Ho2; try done;
    unfold Chat.register_event; f_equal; by apply chat_row_events.
Qed.
End membership.

(** ** Instances: Alice acts on Bob in the sample group *)
Definition ban_bob : BanMember.command := BanMember.Mk (user 1) group_id 2 None None.
Lemma ban_bob_runs : BanMember.handle ban_bob group_world = (Ok tt, (BanMember.handle ban_bob group_world).2).
Proof. apply run_pair. vm_compute. reflexivity. Qed.

Lemma ban_effect_witness :
  ∃ target, members (w_database group_world) !! (group_id, 2) = Some target
    ∧ chats (w_database (BanMember.handle ban_bob group_world).2) = chats (w_database group_world).
Proof.
  destruct (ban_effect ban_bob group_world _ opened_group ban_bob_runs)
    as (c & target & _ & _ & Ht & _ & _ & Hc). exists target. exact (conj Ht Hc).
Defined.

Definition kick_bob : KickMember.command := KickMember.Mk (user 1) group_id 2.
Lemma kick_bob_runs : KickMember.handle kick_bob group_world = (Ok tt, (KickMember.handle kick_bob group_world).2).
Proof. apply run_pair. vm_compute. reflexivity. Qed.

Lemma kick_effect_witness :
  members (w_database (KickMember.handle kick_bob group_world).2)
  = delete (group_id, 2) (members (w_database group_world)).
Proof.
  destruct (kick_effect kick_bob group_world _ opened_group kick_bob_runs)
    as (c & target & _ & _ & _ & _ & Hm & _). exact Hm.
Defined.

Definition promote_bob : ChangeMemberRole.command :=
  ChangeMemberRole.Mk (user 1) group_id 2 (role_int ADMIN).
Lemma promote_bob_runs : ChangeMemberRole.handle promote_bob group_world = (Ok tt, (ChangeMemberRole.handle promote_bob group_world).2).
Proof. apply run_pair. vm_compute. reflexivity. Qed.

Lemma change_role_effect_witness :
  ∃ target role, members (w_database group_world) !! (group_id, 2) = Some target
    ∧ role_int ADMIN = role_int role.
Proof.
  destruct (change_role_effect promote_bob group_world _ opened_group
    promote_bob_runs) as (target & role & Ht & Hr & _).
  exists target, role. exact (conj Ht Hr).
Defined.

Definition add_carol : AddMember.command := AddMember.Mk (user 1) group_id 3 (role_int MEMBER).
Lemma add_carol_runs : AddMember.handle add_carol group_world = (Ok tt, (AddMember.handle add_carol group_world).2).
Proof. apply run_pair. vm_compute. reflexivity. Qed.

Lemma add_member_effect_witness : members (w_database group_world) !! (group_id, 3) = None.
Proof.
  destruct (add_member_effect add_carol group_world _ opened_group
    add_carol_runs) as (c & r & role & ids & _ & _ & Hn & _).
  exact Hn.
Defined.

Definition bob_leaves : LeaveChat.command := LeaveChat.Mk group_id (user 2).
Lemma bob_leaves_runs : LeaveChat.handle bob_leaves group_world = (Ok tt, (LeaveChat.handle bob_leaves group_world).2).
Proof. apply run_pair. vm_compute. reflexivity. Qed.

Lemma leave_effect_witness :
  ∃ m, members (w_database group_world) !! (group_id, 2) = Some m.
Proof.
  destruct (leave_effect bob_leaves group_world _ opened_group
    bob_leaves_runs) as (c & m & ids & _ & _ & Hm & _).
  exists m. exact Hm.
Defined.

Definition bob_takes_over : TransferChatOwnership.command :=
  TransferChatOwnership.Mk (user 1) group_id 2.
Lemma bob_takes_over_runs : TransferChatOwnership.handle bob_takes_over group_world = (Ok tt, (TransferChatOwnership.handle bob_takes_over group_world).2).
Proof. apply run_pair. vm_compute. reflexivity. Qed.

Lemma transfer_effect_witness :
  ∃ m, members (w_database group_world) !! (group_id, 2) = Some m
    ∧ members (w_database (TransferChatOwnership.handle bob_takes_over group_world).2) !! (group_id, 2)
      = Some (m <| ChatMember.role_id := OWNER |>).
Proof.
  destruct (transfer_effect bob_takes_over group_world _ opened_group
    bob_takes_over_runs) as (c & m & _ & _ & _ & _ & Hm & _ & _ & Hrows).
  exists m. split; [exact Hm|]. rewrite (Hrows group_id 2). rewrite decide_True; [reflexivity|split; reflexivity].
Defined.

Section access.
Context `{R : RBACManager}.
Import ChatAccessService.

(** A caller has permissions in a chat exactly when they are a global
    administrator, or a member who is not banned, not muted where sending is
    asked for, and whose role and overrides grant each of them. *)
Theorem has_permissions_iff n1 n2 j member ps :
  has_permissions n1 n2 j member ps = true ↔
  _has_global_chat_admin j = true ∨
  ∃ m, member = Some m ∧ ChatMember.is_banned n1 m = false
    ∧ ("message:send"%string ∈ ps → ChatMember.is_muted n2 m = false)
    ∧ ∀ p, p ∈ ps → ChatMember.has_permission m p = true.
Proof.
  unfold has_permissions. destruct (_has_global_chat_admin j) eqn:Hg; [naive_solver|].
  destruct member as [m|]; [|naive_solver].
  destruct (ChatMember.is_banned n1 m) eqn:Hb; [naive_solver congruence|].
  case_bool_decide as Hs; cbn; [destruct (ChatMember.is_muted n2 m) eqn:Hm|];
    rewrite ?grants_spec; naive_solver congruence.
Qed.

(** A caller may send into a chat exactly when they are a global
    administrator, or a member neither banned nor muted whose permissions
    include sending, who is staff or specially permitted where only admins
    write, and staff where the chat switched sending off. *)
Theorem can_send_iff n1 n2 j c member :
  can_send_message n1 n2 j c member = true ↔
  _has_global_chat_admin j = true ∨
  ∃ m, member = Some m ∧ ChatMember.is_banned n1 m = false ∧ ChatMember.is_muted n2 m = false
    ∧ ChatMember.has_permission m "message:send" = true
    ∧ (Chat.admin_only c = true →
       ChatMember.role_id m ∈ [OWNER; ADMIN; EDITOR]
       ∨ ChatMember.has_permission m "message:send_admin_only" = true)
    ∧ (Chat.permissions c !! "message:send"%string = Some false →
       ChatMember.role_id m ∈ [OWNER; ADMIN; EDITOR]).
Proof.
  unfold can_send_message. destruct (_has_global_chat_admin j); [naive_solver|].
  destruct member as [m|]; cbn; [|naive_solver].
  rewrite <- !ChatMember.has_permission_effective.
  assert (ChatMember.is_staff m = true ↔ ChatMember.role_id m ∈ [OWNER; ADMIN; EDITOR]) as Hst
    by apply ChatMember.is_staff_roles.
  destruct (ChatMember.is_banned n1 m) eqn:Hb; cbn; [naive_solver congruence|].
  destruct (ChatMember.is_muted n2 m) eqn:Hm; cbn; [naive_solver congruence|].
  destruct (ChatMember.has_permission m "message:send") eqn:Hp; cbn; [|naive_solver congruence].
  destruct Hst as [Hst1 Hst2].
  split; [intros Hx; right; exists m|intros [|(m' & [= <-] & _ & _ & _ & Ha & Hc)]; [done|]].
  - destruct (Chat.admin_only c), (ChatMember.is_staff m),
      (ChatMember.has_permission m "message:send_admin_only"); cbn in Hx; try discriminate Hx;
      split_and!; auto; try discriminate; intros Hs; rewrite ?bool_decide_true in Hx by done;
      try discriminate Hx; auto.
  - destruct (Chat.admin_only c), (ChatMember.is_staff m) eqn:Hs,
      (ChatMember.has_permission m "message:send_admin_only") eqn:Hao; cbn; try done;
      try (rewrite bool_decide_false by (intros E; specialize (Hst2 (Hc E)); discriminate); done);
      try (by destruct (bool_decide _)).
    destruct (Ha eq_refl) as [Hr|Hr]; [|discriminate]. by specialize (Hst2 Hr).
Qed.

(** The role a request may assign, branch by branch: an id that names no
    role is refused as such; a global administrator may assign any role; anyone
    else must be an unbanned member standing strictly above it. *)
Theorem assign_role_decision n j requester cid role_id :
  ensure_can_assign_role n j requester cid role_id =
  match role_of_int role_id with
  | None => Err (InvalidChatRoleError role_id)
  | Some role =>
    if _has_global_chat_admin j then Ok role
    else match requester with
         | Some r =>
           if negb (ChatMember.is_banned n r)
              && (CHAT_ROLE_LEVELS role <? CHAT_ROLE_LEVELS (ChatMember.role_id r))
           then Ok role else Err (AccessDeniedChatError cid (jwt_id j))
         | None => Err (AccessDeniedChatError cid (jwt_id j))
         end
  end.
Proof.
  unfold ensure_can_assign_role. destruct (role_of_int role_id) as [role|] eqn:Hr; [|done].
  apply role_of_int_inv in Hr as ->.
  assert (chat_role_level (role_int role) = Some (CHAT_ROLE_LEVELS role)) as ->
    by (apply chat_role_level_Some; eauto).
  destruct (_has_global_chat_admin j); [done|]. destruct requester as [r|]; [|done].
  unfold ChatMember.role. rewrite role_row_level, Z.leb_antisym.
  by destruct (ChatMember.is_banned n r), (_ <? _).
Qed.
End access.

(** A ban lasts until the instant it names, forever when it names none,
    and not at all when that instant has passed already; lifting it ends it at
    once. *)
Theorem ban_lasts n1 n2 now m by_ reason until :
  ChatMember.is_banned now (ChatMember.ban n1 n2 m by_ reason until) =
    match until with
    | None => now <? ChatMember.PERMANENT_UNTIL
    | Some u => (n1 <? u) && (now <? u)
    end
  ∧ ChatMember.is_banned now (ChatMember.unban n1 m by_) = false
  ∧ ChatMember.role_id (ChatMember.ban n1 n2 m by_ reason until) = ChatMember.role_id m.
Proof.
  split_and!; [|done..]. rewrite ChatMember.is_banned_ban. destruct until as [u|]; [|done].
  by rewrite Z.leb_antisym, negb_involutive.
Qed.

(** ** Privacy *)
Import ChatPrivacyService ChatUserBlockRepository.

(** Adding users to a group is refused exactly when some of them, the
    requester apart, block the requester or do not admit them for invitations,
    and the refusal lists precisely those, in order. *)
Theorem add_refused requester ids w :
  let refuses t := in_blocks (w_session w) t requester
                   || negb (admits (w_session w) GROUP_INVITES t requester) in
  let bad : gset Z := filter (λ t, t ≠ requester ∧ refuses t = true) (list_to_set ids) in
  ensure_can_add requester ids w =
  (if decide (bad = ∅) then Ok tt
   else Err (UserPrivacyRestrictedError (sorted_ids bad)), w).
Proof.
  cbv zeta. rewrite ensure_can_add_run. cbv zeta.
  assert (refusing (w_session w) GROUP_INVITES requester (list_to_set (filter (λ t, t ≠ requester) ids))
    = filter (λ t, t ≠ requester ∧ in_blocks (w_session w) t requester
                   || negb (admits (w_session w) GROUP_INVITES t requester) = true)
        (list_to_set ids : gset Z)) as ->; [|done].
  apply set_eq. intros t. unfold refusing.
  rewrite !elem_of_filter, !elem_of_list_to_set, list_elem_of_filter. naive_solver.
Qed.

Lemma peer_differs s k u p : wf s → peer_of s k u = Some p → p ≠ u.
Proof.
  intros Hw (m & Hm & ->)%fmap_Some. apply first_row_Some in Hm as ([k' u'] & Hm & Hc).
  apply (wf_member _ Hw) in Hm. injection Hm as -> ->. bool_simpl. done.
Qed.

(** Writing in a direct chat is allowed exactly when neither party blocks
    the other and the peer's rule for messages admits the writer; in any other
    chat privacy does not stand in the way. *)
Theorem message_privacy c u w :
  wf (w_session w) →
  (ensure_can_message c u w).1 = Ok tt ↔
  (Chat.type c = DIRECT → ∀ p, peer_of (w_session w) (Chat.id c) u = Some p →
     blocked_between (w_session w) p u = false ∧ admits (w_session w) MESSAGES p u = true).
Proof.
  intros Hw. unfold ensure_can_message. rewrite ensure_direct_run by (intros ?; by apply peer_differs). cbn.
  case_bool_decide as Ht; [|naive_solver].
  destruct (peer_of (w_session w) (Chat.id c) u) as [p|]; [|naive_solver].
  destruct (blocked_between _ _ _) eqn:Hb; [naive_solver congruence|].
  destruct (admits _ _ _ _) eqn:Ha; naive_solver congruence.
Qed.

(** The batched decision returns exactly the owners who admit the viewer
    one by one, for any rule and any set of owners, and reads nothing else. *)
Theorem batch_decision rule viewer owners w :
  ∃ allowed : gset Z, allowed_by rule viewer owners w = (Ok allowed, w) ∧
    ∀ o, o ∈ allowed ↔ o ∈ owners ∧ admits (w_session w) rule o viewer = true.
Proof.
  eexists. rewrite allowed_by_run. split; [done|]. intros o. rewrite elem_of_filter. tauto.
Qed.

(** ** Settings of a chat *)
Lemma username_tail_last s : username_tail s = true → ∃ c, list.last s = Some c ∧ is_alnum c = true.
Proof.
  induction s as [|c s IH]; [done|]. destruct s as [|d s]; intros H; [by exists c|].
  change (is_word c && username_tail (d :: s) = true) in H. bool_simpl.
  destruct (IH ltac:(done)) as (e & He & ?). by exists e.
Qed.

Lemma alnum_not_space c : is_alnum c = true → is_space c = false ∧ c ≠ 64.
Proof. unfold is_alnum, is_letter, is_space. lia. Qed.

Lemma lstrip_id s c : head s = Some c → is_space c = false → lstrip s = s.
Proof. destruct s; simpl; [done|]. by intros [= ->] ->. Qed.

Lemma username_stripped u : username_fullmatch u = true → removeprefix 64 (strip u) = u.
Proof.
  destruct u as [|c u]; [done|]. simpl. intros H. bool_simpl.
  assert (is_alnum c = true) as Hc by (unfold is_alnum; by rewrite H).
  apply alnum_not_space in Hc as [Hsp Hat].
  destruct (username_tail_last u) as (d & Hd & [Hd1 _]%alnum_not_space); [done|].
  unfold strip. rewrite (lstrip_id (c :: u) c) by done.
  rewrite (lstrip_id (reverse (c :: u)) d), reverse_involutive by
    (rewrite ?head_reverse; destruct u; done).
  simpl. by rewrite (proj2 (Z.eqb_neq c 64)).
Qed.

(** A user name is accepted exactly when, stripped of surrounding blanks
    and of one leading at-sign, it has a permitted length and form and is not
    reserved; that is the name stored, and validating it again changes nothing. *)
Theorem username_validation x u :
  (Chat.validate_username x = Ok u ↔
     u = removeprefix 64 (strip x)
     ∧ chat_config.CHAT_USERNAME_MIN_LENGTH ≤ len u ≤ chat_config.CHAT_USERNAME_MAX_LENGTH
     ∧ username_fullmatch u = true ∧ lower u ∉ chat_config.CHAT_USERNAME_RESERVED)
  ∧ (Chat.validate_username x = Ok u → Chat.validate_username u = Ok u).
Proof.
  split; [apply Chat.validate_username_iff|]. rewrite !Chat.validate_username_iff.
  intros [_ Hu]. split; [|done]. symmetry. apply username_stripped. by destruct Hu as (_ & ? & _).
Qed.

(** C33: the settings of a chat stay valid - slow mode within its bound, allowed
    reactions few and built in, approval of joins and a user name never in a
    direct chat, a user name only while public - when it is created, updated or
    renamed. *)
Theorem settings_valid :
  (∀ uuid by_ ids ct n d p a s ps j c ids',
     Chat.create uuid by_ ids ct n d p a s ps j = Ok (c, ids') → Chat.valid c)
  ∧ (∀ c by_ n d p a s ps rm ar j c',
     Chat.valid c → Chat.update c by_ n d p a s ps rm ar j = Ok c' → Chat.valid c')
  ∧ (∀ c by_ u c', Chat.valid c → Chat.set_username c by_ u = Ok c' → Chat.valid c').
Proof.
  split_and!.
  - intros * H. apply Chat.create_Ok in H. naive_solver.
  - intros * Hv H. apply Chat.update_keeps in H as (c1 & Hk & ->). by apply Hk in Hv.
  - intros * Hv H. apply Chat.set_username_keeps in H as (c1 & Hk & ->). by apply Hk in Hv.
Qed.

(** ** Roles and permissions of the platform *)
(** What a token may do: everything for a holder of a system role, else
    what it lists; a permission may be handed out by a system user, or by
    someone who holds it unless it is protected; a role by someone strictly
    above a role that has a level. *)
Theorem delegation j ps p u r :
  let system := role_name SYSTEM_ADMIN ∈ jwt_roles j ∨ role_name SUPER_ADMIN ∈ jwt_roles j in
  (AuthRBACManager.check_permission j ps = true ↔ system ∨ ps ⊆ list_to_set (jwt_permissions j))
  ∧ (AuthRBACManager.validate_permissions j p = Ok tt ↔
       system ∨ p ∉ AuthRBACManager.protected_permissions ∧ p ∈ jwt_permissions j)
  ∧ (AuthRBACManager.check_security_level u r = Ok tt ↔ r ≠ 0 ∧ r < u).
Proof.
  cbv zeta. rewrite <- AuthRBACManager.is_system_user_spec. split_and!.
  - unfold AuthRBACManager.check_permission, AuthRBACManager._to_set.
    destruct (AuthRBACManager.is_system_user j).
    + case_bool_decide; (split; [by left|done]).
    + case_bool_decide as He.
      * split; [right; rewrite He; apply empty_subseteq|done].
      * rewrite bool_decide_eq_true. split; [by right|]. by intros [|].
  - unfold AuthRBACManager.validate_permissions, AuthRBACManager._to_set.
    destruct (AuthRBACManager.is_system_user j); [by split; [left|]|].
    generalize AuthRBACManager.protected_permissions. intros protected.
    destruct (decide (p ∈ protected)) as [Hin|Hout];
      [rewrite (bool_decide_true (p ∈ protected) Hin)|rewrite (bool_decide_false (p ∈ protected) Hout)]; cbn.
    { split; [discriminate|]. intros [?|[Hn _]]; [discriminate|by destruct Hn]. }
    case_bool_decide as Hp; cbn; rewrite elem_of_list_to_set in Hp.
    + split; [discriminate|]. intros [?|[_ Hin]]; [discriminate|by destruct Hp].
    + split; [by right|done].
  - apply AuthRBACManager.check_security_level_Ok.
Qed.

(** ** Instances *)
Lemma message_privacy_witness :
  (ensure_can_message group_chat 2 group_world).1 = Ok tt.
Proof.
  apply (message_privacy group_chat 2 group_world (sound_wf _ (proj1 opened_group))).
  intros Ht. cbv in Ht. discriminate Ht.
Defined.
