(* ===== verification/MessageTheorems.v ===== *)
(** What the handlers of messages do when they return: sending, forwarding,
    editing, deleting, and slow mode. *)
From S2P Require Import Prelude Config Events MemberModel MessageModel ChatModel PrivacyModel Store Wp Rbac Access ChatRepo ChatWp PrivacyService MessageRepo MessageCommands Spec MembershipInv MembershipSpec TableInv SystemInv MessageSpec System Histories MembershipTheorems.

Ltac wp_clock ::= apply wp_now_exact.

(** ** Storing one message *)

(** the effect of storing [m] as the next message of the chat [c] *)
Record delivered (s s' : store) (c : Chat.t) (m : Message.t) : Prop := {
  dl_chat : chats s !! Message.chat_id m = Some c ∧ Chat.is_deleted c = false;
  dl_seq : Message.seq m = Chat.seq_counter c + 1;
  dl_counter : ∃ date, chats s' = <[Message.chat_id m := advance_seq c 1 date]> (chats s);
  dl_fresh : messages s !! Message.id m = None;
  dl_message : messages s' = <[Message.id m := message_row m]> (messages s);
  dl_event : ob_payload <$> outbox s' = (ob_payload <$> outbox s)
    ++ [SendedMessageEvent (Message.id m) (Message.chat_id m) (Message.seq m) (Message.author_id m)
          (message_type_value (Message.type m)) true];
}.

Lemma insert_delivered (s s' : store) k c date ids m :
  chats s !! k = Some c → Chat.is_deleted c = false →
  Message.chat_id m = k → Message.seq m = Chat.seq_counter c + 1 →
  Message.events m = [SendedMessageEvent (Message.id m) k (Message.seq m) (Message.author_id m)
                        (message_type_value (Message.type m)) true] →
  insert_message m (with_events ids (Message.events m) (s <| chats ::= <[k := advance_seq c 1 date]> |>)) = Ok s' →
  delivered s s' c m.
Proof.
  intros Hk Hd <- Hseq He (Hfresh & Hms & E)%insert_message_tables. split; try done.
  - exists date. by rewrite E.
  - rewrite E. cbn. rewrite fmap_app, outbox_rows_payload. by rewrite He.
Qed.

(** the end of [send] and [forward], for a message built by [Message.create] *)
Lemma wp_delivery (w0 : world) k sender content reply ty ffc ffm ffa atts w
  (Q : result error Message.t → world → Prop) :
  w_session w0 = w_database w0 → w_session w = w_session w0 → w_database w = w_database w0 →
  (∀ c m w', delivered (w_database w0) (w_database w') c m →
     Message.chat_id m = k ∧ Message.author_id m = Some sender ∧ Message.content m = content
     ∧ Message.type m = ty ∧ Message.forwarded_from_chat_id m = ffc
     ∧ Message.forwarded_from_message_id m = ffm ∧ Message.forwarded_from_author_id m = ffa
     ∧ Message.attachments m = (λ a, MessageAttachment.bind_to_message a (Message.seq m)) <$> atts →
     Q (Ok m) w') →
  (∀ e w', w_database w' = w_database w → Q (Err e) w') →
  wp (date ← now_utc;
      n ← ChatRepository.allocate_message_seq k date 1;
      n ← or_raise n (NotFoundChatError k);
      uuid ← uuid7;
      msg ← lift (Message.create uuid (Some sender) k n content reply ty ffc ffm ffa (Some atts) true None);
      _ ← publish_message msg;
      _ ← MessageRepository.create msg;
      _ ← commit;
      mret msg) w Q.
Proof.
  intros Heq Es Ed HS HE. apply wp_post; [|done].
  intros c date ids uuid m s w' [Hk Hd] Hm Hins <-.
  apply Message.created_Ok in Hm as (Hid & Hc & Hseq & Ha & Ht & Hcon & _ & _ & Hatt & ? & ? & ? & He).
  rewrite Es, Heq in *. apply (HS c); [|rewrite Hatt, Hseq; done].
  eapply insert_delivered; try done. by rewrite He, Hid, Hseq, Ha, Ht.
Qed.

(** the message answered, when there is one, must be live *)
Lemma wp_reply reply w (Q : result error unit → world → Prop) :
  ((∀ r, reply = Some r → is_Some (MessageRepository.live_message (w_session w) r)) → Q (Ok tt) w) →
  (∀ e, Q (Err e) w) →
  wp (match reply with
      | Some r =>
        reply_msg ← MessageRepository.get_by_id r false;
        guard_not (is_none reply_msg) (NotFoundMessageError r)
      | None => mret tt
      end) w Q.
Proof.
  intros HS HE. destruct reply as [r|]; [|by apply HS].
  apply wp_bind, wp_query, wp_guard_not; [|intros _; apply HE].
  destruct (MessageRepository.live_message _ r) eqn:Hl; [|done]. intros _. apply HS.
  intros ? [= <-]. eauto.
Qed.

Section messages.
Context `{R : RBACManager}.

(** A message that is sent was sent by a member the access service lets
    write; it is theirs, carries the text and type asked for and the next
    number of the chat, answers a message that exists, and is stored, counted
    and announced once. *)
Theorem send_effect cmd w w' m :
  opened w → SendMessage.handle cmd w = (Ok m, w') →
  let u := jwt_id (SendMessage.user_jwt_data cmd) in
  ∃ c member,
    members (w_database w) !! (SendMessage.chat_id cmd, u) = Some member ∧
    ChatAccessService.can_send_message (clock_at w 0) (clock_at w 1) (SendMessage.user_jwt_data cmd)
      c (Some member) = true ∧
    (∀ r, SendMessage.reply_to_id cmd = Some r →
       is_Some (MessageRepository.live_message (w_database w) r)) ∧
    Message.chat_id m = SendMessage.chat_id cmd ∧ Message.author_id m = Some u ∧
    Message.content m = SendMessage.content cmd ∧ Message.type m = SendMessage.message_type cmd ∧
    delivered (w_database w) (w_database w') c m.
Proof.
  intros [Hs Heq] Hr u. returned Hr. unfold SendMessage.handle. wp_steps.
  wp_service. wp_step. apply wp_slow; [|done]. intros w1 Es Ed. wp_step. wp_service. wp_step.
  apply wp_guard_not; [intros _|done]. cbv beta iota. wp_step.
  apply wp_reply; [intros Hreply|done]. cbv beta iota.
  lazymatch goal with |- wp _ ?w2 _ => apply (wp_delivery w) end; [done..| |by intros e w2 ->].
  intros c' m' w2 Hdel (E1 & E2 & E3 & E4 & _). bool_simpl.
  assert (c' = c) as ->. { destruct Hdel as [[Hk _] _ _ _ _ _]. rewrite E1, <- Heq in Hk. congruence. }
  exists c, m0. rewrite <- Heq in *. cbn in Hreply, Es. rewrite Es in Hreply. done.
Qed.

(** the chat, message and author a forwarded copy names: those of the original *)
Definition origin (m : Message.t) : option UUID * option UUID * option Z :=
  (none_else (Message.forwarded_from_chat_id m) (Some (Message.chat_id m)),
   none_else (Message.forwarded_from_message_id m) (Some (Message.id m)),
   none_else (Message.forwarded_from_author_id m) (Message.author_id m)).

Definition provenance (m : Message.t) : option UUID * option UUID * option Z :=
  (Message.forwarded_from_chat_id m, Message.forwarded_from_message_id m,
   Message.forwarded_from_author_id m).

(** Forwarding copies a live message the caller may read into a chat the
    caller may write to. The copy is the caller's, names the chat, message and
    author of the original - through a chain of forwards, the first one's - and
    takes a comment in place of the text when there is one. *)
Theorem forward_effect cmd w w' m :
  opened w → ForwardMessage.handle cmd w = (Ok m, w') →
  let u := jwt_id (ForwardMessage.user_jwt_data cmd) in
  ∃ c reader writer source,
    members (w_database w) !! (ForwardMessage.source_chat_id cmd, u) = Some reader ∧
    ChatAccessService.has_permissions (clock_at w 0) (clock_at w 1)
      (ForwardMessage.user_jwt_data cmd) (Some reader) ["message:read"%string] = true ∧
    MessageRepository.live_message (w_database w) (ForwardMessage.source_message_id cmd) = Some source ∧
    Message.chat_id source = ForwardMessage.source_chat_id cmd ∧
    members (w_database w) !! (ForwardMessage.target_chat_id cmd, u) = Some writer ∧
    ChatAccessService.can_send_message (clock_at w 2) (clock_at w 3)
      (ForwardMessage.user_jwt_data cmd) c (Some writer) = true ∧
    Message.chat_id m = ForwardMessage.target_chat_id cmd ∧ Message.author_id m = Some u ∧
    Message.type m = FORWARD ∧ provenance m = origin source ∧
    Message.content m = (if truthy_text (ForwardMessage.comment cmd)
                         then ForwardMessage.comment cmd else Message.content source) ∧
    delivered (w_database w) (w_database w') c m.
Proof.
  intros [Hs Heq] Hr u. returned Hr. unfold ForwardMessage.handle. wp_steps.
  wp_service. wp_step. apply wp_slow; [|done]. intros w1 Es Ed. wp_step. wp_step.
  apply (wp_delivery w); [done..| |by intros e w2 ->].
  intros c' m' w2 Hdel (E1 & E2 & E3 & E4 & E5 & E6 & E7 & _).
  destruct (MessageRepository.live_message _ _) as [src|] eqn:Hl; [|done]. simplify_eq/=. bool_simpl.
  assert (c' = c) as ->. { destruct Hdel as [[Hk _] _ _ _ _ _]. rewrite E1, <- Heq in Hk. congruence. }
  exists c, a, m0, src. rewrite <- Heq in *. unfold provenance. rewrite E5, E6, E7.
  split_and!; try done.
Qed.

Definition edited (text : text) (m : Message.t) : Message.t :=
  m <| Message.content := Some text |> <| Message.is_edited := true |>
    <| Message.has_links := contains_link (Some text) |>.

Lemma edited_row m text by_ m' :
  Message.attachments m = [] → Message.events m = [] →
  Message.update_content m text by_ = Ok m' → message_row m' = edited text m.
Proof.
  unfold Message.update_content. intros Ha He H. result_inv H. subst m'. destruct m. cbn in *.
  by subst.
Qed.

(** An edit that returns was the author's own, of a live message of the
    chat named; it replaces the text - within the limits - and marks the
    message edited; number, author and every other row stay. *)
Theorem edit_effect cmd w w' m' :
  opened w → EditMessage.handle cmd w = (Ok m', w') →
  let text := EditMessage.new_content cmd in
  ∃ m,
    messages (w_database w) !! EditMessage.message_id cmd = Some m ∧ Message.is_deleted m = false ∧
    Message.chat_id m = EditMessage.chat_id cmd ∧
    Message.author_id m = Some (jwt_id (EditMessage.user_jwt_data cmd)) ∧
    message_row m' = edited text m ∧ Message.validate_content m' = Ok tt ∧
    messages (w_database w') = <[EditMessage.message_id cmd := edited text m]> (messages (w_database w)) ∧
    ob_payload <$> outbox (w_database w') = (ob_payload <$> outbox (w_database w))
      ++ [ModifiedMessageEvent (Message.id m) (Message.chat_id m) (Message.seq m)
            (jwt_id (EditMessage.user_jwt_data cmd))].
Proof.
  intros [Hs Heq] Hr text. returned Hr. unfold EditMessage.handle. wp_steps.
  change (λ m : Message.t, m) with (@id Message.t) in *. rewrite option_fmap_id in *.
  lazymatch goal with
  | Hl : MessageRepository.live_message _ _ = Some ?m, Hu : Message.update_content _ _ _ = Ok ?m2 |- _ =>
    exists m; apply message_found in Hl as (Hm & Hid & Hd & Hat & Hev & _); [|auto with msgr];
    pose proof (edited_row _ _ _ _ Hat Hev Hu) as Hrow;
    apply Message.update_content_Ok in Hu as (E1 & _ & _ & _ & _ & _ & _ & _ & _ & Hv & E)
  end.
  bool_simpl. cbn. rewrite <- Heq, fmap_app, outbox_rows_payload, E, E1, Hrow, Hid, Hev in *. done.
Qed.

Lemma deleted_row (unpinned : list UUID) m u :
  Message.attachments m = [] → Message.events m = [] →
  let m' := match unpinned with
            | [] => Message.delete m u
            | _ => Message.unpin (Message.delete m u) u
            end in
  Message.id m' = Message.id m ∧ message_row m' = m <| Message.is_deleted := true |>
  ∧ Message.events m' = DeletedMessageEvent (Message.id m) (Message.chat_id m) (Message.seq m) u
      :: match unpinned with
         | [] => []
         | _ => [UnpinnedMessagesEvent (Message.chat_id m) [Message.id m] u false]
         end.
Proof. destruct m, unpinned; cbn; intros -> ->; done. Qed.

Lemma pin_removed (ps : gmap (UUID * UUID) ChatPinnedMessage.t) k i :
  filter (λ kv, ¬ (kv.1.1 = k ∧ kv.1.2 ∈ [i])) ps = delete (k, i) ps.
Proof.
  apply map_eq. intros [k' i']. destruct (decide ((k', i') = (k, i))) as [E|Hne].
  - rewrite E, lookup_delete_eq. apply map_lookup_filter_None. right. intros x _ Hn. apply Hn. by split; [|left].
  - rewrite lookup_delete_ne by congruence. destruct (ps !! (k', i')) as [x|] eqn:Hx.
    + apply map_lookup_filter_Some. split; [done|]. cbn. rewrite list_elem_of_singleton. naive_solver.
    + apply map_lookup_filter_None. by left.
Qed.

(** A deletion that returns was ordered by a member of the chat who wrote
    the message or has the right to delete; the row is marked, its pin - if it
    had one - goes with it, and both are announced. *)
Theorem delete_effect cmd w w' :
  opened w → DeleteMessage.handle cmd w = (Ok tt, w') →
  let caller := DeleteMessage.user_jwt_data cmd in
  let k := DeleteMessage.chat_id cmd in
  let i := DeleteMessage.message_id cmd in
  ∃ m member,
    messages (w_database w) !! i = Some m ∧ Message.is_deleted m = false ∧ Message.chat_id m = k ∧
    members (w_database w) !! (k, jwt_id caller) = Some member ∧
    (Message.author_id m = Some (jwt_id caller) ∨
     ChatAccessService.has_permissions (clock_at w 0) (clock_at w 1) caller (Some member)
       ["message:delete"%string] = true) ∧
    messages (w_database w') = <[i := m <| Message.is_deleted := true |>]> (messages (w_database w)) ∧
    pins (w_database w') = delete (k, i) (pins (w_database w)) ∧
    ob_payload <$> outbox (w_database w') = (ob_payload <$> outbox (w_database w))
      ++ DeletedMessageEvent i k (Message.seq m) (jwt_id caller)
      :: (if pins (w_database w) !! (k, i) then [UnpinnedMessagesEvent k [i] (jwt_id caller) false] else []).
Proof.
  intros [Hs Heq] Hr caller k i. returned Hr. unfold DeleteMessage.handle. wp_steps.
  change (λ m : Message.t, m) with (@id Message.t) in *. rewrite option_fmap_id in *.
  unfold ChatPinnedMessageRepository.delete_many. apply wp_execute_returning. intros ids0 s [= <- <-].
  lazymatch goal with
  | Hl : MessageRepository.live_message _ _ = Some ?m, Hg : negb (Message.chat_id ?m =? _) = false |- _ =>
    apply message_found in Hl as (Hm & Hid & Hd & Ha & He & Hv); [|auto with msgr];
    apply negb_false_iff, Z.eqb_eq in Hg
  end.
  rewrite Hid. set (unpinned := filter _ _).
  destruct (deleted_row unpinned a (jwt_id (DeleteMessage.user_jwt_data cmd)) Ha He) as (E1 & E2 & E3).
  set (m' := match unpinned with [] => _ | _ :: _ => _ end) in *.
  wp_steps. exists a, a0. cbn. rewrite <- Heq. rewrite fmap_app, outbox_rows_payload, E1, E2, E3, Hid, H0 in *.
  split_and!; try done.
  - apply andb_false_iff in H2 as [H2|H2]; bool_simpl; auto.
  - apply pin_removed.
  - f_equal. f_equal. unfold unpinned. cbn [filter list_filter]. fold k i.
    destruct (pins (w_session w) !! (k, i)) eqn:Hp; [rewrite decide_True|rewrite decide_False]; done.
Qed.

(** ** Several messages at once *)

(** whether the event of a new message asks for a notification *)
Definition notifies (m : Message.t) : bool :=
  existsb (λ e, match e with SendedMessageEvent _ _ _ _ _ n => n | _ => false end) (Message.events m).

(** what a copy in a batch names: nothing, or what it was forwarded from *)
Definition batch_origin (hide : bool) (m : Message.t) : option UUID * option UUID * option Z :=
  if hide then (None, None, None)
  else if bool_decide (Message.type m = FORWARD) then provenance m
  else (Some (Message.chat_id m), Some (Message.id m), Message.author_id m).

Lemma create_forward_provenance fresh source sender k n hide notify m :
  Message.create_forward fresh source sender k n hide notify = Ok m →
  provenance m = batch_origin hide source ∧ notifies m = notify.
Proof.
  unfold Message.create_forward, batch_origin, provenance, notifies.
  destruct hide; intros H; apply Message.created_Ok in H as (_ & _ & _ & _ & _ & _ & _ & _ & _ & -> & -> & -> & ->);
    (split; [|apply orb_false_r]); [done|]. by destruct (bool_decide _).
Qed.

Lemma build_forwards_copies cmd u : ∀ sources fresh n ms,
  ForwardMessages.build_forwards fresh cmd u sources n = Ok ms →
  Message.content <$> ms = Message.content <$> sources
  ∧ provenance <$> ms = batch_origin (ForwardMessages.hide_author cmd) <$> sources
  ∧ Forall (λ m, Message.author_id m = Some u) ms
  ∧ (sources ≠ [] → notifies <$> ms = replicate (length ms - 1) false ++ [true]).
Proof.
  induction sources as [|x sources IH]; intros fresh n ms; simpl.
  - intros [= <-]. done.
  - intros H. apply result_bind_Ok in H as (m & Hm & H). apply result_bind_Ok in H as (ms' & Hms & H).
    injection H as <-. pose proof (build_forwards_Ok _ _ _ _ _ _ Hms) as (_ & Hlen & _).
    apply IH in Hms as (E1 & E2 & E3 & E4).
    pose proof (create_forward_provenance _ _ _ _ _ _ _ _ Hm) as [Hp Hn].
    apply Message.create_forward_Ok in Hm as (_ & _ & Ha & Hc & _). csimpl.
    split_and!; [congruence|congruence|by constructor|]. intros _. rewrite Hn.
    destruct sources as [|y l]; [by destruct ms'|]. rewrite E4 by done. destruct ms'; [done|]. cbn.
    by rewrite Nat.sub_0_r.
Qed.

(** A batch is the comment, if any, followed by one copy of each source in
    order; the copies carry the sources' texts and, unless the author is
    hidden, where they come from; all are the caller's, numbered consecutively,
    and only the last one notifies. *)
Theorem forward_batch fresh cmd u sources comment first ms :
  ForwardMessages._build_messages fresh cmd u sources comment first = Ok ms → sources ≠ [] →
  let head := if truthy_text comment then [comment] else [] in
  Message.content <$> ms = head ++ (Message.content <$> sources)
  ∧ provenance <$> ms = ((λ _, (None, None, None)) <$> head)
      ++ (batch_origin (ForwardMessages.hide_author cmd) <$> sources)
  ∧ Forall (λ m, Message.author_id m = Some u ∧ Message.chat_id m = ForwardMessages.target_chat_id cmd) ms
  ∧ numbered first ms
  ∧ notifies <$> ms = replicate (length ms - 1) false ++ [true].
Proof.
  intros H Hne head. pose proof (build_messages_Ok _ _ _ _ _ _ _ H) as (Hnum & _ & Hall).
  unfold ForwardMessages._build_messages, head in *. destruct (truthy_text comment).
  - apply result_bind_Ok in H as (m & Hm & H). apply result_bind_Ok in H as (ms' & Hms & H).
    injection H as <-. pose proof (build_forwards_Ok _ _ _ _ _ _ Hms) as (_ & Hlen & _).
    apply build_forwards_copies in Hms as (E1 & E2 & E3 & E4).
    apply Message.created_Ok in Hm as (_ & _ & _ & Ha & _ & Hc & _ & _ & _ & F1 & F2 & F3 & He).
    csimpl. unfold provenance at 1, notifies at 1. rewrite E1, E2, Hc, F1, F2, F3, He, E4 by done.
    split; [done|]. split; [done|]. split; [|split; [exact Hnum|]].
    + apply Forall_cons_iff in Hall as [[? _] Hall]. constructor; [done|].
      eapply list.Forall_impl; [exact (Forall_and E3 Hall)|]. naive_solver.
    + destruct ms'; [by destruct sources|]. simpl. by rewrite ?Nat.sub_0_r.
  - apply build_forwards_copies in H as (E1 & E2 & E3 & E4). split_and!; auto.
    eapply list.Forall_impl; [exact (Forall_and E3 Hall)|]. naive_solver.
Qed.

(** ** Slow mode *)

(** C34: a user who may not bypass slow mode and was let through once is
    refused, by the error naming the chat, until the interval has passed on the
    clock, and let through from then on. *)
Theorem slow_mode_spacing c u member w w1 w2 member2 :
  MessageService.is_slow c u member w = (Ok tt, w1) → 0 < Chat.slow_mode_seconds c →
  ChatAccessService.can_bypass_slow_mode (clock_at w 0) member = false →
  w_slow_mode w2 !! (Chat.id c, u) = w_slow_mode w1 !! (Chat.id c, u) →
  ChatAccessService.can_bypass_slow_mode (clock_at w2 0) member2 = false →
  let free := clock_at w 1 + seconds (Chat.slow_mode_seconds c) in
  (clock_at w2 1 < free →
     ∃ ttl, 1 ≤ ttl ∧ (MessageService.is_slow c u member2 w2).1 = Err (SlowModeLimitError (Chat.id c) ttl))
  ∧ (free ≤ clock_at w2 1 → (MessageService.is_slow c u member2 w2).1 = Ok tt).
Proof.
  intros H1 Hpos Hb1 Hk Hb2 free.
  assert (∀ m w, ChatAccessService.can_bypass_slow_mode (clock_at w 0) m = false →
    MessageService.is_slow c u m w = ('(allowed, ttl) ← SCRIPT_SLOW_MODE (Chat.id c, u) (Chat.slow_mode_seconds c);
      guard_not (negb allowed) (SlowModeLimitError (Chat.id c) (Z.max 1 ttl))) (w <| w_ticks ::= S |>)) as Hrun.
  { intros m w0 Hb. unfold MessageService.is_slow, now_utc, mbind at 1, M_bind at 1.
    unfold clock_at in Hb. cbn in Hb. rewrite Hb, (proj2 (Z.leb_gt _ _)) by done. done. }
  assert (w_slow_mode w1 !! (Chat.id c, u) = Some free) as Hset.
  { rewrite Hrun in H1 by done. unfold SCRIPT_SLOW_MODE, mbind, M_bind in H1. cbv zeta in H1.
    destruct (match _ with Some _ => _ | None => _ end); [done|]. injection H1 as <-. cbn.
    by rewrite lookup_insert_eq. }
  rewrite Hset in Hk. rewrite Hrun by done. unfold SCRIPT_SLOW_MODE, mbind, M_bind. cbv zeta. cbn. rewrite Hk.
  unfold clock_at. cbn. split; intros Hc.
  - rewrite (proj2 (Z.ltb_lt _ _)) by done. eexists. split; [|reflexivity]. lia.
  - by rewrite (proj2 (Z.ltb_ge _ _)).
Qed.
End messages.

(** ** Limits *)

Lemma created_validated uuid sender k n content reply ty ffc ffm ffa atts notify act m :
  Message.create uuid sender k n content reply ty ffc ffm ffa (Some atts) notify act = Ok m →
  Message.validate_attachments m = Ok tt ∧ (ty = REPLY → is_Some reply).
Proof.
  unfold Message.create. cbn [is_some orb]. cbv zeta. intros H.
  apply result_bind_Ok in H as (u1 & H1 & H). apply result_bind_Ok in H as (u2 & _ & H).
  apply result_bind_Ok in H as ([] & H3 & H). injection H as <-. split; [exact H3|].
  apply raise_if_Ok in H1. intros ->. destruct reply; [eauto|done].
Qed.

Lemma content_within m s :
  Message.validate_content m = Ok tt → Message.content m = Some s →
  len s ≤ chat_config.MAX_MESSAGE_LENGTH ∧ 0 ∉ s.
Proof.
  unfold Message.validate_content. intros H E. rewrite E in H. destruct s as [|x s].
  - split; [done|]. apply not_elem_of_nil.
  - result_inv H. bool_simpl. done.
Qed.

Lemma count_kind_nonneg m kinds : 0 ≤ Message.count_kind m kinds.
Proof. unfold Message.count_kind, len. lia. Qed.

(** a voice message or a video note, if any, is the only attachment *)
Definition one_note (m : Message.t) : Prop :=
  let notes := Message.count_kind m [ATT_VOICE] + Message.count_kind m [ATT_VIDEO_NOTE] in
  notes ≤ 1 ∧ (0 < notes →
    Message.count_kind m [ATT_IMAGE; ATT_VIDEO] = 0 ∧ Message.count_kind m [ATT_FILE] = 0
    ∧ Message.type m ∈ [VOICE; VIDEO_NOTE; FORWARD]).

Lemma attachments_within m :
  Message.validate_attachments m = Ok tt →
  Message.count_kind m [ATT_IMAGE; ATT_VIDEO] ≤ chat_config.MAX_MEDIA_PER_MESSAGE
  ∧ Message.count_kind m [ATT_FILE] ≤ chat_config.MAX_FILES_PER_MESSAGE
  ∧ Forall (λ a, MessageAttachment.attachment_status a = SUCCESS) (Message.attachments m)
  ∧ one_note m
  ∧ (Message.type m = VOICE → Message.count_kind m [ATT_VOICE] = 1)
  ∧ (Message.type m = VIDEO_NOTE → Message.count_kind m [ATT_VIDEO_NOTE] = 1).
Proof.
  pose proof (count_kind_nonneg m) as Hp. unfold Message.validate_attachments, one_note. cbv zeta.
  intros H. do 7 (apply result_bind_Ok in H as (? & ?%raise_if_Ok & H)). apply raise_if_Ok in H.
  split_and!; bool_simpl; try done.
  - apply list.Forall_forall. intros a Ha. apply (proj1 (forallb_spec _ _) H) in Ha.
    unfold MessageAttachment.is_success in Ha. by bool_simpl.
  - intros Hn. rewrite (proj2 (Z.eqb_neq (_ + _) 0)) in * by lia. cbn [negb andb] in *. bool_simpl. done.
  - intros E. rewrite bool_decide_true in * by done. cbn [andb] in *. by bool_simpl.
  - intros E. rewrite (bool_decide_true (Message.type m = VIDEO_NOTE)) in * by done. cbn [andb] in *. by bool_simpl.
Qed.

(** A message that is created with attachments stays within the limits:
    its text has at most [MAX_MESSAGE_LENGTH] characters and no zero, it
    carries at most [MAX_MEDIA_PER_MESSAGE] media and [MAX_FILES_PER_MESSAGE]
    files, all of them processed; a voice message or video note comes alone,
    and only in a message of its type or a forward. *)
Theorem created_within_limits uuid sender k n content reply ty ffc ffm ffa atts notify act m :
  Message.create uuid sender k n content reply ty ffc ffm ffa (Some atts) notify act = Ok m →
  (∀ s, content = Some s → len s ≤ chat_config.MAX_MESSAGE_LENGTH ∧ 0 ∉ s)
  ∧ Message.count_kind m [ATT_IMAGE; ATT_VIDEO] ≤ chat_config.MAX_MEDIA_PER_MESSAGE
  ∧ Message.count_kind m [ATT_FILE] ≤ chat_config.MAX_FILES_PER_MESSAGE
  ∧ Forall (λ a, MessageAttachment.attachment_status a = SUCCESS) (Message.attachments m)
  ∧ one_note m
  ∧ (ty = VOICE → Message.count_kind m [ATT_VOICE] = 1)
  ∧ (ty = VIDEO_NOTE → Message.count_kind m [ATT_VIDEO_NOTE] = 1)
  ∧ (ty = REPLY → is_Some reply).
Proof.
  intros H. pose proof (created_validated _ _ _ _ _ _ _ _ _ _ _ _ _ _ H) as [Ha Hr].
  apply Message.created_Ok in H as (_ & _ & _ & _ & Ht & Hc & _ & Hv & _).
  apply attachments_within in Ha as (? & ? & ? & ? & Hvo & Hvn). rewrite Ht in *.
  split_and!; try done. intros s ->. by eapply content_within.
Qed.

(** ** Instances in the sample group *)
Definition bob_greets : SendMessage.command :=
  SendMessage.Mk group_id (Some (u8 "hello again")) (Some hello_id) REPLY [] (user 2).
Definition greeting : Message.t :=
  ltac:(let r := eval vm_compute in (SendMessage.handle bob_greets group_world).1 in
        lazymatch r with Ok ?x => exact x end).
Lemma bob_greets_runs :
  SendMessage.handle bob_greets group_world = (Ok greeting, (SendMessage.handle bob_greets group_world).2).
Proof. apply run_pair. vm_compute. reflexivity. Qed.

Lemma send_effect_witness :
  ∃ c, delivered (w_database group_world) (w_database (SendMessage.handle bob_greets group_world).2) c greeting.
Proof.
  destruct (send_effect bob_greets group_world _ _ opened_group bob_greets_runs)
    as (c & member & _ & _ & _ & _ & _ & _ & _ & Hd). exists c. exact Hd.
Defined.

Definition alice_forwards : ForwardMessage.command :=
  ForwardMessage.Mk (user 1) group_id hello_id group_id None.
Definition copy : Message.t :=
  ltac:(let r := eval vm_compute in (ForwardMessage.handle alice_forwards group_world).1 in
        lazymatch r with Ok ?x => exact x end).
Lemma alice_forwards_runs :
  ForwardMessage.handle alice_forwards group_world
  = (Ok copy, (ForwardMessage.handle alice_forwards group_world).2).
Proof. apply run_pair. vm_compute. reflexivity. Qed.

Lemma forward_effect_witness : Message.author_id copy = Some 1 ∧ Message.type copy = FORWARD.
Proof.
  destruct (forward_effect alice_forwards group_world _ _ opened_group alice_forwards_runs)
    as (c & rd & wr & src & _ & _ & _ & _ & _ & _ & _ & Ha & Ht & _). exact (conj Ha Ht).
Defined.

Definition bob_corrects : EditMessage.command := EditMessage.Mk (user 2) group_id hello_id (u8 "hi").
Definition corrected : Message.t :=
  ltac:(let r := eval vm_compute in (EditMessage.handle bob_corrects group_world).1 in
        lazymatch r with Ok ?x => exact x end).
Lemma bob_corrects_runs :
  EditMessage.handle bob_corrects group_world
  = (Ok corrected, (EditMessage.handle bob_corrects group_world).2).
Proof. apply run_pair. vm_compute. reflexivity. Qed.

Lemma edit_effect_witness :
  ∃ m, messages (w_database group_world) !! hello_id = Some m
    ∧ message_row corrected = edited (u8 "hi") m.
Proof.
  destruct (edit_effect bob_corrects group_world _ _ opened_group bob_corrects_runs)
    as (m & Hm & _ & _ & _ & He & _). exists m. exact (conj Hm He).
Defined.

Definition alice_deletes : DeleteMessage.command := DeleteMessage.Mk group_id hello_id (user 1).
Lemma alice_deletes_runs :
  DeleteMessage.handle alice_deletes busy_world = (Ok tt, (DeleteMessage.handle alice_deletes busy_world).2).
Proof. apply run_pair. vm_compute. reflexivity. Qed.

Lemma delete_effect_witness :
  pins (w_database (DeleteMessage.handle alice_deletes busy_world).2)
  = delete (group_id, hello_id) (pins (w_database busy_world)).
Proof.
  destruct (delete_effect alice_deletes busy_world _ opened_busy alice_deletes_runs)
    as (m & member & _ & _ & _ & _ & _ & _ & Hp & _). exact Hp.
Defined.

Definition two_copies : ForwardMessages.command :=
  ForwardMessages.Mk (user 1) group_id [hello_id] group_id true (Some (u8 "look")).
Definition batch : list Message.t :=
  ltac:(let r := eval vm_compute in
          (ForwardMessages._build_messages (λ i, 100 + Z.of_nat i) two_copies 1 [hello]
             (Some (u8 "look")) 2) in
        lazymatch r with Ok ?x => exact x end).
Lemma batch_built :
  ForwardMessages._build_messages (λ i, 100 + Z.of_nat i) two_copies 1 [hello] (Some (u8 "look")) 2
  = Ok batch.
Proof. vm_compute. reflexivity. Qed.

Lemma forward_batch_witness : notifies <$> batch = [false; true].
Proof.
  destruct (forward_batch _ _ _ _ _ _ _ batch_built ltac:(discriminate)) as (_ & _ & _ & _ & Hn). exact Hn.
Defined.

Definition slow_chat : Chat.t := group_chat <| Chat.slow_mode_seconds := 60 |>.
Lemma bob_lets_through :
  MessageService.is_slow slow_chat 2 (Some bob) group_world
  = (Ok tt, (MessageService.is_slow slow_chat 2 (Some bob) group_world).2).
Proof. apply run_pair. vm_compute. reflexivity. Qed.

Lemma slow_mode_spacing_witness :
  let w1 := (MessageService.is_slow slow_chat 2 (Some bob) group_world).2 in
  ∃ ttl, 1 ≤ ttl
    ∧ (MessageService.is_slow slow_chat 2 (Some bob) w1).1 = Err (SlowModeLimitError group_id ttl).
Proof.
  destruct (slow_mode_spacing slow_chat 2 (Some bob) group_world _ _ (Some bob) bob_lets_through
    ltac:(reflexivity) ltac:(reflexivity) eq_refl ltac:(vm_compute; reflexivity)) as [H _].
  apply H. vm_compute. reflexivity.
Defined.

Definition photo : MessageAttachment.t :=
  MessageAttachment.mark_proccesed
    (MessageAttachment.create 70 group_id 2 ATT_IMAGE (u8 "key") "image/png" (u8 "cat.png") 1000).
Definition with_photo : Message.t :=
  ltac:(let r := eval vm_compute in
          (Message.create 71 (Some 2) group_id 2 (Some (u8 "cat")) None IMAGE None None None (Some [photo]) true None) in
        lazymatch r with Ok ?x => exact x end).
Lemma with_photo_created :
  Message.create 71 (Some 2) group_id 2 (Some (u8 "cat")) None IMAGE None None None (Some [photo]) true None
  = Ok with_photo.
Proof. vm_compute. reflexivity. Qed.

Lemma created_within_limits_witness : Message.count_kind with_photo [ATT_IMAGE; ATT_VIDEO] ≤ 10.
Proof.
  destruct (created_within_limits _ _ _ _ _ _ _ _ _ _ _ _ _ _ with_photo_created) as (_ & Hm & _). exact Hm.
Defined.
