(* ===== verification/ActivityTheorems.v ===== *)
(** What reacting, reading and joining by a link do when they return. *)
From S2P Require Import Prelude Config Events MemberModel InviteModel MessageModel ChatModel PrivacyModel Store Wp Rbac Access ChatRepo ChatWp InviteRepo ChatCommands InviteCommands Reactions ReadReceipts Spec MembershipInv MembershipSpec TableInv ReactionInv SystemInv InviteSpec ReactionSpec ReadSpec System Histories MembershipTheorems.
Import ReadReceiptCoalesceQueue.

(** ** Reactions *)
Section reactions.
Context `{R : RBACManager}.

(** After a replacement of reactions that returns, the caller's reactions
    to the message are exactly the emojis sent, everybody else's and those to
    other messages are as before, and the message's counter of each emoji is
    the number of its reactions. *)
Theorem set_reactions_effect cmd w w' :
  opened w → SetReactions.handle cmd w = (Ok tt, w') →
  let u := jwt_id (SetReactions.user_jwt_data cmd) in
  let i := SetReactions.message_id cmd in
  (∀ i' u' e, is_Some (reactions (w_database w') !! (i', u', e)) ↔
     if decide (i' = i ∧ u' = u) then e ∈ SetReactions.emojis cmd
     else is_Some (reactions (w_database w) !! (i', u', e)))
  ∧ ∀ e, from_option MessageReactionCounter.count 0 (reaction_counters (w_database w') !! (i, e))
         = MessageReactionRepository.reaction_rows (w_database w') i e.
Proof.
  intros Ho Hr u i. returned Hr.
  eapply wp_mono; [by apply (SetReactions_runs false)|]. intros [x|e] w2; [|done]. intros [Hsteps Hrep].
  split; [exact Hrep|]. intros e. destruct Ho as [Hs Heq]. rewrite Heq in Hs.
  pose proof (rc_count _ (sound_reactions _ (sound_steps _ _ _ Hs Hsteps)) i e) as Hc.
  destruct (reaction_counters _ !! _) as [row|]; cbn; [by destruct Hc|done].
Qed.
End reactions.

(** ** Read cursors *)

(** A flush that returns has moved each receipt to the furthest of where
    it was and the cursors claimed for it - never back - and announced exactly
    the cursors whose receipt moved, for the chats that want it. *)
Theorem flush_effect cursors w n w' :
  w_session w = w_database w → ReadReceiptFlusher.flush cursors w = (Ok n, w') →
  (∀ key, receipt (w_database w') key
          = reach key (receipt (w_database w) key) (positions cursors))
  ∧ (∀ key m, at_least (receipt (w_database w) key) m → at_least (receipt (w_database w') key) m)
  ∧ (∀ c, c ∈ cursors → at_least (receipt (w_database w') (key_of c)) (cur_message_seq c))
  ∧ ob_payload <$> outbox (w_database w') = (ob_payload <$> outbox (w_database w)) ++
      ((λ c, ReadedMessageEvent (cur_chat_id c) (cur_message_seq c) (cur_user_id c)) <$>
         filter (λ c, cur_support_read_event c = true
                      ∧ receipt (w_database w') (key_of c) ≠ receipt (w_database w) (key_of c)) cursors).
Proof.
  intros Heq Hr. returned Hr. eapply wp_mono; [by apply flush_runs|].
  intros [x|e] w2; [|done]. intros [_ Hrec (es & Hout & ->) _]. split_and!; [done| | |done].
  - intros key m. rewrite Hrec. apply reach_from.
  - intros c Hc. rewrite Hrec.
    exact (reach_covers (positions cursors) _ _ _ (receipt (w_database w) (key_of c)) (in_positions _ _ Hc)).
Qed.

(** ** Delivery of a waiting cursor *)
Lemma due_fields_all now n q k d :
  rq_due q !! k = Some d → d ≤ now → Z.of_nat (size (rq_due q)) ≤ n → k ∈ due_fields now n q.
Proof.
  intros Hk Hd Hn. unfold due_fields. rewrite take_ge.
  - apply list_elem_of_fmap. exists (k, d). split; [done|].
    rewrite merge_sort_Permutation, list_elem_of_filter, elem_of_map_to_list. done.
  - rewrite length_fmap, merge_sort_Permutation.
    etrans; [apply length_filter|]. rewrite length_map_to_list. lia.
Qed.

(** No turn of the worker loses a cursor: if a position waits in the queue
    or is stored, then afterwards it, or one further, still does, whatever the
    flusher it was given does - commit and return, or raise and commit nothing. *)
Theorem no_cursor_lost (flush : list PendingReadCursor → M Z) w key n :
  sound_flusher flush → queue_ok (w_reads w) →
  held w key n → held (run_read_receipt_coalescer flush w).2 key n.
Proof.
  intros Hf Hq Hh. unfold run_read_receipt_coalescer.
  destruct (claim_run w) as (now & t & Hc). rewrite Hc. clear Hc.
  set (r := CLAIM_DUE_LUA _ _ _). set (w1 := w <| w_ticks := t |> <| w_reads := r.2 |>).
  assert (held w1 key n ∨ ∃ c, c ∈ r.1 ∧ key_of c = key ∧ n ≤ cur_message_seq c) as Hcase.
  { destruct Hh as [(m & Hm & Hle)|Hr]; [|by left; right].
    unfold pending in Hm. apply fmap_Some in Hm as (c & Hk & ->).
    destruct (claim_splits now chat_config.READ_RECEIPTS_COALESCE_MAX_KEYS_PER_TICK _ _ _ Hq Hk)
      as [[Hin _]|Hstay].
    - right. exists c. split_and!; [done| |done]. by eapply qo_key.
    - left. left. exists (cur_message_seq c). split; [|done]. unfold pending, w1, r.
      cbn [w_reads]. exact (f_equal (fmap cur_message_seq) Hstay). }
  destruct r.1 as [|c0 cs0] eqn:Er.
  { destruct Hcase as [|(c & Hin%elem_of_nil & _)]; done. }
  rewrite <- Er in *. clear Er c0 cs0. unfold run_command.
  set (w2 := w1 <| w_session := w_database w1 |>). specialize (Hf r.1 w2 eq_refl).
  destruct (flush r.1 w2) as [[k|e] w3].
  - destruct Hf as [_ Hrec _ Hqueue]. destruct Hcase as [[Hp|Hr]|(c & Hin & Hkey & Hle)].
    + left. cbn. by rewrite Hqueue.
    + right. cbn. rewrite Hrec. by apply reach_from.
    + right. cbn. rewrite Hrec, <- Hkey.
      destruct (reach_covers (positions r.1) _ _ _ (receipt (w_database w2) (key_of c)) (in_positions _ _ Hin))
        as (m & Hm & ?). exists m. split; [exact Hm|lia].
  - destruct Hf as [Hdb Hqueue]. destruct (requeue_run r.1 (w3 <| w_session := w_database w3 |>))
      as (w4 & Hw4 & [_ Hdb4 _ Hkeep Hhas]). rewrite Hw4. cbn in Hdb4, Hkeep.
    destruct Hcase as [[Hp|Hr]|(c & Hin & Hkey & Hle)].
    + left. cbn. apply Hkeep. by rewrite Hqueue.
    + right. cbn. by rewrite Hdb4, Hdb.
    + left. cbn. rewrite <- Hkey. destruct (Hhas c Hin) as (m & ? & ?). exists m. split; [done|lia].
Qed.

(** the instant, in milliseconds, at which a turn starts *)
Definition turn_ms (w : world) : Z := clock_at w 0 `quot` 1000.

(** C35: a cursor whose deadline has come is stored by the next turn of the
    worker, when no more keys wait than a turn takes; and enqueueing again
    before that never moves the deadline of a key that waits. *)
Theorem cursor_delivered w key c d :
  queue_ok (w_reads w) → rq_pending (w_reads w) !! key = Some c →
  rq_due (w_reads w) !! key = Some d → d ≤ turn_ms w →
  Z.of_nat (size (rq_due (w_reads w))) ≤ chat_config.READ_RECEIPTS_COALESCE_MAX_KEYS_PER_TICK →
  let w' := (run_read_receipt_coalescer ReadReceiptFlusher.flush w).2 in
  at_least (receipt (w_database w') key) (cur_message_seq c)
  ∧ rq_pending (w_reads w') !! key = None
  ∧ ∀ cursor deadline, rq_due (ENQUEUE_LUA cursor deadline (w_reads w)).2 !! key = Some d.
Proof.
  intros Hq Hk Hd Hle Hn w'.
  assert (∀ cursor deadline, rq_due (ENQUEUE_LUA cursor deadline (w_reads w)).2 !! key = Some d) as Hdue.
  { intros cursor deadline. rewrite enqueue_due by done. case_decide; subst; by rewrite ?Hd. }
  pose proof (due_fields_all _ _ _ _ _ Hd Hle Hn) as Hin.
  assert (c ∈ (CLAIM_DUE_LUA (turn_ms w) chat_config.READ_RECEIPTS_COALESCE_MAX_KEYS_PER_TICK (w_reads w)).1) as Hc.
  { apply list_elem_of_omap. eauto. }
  assert (rq_pending (CLAIM_DUE_LUA (turn_ms w) chat_config.READ_RECEIPTS_COALESCE_MAX_KEYS_PER_TICK
    (w_reads w)).2 !! key = None) as Hgone.
  { apply map_lookup_filter_None. right. cbn. tauto. }
  assert (claim_due w = (Ok (CLAIM_DUE_LUA (turn_ms w) chat_config.READ_RECEIPTS_COALESCE_MAX_KEYS_PER_TICK (w_reads w)).1,
    w <| w_ticks ::= S |> <| w_reads := (CLAIM_DUE_LUA (turn_ms w)
      chat_config.READ_RECEIPTS_COALESCE_MAX_KEYS_PER_TICK (w_reads w)).2 |>)) as Hclaim by reflexivity.
  subst w'. unfold run_read_receipt_coalescer. rewrite Hclaim. clear Hclaim.
  set (r := CLAIM_DUE_LUA _ _ _) in *. set (w1 := w <| w_ticks ::= S |> <| w_reads := r.2 |>).
  destruct r.1 as [|c0 cs0] eqn:Er; [by apply elem_of_nil in Hc|]. rewrite <- Er in *. clear Er c0 cs0.
  unfold run_command. set (w2 := w1 <| w_session := w_database w1 |>).
  pose proof (flush_runs r.1 w2 eq_refl) as Hf. unfold transaction, wp in Hf.
  destruct (ReadReceiptFlusher.flush r.1 w2) as [[k|e] w3] eqn:Hfl.
  - destruct Hf as [_ Hrec _ Hqueue]. split_and!; [| |done].
    + cbn. rewrite Hrec, <- (qo_key _ Hq _ _ Hk).
      exact (reach_covers (positions r.1) _ _ _ (receipt (w_database w2) (key_of c)) (in_positions _ _ Hc)).
    + cbn in *. by rewrite Hqueue.
  - by apply flush_returns in Hfl.
Qed.

(** ** Joining by a link *)
Lemma active_room now i l :
  ChatInviteLink.is_active now i = true → ChatInviteLink.usage_limit i = Some l →
  ChatInviteLink.usage_count i + 1 ≤ l.
Proof.
  unfold ChatInviteLink.is_active, ChatInviteLink.inactive_reason, ChatInviteLink.is_exhausted.
  intros H E. rewrite E in H. repeat case_match; try done. bool_simpl. lia.
Qed.

Section joining.
Context `{R : RBACManager}.

(** Whoever joins by a link held a code of a link that was active, in a
    live chat that is not direct. A link for requests leaves the membership
    alone and files the caller's pending request under the link; any other
    counts one use - within its limit - and makes the caller a member, once,
    with the default role, within the limit of the chat. *)
Theorem join_by_invite_effect cmd w res w' :
  opened w → JoinChatByInvite.handle cmd w = (Ok res, w') →
  let u := jwt_id (JoinChatByInvite.user_jwt_data cmd) in
  ∃ link c ids,
    invites (w_database w) !! ChatInviteLink.id link = Some link ∧
    ChatInviteLink.code link = JoinChatByInvite.code cmd ∧
    ChatInviteLink.is_active (clock_at w 0) link = true ∧
    chats (w_database w) !! ChatInviteLink.chat_id link = Some c ∧ Chat.is_deleted c = false ∧
    Chat.type c ≠ DIRECT ∧ members (w_database w) !! (Chat.id c, u) = None ∧
    match res with
    | Requested r =>
      ChatInviteLink.creates_join_request link = true ∧ filed (w_database w) c u (Some (ChatInviteLink.id link)) r ∧
      w_database w' = put_join_request r (with_events ids (ChatJoinRequest.events r) (w_database w))
    | Joined _ =>
      ChatInviteLink.creates_join_request link = false ∧
      Chat.member_count c + 1 ≤ Chat.member_limit (Chat.type c) ∧
      let used := link <| ChatInviteLink.usage_count := ChatInviteLink.usage_count link + 1 |> in
      let role := Chat.default_member_role (Chat.type c) in
      (∀ l, ChatInviteLink.usage_limit link = Some l → ChatInviteLink.usage_count used ≤ l) ∧
      w_database w' = with_events ids [AddedChatMemberEvent (Chat.id c) u (role_int role)]
                        (enroll c u role (put_invite used (w_database w)))
    end.
Proof.
  intros Ho Hr u. returned Hr. unfold JoinChatByInvite.handle. wp_steps.
  apply code_row in H as [Hi Hcode]; [|by apply sound_invites, Ho].
  case_match; [by wp_step|]. wp_steps; [|done].
  match goal with Ha : Some _ = Some _ |- _ => injection Ha as <- end.
  match goal with Hc : chats _ !! _ = Some c, Hd : Chat.is_deleted c = false |- _ =>
    destruct (opened_chat w _ c Ho (conj Hc Hd)) as (Hid & Hm & He & Hdb & Hd' & _);
    assert (live_row w (Chat.id c) c) as Hl by (by rewrite Hid) end.
  bool_simpl. pose proof Ho as [Hs Heq].
  destruct (ChatInviteLink.creates_join_request a) eqn:Hreq.
  - apply wp_bind, wp_submit; [done|exact Hl| |done]. intros r t1 Hr. wp_steps. exists a, c, ids.
    cbn. rewrite <- Heq. pose proof Hr as (_ & _ & _ & _ & Hn & _).
    split_and!; try done. unfold ChatInviteLink.is_active, clock_at. cbn. by rewrite H.
  - wp_step. wp_step. wp_step. wp_step. case_match; [case_match; wp_steps|]. wp_steps.
    apply wp_consume; [|intros t2; wp_steps; apply wp_query; by wp_steps].
    intros now t2 i Hi' Hact. cbn in Hi'. assert (i = a) as -> by congruence. cbv beta iota.
    apply (wp_newcomer_then c _ (λ chat, mret (Joined chat))); [exact Hl|exact Hm|exact He| |done].
    intros c' ids w2 Hdb' Hn Hlim. wp_steps. exists a, c, ids. rewrite Hdb'. cbn. rewrite <- Heq.
    split_and!; try done.
    + unfold ChatInviteLink.is_active, clock_at. cbn. by rewrite H.
    + intros l Hlim'. by eapply active_room.
Qed.
End joining.

(** ** Instances *)
Definition alice_reacts : SetReactions.command :=
  SetReactions.Mk group_id hello_id (take 2 chat_config.DEFAULT_REACTIONS) (user 1).
Lemma alice_reacts_runs :
  SetReactions.handle alice_reacts group_world = (Ok tt, (SetReactions.handle alice_reacts group_world).2).
Proof. apply run_pair. vm_compute. reflexivity. Qed.

Definition thumb : text := ltac:(found_row (chat_config.DEFAULT_REACTIONS !! 0%nat)).
Lemma set_reactions_effect_witness :
  from_option MessageReactionCounter.count 0
    (reaction_counters (w_database (SetReactions.handle alice_reacts group_world).2) !! (hello_id, thumb))
  = MessageReactionRepository.reaction_rows (w_database (SetReactions.handle alice_reacts group_world).2) hello_id thumb.
Proof.
  destruct (set_reactions_effect alice_reacts group_world _ opened_group alice_reacts_runs) as [_ H].
  exact (H thumb).
Defined.

Definition alice_read : PendingReadCursor := MkCursor group_id 1 1 true 0 true.
Lemma flush_runs_ok :
  ReadReceiptFlusher.flush [alice_read] group_world
  = (Ok 1, (ReadReceiptFlusher.flush [alice_read] group_world).2).
Proof. apply run_pair. vm_compute. reflexivity. Qed.

Lemma flush_effect_witness :
  at_least (receipt (w_database (ReadReceiptFlusher.flush [alice_read] group_world).2) (group_id, 1)) 1.
Proof.
  destruct (flush_effect [alice_read] group_world _ _ (proj2 opened_group) flush_runs_ok)
    as (_ & _ & H & _). apply (H alice_read). apply list_elem_of_here.
Defined.

(** Alice's position waits in the queue *)
Definition waiting_world : world :=
  (run_command (MarkAsRead.handle (MarkAsRead.Mk group_id 1 (user 1))) group_world).2.
Definition waiting : PendingReadCursor :=
  ltac:(found_row (rq_pending (w_reads waiting_world) !! (group_id, 1))).
Definition waiting_due : Z := ltac:(found_row (rq_due (w_reads waiting_world) !! (group_id, 1))).
Lemma waiting_row : rq_pending (w_reads waiting_world) !! (group_id, 1) = Some waiting.
Proof. vm_compute. reflexivity. Qed.
Lemma waiting_due_row : rq_due (w_reads waiting_world) !! (group_id, 1) = Some waiting_due.
Proof. vm_compute. reflexivity. Qed.

Lemma waiting_queue : w_reads waiting_world = MkReadQueue {[ (group_id, 1) := waiting ]} {[ (group_id, 1) := waiting_due ]}.
Proof. vm_compute. reflexivity. Qed.

Lemma waiting_ok : queue_ok (w_reads waiting_world).
Proof.
  rewrite waiting_queue. split; cbn.
  - intros k c [<- <-]%lookup_singleton_Some. vm_compute. reflexivity.
  - intros k. unfold is_Some. setoid_rewrite lookup_singleton_Some. naive_solver.
Qed.

(** a flusher whose database is down *)
Definition failing (cursors : list PendingReadCursor) : M Z := raise IndexError.
Lemma failing_sound : sound_flusher failing.
Proof. intros cursors w _. split; reflexivity. Qed.

Lemma no_cursor_lost_witness :
  held (run_read_receipt_coalescer failing waiting_world).2 (group_id, 1) (cur_message_seq waiting).
Proof.
  apply (no_cursor_lost failing waiting_world _ _ failing_sound waiting_ok).
  left. exists (cur_message_seq waiting). split; [vm_compute; reflexivity|apply Z.le_refl].
Defined.

Lemma cursor_delivered_witness :
  at_least (receipt (w_database (run_read_receipt_coalescer ReadReceiptFlusher.flush waiting_world).2) (group_id, 1))
    (cur_message_seq waiting).
Proof.
  apply (cursor_delivered waiting_world _ _ _ waiting_ok waiting_row waiting_due_row); vm_compute; discriminate.
Defined.

(** Alice makes a link that lets in at once; Carol follows it *)
Definition open_link_world : world := perform_all
  (sample_history ++ [Request (ReqCreateInviteLink (CreateInviteLink.Mk (user 1) group_id None None None false))])
  blank.
Lemma opened_open_link : opened open_link_world.
Proof. apply (opened_after [_; _; _]), sound_empty. Qed.
Definition carol_joins : JoinChatByInvite.command := JoinChatByInvite.Mk (user 3) [65].
Definition carol_joined : JoinResult :=
  ltac:(let r := eval vm_compute in (JoinChatByInvite.handle carol_joins open_link_world).1 in
        lazymatch r with Ok ?x => exact x end).
Lemma carol_joins_runs :
  JoinChatByInvite.handle carol_joins open_link_world
  = (Ok carol_joined, (JoinChatByInvite.handle carol_joins open_link_world).2).
Proof. apply run_pair. vm_compute. reflexivity. Qed.

Lemma join_by_invite_effect_witness :
  ∃ c, chats (w_database open_link_world) !! Chat.id c = Some c
    ∧ members (w_database open_link_world) !! (Chat.id c, 3) = None.
Proof.
  destruct (join_by_invite_effect carol_joins open_link_world _ _ opened_open_link carol_joins_runs)
    as (link & c & ids & _ & _ & _ & Hc & _ & _ & Hn & _). exists c. split; [|exact Hn].
  destruct (wf_chat _ (sound_wf _ (proj1 opened_open_link)) (ChatInviteLink.chat_id link) c) as (E & _).
  - rewrite (proj2 opened_open_link). exact Hc.
  - rewrite E. exact Hc.
Defined.
