(* ===== verification/RealtimeTheorems.v ===== *)
(** The realtime layer's theorems, and a gateway on which they are instantiated: Bob (2) has two connections, then opens a third; Alice (1) has one while Bob's message reaches the router. *)
From S2P Require Import Prelude Config Events MemberModel MessageModel ChatModel Store Wp MessageRepo WsModel Gateway Delivery WsCommands GatewaySpec DeliverySpec WsSpec TableInv SystemInv Histories.

Import ConnectionManager.

Definition no_redis : redis := MkRedis ∅ ∅ ∅ ∅.
Definition node1 : text := u8 "node1".

Definition open_conn (uid : Z) (cid : text) (t : datetime) : WSConnection.t :=
  WSConnection.Mk uid (u8 "device") [] cid t t ∅ ∅ [] [] None.

Definition bobs_ops : list gateway_op :=
  [WRegister 1 (open_conn 2 (u8 "a") 1); WRegister 2 (open_conn 2 (u8 "b") 2)].
Definition bobs : t * redis := gateway_run bobs_ops (empty_gateway node1, no_redis).

Definition alices_ops : list gateway_op := [WRegister 1 (open_conn 1 (u8 "a") 1)].
Definition alices : t * redis := gateway_run alices_ops (empty_gateway node1, no_redis).

Lemma bobs_fresh : ops_fresh bobs_ops (empty_gateway node1, no_redis).
Proof. do 2 (split; [vm_compute; reflexivity|]). exact I. Qed.

Lemma bobs_ok : gateway_ok bobs.1.
Proof.
  eapply ok_steps; [|apply (gateway_ok_empty node1)].
  apply (steps_run bobs_ops (empty_gateway node1, no_redis)); [apply gateway_ok_empty|apply bobs_fresh].
Qed.

Lemma alices_ok : gateway_ok alices.1.
Proof.
  eapply ok_steps; [|apply (gateway_ok_empty node1)].
  apply (steps_run alices_ops (empty_gateway node1, no_redis)); [apply gateway_ok_empty|].
  split; [vm_compute; reflexivity|exact I].
Qed.

Lemma bobs_users : user_conns bobs.1 2 = {[ u8 "a"; u8 "b" ]}.
Proof. vm_compute. reflexivity. Qed.

Lemma alices_users : connections_by_user alices.1 = {[ 1 := {[ u8 "a" ]} ]}.
Proof. vm_compute. reflexivity. Qed.

(** the router's state when Bob's message arrives *)
Definition bobs_message : DictEventDTO :=
  MkDictEvent 9 (SendedMessageEvent hello_id group_id 1 (Some 2) "text" true) 0.
Definition idle_router : router_state := MkRouter alices.2 [] [] (∅, ∅).
Definition idle_node : node := MkNode alices.1 idle_router.

Lemma node1_plain : plain node1.
Proof. split; [|done]. apply (bool_decide_unpack _). vm_compute. exact I. Qed.

Import ConnectionManager ChatDeliveryRouter.

(** C38: whatever a gateway that started empty is asked to do, in any order and
    with its background tasks run at any time, its indexes agree: a registered
    connection is filed under its own id and its own user, a user's set names
    registered connections of that user only, and no empty set is kept. *)
Theorem registry_consistent g r ops :
  ops_fresh ops (empty_gateway g, r) → gateway_ok (gateway_run ops (empty_gateway g, r)).1.
Proof.
  intros Hf. eapply ok_steps; [|apply (gateway_ok_empty g)].
  by apply (steps_run ops (empty_gateway g, r)); [apply gateway_ok_empty|].
Qed.

(** Registering the newest connection of a user keeps it and, once the
    tasks it starts have run, leaves at most [WS_MAX_CONNECTIONS_PER_USER]: those
    evicted are no younger than those kept, and other users lose nothing. *)
Theorem connection_cap now conn m r m1 r1 tasks :
  let cid := WSConnection.connection_id conn in
  let uid := WSConnection.user_id conn in
  gateway_ok m → objects m !! cid = None →
  (∀ k c, k ∈ user_conns m uid → objects m !! k = Some c →
    WSConnection.connected_at c < WSConnection.connected_at conn) →
  register now conn m r = (m1, r1, tasks) →
  let m2 := (foldl (λ mr k, run_task k mr) (m1, r1) tasks).1 in
  cid ∈ user_conns m2 uid
  ∧ Z.of_nat (size (user_conns m2 uid)) ≤ app_config.WS_MAX_CONNECTIONS_PER_USER
  ∧ (∀ old c kept c', old ∈ user_conns m uid → old ∉ user_conns m2 uid → objects m1 !! old = Some c →
       kept ∈ user_conns m2 uid → objects m1 !! kept = Some c' →
       WSConnection.connected_at c ≤ WSConnection.connected_at c')
  ∧ ∀ u, u ≠ uid → user_conns m2 u = user_conns m u.
Proof.
  intros cid uid Hok Hf Hnew Hreg m2.
  destruct (register_tasks now conn m r m1 r1 tasks Hok Hf Hnew Hreg) as (Hm1 & Hok1 & Hin & Ht & Hkeep).
  fold uid cid in Hin, Ht, Hkeep. set (n := excess m1 uid) in *.
  assert (∀ u, user_conns m2 u = user_conns m1 u ∖ list_to_set (WSConnection.connection_id <$> take n (by_age m1 uid))) as Hm2.
  { intros u. unfold m2. rewrite tasks_conns by done. by rewrite Ht. }
  assert (∀ k c, objects m1 !! k = Some c → k ∈ user_conns m1 uid →
    k ∈ user_conns m2 uid → c ∈ drop n (by_age m1 uid)) as Hkept.
  { intros k c Hk Hu Hk2. rewrite Hm2, kept_ids, elem_of_list_to_set in Hk2 by done.
    apply list_elem_of_fmap in Hk2 as (c' & Ek & Hc'). pose proof Hc' as Hc''.
    eapply elem_of_sublist, elem_of_by_age in Hc''; [|done|apply sublist_drop].
    destruct Hc'' as (k' & _ & Ho). pose proof (go_object _ Hok1 _ _ Ho). congruence. }
  split_and!.
  - rewrite Hm2. apply elem_of_difference. split; [done|].
    rewrite elem_of_list_to_set. intros (c & E & Hc)%list_elem_of_fmap. by apply (Hkeep c).
  - rewrite Hm2, size_kept by done. unfold n, excess, app_config.WS_MAX_CONNECTIONS_PER_USER. lia.
  - intros old c kept c' Ho Ho2 Hc Hk Hc'.
    assert (kept ∈ user_conns m1 uid) as Hk1 by (rewrite Hm2 in Hk; by apply elem_of_difference in Hk as [? _]).
    assert (old ∈ user_conns m1 uid) as Ho1.
    { rewrite Hm1, register_users, decide_True by done. by apply elem_of_union_r. }
    apply (sorted_split connected_le (take n (by_age m1 uid)) (drop n (by_age m1 uid)));
      [rewrite take_drop; apply by_age_sorted| |by eapply Hkept].
    rewrite Hm2, elem_of_difference in Ho2.
    assert (old ∈ (list_to_set (WSConnection.connection_id <$> take n (by_age m1 uid)) : gset text)) as Hin2
      by (apply dec_stable; tauto).
    rewrite elem_of_list_to_set in Hin2. apply list_elem_of_fmap in Hin2 as (c2 & E & Hin2). pose proof Hin2 as H2.
    eapply elem_of_sublist, elem_of_by_age in H2 as (k' & _ & Ho'); [|done|apply sublist_take].
    pose proof (go_object _ Hok1 _ _ Ho'). congruence.
  - intros u Hu. assert (user_conns m u = user_conns m1 u) as -> by (by rewrite Hm1, register_users, decide_False).
    rewrite Hm2. apply set_eq. intros k. rewrite elem_of_difference. split; [tauto|]. intros Hk. split; [done|].
    rewrite elem_of_list_to_set. intros (c & -> & Hc)%list_elem_of_fmap.
    eapply elem_of_sublist, elem_of_by_age in Hc as (k' & Hk' & Ho'); [|done|apply sublist_take].
    pose proof (go_object _ Hok1 _ _ Ho') as E. rewrite E in Hk.
    destruct (go_user _ Hok1 _ _ Hk') as (_ & x & Hx & Hxu), (go_user _ Hok1 _ _ Hk) as (_ & y & Hy & Hyu). congruence.
Qed.

(** C37: the fan-out of an event puts on each gateway's stream, in entries of at
    most [WS_GATEWAY_STREAM_USERS_PER_ENTRY] users that carry the event's frame,
    each unbanned member of the chat with a connection there once, the excluded
    apart, and no one else; and when the event announces a message, the offline
    signal names once each unbanned, unmuted member without a connection
    anywhere, the sender apart. *)
Theorem fanout_exact now s ev payload exclude until x :
  let x' := _route_fanout_on_write now s ev payload exclude until x in
  let sets := rd_sets (rs_redis x) in
  ∃ entries offline,
    rs_redis x' = add_all (rs_redis x) entries
    ∧ Forall (λ gd, carries ev payload false until gd.2) entries
    ∧ (∀ g, NoDup (recipients_at g entries)
       ∧ ∀ u, u ∈ recipients_at g entries ↔
           (active_member now s (we_chat_id ev) u ∧ 0 ≤ u) ∧ u ∉ exclude ∧ online_at sets u g)
    ∧ rs_signals x' = rs_signals x
        ++ (if decide (offline = []) then [] else [MkOfflineSignal (we_chat_id ev) ev offline])
    ∧ NoDup offline
    ∧ ∀ u, u ∈ offline ↔
        we_event_name ev ∈ OFFLINE_SIGNAL_EVENT_NAMES ∧ delta_notifies (we_delta ev) = true
        ∧ (∃ m, delivers_to now s (we_chat_id ev) m ∧ 0 ≤ dm_user_id m ∧ dm_user_id m = u ∧ listening now m)
        ∧ (u ∈ exclude ∨ ∀ g, ¬ online_at sets u g)
        ∧ delta_sender_id (we_delta ev) ≠ Some u.
Proof.
  intros x' sets. unfold x', _route_fanout_on_write. cbv zeta.
  set (sig := bool_decide _ && delta_notifies (we_delta ev)).
  pose proof (concat_member_batches now s (we_chat_id ev)) as Hcat.
  generalize dependent (member_batches now s (we_chat_id ev)). intros batches Hcat.
  pose proof (fanout_chunks_spec now ev payload exclude until sig batches x) as Hspec.
  destruct (fanout_chunks _ _ _ _ _ _ _ _) as [off x1]. destruct Hspec as (Hr & Hs & _ & Hoff).
  exists (batches ≫= batch_entries ev payload exclude until (rs_redis x)), off. split_and!.
  - by destruct off.
  - apply list.Forall_forall. intros gd (b & Hgd & _)%list_elem_of_bind.
    pose proof (entries_carry (batch_routes exclude (rs_redis x) b) ev payload false until) as Hall.
    rewrite list.Forall_forall in Hall. by apply Hall.
  - intros g. split.
    + apply NoDup_recipients_at. rewrite Hcat. apply NoDup_member_ids.
    + intros u. by rewrite elem_of_recipients_at, Hcat, elem_of_member_ids.
  - destruct off; cbn; rewrite ?Hs, ?app_nil_r; done.
  - rewrite Hoff. destruct sig; [|constructor]. apply NoDup_offline. rewrite Hcat. apply NoDup_member_ids.
  - intros u. rewrite Hoff. unfold sig.
    destruct (bool_decide _) eqn:E1; bool_simpl; [|rewrite elem_of_nil; tauto].
    destruct (delta_notifies _); [|cbn [andb]; rewrite elem_of_nil; naive_solver]. cbn [andb].
    rewrite elem_of_offline, Hcat. setoid_rewrite elem_of_members_past. unfold unreached. split.
    + intros ((m & [Hd Hlt] & <- & Hl) & Ho & Hsd). split_and!; [done..| |done|done]. exists m. split_and!; [done|lia|done..].
    + intros (_ & _ & (m & Hd & Hge & <- & Hl) & Ho & Hsd). split_and!; [|done|done]. exists m. split_and!; [done|lia|done..].
Qed.

(** every connection of a gateway has its route in Redis, as [register] and
    the refresh loop write it *)
Definition routes_written (m : ConnectionManager.t) (sets : gset (text * text)) : Prop :=
  ∀ u cid, cid ∈ user_conns m u →
    cid ≠ [] ∧ (WebsocketKeys.user_route_key u, user_route (gateway_id m) cid) ∈ sets.

(** an open connection whose queue has room *)
Definition accepting (c : WSConnection.t) : Prop :=
  WSConnection.closed c = None ∧ len (WSConnection.send_queue c) < app_config.WS_SEND_QUEUE_SIZE.

Lemma offer_accepting now f c :
  accepting c → offer now f c = c <| WSConnection.send_queue := WSConnection.send_queue c ++ [(f, now)] |>.
Proof.
  intros [Hc Hq]. unfold offer, WSConnection.try_send. rewrite Hc. cbn.
  by rewrite (proj2 (Z.leb_gt _ _)).
Qed.

(** a closed connection, or a full queue *)
Lemma offer_refused now f c :
  ¬ accepting c → (WSConnection.try_send now c f).1 = false ∧ offer now f c = c.
Proof.
  intros Ha. unfold offer, WSConnection.try_send. destruct (WSConnection.closed c) eqn:Hc; [done|]. cbn.
  destruct (Z.leb_spec app_config.WS_SEND_QUEUE_SIZE (len (WSConnection.send_queue c))); [done|]. by destruct Ha.
Qed.

Lemma online_here m sets cid u :
  plain (gateway_id m) → routes_written m sets → cid ∈ user_conns m u → online_at sets u (gateway_id m).
Proof.
  intros Hg Hr Hin. destruct (Hr u cid Hin) as [Hne Hset]. exists (user_route (gateway_id m) cid), cid.
  split; [done|]. by apply parse_user_route_written.
Qed.

(** a consumer that reads everything new *)
Lemma consume_all now m r f ds cid c :
  gateway_ok m → snd <$> st_new (stream_of m r) = Some <$> ds →
  (length ds <= app_config.WS_GATEWAY_STREAM_READ_COUNT)%nat → NoDup (ds ≫= dv_recipients) →
  Forall (λ d, dv_require_subscription d = false ∧ dv_expires_at d = None ∧ frame_of d = f) ds →
  objects m !! cid = Some c →
  objects (consume_once now m r).1.1 !! cid =
    Some (if decide (cid ∈ connections_by_id m ∧ WSConnection.user_id c ∈ ds ≫= dv_recipients)
          then offer now f c else c)
  ∧ (cid ∈ connections_by_id m → WSConnection.user_id c ∈ ds ≫= dv_recipients →
     (WSConnection.try_send now c f).1 = false → MkUnregister cid 1013 ∈ (consume_once now m r).2).
Proof.
  intros Hok Hds Hlen Hnd Hall Hc. unfold consume_once, XREADGROUP.
  rewrite take_ge by (apply (f_equal length) in Hds; rewrite !length_fmap in Hds; lia).
  pose proof (process_objects now f _ ds m cid c Hok Hds Hnd Hall Hc) as H.
  pose proof (process_refused now f _ ds m cid c Hok Hds Hnd Hall Hc) as H'.
  by destruct (_process_entries now (st_new (stream_of m r)) m) as [[??]?].
Qed.

(** C36: a message sent to a chat that fans out on write reaches every
    connection of the gateway that is open, has room in its send queue and whose
    user is an unbanned member exactly once, as one [new_message] frame with the
    message; a member's connection that is closed or whose queue is full gets
    nothing and is to be unregistered with code 1013; a connection of anybody
    else is not touched. This follows the message from the router's reading of
    the event to the queue of the connection, and supposes that the chat is not
    deleted and the message is found when the router reads the event, that the
    gateway's id is not empty and has no colon, that the connections' routes are
    in Redis, that the gateway's stream held nothing unread before the event,
    that the entries the event adds there fit one read
    ([WS_GATEWAY_STREAM_READ_COUNT]), and that the ids of users are not negative. *)
Theorem message_delivered now now' ms s e x m row msg mid chat seq sender mt notify :
  gateway_ok m → plain (gateway_id m) → routes_written m (rd_sets (rs_redis x)) →
  de_payload e = SendedMessageEvent mid chat seq sender mt notify →
  chats s !! chat = Some row → Chat.is_deleted row = false → Chat.fanout_strategy row = FANOUT_ON_WRITE →
  hydrated s (de_payload e) = Some msg →
  let x' := route_broker_message now ms s e x in
  st_new (stream_of m (rs_redis x)) = [] →
  (length (st_new (stream_of m (rs_redis x'))) <= app_config.WS_GATEWAY_STREAM_READ_COUNT)%nat →
  let m' := (consume_once now' m (rs_redis x')).1.1 in
  let f := FEvent "new_message" (str_uuid chat)
             (MkMessagePayload (de_event_id e) "chats.message.sent" (DEvent (de_payload e)) (Some msg) None)
             (de_created_at e) in
  ∀ cid c, cid ∈ connections_by_id m → objects m !! cid = Some c →
    (active_member now s chat (WSConnection.user_id c) → 0 ≤ WSConnection.user_id c → accepting c →
       objects m' !! cid = Some (c <| WSConnection.send_queue := WSConnection.send_queue c ++ [(f, now')] |>))
    ∧ (active_member now s chat (WSConnection.user_id c) → 0 ≤ WSConnection.user_id c → ¬ accepting c →
       objects m' !! cid = Some c ∧ MkUnregister cid 1013 ∈ (consume_once now' m (rs_redis x')).2)
    ∧ (¬ active_member now s chat (WSConnection.user_id c) → objects m' !! cid = Some c).
Proof.
  intros Hok Hg Hroutes He Hrow Hdel Hfan Hmsg x' Hnew Hlen m' f cid c Hcid Hc.
  set (ev := WsEvent_build e "new_message" FANOUT_ON_WRITE).
  set (payload := MkMessagePayload (de_event_id e) "chats.message.sent" (DEvent (de_payload e)) (Some msg) None).
  assert (x' = _route_fanout_on_write now s ev payload ∅ None x) as Hx'.
  { unfold x', route_broker_message, de_event_name. rewrite He in Hmsg |- *. 
    change (get_name (SendedMessageEvent mid chat seq sender mt notify)) with "chats.message.sent"%string.
    change (CHAT_EVENT_TO_WS_TYPE !! "chats.message.sent"%string) with (Some "new_message"%string).
    cbn [get_aggregate_id]. unfold get_fanout_strategy. rewrite Hrow. cbn [mbind option_bind]. rewrite Hdel, Hfan.
    cbn [andb]. rewrite Hmsg. unfold _dispatch, _route_to_removed_member, payload, ev, WsEvent_build, de_event_name.
    by rewrite He. }
  pose proof (fanout_exact now s ev payload ∅ None x) as (entries & off & Hr & Hcarry & Hat & _).
  rewrite <- Hx' in Hr. destruct (Hat (gateway_id m)) as [Hnd Hin]. clear Hat.
  set (ds := deliveries_at (gateway_id m) entries).
  assert (snd <$> st_new (stream_of m (rs_redis x')) = Some <$> ds) as Hds.
  { rewrite Hr. pose proof (add_all_stream (gateway_id m) (rs_redis x) entries) as Ha.
    unfold gateway_stream in Ha. unfold stream_of, stream_key in *. by rewrite Ha, Hnew. }
  rewrite recipients_deliveries in Hnd.
  assert (objects m' !! cid = Some (if decide (cid ∈ connections_by_id m ∧ WSConnection.user_id c ∈ ds ≫= dv_recipients)
    then offer now' f c else c)
    ∧ (cid ∈ connections_by_id m → WSConnection.user_id c ∈ ds ≫= dv_recipients →
       (WSConnection.try_send now' c f).1 = false → MkUnregister cid 1013 ∈ (consume_once now' m (rs_redis x')).2)) as [Hm' Hslow].
  { apply (consume_all now' m (rs_redis x') f ds cid c Hok Hds); [| | |exact Hc].
    - apply (f_equal length) in Hds. rewrite !length_fmap in Hds. lia.
    - exact Hnd.
    - apply deliveries_carry. eapply list.Forall_impl; [exact Hcarry|].
      intros [g d] (Ht & Hch & Hp & Hreq & Hts & Hu & _). cbn in *. split_and!; [done..|].
      unfold frame_of, f. rewrite Ht, Hch, Hp, Hts. unfold ev, WsEvent_build, payload. cbn. by rewrite He. }
  assert (we_chat_id ev = chat) as Hchat by (unfold ev, WsEvent_build; cbn; by rewrite He).
  pose proof (Hin (WSConnection.user_id c)) as Hiff. rewrite recipients_deliveries, Hchat in Hiff. fold ds in Hiff.
  destruct (go_live _ Hok _ Hcid) as (c' & Hc' & Hu). rewrite Hc in Hc'. injection Hc' as <-.
  assert (active_member now s chat (WSConnection.user_id c) → 0 ≤ WSConnection.user_id c →
          WSConnection.user_id c ∈ ds ≫= dv_recipients) as Hrec.
  { intros Ha Hge. apply Hiff. split; [exact (conj Ha Hge)|]. split; [apply not_elem_of_empty|].
    exact (online_here m _ cid _ Hg Hroutes Hu). }
  split_and!.
  - intros Ha Hge Hacc. rewrite Hm', decide_True; [by rewrite offer_accepting|]. split; [exact Hcid|by apply Hrec].
  - intros Ha Hge [Hf Ho]%(offer_refused now' f). split; [|by apply Hslow; [|apply Hrec|]].
    rewrite Hm', Ho. by case_decide.
  - intros Hna. rewrite Hm', decide_False; [done|]. intros [_ H]. apply Hiff in H. tauto.
Qed.

Section replays.
Context `{R : Rbac.RBACManager}.

(** C39: in every reachable database, a client that resumes a chat from any
    position and goes on from the position each history frame gives it, until
    told there is no more, ends, and has then been shown exactly the live
    messages after that position, each once, in the order of their numbers. *)
Theorem replay_complete s chat last_seq fuel :
  reached s → (size (messages s) < fuel)%nat →
  let got := catch_up s chat fuel last_seq in
  StronglySorted (key_lt Message.seq) got
  ∧ ∀ x, x ∈ got ↔ shown s chat x ∧ last_seq < Message.seq x.
Proof.
  intros Hr Hf got. assert (distinct_seqs s chat) as Hd.
  { intros k1 k2 m1 m2 H1 H2 <- E2 E. by eapply (mo_seq _ (sound_messages _ (reached_sound s Hr))). }
  unfold got. rewrite catch_up_all; [|done|pose proof (length_messages_after s chat last_seq); lia].
  split; [by apply messages_after_sorted|apply elem_of_messages_after].
Qed.
End replays.

(** A typing signal leaves at most [TYPING_MAX_TRACKED_CHATS] chats on
    record for a connection; it is announced only if the chat's context, no
    older than its lifetime, does not refuse it, and is then put on record with
    its time; and a repeat within the broadcast interval does nothing. *)
Theorem typing_signals mono cmd n w n' w' :
  node_few n → TypingCommand.action cmd ≠ ACT_CANCEL → TypingCommand.handle mono cmd n w = (Ok n', w') →
  node_few n'
  ∧ (nd_router n' = nd_router n ∨ stamped cmd mono n')
  ∧ ∀ c, objects (nd_manager n) !! TypingCommand.conn cmd = Some c →
      is_throttled (tracked cmd mono c) (TypingCommand.action cmd) mono = true →
      nd_router n' = nd_router n ∧ w' = w.
Proof.
  intros Hn Ha E. pose proof (handle_signal mono cmd n w Hn Ha) as H. unfold wp in H. rewrite E in H. by apply H.
Qed.

(** C40: what is written to Redis is read back: a user id, a chat id, the route
    of a user, and the route of a subscriber, for a gateway id that is not empty
    and has no colon. *)
Theorem texts_read_back u chat g cid :
  0 ≤ chat < 2 ^ 128 → plain g → cid ≠ [] →
  py_int (str_int u) = Some u
  ∧ parse_uuid (str_uuid chat) = Some chat
  ∧ parse_user_route (user_route g cid) = Some (g, cid)
  ∧ parse_active_subscription_route (WebsocketKeys.active_subscription_route u g cid)
    = Some (u, g, cid, WebsocketKeys.active_subscription_route u g cid).
Proof.
  intros Hc Hg Hne. split_and!;
    [apply py_int_str|by apply parse_str_uuid|by apply parse_user_route_written|by apply parse_subscription_written].
Qed.

(** ** Instances *)
Lemma registry_consistent_witness : gateway_ok (gateway_run bobs_ops (empty_gateway node1, no_redis)).1.
Proof. apply (registry_consistent node1 no_redis bobs_ops). exact bobs_fresh. Defined.

Lemma connection_cap_witness :
  let '(m1, r1, tasks) := register 3 (open_conn 2 (u8 "c") 3) bobs.1 bobs.2 in
  let m2 := (foldl (λ mr k, run_task k mr) (m1, r1) tasks).1 in
  u8 "c" ∈ user_conns m2 2 ∧ Z.of_nat (size (user_conns m2 2)) ≤ 2.
Proof.
  destruct (register 3 (open_conn 2 (u8 "c") 3) bobs.1 bobs.2) as [[m1 r1] tasks] eqn:E.
  destruct (connection_cap 3 (open_conn 2 (u8 "c") 3) bobs.1 bobs.2 m1 r1 tasks bobs_ok) as (H1 & H2 & _);
    [vm_compute; reflexivity| |exact E|exact (conj H1 H2)].
  intros k c. cbn [open_conn WSConnection.user_id WSConnection.connected_at]. rewrite bobs_users.
  intros [Hk%elem_of_singleton | Hk%elem_of_singleton]%elem_of_union Hc; subst k; vm_compute in Hc; injection Hc as <-; cbn; lia.
Defined.

Lemma message_delivered_witness :
  let x' := route_broker_message 0 0 (w_database group_world) bobs_message idle_router in
  ∃ c, objects (consume_once 1 alices.1 (rs_redis x')).1.1 !! u8 "a" = Some c ∧ len (WSConnection.send_queue c) = 1.
Proof.
  intros x'.
  destruct (message_delivered 0 1 0 (w_database group_world) bobs_message idle_router alices.1 group_chat
    (with_attachments (w_database group_world) hello) hello_id group_id 1 (Some 2) "text" true alices_ok)
    with (cid := u8 "a") (c := (open_conn 1 (u8 "a") 1) <| WSConnection.gateway_id := node1 |>) as [H _].
  - exact node1_plain.
  - intros u cid Hin. unfold user_conns in Hin. rewrite alices_users in Hin.
    destruct (decide (u = 1)) as [->|Hne]; [|rewrite lookup_singleton_ne in Hin by done; unfold default, from_option in Hin; by apply elem_of_empty in Hin].
    rewrite lookup_singleton_eq in Hin. change (cid ∈ ({[ u8 "a" ]} : gset text)) in Hin. apply elem_of_singleton in Hin as ->. split; [done|].
    apply (bool_decide_unpack _). vm_compute. exact I.
  - reflexivity.
  - exact group_row.
  - vm_compute. reflexivity.
  - vm_compute. reflexivity.
  - vm_compute. reflexivity.
  - vm_compute. reflexivity.
  - apply Nat.leb_le. vm_compute. reflexivity.
  - apply (bool_decide_unpack _). vm_compute. exact I.
  - vm_compute. reflexivity.
  - eexists. split; [apply H|].
    + exists alice. split; [exact alice_row|]. vm_compute. reflexivity.
    + cbn. lia.
    + split; [done|]. cbn. unfold app_config.WS_SEND_QUEUE_SIZE, len. cbn. lia.
    + vm_compute. reflexivity.
Defined.

Lemma replay_complete_witness :
  with_attachments (w_database group_world) hello ∈ catch_up (w_database group_world) group_id 2 0.
Proof.
  refine (proj2 (proj2 (replay_complete (w_database group_world) group_id 0 2 reached_group _) _) _).
  - apply Nat.ltb_lt. vm_compute. reflexivity.
  - split; [|apply Z.ltb_lt; vm_compute; reflexivity].
    exists hello_id, hello. split; [exact hello_row|]. split; [reflexivity|]. split; reflexivity.
Defined.

Lemma typing_signals_witness :
  ∃ n' w', TypingCommand.handle 5000000 (TypingCommand.Mk (u8 "a") group_id ACT_TYPING) idle_node group_world
    = (Ok n', w') ∧ node_few n'.
Proof.
  destruct (TypingCommand.handle 5000000 (TypingCommand.Mk (u8 "a") group_id ACT_TYPING) idle_node group_world)
    as [[n'|e] w'] eqn:E.
  - exists n', w'. split; [done|].
    refine (proj1 (typing_signals 5000000 (TypingCommand.Mk (u8 "a") group_id ACT_TYPING) idle_node group_world n' w' _ _ E)); [|done].
    intros cid c Hc. unfold idle_node in Hc. cbn [nd_manager] in Hc.
    assert (objects alices.1 = {[ u8 "a" := (open_conn 1 (u8 "a") 1) <| WSConnection.gateway_id := node1 |> ]}) as Ho
      by (vm_compute; reflexivity).
    rewrite Ho in Hc. apply lookup_singleton_Some in Hc as [_ <-]. unfold few, len, chat_config.TYPING_MAX_TRACKED_CHATS. cbn. lia.
  - exfalso. assert (match TypingCommand.handle 5000000 (TypingCommand.Mk (u8 "a") group_id ACT_TYPING) idle_node group_world
      with (Ok _, _) => true | _ => false end = true) as H by (vm_compute; reflexivity).
    rewrite E in H. discriminate H.
Defined.

Lemma texts_read_back_witness :
  parse_uuid (str_uuid group_id) = Some group_id ∧ parse_user_route (user_route node1 (u8 "a")) = Some (node1, u8 "a").
Proof.
  destruct (texts_read_back 2 group_id node1 (u8 "a")) as (_ & H1 & H2 & _); [unfold group_id; lia|exact node1_plain|done|exact (conj H1 H2)].
Defined.
