(* ===== verification/QuerySpec.v ===== *)
(** The laws of the read queries: pages by key, followed from cursor to cursor,
    make up the whole sorted list; what is shown of a message and of a member
    as a function of the tables; who may read a chat. *)
From S2P Require Import Prelude Config Events MemberModel MessageModel ChatModel PrivacyModel Store Wp Rbac Access ChatRepo PrivacyService InviteRepo MessageRepo Reactions ReadReceipts WsModel MessageQueries ChatQueries Spec MembershipInv TableInv SystemInv.

(** ** Pages by key *)
Lemma page_of_take {A} n (l : list A) : page_of n (take (S n) l) = (take n l, bool_decide (n < length l)%nat).
Proof.
  unfold page_of. rewrite take_take, Nat.min_l by lia. f_equal. rewrite length_take. apply bool_decide_ext. lia.
Qed.

Lemma page_of_fmap {A B} (f : A → B) n l : page_of n (f <$> l) = (f <$> (page_of n l).1, (page_of n l).2).
Proof. unfold page_of. by rewrite length_fmap, <- fmap_take. Qed.

Lemma next_of_fmap {A B K} (f : A → B) (key : B → K) n l :
  next_of key (page_of n (f <$> l)) = next_of (key ∘ f) (page_of n l).
Proof.
  rewrite page_of_fmap. unfold next_of. cbn. destruct (bool_decide _); [|done].
  rewrite fmap_last. by destruct (list.last _).
Qed.

Lemma next_of_ext {A K} (key1 key2 : A → K) n l :
  (∀ a, a ∈ l → key1 a = key2 a) → next_of key1 (page_of n l) = next_of key2 (page_of n l).
Proof.
  intros E. unfold next_of, page_of. cbn. destruct (bool_decide _); [|done].
  destruct (list.last (take n l)) as [a|] eqn:Hl; [|done]. cbn. f_equal. apply E.
  apply last_Some_elem_of in Hl. by eapply elem_of_take in Hl as (? & ?%list_elem_of_lookup_2 & _).
Qed.

Section keyset.
Context {A K : Type} (le : relation A) `{!RelDecision le, !Total le, !Transitive le}.
Context (key : A → K) (before : option K → A → bool) (l : list A).
Hypothesis before_none : ∀ a, before None a = true.
Hypothesis before_some : ∀ a b, a ∈ l → b ∈ l → before (Some (key a)) b = negb (bool_decide (le b a)).
Hypothesis antisymmetric : ∀ a b, a ∈ l → b ∈ l → le a b → le b a → a = b.
Hypothesis distinct : NoDup l.

Definition rows_after (c : option K) : list A := merge_sort le (filter (λ a, before c a = true) l).
Notation sorted := (merge_sort le l).

Lemma sorted_filter (P : A → Prop) `{!∀ a, Decision (P a)} :
  merge_sort le (filter P l) = filter P sorted.
Proof using All.
  apply (StronglySorted_unique_strong le).
  - intros a b Ha Hb. rewrite merge_sort_Permutation, list_elem_of_filter in Ha.
    rewrite list_elem_of_filter, merge_sort_Permutation in Hb. apply antisymmetric; tauto.
  - by apply StronglySorted_merge_sort.
  - apply sorted_filter_sublist; by apply StronglySorted_merge_sort.
  - by rewrite !merge_sort_Permutation.
Qed.

Lemma after_split pre x post : sorted = pre ++ x :: post → rows_after (Some (key x)) = post.
Proof using All.
  intros E. unfold rows_after. rewrite sorted_filter.
  assert (∀ a, a ∈ sorted → a ∈ l) as Hin by (intros a; by rewrite merge_sort_Permutation).
  assert (StronglySorted le sorted) as Hs by by apply StronglySorted_merge_sort.
  assert (NoDup sorted) as Hnd by by rewrite merge_sort_Permutation.
  assert (x ∈ l) as Hx by (apply Hin; rewrite E, elem_of_app; right; by left).
  assert (Reflexive le) as Hrefl by (intros a; by destruct (total le a a)).
  rewrite E in *. rewrite list.filter_app, filter_cons.
  apply list.NoDup_app in Hnd as (_ & Hdis & [Hxp Hnd]%list.NoDup_cons).
  rewrite decide_False.
  2: { rewrite before_some by done. by rewrite bool_decide_true. }
  rewrite (filter_none _ pre).
  2: { intros a Ha. rewrite before_some; [|done|apply Hin, elem_of_app; by left].
       rewrite bool_decide_true; [by intros ?|]. eapply (StronglySorted_app_1_elem_of le); [exact Hs|done|by left]. }
  cbn. apply filter_all. intros b Hb.
  assert (b ∈ l) as Hbl by (apply Hin, elem_of_app; right; by right).
  rewrite before_some by done. rewrite bool_decide_false; [done|]. intros Hle.
  apply StronglySorted_app_1_r in Hs. inversion Hs as [|? ? ? Hf]; subst. rewrite list.Forall_forall in Hf.
  assert (x = b) as -> by (apply antisymmetric; [done|done|by apply Hf|done]). done.
Qed.

(** the pages from a cursor on, each cursor taken from the page before *)
Fixpoint pages (fuel n : nat) (c : option K) : list A :=
  match fuel with
  | O => []
  | S fuel =>
    let page := page_of n (take (S n) (rows_after c)) in
    page.1 ++ match next_of key page with Some k => pages fuel n (Some k) | None => [] end
  end.

Lemma pages_from fuel n pre post c :
  (0 < n)%nat → sorted = pre ++ post → rows_after c = post → (length post < fuel)%nat → pages fuel n c = post.
Proof using All.
  intros Hn. revert pre post c. induction fuel as [|fuel IH]; intros pre post c E Hc Hlen; [lia|].
  cbn [pages]. rewrite Hc, page_of_take. unfold next_of. cbn [fst snd].
  case_bool_decide as Hmore; [|by rewrite take_ge, app_nil_r by lia].
  destruct (take n post) as [|x init _] eqn:Ht using rev_ind.
  { apply (f_equal length) in Ht. rewrite length_take in Ht. cbn in Ht. lia. }
  rewrite last_snoc. cbn. pose proof (take_drop n post) as Hd. rewrite Ht in Hd.
  rewrite (IH (pre ++ init ++ [x]) (drop n post)).
  - by rewrite Hd.
  - by rewrite <- app_assoc, Hd.
  - apply (after_split (pre ++ init)). transitivity (pre ++ (init ++ [x]) ++ drop n post); [by rewrite Hd|].
    by rewrite <- !app_assoc.
  - rewrite length_drop. lia.
Qed.

Lemma after_none : rows_after None = sorted.
Proof using before_none.
  unfold rows_after. f_equal. apply filter_all. intros; apply before_none.
Qed.

Lemma pages_complete fuel n : (0 < n)%nat → (length l < fuel)%nat → pages fuel n None = sorted.
Proof using All.
  intros Hn Hf. apply (pages_from fuel n []); [done|done|apply after_none|].
  by rewrite merge_sort_Permutation.
Qed.
End keyset.

(** following the cursors of a handler *)
Fixpoint follow {P X C} (items : P → list X) (next : P → option C) (fetch : option C → M P)
  (fuel : nat) (c : option C) : M (list X) :=
  match fuel with
  | O => mret []
  | S fuel =>
    page ← fetch c;
    match next page with
    | Some k => rest ← follow items next fetch fuel (Some k); mret (items page ++ rest)
    | None => mret (items page)
    end
  end.

Lemma follow_pages {P X A K} (le : relation A) `{!RelDecision le} (key : A → K) (before : option K → A → bool) (l : list A)
    (show : A → X) (items : P → list X) (next : P → option K) (fetch : option K → M P) (n : nat) w :
  (∀ c t, (∀ k, c = Some k → ∃ a, a ∈ l ∧ k = key a) →
     ∃ p t', fetch c (at_tick t w) = (Ok p, at_tick t' w)
     ∧ let page := page_of n (take (S n) (rows_after le before l c)) in
       items p = show <$> page.1 ∧ next p = next_of key page) →
  ∀ fuel c t, (∀ k, c = Some k → ∃ a, a ∈ l ∧ k = key a) →
    ∃ t', follow items next fetch fuel c (at_tick t w)
    = (Ok (show <$> pages le key before l fuel n c), at_tick t' w).
Proof.
  intros Hf. induction fuel as [|fuel IH]; intros c t Hc; [by exists t|].
  destruct (Hf c t Hc) as (p & t' & Hp & Hi & Hn). cbn [follow pages]. unfold mbind at 1, M_bind at 1. rewrite Hp, Hn.
  destruct (next_of key _) as [k|] eqn:E.
  - destruct (IH (Some k) t') as [t'' Hr].
    { intros ? [= <-]. unfold next_of in E. destruct (_ : bool) in E; [|done].
      destruct (list.last _) as [a|] eqn:Hl; [|done]. injection E as <-. exists a. split; [|done].
      apply last_Some_elem_of in Hl. apply subseteq_take, subseteq_take in Hl. unfold rows_after in Hl.
      rewrite merge_sort_Permutation in Hl. by apply list_elem_of_filter in Hl as [_ ?]. }
    exists t''. unfold mbind, M_bind. rewrite Hr, Hi. unfold mret, M_ret. by rewrite fmap_app.
  - exists t'. unfold mret, M_ret. by rewrite Hi, app_nil_r.
Qed.

(** ** What is shown *)

(** the profile of a user as [viewer] sees it *)
Definition hides_photo (s : store) (viewer u : Z) : bool :=
  negb (u =? viewer) && (in_blocks s u viewer || negb (ChatPrivacyService.admits s PHOTO u viewer)).
Definition profile_for (s : store) (viewer : Z) (p : ChatProfileDTO) : ChatProfileDTO :=
  if has_avatar p && hides_photo s viewer (cpd_user_id p) then p <| cpd_avatar_s3_key := None |> else p.
Definition node_for (s : store) (viewer : Z) (n : MessageNode) : MessageNode :=
  MkMessageNode (node_message n) (profile_for s viewer <$> node_profile n)
    (group_dtos (MessageReactionRepository.reaction_state s (Message.id (node_message n)) viewer)).

Lemma hides_photo_spec s viewer ids u :
  u ∈ ids → u ∈ ChatPrivacyService.refusing s PHOTO viewer (list_to_set (filter (λ t, t ≠ viewer) ids))
            ↔ hides_photo s viewer u = true.
Proof.
  intros Hu. unfold ChatPrivacyService.refusing, hides_photo.
  rewrite elem_of_filter, elem_of_list_to_set, list_elem_of_filter.
  destruct (Z.eqb_spec u viewer), (in_blocks s u viewer), (ChatPrivacyService.admits s PHOTO u viewer); cbn; naive_solver.
Qed.

Lemma strip_avatars_spec s viewer ids p :
  cpd_user_id p ∈ ids →
  strip_avatars (ChatPrivacyService.refusing s PHOTO viewer (list_to_set (filter (λ t, t ≠ viewer) ids))) p
  = if hides_photo s viewer (cpd_user_id p) then p <| cpd_avatar_s3_key := None |> else p.
Proof.
  intros Hp. unfold strip_avatars. pose proof (hides_photo_spec s viewer ids _ Hp) as Hh.
  case_bool_decide as Hin; destruct (hides_photo _ _ _); naive_solver.
Qed.

Lemma hidden_holders_run viewer profiles w :
  ∃ hidden, hidden_holders viewer profiles w = (Ok hidden, w)
    ∧ ∀ p, Some p ∈ profiles → hide_avatar hidden p = profile_for (w_session w) viewer p.
Proof.
  unfold hidden_holders. set (holders := filter _ (omap id profiles)).
  assert (∀ p, Some p ∈ profiles → has_avatar p = true → p ∈ holders) as Hin.
  { intros p Hp Ha. apply list_elem_of_filter. split; [done|]. apply list_elem_of_omap. by exists (Some p). }
  exists (ChatPrivacyService.refusing (w_session w) PHOTO viewer
            (list_to_set (filter (λ t, t ≠ viewer) (cpd_user_id <$> holders)))).
  split.
  - destruct holders as [|h holders]; [done|]. apply ChatPrivacyService.hidden_by_rule_run.
  - intros p Hp. unfold hide_avatar, profile_for. destruct (has_avatar p) eqn:Ha; [|done].
    apply strip_avatars_spec, list_elem_of_fmap_2. by apply Hin.
Qed.

Lemma message_profiles_in l d n p :
  d ∈ l → n ∈ dto_nodes d → node_profile n = Some p → p ∈ message_profiles l.
Proof.
  intros Hd Hn Hp. unfold message_profiles. apply list_elem_of_bind. exists d. split; [|done].
  apply list_elem_of_omap. eauto.
Qed.

Lemma dto_map_ext f g d : (∀ n, n ∈ dto_nodes d → f n = g n) → dto_map f d = dto_map g d.
Proof.
  unfold dto_nodes, dto_map. destruct d as [n [r|] [o|] ]; cbn; intros H; rewrite !H; set_solver.
Qed.

Lemma dto_map_map f g d : dto_map f (dto_map g d) = dto_map (f ∘ g) d.
Proof. by destruct d as [n [r|] [o|] ]. Qed.

Lemma dto_nodes_map f d : dto_nodes (dto_map f d) = f <$> dto_nodes d.
Proof. by destruct d as [n [r|] [o|] ]. Qed.

Lemma states_lookup s viewer ids i :
  i ∈ ids →
  list_to_map (M := gmap UUID MessageReactionState)
    (omap (λ i, pair i <$> MessageReactionRepository.reaction_state s i viewer) (fromkeys ids)) !! i
  = MessageReactionRepository.reaction_state s i viewer.
Proof.
  intros Hi. set (l := omap _ _).
  assert (NoDup l.*1) as Hnd.
  { unfold l. clear. pose proof (NoDup_fromkeys ids) as Hk. induction Hk as [|k ks Hk _ IH]; [constructor|].
    cbn. destruct (MessageReactionRepository.reaction_state s k viewer); cbn; [|done]. constructor; [|done].
    intros (x & -> & (j & Hj & Hx)%list_elem_of_omap)%list_elem_of_fmap.
    destruct (MessageReactionRepository.reaction_state s j viewer); [|done]. injection Hx as <-. done. }
  destruct (MessageReactionRepository.reaction_state s i viewer) as [st|] eqn:E.
  - apply elem_of_list_to_map_1; [done|]. apply list_elem_of_omap. exists i. rewrite E. split; [by apply elem_of_fromkeys|done].
  - apply not_elem_of_list_to_map_1. intros (x & Hx & (j & _ & Hj)%list_elem_of_omap)%list_elem_of_fmap.
    destruct (MessageReactionRepository.reaction_state s j viewer) eqn:E'; [|done]. injection Hj as <-. cbn in Hx. congruence.
Qed.

Lemma attach_run viewer l w :
  ReactionAttachService.attach l viewer w =
  (Ok (dto_map (λ n, n <| node_reactions := group_dtos (MessageReactionRepository.reaction_state (w_session w)
                            (Message.id (node_message n)) viewer) |>) <$> l), w).
Proof.
  destruct l as [|d0 l0]; [done|]. unfold ReactionAttachService.attach. set (l := d0 :: l0).
  unfold MessageReactionRepository.get_reaction_state_for_messages, mbind, M_bind, query. cbn [fst snd].
  unfold mret, M_ret. f_equal. f_equal. apply list_fmap_ext. intros i d Hi. apply dto_map_ext. intros n Hn.
  rewrite states_lookup; [done|]. apply list_elem_of_bind. exists d. split; [|by eapply list_elem_of_lookup_2].
  apply list_elem_of_fmap. by exists n.
Qed.

(** A page of messages for a viewer: each message on its own. *)
Lemma present_run viewer l w :
  present viewer l w = (Ok (dto_map (node_for (w_session w) viewer) <$> l), w).
Proof.
  unfold present, hide_in_messages. unfold mbind at 1 2, M_bind at 1 2.
  destruct (hidden_holders_run viewer (Some <$> message_profiles l) w) as (hidden & -> & Hh). cbn [mret M_ret].
  unfold mret, M_ret. rewrite attach_run. f_equal. f_equal. rewrite <- list_fmap_compose. apply list_fmap_ext.
  intros i d Hi. cbn [compose]. rewrite dto_map_map. apply dto_map_ext. intros n Hn.
  unfold hide_in_node, node_for. cbn.
  destruct (node_profile n) as [p|] eqn:Hp; unfold modify_field; destruct n; cbn in *; subst; [|done].
  cbn. rewrite Hh; [done|]. apply list_elem_of_fmap_2. eapply message_profiles_in; [|done|done].
  by eapply list_elem_of_lookup_2.
Qed.

(** Who may read a chat. *)
Definition may_read (s : store) (now : datetime) (chat_id : UUID) (user_id : Z) : bool :=
  match members s !! (chat_id, user_id) with
  | Some m => negb (ChatMember.is_banned now m)
  | None => false
  end.

Lemma ensure_reader_run chat user w :
  ∃ now t, ensure_reader chat user w
    = (if may_read (w_session w) now chat user then Ok tt else Err (NotChatMemberError chat user), at_tick t w)
      ∧ now = w_clock w (w_ticks w).
Proof.
  exists (w_clock w (w_ticks w)).
  unfold ensure_reader, may_read, ChatRepository.get_member_chat, mbind, M_bind, query.
  destruct (members (w_session w) !! (chat, user)) as [m|].
  - exists (S (w_ticks w)). split; [|done]. cbn. by destruct (ChatMember.is_banned _ _).
  - exists (w_ticks w). split; [|done]. cbn. f_equal. apply at_tick_self.
Qed.

#[export] Instance ensure_reader_ro chat user : ReadOnly (ensure_reader chat user).
Proof. intros w. destruct (ensure_reader_run chat user w) as (? & t & -> & _). by exists t. Qed.
#[export] Instance present_ro user l : ReadOnly (present user l).
Proof. intros w. rewrite present_run. exists (w_ticks w). apply at_tick_self. Qed.
#[export] Instance hidden_holders_ro user l : ReadOnly (hidden_holders user l).
Proof. intros w. destruct (hidden_holders_run user l w) as (? & -> & _). exists (w_ticks w). apply at_tick_self. Qed.

(** ** Messages of a chat *)
Lemma live_in_spec s chat m :
  m ∈ live_in s chat ↔ Message.chat_id m = chat ∧ Message.is_deleted m = false ∧ ∃ k, messages s !! k = Some m.
Proof.
  unfold live_in. rewrite list_elem_of_filter, list_elem_of_fmap. split.
  - intros ([? ?] & [k x] & -> & ?%elem_of_map_to_list). eauto.
  - intros (? & ? & k & Hk). split; [done|]. exists (k, m). by rewrite elem_of_map_to_list.
Qed.

(** ** Rows *)
Lemma NoDup_rows {V} (id_of : V → Z) (m : gmap Z V) :
  (∀ k v, m !! k = Some v → id_of v = k) → NoDup (map_to_list m).*2.
Proof.
  intros Hid. apply (NoDup_fmap_1 id_of). rewrite <- list_fmap_compose.
  rewrite (list_fmap_ext _ fst).
  - apply NoDup_fst_map_to_list.
  - intros i [k v] Hi. cbn. apply Hid. apply elem_of_map_to_list. by eapply list_elem_of_lookup_2.
Qed.

#[export] Instance message_seq_ge_total : Total message_seq_ge.
Proof. intros a b. unfold message_seq_ge. lia. Qed.
#[export] Instance message_seq_ge_trans : Transitive message_seq_ge.
Proof. intros a b c. unfold message_seq_ge. lia. Qed.

Section messages.
Context (s : store) (Hok : messages_ok s) (chat : UUID).

Lemma live_in_NoDup : NoDup (live_in s chat).
Proof using Hok.
  apply list.NoDup_filter, (NoDup_rows Message.id). intros k m Hm. by apply (mo_row s Hok) in Hm as (? & _).
Qed.

Lemma live_in_seq a b : a ∈ live_in s chat → b ∈ live_in s chat → Message.seq a = Message.seq b → a = b.
Proof using Hok.
  intros (Ha & _ & k1 & H1)%live_in_spec (Hb & _ & k2 & H2)%live_in_spec E.
  assert (k1 = k2) as <- by (eapply (mo_seq s Hok); [done|done|congruence|done]). congruence.
Qed.

Lemma live_in_antisymmetric a b :
  a ∈ live_in s chat → b ∈ live_in s chat → message_seq_ge a b → message_seq_ge b a → a = b.
Proof using Hok. intros Ha Hb H1 H2. apply live_in_seq; [done..|]. unfold message_seq_ge in *. lia. Qed.
End messages.

Lemma before_seq_some (a b : Message.t) : before_seq (Some (Message.seq a)) b = negb (bool_decide (message_seq_ge b a)).
Proof.
  unfold before_seq, message_seq_ge. case_bool_decide; cbn; [apply Z.ltb_ge|apply Z.ltb_lt]; lia.
Qed.

(** the pages of a chat's messages *)
Definition message_page (s : store) (chat : UUID) (n : nat) (c : option Z) : list Message.t * bool :=
  page_of n (take (S n) (rows_after message_seq_ge before_seq (live_in s chat) c)).
Definition message_for (s : store) (viewer : Z) (m : Message.t) : MessageDTO :=
  dto_map (node_for s viewer) (load_message s m).

Lemma paginated_page chat c n w :
  get_paginated_chat_messages chat c n true w =
  (Ok (load_message (w_session w) <$> take (S n) (rows_after message_seq_ge before_seq (live_in (w_session w) chat) c)), w).
Proof. by destruct c. Qed.

Lemma get_messages_run chat limit c j w :
  ∃ t, GetMessages.handle chat limit c j w
    = (if may_read (w_session w) (w_clock w (w_ticks w)) chat (jwt_id j) then
         let page := message_page (w_session w) chat (clamp 100 limit) c in
         Ok (MkMessagesDTO (message_for (w_session w) (jwt_id j) <$> page.1) (next_of Message.seq page) page.2)
       else Err (NotChatMemberError chat (jwt_id j)), at_tick t w).
Proof.
  unfold GetMessages.handle. destruct (ensure_reader_run chat (jwt_id j) w) as (? & t & Hr & ->).
  exists t. unfold mbind at 1, M_bind at 1. rewrite Hr. destruct (may_read _ _ _ _); [|done].
  unfold mbind at 1, M_bind at 1. rewrite paginated_page. cbn zeta. unfold mbind, M_bind. rewrite present_run.
  unfold mret, M_ret. do 2 f_equal. unfold message_page. rewrite page_of_fmap. cbn [fst snd w_session]. f_equal.
  - rewrite <- list_fmap_compose. done.
  - fold (page_of (clamp 100 limit)
      (load_message (w_session w) <$> take (S (clamp 100 limit)) (rows_after message_seq_ge before_seq (live_in (w_session w) chat) c))).
    rewrite <- page_of_fmap. rewrite next_of_fmap. done.
Qed.

(** ** Rules for the phrases of the queries *)
Section rules.
Implicit Types (w : world).

Lemma wp_ensure_reader chat user w (Q : result error unit → world → Prop) :
  (∀ t, may_read (w_session w) (w_clock w (w_ticks w)) chat user = true → Q (Ok tt) (at_tick t w)) →
  (∀ t, Q (Err (NotChatMemberError chat user)) (at_tick t w)) →
  wp (ensure_reader chat user) w Q.
Proof.
  intros H1 H2. unfold wp. destruct (ensure_reader_run chat user w) as (? & t & -> & ->).
  destruct (may_read _ _ _ _) eqn:E; cbn; auto.
Qed.

Lemma wp_present viewer l w (Q : result error (list MessageDTO) → world → Prop) :
  Q (Ok (dto_map (node_for (w_session w) viewer) <$> l)) w → wp (present viewer l) w Q.
Proof. unfold wp. by rewrite present_run. Qed.

Lemma wp_hidden_holders viewer l w (Q : result error (gset Z) → world → Prop) :
  (∀ hidden, (∀ p, Some p ∈ l → hide_avatar hidden p = profile_for (w_session w) viewer p) → Q (Ok hidden) w) →
  wp (hidden_holders viewer l) w Q.
Proof. intros H. unfold wp. destruct (hidden_holders_run viewer l w) as (hidden & -> & Hh). by apply H. Qed.

Lemma wp_shown_chat chat w (Q : result error Chat.t → world → Prop) :
  (∀ c, chats (w_session w) !! chat = Some c → Chat.is_deleted c = false → Q (Ok c) w) →
  Q (Err (NotFoundChatError chat)) w → wp (live_chat chat) w Q.
Proof.
  intros H1 H2. unfold live_chat, ChatRepository.get_by_id. apply wp_bind, wp_query.
  destruct (chats (w_session w) !! chat) as [c|] eqn:Hc; cbn; [|done].
  destruct (Chat.is_deleted c) eqn:Hd; cbn; [done|]. by apply H1.
Qed.

Lemma wp_message_in_chat chat i w (Q : result error Message.t → world → Prop) :
  (∀ m, messages (w_session w) !! i = Some m → Message.is_deleted m = false → Message.chat_id m = chat → Q (Ok m) w) →
  Q (Err (NotFoundMessageError i)) w → wp (message_in_chat chat i) w Q.
Proof.
  intros H1 H2. unfold message_in_chat, MessageRepository.get_by_id, MessageRepository.live_message.
  apply wp_bind, wp_query. destruct (messages (w_session w) !! i) as [m|] eqn:Hm; cbn; [|done].
  destruct (Message.is_deleted m) eqn:Hd; cbn; [done|]. case_match eqn:E; [|done]. apply H1; [done..|lia].
Qed.

(** a list comprehension that reads the clock *)
Lemma wp_for_all {A B} (f : A → M B) (R : A → B → Prop) l w (Q : result error (list B) → world → Prop) :
  (∀ a t, a ∈ l → wp (f a) (at_tick t w) (λ r w', ∃ b t', r = Ok b ∧ w' = at_tick t' w ∧ R a b)) →
  (∀ bs t, Forall2 R l bs → Q (Ok bs) (at_tick t w)) → wp (for_all f l) w Q.
Proof.
  assert (∀ l t (Q : result error (list B) → world → Prop),
    (∀ a t, a ∈ l → wp (f a) (at_tick t w) (λ r w', ∃ b t', r = Ok b ∧ w' = at_tick t' w ∧ R a b)) →
    (∀ bs t, Forall2 R l bs → Q (Ok bs) (at_tick t w)) → wp (for_all f l) (at_tick t w) Q) as H.
  - clear Q. intros l0. induction l0 as [|a l0 IH]; intros t Q Hf HQ; cbn; [apply wp_ret, HQ; constructor|].
    apply wp_bind. eapply wp_mono; [apply (Hf a); by left|]. cbn. intros ? ? (b & t' & -> & -> & Hb).
    apply wp_bind, IH; [intros a' t1 Ha'; apply Hf; by right|]. intros bs t1 Hbs. apply wp_ret, HQ. by constructor.
  - intros Hf HQ. rewrite (at_tick_self w) at 1. apply H; auto.
Qed.
End rules.

(** ** The first rows of several lists *)
Section tops.
Context {A : Type} (le : relation A) `{!RelDecision le, !Total le, !Transitive le}.

Lemma sub_NoDup (k l : list A) : k ⊆+ l → NoDup l → NoDup k.
Proof using Type.
  intros (r & ->)%submseteq_Permutation Hnd. by apply list.NoDup_app in Hnd as (? & _).
Qed.

Lemma sorted_prefix (l : list A) k x z :
  StronglySorted le l → l !! k = Some x → z ∈ l → ¬ le x z → z ∈ take k l.
Proof using All.
  intros Hs Hk Hz Hn. rewrite <- (take_drop_middle _ _ _ Hk) in Hs, Hz.
  apply elem_of_app in Hz as [Hz|[->|Hz]%elem_of_cons]; [done| |].
  - exfalso. apply Hn. by destruct (total le x x).
  - apply StronglySorted_app_1_r in Hs. inversion Hs as [|? ? ? Hf]; subst. rewrite list.Forall_forall in Hf.
    exfalso. by apply Hn, Hf.
Qed.

(** rows after [n] others of their list do not reach the first [n] *)
Lemma top_of_two n (l r : list A) :
  NoDup (l ++ r) → (∀ a b, a ∈ l ++ r → b ∈ l ++ r → le a b → le b a → a = b) →
  take n (merge_sort le (take n (merge_sort le l) ++ r)) = take n (merge_sort le (l ++ r)).
Proof using All.
  intros Hnd Has. set (a := take n (merge_sort le l)). set (b := drop n (merge_sort le l)).
  assert (a ++ b ≡ₚ l) as Hl by (unfold a, b; rewrite take_drop; apply merge_sort_Permutation).
  assert (StronglySorted le (a ++ b)) as Hab.
  { unfold a, b. rewrite take_drop. by apply StronglySorted_merge_sort. }
  destruct (decide (b = [])) as [Hb|Hb].
  { assert (a = merge_sort le l) as -> by (rewrite <- (take_drop n (merge_sort le l)); fold a b; by rewrite Hb, app_nil_r).
    f_equal. apply (StronglySorted_unique_strong le); try by apply StronglySorted_merge_sort.
    - intros x y. rewrite !merge_sort_Permutation. apply Has.
    - by rewrite !merge_sort_Permutation. }
  assert (length a = n) as Hlen.
  { unfold a. rewrite length_take. unfold b in Hb. destruct (decide (n ≤ length (merge_sort le l))%nat); [lia|].
    by rewrite drop_ge in Hb by lia. }
  set (S0 := merge_sort le (a ++ r)).
  assert (a ++ r ⊆+ l ++ r) as Hsub by (rewrite <- Hl; apply submseteq_app; [apply submseteq_inserts_r; done|done]).
  assert (∀ x, x ∈ take n S0 → ∀ y, y ∈ b → le x y) as Hfirst.
  { intros x (k & Hk & Hkn)%elem_of_take y Hy. destruct (decide (le x y)) as [|Hn]; [done|]. exfalso.
    assert (a ⊆+ take k S0) as Hlt%submseteq_length.
    { apply NoDup_submseteq; [eapply sub_NoDup; [|exact Hnd]; rewrite <- Hl; do 2 apply submseteq_inserts_r; done|].
      intros z Hz. eapply (sorted_prefix S0 k x); [by apply StronglySorted_merge_sort|done| |].
      - unfold S0. rewrite merge_sort_Permutation. apply elem_of_app. by left.
      - intros Hxz. apply Hn. transitivity z; [done|]. by eapply (StronglySorted_app_1_elem_of le). }
    rewrite length_take in Hlt. lia. }
  assert (merge_sort le (l ++ r) = take n S0 ++ merge_sort le (drop n S0 ++ b)) as ->.
  { apply (StronglySorted_unique_strong le).
    - intros x y. rewrite merge_sort_Permutation. intros Hx Hy. apply Has; [done|].
      revert Hy. rewrite merge_sort_Permutation, app_assoc, take_drop. unfold S0.
      rewrite merge_sort_Permutation. rewrite <- Hl. set_solver.
    - by apply StronglySorted_merge_sort.
    - assert (StronglySorted le S0) as HS by by apply StronglySorted_merge_sort.
      rewrite <- (take_drop n S0) in HS. apply StronglySorted_app.
      split_and!; [|by apply StronglySorted_app_1_l in HS|by apply StronglySorted_merge_sort].
      intros x y Hx. rewrite merge_sort_Permutation. intros [Hy|Hy]%elem_of_app; [|by apply Hfirst].
      by eapply (StronglySorted_app_1_elem_of le).
    - rewrite !merge_sort_Permutation, app_assoc, take_drop. unfold S0. rewrite merge_sort_Permutation, <- Hl.
      solve_Permutation. }
  assert (n ≤ length S0)%nat as Hn.
  { unfold S0. rewrite merge_sort_Permutation, length_app. lia. }
  rewrite take_app_le by (rewrite length_take; lia). by rewrite take_take, Nat.min_id.
Qed.

Lemma sort_Permutation (l1 l2 : list A) :
  l1 ≡ₚ l2 → (∀ a b, a ∈ l2 → b ∈ l2 → le a b → le b a → a = b) → merge_sort le l1 = merge_sort le l2.
Proof using All.
  intros Hp Has. apply (StronglySorted_unique_strong le); try by apply StronglySorted_merge_sort.
  - intros x y. rewrite !merge_sort_Permutation, Hp. apply Has.
  - by rewrite !merge_sort_Permutation.
Qed.

Lemma tops_sub {B} n (f : B → list A) ts : (ts ≫= λ t, take n (merge_sort le (f t))) ⊆+ ts ≫= f.
Proof using Type.
  induction ts as [|t ts IH]; [done|]. cbn. apply submseteq_app; [|done].
  rewrite <- (merge_sort_Permutation le (f t)) at 2. apply sublist_submseteq, sublist_take.
Qed.

(** the first [n] of the first [n] rows of each list are the first [n] of all *)
Lemma top_of_tops {B} n (f : B → list A) ts :
  NoDup (ts ≫= f) → (∀ a b, a ∈ ts ≫= f → b ∈ ts ≫= f → le a b → le b a → a = b) →
  take n (merge_sort le (ts ≫= λ t, take n (merge_sort le (f t)))) = take n (merge_sort le (ts ≫= f)).
Proof using All.
  induction ts as [|t ts IH]; [done|]. intros Hnd Has. cbn in *.
  pose proof (tops_sub n f ts) as Hsub. set (tops := ts ≫= λ t, take n (merge_sort le (f t))) in *. set (rest := ts ≫= f) in *.
  change (take n (merge_sort le (take n (merge_sort le (f t)) ++ tops)) = take n (merge_sort le (f t ++ rest))).
  assert (f t ++ tops ⊆+ f t ++ rest) as Hsub' by by apply submseteq_skips_l.
  assert (∀ k, k ⊆+ f t ++ rest → NoDup k ∧ ∀ a b, a ∈ k → b ∈ k → le a b → le b a → a = b) as Hk.
  { intros k Hk. split; [by eapply sub_NoDup|]. intros a b Ha Hb. apply Has; by eapply elem_of_submseteq. }
  destruct (Hk _ Hsub') as [Hnd1 Has1].
  destruct (Hk (tops ++ f t)) as [Hnd2 Has2]; [by rewrite (comm (++))|].
  destruct (Hk (rest ++ f t)) as [Hnd3 Has3]; [by rewrite (comm (++))|].
  rewrite (top_of_two n (f t) tops Hnd1 Has1).
  rewrite (sort_Permutation (f t ++ tops) (tops ++ f t)) by (done || by rewrite (comm (++))).
  rewrite <- (top_of_two n tops (f t) Hnd2 Has2), IH.
  - rewrite (top_of_two n rest (f t) Hnd3 Has3). f_equal. apply sort_Permutation; [by rewrite (comm (++))|done].
  - by apply list.NoDup_app in Hnd as (_ & _ & ?).
  - intros a b Ha Hb. apply Has; apply elem_of_app; by right.
Qed.
End tops.

(** ** The prefix of a username *)
Lemma like_any p s : like (percent :: p) s = true ↔ ∃ k, like p (drop k s) = true.
Proof.
  cbn. induction s as [|x s IH].
  - rewrite orb_false_r. split; [by exists 0%nat|]. intros [k Hk]. by rewrite drop_nil in Hk.
  - cbn. rewrite orb_true_iff, IH. split.
    + intros [?|[k Hk]]; [by exists 0%nat|by exists (S k)].
    + intros [[|k] Hk]; [by left|right; by exists k].
Qed.

(** the three replacements make a pattern of the prefix taken literally *)
Lemma like_escaped p s : like (escape_like p ++ [percent]) s = true ↔ p `prefix_of` s.
Proof.
  revert s. induction p as [|c p IH]; intros s.
  - cbn [escape_like mbind list_bind app]. rewrite like_any. split; [intros; apply prefix_nil|].
    intros _. exists (length s). rewrite drop_ge by lia. reflexivity.
  - change (escape_like (c :: p)) with
      ((if bool_decide (c ∈ [backslash; percent; underscore]) then [backslash; c] else [c]) ++ escape_like p).
    destruct (bool_decide_reflect (c ∈ [backslash; percent; underscore])) as [Hc|Hc]; cbn [app].
    + unfold like at 1; fold like. rewrite Z.eqb_refl. destruct s as [|x s].
      { split; [done|]. by intros ?%prefix_nil_not. }
      rewrite andb_true_iff, IH, Z.eqb_eq. split; [intros [-> ?]; by apply prefix_cons|].
      intros Hp. split; [by apply prefix_cons_inv_1 in Hp|by apply prefix_cons_inv_2 in Hp].
    + unfold like at 1; fold like. rewrite !not_elem_of_cons in Hc. destruct Hc as (Hb & Hpc & Hu & _).
      rewrite (proj2 (Z.eqb_neq c backslash) Hb), (proj2 (Z.eqb_neq c percent) Hpc), (proj2 (Z.eqb_neq c underscore) Hu).
      destruct s as [|x s]; [split; [done|]; by intros ?%prefix_nil_not|].
      cbn [orb]. rewrite andb_true_iff, IH, Z.eqb_eq. split; [intros [-> ?]; by apply prefix_cons|].
      intros Hp. split; [by apply prefix_cons_inv_1 in Hp|by apply prefix_cons_inv_2 in Hp].
Qed.
