(* ===== verification/QueryTheorems.v ===== *)
(** The read queries of the chat module: the pages of a chat's messages make up
    the chat, only its members are given them, and no query shows the photo of a
    user who hides it from the caller. *)
From S2P Require Import Prelude Config Events MemberModel InviteModel MessageModel ChatModel PrivacyModel Store Wp Rbac Access ChatRepo PrivacyService InviteRepo MessageRepo ChatCommands MessageCommands Reactions ReadReceipts WsModel MessageQueries ChatQueries Spec MembershipInv TableInv SystemInv System Histories QuerySpec.

(** ** The queries of a caller *)
Inductive read_query : Type :=
| QMessages (chat : UUID) (limit : Z) (cursor : option Z)
| QContext (chat : UUID) (target_seq limit : Z)
| QMessage (chat message : UUID)
| QReads (created_at : UUID → datetime) (chat message : UUID)
| QPins (chat : UUID) (limit : Z) (before_seq : option Z)
| QMedia (chat : UUID) (media_type : SharedMediaType) (limit : Z) (cursor : option text)
| QMembers (r : redis) (chat : UUID) (limit : Z) (cursor : option Z) (include_presence : bool)
| QChat (chat : UUID)
| QChats (limit : Z) (last_chat_id : option UUID) (last_activity_at : option datetime) (archived : bool)
| QSearch (q : text) (chat : option UUID) (limit : Z) (last_message_id : option UUID)
| QRequests (chat : UUID) (limit : Z) (last_requested_at : option datetime) (last_user_id : option Z).


(** what an answer shows: messages, below some of them the one they answer and
    the one they forward, and profiles next to either or to members *)
Record shown : Type := MkShown {
  sh_messages : list Message.t;
  sh_quoted : list (Message.t * Message.t);
  sh_profiles : list ChatProfileDTO;
}.

(** the nodes below the top one, each with the message above it *)
Definition quoted_in (d : MessageDTO) : list (Message.t * Message.t) :=
  (λ n, (node_message (dto_node d), node_message n)) <$> option_list (dto_reply_to d) ++ option_list (dto_forwarded_from d).

Definition of_dtos (l : list MessageDTO) : shown :=
  MkShown ((λ d, node_message (dto_node d)) <$> l) (d ← l; quoted_in d) (message_profiles l).
Definition of_members (l : list MemberChatDTO) : shown := MkShown [] [] (omap mc_profile l).
Definition of_chats (l : list ChatDTO) : shown :=
  MkShown (omap (λ d, node_message ∘ dto_node <$> cd_last_message d) l) (d ← omap cd_last_message l; quoted_in d)
    (omap id (d ← l; chat_profiles d)).

Definition answer `{TextSearch} (q : read_query) (j : UserJWTData) : M shown :=
  match q with
  | QMessages c limit cursor => p ← GetMessages.handle c limit cursor j; mret (of_dtos (md_messages p))
  | QContext c target limit => p ← GetMessageContext.handle c target limit j; mret (of_dtos (md_messages p))
  | QMessage c i => d ← GetMessageDetail.handle c i j; mret (of_dtos [d])
  | QReads created_at c i => l ← GetMessageReads.handle created_at c i j; mret (MkShown [] [] (omap rd_profile l))
  | QPins c limit before => p ← GetPinnedMessages.handle c limit before j; mret (of_dtos (pm_message <$> pms_items p))
  | QMedia c t limit cursor => p ← GetSharedMedia.handle c t limit cursor j; mret (MkShown (sm_items p).*1 [] [])
  | QMembers r c limit cursor presence =>
    p ← GetChatMembers.handle r c limit cursor presence j; mret (of_members (lm_members p))
  | QChat c => d ← GetChatDetail.handle c j; mret (of_members (det_members d))
  | QChats limit i t archived => p ← GetListChatUser.handle limit i t archived j; mret (of_chats (lc_chats p))
  | QSearch text c limit i => p ← SearchMessages.handle text c limit i j; mret (of_dtos (ms_items p).*1)
  | QRequests c limit t u => p ← GetJoinRequests.handle c limit t u j; mret (MkShown [] [] (lr_requests p).*2)
  end.




(** ** Lemmas *)
Section answers.
Context `{TextSearch} (user : Z) (w : world).
Notation s := (w_session w).







End answers.

Section guards.
Context `{TextSearch} (j : UserJWTData) (w : world).
Notation s := (w_session w).
Hypothesis (Hpins : pins_ok s).
Notation user := (jwt_id j).






End guards.

(** clock reads one after the other *)
Ltac flatten_ticks := repeat change (at_tick ?a (at_tick ?b ?w)) with (at_tick a w).

Section profile_guards.
Context `{TextSearch} (j : UserJWTData) (w : world).
Notation s := (w_session w).
Notation user := (jwt_id j).




Lemma wp_member_dto m t (w' : world) :
  wp (member_dto m) (at_tick t w') (λ r w'', ∃ b t', r = Ok b ∧ w'' = at_tick t' w' ∧ mc_profile b = chat_profile_dto <$> m.2).
Proof using Type.
  unfold member_dto. apply wp_bind, wp_now. intros n1 t1 _. apply wp_bind, wp_now. intros n2 t2 _. apply wp_ret.
  do 2 eexists. split_and!; [done| |done]. by flatten_ticks.
Qed.



End profile_guards.


Section list_guards.
Context `{TextSearch} (j : UserJWTData) (w : world).
Notation s := (w_session w).
Notation user := (jwt_id j).





End list_guards.




Section paging.
Context `{R : RBACManager}.

(** C17: The pages of a chat are the chat. A member who follows the cursor from page to page, whatever the size of the pages, gets every live message of the chat once, from the latest to the first, with its author's photo and its reactions as they are for them; the cursor stops after the last page. *)
Theorem messages_paged w chat limit j m fuel :
  reached (w_session w) → members (w_session w) !! (chat, jwt_id j) = Some m →
  (∀ n, ChatMember.is_banned (w_clock w n) m = false) → (length (live_in (w_session w) chat) < fuel)%nat →
  ∃ t, follow md_messages md_next_cursor (λ c, GetMessages.handle chat limit c j) fuel None w
    = (Ok (message_for (w_session w) (jwt_id j) <$> merge_sort message_seq_ge (live_in (w_session w) chat)), at_tick t w).
Proof.
  intros Hreached Hm Hb Hfuel. apply reached_sound in Hreached as Hs. pose proof (sound_messages _ Hs) as Hok.
  destruct (follow_pages message_seq_ge Message.seq before_seq (live_in (w_session w) chat)
              (message_for (w_session w) (jwt_id j)) md_messages md_next_cursor
              (λ c, GetMessages.handle chat limit c j) (clamp 100 limit) w) with (fuel := fuel) (c := @None Z) (t := w_ticks w)
    as [t' Ht].
  - intros c t _. destruct (get_messages_run chat limit c j (at_tick t w)) as (t' & Hr).
    eexists _, t'. rewrite Hr. change (w_session (at_tick t w)) with (w_session w). unfold may_read.
    rewrite Hm. cbn. rewrite Hb. done.
  - done.
  - exists t'. rewrite <- at_tick_self in Ht. rewrite Ht. do 3 f_equal.
    apply pages_complete; [apply _|apply _|done| | | |unfold clamp; lia|done].
    + intros a b _ _. apply before_seq_some.
    + intros a b. by apply live_in_antisymmetric.
    + by apply live_in_NoDup.
Qed.
End paging.

(** ** Shared media *)

(** what the database keeps of attachments: their primary key, and ids of 128
    bits *)
Definition attachments_keyed (s : store) : Prop :=
  ∀ k a, attachments s !! k = Some a → MessageAttachment.id a = k ∧ 0 ≤ k < 2 ^ 128.

#[export] Instance media_ge_total : Total media_ge.
Proof. intros a b. unfold media_ge, key_below. destruct (media_key a), (media_key b). cbn. lia. Qed.
#[export] Instance media_ge_trans : Transitive media_ge.
Proof. intros a b c. unfold media_ge, key_below. destruct (media_key a), (media_key b), (media_key c). cbn. lia. Qed.

Lemma NoDup_omap_inj {A B} (f : A → option B) (l : list A) :
  (∀ x y z, x ∈ l → y ∈ l → f x = Some z → f y = Some z → x = y) → NoDup l → NoDup (omap f l).
Proof.
  intros Hf Hnd. induction Hnd as [|x l Hx Hnd IH]; cbn; [constructor|].
  assert (NoDup (omap f l)) as IH'.
  { apply IH. intros a b z Ha Hb. apply Hf; by right. }
  destruct (f x) as [z|] eqn:E; [|done]. constructor; [|done].
  intros (y & Hy & Hz)%list_elem_of_omap. apply Hx. by rewrite (Hf x y z) by (done || by left || by right).
Qed.

Lemma filter_bind {A B} (P : B → Prop) `{!∀ b, Decision (P b)} (f : A → list B) l :
  filter P (l ≫= f) = l ≫= λ a, filter P (f a).
Proof. induction l as [|a l IH]; [done|]. cbn. rewrite list.filter_app. by f_equal. Qed.

Lemma media_cursor_read k : 0 ≤ k.2 < 2 ^ 128 → parse_cursor (Some (media_cursor k)) = Ok (Some k).
Proof.
  destruct k as [n i]. cbn. intros Hi. unfold parse_cursor, media_cursor. cbn [fst snd].
  rewrite partition_app by apply str_int_colon.
  rewrite py_int_str. cbn. destruct (str_uuid i) as [|c t] eqn:E.
  { exfalso. pose proof (parse_str_uuid i Hi) as Hp. by rewrite E in Hp. }
  rewrite <- E, parse_str_uuid by done. done.
Qed.

Section media.
Context (s : store) (chat : UUID).
Hypothesis (Hkeyed : attachments_keyed s).

Lemma media_in_spec t r :
  r ∈ media_in s chat t ↔ (∃ k, attachments s !! k = Some r.1)
    ∧ (i ← MessageAttachment.message_id r.1; MessageRepository.live_message s i) = Some r.2
    ∧ MessageAttachment.chat_id r.1 = chat ∧ Message.chat_id r.2 = chat
    ∧ MessageAttachment.attachment_type r.1 = t ∧ is_Some (MessageAttachment.message_seq r.1)
    ∧ MessageAttachment.attachment_status r.1 = SUCCESS.
Proof using Type.
  unfold media_in. rewrite list_elem_of_omap. split.
  - intros (a & ([k a'] & -> & Hk%elem_of_map_to_list)%list_elem_of_fmap & Hr). cbn in Hr.
    destruct (MessageAttachment.message_id a' ≫= _) as [m|] eqn:Hm; cbn in Hr; [|done].
    case_match eqn:Hc; [|done]. injection Hr as <-. cbn.
    repeat match type of Hc with _ && _ = true => apply andb_true_iff in Hc as [Hc ?] end.
    repeat match goal with H : bool_decide _ = true |- _ => apply bool_decide_eq_true in H end.
    split_and!; [by eexists|done|lia|lia|done| |done]. by destruct (MessageAttachment.message_seq a').
  - destruct r as [a m]. cbn. intros ([k Hk] & Hm & Hc & Hmc & Ht & [q Hq] & Hs). exists a. split.
    + apply list_elem_of_fmap. exists (k, a). by rewrite elem_of_map_to_list.
    + rewrite Hm. cbn. rewrite Hc, Hmc, Ht, Hq, Hs, !Z.eqb_refl, !bool_decide_true by done. done.
Qed.

Lemma media_in_NoDup types : NoDup (fromkeys types ≫= media_in s chat).
Proof using Hkeyed.
  apply NoDup_bind; [| |apply NoDup_fromkeys].
  - intros t1 t2 r _ _ (_ & _ & _ & _ & <- & _)%media_in_spec (_ & _ & _ & _ & <- & _)%media_in_spec. done.
  - intros t _. unfold media_in. apply NoDup_omap_inj.
    + intros a b z _ _ Ha Hb. destruct (MessageAttachment.message_id a ≫= _); cbn in Ha; [|done].
      destruct (MessageAttachment.message_id b ≫= _); cbn in Hb; [|done].
      destruct (_ && _); [|done]. destruct (_ && _); [|done]. congruence.
    + apply (NoDup_rows MessageAttachment.id). intros k a Hk. by apply Hkeyed in Hk as [? _].
Qed.

Lemma media_antisymmetric types a b :
  a ∈ fromkeys types ≫= media_in s chat → b ∈ fromkeys types ≫= media_in s chat →
  media_ge a b → media_ge b a → a = b.
Proof using Hkeyed.
  intros (t1 & ([k1 H1] & Hm1 & _)%media_in_spec & _)%list_elem_of_bind
    (t2 & ([k2 H2] & Hm2 & _)%media_in_spec & _)%list_elem_of_bind Hab Hba.
  destruct a as [a m1], b as [b m2]. cbn in *.
  assert (MessageAttachment.id a = MessageAttachment.id b) as E.
  { unfold media_ge, key_below, media_key in *. cbn in *. lia. }
  apply Hkeyed in H1 as H1'. apply Hkeyed in H2 as H2'. destruct H1' as [<- _], H2' as [<- _].
  rewrite E, H2 in H1. injection H1 as ->. congruence.
Qed.

(** One statement per type, each with the limit, is one statement over all. *)
Lemma media_page_run types n before w :
  w_session w = s →
  get_shared_media_page chat types n before w =
  (Ok (take n (rows_after media_ge before_media (fromkeys types ≫= media_in s chat) before)), w).
Proof using Hkeyed.
  intros Hw. unfold get_shared_media_page, query. rewrite Hw. f_equal. f_equal. unfold rows_after.
  rewrite filter_bind. apply top_of_tops; try apply _.
  - rewrite <- filter_bind. apply list.NoDup_filter, media_in_NoDup.
  - intros a b. rewrite <- filter_bind, !list_elem_of_filter. intros [_ Ha] [_ Hb]. by eapply media_antisymmetric.
Qed.
End media.

(** what the gallery of a chat shows under one heading, in order *)
Definition gallery (s : store) (chat : UUID) (ty : SharedMediaType) : list (Message.t * option MessageAttachment.t) :=
  match ty with
  | SM_LINK => (λ m, (m, None)) <$> merge_sort message_seq_ge (filter (λ m, Message.has_links m = true) (live_in s chat))
  | _ => (λ r, (r.2, Some r.1)) <$>
           merge_sort media_ge (fromkeys (SHARED_MEDIA_ATTACHMENT_TYPES ty) ≫= media_in s chat)
  end.

(** the position a cursor names; a cursor that cannot be read names none *)
Definition media_position (cursor : option text) : option (option (Z * UUID)) :=
  match parse_cursor cursor with Ok k => Some k | Err _ => None end.

Lemma clamp_pos most limit : 0 < most → (0 < clamp most limit)%nat.
Proof. unfold clamp. lia. Qed.

Section media_pages.
Context (chat : UUID) (limit : Z) (j : UserJWTData) (m : ChatMember.t) (w : world).
Notation s := (w_session w).
Hypothesis (Hm : members s !! (chat, jwt_id j) = Some m) (Hb : ∀ n, ChatMember.is_banned (w_clock w n) m = false).
Hypothesis (Hok : messages_ok s) (Hkeyed : attachments_keyed s).

Lemma reader_passes t : ∃ t', ensure_reader chat (jwt_id j) (at_tick t w) = (Ok tt, at_tick t' w).
Proof using Hm Hb.
  destruct (ensure_reader_run chat (jwt_id j) (at_tick t w)) as (? & t' & -> & ->). exists t'.
  change (w_session (at_tick t w)) with s. unfold may_read. rewrite Hm. cbn. by rewrite Hb.
Qed.

Lemma media_followed types fuel :
  (length (fromkeys types ≫= media_in s chat) < fuel)%nat →
  let fetch c :=
    (_ ← ensure_reader chat (jwt_id j); before ← lift (parse_cursor c);
     rows ← get_shared_media_page chat types (S (clamp chat_config.SHARED_MEDIA_MAX_PAGE_SIZE limit)) before;
     let page := page_of (clamp chat_config.SHARED_MEDIA_MAX_PAGE_SIZE limit) rows in
     mret (MkSharedMedia ((λ r : media_row, (r.2, Some r.1)) <$> page.1) page.2 (next_of (media_cursor ∘ media_key) page))) in
  ∃ t, follow sm_items sm_next_cursor fetch fuel None w
    = (Ok ((λ r, (r.2, Some r.1)) <$> merge_sort media_ge (fromkeys types ≫= media_in s chat)), at_tick t w).
Proof using All.
  intros Hfuel fetch. set (rows := fromkeys types ≫= media_in s chat) in *.
  set (n := clamp chat_config.SHARED_MEDIA_MAX_PAGE_SIZE limit) in *.
  set (before := λ (c : option text) (r : media_row),
         match media_position c with Some k => before_media k r | None => false end).
  assert (∀ r, r ∈ rows → media_position (Some (media_cursor (media_key r))) = Some (Some (media_key r))) as Hcur.
  { intros r (t & ([k Hk] & _)%media_in_spec & _)%list_elem_of_bind. unfold media_position.
    rewrite media_cursor_read; [done|]. cbn. apply Hkeyed in Hk as [-> ?]. done. }
  destruct (follow_pages media_ge (media_cursor ∘ media_key) before rows (λ r : media_row, (r.2, Some r.1))
              sm_items sm_next_cursor fetch n w) with (fuel := fuel) (c := @None text) (t := w_ticks w) as [t' Ht].
  - intros c t Hc. destruct (reader_passes t) as [t' Hr]. assert (∃ k, parse_cursor c = Ok k ∧ media_position c = Some k) as (k & Hk & Hpos).
    { destruct c as [c|]; [|by eexists]. destruct (Hc c eq_refl) as (r & Hr' & ->).
      pose proof (Hcur r Hr') as Hp. unfold media_position in *. cbn [compose] in *.
      destruct (parse_cursor _) as [k|]; [|done]. eauto. }
    eexists _, t'. unfold fetch. unfold mbind at 1, M_bind at 1. rewrite Hr.
    unfold mbind at 1, M_bind at 1, lift. rewrite Hk. unfold mbind at 1, M_bind at 1.
    rewrite (media_page_run s chat Hkeyed) by done. split; [reflexivity|].
    replace (rows_after media_ge before rows c) with (rows_after media_ge before_media rows k); [done|].
    unfold rows_after, before. by rewrite Hpos.
  - done.
  - exists t'. rewrite <- at_tick_self in Ht. rewrite Ht. do 3 f_equal.
    apply pages_complete; [apply _|apply _|done| | |by apply media_in_NoDup|by apply clamp_pos|done].
    + intros a b Ha Hb'. unfold before. cbn [compose]. rewrite Hcur by done. unfold before_media, media_ge.
      case_bool_decide; destruct (key_below _ _); done.
    + intros a b. by apply media_antisymmetric.
Qed.

Lemma str_int_read q : parse_cursor (Some (str_int q)) = Ok (Some (q, 0)).
Proof using Type.
  unfold parse_cursor. assert (∀ l, colon ∉ l → partition colon l = (l, false, [])) as Hp.
  { induction l as [|c l IH]; [done|]. intros [Hc Hl]%not_elem_of_cons. cbn.
    destruct (Z.eqb_spec c colon); [done|]. by rewrite IH. }
  rewrite Hp by apply str_int_colon. by rewrite py_int_str.
Qed.

Lemma links_followed fuel :
  (length (filter (λ m, Message.has_links m = true) (live_in s chat)) < fuel)%nat →
  ∃ t, follow sm_items sm_next_cursor (λ c, GetSharedMedia.handle chat SM_LINK limit c j) fuel None w
    = (Ok (gallery s chat SM_LINK), at_tick t w).
Proof using All.
  intros Hfuel. set (rows := filter _ _) in *. set (n := clamp chat_config.SHARED_MEDIA_MAX_PAGE_SIZE limit).
  set (before := λ (c : option text) (a : Message.t),
         match media_position c with Some k => before_seq (fst <$> k) a | None => false end).
  assert (∀ a, media_position (Some (str_int (Message.seq a))) = Some (Some (Message.seq a, 0))) as Hcur.
  { intros a. unfold media_position. by rewrite str_int_read. }
  destruct (follow_pages message_seq_ge (str_int ∘ Message.seq) before rows (λ m, (m, None))
              sm_items sm_next_cursor (λ c, GetSharedMedia.handle chat SM_LINK limit c j) n w)
    with (fuel := fuel) (c := @None text) (t := w_ticks w) as [t' Ht].
  - intros c t Hc. destruct (reader_passes t) as [t' Hr]. assert (∃ k, parse_cursor c = Ok k ∧ media_position c = Some k) as (k & Hk & Hpos).
    { destruct c as [c|]; [|by eexists]. destruct (Hc c eq_refl) as (a & _ & ->).
      cbn [compose]. rewrite str_int_read, Hcur. eauto. }
    eexists _, t'. unfold GetSharedMedia.handle. unfold mbind at 1, M_bind at 1. rewrite Hr.
    unfold mbind at 1, M_bind at 1, lift. rewrite Hk. split; [reflexivity|]. fold n. cbn [sm_items sm_next_cursor].
    replace (rows_after message_seq_ge before rows c)
      with (merge_sort message_seq_ge (filter (λ m, Message.has_links m = true ∧ before_seq (fst <$> k) m = true) (live_in s chat))).
    + done.
    + unfold rows_after, before, rows. rewrite Hpos. f_equal. rewrite list_filter_filter.
      apply list_filter_iff. intros a. tauto.
  - done.
  - exists t'. rewrite <- at_tick_self in Ht. rewrite Ht. unfold gallery. do 3 f_equal.
    apply pages_complete; [apply _|apply _|done| | |by apply list.NoDup_filter, live_in_NoDup|by apply clamp_pos|done].
    + intros a b _ _. unfold before. cbn [compose]. rewrite Hcur. cbn. apply (before_seq_some a b).
    + intros a b [_ Ha]%list_elem_of_filter [_ Hb']%list_elem_of_filter. by eapply live_in_antisymmetric.
Qed.
End media_pages.

(** C18: The gallery of a chat. For each heading - photos, videos, both, files, voice or links - a member who follows the textual cursor ["<seq>:<uuid>"] from page to page gets every processed attachment (every message with a link) of the live messages of the chat once, from the latest to the first, although each page asks one statement per attachment type and merges their rows; the cursor a page ends with is read back as the position it was written from, and stops after the last page. *)
Theorem gallery_paged w chat ty limit j m fuel :
  messages_ok (w_session w) → attachments_keyed (w_session w) →
  members (w_session w) !! (chat, jwt_id j) = Some m → (∀ n, ChatMember.is_banned (w_clock w n) m = false) →
  (length (gallery (w_session w) chat ty) < fuel)%nat →
  ∃ t, follow sm_items sm_next_cursor (λ c, GetSharedMedia.handle chat ty limit c j) fuel None w
    = (Ok (gallery (w_session w) chat ty), at_tick t w).
Proof.
  intros Hok Hkeyed Hm Hb Hfuel.
  destruct ty; unfold gallery in Hfuel; rewrite length_fmap, merge_sort_Permutation in Hfuel;
    [eapply media_followed; done..|by eapply links_followed].
Qed.

(** ** The list of chats *)
Lemma listed_chats hidden (l1 : list UserChatRow) (l2 : list ChatDTO) :
  Forall2 (λ r d, cd_chat d = uc_chat r ∧ cd_is_pinned d = ChatMember.is_pinned (uc_member r)) l1 l2 →
  (λ d, Chat.id (cd_chat d)) <$> (hide_in_chat hidden <$> l2) = (λ r, Chat.id (uc_chat r)) <$> l1.
Proof.
  induction 1 as [|r d l1 l2 [Hc _] _ IH]; [done|]. rewrite !fmap_cons, IH. f_equal.
  change (cd_chat (hide_in_chat hidden d)) with (cd_chat d). by rewrite Hc.
Qed.

Lemma wp_counterparts u ids n t w :
  wp (get_chat_counterparts u ids n) (at_tick t w) (λ r w', ∃ c t', r = Ok c ∧ w' = at_tick t' w).
Proof.
  destruct ids as [|i ids]; cbn [get_chat_counterparts]; [apply wp_ret; eauto|].
  apply wp_bind, wp_now. intros ? t' _. apply wp_query. do 2 eexists. split; [done|by flatten_ticks].
Qed.

Section chat_list.
Context (j : UserJWTData) (archived : bool) (w : world).
Notation s := (w_session w).
Notation user := (jwt_id j).

(** the unpinned chats of the caller *)
Definition unpinned (now : datetime) : list UserChatRow :=
  filter (λ r, ChatMember.is_pinned (uc_member r) = false) (user_chats s now user archived).

Lemma list_chats_run limit i t0 (w0 : world) t :
  w0 = at_tick t w →
  ∃ p t' n, GetListChatUser.handle limit i t0 archived j w0 = (Ok p, at_tick t' w)
    ∧ let page := page_of (clamp 100 limit) (take (S (clamp 100 limit))
                    (merge_sort activity_ge (filter (λ r, before_chat t0 i r = true) (unpinned (w_clock w n))))) in
      (λ d, Chat.id (cd_chat d)) <$> filter (λ d, cd_is_pinned d = false) (lc_chats p) = (λ r, Chat.id (uc_chat r)) <$> page.1
      ∧ lc_next_date p = (next_of (Chat.last_activity_at ∘ uc_chat) page ≫= id)
      ∧ lc_next_chat_id p = next_of (Chat.id ∘ uc_chat) page.
Proof.
  intros ->. pose (Q := λ (r : result error ListChats) w', ∃ p t' n, r = Ok p ∧ w' = at_tick t' w
    ∧ let page := page_of (clamp 100 limit) (take (S (clamp 100 limit))
                    (merge_sort activity_ge (filter (λ r, before_chat t0 i r = true) (unpinned (w_clock w n))))) in
      (λ d, Chat.id (cd_chat d)) <$> filter (λ d, cd_is_pinned d = false) (lc_chats p) = (λ r, Chat.id (uc_chat r)) <$> page.1
      ∧ lc_next_date p = (next_of (Chat.last_activity_at ∘ uc_chat) page ≫= id)
      ∧ lc_next_chat_id p = next_of (Chat.id ∘ uc_chat) page).
  enough (wp (GetListChatUser.handle limit i t0 archived j) (at_tick t w) Q) as (p & t' & n & Hr & Hw & H).
  { exists p, t', n. split; [|done]. destruct (GetListChatUser.handle _ _ _ _ _ _). cbn in *. by subst. }
  unfold GetListChatUser.handle. cbv zeta. unfold get_chats.
  apply wp_bind, wp_bind, wp_now. intros now t1 Hnow. apply wp_query, wp_bind. flatten_ticks.
  change (w_session (at_tick t1 w)) with s. set (rows := take _ _).
  set (Post := λ (r : result error (list UserChatRow)) w', ∃ l t, r = Ok l ∧ w' = at_tick t w
                 ∧ ∀ r, r ∈ l → ChatMember.is_pinned (uc_member r) = true).
  eapply (wp_mono _ _ Post).
  { destruct (_ || _); unfold Post; [|apply wp_ret; exists [], t1; split_and!; [done|done|by intros ? ?%elem_of_nil]].
    unfold get_pinned_chats. apply wp_bind, wp_now. intros now2 t2 Hnow2. apply wp_query.
    do 2 eexists. split_and!; [done|by flatten_ticks|].
    intros r Hr%subseteq_take. rewrite merge_sort_Permutation in Hr. by apply list_elem_of_filter in Hr as [? _]. }
  intros ? ? (pinned & t2 & -> & -> & Hpinned). set (page := page_of _ rows).
  assert (∀ r, r ∈ page.1 → ChatMember.is_pinned (uc_member r) = false) as Hpage.
  { intros r Hr%subseteq_take%subseteq_take. rewrite merge_sort_Permutation in Hr.
    by apply list_elem_of_filter in Hr as [[? _] _]. }
  apply wp_bind. unfold wp at 1, ReadReceiptCoalesceQueue.peek_many. cbn [fst snd].
  set (pending := dict_of _ _). apply wp_bind.
  eapply wp_mono; [apply wp_counterparts|].
  intros ? ? (cps & t3 & -> & ->). apply wp_bind, wp_query, wp_bind.
  eapply (wp_for_all _ (λ r d, cd_chat d = uc_chat r ∧ cd_is_pinned d = ChatMember.is_pinned (uc_member r))).
  { intros r t4 _. unfold chat_dto. cbv zeta. apply wp_bind. eapply wp_mono; [apply wp_member_dto|].
    cbn. intros ? ? (me & t5 & -> & -> & _). apply wp_bind, wp_now. intros n t6 _. apply wp_ret.
    do 2 eexists. split_and!; [done|by flatten_ticks|done..]. }
  intros dtos t4 Hd. flatten_ticks. apply wp_bind, wp_hidden_holders. intros hidden Hh. apply wp_ret.
  exists (MkListChats page.2 (hide_in_chat hidden <$> dtos) (next_of (Chat.last_activity_at ∘ uc_chat) page ≫= id)
            (next_of (Chat.id ∘ uc_chat) page)), t4, (w_ticks (at_tick t w)).
  split; [done|]. split; [done|]. change (w_clock w (w_ticks (at_tick t w))) with (w_clock (at_tick t w) (w_ticks (at_tick t w))).
  rewrite <- Hnow.
  assert (page = page_of (clamp 100 limit) (take (S (clamp 100 limit))
            (merge_sort activity_ge (filter (λ r, before_chat t0 i r = true) (unpinned now))))) as <-.
  { unfold page, rows, unpinned. rewrite list_filter_filter. do 3 f_equal. apply list_filter_iff. intros r. tauto. }
  split; [|done]. cbn [lc_chats]. apply Forall2_app_inv_l in Hd as (d1 & d2 & H1 & H2 & ->).
  rewrite fmap_app, list.filter_app, fmap_app.
  assert (∀ d, cd_is_pinned (hide_in_chat hidden d) = cd_is_pinned d) as Hpin by done.
  rewrite filter_none, filter_all; cbn.
  - exact (listed_chats hidden _ _ H2).
  - intros d' (d & -> & Hd)%list_elem_of_fmap. rewrite Hpin. apply list_elem_of_lookup in Hd as [k Hk].
    destruct (Forall2_lookup_r _ _ _ _ _ H2 Hk) as (r & Hr & _ & ->). by eapply Hpage, list_elem_of_lookup_2.
  - intros d' (d & -> & Hd)%list_elem_of_fmap. rewrite Hpin. apply list_elem_of_lookup in Hd as [k Hk].
    destruct (Forall2_lookup_r _ _ _ _ _ H1 Hk) as (r & Hr & _ & ->).
    rewrite Hpinned; [done|]. by eapply list_elem_of_lookup_2.
Qed.
End chat_list.

#[export] Instance activity_ge_total : Total activity_ge.
Proof. intros a b. unfold activity_ge. destruct (chat_key a) as [ [x|] i], (chat_key b) as [ [y|] k]; cbn; lia || tauto. Qed.
#[export] Instance activity_ge_trans : Transitive activity_ge.
Proof.
  intros a b c. unfold activity_ge. destruct (chat_key a) as [ [x|] i], (chat_key b) as [ [y|] k], (chat_key c) as [ [z|] l]; cbn; lia || tauto.
Qed.

(** the place of a chat that has an activity *)
Definition active_key (r : UserChatRow) : datetime * UUID := (default 0 (Chat.last_activity_at (uc_chat r)), Chat.id (uc_chat r)).
(** the cursor of the next page *)
Definition next_chats (p : ListChats) : option (datetime * UUID) :=
  t ← lc_next_date p; i ← lc_next_chat_id p; Some (t, i).
(** the chats of a page below the pinned ones *)
Definition listed_ids (p : ListChats) : list UUID :=
  (λ d, Chat.id (cd_chat d)) <$> filter (λ d, cd_is_pinned d = false) (lc_chats p).

Section chats_paged.
Context (limit : Z) (archived : bool) (j : UserJWTData) (w : world).
Notation s := (w_session w).
Notation user := (jwt_id j).
Hypothesis (Hwf : wf s) (Hok : messages_ok s).
(** nobody bans or unbans the caller while they read *)
Hypothesis (Hb : ∀ c m n n', members s !! (c, user) = Some m → ChatMember.is_banned (w_clock w n) m = ChatMember.is_banned (w_clock w n') m).
Notation rows := (unpinned j archived w (w_clock w 0)).
(** every chat listed has had an activity *)
Hypothesis (Hactive : ∀ r, r ∈ rows → is_Some (Chat.last_activity_at (uc_chat r))).

Lemma unpinned_still n : unpinned j archived w (w_clock w n) = rows.
Proof using Hb.
  unfold unpinned. f_equal. unfold user_chats. apply Forall_bind_ext, list.Forall_forall.
  intros [[c u] m] Hin%elem_of_map_to_list. unfold member_chats. destruct (Z.eqb_spec u user) as [->|]; cbn; [|done].
  by rewrite (Hb c m n 0%nat Hin).
Qed.

Lemma member_chats_spec now kv r :
  members s !! kv.1 = Some kv.2 → r ∈ member_chats s now user archived kv →
  kv = ((Chat.id (uc_chat r), user), uc_member r) ∧ chats s !! Chat.id (uc_chat r) = Some (uc_chat r)
  ∧ uc_read r = read_receipts s !! (Chat.id (uc_chat r), user) ∧ uc_message r ∈ latest_messages s (uc_chat r).
Proof using Hwf.
  destruct kv as [[c u] m]. cbn. intros Hin Hx. case_match eqn:Hcond; [|by apply elem_of_nil in Hx].
  repeat match type of Hcond with _ && _ = true => apply andb_true_iff in Hcond as [Hcond ?] end.
  apply Z.eqb_eq in Hcond as ->. destruct (chats s !! c) as [ch|] eqn:Hch; [|by apply elem_of_nil in Hx].
  destruct (Chat.is_deleted ch); [by apply elem_of_nil in Hx|].
  apply list_elem_of_fmap in Hx as (o & -> & Ho). cbn. apply (wf_chat _ Hwf) in Hch as Hid. destruct Hid as [-> _]. done.
Qed.

Lemma rows_spec r : r ∈ rows →
  members s !! (Chat.id (uc_chat r), user) = Some (uc_member r) ∧ chats s !! Chat.id (uc_chat r) = Some (uc_chat r)
  ∧ uc_read r = read_receipts s !! (Chat.id (uc_chat r), user) ∧ uc_message r ∈ latest_messages s (uc_chat r).
Proof using Hwf.
  intros [_ (kv & Hx & Hin)%list_elem_of_bind]%list_elem_of_filter.
  assert (members s !! kv.1 = Some kv.2) as Hkv by (destruct kv; by apply elem_of_map_to_list).
  destruct (member_chats_spec _ _ _ Hkv Hx) as (-> & ?). done.
Qed.

(** a chat has one message with its counter *)
Lemma latest_message_one c o1 o2 : o1 ∈ latest_messages s c → o2 ∈ latest_messages s c → o1 = o2.
Proof using Hok.
  unfold latest_messages. destruct (filter _ _) as [|m l] eqn:E.
  { by intros ->%list_elem_of_singleton ->%list_elem_of_singleton. }
  intros (m1 & -> & H1)%list_elem_of_fmap (m2 & -> & H2)%list_elem_of_fmap. rewrite <- E in H1, H2.
  apply list_elem_of_filter in H1 as [S1 H1], H2 as [S2 H2]. f_equal. eapply live_in_seq; [done..|congruence].
Qed.

Lemma rows_id_inj a b : a ∈ rows → b ∈ rows → Chat.id (uc_chat a) = Chat.id (uc_chat b) → a = b.
Proof using Hwf Hok.
  intros (M1 & C1 & R1 & L1)%rows_spec (M2 & C2 & R2 & L2)%rows_spec E. rewrite E in *.
  assert (uc_chat a = uc_chat b) as Ec by congruence. rewrite Ec in L1.
  pose proof (latest_message_one _ _ _ L1 L2). destruct a, b; cbn in *. congruence.
Qed.

Lemma rows_NoDup : NoDup rows.
Proof using Hwf Hok.
  apply list.NoDup_filter, NoDup_bind; [| |apply NoDup_map_to_list].
  - intros kv1 kv2 r H1 H2 Hr1 Hr2.
    assert (∀ kv : UUID * Z * ChatMember.t, kv ∈ map_to_list (members s) → members s !! kv.1 = Some kv.2) as Hkv
      by (intros [] ?; by apply elem_of_map_to_list).
    by rewrite (proj1 (member_chats_spec _ _ _ (Hkv _ H1) Hr1)), (proj1 (member_chats_spec _ _ _ (Hkv _ H2) Hr2)).
  - intros [[c u] m] _. unfold member_chats. destruct (_ && _); [|constructor].
    destruct (chats s !! c) as [ch|]; [|constructor]. destruct (Chat.is_deleted ch); [constructor|].
    apply NoDup_fmap_2; [by intros ? ? [= ->]|]. unfold latest_messages. destruct (filter _ _) as [|x l] eqn:E.
    + apply NoDup_singleton.
    + apply NoDup_fmap_2; [apply _|]. rewrite <- E. by apply list.NoDup_filter, live_in_NoDup.
Qed.

Lemma chats_followed fuel : (length rows < fuel)%nat →
  ∃ t, follow listed_ids next_chats
         (λ c, GetListChatUser.handle limit (snd <$> c) (fst <$> c) archived j) fuel None w
       = (Ok ((λ r, Chat.id (uc_chat r)) <$> merge_sort activity_ge rows), at_tick t w).
Proof using All.
  intros Hfuel. set (n := clamp 100 limit).
  set (before := λ (c : option (datetime * UUID)) r, before_chat (fst <$> c) (snd <$> c) r).
  destruct (follow_pages activity_ge active_key before rows (λ r, Chat.id (uc_chat r)) listed_ids next_chats
              (λ c, GetListChatUser.handle limit (snd <$> c) (fst <$> c) archived j) n w)
    with (fuel := fuel) (c := @None (datetime * UUID)) (t := w_ticks w) as [t' Ht].
  - intros c t Hc. destruct (list_chats_run j archived w limit (snd <$> c) (fst <$> c) _ t eq_refl)
      as (p & t' & k & Hr & Hi & Hd & Hid).
    exists p, t'. split; [exact Hr|]. rewrite unpinned_still in Hi, Hd, Hid. fold n in Hi, Hd, Hid.
    change (merge_sort activity_ge (filter _ rows)) with (rows_after activity_ge before rows c) in Hi, Hd, Hid.
    split; [exact Hi|]. unfold next_chats. rewrite Hd, Hid. unfold next_of.
    destruct (page_of _ _).2 eqn:Hmore; [|done].
    destruct (list.last _) as [r|] eqn:Hl; [|done]. cbn. unfold active_key.
    assert (r ∈ rows) as Hin.
    { apply last_Some_elem_of in Hl. apply subseteq_take, subseteq_take in Hl. unfold rows_after in Hl.
      rewrite merge_sort_Permutation in Hl. by apply list_elem_of_filter in Hl as [_ ?]. }
    destruct (Hactive r Hin) as [x Hx]. by rewrite Hx.
  - done.
  - exists t'. rewrite <- at_tick_self in Ht. rewrite Ht. do 3 f_equal.
    apply pages_complete; [apply _|apply _|done| | |by apply rows_NoDup|unfold n; by apply clamp_pos|done].
    + intros a b Ha Hb'. destruct (Hactive a Ha) as [x Hx], (Hactive b Hb') as [y Hy].
      case_bool_decide as Hle; unfold before, before_chat, active_key, activity_ge, chat_key in *; cbn;
        rewrite Hx, Hy in *; cbn in *; lia.
    + intros a b Ha Hb' H1 H2. apply rows_id_inj; [done..|]. unfold activity_ge, chat_key in *.
      destruct (Hactive a Ha) as [x Hx], (Hactive b Hb') as [y Hy]. rewrite Hx, Hy in *. lia.
Qed.
End chats_paged.

(** The list of chats. A caller who follows the cursor of their list gets each of their unpinned chats once, by latest activity, whatever the size of the pages - provided every one of them has had an activity (see [quiet_chat_lost] for what happens otherwise) and nobody bans them meanwhile. *)
Theorem chats_paged limit archived j w fuel :
  wf (w_session w) → messages_ok (w_session w) →
  (∀ c m n n', members (w_session w) !! (c, jwt_id j) = Some m →
     ChatMember.is_banned (w_clock w n) m = ChatMember.is_banned (w_clock w n') m) →
  (∀ r, r ∈ unpinned j archived w (w_clock w 0) → is_Some (Chat.last_activity_at (uc_chat r))) →
  (length (unpinned j archived w (w_clock w 0)) < fuel)%nat →
  ∃ t, follow listed_ids next_chats
         (λ c, GetListChatUser.handle limit (snd <$> c) (fst <$> c) archived j) fuel None w
       = (Ok ((λ r, Chat.id (uc_chat r)) <$> merge_sort activity_ge (unpinned j archived w (w_clock w 0))), at_tick t w).
Proof. intros. by apply chats_followed. Qed.

(** ** Instances *)

(** a word index on ASCII words: a query of one word finds its extensions *)
Definition ascii_word (c : Z) : bool :=
  ((97 <=? c) && (c <=? 122)) || ((65 <=? c) && (c <=? 90)) || ((48 <=? c) && (c <=? 57)) || (c =? 95).
Fixpoint word_starts (p s : text) : bool :=
  match p, s with
  | [], _ => true
  | x :: p', y :: s' => (x =? y) && word_starts p' s'
  | _ :: _, [] => false
  end.
#[local] Instance sample_search : TextSearch := {
  casefold := lower;
  is_word := ascii_word;
  ts_match content query :=
    existsb (word_starts (take (length query - 2) query))
      ((fix words (acc s : text) := match s with
                                    | [] => close_term acc
                                    | c :: s' => if ascii_word c then words (c :: acc) s' else close_term acc ++ words [] s'
                                    end) [] (lower content));
}.

Definition sample_profile (u : Z) (photo_rule : string) : ChatUserProfile.t :=
  ChatUserProfile.Mk u (Some (u8 "name")) None (Some (u8 "photo")) None None
    (λ r, if bool_decide (r = PHOTO) then photo_rule else "everybody"%string) None.

(** Alice shows her photo to everybody, Bob to nobody. *)
Definition seen_world : world :=
  group_world <| w_session ::= (λ s, s <| profiles := {[ 1 := sample_profile 1 "everybody"; 2 := sample_profile 2 "nobody" ]} |>) |>.

Definition ask (q : read_query) (u : Z) : result error shown := (answer q (user u) seen_world).1.

(** Alice reads Bob's message without his photo, Bob sees his own, a stranger is turned away *)
Example alice_reads :
  (λ a, (Message.content <$> sh_messages a, cpd_avatar_s3_key <$> sh_profiles a)) <$>
    match ask (QMessages group_id 10 None) 1 with Ok a => Some a | Err _ => None end
  = Some ([Some (u8 "hello")], [None]).
Proof. vm_compute. reflexivity. Qed.
Example bob_sees_himself :
  (λ a, cpd_avatar_s3_key <$> sh_profiles a) <$>
    match ask (QMessages group_id 10 None) 2 with Ok a => Some a | Err _ => None end = Some [Some (u8 "photo")].
Proof. vm_compute. reflexivity. Qed.
Example stranger_refused : ask (QMessages group_id 10 None) 3 = Err (NotChatMemberError group_id 3).
Proof. vm_compute. reflexivity. Qed.
Example search_finds :
  (λ a, Message.id <$> sh_messages a) <$>
    match ask (QSearch (u8 "HEL") None 10 None) 1 with Ok a => Some a | Err _ => None end = Some [hello_id].
Proof. vm_compute. reflexivity. Qed.



Lemma sound_group : sound (w_session group_world).
Proof. apply opened_group. Qed.





Lemma messages_paged_witness : ∃ t,
  follow md_messages md_next_cursor (λ c, GetMessages.handle group_id 1 c (user 2)) 5 None group_world
  = (Ok (message_for (w_session group_world) 2 <$> merge_sort message_seq_ge (live_in (w_session group_world) group_id)),
     at_tick t group_world)
  ∧ Message.id <$> merge_sort message_seq_ge (live_in (w_session group_world) group_id) = [hello_id].
Proof.
  assert (w_session group_world = w_database group_world) as Hs by apply opened_group.
  destruct (messages_paged group_world group_id 1 (user 2) bob 5) as [t Ht].
  - rewrite Hs. exact reached_group.
  - rewrite Hs. exact bob_row.
  - intros n. reflexivity.
  - vm_compute. lia.
  - exists t. split; [exact Ht|vm_compute; reflexivity].
Defined.

(** a link and a photo: the group with an attachment on Bob's message *)
Definition picture : MessageAttachment.t :=
  MessageAttachment.Mk 9 (Some hello_id) group_id 2 ATT_IMAGE SUCCESS (u8 "key") "image/png" (u8 "cat.png") 10 None None None None
    (Some 1) None None.
Definition gallery_world : world := group_world <| w_session ::= (λ s, s <| attachments := {[ 9 := picture ]} |>) |>.

Lemma with_media_tables s f : messages_ok s → messages_ok (s <| attachments := f |>).
Proof. apply messages_ok_frame; [done|by apply evolve_same]. Qed.

Lemma gallery_paged_witness : ∃ t,
  follow sm_items sm_next_cursor (λ c, GetSharedMedia.handle group_id SM_MEDIA 1 c (user 1)) 3 None gallery_world
  = (Ok (gallery (w_session gallery_world) group_id SM_MEDIA), at_tick t gallery_world)
  ∧ (λ x : Message.t * option MessageAttachment.t, MessageAttachment.id <$> x.2) <$> gallery (w_session gallery_world) group_id SM_MEDIA = [Some 9].
Proof.
  destruct (gallery_paged gallery_world group_id SM_MEDIA 1 (user 1) alice 3) as [t Ht].
  - apply (with_media_tables (w_session group_world)), sound_messages, sound_group.
  - intros k a. cbn. rewrite lookup_singleton_Some. intros [<- <-]. split; [done|lia].
  - vm_compute. reflexivity.
  - intros n. reflexivity.
  - vm_compute. lia.
  - exists t. split; [exact Ht|vm_compute; reflexivity].
Defined.

Lemma chats_paged_witness : ∃ t,
  follow listed_ids next_chats
    (λ c, GetListChatUser.handle 1 (snd <$> c) (fst <$> c) false (user 2)) 3 None group_world
  = (Ok ((λ r, Chat.id (uc_chat r)) <$> merge_sort activity_ge (unpinned (user 2) false group_world (w_clock group_world 0))),
     at_tick t group_world)
  ∧ (λ r, Chat.id (uc_chat r)) <$> unpinned (user 2) false group_world (w_clock group_world 0) = [group_id].
Proof.
  destruct (chats_paged 1 false (user 2) group_world 3) as [t Ht].
  - apply sound_wf, sound_group.
  - apply sound_messages, sound_group.
  - assert (Forall (λ kv : UUID * Z * ChatMember.t, ∀ n n', ChatMember.is_banned (w_clock group_world n) kv.2
              = ChatMember.is_banned (w_clock group_world n') kv.2) (map_to_list (members (w_session group_world)))) as Hf.
    { let l := eval vm_compute in (map_to_list (members (w_session group_world))) in
        assert (map_to_list (members (w_session group_world)) = l) as -> by (vm_compute; reflexivity).
      repeat (constructor; [reflexivity|]). constructor. }
    rewrite list.Forall_forall in Hf. intros c m n n' Hm%elem_of_map_to_list. exact (Hf _ Hm n n').
  - apply list.Forall_forall. vm_compute. repeat constructor. eauto.
  - vm_compute. lia.
  - exists t. split; [exact Ht|vm_compute; reflexivity].
Defined.

(** ** What the queries do that the rest of the code rules out *)

(** A chat nobody has written in sorts last, and no later page matches it:
    Alice's second group is on no page of size one. *)
Lemma quiet_chat_lost :
  let page c := (GetListChatUser.handle 1 (snd <$> c) (fst <$> c) false (user 1) two_groups).1 in
  (λ r, (listed_ids r, next_chats r)) <$> match page None with Ok p => Some p | Err _ => None end
    = Some ([group_id], (λ c, (default 0 (Chat.last_activity_at c), group_id)) <$> (chats (w_session two_groups) !! group_id))
  ∧ (λ r, (listed_ids r, lc_has_next r))
      <$> match page (Some (default 0 (c ← chats (w_session two_groups) !! group_id; Chat.last_activity_at c), group_id)) with
          | Ok p => Some p | Err _ => None end = Some ([], false)
  ∧ is_some (members (w_session two_groups) !! (second_group_id, 1)) = true.
Proof. split_and!; vm_compute; reflexivity. Qed.

(** A page shows the message a message answers whatever its chat: Carol, who is
    only in the second group, reads what Bob wrote in the first. *)
Definition reply_world : world :=
  perform_all [Request (ReqSendMessage stranger_reply); Request (ReqJoinChat (JoinChat.Mk (user 3) second_group_id))] two_groups.
Lemma reply_reveals :
  (λ p, (λ d, (λ n, (Message.chat_id (node_message n), Message.content (node_message n))) <$> dto_reply_to d) <$> md_messages p)
    <$> match (GetMessages.handle second_group_id 10 None (user 3) reply_world).1 with Ok p => Some p | Err _ => None end
  = Some [Some (group_id, Some (u8 "hello"))]
  ∧ may_read (w_session reply_world) (sample_clock 100) group_id 3 = false.
Proof. split; vm_compute; reflexivity. Qed.

(** The url of an attachment is given to a banned member. *)
Lemma banned_downloads :
  let w := perform_all (take 4 evasion) blank in
  let w := w <| w_session ::= (λ s, s <| attachments := {[ 9 := picture ]} |>) |> in
  (GetAttachmentDownloadUrl.handle group_id hello_id 9 (user 2) w).1 = Ok picture
  ∧ may_read (w_session w) (sample_clock 100) group_id 2 = false.
Proof. split; vm_compute; reflexivity. Qed.
