(* ===== verification/AuthModel.v ===== *)
(** Entities and errors of the account module ([app/auth/models],
    [app/auth/exceptions.py], [app/auth/config.py]).

    Names of roles and permissions are strings (their UTF-8 bytes), as in the
    tokens; other strings are texts. An entity carries the events it registered
    ([BaseModel.register_event]); a stored row has none. *)
From S2P Require Import Prelude Rbac WsModel.

Module auth_config.
Definition EMAIL_RESET_TOKEN_EXPIRE_MINUTES : Z := 15.
Definition ACCESS_TOKEN_EXPIRE_MINUTES : Z := 5.
Definition REFRESH_TOKEN_EXPIRE_DAYS : Z := 60.
Definition USERNAME_MIN_LENGTH : Z := 5.
Definition USERNAME_MAX_LENGTH : Z := 32.
Definition USERNAME_RESERVED : list text := u8 <$>
  ["admin"; "administrator"; "moderator"; "support"; "help"; "helpdesk"; "system"; "official";
   "security"; "abuse"; "root"; "superuser"; "staff"; "service"; "notifications"; "bot"; "username";
   "settings"; "privacy"; "profile"; "profiles"; "contacts"; "account"; "chatix"; "telegram";
   "deleted"; "anonymous"; "null"; "undefined"]%string.
End auth_config.

Definition minutes (n : Z) : Z := seconds (60 * n).
Definition days (n : Z) : Z := minutes (1440 * n).

(** [p in s] on texts *)
Fixpoint is_prefix (p s : text) : bool :=
  match p, s with
  | [], _ => true
  | c :: p, d :: s => (c =? d) && is_prefix p s
  | _ :: _, [] => false
  end.
Fixpoint occurs (p s : text) : bool :=
  is_prefix p s || match s with [] => false | _ :: s => occurs p s end.

(** ** Errors *)
Inductive auth_error : Type :=
| NotFoundUserError
| WrongLoginDataError (username : text)
| OAuthStateNotFoundError (state : text)
| OAuthProviderUnavailableError (provider : string)
| OAuthInactiveError
| LinkedAnotherUserOAuthError (provider : string)
| NotExistProviderOAuthError (provider : string)
| NotFoundRoleError (name : text)
| NotFoundOrInactiveSessionError
| NotFoundPermissionsError (missing : gset string)
| DuplicateUserError (field : string) (value : text)
| InvalidUsernameError (username : text) (reason : string)
| UsernameTakenError (username : text)
| DuplicateRoleError (name : string)
| DuplicatePermissionError (name : string)
| PasswordMismatchError
| EmailNotConfirmedError (email : text)
| TokenInBlacklistError
| UnverifiedEmailOAuthError (provider : string)
| NoEmailOAuthError (provider : string)
| InvalidTokenError (token : option text)
| ExpiredTokenError (token : text)
| RbacError (e : rbac_error)
(** a constraint of a table, by its name *)
| AuthIntegrityError (constraint : string)
(** an expiry Redis does not accept *)
| RedisResponseError
(** [OAuthProviderEnum(...)] of an unknown name *)
| ValueError.

(** [status] of the classes; those that are not the application's give 500 *)
Definition auth_error_status (e : auth_error) : Z :=
  match e with
  | NotFoundUserError | OAuthStateNotFoundError _ | NotFoundRoleError _ | NotFoundPermissionsError _ => 404
  | WrongLoginDataError _ | NotFoundOrInactiveSessionError | InvalidUsernameError _ _
  | PasswordMismatchError | NotExistProviderOAuthError _ | ExpiredTokenError _ | NoEmailOAuthError _
  | RbacError (InvalidRoleNameError _) => 400
  | OAuthProviderUnavailableError _ | OAuthInactiveError => 502
  | LinkedAnotherUserOAuthError _ | DuplicateUserError _ _ | UsernameTakenError _ | DuplicateRoleError _
  | DuplicatePermissionError _ | TokenInBlacklistError | RbacError (ProtectedPermissionError _) => 409
  | InvalidTokenError _ | RbacError (AccessDeniedError _) | EmailNotConfirmedError _
  | UnverifiedEmailOAuthError _ => 403
  | AuthIntegrityError _ | RedisResponseError | ValueError => 500
  end.

(** ** Events *)
Inductive auth_event : Type :=
| CreatedUserEvent (email username : text)
| VerifiedUserEvent (user_id : Z) (username email : text)
| DeletedUserEvent (user_id : Z) (username email : text)
| ChangedUsernameEvent (user_id : Z) (old_username username : text)
| NewSessionEvent (user_id : Z) (device_id : text)
| DeactivateSessionEvent (user_id : Z) (device_id : text).

Definition auth_event_name (e : auth_event) : string :=
  match e with
  | CreatedUserEvent _ _ => "auth.user.created"
  | VerifiedUserEvent _ _ _ => "auth.user.verified"
  | DeletedUserEvent _ _ _ => "auth.user.deleted"
  | ChangedUsernameEvent _ _ _ => "auth.user.username_changed"
  | NewSessionEvent _ _ => "auth.session.created"
  | DeactivateSessionEvent _ _ => "auth.session.deactivated"
  end.

Definition auth_aggregate_id (e : auth_event) : text :=
  match e with
  | CreatedUserEvent _ u => u
  | VerifiedUserEvent i _ _ | DeletedUserEvent i _ _ | ChangedUsernameEvent i _ _
  | NewSessionEvent i _ | DeactivateSessionEvent i _ => str_int i
  end.

(** ** Roles *)
Module Role.
(** [permissions] are the ids in [role_permissions] *)
Record t : Type := Mk {
  id : Z;
  name : string;
  description : option text;
  security_level : Z;
  permissions : gset Z;
}.
#[global] Instance settable : Settable t := λ r,
  Mk (id r) (name r) (description r) (security_level r) (permissions r).

Definition add_permission (p : Z) (r : t) : t := r <| permissions ::= ({[ p ]} ∪.) |>.
Definition delete_permission (p : Z) (r : t) : t :=
  if bool_decide (p ∈ permissions r) then r <| permissions ::= (.∖ {[ p ]}) |> else r.
Definition has_permission (p : Z) (r : t) : bool := bool_decide (p ∈ permissions r).
End Role.

(** ** Sessions *)
Module Session.
Record t : Type := Mk {
  id : Z;
  user_id : Z;
  device_id : text;
  device_info : text;
  user_agent : text;
  ip_address : text;
  last_activity : datetime;
  is_active : bool;
  events : list auth_event;
}.
#[global] Instance settable : Settable t := λ s,
  Mk (id s) (user_id s) (device_id s) (device_info s) (user_agent s) (ip_address s) (last_activity s)
     (is_active s) (events s).

(** the id is given by the database; [last_activity] is its [now()] *)
Definition create (now : datetime) (user_id : Z) (device_id ip_address device_info user_agent : text) : t :=
  Mk 0 user_id device_id device_info user_agent ip_address now true [NewSessionEvent user_id device_id].

Definition deactivate (now : datetime) (s : t) : t :=
  s <| is_active := false |> <| last_activity := now |>
    <| events ::= (λ l, l ++ [DeactivateSessionEvent (user_id s) (device_id s)]) |>.

Definition online (now : datetime) (s : t) : t := s <| last_activity := now |>.
Definition pull_events (s : t) : list auth_event * t := (events s, s <| events := [] |>).
End Session.

(** ** Accounts of other providers *)
Inductive OAuthProviderEnum : Type := YANDEX | GOOGLE | GITHUB.
#[export] Instance OAuthProviderEnum_eq_dec : EqDecision OAuthProviderEnum.
Proof. solve_decision. Defined.

(** [OAuthProviderEnum(value)] *)
Definition oauth_provider (value : string) : option OAuthProviderEnum :=
  if decide (value = "yandex"%string) then Some YANDEX
  else if decide (value = "google"%string) then Some GOOGLE
  else if decide (value = "github"%string) then Some GITHUB else None.

Record OAuthAccount : Type := MkOAuthAccount {
  oa_id : Z;
  oa_provider : OAuthProviderEnum;
  oa_provider_user_id : text;
  oa_provider_email : text;
  oa_is_active : bool;
  oa_user_id : Z;
}.

(** ** Users *)

(** [_USERNAME_RE.fullmatch]: a letter, then word characters, the last no
    underscore *)
Definition is_ascii_letter (c : Z) : bool := ((65 <=? c) && (c <=? 90)) || ((97 <=? c) && (c <=? 122)).
Definition is_ascii_digit (c : Z) : bool := (48 <=? c) && (c <=? 57).
Fixpoint account_name_tail (s : text) : bool :=
  match s with
  | [] => false
  | [c] => is_ascii_letter c || is_ascii_digit c
  | c :: s' => (is_ascii_letter c || is_ascii_digit c || (c =? 95)) && account_name_tail s'
  end.
Definition account_name_match (s : text) : bool :=
  match s with
  | c :: s' => is_ascii_letter c && account_name_tail s'
  | [] => false
  end.

Module User.
(** [roles] and [permissions] are the ids in [user_roles] and
    [user_permissions] *)
Record t : Type := Mk {
  id : Z;
  email : text;
  username : text;
  password_hash : option text;
  is_active : bool;
  is_verified : bool;
  deleted_at : option datetime;
  roles : gset Z;
  permissions : gset Z;
  events : list auth_event;
}.
#[global] Instance settable : Settable t := λ u,
  Mk (id u) (email u) (username u) (password_hash u) (is_active u) (is_verified u) (deleted_at u)
     (roles u) (permissions u) (events u).

Definition register_event (u : t) (e : auth_event) : t := u <| events ::= (λ l, l ++ [e]) |>.
Definition pull_events (u : t) : list auth_event * t := (events u, u <| events := [] |>).
Definition is_deleted (u : t) : bool := is_some (deleted_at u).

(** the id is given by the database *)
Definition create (email username : text) (password_hash : option text) (roles : gset Z) (is_verified : bool) : t :=
  register_event (Mk 0 email username password_hash true is_verified None roles ∅ [])
    (CreatedUserEvent email username).

Definition create_oauth (email username : text) (roles : gset Z) : t :=
  create email username None roles true.

Definition delete (now : datetime) (u : t) : t :=
  let u := u <| deleted_at := Some now |> in
  register_event u (DeletedUserEvent (id u) (username u) (email u)).

(** [strip] and [lower] on ASCII letters: the request schema admits no others *)
Definition is_reserved_username (username : text) : bool :=
  bool_decide (lower (strip username) ∈ auth_config.USERNAME_RESERVED).

Definition validate_username (username : text) : result auth_error text :=
  let cleaned := removeprefix 64 (strip username) in
  _ ← raise_if (negb ((auth_config.USERNAME_MIN_LENGTH <=? len cleaned)
                      && (len cleaned <=? auth_config.USERNAME_MAX_LENGTH)))
        (InvalidUsernameError username "length");
  _ ← raise_if (negb (account_name_match cleaned)) (InvalidUsernameError username "format");
  _ ← raise_if (is_reserved_username cleaned) (InvalidUsernameError username "reserved");
  mret cleaned.

Definition change_username (username' : text) (u : t) : result auth_error t :=
  v ← validate_username username';
  if bool_decide (v = username u) then mret u
  else mret (register_event (u <| username := v |>) (ChangedUsernameEvent (id u) (username u) v)).

Definition add_role (r : Role.t) (u : t) : t := u <| roles ::= ({[ Role.id r ]} ∪.) |>.

Definition delete_role (r : Role.t) (u : t) : result auth_error t :=
  _ ← raise_if (bool_decide (Role.id r ∉ roles u)) (NotFoundRoleError (u8 (Role.name r)));
  mret (u <| roles ::= (.∖ {[ Role.id r ]}) |>).

(** a permission is its row: id and name *)
Definition add_permission (p : Z * string) (u : t) : t := u <| permissions ::= ({[ p.1 ]} ∪.) |>.

Definition delete_permission (p : Z * string) (u : t) : result auth_error t :=
  _ ← raise_if (bool_decide (p.1 ∉ permissions u)) (NotFoundPermissionsError {[ p.2 ]});
  mret (u <| permissions ::= (.∖ {[ p.1 ]}) |>).

Definition password_reset (hash : text) (u : t) : t := u <| password_hash := Some hash |>.

Definition verify (u : t) : t :=
  let u := u <| is_verified := true |> in
  register_event u (VerifiedUserEvent (id u) (username u) (email u)).

End User.
