(* ===== verification/OAuthProviders.v ===== *)
(** Sign-in through other providers ([app/auth/services/oauth_providers.py],
    [oauth_manager.py], the factory of [app/auth/providers.py]). The requests
    httpx sends and what pydantic makes of an address are parameters. *)
From S2P Require Import Prelude Rbac WsModel AuthModel.

(** ** JSON, as [response.json()] has it; numbers are integers here *)
Inductive json : Type :=
| JNull
| JBool (b : bool)
| JInt (n : Z)
| JStr (s : text)
| JList (l : list json)
| JObj (fields : list (string * json)).

(** [bool(value)] *)
Definition truthy (j : json) : bool :=
  match j with
  | JNull => false
  | JBool b => b
  | JInt n => negb (n =? 0)
  | JStr s => negb (empty_text s)
  | JList l => negb (bool_decide (length l = O))
  | JObj f => negb (bool_decide (length f = O))
  end.

Definition field (f : list (string * json)) (k : string) : option json :=
  p ← list_find (λ p, p.1 = k) f; Some p.2.2.

(** ** What a call may raise *)
Inductive failure : Type :=
| Application (e : auth_error)
| Unexpected.

(** [j.get(k, d)], [j.get(k)] with [None] read as [null], and [j[k]] *)
Definition json_get_or (j : json) (k : string) (d : json) : result failure json :=
  match j with
  | JObj f => mret (default d (field f k))
  | _ => Err Unexpected
  end.
Definition json_get (j : json) (k : string) : result failure json := json_get_or j k JNull.
Definition json_item (j : json) (k : string) : result failure json :=
  match j with
  | JObj f => match field f k with Some v => mret v | None => Err Unexpected end
  | _ => Err Unexpected
  end.

(** fields pydantic takes as [str], [str | None] and [int | None] *)
Definition as_str (j : json) : result failure text :=
  match j with JStr s => mret s | _ => Err Unexpected end.
Definition as_optional_str (j : json) : result failure (option text) :=
  match j with JNull => mret None | JStr s => mret (Some s) | _ => Err Unexpected end.
Definition as_optional_int (j : json) : result failure (option Z) :=
  match j with
  | JNull => mret None
  | JInt n => mret (Some n)
  | JBool b => mret (Some (Z.b2z b))
  | JStr s => match py_int s with Some n => mret (Some n) | None => Err Unexpected end
  | _ => Err Unexpected
  end.

(** [str(value)]; a list or an object, of which the providers send none here,
    is refused *)
Definition str_json (j : json) : result failure text :=
  match j with
  | JStr s => mret s
  | JInt n => mret (str_int n)
  | JBool true => mret (u8 "True")
  | JBool false => mret (u8 "False")
  | JNull => mret (u8 "None")
  | _ => Err Unexpected
  end.

(** ** Parameters *)
Notation params := (list (string * text)).

(** [None]: a transport error, a status that raises, or no JSON *)
Class Httpx : Type := {
  urlencode : params → text;
  http_post : text → params → params → option json;
  http_get : text → params → option json;
  email_str : text → option text;
}.

Record OAuthData : Type := MkOAuthData {
  od_provider_user_id : text;
  od_email : text;
  od_username : option text;
}.

Record OAuthToken : Type := MkOAuthToken {
  ot_access_token : text;
  ot_token_type : text;
  ot_expires_in : option Z;
  ot_refresh_token : option text;
  ot_scope : option text;
}.

(** ** Providers *)
Inductive provider_class : Type := OAuthGoogle | OAuthYandex | OAuthGithub.

Record provider_config : Type := MkProviderConfig {
  client_id : text;
  client_secret : text;
  redirect_uri : text;
  base_auth_url : text;
  token_url : text;
  userinfo_url : text;
}.

Module OAuthProvider.
Record t : Type := Mk { class : provider_class; name : string; config : provider_config }.

Section provider.
Context `{Httpx}.

Definition auth_params (p : t) (state : text) : params :=
  let c := config p in
  match class p with
  | OAuthGoogle => [("client_id", client_id c); ("response_type", u8 "code"); ("scope", u8 "openid email profile");
                    ("redirect_uri", redirect_uri c); ("state", state); ("access_type", u8 "offline");
                    ("prompt", u8 "consent")]%string
  | OAuthYandex => [("client_id", client_id c); ("response_type", u8 "code"); ("redirect_uri", redirect_uri c);
                    ("state", state); ("force_confirm", u8 "yes")]%string
  | OAuthGithub => [("client_id", client_id c); ("redirect_uri", redirect_uri c); ("scope", u8 "read:user,user:email");
                    ("state", state); ("allow_signup", u8 "false")]%string
  end.
Definition get_auth_url (p : t) (state : text) : text :=
  base_auth_url (config p) ++ 63 :: urlencode (auth_params p state).

Definition response (o : option json) : result failure json :=
  match o with Some j => mret j | None => Err Unexpected end.

Definition _exchange_code (p : t) (data headers : params) : result failure OAuthToken :=
  token_data ← response (http_post (token_url (config p)) data headers);
  access_token ← json_item token_data "access_token";
  access_token ← as_str access_token;
  token_type ← json_get_or token_data "token_type" (JStr (u8 "Bearer"));
  token_type ← as_str token_type;
  expires_in ← json_get token_data "expires_in";
  expires_in ← as_optional_int expires_in;
  refresh_token ← json_get token_data "refresh_token";
  refresh_token ← as_optional_str refresh_token;
  scope ← json_get token_data "scope";
  scope ← as_optional_str scope;
  mret (MkOAuthToken access_token token_type expires_in refresh_token scope).

Definition code_params (p : t) (code : text) : params :=
  let c := config p in
  match class p with
  | OAuthGoogle | OAuthYandex =>
    [("client_id", client_id c); ("client_secret", client_secret c); ("code", code);
     ("grant_type", u8 "authorization_code"); ("redirect_uri", redirect_uri c)]%string
  | OAuthGithub =>
    [("client_id", client_id c); ("client_secret", client_secret c); ("code", code);
     ("redirect_uri", redirect_uri c)]%string
  end.
Definition exchange_code_for_token (p : t) (code : text) : result failure OAuthToken :=
  _exchange_code p (code_params p code) [("Accept"%string, u8 "application/json")].

Definition _require_verified_email (p : t) (email : json) (verified : bool) : result failure json :=
  _ ← raise_if (negb (truthy email)) (Application (NoEmailOAuthError (name p)));
  _ ← raise_if (negb verified) (Application (UnverifiedEmailOAuthError (name p)));
  mret email.

Definition _as_bool (value : json) : bool :=
  match value with
  | JBool b => b
  | JStr s => bool_decide (lower (strip s) = u8 "true")
  | _ => false
  end.

Definition _fetch_user_info (p : t) (headers : params) : result failure json :=
  response (http_get (userinfo_url (config p)) headers).

(** the validation of [OAuthData] *)
Definition oauth_data (provider_user_id email username : json) : result failure OAuthData :=
  provider_user_id ← as_str provider_user_id;
  email ← as_str email;
  email ← match email_str email with Some e => mret e | None => Err Unexpected end;
  username ← as_optional_str username;
  mret (MkOAuthData provider_user_id email username).

(** [a or b] *)
Definition either (a b : json) : json := if truthy a then a else b.

Definition bearer (scheme : string) (access_token : text) : string * text :=
  ("Authorization"%string, u8 scheme ++ 32 :: access_token).

Definition google_user_info (p : t) (access_token : text) : result failure OAuthData :=
  user_data ← _fetch_user_info p [bearer "Bearer" access_token];
  sub ← json_item user_data "sub";
  email ← json_get user_data "email";
  email_verified ← json_get user_data "email_verified";
  email ← _require_verified_email p email (_as_bool email_verified);
  name ← json_get user_data "name";
  oauth_data sub email name.

(** [emails[0] if emails else None] *)
Definition first_email (emails : json) : result failure json :=
  if negb (truthy emails) then mret JNull
  else match emails with
       | JList (e :: _) => mret e
       | JStr (c :: _) => mret (JStr [c])
       | _ => Err Unexpected
       end.

Definition yandex_user_info (p : t) (access_token : text) : result failure OAuthData :=
  user_data ← _fetch_user_info p [bearer "OAuth" access_token];
  emails ← json_get user_data "emails";
  let emails := either emails (JList []) in
  default_email ← json_get user_data "default_email";
  email ← (if truthy default_email then mret default_email else first_email emails);
  id ← json_item user_data "id";
  email ← _require_verified_email p email true;
  login ← json_get user_data "login";
  username ← (if truthy login then mret login else json_get user_data "display_name");
  oauth_data id email username.

(** the entries with an address that is verified *)
Fixpoint verified_emails (l : list json) : result failure (list json) :=
  match l with
  | [] => mret []
  | e :: l =>
    email ← json_get e "email";
    verified ← json_get e "verified";
    rest ← verified_emails l;
    mret (if truthy email && truthy verified then e :: rest else rest)
  end.

(** the primary one of these, or the first *)
Fixpoint primary_email (l : list json) : result failure (option json) :=
  match l with
  | [] => mret None
  | e :: l => primary ← json_get e "primary"; if truthy primary then mret (Some e) else primary_email l
  end.

Definition _get_email (p : t) (headers : params) : result failure text :=
  emails_data ← response (http_get (u8 "https://api.github.com/user/emails") headers);
  _ ← raise_if (negb (truthy emails_data)) (Application (NoEmailOAuthError (name p)));
  entries ← match emails_data with JList l => mret l | _ => Err Unexpected end;
  verified ← verified_emails entries;
  match verified with
  | [] => Err (Application (UnverifiedEmailOAuthError (name p)))
  | first :: _ =>
    found ← primary_email verified;
    email ← json_item (default first found) "email";
    str_json email
  end.

Definition github_user_info (p : t) (access_token : text) : result failure OAuthData :=
  let headers := [bearer "Bearer" access_token; ("Accept"%string, u8 "application/vnd.github+json")] in
  user_data ← _fetch_user_info p headers;
  id ← json_item user_data "id";
  id ← str_json id;
  email ← _get_email p headers;
  login ← json_get user_data "login";
  oauth_data (JStr id) (JStr email) login.

Definition get_user_info (p : t) (access_token : text) : result failure OAuthData :=
  match class p with
  | OAuthGoogle => google_user_info p access_token
  | OAuthYandex => yandex_user_info p access_token
  | OAuthGithub => github_user_info p access_token
  end.
End provider.
End OAuthProvider.

(** ** The manager, and the interface the handlers see *)
Class OAuthManager : Type := {
  get_authorize_url : string → text → result auth_error text;
  process_callback : string → text → result auth_error OAuthData;
}.

Module OAuthProviderFactory.
Definition t : Type := gmap string OAuthProvider.t.
Definition get_provider (f : t) (provider_name : string) : result auth_error OAuthProvider.t :=
  match f !! provider_name with
  | Some p => mret p
  | None => Err (NotExistProviderOAuthError provider_name)
  end.
Definition register_provider (p : OAuthProvider.t) (f : t) : t := <[OAuthProvider.name p := p]> f.

(** [oauth_factory]: the providers with a client id *)
Definition registered (c : provider_class) (name : string) (cfg : provider_config) (f : t) : t :=
  if empty_text (client_id cfg) then f else register_provider (OAuthProvider.Mk c name cfg) f.
Definition oauth_factory (google yandex github : provider_config) : t :=
  registered OAuthGithub "github" github (registered OAuthYandex "yandex" yandex (registered OAuthGoogle "google" google ∅)).
End OAuthProviderFactory.

Module OAuthManagerImpl.
Section manager.
Context `{Httpx}.
Variable factory : OAuthProviderFactory.t.

Definition get_authorize_url (provider_name : string) (state : text) : result auth_error text :=
  provider ← OAuthProviderFactory.get_provider factory provider_name;
  mret (OAuthProvider.get_auth_url provider state).

Definition process_callback (provider_name : string) (code : text) : result auth_error OAuthData :=
  provider ← OAuthProviderFactory.get_provider factory provider_name;
  match (token ← OAuthProvider.exchange_code_for_token provider code;
         OAuthProvider.get_user_info provider (ot_access_token token)) with
  | Ok data => mret data
  | Err (Application e) => Err e
  | Err Unexpected => Err (OAuthProviderUnavailableError provider_name)
  end.

Definition manager : OAuthManager := Build_OAuthManager get_authorize_url process_callback.
End manager.
End OAuthManagerImpl.
