(* ===== verification/AuthStore.v ===== *)
(** State of the account module, the monad its handlers run in, and its
    repositories ([app/auth/repositories]).

    As for the chats, a world holds what the open transaction sees and what is
    committed, next to what a rollback does not undo: the keys in Redis with the
    instants they expire at, the mails queued, and the reads of the clock and of
    the random supplies. Redis keeps time by the same clock. Rows that wait for
    a flush are in the session's tables; no handler queries a row it has not
    flushed. The list cache that [invalidate_cache] drops is left out. *)
From S2P Require Import Prelude Rbac WsModel AuthModel.

(** ** Tables *)
Record auth_store : Type := MkAuthStore {
  users : gmap Z User.t;
  roles : gmap Z Role.t;
  permissions : gmap Z string;
  sessions : gmap Z Session.t;
  oauth_accounts : gmap Z OAuthAccount;
  next_row_id : Z;
  auth_outbox : list auth_event;
}.
#[global] Instance auth_store_settable : Settable auth_store := λ s,
  MkAuthStore (users s) (roles s) (permissions s) (sessions s) (oauth_accounts s) (next_row_id s) (auth_outbox s).

Definition empty_auth_store : auth_store := MkAuthStore ∅ ∅ ∅ ∅ ∅ 1 [].

(** two rows agree on a unique column *)
Definition repeated {A B} `{EqDecision B} (f : A → B) (m : gmap Z A) : bool :=
  negb (bool_decide (NoDup (f <$> (map_to_list m).*2))).

(** the constraint a flush of these tables would violate *)
Definition violated (s : auth_store) : option string :=
  if repeated User.email (users s) then Some "ix_users_email"%string
  else if repeated User.username (users s) then Some "ix_users_username"%string
  else if repeated (λ u, lower (User.username u)) (users s) then Some "uq_users_username_lower"%string
  else if repeated Role.name (roles s) then Some "ix_roles_name"%string
  else if repeated id (permissions s) then Some "ix_permissions_name"%string
  else if repeated (λ a, (oa_provider a, oa_provider_user_id a)) (oauth_accounts s)
  then Some "uq_oauth_accounts_provider_user"%string
  else if repeated (λ a, (oa_user_id a, oa_provider a)) (oauth_accounts s)
  then Some "uq_oauth_accounts_user_provider"%string
  else if existsb (λ a, negb (bool_decide (is_Some (users s !! oa_user_id a)))) (map_to_list (oauth_accounts s)).*2
  then Some "oauth_accounts_user_id_fkey"%string
  else None.

(** ** The world *)
Inductive redis_value : Type :=
| RTime (t : datetime)
| RInt (n : Z).

Inductive mail : Type :=
| VerifyTokenMail (recipient token : text)
| ResetTokenMail (recipient username token : text).

Record auth_world : Type := MkAuthWorld {
  aw_session : auth_store;
  aw_database : auth_store;
  aw_redis : gmap text (redis_value * datetime);
  aw_clock : nat → datetime;
  aw_ticks : nat;
  aw_uuids : nat → Z;
  aw_uuid_reads : nat;
  aw_secrets : nat → text;
  aw_secret_reads : nat;
  aw_mails : list mail;
}.
#[global] Instance auth_world_settable : Settable auth_world := λ w,
  MkAuthWorld (aw_session w) (aw_database w) (aw_redis w) (aw_clock w) (aw_ticks w) (aw_uuids w)
    (aw_uuid_reads w) (aw_secrets w) (aw_secret_reads w) (aw_mails w).

(** ** The monad *)
Definition A (X : Type) : Type := auth_world → result auth_error X * auth_world.

#[export] Instance A_ret : MRet A := λ X a w, (Ok a, w).
#[export] Instance A_bind : MBind A := λ X Y k m w,
  match m w with
  | (Ok a, w') => k a w'
  | (Err e, w') => (Err e, w')
  end.

Definition araise {X} (e : auth_error) : A X := λ w, (Err e, w).
Definition alift {X} (r : result auth_error X) : A X := λ w, (r, w).
Definition rbac {X} (r : result rbac_error X) : A X := λ w,
  (match r with Ok a => Ok a | Err e => Err (RbacError e) end, w).
(** [if bad: raise e] *)
Definition arefuse (bad : bool) (e : auth_error) : A unit := λ w, (if bad then Err e else Ok tt, w).
Definition afound {X} (o : option X) (e : auth_error) : A X := λ w,
  (match o with Some a => Ok a | None => Err e end, w).

Definition utcnow : A datetime := λ w, (Ok (aw_clock w (aw_ticks w)), w <| aw_ticks ::= S |>).
Definition uuid4 : A Z := λ w, (Ok (aw_uuids w (aw_uuid_reads w)), w <| aw_uuid_reads ::= S |>).
(** [secrets.token_urlsafe], [secrets.token_hex], the salt of a hash *)
Definition secret : A text := λ w, (Ok (aw_secrets w (aw_secret_reads w)), w <| aw_secret_reads ::= S |>).

Definition aselect {X} (f : auth_store → X) : A X := λ w, (Ok (f (aw_session w)), w).
Definition awrite (f : auth_store → auth_store) : A unit := λ w, (Ok tt, w <| aw_session ::= f |>).

(** [session.flush()] and [session.commit()] raise the violated constraint *)
Definition aflush : A unit := λ w,
  match violated (aw_session w) with
  | Some c => (Err (AuthIntegrityError c), w)
  | None => (Ok tt, w)
  end.
Definition acommit : A unit := λ w,
  match violated (aw_session w) with
  | Some c => (Err (AuthIntegrityError c), w)
  | None => (Ok tt, w <| aw_database := aw_session w |>)
  end.
Definition arollback : A unit := λ w, (Ok tt, w <| aw_session := aw_database w |>).

(** [try: m except E as exc: h] for the errors [h] answers *)
Definition acatch {X} (m : A X) (h : auth_error → option (A X)) : A X := λ w,
  match m w with
  | (Err e, w') => match h e with Some k => k w' | None => (Err e, w') end
  | r => r
  end.

Fixpoint aeach {X} (l : list X) (f : X → A unit) : A unit :=
  match l with
  | [] => mret tt
  | x :: l' => _ ← f x; aeach l' f
  end.

(** [event_bus.publish]: rows of the outbox, here the events themselves *)
Definition apublish (events : list auth_event) : A unit := awrite (λ s, s <| auth_outbox ::= (λ l, l ++ events) |>).

(** [mail_service.queue] *)
Definition queue_mail (m : mail) : A unit := λ w, (Ok tt, w <| aw_mails ::= (λ l, l ++ [m]) |>).

(** one request, in a session of its own *)
Definition run_request {X} (h : A X) (w : auth_world) : result auth_error X * auth_world :=
  let '(r, w') := h (w <| aw_session := aw_database w |>) in
  (r, w' <| aw_session := aw_database w' |>).

(** ** Redis *)

(** [SET key value EX ...]: a [timedelta] is cut to whole seconds, of which
    there must be at least one *)
Definition redis_set (key : text) (v : redis_value) (ex : Z) : A unit := λ w,
  let '(now, w) := (aw_clock w (aw_ticks w), w <| aw_ticks ::= S |>) in
  if Z.quot ex 1000000 <=? 0 then (Err RedisResponseError, w)
  else (Ok tt, w <| aw_redis ::= <[key := (v, now + seconds (Z.quot ex 1000000))]> |>).

Definition live_value (now : datetime) (key : text) (r : gmap text (redis_value * datetime)) : option redis_value :=
  match r !! key with
  | Some (v, until) => if now <? until then Some v else None
  | None => None
  end.

Definition redis_get (key : text) : A (option redis_value) := λ w,
  (Ok (live_value (aw_clock w (aw_ticks w)) key (aw_redis w)), w <| aw_ticks ::= S |>).

Definition redis_del (key : text) : A unit := λ w, (Ok tt, w <| aw_redis ::= delete key |>).

(** [fromtimestamp(float(value or "0"))] *)
Definition as_time (v : option redis_value) : datetime :=
  match v with Some (RTime t) => t | Some (RInt n) => seconds n | None => 0 end.

Module TokenBlacklistRepository.
Definition revoked_key (jti : text) : text := u8 "revoked:" ++ jti.
Definition user_key (user_id : Z) : text := u8 "user:" ++ str_int user_id.

#[global] Arguments revoked_key : simpl never.
#[global] Arguments user_key : simpl never.

Definition add_jwt_token (jti : text) (expiration : Z) : A unit :=
  now ← utcnow; redis_set (revoked_key jti) (RTime now) expiration.
Definition get_token_backlist (jti : text) : A datetime :=
  v ← redis_get (revoked_key jti); mret (as_time v).
Definition add_user (user_id : Z) (expiration : option Z) : A unit :=
  let expiration := default (minutes (auth_config.ACCESS_TOKEN_EXPIRE_MINUTES + 1)) expiration in
  now ← utcnow; redis_set (user_key user_id) (RTime now) expiration.
Definition get_user_backlist (user_id : Z) : A datetime :=
  v ← redis_get (user_key user_id); mret (as_time v).
Definition add_token (token : text) (user_id : Z) (expiration : Z) : A unit :=
  redis_set token (RInt user_id) expiration.
Definition is_valid_token (token : text) : A (option Z) :=
  v ← redis_get token;
  mret (match v with Some (RInt n) => Some n | _ => None end).
Definition invalidate_token (token : text) : A unit := redis_del token.
End TokenBlacklistRepository.

(** [MGET]: all values at one instant; the latest of them, [0] when there is
    none *)
Definition redis_mget (keys : list text) : A (list (option redis_value)) := λ w,
  (Ok ((λ k, live_value (aw_clock w (aw_ticks w)) k (aw_redis w)) <$> keys), w <| aw_ticks ::= S |>).
Definition latest_mark (keys : list text) : A datetime :=
  match keys with
  | [] => mret 0
  | _ => values ← redis_mget keys; mret (foldr (λ v t, Z.max (as_time v) t) 0 values)
  end.

Module RoleInvalidateRepository.
Definition key (name : string) : text := u8 "invalid_role:" ++ u8 name.
Definition invalidate_role (name : string) : A unit :=
  now ← utcnow; redis_set (key name) (RTime now) (days 8).
Definition get_max_invalidation_time (names : list string) : A datetime := latest_mark (key <$> names).
End RoleInvalidateRepository.

Module PermissionInvalidateRepository.
Definition key (name : string) : text := u8 "invalid_permission:" ++ u8 name.
Definition invalidate_permission (name : string) : A unit :=
  now ← utcnow; redis_set (key name) (RTime now) (days 8).
Definition get_max_invalidation_time (names : list string) : A datetime := latest_mark (key <$> names).
End PermissionInvalidateRepository.

Module OAuthCodeRepository.
Definition state_key (state : text) : text := u8 "state:" ++ state.
Definition add_oauth_state (state : text) (user_id : option Z) : A unit :=
  redis_set (state_key state) (RInt (default 0 user_id)) (minutes 10).
Definition get_state (state : text) : A (option Z) :=
  v ← redis_get (state_key state);
  mret (match v with Some (RInt n) => Some n | _ => None end).
Definition delete (state : text) : A unit := redis_del (state_key state).
End OAuthCodeRepository.

(** ** Rows *)

(** a change of a loaded entity: its row without the events *)
Definition save_user (u : User.t) : A unit :=
  awrite (λ s, s <| users ::= <[User.id u := u <| User.events := [] |>]> |>).
Definition save_role (r : Role.t) : A unit := awrite (λ s, s <| roles ::= <[Role.id r := r]> |>).
Definition save_session (x : Session.t) : A unit :=
  awrite (λ s, s <| sessions ::= <[Session.id x := x <| Session.events := [] |>]> |>).

(** an id of the database's sequences *)
Definition new_row_id : A Z := λ w,
  (Ok (next_row_id (aw_session w)), w <| aw_session ::= (λ s, s <| next_row_id ::= Z.succ |>) |>).

Module UserRepository.
(** the user that satisfies a condition and is not deleted; the columns asked
    for are unique *)
Definition get_where (P : User.t → bool) (s : auth_store) : option User.t :=
  head (filter (λ u, P u && negb (User.is_deleted u) = true) (map_to_list (users s)).*2).

Definition get_by_email (email : text) : A (option User.t) :=
  aselect (get_where (λ u, bool_decide (User.email u = email))).
Definition get_with_roles_by_email (email : text) : A (option User.t) := get_by_email email.
Definition get_by_username (username : text) : A (option User.t) :=
  aselect (get_where (λ u, bool_decide (User.username u = username))).
Definition get_with_roles_by_username (username : text) : A (option User.t) := get_by_username username.

Definition is_username_taken (username : text) (exclude_user_id : option Z) : A bool :=
  aselect (λ s, existsb (λ u, bool_decide (lower (User.username u) = lower username)
                              && negb (bool_decide (exclude_user_id = Some (User.id u))))
                  (map_to_list (users s)).*2).

Definition get_by_id (user_id : Z) : A (option User.t) :=
  aselect (λ s, u ← users s !! user_id; if User.is_deleted u then None else Some u).
Definition get_user_with_permission_by_id (user_id : Z) : A (option User.t) := get_by_id user_id.

(** [create] and the flush that numbers the row *)
Definition create (u : User.t) : A User.t :=
  i ← new_row_id; _ ← save_user (u <| User.id := i |>); mret (u <| User.id := i |>).
End UserRepository.

Module SessionRepository.
Definition get_by_id (session_id : Z) : A (option Session.t) := aselect (λ s, sessions s !! session_id).
Definition get_active_by_device (user_id : Z) (device_id : text) : A (option Session.t) :=
  aselect (λ s, head (filter (λ x, Session.user_id x = user_id ∧ Session.device_id x = device_id
                                   ∧ Session.is_active x = true) (map_to_list (sessions s)).*2)).
Definition create (x : Session.t) : A Session.t :=
  i ← new_row_id; _ ← save_session (x <| Session.id := i |>); mret (x <| Session.id := i |>).
End SessionRepository.

Module RoleRepository.
Definition get_by_name (name : string) : A (option Role.t) :=
  aselect (λ s, head (filter (λ r, Role.name r = name) (map_to_list (roles s)).*2)).
Definition get_with_permission_by_name (name : string) : A (option Role.t) := get_by_name name.
Definition get_by_id (role_id : Z) : A (option Role.t) := aselect (λ s, roles s !! role_id).
Definition create (r : Role.t) : A Role.t :=
  i ← new_row_id; _ ← save_role (r <| Role.id := i |>); mret (r <| Role.id := i |>).
End RoleRepository.

Module PermissionRepository.
Definition get_permission_by_name (name : string) : A (option (Z * string)) :=
  aselect (λ s, head (filter (λ p, p.2 = name) (map_to_list (permissions s)))).
Definition get_permissions_by_names (names : gset string) : A (list (Z * string)) :=
  aselect (λ s, filter (λ p, p.2 ∈ names) (map_to_list (permissions s))).
Definition create (name : string) : A unit :=
  i ← new_row_id; awrite (λ s, s <| permissions ::= <[i := name]> |>).
(** the rows of the association tables go with it *)
Definition delete (p : Z) : A unit := awrite (λ s,
  s <| permissions ::= delete p |>
    <| roles ::= fmap (λ r, r <| Role.permissions ::= (.∖ {[ p ]}) |>) |>
    <| users ::= fmap (λ u, u <| User.permissions ::= (.∖ {[ p ]}) |>) |>).
End PermissionRepository.

Module OauthAccountRepository.
Definition get_by_provider_and_user_id (provider : OAuthProviderEnum) (provider_user_id : text)
  : A (option OAuthAccount) :=
  aselect (λ s, head (filter (λ a, oa_provider a = provider ∧ oa_provider_user_id a = provider_user_id)
                        (map_to_list (oauth_accounts s)).*2)).
Definition create (provider : OAuthProviderEnum) (email provider_user_id : text) (user_id : Z) : A OAuthAccount :=
  i ← new_row_id;
  let a := MkOAuthAccount i provider provider_user_id email true user_id in
  _ ← awrite (λ s, s <| oauth_accounts ::= <[i := a]> |>);
  mret a.
End OauthAccountRepository.
