(* ===== verification/AuthServices.v ===== *)
(** Services of the account module: tokens ([app/auth/services/jwt.py],
    [app/core/services/auth/jwt_manager.py]), device sessions ([session.py],
    [device.py]), passwords ([hash.py]) and generated user names
    ([username.py]). What they take from other packages - PyJWT, passlib,
    user-agents, orjson, hashlib - is a parameter, with what is relied on as a
    class of laws. *)
From S2P Require Import Prelude Rbac WsModel AuthModel AuthStore.

(** ** Parameters *)

(** passlib's [CryptContext]; a hash takes a random salt *)
Class HashContext : Type := {
  crypt_hash : text → text → text;
  crypt_verify : text → text → bool;
}.
Class HashContextLaws (H : HashContext) : Prop := {
  crypt_verify_hash salt p q : crypt_verify q (crypt_hash salt p) = bool_decide (q = p);
}.

(** PyJWT with the application's key *)
Inductive jwt_outcome : Type :=
| JwtClaims (t : Token)
| JwtExpired
| JwtInvalid.
Class JWTCodec : Type := {
  jwt_encode : Token → text;
  jwt_decode : datetime → text → jwt_outcome;
}.
(** An encoded token decodes to its claims from its issue until it expires,
    which PyJWT measures in whole seconds, and to nothing after; the claims of a
    text do not change. *)
Class JWTCodecLaws (J : JWTCodec) : Prop := {
  jwt_decode_stable now now' s t t' : jwt_decode now s = JwtClaims t → jwt_decode now' s = JwtClaims t' → t' = t;
  jwt_decode_live now t : tok_iat t ≤ now → now + seconds 1 ≤ tok_exp t → jwt_decode now (jwt_encode t) = JwtClaims t;
  jwt_decode_claims now s t : jwt_decode now s = JwtClaims t → now < tok_exp t;
}.

(** [hashlib.sha256(...).hexdigest()] *)
Class Hashlib : Type := { sha256_hex : text → text }.

(** what the user-agents package finds, and the JSON orjson makes of it *)
Record ParsedAgent : Type := MkParsedAgent {
  ua_browser_family : text;
  ua_browser_version : text;
  ua_os_family : text;
  ua_os_version : text;
  ua_device : text;
}.
Class UserAgents : Type := {
  ua_parse : text → ParsedAgent;
  device_json : text → text → text → text;
}.

(** ** Devices *)
Record DeviceInformation : Type := MkDevice {
  di_user_agent : text;
  di_device_id : text;
  di_device_info : text;
}.

Definition generate_device_info `{Hashlib, UserAgents} (user_agent : text) : DeviceInformation :=
  let ua := ua_parse user_agent in
  let browser := ua_browser_family ua ++ 32 :: ua_browser_version ua in
  let os := ua_os_family ua ++ 32 :: ua_os_version ua in
  let simplified_ua := take 100 (browser ++ u8 " on " ++ os) in
  let fingerprint_json := device_json (ua_browser_family ua) (ua_os_family ua) (ua_device ua) in
  MkDevice simplified_ua (sha256_hex fingerprint_json) fingerprint_json.

(** ** Sessions *)
Module SessionManager.
Section manager.
Context `{Hashlib, UserAgents}.

Definition get_user_session (user_id : Z) (device_id : text) : A (option Session.t) :=
  active_session ← SessionRepository.get_active_by_device user_id device_id;
  match active_session with
  | Some x =>
    now ← utcnow;
    let x := Session.online now x in
    _ ← save_session x;
    mret (Some x)
  | None => mret None
  end.

Definition get_or_create_session (user_id : Z) (user_agent ip_address : text) : A Session.t :=
  let device_data := generate_device_info user_agent in
  existing_session ← get_user_session user_id (di_device_id device_data);
  match existing_session with
  | Some x =>
    now ← utcnow;
    let x := Session.online now x in
    _ ← save_session x;
    mret x
  | None =>
    n0 ← utcnow;
    let x := Session.create n0 user_id (di_device_id device_data) ip_address (di_device_info device_data)
               (di_user_agent device_data) in
    now ← utcnow;
    SessionRepository.create (Session.online now x)
  end.
End manager.
End SessionManager.

(** ** Passwords *)
Module HashService.
Section hash.
Context `{HashContext}.
Definition hash_password (password : text) : A text := salt ← secret; mret (crypt_hash salt password).
Definition verify_password (plain_password hashed_password : text) : bool :=
  crypt_verify plain_password hashed_password.
End hash.
End HashService.

(** ** Tokens *)

(** [AuthUserJWTData.create_from_user]: the roles of the user, with theirs *)
Definition roles_of (s : auth_store) (u : User.t) : list Role.t :=
  omap (λ i, roles s !! i) (elements (User.roles u)).
Definition permission_names (s : auth_store) (ids : gset Z) : list string :=
  omap (λ i, permissions s !! i) (elements ids).

Definition string_le (a b : string) : Prop := String.leb a b = true.
#[export] Instance string_le_dec : RelDecision string_le.
Proof. intros a b. unfold string_le. apply _. Defined.
(** [sorted] of the set of these *)
Definition sorted_names (l : list string) : list string := merge_sort string_le (remove_dups l).

Definition create_from_user (s : auth_store) (u : User.t) (device_id : text) : UserJWTData :=
  let rs := roles_of s u in
  MkJWT (User.id u) (User.username u) (sorted_names (Role.name <$> rs))
    (sorted_names ((rs ≫= λ r, permission_names s (Role.permissions r)) ++ permission_names s (User.permissions u)))
    (foldl (λ lvl r, Z.max lvl (Role.security_level r)) 0 rs)
    device_id.

Record TokenGroup : Type := MkTokenGroup {
  tg_refresh_token : text;
  tg_access_token : text;
}.

Definition ACCESS : string := "access".
Definition REFRESH : string := "refresh".

Module AuthJWTManager.
Section manager.
Context `{JWTCodec}.

(** [JWTManager.validate_token]: an expired token is told from another that
    does not decode *)
Definition validate_token (token : text) (token_type : string) : A Token :=
  now ← utcnow;
  match jwt_decode now token with
  | JwtExpired => araise (ExpiredTokenError token)
  | JwtInvalid => araise (InvalidTokenError (Some token))
  | JwtClaims t =>
    _ ← arefuse (negb (bool_decide (tok_type t = token_type))) (InvalidTokenError (Some token));
    mret t
  end.

Definition generate_payload (user_data : UserJWTData) (token_type : string) : A Token :=
  now ← utcnow;
  jti ← uuid4;
  let access := bool_decide (token_type = ACCESS) in
  mret (MkToken token_type (jwt_id user_data) (jwt_security_level user_data) (str_uuid jti)
          (jwt_device_id user_data)
          (now + if access then minutes auth_config.ACCESS_TOKEN_EXPIRE_MINUTES
                 else days auth_config.REFRESH_TOKEN_EXPIRE_DAYS)
          now (jwt_username user_data)
          (if access then jwt_roles user_data else []) (if access then jwt_permissions user_data else [])).

Definition create_token_pair (security_user : UserJWTData) : A TokenGroup :=
  access_payload ← generate_payload security_user ACCESS;
  refresh_payload ← generate_payload security_user REFRESH;
  mret (MkTokenGroup (jwt_encode refresh_payload) (jwt_encode access_payload)).

Definition revoke_token (token : Token) : A unit :=
  current_time ← utcnow;
  TokenBlacklistRepository.add_jwt_token (tok_jti token) (tok_exp token - current_time).

(** the four reasons to refuse a token, in the order they are looked up *)
Definition check_blacklists (refresh_token : Token) (security_user : UserJWTData) : A unit :=
  let iat := tok_iat refresh_token in
  token_date ← TokenBlacklistRepository.get_token_backlist (tok_jti refresh_token);
  _ ← arefuse (iat <? token_date) TokenInBlacklistError;
  user_date ← TokenBlacklistRepository.get_user_backlist (tok_sub refresh_token);
  _ ← arefuse (iat <? user_date) TokenInBlacklistError;
  role_date ← RoleInvalidateRepository.get_max_invalidation_time (jwt_roles security_user);
  _ ← arefuse (iat <? role_date) TokenInBlacklistError;
  permission_date ← PermissionInvalidateRepository.get_max_invalidation_time (jwt_permissions security_user);
  arefuse (iat <? permission_date) TokenInBlacklistError.

Definition refresh_tokens (refresh_token : Token) (security_user : UserJWTData) : A TokenGroup :=
  _ ← check_blacklists refresh_token security_user;
  _ ← revoke_token refresh_token;
  create_token_pair security_user.
End manager.
End AuthJWTManager.

(** ** Generated user names *)
Module UsernameGenerator.
Definition MIN_LENGTH : Z := 4.
Definition MAX_LENGTH : nat := 100.
Definition BASE_MAX_LENGTH : nat := 93.
Definition FALLBACK_BASE : text := u8 "user".
Definition attempts : nat := 5.

(** from U+0430 on, then U+0451 *)
Definition _CYRILLIC : list string :=
  ["a"; "b"; "v"; "g"; "d"; "e"; "zh"; "z"; "i"; "i"; "k"; "l"; "m"; "n"; "o"; "p"; "r"; "s"; "t"; "u";
   "f"; "h"; "c"; "ch"; "sh"; "sch"; ""; "y"; ""; "e"; "yu"; "ya"]%string.

Definition capitalize (s : text) : text :=
  match s with
  | c :: s' => (if (97 <=? c) && (c <=? 122) then c - 32 else c) :: s'
  | [] => []
  end.

(** [_TRANSLIT.get(char, char)]; a capital is listed when its letter has a
    transliteration *)
Definition transliterate (c : Z) : text :=
  let small i := u8 (default ""%string (_CYRILLIC !! Z.to_nat i)) in
  let capital i := match small i with [] => [c] | s => capitalize s end in
  if (1072 <=? c) && (c <=? 1103) then small (c - 1072)
  else if (1040 <=? c) && (c <=? 1071) then capital (c - 1040)
  else if c =? 1105 then u8 "e" else if c =? 1025 then u8 "E" else [c].

Definition trimmed (c : Z) : bool := bool_decide (c ∈ u8 " ,.'-").
Definition allowed (c : Z) : bool := is_ascii_letter c || is_ascii_digit c || trimmed c.

(** runs of spaces, the only blanks left, become one *)
Fixpoint squeeze (s : text) : text :=
  match s with
  | c :: s' => if (c =? 32) && bool_decide (head s' = Some 32) then squeeze s' else c :: squeeze s'
  | [] => []
  end.

Fixpoint ltrim (s : text) : text :=
  match s with
  | c :: s' => if trimmed c then ltrim s' else s
  | [] => []
  end.
Definition trim (s : text) : text := reverse (ltrim (reverse (ltrim s))).

Definition normalize_username (raw : option text) : text :=
  match raw with
  | None | Some [] => []
  | Some raw =>
    let transliterated := raw ≫= transliterate in
    let cleaned := (λ c, if allowed c then c else 32) <$> transliterated in
    trim (take BASE_MAX_LENGTH (trim (squeeze cleaned)))
  end.

Definition _is_free (username : text) : A bool :=
  if User.is_reserved_username username then mret false
  else taken ← UserRepository.is_username_taken username None; mret (negb taken).

Fixpoint candidates (n : nat) (base : text) : A text :=
  match n with
  | O => u ← uuid4; mret (take MAX_LENGTH (base ++ 45 :: hex 32 u))
  | S n =>
    suffix ← secret;
    let candidate := base ++ 45 :: suffix in
    free ← _is_free candidate;
    if (free : bool) then mret candidate else candidates n base
  end.

(** the first of three texts that is not empty *)
Definition base_name (preferred : option text) (email : text) : text :=
  match normalize_username preferred with
  | [] => match normalize_username (Some (partition 64 email).1.1) with [] => FALLBACK_BASE | s => s end
  | s => s
  end.

Definition generate (preferred : option text) (email : text) : A text :=
  let base := base_name preferred email in
  free ← (if MIN_LENGTH <=? len base then _is_free base else mret (M := A) false);
  if (free : bool) then mret base else candidates attempts base.
End UsernameGenerator.
