(* ===== verification/AuthCommands.v ===== *)
(** Handlers for accounts, sessions and tokens ([app/auth/commands/auth],
    [app/auth/commands/sessions], [app/auth/commands/users]). Logging is left
    out. *)
From S2P Require Import Prelude Rbac WsModel AuthModel OAuthProviders AuthStore AuthServices.

(** the one way a command refuses for a missing permission *)
Definition require (j : UserJWTData) (needed : gset string) (need_permissions : gset string) : A unit :=
  rbac (raise_if (negb (AuthRBACManager.check_permission j needed)) (AccessDeniedError need_permissions)).

(** [needed - set(permissions)] *)
Definition lacking (j : UserJWTData) (needed : gset string) : gset string :=
  needed ∖ list_to_set (jwt_permissions j).

Module LoginCommand.
Section handler.
Context `{HashContext, JWTCodec, Hashlib, UserAgents}.
Record command : Type := Mk {
  username : text;
  password : text;
  user_agent : text;
  ip_address : text;
}.
Definition find_user (cmd : command) : A (option User.t) :=
  if bool_decide (64 ∈ username cmd) then UserRepository.get_with_roles_by_email (username cmd)
  else UserRepository.get_with_roles_by_username (username cmd).

(** the condition under which the login is wrong *)
Definition rejected (cmd : command) (user : option User.t) : bool :=
  match user with
  | None => true
  | Some u =>
    User.is_deleted u
    || match User.password_hash u with
       | None => true
       | Some h => negb (HashService.verify_password (password cmd) h)
       end
  end.

Definition handle (cmd : command) : A TokenGroup :=
  found ← find_user cmd;
  _ ← arefuse (rejected cmd found) (WrongLoginDataError (username cmd));
  user ← afound found (WrongLoginDataError (username cmd));
  session ← SessionManager.get_or_create_session (User.id user) (user_agent cmd) (ip_address cmd);
  _ ← apublish (Session.pull_events session).1;
  _ ← acommit;
  data ← aselect (λ s, create_from_user s user (Session.device_id session));
  AuthJWTManager.create_token_pair data.
End handler.
End LoginCommand.

Module LogoutCommand.
Section handler.
Context `{JWTCodec}.
Record command : Type := Mk { refresh_token : option text }.
Definition handle (cmd : command) : A unit :=
  token ← afound (refresh_token cmd) (InvalidTokenError None);
  refresh_token ← AuthJWTManager.validate_token token REFRESH;
  _ ← AuthJWTManager.revoke_token refresh_token;
  found ← SessionRepository.get_active_by_device (tok_sub refresh_token) (tok_did refresh_token);
  session ← afound found NotFoundOrInactiveSessionError;
  now ← utcnow;
  let session := Session.deactivate now session in
  _ ← save_session session;
  _ ← TokenBlacklistRepository.add_jwt_token (tok_jti refresh_token)
        (days (auth_config.REFRESH_TOKEN_EXPIRE_DAYS + 1));
  _ ← apublish (Session.pull_events session).1;
  acommit.
End handler.
End LogoutCommand.

Module RefreshTokenCommand.
Section handler.
Context `{JWTCodec}.
Record command : Type := Mk { refresh_token : option text }.

(** the token belongs to an open session of a user *)
Definition identify (cmd : command) : A (Token * Session.t * UserJWTData) :=
  token ← afound (refresh_token cmd) (InvalidTokenError None);
  refresh_token ← AuthJWTManager.validate_token token REFRESH;
  found ← SessionRepository.get_active_by_device (tok_sub refresh_token) (tok_did refresh_token);
  session ← afound found NotFoundOrInactiveSessionError;
  _ ← arefuse (negb (Session.is_active session)) NotFoundOrInactiveSessionError;
  now ← utcnow;
  let session := Session.online now session in
  _ ← save_session session;
  found ← UserRepository.get_user_with_permission_by_id (tok_sub refresh_token);
  user ← afound found NotFoundUserError;
  data ← aselect (λ s, create_from_user s user (tok_did refresh_token));
  mret (refresh_token, session, data).

(** the answer to a token in the blacklist: the session is closed, and the
    error raised again *)
Definition close_session (session : Session.t) (e : auth_error) : option (A TokenGroup) :=
  match e with
  | TokenInBlacklistError => Some (
    now ← utcnow;
    _ ← save_session (Session.deactivate now session);
    _ ← acommit;
    araise TokenInBlacklistError)
  | _ => None
  end.

Definition handle (cmd : command) : A TokenGroup :=
  known ← identify cmd;
  let '(refresh_token, session, data) := known in
  token_group ← acatch (AuthJWTManager.refresh_tokens refresh_token data) (close_session session);
  _ ← acommit;
  mret token_group.
End handler.
End RefreshTokenCommand.

Module CreateOAuthAuthorizeUrlCommand.
Section handler.
Context `{OAuthManager}.
Record command : Type := Mk { provider : string; user_id : option Z }.
Definition handle (cmd : command) : A text :=
  state ← secret;
  _ ← OAuthCodeRepository.add_oauth_state state (user_id cmd);
  alift (get_authorize_url (provider cmd) state).
End handler.
End CreateOAuthAuthorizeUrlCommand.

Module ProcessOAuthCallbackCommand.
Section handler.
Context `{JWTCodec, Hashlib, UserAgents, OAuthManager}.
Record command : Type := Mk {
  provider : string;
  code : option text;
  state : text;
  user_agent : text;
  ip_address : text;
}.

(** an account is linked to the user who asked for it *)
Definition link (cmd : command) (p : OAuthProviderEnum) (data : OAuthData) (user_id : Z)
  (account : option OAuthAccount) : A User.t :=
  _ ← arefuse (match account with Some a => negb (oa_user_id a =? user_id) | None => false end)
        (LinkedAnotherUserOAuthError (provider cmd));
  _ ← match account with
      | Some _ => mret (M := A) tt
      | None => _ ← OauthAccountRepository.create p (od_email data) (od_provider_user_id data) user_id; mret tt
      end;
  found ← UserRepository.get_user_with_permission_by_id user_id;
  afound found NotFoundUserError.

(** a linked account logs its user in *)
Definition enter (account : OAuthAccount) : A User.t :=
  _ ← arefuse (negb (oa_is_active account)) OAuthInactiveError;
  found ← UserRepository.get_user_with_permission_by_id (oa_user_id account);
  afound found NotFoundUserError.

(** an unknown one makes a user *)
Definition sign_up (cmd : command) (p : OAuthProviderEnum) (data : OAuthData) : A User.t :=
  found ← RoleRepository.get_with_permission_by_name (role_name STANDARD_USER);
  role ← afound found (NotFoundRoleError (u8 (role_name STANDARD_USER)));
  taken ← UserRepository.get_by_email (od_email data);
  _ ← arefuse (is_some taken) (LinkedAnotherUserOAuthError (provider cmd));
  username ← UsernameGenerator.generate (od_username data) (od_email data);
  user ← UserRepository.create (User.create_oauth (od_email data) username {[ Role.id role ]});
  _ ← aflush;
  let user := User.verify user in
  _ ← save_user user;
  _ ← apublish (User.pull_events user).1;
  _ ← OauthAccountRepository.create p (od_email data) (od_provider_user_id data) (User.id user);
  mret user.

Definition handle (cmd : command) : A TokenGroup :=
  code ← afound (code cmd) (OAuthProviderUnavailableError (provider cmd));
  data ← alift (process_callback (provider cmd) code);
  found ← OAuthCodeRepository.get_state (state cmd);
  user_id ← afound found (OAuthStateNotFoundError (state cmd));
  p ← afound (oauth_provider (provider cmd)) ValueError;
  account ← OauthAccountRepository.get_by_provider_and_user_id p (od_provider_user_id data);
  user ← (if negb (user_id =? 0) then link cmd p data user_id account
          else match account with Some a => enter a | None => sign_up cmd p data end);
  session ← SessionManager.get_or_create_session (User.id user) (user_agent cmd) (ip_address cmd);
  _ ← OAuthCodeRepository.delete (state cmd);
  _ ← apublish (Session.pull_events session).1;
  _ ← acommit;
  data ← aselect (λ s, create_from_user s user (Session.device_id session));
  AuthJWTManager.create_token_pair data.
End handler.
End ProcessOAuthCallbackCommand.

Module UserDeactivateSessionCommand.
Record command : Type := Mk { session_id : Z; user_jwt_data : UserJWTData }.
Definition handle (cmd : command) : A unit :=
  found ← SessionRepository.get_by_id (session_id cmd);
  session ← afound found NotFoundOrInactiveSessionError;
  _ ← arefuse (negb (Session.user_id session =? jwt_id (user_jwt_data cmd))
               && negb (AuthRBACManager.check_permission (user_jwt_data cmd) {[ "user:update"%string ]}))
        NotFoundOrInactiveSessionError;
  now ← utcnow;
  let session := Session.deactivate now session in
  _ ← save_session session;
  _ ← apublish (Session.pull_events session).1;
  acommit.
End UserDeactivateSessionCommand.

(** ** Accounts *)
Module RegisterCommand.
Section handler.
Context `{HashContext}.
Record command : Type := Mk {
  username : text;
  email : text;
  password : text;
  password_repeat : text;
}.
(** [str(exc.orig)], as far as it is looked into: the constraint, and the key
    that exists *)
Definition error_text (cmd : command) (constraint : string) : text :=
  u8 constraint ++ u8 " Key (" ++
  (if bool_decide (constraint = "ix_users_email"%string) then u8 "email)=(" ++ email cmd
   else if bool_decide (constraint ∈ ["ix_users_username"; "uq_users_username_lower"]%string)
   then u8 "username)=(" ++ username cmd else []) ++ u8 ")".

(** what a registration that lost a race is told *)
Definition duplicate (cmd : command) (e : auth_error) : option (A unit) :=
  match e with
  | AuthIntegrityError c =>
    Some (_ ← arollback;
          if occurs (u8 "username") (error_text cmd c) then araise (DuplicateUserError "username" (username cmd))
          else if occurs (u8 "email") (error_text cmd c) then araise (DuplicateUserError "email" (email cmd))
          else araise e)
  | _ => None
  end.

(** The user registered; [UserDTO.model_validate] reads its fields. *)
Definition handle (cmd : command) : A User.t :=
  email_user ← UserRepository.get_by_email (email cmd);
  _ ← arefuse (is_some email_user) (DuplicateUserError "email" (email cmd));
  _ ← arefuse (User.is_reserved_username (username cmd)) (InvalidUsernameError (username cmd) "reserved");
  taken ← UserRepository.is_username_taken (username cmd) None;
  _ ← arefuse taken (DuplicateUserError "username" (username cmd));
  _ ← arefuse (negb (bool_decide (password cmd = password_repeat cmd))) PasswordMismatchError;
  found ← RoleRepository.get_with_permission_by_name (role_name STANDARD_USER);
  role ← afound found (NotFoundRoleError (u8 (role_name STANDARD_USER)));
  hash ← HashService.hash_password (password cmd);
  user ← UserRepository.create (User.create (email cmd) (username cmd) (Some hash) {[ Role.id role ]} false);
  let '(events, user) := User.pull_events user in
  _ ← apublish events;
  _ ← acatch acommit (duplicate cmd);
  mret user.
End handler.
End RegisterCommand.

Module ChangePasswordCommand.
Section handler.
Context `{HashContext}.
Record command : Type := Mk {
  old_password : text;
  new_password : text;
  new_password_repeat : text;
  user_jwt_data : UserJWTData;
}.
(** the condition of the [if], read as it stands *)
Definition mismatch (cmd : command) (u : User.t) : bool :=
  match User.password_hash u with
  | None => true
  | Some h => HashService.verify_password (old_password cmd) h
  end || negb (bool_decide (new_password cmd = new_password_repeat cmd)).

Definition handle (cmd : command) : A unit :=
  found ← UserRepository.get_by_id (jwt_id (user_jwt_data cmd));
  user ← afound found NotFoundUserError;
  _ ← arefuse (mismatch cmd user) PasswordMismatchError;
  hash ← HashService.hash_password (new_password cmd);
  let user := User.password_reset hash user in
  _ ← save_user user;
  _ ← TokenBlacklistRepository.add_user (User.id user) (Some (days auth_config.REFRESH_TOKEN_EXPIRE_DAYS));
  _ ← apublish (User.pull_events user).1;
  acommit.
End handler.
End ChangePasswordCommand.

Module ChangeUsernameCommand.
Record command : Type := Mk { username : text; user_jwt_data : UserJWTData }.
(** what [commit] may raise here: no key but the name is new *)
Definition taken_meanwhile (name : text) (e : auth_error) : option (A unit) :=
  match e with
  | AuthIntegrityError c =>
    Some (_ ← arollback;
          if occurs (u8 "username") (u8 c) then araise (UsernameTakenError name) else araise e)
  | _ => None
  end.

Definition handle (cmd : command) : A User.t :=
  found ← UserRepository.get_by_id (jwt_id (user_jwt_data cmd));
  user ← afound found NotFoundUserError;
  name ← alift (User.validate_username (username cmd));
  if bool_decide (name = User.username user) then mret user
  else
    taken ← UserRepository.is_username_taken name (Some (User.id user));
    _ ← arefuse taken (UsernameTakenError name);
    user ← alift (User.change_username name user);
    let '(events, user) := User.pull_events user in
    _ ← save_user user;
    _ ← apublish events;
    _ ← acatch acommit (taken_meanwhile name);
    mret user.
End ChangeUsernameCommand.

Module DeleteUserCommand.
Record command : Type := Mk { user_id : Z; user_jwt_data : UserJWTData }.
Definition handle (cmd : command) : A unit :=
  found ← UserRepository.get_by_id (user_id cmd);
  user ← afound found NotFoundUserError;
  _ ← rbac (raise_if (negb (User.id user =? jwt_id (user_jwt_data cmd))
                      && negb (AuthRBACManager.check_permission (user_jwt_data cmd) {[ "user:update"%string ]}))
              (AccessDeniedError {[ "user:delete"%string; "user:owner"%string ]}));
  now ← utcnow;
  let user := User.delete now user in
  _ ← save_user user;
  _ ← TokenBlacklistRepository.add_user (User.id user) (Some (days auth_config.REFRESH_TOKEN_EXPIRE_DAYS));
  _ ← apublish (User.pull_events user).1;
  acommit.
End DeleteUserCommand.

(** ** Codes sent by mail *)
Module SendResetPasswordCommand.
Section handler.
Context `{Hashlib}.
Definition handle (email : text) : A unit :=
  found ← UserRepository.get_by_email email;
  match found with
  | None => mret tt
  | Some user =>
    reset_token ← secret;
    _ ← TokenBlacklistRepository.add_token (sha256_hex reset_token) (User.id user)
          (minutes auth_config.EMAIL_RESET_TOKEN_EXPIRE_MINUTES);
    queue_mail (ResetTokenMail (User.email user) (User.username user) reset_token)
  end.
End handler.
End SendResetPasswordCommand.

Module SendVerifyCommand.
Section handler.
Context `{Hashlib}.
Definition handle (email : text) : A unit :=
  found ← UserRepository.get_by_email email;
  match found with
  | None => mret tt
  | Some user =>
    verify_token ← secret;
    _ ← TokenBlacklistRepository.add_token (sha256_hex verify_token) (User.id user)
          (minutes auth_config.EMAIL_RESET_TOKEN_EXPIRE_MINUTES);
    queue_mail (VerifyTokenMail (User.email user) verify_token)
  end.
End handler.
End SendVerifyCommand.

Module ResetPasswordCommand.
Section handler.
Context `{HashContext, Hashlib}.
Record command : Type := Mk { token : text; password : text; password_repeat : text }.
Definition handle (cmd : command) : A unit :=
  let hash_token := sha256_hex (token cmd) in
  found ← TokenBlacklistRepository.is_valid_token hash_token;
  user_id ← afound found (InvalidTokenError (Some (token cmd)));
  found ← UserRepository.get_by_id user_id;
  user ← afound found NotFoundUserError;
  _ ← arefuse (negb (bool_decide (password cmd = password_repeat cmd))) PasswordMismatchError;
  hash ← HashService.hash_password (password cmd);
  let user := User.password_reset hash user in
  _ ← save_user user;
  _ ← TokenBlacklistRepository.invalidate_token hash_token;
  _ ← TokenBlacklistRepository.add_user (User.id user) (Some (days auth_config.REFRESH_TOKEN_EXPIRE_DAYS));
  _ ← apublish (User.pull_events user).1;
  acommit.
End handler.
End ResetPasswordCommand.

Module VerifyCommand.
Section handler.
Context `{Hashlib}.
Definition handle (token : text) : A unit :=
  let hash_token := sha256_hex token in
  found ← TokenBlacklistRepository.is_valid_token hash_token;
  user_id ← afound found (InvalidTokenError (Some token));
  found ← UserRepository.get_by_id user_id;
  user ← afound found NotFoundUserError;
  let user := User.verify user in
  _ ← save_user user;
  _ ← TokenBlacklistRepository.invalidate_token hash_token;
  _ ← apublish (User.pull_events user).1;
  acommit.
End handler.
End VerifyCommand.
