(* ===== verification/AuthAdmin.v ===== *)
(** Handlers that administer roles and permissions ([app/auth/commands/roles],
    [app/auth/commands/permissions]). *)
From S2P Require Import Prelude Rbac WsModel AuthModel OAuthProviders AuthStore AuthServices AuthCommands.

(** [check_permission], refused with what the caller lacks *)
Definition authorised (j : UserJWTData) (needed : gset string) : A unit := require j needed (lacking j needed).

(** the rows of all the names, or the names that have none *)
Definition all_permissions (names : gset string) : A (list (Z * string)) :=
  found ← PermissionRepository.get_permissions_by_names names;
  _ ← arefuse (negb (bool_decide (length found = size names)))
        (NotFoundPermissionsError (names ∖ list_to_set found.*2));
  mret found.

(** ** Roles *)
Module CreateRoleCommand.
Record command : Type := Mk {
  user_jwt_data : UserJWTData;
  role_name : string;
  description : text;
  security_level : Z;
  permissions : gset string;
}.

Fixpoint add_permissions (j : UserJWTData) (names : list string) (role : Role.t) : A Role.t :=
  match names with
  | [] => mret role
  | name :: names =>
    found ← PermissionRepository.get_permission_by_name name;
    permission ← afound found (NotFoundPermissionsError {[ name ]});
    _ ← rbac (AuthRBACManager.validate_permissions j name);
    add_permissions j names (Role.add_permission permission.1 role)
  end.

Definition handle (cmd : command) : A unit :=
  let j := user_jwt_data cmd in
  _ ← authorised j {[ "role:create"%string ]};
  _ ← rbac (AuthRBACManager.validate_role_name j (u8 (role_name cmd)));
  _ ← rbac (AuthRBACManager.check_security_level (jwt_security_level j) (security_level cmd));
  found ← RoleRepository.get_by_name (role_name cmd);
  _ ← arefuse (is_some found) (DuplicateRoleError (role_name cmd));
  let role := Role.Mk 0 (role_name cmd) (Some (description cmd)) (security_level cmd) ∅ in
  role ← add_permissions j (elements (permissions cmd)) role;
  _ ← RoleRepository.create role;
  acommit.
End CreateRoleCommand.

Module RoleUpdateCommand.
Record command : Type := Mk {
  id : Z;
  name : option string;
  description : option text;
  security_level : option Z;
  user_jwt_data : UserJWTData;
}.

(** [if command.name:] - an empty name is no name *)
Definition rename (j : UserJWTData) (name : option string) (role : Role.t) : A Role.t :=
  match name with
  | None | Some ""%string => mret role
  | Some n =>
    _ ← rbac (AuthRBACManager.validate_role_name j (u8 n));
    mret (role <| Role.name := n |>)
  end.

Definition describe (description : option text) (role : Role.t) : Role.t :=
  match description with
  | None | Some [] => role
  | Some d => role <| Role.description := Some d |>
  end.

(** [if command.security_level:] - level [0] is no level *)
Definition relevel (level : option Z) (role : Role.t) : Role.t :=
  match level with
  | None | Some 0 => role
  | Some l => role <| Role.security_level := l |>
  end.

Definition handle (cmd : command) : A unit :=
  let j := user_jwt_data cmd in
  _ ← authorised j {[ "role:update"%string ]};
  _ ← match security_level cmd with
      | Some l => rbac (AuthRBACManager.check_security_level (jwt_security_level j) l)
      | None => mret (M := A) tt
      end;
  found ← RoleRepository.get_by_id (id cmd);
  role ← afound found (NotFoundRoleError (str_int (id cmd)));
  _ ← rbac (AuthRBACManager.check_security_level (jwt_security_level j) (Role.security_level role));
  role ← rename j (name cmd) role;
  let role := relevel (security_level cmd) (describe (description cmd) role) in
  _ ← save_role role;
  _ ← RoleInvalidateRepository.invalidate_role (Role.name role);
  acommit.
End RoleUpdateCommand.

Module AddPermissionRoleCommand.
Record command : Type := Mk { role_name : string; permissions : gset string; user_jwt_data : UserJWTData }.
Definition handle (cmd : command) : A unit :=
  let j := user_jwt_data cmd in
  _ ← authorised j {[ "role:create"%string ]};
  found ← RoleRepository.get_with_permission_by_name (role_name cmd);
  role ← afound found (NotFoundRoleError (u8 (role_name cmd)));
  _ ← rbac (AuthRBACManager.check_security_level (jwt_security_level j) (Role.security_level role));
  rows ← all_permissions (permissions cmd);
  let role := foldl (λ r p, Role.add_permission p.1 r) role rows in
  _ ← save_role role;
  _ ← RoleInvalidateRepository.invalidate_role (Role.name role);
  acommit.
End AddPermissionRoleCommand.

Module DeletePermissionRoleCommand.
Record command : Type := Mk { role_name : string; permissions : gset string; user_jwt_data : UserJWTData }.
Definition handle (cmd : command) : A unit :=
  let j := user_jwt_data cmd in
  _ ← authorised j {[ "role:update"%string ]};
  found ← RoleRepository.get_with_permission_by_name (role_name cmd);
  role ← afound found (NotFoundRoleError (u8 (role_name cmd)));
  rows ← all_permissions (permissions cmd);
  let role := foldl (λ r p, Role.delete_permission p.1 r) role rows in
  _ ← save_role role;
  _ ← RoleInvalidateRepository.invalidate_role (Role.name role);
  acommit.
End DeletePermissionRoleCommand.

Module AssignRoleCommand.
Record command : Type := Mk { assign_to_user : Z; role_name : string; user_jwt_data : UserJWTData }.
Definition handle (cmd : command) : A unit :=
  let j := user_jwt_data cmd in
  _ ← authorised j {[ "role:assign"%string ]};
  found ← RoleRepository.get_by_name (role_name cmd);
  role ← afound found (NotFoundRoleError (u8 (role_name cmd)));
  found ← UserRepository.get_user_with_permission_by_id (assign_to_user cmd);
  assign_user ← afound found NotFoundUserError;
  _ ← rbac (AuthRBACManager.check_security_level (jwt_security_level j) (Role.security_level role));
  _ ← save_user (User.add_role role assign_user);
  _ ← TokenBlacklistRepository.add_user (User.id assign_user) None;
  acommit.
End AssignRoleCommand.

Module RemoveRoleCommand.
Record command : Type := Mk { remove_from_user : Z; role_name : string; user_jwt_data : UserJWTData }.
Definition handle (cmd : command) : A unit :=
  let j := user_jwt_data cmd in
  _ ← authorised j {[ "user:update"%string; "role:remove"%string ]};
  found ← RoleRepository.get_with_permission_by_name (role_name cmd);
  role ← afound found (NotFoundRoleError (u8 (role_name cmd)));
  _ ← rbac (AuthRBACManager.check_security_level (jwt_security_level j) (Role.security_level role));
  found ← UserRepository.get_user_with_permission_by_id (remove_from_user cmd);
  user ← afound found NotFoundUserError;
  user ← alift (User.delete_role role user);
  _ ← save_user user;
  _ ← TokenBlacklistRepository.add_user (User.id user) None;
  acommit.
End RemoveRoleCommand.

(** ** Permissions *)
Module CreatePermissionCommand.
Record command : Type := Mk { name : string; user_jwt_data : UserJWTData }.
Definition handle (cmd : command) : A unit :=
  let j := user_jwt_data cmd in
  _ ← authorised j {[ "permission:create"%string ]};
  _ ← rbac (AuthRBACManager.validate_permissions j (name cmd));
  found ← PermissionRepository.get_permission_by_name (name cmd);
  _ ← arefuse (is_some found) (DuplicatePermissionError (name cmd));
  _ ← PermissionRepository.create (name cmd);
  acommit.
End CreatePermissionCommand.

Module DeletePermissionCommand.
Record command : Type := Mk { name : string; user_jwt_data : UserJWTData }.
Definition handle (cmd : command) : A unit :=
  let j := user_jwt_data cmd in
  _ ← authorised j {[ "permission:create"%string ]};
  _ ← rbac (AuthRBACManager.validate_permissions j (name cmd));
  _ ← rbac (raise_if (bool_decide (name cmd ∈ AuthRBACManager.protected_permissions))
              (ProtectedPermissionError (name cmd)));
  found ← PermissionRepository.get_permission_by_name (name cmd);
  permission ← afound found (NotFoundPermissionsError {[ name cmd ]});
  _ ← PermissionRepository.delete permission.1;
  _ ← PermissionInvalidateRepository.invalidate_permission permission.2;
  acommit.
End DeletePermissionCommand.

Module AddPermissionToUserCommand.
Record command : Type := Mk { user_jwt_data : UserJWTData; user_id : Z; permissions : gset string }.
Definition handle (cmd : command) : A unit :=
  _ ← authorised (user_jwt_data cmd) {[ "permission:update"%string; "user:update"%string ]};
  found ← UserRepository.get_user_with_permission_by_id (user_id cmd);
  user ← afound found NotFoundUserError;
  rows ← all_permissions (permissions cmd);
  _ ← save_user (foldl (λ u p, User.add_permission p u) user rows);
  _ ← TokenBlacklistRepository.add_user (User.id user) None;
  acommit.
End AddPermissionToUserCommand.

Module DeletePermissionToUserCommand.
Record command : Type := Mk { user_jwt_data : UserJWTData; user_id : Z; permissions : gset string }.

Fixpoint delete_all (rows : list (Z * string)) (u : User.t) : result auth_error User.t :=
  match rows with
  | [] => mret u
  | p :: rows => u ← User.delete_permission p u; delete_all rows u
  end.

Definition handle (cmd : command) : A unit :=
  _ ← authorised (user_jwt_data cmd) {[ "permission:update"%string; "user:update"%string ]};
  found ← UserRepository.get_user_with_permission_by_id (user_id cmd);
  user ← afound found NotFoundUserError;
  rows ← all_permissions (permissions cmd);
  user ← alift (delete_all rows user);
  _ ← save_user user;
  _ ← TokenBlacklistRepository.add_user (User.id user) None;
  acommit.
End DeletePermissionToUserCommand.
