(* ===== verification/AuthWp.v ===== *)
(** Reasoning about the handlers of the account module: weakest preconditions,
    the computations that leave the tables alone, and the row changes handlers
    are made of. *)
From S2P Require Import Prelude Rbac WsModel AuthModel OAuthProviders AuthStore AuthServices.

Definition awp {X} (m : A X) (w : auth_world) (Q : result auth_error X → auth_world → Prop) : Prop :=
  Q (m w).1 (m w).2.

(** the tables of two worlds agree *)
Definition same_tables (w w' : auth_world) : Prop :=
  aw_session w' = aw_session w ∧ aw_database w' = aw_database w.

(** A computation that reads, or writes to Redis only. *)
Class Silent {X} (m : A X) : Prop := silent w : same_tables w (m w).2.

Section rules.
Context {X Y : Type}.
Implicit Types (w : auth_world).

Lemma awp_mono (m : A X) w (P Q : result auth_error X → auth_world → Prop) :
  awp m w P → (∀ r w', P r w' → Q r w') → awp m w Q.
Proof. unfold awp. auto. Qed.

Lemma awp_bind (m : A X) (k : X → A Y) w Q :
  awp m w (λ r w', match r with Ok a => awp (k a) w' Q | Err e => Q (Err e) w' end) → awp (m ≫= k) w Q.
Proof. unfold awp, mbind, A_bind. by destruct (m w) as [[a|e] w']. Qed.

Lemma awp_ret (a : X) w (Q : result auth_error X → auth_world → Prop) : Q (Ok a) w → awp (mret a) w Q.
Proof. done. Qed.

Lemma awp_raise e w (Q : result auth_error X → auth_world → Prop) : Q (Err e) w → awp (araise e) w Q.
Proof. done. Qed.

Lemma awp_lift (r : result auth_error X) w Q :
  (∀ a, r = Ok a → Q (Ok a) w) → (∀ e, r = Err e → Q (Err e) w) → awp (alift r) w Q.
Proof. destruct r; unfold awp; cbn; auto. Qed.

Lemma awp_rbac (r : result rbac_error X) w Q :
  (∀ a, r = Ok a → Q (Ok a) w) → (∀ e, r = Err e → Q (Err (RbacError e)) w) → awp (rbac r) w Q.
Proof. destruct r; unfold awp; cbn; auto. Qed.

Lemma awp_refuse bad e w (Q : result auth_error unit → auth_world → Prop) :
  (bad = false → Q (Ok tt) w) → (bad = true → Q (Err e) w) → awp (arefuse bad e) w Q.
Proof. destruct bad; unfold awp; cbn; auto. Qed.

Lemma awp_found (o : option X) e w Q :
  (∀ a, o = Some a → Q (Ok a) w) → (o = None → Q (Err e) w) → awp (afound o e) w Q.
Proof. destruct o; unfold awp; cbn; auto. Qed.

Lemma awp_select (f : auth_store → X) w Q : Q (Ok (f (aw_session w))) w → awp (aselect f) w Q.
Proof. done. Qed.

Lemma awp_write f w (Q : result auth_error unit → auth_world → Prop) :
  Q (Ok tt) (w <| aw_session ::= f |>) → awp (awrite f) w Q.
Proof. done. Qed.

Lemma awp_flush w (Q : result auth_error unit → auth_world → Prop) :
  (violated (aw_session w) = None → Q (Ok tt) w) →
  (∀ c, violated (aw_session w) = Some c → Q (Err (AuthIntegrityError c)) w) → awp aflush w Q.
Proof. unfold awp, aflush. destruct (violated (aw_session w)); cbn; auto. Qed.

Lemma awp_commit w (Q : result auth_error unit → auth_world → Prop) :
  (violated (aw_session w) = None → Q (Ok tt) (w <| aw_database := aw_session w |>)) →
  (∀ c, violated (aw_session w) = Some c → Q (Err (AuthIntegrityError c)) w) → awp acommit w Q.
Proof. unfold awp, acommit. destruct (violated (aw_session w)); cbn; auto. Qed.

Lemma awp_rollback w (Q : result auth_error unit → auth_world → Prop) :
  Q (Ok tt) (w <| aw_session := aw_database w |>) → awp arollback w Q.
Proof. done. Qed.

Lemma awp_catch (m : A X) h w Q :
  awp m w (λ r w', match r with
                   | Err e => match h e with Some k => awp k w' Q | None => Q (Err e) w' end
                   | Ok a => Q (Ok a) w'
                   end) →
  awp (acatch m h) w Q.
Proof. unfold awp, acatch. destruct (m w) as [[a|e] w']; cbn; [done|]. by destruct (h e). Qed.

Lemma awp_silent (m : A X) `{!Silent m} w Q : (∀ r w', same_tables w w' → Q r w') → awp m w Q.
Proof. intros HQ. apply HQ, silent. Qed.

Lemma silent_bind (m : A X) (k : X → A Y) : Silent m → (∀ a, Silent (k a)) → Silent (m ≫= k).
Proof.
  intros Hm Hk w. unfold mbind, A_bind. pose proof (Hm w) as H. destruct (m w) as [[a|e] w1]; [|done].
  cbn in H. destruct H as [H1 H2], (Hk a w1) as [H3 H4]. split; congruence.
Qed.
End rules.

Lemma same_tables_refl w : same_tables w w.
Proof. done. Qed.

Create HintDb silent.
#[export] Hint Resolve same_tables_refl : silent.

(** Binds of silent computations are silent. *)
Ltac go_silent :=
  repeat first
    [ apply silent_bind; [|intros ?]
    | progress cbv zeta
    | solve [eauto with silent]
    | match goal with
      | |- Silent (if ?b then _ else _) => destruct b
      | |- Silent (match ?x with _ => _ end) => destruct x
      | |- Silent _ => intros ?; split; reflexivity
      end ].

Lemma silent_ret {X} (a : X) : Silent (mret a : A X).
Proof. by intros w. Qed.
Lemma silent_raise {X} e : Silent (araise e : A X).
Proof. by intros w. Qed.
Lemma silent_lift {X} (r : result auth_error X) : Silent (alift r).
Proof. by intros w. Qed.
Lemma silent_rbac {X} (r : result rbac_error X) : Silent (rbac r).
Proof. by intros w. Qed.
Lemma silent_refuse b e : Silent (arefuse b e).
Proof. by intros w. Qed.
Lemma silent_found {X} (o : option X) e : Silent (afound o e).
Proof. by intros w. Qed.
Lemma silent_select {X} (f : auth_store → X) : Silent (aselect f).
Proof. by intros w. Qed.
Lemma silent_utcnow : Silent utcnow.
Proof. by intros w. Qed.
Lemma silent_uuid4 : Silent uuid4.
Proof. by intros w. Qed.
Lemma silent_secret : Silent secret.
Proof. by intros w. Qed.
Lemma silent_redis_get k : Silent (redis_get k).
Proof. by intros w. Qed.
Lemma silent_redis_del k : Silent (redis_del k).
Proof. by intros w. Qed.
Lemma silent_redis_set k v ex : Silent (redis_set k v ex).
Proof. intros w. unfold redis_set. by case_match. Qed.
Lemma silent_mail m : Silent (queue_mail m).
Proof. by intros w. Qed.
#[export] Hint Resolve silent_ret silent_raise silent_lift silent_rbac silent_refuse silent_found
  silent_select silent_utcnow silent_uuid4 silent_secret silent_redis_get silent_redis_del
  silent_redis_set silent_mail : silent.

Lemma silent_redis_mget keys : Silent (redis_mget keys).
Proof. by intros w. Qed.
#[export] Hint Resolve silent_redis_mget : silent.
Lemma silent_latest keys : Silent (latest_mark keys).
Proof. destruct keys; cbn [latest_mark]; go_silent. Qed.
#[export] Hint Resolve silent_latest : silent.

Lemma silent_add_jwt_token jti ex : Silent (TokenBlacklistRepository.add_jwt_token jti ex).
Proof. unfold TokenBlacklistRepository.add_jwt_token. go_silent. Qed.
Lemma silent_add_user i ex : Silent (TokenBlacklistRepository.add_user i ex).
Proof. unfold TokenBlacklistRepository.add_user. go_silent. Qed.
Lemma silent_add_token k i ex : Silent (TokenBlacklistRepository.add_token k i ex).
Proof. unfold TokenBlacklistRepository.add_token. go_silent. Qed.
Lemma silent_is_valid_token k : Silent (TokenBlacklistRepository.is_valid_token k).
Proof. unfold TokenBlacklistRepository.is_valid_token. go_silent. Qed.
Lemma silent_invalidate_token k : Silent (TokenBlacklistRepository.invalidate_token k).
Proof. unfold TokenBlacklistRepository.invalidate_token. go_silent. Qed.
Lemma silent_invalidate_role n : Silent (RoleInvalidateRepository.invalidate_role n).
Proof. unfold RoleInvalidateRepository.invalidate_role. go_silent. Qed.
Lemma silent_invalidate_permission n : Silent (PermissionInvalidateRepository.invalidate_permission n).
Proof. unfold PermissionInvalidateRepository.invalidate_permission. go_silent. Qed.
Lemma silent_hash `{HashContext} p : Silent (HashService.hash_password p).
Proof. unfold HashService.hash_password. go_silent. Qed.
#[export] Hint Resolve silent_add_jwt_token silent_add_user silent_add_token silent_is_valid_token
  silent_invalidate_token silent_invalidate_role silent_invalidate_permission silent_hash : silent.

Section tokens.
Context `{JWTCodec}.
Lemma silent_validate t ty : Silent (AuthJWTManager.validate_token t ty).
Proof. unfold AuthJWTManager.validate_token. go_silent. Qed.
Lemma silent_payload d ty : Silent (AuthJWTManager.generate_payload d ty).
Proof. unfold AuthJWTManager.generate_payload. go_silent. Qed.
#[local] Hint Resolve silent_payload : silent.
Lemma silent_pair d : Silent (AuthJWTManager.create_token_pair d).
Proof. unfold AuthJWTManager.create_token_pair. go_silent. Qed.
Lemma silent_revoke t : Silent (AuthJWTManager.revoke_token t).
Proof. unfold AuthJWTManager.revoke_token. go_silent. Qed.
Lemma silent_blacklists t d : Silent (AuthJWTManager.check_blacklists t d).
Proof.
  unfold AuthJWTManager.check_blacklists, TokenBlacklistRepository.get_token_backlist,
    TokenBlacklistRepository.get_user_backlist, RoleInvalidateRepository.get_max_invalidation_time,
    PermissionInvalidateRepository.get_max_invalidation_time. go_silent.
Qed.
#[local] Hint Resolve silent_pair silent_revoke silent_blacklists : silent.
Lemma silent_refresh t d : Silent (AuthJWTManager.refresh_tokens t d).
Proof. unfold AuthJWTManager.refresh_tokens. go_silent. Qed.
End tokens.
#[export] Hint Resolve silent_validate silent_payload silent_pair silent_revoke silent_blacklists
  silent_refresh : silent.

Lemma silent_is_free u : Silent (UsernameGenerator._is_free u).
Proof. unfold UsernameGenerator._is_free, UserRepository.is_username_taken. go_silent. Qed.
#[export] Hint Resolve silent_is_free : silent.

Lemma silent_candidates n base : Silent (UsernameGenerator.candidates n base).
Proof.
  induction n as [|n IH]; cbn [UsernameGenerator.candidates]; [go_silent|].
  go_silent.
Qed.
#[export] Hint Resolve silent_candidates : silent.
Lemma silent_generate p e : Silent (UsernameGenerator.generate p e).
Proof. unfold UsernameGenerator.generate. apply silent_bind; intros; go_silent. Qed.
#[export] Hint Resolve silent_generate : silent.

(** ** Executing a handler *)

(** what a step through the silent part of a handler leaves *)
Lemma awp_bind_silent {X Y} (m : A X) (k : X → A Y) w Q :
  Silent m → (∀ a w', same_tables w w' → awp (k a) w' Q) → (∀ e w', same_tables w w' → Q (Err e) w') →
  awp (m ≫= k) w Q.
Proof.
  intros Hs Hk He. apply awp_bind. pose proof (Hs w) as H. unfold awp. destruct (m w) as [[a|e] w']; cbn in *; [|by apply He].
  by apply Hk.
Qed.

(** reads of the clock and of the random supplies do not fail *)
Class Infallible {X} (m : A X) : Prop := infallible w : ∃ a, (m w).1 = Ok a.

#[export] Instance infallible_utcnow : Infallible utcnow.
Proof. intros w. by eexists. Qed.
#[export] Instance infallible_uuid4 : Infallible uuid4.
Proof. intros w. by eexists. Qed.
#[export] Instance infallible_secret : Infallible secret.
Proof. intros w. by eexists. Qed.
#[export] Instance infallible_hash `{HashContext} p : Infallible (HashService.hash_password p).
Proof. intros w. by eexists. Qed.
#[export] Instance infallible_payload `{JWTCodec} d ty : Infallible (AuthJWTManager.generate_payload d ty).
Proof. intros w. by eexists. Qed.
#[export] Instance infallible_pair `{JWTCodec} d : Infallible (AuthJWTManager.create_token_pair d).
Proof. intros w. by eexists. Qed.

Lemma awp_infallible {X} (m : A X) w (Q : result auth_error X → auth_world → Prop) :
  Infallible m → Silent m → (∀ a w', same_tables w w' → Q (Ok a) w') → awp m w Q.
Proof. intros Hi Hs HQ. unfold awp. destruct (Hi w) as [a ->]. apply HQ, Hs. Qed.

(** One step: rules for what the proof needs to know, silence for the rest. *)
Ltac astep :=
  match goal with
  | |- awp (let _ := _ in _) _ _ => cbv zeta
  | |- awp (_ ≫= _) _ _ => apply awp_bind
  | |- awp (mret _) _ _ => apply awp_ret
  | |- awp (araise _) _ _ => apply awp_raise
  | |- awp (alift _) _ _ => apply awp_lift; intros ? ?
  | |- awp (rbac _) _ _ => apply awp_rbac; intros ? ?
  | |- awp (arefuse _ _) _ _ => apply awp_refuse; intros ?
  | |- awp (afound _ _) _ _ => apply awp_found; [intros ? ?|intros ?]
  | |- awp (aselect _) _ _ => apply awp_select
  | |- awp (awrite _) _ _ => apply awp_write
  | |- awp aflush _ _ => apply awp_flush; [intros ?|intros ? ?]
  | |- awp acommit _ _ => apply awp_commit; [intros ?|intros ? ?]
  | |- awp arollback _ _ => apply awp_rollback
  | |- awp (acatch _ _) _ _ => apply awp_catch
  | |- awp (if ?b then _ else _) _ _ => destruct b eqn:?
  | |- awp (match ?x with _ => _ end) _ _ => destruct x eqn:?
  | |- awp _ _ _ => apply awp_infallible; [apply _|solve [eauto with silent]|intros ? ? [? ?]]
  | |- awp _ _ _ => apply awp_silent; [solve [eauto with silent]|intros [?|?] ? [? ?]]
  end; cbv beta iota.
