(* ===== verification/AuthSpec.v ===== *)
(** The changes the account module makes to its tables, the invariant they
    keep, and the handlers as sequences of them. *)
From S2P Require Import Prelude Rbac WsModel AuthModel OAuthProviders AuthStore AuthServices AuthCommands AuthAdmin AuthWp.

(** ** What holds of the tables *)

(** an open session of a user on a device *)
Definition open_on (u : Z) (d : text) (x : Session.t) : Prop :=
  Session.user_id x = u ∧ Session.device_id x = d ∧ Session.is_active x = true.

Record accounts_ok (s : auth_store) : Prop := {
  ak_users i u : users s !! i = Some u →
    i < next_row_id s ∧ User.id u = i ∧ User.events u = []
    ∧ User.roles u ⊆ dom (roles s) ∧ User.permissions u ⊆ dom (permissions s);
  ak_roles i r : roles s !! i = Some r →
    i < next_row_id s ∧ Role.id r = i ∧ Role.permissions r ⊆ dom (permissions s);
  ak_permissions i n : permissions s !! i = Some n → i < next_row_id s;
  ak_sessions i x : sessions s !! i = Some x →
    i < next_row_id s ∧ Session.id x = i ∧ Session.events x = [] ∧ is_Some (users s !! Session.user_id x);
  ak_accounts i a : oauth_accounts s !! i = Some a → i < next_row_id s;
  ak_open i j x y u d : sessions s !! i = Some x → sessions s !! j = Some y →
    open_on u d x → open_on u d y → i = j;
}.

Lemma accounts_ok_empty : accounts_ok empty_auth_store.
Proof. split; cbn; intros *; by intros ?%lookup_empty_Some. Qed.

(** ** Row changes *)
Inductive change : auth_store → auth_store → Prop :=
| change_events s es : change s (s <| auth_outbox ::= (λ l, l ++ es) |>)
| change_id s : change s (s <| next_row_id ::= Z.succ |>)
| change_new_user s u :
    User.roles u ⊆ dom (roles s) → User.permissions u ⊆ dom (permissions s) →
    change s (s <| next_row_id ::= Z.succ |>
                <| users ::= <[next_row_id s := u <| User.id := next_row_id s |> <| User.events := [] |>]> |>)
| change_user s u u' :
    users s !! User.id u = Some u → User.id u' = User.id u →
    User.email u' = User.email u → (User.is_deleted u = true → User.is_deleted u' = true) →
    User.roles u' ⊆ User.roles u ∪ dom (roles s) → User.permissions u' ⊆ User.permissions u ∪ dom (permissions s) →
    change s (s <| users ::= <[User.id u' := u' <| User.events := [] |>]> |>)
| change_new_role s r :
    Role.permissions r ⊆ dom (permissions s) →
    change s (s <| next_row_id ::= Z.succ |> <| roles ::= <[next_row_id s := r <| Role.id := next_row_id s |>]> |>)
| change_role s r r' :
    roles s !! Role.id r = Some r → Role.id r' = Role.id r →
    Role.permissions r' ⊆ Role.permissions r ∪ dom (permissions s) →
    change s (s <| roles ::= <[Role.id r' := r']> |>)
| change_new_permission s n :
    change s (s <| next_row_id ::= Z.succ |> <| permissions ::= <[next_row_id s := n]> |>)
| change_drop_permission s p :
    change s (s <| permissions ::= delete p |>
      <| roles ::= fmap (λ r, r <| Role.permissions ::= (.∖ {[ p ]}) |>) |>
      <| users ::= fmap (λ u, u <| User.permissions ::= (.∖ {[ p ]}) |>) |>)
| change_new_session s x :
    is_Some (users s !! Session.user_id x) →
    (∀ i y, sessions s !! i = Some y → ¬ open_on (Session.user_id x) (Session.device_id x) y) →
    change s (s <| next_row_id ::= Z.succ |>
                <| sessions ::= <[next_row_id s := x <| Session.id := next_row_id s |> <| Session.events := [] |>]> |>)
| change_session s x x' :
    sessions s !! Session.id x = Some x → Session.id x' = Session.id x →
    Session.user_id x' = Session.user_id x → Session.device_id x' = Session.device_id x →
    (Session.is_active x' = true → Session.is_active x = true) →
    change s (s <| sessions ::= <[Session.id x' := x' <| Session.events := [] |>]> |>)
| change_new_account s a :
    change s (s <| next_row_id ::= Z.succ |> <| oauth_accounts ::= <[next_row_id s := a]> |>).

Definition changes : auth_store → auth_store → Prop := rtc change.

(** ** The invariant is kept *)

(** A row's clauses survive when ids, users, roles and permissions only grow. *)
Lemma ok_grow s s' :
  accounts_ok s → next_row_id s ≤ next_row_id s' → dom (users s) ⊆ dom (users s') →
  dom (roles s) ⊆ dom (roles s') → dom (permissions s) ⊆ dom (permissions s') →
  (∀ i u, users s' !! i = Some u → users s !! i = Some u ∨
     i < next_row_id s' ∧ User.id u = i ∧ User.events u = []
     ∧ User.roles u ⊆ dom (roles s') ∧ User.permissions u ⊆ dom (permissions s')) →
  (∀ i r, roles s' !! i = Some r → roles s !! i = Some r ∨
     i < next_row_id s' ∧ Role.id r = i ∧ Role.permissions r ⊆ dom (permissions s')) →
  (∀ i n, permissions s' !! i = Some n → permissions s !! i = Some n ∨ i < next_row_id s') →
  (∀ i x, sessions s' !! i = Some x → sessions s !! i = Some x ∨
     i < next_row_id s' ∧ Session.id x = i ∧ Session.events x = [] ∧ is_Some (users s' !! Session.user_id x)) →
  (∀ i a, oauth_accounts s' !! i = Some a → oauth_accounts s !! i = Some a ∨ i < next_row_id s') →
  (∀ i j x y u d, sessions s' !! i = Some x → sessions s' !! j = Some y → open_on u d x → open_on u d y → i = j) →
  accounts_ok s'.
Proof.
  intros [Hu Hr Hp Hs Ha Ho] Hn Du Dr Dp Ku Kr Kp Ks Ka Ko. split; [| | | | |exact Ko].
  - intros i u [H%Hu|H]%Ku; [|done]. destruct H as (? & ? & ? & ? & ?). split_and!; [lia|done|done|set_solver|set_solver].
  - intros i r [H%Hr|H]%Kr; [|done]. destruct H as (? & ? & ?). split_and!; [lia|done|set_solver].
  - intros i n [H%Hp|H]%Kp; [lia|done].
  - intros i x [H%Hs|H]%Ks; [|done]. destruct H as (? & ? & ? & Hx). split_and!; [lia|done|done|].
    apply elem_of_dom. apply Du. by apply elem_of_dom.
  - intros i a [H%Ha|H]%Ka; [lia|done].
Qed.

Lemma dom_insert_grow {X} (m : gmap Z X) i x : dom m ⊆ dom (<[i := x]> m).
Proof. rewrite dom_insert. set_solver. Qed.

Ltac grow :=
  cbn in *; try first [lia|done|apply dom_insert_grow|by left|by eauto].

Lemma ok_drop s p :
  accounts_ok s →
  accounts_ok (s <| permissions ::= delete p |>
      <| roles ::= fmap (λ r, r <| Role.permissions ::= (.∖ {[ p ]}) |>) |>
      <| users ::= fmap (λ u, u <| User.permissions ::= (.∖ {[ p ]}) |>) |>).
Proof.
  intros [Hu Hr Hp Hs Ha Ho]. split; cbn; [| | | |done|exact Ho].
  - intros i u. rewrite lookup_fmap. intros (v & Hv & ->)%fmap_Some. destruct (Hu _ _ Hv) as (? & ? & ? & ? & ?).
    rewrite dom_fmap_L, dom_delete_L. cbn. split_and!; [done..|set_solver].
  - intros i r. rewrite lookup_fmap. intros (v & Hv & ->)%fmap_Some. destruct (Hr _ _ Hv) as (? & ? & ?).
    rewrite dom_delete_L. cbn. split_and!; [done..|set_solver].
  - intros i n [_ Hi]%lookup_delete_Some. by eapply Hp.
  - intros i x Hi. destruct (Hs _ _ Hi) as (? & ? & ? & [v Hv]). split_and!; [done..|].
    rewrite lookup_fmap, Hv. by eexists.
Qed.

Lemma change_ok s s' : change s s' → accounts_ok s → accounts_ok s'.
Proof.
  intros Hc Hok. pose proof Hok as [Hu Hr Hp Hs Ha Ho].
  destruct Hc as [s es|s|s u H1 H2|s u u' H1 H2 H3 H4 H5 H6|s r H1|s r r' H1 H2 H3|s n|s p|s x H1 H2|s x x' H1 H2 H3 H4 H5|s a].
  - apply (ok_grow s); grow.
  - apply (ok_grow s); grow.
  - apply (ok_grow s); grow. intros i v [[<- <-]|[_ Hi]]%lookup_insert_Some; [right|by left]. split_and!; grow.
  - apply (ok_grow s); grow. intros i v [[<- <-]|[_ Hi]]%lookup_insert_Some; [right|by left]. cbn.
    destruct (Hu _ _ H1) as (? & ? & ? & ? & ?). split_and!; [congruence || lia|done|done|set_solver|set_solver].
  - apply (ok_grow s); grow. intros i v [[<- <-]|[_ Hi]]%lookup_insert_Some; [right|by left]. split_and!; grow.
  - apply (ok_grow s); grow. intros i v [[<- <-]|[_ Hi]]%lookup_insert_Some; [right|by left].
    destruct (Hr _ _ H1) as (? & ? & ?). split_and!; [congruence || lia|done|set_solver].
  - apply (ok_grow s); grow. intros i v [[<- <-]|[_ Hi]]%lookup_insert_Some; [right; lia|by left].
  - by apply ok_drop.
  - apply (ok_grow s); grow.
    + intros i v [[<- <-]|[_ Hi]]%lookup_insert_Some; [right|by left]. split_and!; grow.
    + intros i j y z u d [[<- <-]|[_ Hi]]%lookup_insert_Some [[<- <-]|[_ Hj]]%lookup_insert_Some Hy Hz; try done; [..|by eapply Ho].
      * destruct Hy as (<- & <- & _). by destruct (H2 _ _ Hj).
      * destruct Hz as (<- & <- & _). by destruct (H2 _ _ Hi).
  - destruct (Hs _ _ H1) as (? & ? & ? & ?). apply (ok_grow s); grow.
    + intros i v [[<- <-]|[_ Hi]]%lookup_insert_Some; [right|by left]. cbn. split_and!; [congruence || lia|done|done|congruence].
    + assert (∀ u d, open_on u d x' → open_on u d x) as Hx.
      { unfold open_on. intros u d (<- & <- & ?). rewrite H3, H4. auto. }
      intros i j y z u d [[<- <-]|[_ Hi]]%lookup_insert_Some [[<- <-]|[_ Hj]]%lookup_insert_Some Hy Hz; [done|..|by eapply Ho].
      * rewrite H2. by eapply Ho; [exact H1|exact Hj|apply Hx, Hy|exact Hz].
      * rewrite H2. by eapply Ho; [exact Hi|exact H1|exact Hy|apply Hx, Hz].
  - apply (ok_grow s); grow. intros i v [[<- <-]|[_ Hi]]%lookup_insert_Some; [right; lia|by left].
Qed.

Lemma changes_ok s s' : changes s s' → accounts_ok s → accounts_ok s'.
Proof. induction 1; eauto using change_ok. Qed.

(** ** What reads find *)
Lemma get_by_id_Some s i u :
  (v ← users s !! i; if User.is_deleted v then None else Some v) = Some u →
  users s !! i = Some u ∧ User.is_deleted u = false.
Proof. intros (v & Hv & Hd)%bind_Some. destruct (User.is_deleted v) eqn:E; naive_solver. Qed.

Lemma head_filter_Some {X} (P : X → Prop) `{!∀ x, Decision (P x)} (m : gmap Z X) x :
  head (filter P (map_to_list m).*2) = Some x → P x ∧ ∃ i, m !! i = Some x.
Proof.
  intros Hh%head_Some_elem_of. apply list_elem_of_filter in Hh as [HP ([i y] & -> & Hi)%list_elem_of_fmap].
  split; [done|]. exists i. by apply elem_of_map_to_list.
Qed.

Lemma head_filter_None {X} (P : X → Prop) `{!∀ x, Decision (P x)} (m : gmap Z X) :
  head (filter P (map_to_list m).*2) = None → ∀ i x, m !! i = Some x → ¬ P x.
Proof.
  intros Hh%head_None i x Hi HP. eapply (filter_nil_not_elem_of P _ x Hh); [done|].
  apply list_elem_of_fmap. exists (i, x). split; [done|]. by apply elem_of_map_to_list.
Qed.

Lemma get_where_Some P s u :
  accounts_ok s → UserRepository.get_where P s = Some u →
  users s !! User.id u = Some u ∧ User.is_deleted u = false ∧ P u = true.
Proof.
  intros Hok [HP [i Hi]]%head_filter_Some. apply andb_true_iff in HP as [HP Hd%negb_true_iff].
  destruct (ak_users _ Hok _ _ Hi) as (_ & <- & _). done.
Qed.

(** ** Handlers change rows only as listed *)
Definition committed (w w' : auth_world) : Prop :=
  aw_database w' = aw_database w
  ∨ changes (aw_database w) (aw_database w') ∧ violated (aw_database w') = None.

(** a request starts on the committed state *)
Definition begun (w : auth_world) : Prop := aw_session w = aw_database w ∧ accounts_ok (aw_database w).

Lemma session_set f w : aw_session (w <| aw_session ::= f |>) = f (aw_session w).
Proof. done. Qed.
Lemma session_set_database f w : aw_session (w <| aw_database ::= f |>) = aw_session w.
Proof. done. Qed.
Lemma database_set f w : aw_database (w <| aw_database ::= f |>) = f (aw_database w).
Proof. done. Qed.
Lemma database_set_session f w : aw_database (w <| aw_session ::= f |>) = aw_database w.
Proof. done. Qed.

(** the tables of a world, in terms of those it started from *)
Ltac tables :=
  repeat first
  [ progress rewrite ?session_set, ?session_set_database, ?database_set, ?database_set_session
  | match goal with
    | H : aw_session ?x = _ |- context [aw_session ?x] => rewrite H
    | H : aw_database ?x = _ |- context [aw_database ?x] => rewrite H
    end ]; cbv beta.
Ltac tables_in H :=
  repeat first
  [ progress rewrite ?session_set, ?session_set_database, ?database_set, ?database_set_session in H
  | match goal with
    | E : aw_session ?x = _ |- _ => rewrite E in H
    | E : aw_database ?x = _ |- _ => rewrite E in H
    end ]; cbv beta in H.
Ltac unchanged := solve [left; tables; done].

(** rows that are created *)
Lemma awp_create_user u w Q :
  (let i := next_row_id (aw_session w) in
   Q (Ok (u <| User.id := i |>))
     (w <| aw_session ::= λ s, s <| next_row_id ::= Z.succ |>
             <| users ::= <[i := u <| User.id := i |> <| User.events := [] |>]> |> |>)) →
  awp (UserRepository.create u) w Q.
Proof. done. Qed.

Lemma awp_create_session x w Q :
  (let i := next_row_id (aw_session w) in
   Q (Ok (x <| Session.id := i |>))
     (w <| aw_session ::= λ s, s <| next_row_id ::= Z.succ |>
             <| sessions ::= <[i := x <| Session.id := i |> <| Session.events := [] |>]> |> |>)) →
  awp (SessionRepository.create x) w Q.
Proof. done. Qed.

Lemma awp_create_role r w Q :
  (let i := next_row_id (aw_session w) in
   Q (Ok (r <| Role.id := i |>))
     (w <| aw_session ::= λ s, s <| next_row_id ::= Z.succ |> <| roles ::= <[i := r <| Role.id := i |>]> |> |>)) →
  awp (RoleRepository.create r) w Q.
Proof. done. Qed.

Lemma awp_create_permission n w Q :
  (let i := next_row_id (aw_session w) in
   Q (Ok tt) (w <| aw_session ::= λ s, s <| next_row_id ::= Z.succ |> <| permissions ::= <[i := n]> |> |>)) →
  awp (PermissionRepository.create n) w Q.
Proof. done. Qed.

Lemma awp_create_account p e u i w Q :
  (let k := next_row_id (aw_session w) in
   let a := MkOAuthAccount k p u e true i in
   Q (Ok a) (w <| aw_session ::= λ s, s <| next_row_id ::= Z.succ |> <| oauth_accounts ::= <[k := a]> |> |>)) →
  awp (OauthAccountRepository.create p e u i) w Q.
Proof. done. Qed.

Ltac hstep :=
  first
  [ match goal with
    | |- awp (UserRepository.create _) _ _ => apply awp_create_user
    | |- awp (SessionRepository.create _) _ _ => apply awp_create_session
    | |- awp (RoleRepository.create _) _ _ => apply awp_create_role
    | |- awp (PermissionRepository.create _) _ _ => apply awp_create_permission
    | |- awp (OauthAccountRepository.create _ _ _ _) _ _ => apply awp_create_account
    end; cbv beta iota zeta
  | astep ].

(** the row of a user that was looked up *)
Lemma user_row s i u :
  accounts_ok s → (v ← users s !! i; if User.is_deleted v then None else Some v) = Some u →
  users s !! User.id u = Some u ∧ User.id u = i ∧ User.is_deleted u = false.
Proof.
  intros Hok [Hu Hd]%get_by_id_Some. destruct (ak_users _ Hok _ _ Hu) as (_ & Hi & _). by rewrite Hi.
Qed.

Lemma change_username_fields n u u' :
  User.change_username n u = Ok u' →
  User.id u' = User.id u ∧ User.email u' = User.email u ∧ User.deleted_at u' = User.deleted_at u
  ∧ User.roles u' = User.roles u ∧ User.permissions u' = User.permissions u.
Proof.
  unfold User.change_username. destruct (User.validate_username n) as [v|]; [|done]. cbn.
  case_bool_decide; intros [= <-]; done.
Qed.

(** The last of a sequence of changes, its side conditions left. *)
Ltac last_change :=
  eapply rtc_r;
  [|first [ apply change_events | apply change_id | apply change_new_user | apply change_new_role
          | apply change_new_permission | apply change_new_session | apply change_new_account
          | apply change_drop_permission | eapply change_user | eapply change_role | eapply change_session ]].
Ltac chain := tables; repeat last_change; try apply rtc_refl.

(** a commit: the rows changed, and no constraint violated *)
Ltac commits :=
  right; split; [|match goal with H : violated _ = None |- _ => first [exact H|tables; exact H|tables; tables_in H; exact H] end].

(** rows that were looked up in the tables the request began with *)
Ltac rows :=
  repeat match goal with
  | H : _ ≫= (λ u, if User.is_deleted u then None else Some u) = Some _ |- _ =>
    tables_in H; apply user_row in H as (? & ? & ?); [|done]
  | H : UserRepository.get_where _ _ = Some _ |- _ =>
    tables_in H; apply get_where_Some in H as (? & ? & ?); [|done]
  | H : User.change_username _ _ = Ok _ |- _ => apply change_username_fields in H as (? & ? & ? & ? & ?)
  end.

Ltac side := cbn; first [done|lia|solve [unfold User.is_deleted in *; cbn in *; set_solver by congruence]].

Lemma role_row s name r :
  accounts_ok s → head (filter (λ r, Role.name r = name) (map_to_list (roles s)).*2) = Some r →
  roles s !! Role.id r = Some r ∧ Role.name r = name.
Proof.
  intros Hok [Hn [i Hi]]%head_filter_Some. destruct (ak_roles _ Hok _ _ Hi) as (_ & <- & _). done.
Qed.

Lemma in_dom {X} (m : gmap Z X) i x : m !! i = Some x → i ∈ dom m.
Proof. intros Hx. by eapply elem_of_dom_2. Qed.

(** a role that was looked up by name *)
Ltac role_rows :=
  repeat match goal with
  | H : head (filter _ (map_to_list (roles _)).*2) = Some _ |- _ =>
    tables_in H; apply role_row in H as [? ?]; [|done]
  end.
