(* ===== verification/AuthAccountSpec.v ===== *)
(** The handlers of accounts, sessions, tokens, roles and permissions change the
    tables only by the listed row changes, and commit what violates no
    constraint. *)
From S2P Require Import Prelude Rbac WsModel AuthModel OAuthProviders AuthStore AuthServices AuthCommands AuthAdmin AuthWp AuthSpec.

(** ** Roles and permissions *)
Lemma create_permission_commits cmd w :
  begun w → awp (CreatePermissionCommand.handle cmd) w (λ _ w', committed w w').
Proof.
  intros [Hs Hok]. unfold CreatePermissionCommand.handle, authorised, require, PermissionRepository.get_permission_by_name.
  repeat hstep; try unchanged. commits. chain.
Qed.

Lemma assign_role_commits cmd w :
  begun w → awp (AssignRoleCommand.handle cmd) w (λ _ w', committed w w').
Proof.
  intros [Hs Hok]. unfold AssignRoleCommand.handle, authorised, require, RoleRepository.get_by_name,
    UserRepository.get_user_with_permission_by_id, UserRepository.get_by_id, save_user.
  repeat hstep; try unchanged; rows. commits.
  match goal with H : head _ = Some _ |- _ => tables_in H; apply role_row in H as [?%in_dom _]; [|done] end.
  chain; side.
Qed.

Lemma remove_role_commits cmd w :
  begun w → awp (RemoveRoleCommand.handle cmd) w (λ _ w', committed w w').
Proof.
  intros [Hs Hok]. unfold RemoveRoleCommand.handle, authorised, require, RoleRepository.get_with_permission_by_name,
    RoleRepository.get_by_name, UserRepository.get_user_with_permission_by_id, UserRepository.get_by_id, save_user.
  repeat hstep; try unchanged; rows. commits.
  match goal with H : User.delete_role _ _ = Ok _ |- _ => unfold User.delete_role in H; result_inv H; subst end.
  chain; side.
Qed.

Lemma all_permissions_spec names w (Q : result auth_error (list (Z * string)) → auth_world → Prop) :
  (∀ rows, (∀ p, p ∈ rows → permissions (aw_session w) !! p.1 = Some p.2 ∧ p.2 ∈ names) →
     length rows = size names → Q (Ok rows) w) →
  (∀ e, Q (Err e) w) → awp (all_permissions names) w Q.
Proof.
  intros Hok He. unfold all_permissions, PermissionRepository.get_permissions_by_names.
  repeat astep; [|apply He]. apply Hok.
  - intros [i n] [Hn Hi%elem_of_map_to_list]%list_elem_of_filter. done.
  - by match goal with H : negb _ = false |- _ => apply negb_false_iff, bool_decide_eq_true in H end.
Qed.

(** the ids of rows found are in the table *)
Lemma add_rows_user rows u :
  User.id (foldl (λ u p, User.add_permission p u) u rows) = User.id u
  ∧ User.email (foldl (λ u p, User.add_permission p u) u rows) = User.email u
  ∧ User.deleted_at (foldl (λ u p, User.add_permission p u) u rows) = User.deleted_at u
  ∧ User.roles (foldl (λ u p, User.add_permission p u) u rows) = User.roles u
  ∧ User.permissions (foldl (λ u p, User.add_permission p u) u rows) = User.permissions u ∪ list_to_set rows.*1.
Proof.
  revert u. induction rows as [|p rows IH]; intros u; cbn [foldl]; [set_solver|].
  destruct (IH (User.add_permission p u)) as (-> & -> & -> & -> & ->). unfold User.add_permission. cbn. set_solver.
Qed.

Lemma delete_rows_user rows u u' :
  DeletePermissionToUserCommand.delete_all rows u = Ok u' →
  User.id u' = User.id u ∧ User.email u' = User.email u ∧ User.deleted_at u' = User.deleted_at u
  ∧ User.roles u' = User.roles u ∧ User.permissions u' = User.permissions u ∖ list_to_set rows.*1.
Proof.
  revert u. induction rows as [|p rows IH]; intros u; cbn [DeletePermissionToUserCommand.delete_all].
  - intros [= <-]. set_solver.
  - intros Hd. apply result_bind_Ok in Hd as (v & Hv & Hd). unfold User.delete_permission in Hv. result_inv Hv. subst v.
    destruct (IH _ Hd) as (-> & -> & -> & -> & ->). cbn. set_solver.
Qed.

Lemma add_rows_role rows r :
  Role.id (foldl (λ r p, Role.add_permission p.1 r) r rows) = Role.id r
  ∧ Role.name (foldl (λ r p, Role.add_permission p.1 r) r rows) = Role.name r
  ∧ Role.security_level (foldl (λ r p, Role.add_permission p.1 r) r rows) = Role.security_level r
  ∧ Role.permissions (foldl (λ r p, Role.add_permission p.1 r) r (rows : list (Z * string))) = Role.permissions r ∪ list_to_set rows.*1.
Proof.
  revert r. induction rows as [|p rows IH]; intros r; cbn [foldl]; [set_solver|].
  destruct (IH (Role.add_permission p.1 r)) as (-> & -> & -> & ->). unfold Role.add_permission. cbn. set_solver.
Qed.

Lemma delete_rows_role (rows : list (Z * string)) r :
  Role.id (foldl (λ r p, Role.delete_permission p.1 r) r rows) = Role.id r
  ∧ Role.name (foldl (λ r p, Role.delete_permission p.1 r) r rows) = Role.name r
  ∧ Role.security_level (foldl (λ r p, Role.delete_permission p.1 r) r rows) = Role.security_level r
  ∧ Role.permissions (foldl (λ r p, Role.delete_permission p.1 r) r rows) = Role.permissions r ∖ list_to_set rows.*1.
Proof.
  revert r. induction rows as [|p rows IH]; intros r; cbn [foldl]; [set_solver|].
  destruct (IH (Role.delete_permission p.1 r)) as (-> & -> & -> & ->). unfold Role.delete_permission.
  case_bool_decide; cbn; set_solver.
Qed.

Lemma rows_in_dom (m : gmap Z string) (rows : list (Z * string)) (names : gset string) :
  (∀ p, p ∈ rows → m !! p.1 = Some p.2 ∧ p.2 ∈ names) → list_to_set rows.*1 ⊆ dom m.
Proof.
  intros Hrows i Hi%elem_of_list_to_set. apply list_elem_of_fmap in Hi as (p & -> & Hp).
  destruct (Hrows p Hp) as [Hm _]. by eapply elem_of_dom_2.
Qed.

Ltac pstep :=
  first
  [ match goal with
    | |- awp (all_permissions _) _ _ => apply all_permissions_spec; [intros ? ?%rows_in_dom ?|intros ?]
    end; cbv beta iota
  | hstep ].

Lemma add_permission_user_commits cmd w :
  begun w → awp (AddPermissionToUserCommand.handle cmd) w (λ _ w', committed w w').
Proof.
  intros [Hs Hok]. unfold AddPermissionToUserCommand.handle, authorised, require,
    UserRepository.get_user_with_permission_by_id, UserRepository.get_by_id, save_user.
  repeat pstep; try unchanged; rows. commits. tables.
  match goal with H : list_to_set _ ⊆ _ |- _ => rewrite Hs in H end.
  match goal with |- context [foldl ?f ?u ?l] => destruct (add_rows_user l u) as (E1 & E2 & E3 & E4 & E5); set (u' := foldl f u l) in * end.
  chain; [done|exact E1|exact E2|unfold User.is_deleted; by rewrite E3|rewrite E4; set_solver|rewrite E5; set_solver].
Qed.

Lemma delete_permission_user_commits cmd w :
  begun w → awp (DeletePermissionToUserCommand.handle cmd) w (λ _ w', committed w w').
Proof.
  intros [Hs Hok]. unfold DeletePermissionToUserCommand.handle, authorised, require,
    UserRepository.get_user_with_permission_by_id, UserRepository.get_by_id, save_user.
  repeat pstep; try unchanged; rows. commits.
  match goal with H : DeletePermissionToUserCommand.delete_all _ _ = Ok _ |- _ =>
    apply delete_rows_user in H as (E1 & E2 & E3 & E4 & E5) end.
  chain; [done|exact E1|exact E2|unfold User.is_deleted; by rewrite E3|rewrite E4; set_solver|rewrite E5; set_solver].
Qed.

Lemma add_permission_role_commits cmd w :
  begun w → awp (AddPermissionRoleCommand.handle cmd) w (λ _ w', committed w w').
Proof.
  intros [Hs Hok]. unfold AddPermissionRoleCommand.handle, authorised, require,
    RoleRepository.get_with_permission_by_name, RoleRepository.get_by_name, save_role.
  repeat pstep; try unchanged; role_rows. commits. tables.
  match goal with H : list_to_set _ ⊆ _ |- _ => rewrite Hs in H end.
  match goal with |- context [foldl ?f ?r ?l] => destruct (add_rows_role l r) as (E1 & _ & _ & E4); set (r' := foldl f r l) in * end.
  chain; [done|exact E1|rewrite E4; set_solver].
Qed.

Lemma delete_permission_role_commits cmd w :
  begun w → awp (DeletePermissionRoleCommand.handle cmd) w (λ _ w', committed w w').
Proof.
  intros [Hs Hok]. unfold DeletePermissionRoleCommand.handle, authorised, require,
    RoleRepository.get_with_permission_by_name, RoleRepository.get_by_name, save_role.
  repeat pstep; try unchanged; role_rows. commits. tables.
  match goal with |- context [foldl ?f ?r ?l] => destruct (delete_rows_role l r) as (E1 & _ & _ & E4); set (r' := foldl f r l) in * end.
  chain; [done|exact E1|rewrite E4; set_solver].
Qed.

Lemma awp_rename j n r w (Q : result auth_error Role.t → auth_world → Prop) :
  (∀ r', Role.id r' = Role.id r → Role.permissions r' = Role.permissions r →
     Role.security_level r' = Role.security_level r → Q (Ok r') w) →
  (∀ e, Q (Err e) w) → awp (RoleUpdateCommand.rename j n r) w Q.
Proof. intros Hok He. unfold RoleUpdateCommand.rename. repeat hstep; first [by apply Hok|by apply He]. Qed.

Lemma edited_role l d r :
  Role.id (RoleUpdateCommand.relevel l (RoleUpdateCommand.describe d r)) = Role.id r
  ∧ Role.permissions (RoleUpdateCommand.relevel l (RoleUpdateCommand.describe d r)) = Role.permissions r.
Proof. unfold RoleUpdateCommand.relevel, RoleUpdateCommand.describe. by repeat case_match. Qed.

Ltac rstep :=
  first
  [ match goal with
    | |- awp (RoleUpdateCommand.rename _ _ _) _ _ => apply awp_rename; [intros ? ? ? ?|intros ?]
    end; cbv beta iota
  | pstep ].

Lemma role_by_id s i r : accounts_ok s → roles s !! i = Some r → roles s !! Role.id r = Some r.
Proof. intros Hok Hi. by destruct (ak_roles _ Hok _ _ Hi) as (_ & -> & _). Qed.

Lemma update_role_commits cmd w :
  begun w → awp (RoleUpdateCommand.handle cmd) w (λ _ w', committed w w').
Proof.
  intros [Hs Hok]. unfold RoleUpdateCommand.handle, authorised, require, RoleRepository.get_by_id, save_role.
  repeat rstep; try unchanged; commits; tables;
    match goal with |- context [RoleUpdateCommand.relevel ?l (RoleUpdateCommand.describe ?d ?r)] =>
      destruct (edited_role l d r) as [E1 E2]; set (edited := RoleUpdateCommand.relevel _ _) in * end;
    match goal with H : roles _ !! _ = Some _ |- _ => tables_in H; apply role_by_id in H; [|done] end;
    (chain; [eassumption|congruence|]; rewrite E2; set_solver by congruence).
Qed.

Lemma delete_permission_commits cmd w :
  begun w → awp (DeletePermissionCommand.handle cmd) w (λ _ w', committed w w').
Proof.
  intros [Hs Hok]. unfold DeletePermissionCommand.handle, authorised, require,
    PermissionRepository.get_permission_by_name, PermissionRepository.delete.
  repeat rstep; try unchanged. commits. chain.
Qed.

Lemma role_permissions_found j names r w (Q : result auth_error Role.t → auth_world → Prop) :
  (∀ r', Role.id r' = Role.id r → Role.name r' = Role.name r → Role.security_level r' = Role.security_level r →
     Role.permissions r' ⊆ Role.permissions r ∪ dom (permissions (aw_session w)) → Q (Ok r') w) →
  (∀ e, Q (Err e) w) → awp (CreateRoleCommand.add_permissions j names r) w Q.
Proof.
  intros Hok He. revert r Hok. induction names as [|n names IH]; intros r Hok; cbn [CreateRoleCommand.add_permissions].
  { apply awp_ret, Hok; done || set_solver. }
  unfold PermissionRepository.get_permission_by_name. do 7 (try hstep); try apply He. apply IH.
  intros r' E1 E2 E3 E4. apply Hok; [exact E1|exact E2|exact E3|]. cbn in E4.
  match goal with H : head _ = Some _ |- _ =>
    apply head_Some_elem_of, list_elem_of_filter in H as [_ Hin] end.
  destruct a as [i m]. apply elem_of_map_to_list, in_dom in Hin. set_solver.
Qed.

Ltac cstep :=
  first
  [ match goal with
    | |- awp (CreateRoleCommand.add_permissions _ _ _) _ _ =>
      apply role_permissions_found; [intros ? ? ? ? ?|intros ?]
    end; cbv beta iota
  | rstep ].

Lemma create_role_commits cmd w :
  begun w → awp (CreateRoleCommand.handle cmd) w (λ _ w', committed w w').
Proof.
  intros [Hs Hok]. unfold CreateRoleCommand.handle, authorised, require, RoleRepository.get_by_name.
  repeat cstep; try unchanged. commits.
  match goal with H : Role.permissions ?r ⊆ _ |- _ => tables_in H; cbn in H end. chain. set_solver.
Qed.

Section commits.
Context `{HashContext, JWTCodec, Hashlib, UserAgents, OAuthManager}.
Implicit Types (w : auth_world).

Lemma change_username_commits cmd w :
  begun w → awp (ChangeUsernameCommand.handle cmd) w (λ _ w', committed w w').
Proof.
  intros [Hs Hok]. unfold ChangeUsernameCommand.handle, UserRepository.get_by_id,
    UserRepository.is_username_taken, save_user, apublish, User.pull_events.
  repeat hstep; try unchanged; rows.
  - commits. chain; side.
  - cbn [ChangeUsernameCommand.taken_meanwhile]. repeat hstep; unchanged.
Qed.

Lemma change_password_commits cmd w :
  begun w → awp (ChangePasswordCommand.handle cmd) w (λ _ w', committed w w').
Proof.
  intros [Hs Hok]. unfold ChangePasswordCommand.handle, UserRepository.get_by_id, save_user, apublish, User.pull_events.
  repeat hstep; try unchanged; rows. commits. chain; side.
Qed.

Lemma delete_user_commits cmd w :
  begun w → awp (DeleteUserCommand.handle cmd) w (λ _ w', committed w w').
Proof.
  intros [Hs Hok]. unfold DeleteUserCommand.handle, UserRepository.get_by_id, save_user, apublish, User.pull_events.
  repeat hstep; try unchanged; rows. commits. chain; side.
Qed.

Lemma reset_password_commits cmd w :
  begun w → awp (ResetPasswordCommand.handle cmd) w (λ _ w', committed w w').
Proof.
  intros [Hs Hok]. unfold ResetPasswordCommand.handle, UserRepository.get_by_id, save_user, apublish, User.pull_events.
  repeat hstep; try unchanged; rows. commits. chain; side.
Qed.

Lemma verify_commits token w :
  begun w → awp (VerifyCommand.handle token) w (λ _ w', committed w w').
Proof.
  intros [Hs Hok]. unfold VerifyCommand.handle, UserRepository.get_by_id, save_user, apublish, User.pull_events.
  repeat hstep; try unchanged; rows. commits. chain; side.
Qed.

Lemma send_reset_commits email w :
  begun w → awp (SendResetPasswordCommand.handle email) w (λ _ w', committed w w').
Proof.
  intros [Hs Hok]. unfold SendResetPasswordCommand.handle, UserRepository.get_by_email.
  repeat hstep; try unchanged.
Qed.

Lemma send_verify_commits email w :
  begun w → awp (SendVerifyCommand.handle email) w (λ _ w', committed w w').
Proof.
  intros [Hs Hok]. unfold SendVerifyCommand.handle, UserRepository.get_by_email.
  repeat hstep; try unchanged.
Qed.

(** ** Sessions *)
Lemma session_row s u d x :
  accounts_ok s →
  head (filter (λ x, Session.user_id x = u ∧ Session.device_id x = d ∧ Session.is_active x = true)
    (map_to_list (sessions s)).*2) = Some x →
  sessions s !! Session.id x = Some x ∧ open_on u d x.
Proof.
  intros Hok [Hx [i Hi]]%head_filter_Some. destruct (ak_sessions _ Hok _ _ Hi) as (_ & <- & _). done.
Qed.

Ltac session_rows :=
  repeat match goal with
  | H : head (filter _ (map_to_list (sessions _)).*2) = Some _ |- _ =>
    tables_in H; apply session_row in H as [? (? & ? & ?)]; [|done]
  end.

Lemma session_by_id s i x : accounts_ok s → sessions s !! i = Some x → sessions s !! Session.id x = Some x.
Proof. intros Hok Hi. by destruct (ak_sessions _ Hok _ _ Hi) as (_ & -> & _). Qed.

(** a session written twice *)
Lemma session_twice s x y z :
  sessions s !! Session.id x = Some x →
  Session.id y = Session.id x → Session.user_id y = Session.user_id x → Session.device_id y = Session.device_id x →
  (Session.is_active y = true → Session.is_active x = true) →
  Session.id z = Session.id y → Session.user_id z = Session.user_id y → Session.device_id z = Session.device_id y →
  (Session.is_active z = true → Session.is_active y = true) →
  changes s (s <| sessions ::= <[Session.id y := y <| Session.events := [] |>]> |>
               <| sessions ::= <[Session.id z := z <| Session.events := [] |>]> |>).
Proof.
  intros Hx I1 U1 D1 A1 I2 U2 D2 A2. eapply rtc_l; [by apply (change_session s x y)|].
  apply rtc_once, (change_session _ (y <| Session.events := [] |>)); try done. cbn. by rewrite lookup_insert_eq.
Qed.

(** [get_or_create_session] changes sessions only, and leaves the one it
    returns open. *)
Lemma awp_session u ua ip w (Q : result auth_error Session.t → auth_world → Prop) :
  accounts_ok (aw_session w) → is_Some (users (aw_session w) !! u) →
  (∀ x w', aw_database w' = aw_database w → changes (aw_session w) (aw_session w') →
     users (aw_session w') = users (aw_session w) → roles (aw_session w') = roles (aw_session w) →
     permissions (aw_session w') = permissions (aw_session w) →
     oauth_accounts (aw_session w') = oauth_accounts (aw_session w) →
     open_on u (di_device_id (generate_device_info ua)) x →
     sessions (aw_session w') !! Session.id x = Some (x <| Session.events := [] |>) → Q (Ok x) w') →
  awp (SessionManager.get_or_create_session u ua ip) w Q.
Proof.
  intros Hok Hu HQ. unfold SessionManager.get_or_create_session, SessionManager.get_user_session,
    SessionRepository.get_active_by_device, save_session.
  set (d := di_device_id (generate_device_info ua)).
  repeat hstep; try discriminate.
  - match goal with H : head _ = Some _ |- _ => pose proof (session_row _ _ _ _ Hok H) as [Hrow Hopen] end.
    apply HQ; try (tables; done).
    + tables. by apply session_twice with (x := t).
    + tables. cbn. by rewrite lookup_insert_eq.
  - match goal with H : head _ = None |- _ => pose proof (head_filter_None _ _ H) as Hnone end.
    apply HQ; try (tables; done).
    + tables. apply rtc_once. apply change_new_session; [done|]. intros i y Hy. cbn. by eapply Hnone.
    + cbn. by rewrite lookup_insert_eq.
Qed.

Lemma register_commits cmd w :
  begun w → awp (RegisterCommand.handle cmd) w (λ _ w', committed w w').
Proof.
  intros [Hs Hok]. unfold RegisterCommand.handle, UserRepository.get_by_email, UserRepository.is_username_taken,
    RoleRepository.get_with_permission_by_name, RoleRepository.get_by_name, apublish, User.pull_events.
  repeat hstep; try unchanged; role_rows.
  - commits. match goal with H : roles _ !! _ = Some _ |- _ => apply in_dom in H end. chain; cbn; set_solver.
  - cbn [RegisterCommand.duplicate]. repeat hstep; unchanged.
Qed.

Lemma login_commits cmd w :
  begun w → awp (LoginCommand.handle cmd) w (λ _ w', committed w w').
Proof.
  intros [Hs Hok]. unfold LoginCommand.handle, LoginCommand.find_user, UserRepository.get_with_roles_by_email,
    UserRepository.get_with_roles_by_username, UserRepository.get_by_email, UserRepository.get_by_username, apublish.
  repeat hstep; try unchanged; rows;
    (apply awp_session; rewrite ?Hs; [done|by eexists|]; intros x w1 Hdb Hch _ _ _ _ _ _;
     repeat hstep; try unchanged; commits; chain; exact Hch).
Qed.

Lemma logout_commits cmd w :
  begun w → awp (LogoutCommand.handle cmd) w (λ _ w', committed w w').
Proof.
  intros [Hs Hok]. unfold LogoutCommand.handle, SessionRepository.get_active_by_device, save_session, apublish.
  repeat hstep; try unchanged. session_rows. commits. chain; side.
Qed.

Lemma deactivate_session_commits cmd w :
  begun w → awp (UserDeactivateSessionCommand.handle cmd) w (λ _ w', committed w w').
Proof.
  intros [Hs Hok]. unfold UserDeactivateSessionCommand.handle, SessionRepository.get_by_id, save_session, apublish.
  repeat hstep; try unchanged.
  match goal with H : sessions _ !! _ = Some _ |- _ => tables_in H; apply session_by_id in H; [|done] end.
  commits. chain; side.
Qed.

Lemma refresh_commits cmd w :
  begun w → awp (RefreshTokenCommand.handle cmd) w (λ _ w', committed w w').
Proof.
  intros [Hs Hok]. unfold RefreshTokenCommand.handle, RefreshTokenCommand.identify,
    SessionRepository.get_active_by_device, save_session,
    UserRepository.get_user_with_permission_by_id, UserRepository.get_by_id.
  repeat hstep; try unchanged; session_rows.
  - commits. chain; side.
  - destruct e; cbn [RefreshTokenCommand.close_session]; try unchanged. unfold save_session.
    repeat hstep; try unchanged; commits; tables;
      apply session_twice with (x := a1); side.
Qed.

(** what a part of a handler leaves before the commit *)
Definition grown (w w' : auth_world) : Prop :=
  aw_database w' = aw_database w ∧ changes (aw_session w) (aw_session w').

Lemma grown_refl w w' : same_tables w w' → grown w w'.
Proof. intros [Hs Hd]. split; [done|]. rewrite Hs. apply rtc_refl. Qed.


Lemma authorize_url_commits cmd w :
  begun w → awp (CreateOAuthAuthorizeUrlCommand.handle cmd) w (λ _ w', committed w w').
Proof.
  intros [Hs Hok]. unfold CreateOAuthAuthorizeUrlCommand.handle, OAuthCodeRepository.add_oauth_state.
  repeat hstep; unchanged.
Qed.

(** the user a callback enters as *)
Definition entered (w : auth_world) (r : result auth_error User.t) (w' : auth_world) : Prop :=
  grown w w' ∧ ∀ u, r = Ok u → is_Some (users (aw_session w') !! User.id u).

Ltac found_user :=
  match goal with
  | Hok : accounts_ok ?s, H : _ ≫= (λ u, if User.is_deleted u then None else Some u) = Some _ |- _ =>
    pose proof (user_row s _ _ Hok H) as (? & ? & ?)
  end; intros ? [= <-]; tables; by eexists.

Lemma enter_spec account w :
  accounts_ok (aw_session w) → awp (ProcessOAuthCallbackCommand.enter account) w (entered w).
Proof.
  intros Hok. unfold ProcessOAuthCallbackCommand.enter, UserRepository.get_user_with_permission_by_id,
    UserRepository.get_by_id.
  repeat hstep; (split; [by apply grown_refl|try done]). found_user.
Qed.

Lemma link_spec cmd p data i account w :
  accounts_ok (aw_session w) → awp (ProcessOAuthCallbackCommand.link cmd p data i account) w (entered w).
Proof.
  intros Hok. unfold ProcessOAuthCallbackCommand.link, UserRepository.get_user_with_permission_by_id,
    UserRepository.get_by_id.
  repeat hstep; (split; [first [by apply grown_refl|split; [tables; done|chain]]|try done]).
  all: found_user.
Qed.

(** a user made and written again before the commit *)
Lemma new_user_verified s u :
  User.roles u ⊆ dom (roles s) → User.permissions u ⊆ dom (permissions s) →
  let v := User.verify (u <| User.id := next_row_id s |>) in
  changes s (s <| next_row_id ::= Z.succ |>
               <| users ::= <[next_row_id s := u <| User.id := next_row_id s |> <| User.events := [] |>]> |>
               <| users ::= <[User.id v := v <| User.events := [] |>]> |>).
Proof.
  intros Hr Hp v. eapply rtc_l; [by apply (change_new_user s u)|].
  apply rtc_once, (change_user _ (u <| User.id := next_row_id s |> <| User.events := [] |>)); cbn; try done; [|set_solver..].
  by rewrite lookup_insert_eq.
Qed.

Lemma sign_up_spec cmd p data w :
  accounts_ok (aw_session w) → awp (ProcessOAuthCallbackCommand.sign_up cmd p data) w (entered w).
Proof.
  intros Hok. unfold ProcessOAuthCallbackCommand.sign_up, RoleRepository.get_with_permission_by_name,
    RoleRepository.get_by_name, UserRepository.get_by_email, save_user, apublish, User.pull_events.
  repeat hstep; (split; [first [by apply grown_refl|split; [tables; done|]]|try done]); role_rows.
  - match goal with H : roles _ !! _ = Some _ |- _ => apply in_dom in H end. tables.
    eapply rtc_r; [|apply change_new_account]. eapply rtc_r; [|apply change_events].
    apply new_user_verified; cbn; set_solver.
  - intros ? [= <-]. cbn. rewrite lookup_insert_eq. by eexists.
  - match goal with H : roles _ !! _ = Some _ |- _ => apply in_dom in H end. tables.
    apply rtc_once, change_new_user; cbn; set_solver.
Qed.

Lemma grown_ok w w' : accounts_ok (aw_session w) → grown w w' → accounts_ok (aw_session w').
Proof. intros Hok [_ Hc]. by eapply changes_ok. Qed.

Lemma oauth_callback_commits cmd w :
  begun w → awp (ProcessOAuthCallbackCommand.handle cmd) w (λ _ w', committed w w').
Proof.
  intros [Hs Hok]. unfold ProcessOAuthCallbackCommand.handle, OAuthCodeRepository.get_state,
    OauthAccountRepository.get_by_provider_and_user_id, OAuthCodeRepository.delete, apublish.
  repeat hstep; try unchanged.
  all: assert (accounts_ok (aw_session w')) as Hok' by (tables; done);
    (eapply awp_mono; [first [by apply link_spec|by apply enter_spec|by apply sign_up_spec]|]);
    intros [u|e] w2 [Hg Hu]; [|destruct Hg; unchanged];
    apply awp_bind, awp_session; [by eapply grown_ok|by apply Hu|];
    destruct Hg as [Hd Hc]; intros x w3 Hdb Hch _ _ _ _ _ _;
    repeat hstep; try unchanged; commits; chain; tables_in Hc; tables_in Hch; by etrans.
Qed.
End commits.
