(* ===== verification/AuthSystem.v ===== *)
(** The account module as a whole: its requests, histories of them, and what
    holds of the tables after any history. *)
From S2P Require Import Prelude Rbac WsModel AuthModel OAuthProviders AuthStore AuthServices AuthCommands AuthAdmin AuthWp AuthSpec AuthAccountSpec.

Inductive auth_request : Type :=
| Login (c : LoginCommand.command)
| Logout (c : LogoutCommand.command)
| Refresh (c : RefreshTokenCommand.command)
| AuthorizeUrl (c : CreateOAuthAuthorizeUrlCommand.command)
| Callback (c : ProcessOAuthCallbackCommand.command)
| DeactivateSession (c : UserDeactivateSessionCommand.command)
| Register (c : RegisterCommand.command)
| ChangePassword (c : ChangePasswordCommand.command)
| ChangeUsername (c : ChangeUsernameCommand.command)
| DeleteUser (c : DeleteUserCommand.command)
| SendReset (email : text)
| SendVerify (email : text)
| ResetPassword (c : ResetPasswordCommand.command)
| Verify (token : text)
| CreateRole (c : CreateRoleCommand.command)
| UpdateRole (c : RoleUpdateCommand.command)
| AddPermissionRole (c : AddPermissionRoleCommand.command)
| DeletePermissionRole (c : DeletePermissionRoleCommand.command)
| AssignRole (c : AssignRoleCommand.command)
| RemoveRole (c : RemoveRoleCommand.command)
| CreatePermission (c : CreatePermissionCommand.command)
| DeletePermission (c : DeletePermissionCommand.command)
| AddPermissionToUser (c : AddPermissionToUserCommand.command)
| DeletePermissionToUser (c : DeletePermissionToUserCommand.command).

Inductive auth_answer : Type :=
| Done
| Tokens (g : TokenGroup)
| Url (u : text)
| Account (u : User.t).

Definition answer {X} (f : X → auth_answer) (m : A X) : A auth_answer := x ← m; mret (f x).
Definition quietly : A unit → A auth_answer := answer (λ _, Done).

Section system.
Context `{HashContext, JWTCodec, Hashlib, UserAgents, OAuthManager}.

Definition serve (r : auth_request) : A auth_answer :=
  match r with
  | Login c => answer Tokens (LoginCommand.handle c)
  | Logout c => quietly (LogoutCommand.handle c)
  | Refresh c => answer Tokens (RefreshTokenCommand.handle c)
  | AuthorizeUrl c => answer Url (CreateOAuthAuthorizeUrlCommand.handle c)
  | Callback c => answer Tokens (ProcessOAuthCallbackCommand.handle c)
  | DeactivateSession c => quietly (UserDeactivateSessionCommand.handle c)
  | Register c => answer Account (RegisterCommand.handle c)
  | ChangePassword c => quietly (ChangePasswordCommand.handle c)
  | ChangeUsername c => answer Account (ChangeUsernameCommand.handle c)
  | DeleteUser c => quietly (DeleteUserCommand.handle c)
  | SendReset e => quietly (SendResetPasswordCommand.handle e)
  | SendVerify e => quietly (SendVerifyCommand.handle e)
  | ResetPassword c => quietly (ResetPasswordCommand.handle c)
  | Verify t => quietly (VerifyCommand.handle t)
  | CreateRole c => quietly (CreateRoleCommand.handle c)
  | UpdateRole c => quietly (RoleUpdateCommand.handle c)
  | AddPermissionRole c => quietly (AddPermissionRoleCommand.handle c)
  | DeletePermissionRole c => quietly (DeletePermissionRoleCommand.handle c)
  | AssignRole c => quietly (AssignRoleCommand.handle c)
  | RemoveRole c => quietly (RemoveRoleCommand.handle c)
  | CreatePermission c => quietly (CreatePermissionCommand.handle c)
  | DeletePermission c => quietly (DeletePermissionCommand.handle c)
  | AddPermissionToUser c => quietly (AddPermissionToUserCommand.handle c)
  | DeletePermissionToUser c => quietly (DeletePermissionToUserCommand.handle c)
  end.

Definition auth_perform (r : auth_request) (w : auth_world) : result auth_error auth_answer * auth_world :=
  run_request (serve r) w.
Definition auth_history (rs : list auth_request) (w : auth_world) : auth_world :=
  foldl (λ w r, (auth_perform r w).2) w rs.

Lemma auth_history_app rs rs' w : auth_history (rs ++ rs') w = auth_history rs' (auth_history rs w).
Proof. apply foldl_app. Qed.

(** an invariant of requests is one of histories *)
Lemma history_invariant (I : auth_world → Prop) (P : auth_request → Prop) rs w :
  (∀ r w, P r → I w → I (auth_perform r w).2) → Forall P rs → I w → I (auth_history rs w).
Proof.
  intros Hstep HP. revert w. induction HP as [|r rs Hr _ IH]; intros w Hw; [done|]. apply IH. by apply Hstep.
Qed.

Create HintDb committing.
#[local] Hint Resolve login_commits logout_commits refresh_commits authorize_url_commits oauth_callback_commits
  deactivate_session_commits register_commits change_password_commits change_username_commits
  delete_user_commits send_reset_commits send_verify_commits reset_password_commits verify_commits
  create_role_commits update_role_commits add_permission_role_commits delete_permission_role_commits
  assign_role_commits remove_role_commits create_permission_commits delete_permission_commits
  add_permission_user_commits delete_permission_user_commits : committing.

Lemma awp_answer {X} (f : X → auth_answer) (m : A X) w w0 :
  awp m w (λ _ w', committed w0 w') → awp (answer f m) w (λ _ w', committed w0 w').
Proof. intros Hm. apply awp_bind. eapply awp_mono; [exact Hm|]. by intros [a|e] w' Hw'. Qed.

Lemma serve_commits r w : begun w → awp (serve r) w (λ _ w', committed w w').
Proof. intros Hw. destruct r; cbn [serve]; unfold quietly; apply awp_answer; eauto with committing. Qed.

(** the tables are in order *)
Definition accounts_sound (s : auth_store) : Prop := accounts_ok s ∧ violated s = None.

Lemma perform_sound r w :
  accounts_sound (aw_database w) → accounts_sound (aw_database (auth_perform r w).2).
Proof.
  intros [Hok Hv]. unfold auth_perform, run_request. set (w0 := w <| aw_session := aw_database w |>).
  assert (begun w0) as Hb by done. pose proof (serve_commits r w0 Hb) as Hc. unfold awp in Hc.
  destruct (serve r w0) as [res w']. cbn in Hc |- *. destruct Hc as [->|[Hch Hv']]; [done|].
  split; [by eapply changes_ok|done].
Qed.

Lemma history_sound rs w :
  accounts_sound (aw_database w) → accounts_sound (aw_database (auth_history rs w)).
Proof.
  apply (history_invariant (λ w, accounts_sound (aw_database w)) (λ _, True)).
  - intros r w' _. apply perform_sound.
  - by apply list.Forall_forall.
Qed.
End system.

(** ** What a state without violated constraints guarantees *)
Lemma repeated_false {X B} `{EqDecision B} (f : X → B) (m : gmap Z X) i j x y :
  repeated f m = false → m !! i = Some x → m !! j = Some y → f x = f y → i = j.
Proof.
  unfold repeated. intros Hr%negb_false_iff%bool_decide_eq_true Hx Hy Hf.
  destruct (decide (i = j)) as [|Hij]; [done|exfalso].
  assert ((f <$> (map_to_list m).*2) ≡ₚ f x :: (f <$> (map_to_list (delete i m)).*2)) as Hp.
  { by rewrite <- (map_to_list_delete m i x Hx). }
  rewrite Hp in Hr. apply list.NoDup_cons in Hr as [Hn _]. apply Hn. rewrite Hf.
  apply list_elem_of_fmap. exists y. split; [done|]. apply list_elem_of_fmap. exists (j, y). split; [done|].
  apply elem_of_map_to_list. by rewrite lookup_delete_ne.
Qed.

Lemma violated_None s :
  violated s = None →
  repeated User.email (users s) = false ∧ repeated User.username (users s) = false
  ∧ repeated (λ u, lower (User.username u)) (users s) = false ∧ repeated Role.name (roles s) = false
  ∧ repeated id (permissions s) = false
  ∧ repeated (λ a, (oa_provider a, oa_provider_user_id a)) (oauth_accounts s) = false
  ∧ repeated (λ a, (oa_user_id a, oa_provider a)) (oauth_accounts s) = false
  ∧ ∀ i a, oauth_accounts s !! i = Some a → is_Some (users s !! oa_user_id a).
Proof.
  unfold violated. intros Hv.
  repeat match type of Hv with (if ?b then _ else _) = _ => destruct b eqn:?; [done|] end.
  split_and!; try done. intros i a Ha.
  match goal with H : existsb _ _ = false |- _ => rename H into He end.
  apply not_true_iff_false in He. destruct (decide (is_Some (users s !! oa_user_id a))) as [|Hn]; [done|].
  destruct He. apply existsb_exists. exists a. split; [|by rewrite bool_decide_false].
  apply list_elem_of_In, list_elem_of_fmap. exists (i, a). split; [done|]. by apply elem_of_map_to_list.
Qed.

Lemma repeated_intro {X B} `{EqDecision B} (f : X → B) (m : gmap Z X) :
  (∀ i j x y, m !! i = Some x → m !! j = Some y → f x = f y → i = j) → repeated f m = false.
Proof.
  intros Hinj. unfold repeated. apply negb_false_iff, bool_decide_eq_true.
  rewrite <- list_fmap_compose. apply NoDup_fmap_2_strong; [|apply NoDup_map_to_list].
  intros [i x] [j y] Hx%elem_of_map_to_list Hy%elem_of_map_to_list Hf. cbn in Hf.
  pose proof (Hinj _ _ _ _ Hx Hy Hf) as ->. congruence.
Qed.

(** a row replaced by one with the same key repeats nothing *)
Lemma repeated_update {X B} `{EqDecision B} (f : X → B) (m : gmap Z X) i x x' :
  repeated f m = false → m !! i = Some x → f x' = f x → repeated f (<[i := x']> m) = false.
Proof.
  intros Hr Hx Hf. apply repeated_intro.
  intros j k y z [[<- <-]|[Hj Hy]]%lookup_insert_Some [[<- <-]|[Hk Hz]]%lookup_insert_Some Hyz; [done|..].
  - destruct Hk. apply (repeated_false f m _ _ _ _ Hr Hx Hz). congruence.
  - destruct Hj. symmetry. apply (repeated_false f m _ _ _ _ Hr Hy Hx). congruence.
  - by apply (repeated_false f m _ _ _ _ Hr Hy Hz).
Qed.

Lemma violated_intro s :
  repeated User.email (users s) = false → repeated User.username (users s) = false →
  repeated (λ u, lower (User.username u)) (users s) = false → repeated Role.name (roles s) = false →
  repeated id (permissions s) = false →
  repeated (λ a, (oa_provider a, oa_provider_user_id a)) (oauth_accounts s) = false →
  repeated (λ a, (oa_user_id a, oa_provider a)) (oauth_accounts s) = false →
  (∀ i a, oauth_accounts s !! i = Some a → is_Some (users s !! oa_user_id a)) → violated s = None.
Proof.
  unfold violated. intros -> -> -> -> -> -> -> Hf.
  destruct (existsb _ _) eqn:He; [|done]. exfalso.
  apply existsb_exists in He as (a & Ha & Hn). apply list_elem_of_In, list_elem_of_fmap in Ha as ([i b] & -> & Hb%elem_of_map_to_list).
  cbn in Hn. by rewrite bool_decide_true in Hn by eauto.
Qed.

(** a user whose name and address stay *)
Lemma violated_user s s' i u u' :
  violated s = None → users s !! i = Some u → User.email u' = User.email u → User.username u' = User.username u →
  users s' = <[i := u']> (users s) → roles s' = roles s → permissions s' = permissions s →
  oauth_accounts s' = oauth_accounts s → violated s' = None.
Proof.
  intros (He & Hn & Hl & Hr & Hp & Ha & Hb & Hf)%violated_None Hu Heq Hname Eu Er Ep Eo.
  apply violated_intro; rewrite ?Eu, ?Er, ?Ep, ?Eo; try done; try (eapply repeated_update; [done|exact Hu|congruence]).
  intros j a Hj%Hf. rewrite lookup_insert_is_Some'. by right.
Qed.
