(* ===== verification/AuthTokens.v ===== *)
(** What handlers leave alone in Redis, and the marks there that make a refresh
    token worthless, with what keeps them: a token once used or logged out stays
    refused until it expires, and so do all tokens of a user whose password was
    reset or who was deleted, unless an administrator changes the roles or
    permissions of that very user. *)
From S2P Require Import Prelude Rbac WsModel AuthModel OAuthProviders AuthStore AuthServices AuthCommands AuthAdmin AuthWp AuthSpec AuthAccountSpec AuthSystem.

(** ** The keys *)
Class HashlibLaws (H : Hashlib) : Prop := {
  (** a digest is written in hexadecimal digits *)
  sha256_hex_digits s : Forall (λ c, 48 ≤ c ≤ 57 ∨ 97 ≤ c ≤ 102) (sha256_hex s) ∧ length (sha256_hex s) = 64%nat;
}.

Lemma head_revoked j : head (TokenBlacklistRepository.revoked_key j) = Some 114.
Proof. done. Qed.
Lemma head_user u : head (TokenBlacklistRepository.user_key u) = Some 117.
Proof. done. Qed.
Lemma head_state s : head (OAuthCodeRepository.state_key s) = Some 115.
Proof. done. Qed.
Lemma head_role n : head (RoleInvalidateRepository.key n) = Some 105.
Proof. done. Qed.
Lemma head_permission n : head (PermissionInvalidateRepository.key n) = Some 105.
Proof. done. Qed.
Lemma head_sha `{HashlibLaws} s c : head (sha256_hex s) = Some c → 48 ≤ c ≤ 57 ∨ 97 ≤ c ≤ 102.
Proof.
  destruct (sha256_hex_digits s) as [Hall _]. destruct (sha256_hex s) as [|d l]; [done|].
  intros [= <-]. by apply Forall_cons_iff in Hall as [? _].
Qed.

Lemma sha_ne `{HashlibLaws} s k c : head k = Some c → 102 < c → sha256_hex s ≠ k.
Proof. intros Hk Hc <-. apply head_sha in Hk. lia. Qed.

Lemma head_ne (k k' : text) c c' : head k = Some c → head k' = Some c' → c ≠ c' → k ≠ k'.
Proof. intros H1 H2 Hc <-. congruence. Qed.

Lemma revoked_key_inj i j : TokenBlacklistRepository.revoked_key i = TokenBlacklistRepository.revoked_key j → i = j.
Proof. apply app_inv_head. Qed.
Lemma user_key_inj i j : TokenBlacklistRepository.user_key i = TokenBlacklistRepository.user_key j → i = j.
Proof. intros Hk. apply str_int_inj. revert Hk. apply app_inv_head. Qed.

(** ** Computations that spare a key *)
Section spares.
Variable κ : text.

(** the clock is the same and does not go back *)
Definition later (w w' : auth_world) : Prop :=
  aw_clock w' = aw_clock w ∧ (aw_ticks w ≤ aw_ticks w')%nat.

Class Spares {X} (m : A X) : Prop :=
  spares w : later w (m w).2 ∧ aw_redis (m w).2 !! κ = aw_redis w !! κ.

Lemma spares_ret {X} (a : X) : Spares (mret a : A X).
Proof. done. Qed.
Lemma spares_raise {X} e : Spares (araise e : A X).
Proof. done. Qed.
Lemma spares_lift {X} (r : result auth_error X) : Spares (alift r).
Proof. done. Qed.
Lemma spares_rbac {X} (r : result rbac_error X) : Spares (rbac r).
Proof. done. Qed.
Lemma spares_refuse b e : Spares (arefuse b e).
Proof. done. Qed.
Lemma spares_found {X} (o : option X) e : Spares (afound o e).
Proof. done. Qed.
Lemma spares_select {X} (f : auth_store → X) : Spares (aselect f).
Proof. done. Qed.
Lemma spares_write f : Spares (awrite f).
Proof. done. Qed.
Lemma spares_flush : Spares aflush.
Proof. intros w. unfold aflush. by case_match. Qed.
Lemma spares_commit : Spares acommit.
Proof. intros w. unfold acommit. by case_match. Qed.
Lemma spares_rollback : Spares arollback.
Proof. done. Qed.
Lemma spares_id : Spares new_row_id.
Proof. done. Qed.
Lemma spares_mail m : Spares (queue_mail m).
Proof. done. Qed.
Lemma spares_utcnow : Spares utcnow.
Proof. split; [split; cbn; [done|lia]|done]. Qed.
Lemma spares_uuid4 : Spares uuid4.
Proof. done. Qed.
Lemma spares_secret : Spares secret.
Proof. done. Qed.
Lemma spares_redis_get k : Spares (redis_get k).
Proof. split; [split; cbn; [done|lia]|done]. Qed.
Lemma spares_redis_mget k : Spares (redis_mget k).
Proof. split; [split; cbn; [done|lia]|done]. Qed.
Lemma spares_redis_set k v ex : k ≠ κ → Spares (redis_set k v ex).
Proof.
  intros Hk w. unfold redis_set. case_match; (split; [split; cbn; [done|lia]|cbn]); [done|].
  by rewrite lookup_insert_ne.
Qed.
Lemma spares_redis_del k : k ≠ κ → Spares (redis_del k).
Proof. intros Hk w. split; [done|]. cbn. by rewrite lookup_delete_ne. Qed.

Lemma later_trans w1 w2 w3 : later w1 w2 → later w2 w3 → later w1 w3.
Proof. intros [H1 H2] [H3 H4]. split; [congruence|lia]. Qed.

Lemma spares_bind {X Y} (m : A X) (k : X → A Y) : Spares m → (∀ a, Spares (k a)) → Spares (m ≫= k).
Proof.
  intros Hm Hk w. unfold mbind, A_bind. pose proof (Hm w) as [H1 H2]. destruct (m w) as [[a|e] w1]; [|done].
  cbn in H1, H2. destruct (Hk a w1) as [H3 H4]. split; [by eapply later_trans|congruence].
Qed.
Lemma spares_catch {X} (m : A X) h : Spares m → (∀ e k, h e = Some k → Spares k) → Spares (acatch m h).
Proof.
  intros Hm Hh w. unfold acatch. pose proof (Hm w) as [H1 H2]. destruct (m w) as [[a|e] w1]; [done|].
  cbn in H1, H2. destruct (h e) as [k|] eqn:He; [|done].
  destruct (Hh _ _ He w1) as [H3 H4]. split; [by eapply later_trans|congruence].
Qed.
End spares.

Create HintDb spares.
#[export] Hint Resolve spares_ret spares_raise spares_lift spares_rbac spares_refuse spares_found spares_select
  spares_write spares_flush spares_commit spares_rollback spares_id spares_mail spares_utcnow spares_uuid4
  spares_secret spares_redis_get spares_redis_mget : spares.

(** The code in pieces, each sparing the key; a write is left with the two keys
    to tell apart. *)
Ltac go_spares :=
  repeat first
    [ apply spares_bind; [|intros ?]
    | progress cbv zeta
    | solve [eauto 3 with spares]
    | match goal with
      | |- Spares _ (redis_set _ _ _) => apply spares_redis_set
      | |- Spares _ (redis_del _) => apply spares_redis_del
      | |- Spares _ (acatch _ _) => apply spares_catch; [|intros ? ? ?]
      | |- Spares _ (if ?b then _ else _) => destruct b
      | |- Spares _ (match ?x with _ => _ end) => destruct x
      | |- Spares _ (_ _) => progress unfold
          TokenBlacklistRepository.add_jwt_token, TokenBlacklistRepository.add_user, TokenBlacklistRepository.add_token,
          TokenBlacklistRepository.is_valid_token, TokenBlacklistRepository.invalidate_token,
          TokenBlacklistRepository.get_token_backlist, TokenBlacklistRepository.get_user_backlist,
          RoleInvalidateRepository.invalidate_role, PermissionInvalidateRepository.invalidate_permission,
          RoleInvalidateRepository.get_max_invalidation_time, PermissionInvalidateRepository.get_max_invalidation_time,
          latest_mark, OAuthCodeRepository.add_oauth_state, OAuthCodeRepository.get_state, OAuthCodeRepository.delete,
          UserRepository.create, SessionRepository.create, RoleRepository.create, PermissionRepository.create,
          PermissionRepository.delete, OauthAccountRepository.create, HashService.hash_password,
          UserRepository.is_username_taken, UsernameGenerator._is_free, AuthJWTManager.validate_token,
          AuthJWTManager.generate_payload, AuthJWTManager.create_token_pair, AuthJWTManager.revoke_token,
          AuthJWTManager.check_blacklists, AuthJWTManager.refresh_tokens,
          SessionManager.get_or_create_session, SessionManager.get_user_session, apublish, save_user, save_role,
          save_session, authorised, require, all_permissions, RoleUpdateCommand.rename
      end ].

(** tells two keys apart by their first letter *)
Ltac keys_differ :=
  first
  [ assumption
  | eapply head_ne;
    [first [apply head_revoked|apply head_user|apply head_state|apply head_role|apply head_permission]
    |first [apply head_revoked|apply head_user|apply head_state|apply head_role|apply head_permission]|done]
  | eapply sha_ne; [first [apply head_revoked|apply head_user]|lia] ].

(** ** Handlers that leave every revoked token revoked *)
Section requests.
Context `{HashContext, JWTCodec, HashlibLaws, UserAgents, OAuthManager}.

Lemma spares_role_permissions κ j names r : Spares κ (CreateRoleCommand.add_permissions j names r).
Proof.
  revert r. induction names as [|n names IH]; intros r; cbn [CreateRoleCommand.add_permissions]; go_spares.
Qed.
Lemma spares_candidates κ n base : Spares κ (UsernameGenerator.candidates n base).
Proof. induction n as [|n IH]; cbn [UsernameGenerator.candidates]; go_spares. Qed.
#[local] Hint Resolve spares_role_permissions spares_candidates : spares.

Lemma spares_duplicate κ c e k : RegisterCommand.duplicate c e = Some k → Spares κ k.
Proof. destruct e; try done. intros [= <-]. go_spares. Qed.
Lemma spares_taken_meanwhile κ n e k : ChangeUsernameCommand.taken_meanwhile n e = Some k → Spares κ k.
Proof. destruct e; try done. intros [= <-]. go_spares. Qed.
Lemma spares_close_session κ x e k : RefreshTokenCommand.close_session x e = Some k → Spares κ k.
Proof. destruct e; try done. intros [= <-]. go_spares. Qed.
#[local] Hint Resolve spares_duplicate spares_taken_meanwhile spares_close_session : spares.

(** requests that write the marks of tokens, and those of users *)
Definition revokes (r : auth_request) : bool :=
  match r with Logout _ | Refresh _ => true | _ => false end.
Definition expels (r : auth_request) : bool :=
  match r with ChangePassword _ | DeleteUser _ | ResetPassword _ => true | _ => false end.
(** the user whose roles or permissions a request changes *)
Definition grantee (r : auth_request) : option Z :=
  match r with
  | AssignRole c => Some (AssignRoleCommand.assign_to_user c)
  | RemoveRole c => Some (RemoveRoleCommand.remove_from_user c)
  | AddPermissionToUser c => Some (AddPermissionToUserCommand.user_id c)
  | DeletePermissionToUser c => Some (DeletePermissionToUserCommand.user_id c)
  | _ => None
  end.
Definition regrants (u : Z) (r : auth_request) : bool := bool_decide (grantee r = Some u).

Ltac handler :=
  unfold LoginCommand.handle, LoginCommand.find_user, LogoutCommand.handle, RefreshTokenCommand.handle,
    RefreshTokenCommand.identify,
    CreateOAuthAuthorizeUrlCommand.handle, ProcessOAuthCallbackCommand.handle,
    ProcessOAuthCallbackCommand.link, ProcessOAuthCallbackCommand.enter, ProcessOAuthCallbackCommand.sign_up,
    UsernameGenerator.generate, UserDeactivateSessionCommand.handle, RegisterCommand.handle,
    ChangePasswordCommand.handle, ChangeUsernameCommand.handle, DeleteUserCommand.handle,
    SendResetPasswordCommand.handle, SendVerifyCommand.handle, ResetPasswordCommand.handle, VerifyCommand.handle,
    CreateRoleCommand.handle, RoleUpdateCommand.handle, AddPermissionRoleCommand.handle,
    DeletePermissionRoleCommand.handle, AssignRoleCommand.handle, RemoveRoleCommand.handle,
    CreatePermissionCommand.handle, DeletePermissionCommand.handle, AddPermissionToUserCommand.handle,
    DeletePermissionToUserCommand.handle.

Lemma serve_spares_token j r :
  revokes r = false → Spares (TokenBlacklistRepository.revoked_key j) (serve r).
Proof.
  intros Hr. destruct r; try discriminate Hr; clear Hr; cbn [serve]; unfold quietly, answer;
    (apply spares_bind; [handler|intros ?; apply spares_ret]); go_spares; keys_differ.
Qed.

Lemma serve_spares_user u r :
  expels r = false → grantee r = None → Spares (TokenBlacklistRepository.user_key u) (serve r).
Proof.
  intros Hr Hg. destruct r; try discriminate Hr; try discriminate Hg; clear Hr Hg; cbn [serve]; unfold quietly, answer;
    (apply spares_bind; [handler|intros ?; apply spares_ret]); go_spares; keys_differ.
Qed.
End requests.

(** ** Marks *)

(** the clock the world reads does not run backwards *)
Definition forward (w : auth_world) : Prop := ∀ m n, (m ≤ n)%nat → aw_clock w m ≤ aw_clock w n.

(** [κ] holds an instant after [since] and does so up to [lim] *)
Definition marked (κ : text) (since lim : datetime) (w : auth_world) : Prop :=
  ∃ d until, aw_redis w !! κ = Some (RTime d, until) ∧ since < d ∧ lim ≤ until.

(** what the proofs carry along a history *)
Record under_mark (κ : text) (since lim : datetime) (w : auth_world) : Prop := {
  um_mark : marked κ since lim w;
  um_forward : forward w;
  um_since : since < aw_clock w (aw_ticks w);
}.

Class Keeps {X} (I : auth_world → Prop) (m : A X) : Prop := keeps w : I w → I (m w).2.

Section keeps.
Variable I : auth_world → Prop.

(** what the value of a computation satisfies *)
Definition yields {X} (m : A X) (P : X → Prop) : Prop := ∀ w a, (m w).1 = Ok a → P a.

Lemma keeps_bind {X Y} (m : A X) (k : X → A Y) : Keeps I m → (∀ a, Keeps I (k a)) → Keeps I (m ≫= k).
Proof.
  intros Hm Hk w Hw. unfold mbind, A_bind. pose proof (Hm w Hw) as H1. destruct (m w) as [[a|e] w1]; [|done].
  by apply Hk.
Qed.
Lemma keeps_bind_yields {X Y} (m : A X) (P : X → Prop) (k : X → A Y) :
  Keeps I m → yields m P → (∀ a, P a → Keeps I (k a)) → Keeps I (m ≫= k).
Proof.
  intros Hm HP Hk w Hw. unfold mbind, A_bind. pose proof (Hm w Hw) as H1. pose proof (HP w) as H2.
  destruct (m w) as [[a|e] w1]; [|done]. apply Hk; [by apply H2|done].
Qed.
Lemma keeps_catch {X} (m : A X) h : Keeps I m → (∀ e k, h e = Some k → Keeps I k) → Keeps I (acatch m h).
Proof.
  intros Hm Hh w Hw. unfold acatch. pose proof (Hm w Hw) as H1. destruct (m w) as [[a|e] w1]; [done|].
  destruct (h e) as [k|] eqn:He; [|done]. by apply (Hh _ _ He).
Qed.

Lemma yields_bind {X Y} (m : A X) (k : X → A Y) P : (∀ a, yields (k a) P) → yields (m ≫= k) P.
Proof.
  intros Hk w b. unfold mbind, A_bind. destruct (m w) as [[a|e] w1]; [|done]. apply Hk.
Qed.
Lemma yields_bind_post {X Y} (m : A X) (k : X → A Y) P Q :
  yields m P → (∀ a, P a → yields (k a) Q) → yields (m ≫= k) Q.
Proof.
  intros Hm Hk w b. unfold mbind, A_bind. pose proof (Hm w) as H1. destruct (m w) as [[a|e] w1]; [|done].
  apply Hk. by apply H1.
Qed.
Lemma yields_ret {X} (a : X) (P : X → Prop) : P a → yields (mret a) P.
Proof. intros HP w b [= <-]. done. Qed.
End keeps.

Section marks.
Variables (κ : text) (since lim : datetime).
Notation I := (under_mark κ since lim).

Lemma keeps_spares {X} (m : A X) : Spares κ m → Keeps I m.
Proof.
  intros Hm w [(d & u & Hr & Hd & Hu) Hf Hs]. destruct (Hm w) as [[Hc Ht] Hr']. split.
  - exists d, u. by rewrite Hr'.
  - intros a b Hab. rewrite Hc. by apply Hf.
  - rewrite Hc. eapply Z.lt_le_trans; [exact Hs|]. by apply Hf.
Qed.

(** the mark is set again, no shorter than before *)
Lemma keeps_mark_again t ex (w : auth_world) :
  I w → since < t → lim ≤ aw_clock w (aw_ticks w) + seconds (Z.quot ex 1000000) ∨ ex < 1000000 →
  I (redis_set κ (RTime t) ex w).2.
Proof.
  intros [(d & u & Hr & Hd & Hu) Hf Hs] Ht Hlim.
  assert (since < aw_clock w (S (aw_ticks w))) as Hs'.
  { eapply Z.lt_le_trans; [exact Hs|]. apply Hf. lia. }
  unfold redis_set. case_match eqn:Hq; cbn; (split; [|done|done]); cbn.
  - exists d, u. done.
  - exists t, (aw_clock w (aw_ticks w) + seconds (Z.quot ex 1000000)). split_and!; [apply lookup_insert_eq|done|].
    destruct Hlim as [|Hex]; [lia|exfalso]. apply Z.leb_gt in Hq.
    destruct (decide (ex < 0)) as [Hn|Hn].
    + pose proof (Z.quot_opp_l ex 1000000) as Ho. pose proof (Z.quot_pos (- ex) 1000000) as Hp. lia.
    + rewrite Z.quot_small in Hq by lia. lia.
Qed.

(** a time span cut to seconds loses less than one *)
Lemma cut_to_seconds ex : 1000000 ≤ ex → ex - seconds 1 < seconds (Z.quot ex 1000000).
Proof.
  intros Hex. unfold seconds. rewrite Z.quot_div_nonneg by lia.
  pose proof (Z.div_mod ex 1000000). pose proof (Z.mod_pos_bound ex 1000000). lia.
Qed.

(** [add_user] and [add_jwt_token] set a mark at the present *)
Lemma keeps_now ex (set : datetime → A unit) :
  (∀ t, set t = redis_set κ (RTime t) ex) →
  (∀ w, I w → lim ≤ aw_clock w (S (aw_ticks w)) + seconds (Z.quot ex 1000000) ∨ ex < 1000000) →
  Keeps I (t ← utcnow; set t).
Proof.
  intros Hset Hlim w Hw. unfold mbind, A_bind, utcnow. rewrite Hset.
  apply keeps_mark_again; [|by destruct Hw|by apply Hlim].
  destruct Hw as [Hm Hf Hs]. split; [done|done|]. cbn. eapply Z.lt_le_trans; [exact Hs|]. apply Hf. lia.
Qed.

Lemma clock_after w : I w → since < aw_clock w (S (aw_ticks w)).
Proof. intros [_ Hf Hs]. eapply Z.lt_le_trans; [exact Hs|]. apply Hf. lia. Qed.
End marks.

(** ** Refresh tokens of one account *)
Section tokens.
Context `{HashContext, J : JWTCodec, HashlibLaws, UserAgents, OAuthManager}.

(** the claims a text has been presented with *)
Definition presents (s : text) (t : Token) : Prop := ∃ now, jwt_decode now s = JwtClaims t.

(** the text a request presents as a refresh token *)
Definition shown (r : auth_request) : option text :=
  match r with
  | Refresh c => RefreshTokenCommand.refresh_token c
  | Logout c => LogoutCommand.refresh_token c
  | _ => None
  end.

(** no other token of the same [jti] is shown: the manager draws a new one for
    every token, and nobody else signs *)
Definition unrivalled (t : Token) (r : auth_request) : Prop :=
  ∀ s t', shown r = Some s → presents s t' → tok_jti t' = tok_jti t → t' = t.

Lemma yields_validate s ty : yields (AuthJWTManager.validate_token s ty) (presents s).
Proof.
  unfold AuthJWTManager.validate_token. apply yields_bind. intros now w a. case_match eqn:Hd; try done.
  unfold mbind, A_bind, arefuse. destruct (negb _); intros [= <-]. by exists now.
Qed.

Lemma yields_found {X} (o : option X) e : yields (afound o e) (λ a, o = Some a).
Proof. intros w a. unfold afound. cbn. destruct o; intros [= <-]. done. Qed.

Lemma yields_identify c :
  yields (RefreshTokenCommand.identify c) (λ p, ∃ s, shown (Refresh c) = Some s ∧ presents s p.1.1).
Proof.
  unfold RefreshTokenCommand.identify. eapply yields_bind_post; [apply yields_found|]. intros s Hs.
  eapply yields_bind_post; [apply yields_validate|]. intros t Ht. do 8 (apply yields_bind; intros ?).
  apply yields_ret. by exists s.
Qed.

Section token.
Variable t : Token.
Hypothesis t_life : tok_exp t = tok_iat t + days auth_config.REFRESH_TOKEN_EXPIRE_DAYS.

Notation κ := (TokenBlacklistRepository.revoked_key (tok_jti t)).
Notation spent := (under_mark κ (tok_iat t) (tok_exp t - seconds 1)).

Lemma keeps_revoke t' :
  (tok_jti t' = tok_jti t → t' = t) → Keeps spent (AuthJWTManager.revoke_token t').
Proof.
  intros Hu. destruct (decide (tok_jti t' = tok_jti t)) as [Hj|Hj].
  - pose proof (Hu Hj) as ->. intros w Hw. unfold AuthJWTManager.revoke_token, TokenBlacklistRepository.add_jwt_token.
    set (w1 := w <| aw_ticks ::= S |>).
    assert (spent w1) as Hw1.
    { apply (keeps_spares κ (tok_iat t) (tok_exp t - seconds 1) utcnow (spares_utcnow κ) w Hw). }
    change (spent ((now ← utcnow; redis_set κ (RTime now) (tok_exp t - aw_clock w (aw_ticks w))) w1).2).
    set (ex := tok_exp t - aw_clock w (aw_ticks w)).
    apply (keeps_mark_again κ _ _ _ ex (w1 <| aw_ticks ::= S |>)).
    + apply (keeps_spares κ (tok_iat t) (tok_exp t - seconds 1) utcnow (spares_utcnow κ) w1 Hw1).
    + by destruct Hw1.
    + destruct (decide (ex < 1000000)) as [|Hex]; [by right|left].
      pose proof (cut_to_seconds ex) as Hcut. destruct Hw as [_ Hf _].
      pose proof (Hf (aw_ticks w) (aw_ticks (w1 <| aw_ticks ::= S |>))) as Hle. cbn in *. subst ex. lia.
  - apply keeps_spares. unfold AuthJWTManager.revoke_token. go_spares.
    intros Hk. by apply revoked_key_inj in Hk.
Qed.

Lemma keeps_refresh c : unrivalled t (Refresh c) → Keeps spent (RefreshTokenCommand.handle c).
Proof.
  intros Hu. unfold RefreshTokenCommand.handle. eapply keeps_bind_yields; [|apply yields_identify|].
  - apply keeps_spares. unfold RefreshTokenCommand.identify. go_spares.
  - intros [[t' x] data] (s & Hs & Hp). apply keeps_bind; [|intros ?; apply keeps_spares; go_spares].
    apply keeps_catch.
    + unfold AuthJWTManager.refresh_tokens. apply keeps_bind; [apply keeps_spares; go_spares|intros _].
      apply keeps_bind; [by apply keeps_revoke, (Hu s)|intros _; apply keeps_spares; go_spares].
    + intros e k He. apply keeps_spares. by eapply spares_close_session.
Qed.

(** the second mark of a logout, for a day longer than tokens live *)
Lemma keeps_long_mark t' :
  Keeps spent (TokenBlacklistRepository.add_jwt_token (tok_jti t') (days (auth_config.REFRESH_TOKEN_EXPIRE_DAYS + 1))).
Proof.
  unfold TokenBlacklistRepository.add_jwt_token. destruct (decide (tok_jti t' = tok_jti t)) as [Hj|Hj].
  - rewrite Hj. apply (keeps_now κ _ _ (days (auth_config.REFRESH_TOKEN_EXPIRE_DAYS + 1))
      (λ now, redis_set κ (RTime now) (days (auth_config.REFRESH_TOKEN_EXPIRE_DAYS + 1)))); [done|].
    intros w Hw. left. pose proof (clock_after _ _ _ _ Hw) as Hc. rewrite t_life.
    change (seconds (days (auth_config.REFRESH_TOKEN_EXPIRE_DAYS + 1) ÷ 1000000)) with (days 61).
    change auth_config.REFRESH_TOKEN_EXPIRE_DAYS with 60. unfold days, minutes, seconds. lia.
  - apply keeps_spares. go_spares. intros Hk. by apply revoked_key_inj in Hk.
Qed.

Ltac logout_rest :=
  do 4 (apply keeps_bind; [apply keeps_spares; go_spares|intros ?]);
  apply keeps_bind; [apply keeps_long_mark|intros ?; apply keeps_spares; go_spares].

Lemma keeps_logout c : unrivalled t (Logout c) → Keeps spent (LogoutCommand.handle c).
Proof.
  intros Hu. unfold LogoutCommand.handle.
  eapply keeps_bind_yields; [apply keeps_spares; go_spares|apply yields_found|]. intros s Hs.
  eapply keeps_bind_yields; [apply keeps_spares; go_spares|apply yields_validate|]. intros t' Ht.
  apply keeps_bind; [by apply keeps_revoke, (Hu s)|intros _]. logout_rest.
Qed.

(** *** The token is spent when it was used *)
Definition issued (w : auth_world) : Prop := forward w ∧ tok_iat t < aw_clock w (aw_ticks w).

Lemma issued_later w w' : issued w → later w w' → issued w'.
Proof.
  intros [Hf Hi] [Hc Ht]. split; [intros m n Hmn; rewrite Hc; by apply Hf|].
  rewrite Hc. eapply Z.lt_le_trans; [exact Hi|]. by apply Hf.
Qed.

Lemma awp_keeps {X} (I : auth_world → Prop) (m : A X) w (Q : result auth_error X → auth_world → Prop) :
  Keeps I m → I w → (∀ r w', I w' → Q r w') → awp m w Q.
Proof. intros Hk Hw HQ. apply HQ. by apply Hk. Qed.

Lemma keeps_issued {X} (m : A X) : Spares κ m → Keeps issued m.
Proof. intros Hm w Hw. destruct (Hm w) as [Hl _]. by eapply issued_later. Qed.

Lemma awp_revoke w (Q : result auth_error unit → auth_world → Prop) :
  issued w → (∀ w', spent w' → Q (Ok tt) w') → (∀ e w', Q (Err e) w') → awp (AuthJWTManager.revoke_token t) w Q.
Proof.
  intros Hw HQ He. unfold AuthJWTManager.revoke_token, TokenBlacklistRepository.add_jwt_token, awp, mbind, A_bind,
    utcnow, redis_set. set (n := aw_ticks w). set (ex := tok_exp t - aw_clock w n).
  cbn -[Z.leb Z.quot]. destruct (Z.leb_spec (Z.quot ex 1000000) 0) as [_|Hex]; [apply He|apply HQ].
  destruct Hw as [Hf Hi]. fold n in Hi. pose proof (Hf n (S n)) as Hn1. pose proof (Hf n (S (S n))) as Hn2.
  pose proof (Hf n (S (S (S n)))) as Hn3. split; [|exact Hf|cbn; fold n; lia].
  exists (aw_clock w (S n)), (aw_clock w (S (S n)) + seconds (Z.quot ex 1000000)).
  split_and!; [apply lookup_insert_eq|lia|].
  assert (1000000 ≤ ex) as Hle.
  { destruct (decide (1000000 ≤ ex)) as [|Hlt]; [done|]. destruct (decide (0 ≤ ex)).
    - rewrite Z.quot_small in Hex by lia. lia.
    - pose proof (Z.quot_opp_l ex 1000000) as Ho. pose proof (Z.quot_pos (- ex) 1000000) as Hp. lia. }
  pose proof (cut_to_seconds ex Hle) as Hcut. subst ex. lia.
Qed.

(** A spent token stays spent. *)
Lemma perform_spent r w : unrivalled t r → spent w → spent (auth_perform r w).2.
Proof.
  intros Hu Hw. unfold auth_perform, run_request.
  assert (Keeps spent (serve r)) as Hk.
  { destruct (revokes r) eqn:Hr; [|by apply keeps_spares, serve_spares_token].
    destruct r; try done; cbn [serve]; unfold quietly, answer;
      (apply keeps_bind; [first [by apply keeps_logout|by apply keeps_refresh]|intros ?; apply keeps_spares; go_spares]). }
  assert (spent (w <| aw_session := aw_database w |>)) as Hw0 by (destruct Hw; by split).
  specialize (Hk _ Hw0). destruct (serve r _) as [res w']. cbn in *. destruct Hk. by split.
Qed.

Lemma history_spent rs w : Forall (unrivalled t) rs → spent w → spent (auth_history rs w).
Proof. apply (history_invariant spent). intros r w'. apply perform_spent. Qed.
End token.

(** ** Users whose tokens are all refused *)
Section expelled.
Variables (u : Z) (since : datetime).
Notation κ := (TokenBlacklistRepository.user_key u).
Notation expelled := (under_mark κ since (since + days auth_config.REFRESH_TOKEN_EXPIRE_DAYS)).

Lemma keeps_add_user v :
  Keeps expelled (TokenBlacklistRepository.add_user v (Some (days auth_config.REFRESH_TOKEN_EXPIRE_DAYS))).
Proof.
  unfold TokenBlacklistRepository.add_user. cbn [default]. destruct (decide (v = u)) as [->|Hv].
  - apply (keeps_now κ _ _ (days auth_config.REFRESH_TOKEN_EXPIRE_DAYS)
      (λ now, redis_set κ (RTime now) (days auth_config.REFRESH_TOKEN_EXPIRE_DAYS))); [done|].
    intros w Hw. left. pose proof (clock_after _ _ _ _ Hw) as Hc.
    change (seconds (days auth_config.REFRESH_TOKEN_EXPIRE_DAYS ÷ 1000000)) with (days auth_config.REFRESH_TOKEN_EXPIRE_DAYS).
    lia.
  - apply keeps_spares. go_spares. by intros Hk%user_key_inj.
Qed.

Ltac go_keeps :=
  repeat first
    [ match goal with |- Keeps _ (TokenBlacklistRepository.add_user _ _) => apply keeps_add_user end
    | apply keeps_bind; [|intros ?]
    | progress cbv zeta
    | solve [apply keeps_spares; go_spares; keys_differ] ].

Lemma keeps_expelled r : grantee r = None → Keeps expelled (serve r).
Proof.
  intros Hg. destruct (expels r) eqn:Hr; [|by apply keeps_spares, serve_spares_user].
  destruct r; try discriminate Hr; cbn [serve]; unfold quietly, answer, ChangePasswordCommand.handle,
    DeleteUserCommand.handle, ResetPasswordCommand.handle; go_keeps.
Qed.

(** *** Another user's roles and permissions

    The mark such a request writes is that of the row it found: the start of the
    handler reads the tables as the request found them. *)
Section others.
Variable s : auth_store.
Hypothesis (Hs : accounts_ok s).

Definition KeepsFrom {X} (m : A X) : Prop := ∀ w, aw_session w = s → expelled w → expelled (m w).2.

Lemma from_keeps {X} (m : A X) : Keeps expelled m → KeepsFrom m.
Proof using Type. intros Hm w _. apply Hm. Qed.

Lemma from_bind {X Y} (P : X → Prop) (m : A X) (k : X → A Y) :
  Spares κ m → Silent m → (∀ w a, aw_session w = s → (m w).1 = Ok a → P a) →
  (∀ a, P a → KeepsFrom (k a)) → KeepsFrom (m ≫= k).
Proof using Type.
  intros Hm Hq HP Hk w Hw Hx. pose proof (keeps_spares _ _ _ _ Hm w Hx) as Hx'. pose proof (Hq w) as [Hw' _].
  specialize (HP w). unfold mbind, A_bind. destruct (m w) as [[a|e] w1]; [|done]. cbn in *.
  apply Hk; [by apply HP|congruence|done].
Qed.

Lemma from_answer {X} (f : X → auth_answer) (m : A X) : KeepsFrom m → KeepsFrom (answer f m).
Proof using Type.
  intros Hm w Hw Hx. specialize (Hm w Hw Hx). unfold answer, mbind, A_bind. by destruct (m w) as [[a|e] w1].
Qed.

Lemma from_read {X Y} (m : A X) (k : X → A Y) :
  Spares κ m → Silent m → (∀ a, KeepsFrom (k a)) → KeepsFrom (m ≫= k).
Proof using Type. intros Hm Hq Hk. by apply (from_bind (λ _, True)). Qed.

Lemma from_lift {X Y} (x : result auth_error X) (k : X → A Y) :
  (∀ a, x = Ok a → KeepsFrom (k a)) → KeepsFrom (alift x ≫= k).
Proof using Type.
  intros Hk. apply (from_bind (λ a, x = Ok a)); [apply spares_lift|apply silent_lift|by destruct x; intros ? ? _ [= ->]|done].
Qed.

Lemma from_user {Y} i e (k : User.t → A Y) :
  (∀ v, User.id v = i → KeepsFrom (k v)) →
  KeepsFrom (found ← UserRepository.get_user_with_permission_by_id i; v ← afound found e; k v).
Proof using Hs.
  intros Hk. apply (from_bind (λ o, ∀ v, o = Some v → User.id v = i)); [go_spares|intros ?; split; reflexivity| |].
  - intros w o Hw Ho v ->. cbn in Ho. rewrite Hw in Ho. injection Ho as Ho. by apply (user_row s i) in Ho as (_ & ? & _).
  - intros o Ho. apply (from_bind (λ v, o = Some v)); [go_spares|intros ?; split; reflexivity|by destruct o; intros w v _ [= ->]|].
    intros v Hv. by apply Hk, Ho.
Qed.
End others.

Ltac go_silently := unfold authorised, require, all_permissions, PermissionRepository.get_permissions_by_names,
  RoleRepository.get_by_name, RoleRepository.get_with_permission_by_name; go_silent.
Ltac from_reads :=
  repeat first [ apply from_user; [done|intros ? ?] | apply from_lift; intros ? ? | apply from_read; [solve [go_spares]|solve [go_silently]|intros ?] ].

Lemma keeps_other r s : accounts_ok s → grantee r ≠ Some u → is_Some (grantee r) → KeepsFrom s (serve r).
Proof.
  intros Hs Hu [v Hv]. destruct r; try discriminate Hv; clear Hv; cbn [serve grantee] in *;
    apply from_answer; [unfold AssignRoleCommand.handle|unfold RemoveRoleCommand.handle
      |unfold AddPermissionToUserCommand.handle|unfold DeletePermissionToUserCommand.handle]; from_reads;
    apply from_keeps, keeps_spares; go_spares; intros Hk%user_key_inj;
    repeat match goal with
    | E : User.delete_role _ _ = Ok _ |- _ => unfold User.delete_role in E; result_inv E; subst
    | E : DeletePermissionToUserCommand.delete_all _ _ = Ok _ |- _ => apply delete_rows_user in E as (E & _)
    end; cbn in *; congruence.
Qed.

Definition expelled_soundly (w : auth_world) : Prop := expelled w ∧ accounts_sound (aw_database w).

Lemma perform_expelled r w : regrants u r = false → expelled_soundly w → expelled_soundly (auth_perform r w).2.
Proof.
  intros Hg%bool_decide_eq_false [Hw Hok]. split; [|by apply perform_sound]. unfold auth_perform, run_request.
  set (w0 := w <| aw_session := aw_database w |>). assert (expelled w0) as Hw0 by (destruct Hw; by split).
  assert (expelled (serve r w0).2) as Hk.
  { destruct (grantee r) as [v|] eqn:Hv; [|by apply keeps_expelled].
    apply (keeps_other r (aw_database w)); [apply Hok|by rewrite Hv|by rewrite Hv|done|done]. }
  destruct (serve r w0) as [res w']. cbn in *. destruct Hk. by split.
Qed.

Lemma history_expelled rs w :
  Forall (λ r, regrants u r = false) rs → expelled_soundly w → expelled_soundly (auth_history rs w).
Proof. apply (history_invariant expelled_soundly). intros r w'. apply perform_expelled. Qed.
End expelled.

(** ** A marked token is refused *)
Lemma live_mark κ since lim w n :
  marked κ since lim w → aw_clock w n < lim → since < as_time (live_value (aw_clock w n) κ (aw_redis w)).
Proof.
  intros (d & until & Hr & Hd & Hu) Hn. unfold live_value. rewrite Hr.
  destruct (Z.ltb_spec (aw_clock w n) until) as [_|]; [done|lia].
Qed.

Lemma blacklisted t data w lim :
  let n := aw_ticks w in
  (marked (TokenBlacklistRepository.revoked_key (tok_jti t)) (tok_iat t) lim w ∧ aw_clock w n < lim
   ∨ marked (TokenBlacklistRepository.user_key (tok_sub t)) (tok_iat t) lim w ∧ aw_clock w (S n) < lim) →
  awp (AuthJWTManager.check_blacklists t data) w (λ r _, r = Err TokenInBlacklistError).
Proof.
  cbv zeta. intros Hm. unfold AuthJWTManager.check_blacklists, TokenBlacklistRepository.get_token_backlist,
    TokenBlacklistRepository.get_user_backlist, awp, mbind, A_bind, redis_get, mret, A_ret, arefuse. cbn -[live_value].
  destruct (Z.ltb_spec (tok_iat t) (as_time (live_value (aw_clock w (aw_ticks w))
    (TokenBlacklistRepository.revoked_key (tok_jti t)) (aw_redis w)))) as [|Hge]; [done|].
  destruct Hm as [[Hm Hn]|[Hm Hn]]; [pose proof (live_mark _ _ _ _ _ Hm Hn); lia|].
  pose proof (live_mark _ _ _ _ _ Hm Hn) as Hlive.
  destruct (Z.ltb_spec (tok_iat t) (as_time (live_value (aw_clock w (S (aw_ticks w)))
    (TokenBlacklistRepository.user_key (tok_sub t)) (aw_redis w)))) as [|]; [done|]. lia.
Qed.

Lemma awp_utcnow w (Q : result auth_error datetime → auth_world → Prop) :
  Q (Ok (aw_clock w (aw_ticks w))) (w <| aw_ticks ::= S |>) → awp utcnow w Q.
Proof. done. Qed.

(** the token a computation finds in a text is the one it holds *)
Lemma awp_validate `{!JWTCodecLaws J} s t at0 ty w Q :
  jwt_decode at0 s = JwtClaims t →
  Q (Ok t) (w <| aw_ticks ::= S |>) → (∀ e, Q (Err e) (w <| aw_ticks ::= S |>)) →
  awp (AuthJWTManager.validate_token s ty) w Q.
Proof.
  intros Hs Ht He. unfold AuthJWTManager.validate_token. apply awp_bind, awp_utcnow.
  case_match eqn:Hd; [|by apply awp_raise..]. pose proof (jwt_decode_stable _ _ _ _ _ Hs Hd) as ->.
  apply awp_bind, awp_refuse; intros _; [by apply awp_ret|apply He].
Qed.

(** [identify] reads the clock twice and leaves Redis alone *)
Lemma awp_identify `{!JWTCodecLaws J} s t at0 w Q :
  jwt_decode at0 s = JwtClaims t →
  (∀ x d f, Q (Ok (t, x, d)) (w <| aw_ticks ::= S |> <| aw_ticks ::= S |> <| aw_session ::= f |>)) →
  (∀ e w', Q (Err e) w') →
  awp (RefreshTokenCommand.identify (RefreshTokenCommand.Mk (Some s))) w Q.
Proof.
  intros Hs Ht He. unfold RefreshTokenCommand.identify, SessionRepository.get_active_by_device, save_session,
    UserRepository.get_user_with_permission_by_id, UserRepository.get_by_id.
  apply awp_bind, awp_found; [intros ? [= <-]|done].
  apply awp_bind. eapply awp_validate; [exact Hs| |intros e; apply He].
  apply awp_bind, awp_select, awp_bind, awp_found; [intros x _|intros _; apply He].
  apply awp_bind, awp_refuse; [intros _|intros _; apply He].
  apply awp_bind, awp_utcnow. cbv zeta. apply awp_bind, awp_write, awp_bind, awp_select, awp_bind, awp_found; [intros v _|intros _; apply He].
  apply awp_bind, awp_select, awp_ret. apply Ht.
Qed.

(** the handler of a blacklisted token fails, whatever it answers *)
Lemma awp_close x e w (Q : result auth_error TokenGroup → auth_world → Prop) :
  (∀ e' w', Q (Err e') w') →
  match RefreshTokenCommand.close_session x e with Some k => awp k w Q | None => Q (Err e) w end.
Proof.
  intros HQ. destruct e; cbn [RefreshTokenCommand.close_session]; try apply HQ. unfold save_session.
  repeat astep; apply HQ.
Qed.

Lemma refused `{!JWTCodecLaws J} s t at0 w lim :
  jwt_decode at0 s = JwtClaims t →
  let n := aw_ticks w in
  (marked (TokenBlacklistRepository.revoked_key (tok_jti t)) (tok_iat t) lim w ∧ aw_clock w (2 + n)%nat < lim
   ∨ marked (TokenBlacklistRepository.user_key (tok_sub t)) (tok_iat t) lim w ∧ aw_clock w (3 + n)%nat < lim) →
  awp (RefreshTokenCommand.handle (RefreshTokenCommand.Mk (Some s))) w (λ r _, ∃ e, r = Err e).
Proof.
  intros Hs. cbv zeta. intros Hm. unfold RefreshTokenCommand.handle. apply awp_bind.
  eapply awp_identify; [exact Hs|intros x d f|intros e w'; by eexists].
  apply awp_bind, awp_catch. unfold AuthJWTManager.refresh_tokens. apply awp_bind.
  eapply awp_mono; [apply blacklisted with (lim := lim); exact Hm|]. intros r w' ->.
  apply awp_close. intros e' w2. by eexists.
Qed.

(** ** Using a token spends it *)
Section spending.
Context `{!JWTCodecLaws J}.
Variables (s : text) (t : Token) (at0 : datetime).
Hypothesis s_decodes : jwt_decode at0 s = JwtClaims t.
Hypothesis t_life : tok_exp t = tok_iat t + days auth_config.REFRESH_TOKEN_EXPIRE_DAYS.

Notation spent :=
  (under_mark (TokenBlacklistRepository.revoked_key (tok_jti t)) (tok_iat t) (tok_exp t - seconds 1)).

Lemma refresh_spends w :
  issued t w →
  awp (RefreshTokenCommand.handle (RefreshTokenCommand.Mk (Some s))) w (λ r w', ∀ g, r = Ok g → spent w').
Proof.
  intros Hw. unfold RefreshTokenCommand.handle. apply awp_bind.
  eapply awp_identify; [exact s_decodes|intros x d f|done].
  apply awp_bind, awp_catch. unfold AuthJWTManager.refresh_tokens. apply awp_bind.
  eapply (awp_keeps (issued t)); [apply keeps_issued; go_spares| |].
  { eapply issued_later; [exact Hw|]. split; [done|cbn; lia]. }
  intros [[]|e] w1 Hw1; [|by apply awp_close].
  apply awp_bind, awp_revoke; [done|intros w2 Hw2|intros e w2; apply awp_close; done].
  eapply (awp_keeps spent); [apply keeps_spares; go_spares|exact Hw2|].
  intros [g|e] w3 Hw3; [|apply awp_close; done].
  eapply (awp_keeps spent); [apply keeps_spares; go_spares|exact Hw3|]. by intros r w4 Hw4 g' _.
Qed.

Lemma logout_spends w :
  issued t w → awp (LogoutCommand.handle (LogoutCommand.Mk (Some s))) w (λ r w', ∀ a, r = Ok a → spent w').
Proof.
  intros Hw. unfold LogoutCommand.handle. apply awp_bind, awp_found; [intros ? [= <-]|done].
  apply awp_bind. eapply awp_validate; [exact s_decodes| |done].
  apply awp_bind, awp_revoke; [eapply issued_later; [exact Hw|split; [done|cbn; lia]]|intros w2 Hw2|done].
  eapply (awp_keeps spent); [|exact Hw2|by intros].
  do 4 (apply keeps_bind; [apply keeps_spares; go_spares|intros ?]).
  apply keeps_bind; [by apply keeps_long_mark|intros ?; apply keeps_spares; go_spares].
Qed.
End spending.
End tokens.
