(* ===== verification/AuthRanks.v ===== *)
(** Levels of roles: an administrator makes, changes, gives and takes only roles
    below their own level - but for permissions, which may be taken from any
    role. *)
From S2P Require Import Prelude Rbac WsModel AuthModel OAuthProviders AuthStore AuthServices AuthCommands AuthAdmin AuthWp AuthSpec AuthAccountSpec AuthSystem.

(** ** What a caller of level [L] may change *)
Record outranked (L : Z) (s s' : auth_store) : Prop := {
  (** a role at or above the caller is as it was *)
  or_kept i x : roles s !! i = Some x → L ≤ Role.security_level x → roles s' !! i = Some x;
  (** and none was made, or raised to there *)
  or_made i x : roles s' !! i = Some x → roles s !! i = Some x ∨ Role.security_level x < L;
  (** a role given to a user, or taken, is below the caller *)
  or_given i v : users s' !! i = Some v →
    ∃ u, users s !! i = Some u ∧ ∀ k, (k ∈ User.roles v ↔ k ∈ User.roles u) ∨
      ∃ x, roles s !! k = Some x ∧ Role.security_level x < L;
}.

(** What a removal of permissions, which compares no level, may change: the
    roles it names lose permissions it names, and nothing else of them, of
    another role or of what roles a user has is touched. *)
Record permissions_taken (named : Role.t → Prop) (taken : gset string) (s s' : auth_store) : Prop := {
  pt_same i : roles s !! i = None ↔ roles s' !! i = None;
  pt_roles i x y : roles s !! i = Some x → roles s' !! i = Some y →
    y = x <| Role.permissions := Role.permissions y |> ∧ Role.permissions y ⊆ Role.permissions x
    ∧ ∀ k, k ∈ Role.permissions x → k ∉ Role.permissions y →
        named x ∧ ∃ n, permissions s !! k = Some n ∧ n ∈ taken;
  pt_users i v : users s' !! i = Some v → ∃ u, users s !! i = Some u ∧ User.roles v = User.roles u;
}.

(** what the request of an administrator of level [L] may do to roles *)
Definition within_rank (r : auth_request) (L : Z) (s s' : auth_store) : Prop :=
  match r with
  | DeletePermissionRole c =>
    permissions_taken (λ x, Role.name x = DeletePermissionRoleCommand.role_name c)
      (DeletePermissionRoleCommand.permissions c) s s'
  | DeletePermission c => permissions_taken (λ _, True) {[ DeletePermissionCommand.name c ]} s s'
  | _ => outranked L s s'
  end.

Definition ranked (L : Z) (w w' : auth_world) : Prop :=
  aw_database w' = aw_database w ∨ outranked L (aw_database w) (aw_database w').

Lemma outranked_refl L s : outranked L s s.
Proof. split; [done|by left|]. intros i v Hv. exists v. split; [done|]. intros k. by left. Qed.

Lemma outranked_role L s r r' :
  roles s !! Role.id r = Some r → Role.id r' = Role.id r →
  Role.security_level r < L → Role.security_level r' < L →
  outranked L s (s <| roles ::= <[Role.id r' := r']> |>).
Proof.
  intros Hr Hid Hl Hl'. split; cbn.
  - intros i x Hx Hi. rewrite lookup_insert_ne; [done|]. intros <-. rewrite Hid in Hx. assert (x = r) as -> by congruence. lia.
  - intros i x [[<- <-]|[_ Hx]]%lookup_insert_Some; [by right|by left].
  - intros i v Hv. exists v. split; [done|]. intros k. by left.
Qed.

Lemma outranked_new_role L s r :
  accounts_ok s → Role.security_level r < L →
  outranked L s (s <| next_row_id ::= Z.succ |> <| roles ::= <[next_row_id s := r <| Role.id := next_row_id s |>]> |>).
Proof.
  intros Hok Hl. split; cbn.
  - intros i x Hx Hi. rewrite lookup_insert_ne; [done|]. intros <-. destruct (ak_roles _ Hok _ _ Hx) as [? _]. lia.
  - intros i x [[<- <-]|[_ Hx]]%lookup_insert_Some; [by right|by left].
  - intros i v Hv. exists v. split; [done|]. intros k. by left.
Qed.

Lemma outranked_user L s u u' :
  users s !! User.id u = Some u → User.id u' = User.id u →
  (∀ k, (k ∈ User.roles u' ↔ k ∈ User.roles u) ∨ ∃ x, roles s !! k = Some x ∧ Role.security_level x < L) →
  outranked L s (s <| users ::= <[User.id u' := u' <| User.events := [] |>]> |>).
Proof.
  intros Hu Hid Hk. split; cbn; [done|by left|].
  intros i v [[<- <-]|[_ Hv]]%lookup_insert_Some.
  - exists u. rewrite Hid. split; [done|exact Hk].
  - exists v. split; [done|]. intros k. by left.
Qed.

(** ** The handlers *)
Ltac levels :=
  repeat match goal with
  | H : AuthRBACManager.check_security_level _ _ = Ok ?a |- _ =>
    destruct a; apply AuthRBACManager.check_security_level_Ok in H as [_ ?]
  end.

Lemma create_role_ranked cmd w :
  begun w → awp (CreateRoleCommand.handle cmd) w (λ _ w', ranked (jwt_security_level (CreateRoleCommand.user_jwt_data cmd)) w w').
Proof.
  intros [Hs Hok]. unfold CreateRoleCommand.handle, authorised, require, RoleRepository.get_by_name.
  repeat cstep; try unchanged. levels. right. tables. apply outranked_new_role; [done|].
  match goal with E : Role.security_level _ = Role.security_level _ |- _ => rewrite E end. done.
Qed.

Lemma describe_fields d r :
  Role.id (RoleUpdateCommand.describe d r) = Role.id r
  ∧ Role.security_level (RoleUpdateCommand.describe d r) = Role.security_level r.
Proof. unfold RoleUpdateCommand.describe. by repeat case_match. Qed.

(** the level asked for, [0] being none *)
Lemma relevel_below L l r :
  (∀ z, l = Some z → z < L) → Role.security_level r < L → Role.security_level (RoleUpdateCommand.relevel l r) < L.
Proof. intros Hl Hr. unfold RoleUpdateCommand.relevel. repeat case_match; simplify_eq; try done; by apply Hl. Qed.

Lemma relevel_id l r : Role.id (RoleUpdateCommand.relevel l r) = Role.id r.
Proof. unfold RoleUpdateCommand.relevel. by repeat case_match. Qed.

Lemma update_role_ranked cmd w :
  begun w → awp (RoleUpdateCommand.handle cmd) w (λ _ w', ranked (jwt_security_level (RoleUpdateCommand.user_jwt_data cmd)) w w').
Proof.
  intros [Hs Hok]. unfold RoleUpdateCommand.handle, authorised, require, RoleRepository.get_by_id, save_role.
  repeat rstep; try unchanged; levels; right; tables;
    match goal with H : roles _ !! _ = Some ?r, E : Role.id ?r' = Role.id ?r |- _ =>
      tables_in H; apply role_by_id in H; [|done];
      destruct (describe_fields (RoleUpdateCommand.description cmd) r') as [Hi Hl];
      apply (outranked_role _ _ r); [done|by rewrite relevel_id, Hi|done|]
    end; (apply relevel_below; [intros ? [= <-]; done || done|by rewrite Hl; congruence || lia]).
Qed.

Lemma add_permission_role_ranked cmd w :
  begun w → awp (AddPermissionRoleCommand.handle cmd) w (λ _ w', ranked (jwt_security_level (AddPermissionRoleCommand.user_jwt_data cmd)) w w').
Proof.
  intros [Hs Hok]. unfold AddPermissionRoleCommand.handle, authorised, require,
    RoleRepository.get_with_permission_by_name, RoleRepository.get_by_name, save_role.
  repeat pstep; try unchanged; levels; role_rows. right. tables.
  match goal with |- context [foldl ?f ?r ?l] => destruct (add_rows_role l r) as (E1 & _ & E3 & _) end.
  eapply outranked_role; [eassumption|exact E1|done|by rewrite E3].
Qed.

Lemma assign_role_ranked cmd w :
  begun w → awp (AssignRoleCommand.handle cmd) w (λ _ w', ranked (jwt_security_level (AssignRoleCommand.user_jwt_data cmd)) w w').
Proof.
  intros [Hs Hok]. unfold AssignRoleCommand.handle, authorised, require, RoleRepository.get_by_name,
    UserRepository.get_user_with_permission_by_id, UserRepository.get_by_id, save_user.
  repeat hstep; try unchanged; levels; role_rows; rows. right. tables.
  eapply outranked_user; [eassumption|done|]. intros k.
  match goal with H : roles _ !! Role.id ?r = Some ?r |- _ => destruct (decide (k = Role.id r)) as [->|Hk]; [right; by exists r|left] end.
  cbn. set_solver.
Qed.

Lemma remove_role_ranked cmd w :
  begun w → awp (RemoveRoleCommand.handle cmd) w (λ _ w', ranked (jwt_security_level (RemoveRoleCommand.user_jwt_data cmd)) w w').
Proof.
  intros [Hs Hok]. unfold RemoveRoleCommand.handle, authorised, require, RoleRepository.get_with_permission_by_name,
    RoleRepository.get_by_name, UserRepository.get_user_with_permission_by_id, UserRepository.get_by_id, save_user.
  repeat hstep; try unchanged; levels; role_rows; rows. right. tables.
  match goal with H : User.delete_role _ _ = Ok _ |- _ => unfold User.delete_role in H; result_inv H; subst end.
  eapply outranked_user; [eassumption|done|]. intros k.
  match goal with H : roles _ !! Role.id ?r = Some ?r |- _ => destruct (decide (k = Role.id r)) as [->|Hk]; [right; by exists r|left] end.
  cbn. set_solver.
Qed.

(** permissions of one user: no role is touched *)
Lemma outranked_same_roles L s u u' :
  users s !! User.id u = Some u → User.id u' = User.id u → User.roles u' = User.roles u →
  outranked L s (s <| users ::= <[User.id u' := u' <| User.events := [] |>]> |>).
Proof. intros Hu Hid Hr. eapply outranked_user; [done|done|]. intros k. left. by rewrite Hr. Qed.

Lemma add_permission_user_ranked L cmd w :
  begun w → awp (AddPermissionToUserCommand.handle cmd) w (λ _ w', ranked L w w').
Proof.
  intros [Hs Hok]. unfold AddPermissionToUserCommand.handle, authorised, require,
    UserRepository.get_user_with_permission_by_id, UserRepository.get_by_id, save_user.
  repeat pstep; try unchanged; rows. right. tables.
  match goal with |- context [foldl ?f ?u ?l] => destruct (add_rows_user l u) as (E1 & _ & _ & E4 & _) end.
  eapply outranked_same_roles; [eassumption|exact E1|exact E4].
Qed.

Lemma delete_permission_user_ranked L cmd w :
  begun w → awp (DeletePermissionToUserCommand.handle cmd) w (λ _ w', ranked L w w').
Proof.
  intros [Hs Hok]. unfold DeletePermissionToUserCommand.handle, authorised, require,
    UserRepository.get_user_with_permission_by_id, UserRepository.get_by_id, save_user.
  repeat pstep; try unchanged; rows. right. tables.
  match goal with H : DeletePermissionToUserCommand.delete_all _ _ = Ok _ |- _ =>
    apply delete_rows_user in H as (E1 & _ & _ & E4 & _) end.
  eapply outranked_same_roles; [eassumption|exact E1|exact E4].
Qed.

Lemma create_permission_ranked L cmd w :
  begun w → awp (CreatePermissionCommand.handle cmd) w (λ _ w', ranked L w w').
Proof.
  intros [Hs Hok]. unfold CreatePermissionCommand.handle, authorised, require, PermissionRepository.get_permission_by_name.
  repeat hstep; try unchanged. right. tables. split; cbn; [done|by left|].
  intros i v Hv. exists v. split; [done|]. intros k. by left.
Qed.

(** *** Permissions taken from roles *)
Lemma taken_refl named taken s : permissions_taken named taken s s.
Proof.
  split; [done| |by eauto]. intros i x y Hx Hy. assert (y = x) as -> by congruence. split_and!; [by destruct x|done|done].
Qed.

Lemma taken_from_role named taken s r r' (rows : list (Z * string)) :
  roles s !! Role.id r = Some r → named r → Role.id r' = Role.id r →
  r' = r <| Role.permissions := Role.permissions r ∖ list_to_set rows.*1 |> →
  (∀ p, p ∈ rows → permissions s !! p.1 = Some p.2 ∧ p.2 ∈ taken) →
  permissions_taken named taken s (s <| roles ::= <[Role.id r' := r']> |>).
Proof.
  intros Hr Hn Hid Hr' Hrows. split; cbn; [| |by eauto].
  - intros i. rewrite lookup_insert_None, Hid. split; [intros Hi; split; [done|congruence]|by intros [? _]].
  - intros i x y Hx. rewrite Hid, lookup_insert_Some. intros [[<- <-]|[_ Hy]].
    + assert (x = r) as -> by congruence. rewrite Hr'. cbn. split_and!; [done|set_solver|].
      intros k Hk Hout. split; [done|]. destruct (decide (k ∈ rows.*1)) as [Hin|Hnot].
      * apply list_elem_of_fmap in Hin as (p & -> & Hp). destruct (Hrows p Hp). eauto.
      * destruct Hout. apply elem_of_difference. by rewrite elem_of_list_to_set.
    + exact (pt_roles _ _ _ _ (taken_refl named taken s) i x y Hx Hy).
Qed.

Lemma taken_with_permission named s k n :
  permissions s !! k = Some n → (∀ x, named x) →
  permissions_taken named {[ n ]} s
    (s <| permissions ::= delete k |> <| roles ::= fmap (λ r, r <| Role.permissions ::= (.∖ {[ k ]}) |>) |>
       <| users ::= fmap (λ u, u <| User.permissions ::= (.∖ {[ k ]}) |>) |>).
Proof.
  intros Hk Hn. split; cbn.
  - intros i. by rewrite lookup_fmap, fmap_None.
  - intros i x y Hx. rewrite lookup_fmap, Hx. intros [= <-]. cbn. split_and!; [done|set_solver|].
    intros k' Hin Hout. split; [done|]. destruct (decide (k' = k)) as [->|Hne].
    + exists n. split; [done|by apply elem_of_singleton].
    + destruct Hout. apply elem_of_difference. by rewrite elem_of_singleton.
  - intros i v. rewrite lookup_fmap. intros (u & Hu & ->)%fmap_Some. by exists u.
Qed.

Definition taken_or_not (named : Role.t → Prop) (taken : gset string) (w w' : auth_world) : Prop :=
  aw_database w' = aw_database w ∨ permissions_taken named taken (aw_database w) (aw_database w').

Lemma role_eta (r r' : Role.t) :
  Role.id r' = Role.id r → Role.name r' = Role.name r → Role.description r' = Role.description r →
  Role.security_level r' = Role.security_level r → r' = r <| Role.permissions := Role.permissions r' |>.
Proof. destruct r, r'. cbn. by intros -> -> -> ->. Qed.

Lemma delete_rows_description (rows : list (Z * string)) r :
  Role.description (foldl (λ r p, Role.delete_permission p.1 r) r rows) = Role.description r.
Proof.
  revert r. induction rows as [|p rows IH]; intros r; cbn [foldl]; [done|].
  rewrite IH. unfold Role.delete_permission. by case_bool_decide.
Qed.

Lemma delete_rows_role_eq (rows : list (Z * string)) r :
  foldl (λ r p, Role.delete_permission p.1 r) r rows
  = r <| Role.permissions := Role.permissions r ∖ list_to_set rows.*1 |>.
Proof.
  destruct (delete_rows_role rows r) as (E1 & E2 & E3 & <-). apply role_eta; [done|done|apply delete_rows_description|done].
Qed.

Lemma delete_permission_role_taken cmd w :
  begun w → awp (DeletePermissionRoleCommand.handle cmd) w
    (λ _ w', taken_or_not (λ x, Role.name x = DeletePermissionRoleCommand.role_name cmd)
               (DeletePermissionRoleCommand.permissions cmd) w w').
Proof.
  intros [Hs Hok]. unfold DeletePermissionRoleCommand.handle, authorised, require,
    RoleRepository.get_with_permission_by_name, RoleRepository.get_by_name, save_role.
  repeat first
    [ match goal with
      | |- awp (all_permissions _) _ _ => apply all_permissions_spec; [intros ? ? ?|intros ?]; cbv beta iota
      end
    | hstep ]; try unchanged; role_rows. right. tables.
  match goal with H : ∀ p, p ∈ _ → _ |- _ => rewrite Hs in H end.
  eapply taken_from_role; [eassumption|done| |apply delete_rows_role_eq|eassumption].
  by rewrite delete_rows_role_eq.
Qed.

Lemma delete_permission_taken cmd w :
  begun w → awp (DeletePermissionCommand.handle cmd) w
    (λ _ w', taken_or_not (λ _, True) {[ DeletePermissionCommand.name cmd ]} w w').
Proof.
  intros [Hs Hok]. unfold DeletePermissionCommand.handle, authorised, require,
    PermissionRepository.get_permission_by_name, PermissionRepository.delete.
  repeat hstep; try unchanged. right. tables.
  match goal with H : head _ = Some ?a |- _ =>
    tables_in H; apply head_Some_elem_of, list_elem_of_filter in H as [<- Hin]; destruct a as [i n];
    apply elem_of_map_to_list in Hin end.
  by apply taken_with_permission.
Qed.

(** ** The requests *)

(** the administrator who asks *)
Definition administrator (r : auth_request) : option UserJWTData :=
  match r with
  | CreateRole c => Some (CreateRoleCommand.user_jwt_data c)
  | UpdateRole c => Some (RoleUpdateCommand.user_jwt_data c)
  | AddPermissionRole c => Some (AddPermissionRoleCommand.user_jwt_data c)
  | DeletePermissionRole c => Some (DeletePermissionRoleCommand.user_jwt_data c)
  | AssignRole c => Some (AssignRoleCommand.user_jwt_data c)
  | RemoveRole c => Some (RemoveRoleCommand.user_jwt_data c)
  | CreatePermission c => Some (CreatePermissionCommand.user_jwt_data c)
  | DeletePermission c => Some (DeletePermissionCommand.user_jwt_data c)
  | AddPermissionToUser c => Some (AddPermissionToUserCommand.user_jwt_data c)
  | DeletePermissionToUser c => Some (DeletePermissionToUserCommand.user_jwt_data c)
  | _ => None
  end.

Section requests.
Context `{HashContext, JWTCodec, Hashlib, UserAgents, OAuthManager}.

Lemma awp_quietly (m : A unit) w (P : auth_world → Prop) :
  awp m w (λ _ w', P w') → awp (quietly m) w (λ _ w', P w').
Proof. intros Hm. apply awp_bind. eapply awp_mono; [exact Hm|]. by intros [a|e] w' Hw'. Qed.

Lemma within_rank_refl r L s : within_rank r L s s.
Proof. destruct r; try apply outranked_refl; apply taken_refl. Qed.

Lemma serve_ranked r j w :
  begun w → administrator r = Some j →
  awp (serve r) w (λ _ w', aw_database w' = aw_database w
                           ∨ within_rank r (jwt_security_level j) (aw_database w) (aw_database w')).
Proof.
  intros Hw Hj. destruct r; try discriminate Hj; injection Hj as <-; cbn [serve]; apply awp_quietly; cbn [within_rank];
    match goal with
    | |- awp (CreateRoleCommand.handle _) _ _ => exact (create_role_ranked _ _ Hw)
    | |- awp (RoleUpdateCommand.handle _) _ _ => exact (update_role_ranked _ _ Hw)
    | |- awp (AddPermissionRoleCommand.handle _) _ _ => exact (add_permission_role_ranked _ _ Hw)
    | |- awp (DeletePermissionRoleCommand.handle _) _ _ => exact (delete_permission_role_taken _ _ Hw)
    | |- awp (AssignRoleCommand.handle _) _ _ => exact (assign_role_ranked _ _ Hw)
    | |- awp (RemoveRoleCommand.handle _) _ _ => exact (remove_role_ranked _ _ Hw)
    | |- awp (CreatePermissionCommand.handle _) _ _ => exact (create_permission_ranked _ _ _ Hw)
    | |- awp (DeletePermissionCommand.handle _) _ _ => exact (delete_permission_taken _ _ Hw)
    | |- awp (AddPermissionToUserCommand.handle _) _ _ => exact (add_permission_user_ranked _ _ _ Hw)
    | |- awp (DeletePermissionToUserCommand.handle _) _ _ => exact (delete_permission_user_ranked _ _ _ Hw)
    end.
Qed.
End requests.
