(* ===== verification/AuthTheorems.v ===== *)
(** Accounts, sessions and tokens: the theorems, and concrete stand-ins for the packages the account module calls with a small installation to run requests in. *)
From S2P Require Import Prelude Rbac WsModel AuthModel OAuthProviders AuthStore AuthServices AuthCommands AuthAdmin AuthWp AuthSpec AuthAccountSpec AuthSystem AuthTokens AuthRanks.

(** a hash that is its password; a token that is its claims, as one number *)
#[export] Instance plain_hash : HashContext := {|
  crypt_hash := λ _ p, p;
  crypt_verify := λ q h, bool_decide (q = h);
|}.
#[export] Instance plain_hash_laws : HashContextLaws plain_hash.
Proof. by split. Qed.

#[export] Instance Token_eq_dec : EqDecision Token.
Proof. solve_decision. Defined.
#[export] Instance Token_countable : Countable Token.
Proof.
  refine (inj_countable'
    (λ t, (tok_type t, tok_sub t, tok_lvl t, tok_jti t, tok_did t, tok_exp t, tok_iat t, tok_username t, tok_roles t, tok_permissions t))
    (λ '(a, b, c, d, e, f, g, h, i, j), MkToken a b c d e f g h i j) _).
  by intros [].
Defined.

#[export] Instance plain_codec : JWTCodec := {|
  jwt_encode := λ t, [Zpos (encode t)];
  jwt_decode := λ now s,
    match s with
    | [Zpos p] =>
      match decode p with
      | Some t => if now <? tok_exp t then JwtClaims t else JwtExpired
      | None => JwtInvalid
      end
    | _ => JwtInvalid
    end;
|}.
#[export] Instance plain_codec_laws : JWTCodecLaws plain_codec.
Proof.
  split; cbn.
  - intros now now' s t t' H1 H2. destruct s as [|[|p|] [|]]; try discriminate H1.
    destruct (decode p) as [c|]; [|discriminate H1].
    destruct (now <? tok_exp c), (now' <? tok_exp c); congruence.
  - intros now t _ Hnow. rewrite decode_encode. destruct (Z.ltb_spec now (tok_exp t)); [done|]. unfold seconds in Hnow. lia.
  - intros now s t Hd. destruct s as [|[|p|] [|]]; try discriminate Hd.
    destruct (decode p) as [c|]; [|discriminate Hd].
    destruct (Z.ltb_spec now (tok_exp c)); [|discriminate Hd]. by injection Hd as <-.
Qed.

#[export] Instance plain_sha : Hashlib := {|
  sha256_hex := λ s, hex 64 (foldl (λ h c, Z.modulo (h * 1000003 + c) (2 ^ 256)) 7 s)
|}.
#[export] Instance plain_sha_laws : HashlibLaws plain_sha.
Proof. split. intros s. split; [apply hex_chars|apply length_hex]. Qed.

#[export] Instance plain_agents : UserAgents := {|
  ua_parse := λ s, MkParsedAgent s [] [] [] [];
  device_json := λ a b c, a ++ 44 :: b ++ 44 :: c;
|}.

(** no provider is registered *)
#[export] Instance no_provider : OAuthManager := Build_OAuthManager
  (λ p _, Err (NotExistProviderOAuthError p)) (λ p _, Err (NotExistProviderOAuthError p)).

(** ** An installation: the built-in roles, a minute between two readings of
    the clock *)
Definition installed : auth_store :=
  empty_auth_store
    <| roles := {[ 1 := Role.Mk 1 (role_name STANDARD_USER) None 1 ∅;
                   2 := Role.Mk 2 (role_name SUPER_ADMIN) None 10 ∅;
                   3 := Role.Mk 3 "editor" None 4 ∅ ]} |>
    <| next_row_id := 4 |>.
Definition opening : auth_world :=
  MkAuthWorld installed installed ∅ (λ n, minutes (Z.of_nat n)) 1 Z.of_nat 0 (λ n, [97; 97; 97; 97; 97; Z.of_nat n]) 0 [].

Lemma opening_forward : forward opening.
Proof. intros m n Hmn. cbn. unfold minutes, seconds. lia. Qed.

Lemma installed_sound : accounts_sound installed.
Proof.
  split; [|by vm_compute]. split; cbn; try (by intros *; intros ?%lookup_empty_Some).
  - intros i r Hr. apply lookup_insert_Some in Hr as [[<- <-]|[_ Hr]]; [by vm_compute|].
    apply lookup_insert_Some in Hr as [[<- <-]|[_ Hr]]; [by vm_compute|].
    apply lookup_singleton_Some in Hr as [<- <-]. by vm_compute.
Qed.

(** ** Somebody to register *)
Definition alice : RegisterCommand.command :=
  RegisterCommand.Mk (u8 "alice") (u8 "alice@example.org") (u8 "tulip") (u8 "tulip").
Definition alice_in : LoginCommand.command := LoginCommand.Mk (u8 "alice") (u8 "tulip") (u8 "browser") (u8 "::1").
Definition admin : UserJWTData := MkJWT 9 (u8 "root") [role_name SUPER_ADMIN] [] 10 [].

Definition joined : auth_world := auth_history [Register alice] opening.
Definition entered_world : auth_world := (auth_perform (Login alice_in) joined).2.
Definition pair : TokenGroup :=
  match (auth_perform (Login alice_in) joined).1 with Ok (Tokens g) => g | _ => MkTokenGroup [] [] end.
Definition claims : Token :=
  match jwt_decode 0 (tg_refresh_token pair) with
  | JwtClaims t => t
  | _ => MkToken "" 0 0 [] [] 0 0 [] [] []
  end.

(** the code mailed for a reset *)
Definition code_sent : auth_world := auth_history [SendReset (u8 "alice@example.org")] entered_world.
Definition reset_code : text :=
  match aw_mails code_sent with [ResetTokenMail _ _ c] => c | _ => [] end.
Definition reset_alice : ResetPasswordCommand.command :=
  ResetPasswordCommand.Mk reset_code (u8 "crocus") (u8 "crocus").
Definition reset_world : auth_world := (auth_perform (ResetPassword reset_alice) code_sent).2.

Definition refresh_alice : auth_request := Refresh (RefreshTokenCommand.Mk (Some (tg_refresh_token pair))).

(** an administrator gives alice another role; some time passes *)
Definition promote : auth_request := AssignRole (AssignRoleCommand.Mk 4 "editor" admin).
Definition a_while : list auth_request := replicate 8 (Verify (u8 "no such code")).

Definition answer_of (r : auth_request) (w : auth_world) : auth_answer :=
  match (auth_perform r w).1 with Ok a => a | Err _ => Done end.

Lemma a_while_unrivalled t : Forall (unrivalled t) a_while.
Proof. apply list.Forall_forall. intros r [-> _]%elem_of_replicate s t' Hs. discriminate Hs. Qed.

(** meanwhile bob registers, and is given the role *)
Definition bob : RegisterCommand.command :=
  RegisterCommand.Mk (u8 "bobby") (u8 "bob@example.org") (u8 "daisy") (u8 "daisy").
Definition bob_id : Z := 6.
Definition promote_bob : auth_request := AssignRole (AssignRoleCommand.Mk bob_id "editor" admin).
Definition bob_promoted : list auth_request := Register bob :: promote_bob :: a_while.
Lemma bob_promoted_regrants : Forall (λ r, regrants 4 r = false) bob_promoted.
Proof. by repeat (constructor; [vm_compute; reflexivity|]). Qed.

Lemma same_clock_forward w : aw_clock w = aw_clock opening → forward w.
Proof. intros Hc m n Hmn. rewrite Hc. by apply opening_forward. Qed.
Lemma entered_forward : forward entered_world.
Proof. apply same_clock_forward. by vm_compute. Qed.
Lemma code_sent_forward : forward code_sent.
Proof. apply same_clock_forward. by vm_compute. Qed.

Lemma joined_sound : accounts_sound (aw_database joined).
Proof. unfold joined. apply history_sound, installed_sound. Qed.
Lemma entered_sound : accounts_sound (aw_database entered_world).
Proof. unfold entered_world. apply perform_sound, joined_sound. Qed.
Lemma code_sent_sound : accounts_sound (aw_database code_sent).
Proof. unfold code_sent. apply history_sound, entered_sound. Qed.

(** ** Execution with the exact world *)
Section exact.
Lemma awp_secret w (Q : result auth_error text → auth_world → Prop) :
  Q (Ok (aw_secrets w (aw_secret_reads w))) (w <| aw_secret_reads ::= S |>) → awp secret w Q.
Proof. done. Qed.
Lemma awp_redis_get k w (Q : result auth_error (option redis_value) → auth_world → Prop) :
  Q (Ok (live_value (aw_clock w (aw_ticks w)) k (aw_redis w))) (w <| aw_ticks ::= S |>) → awp (redis_get k) w Q.
Proof. done. Qed.
Lemma awp_redis_del k w (Q : result auth_error unit → auth_world → Prop) :
  Q (Ok tt) (w <| aw_redis ::= delete k |>) → awp (redis_del k) w Q.
Proof. done. Qed.
Lemma awp_redis_set k v ex w (Q : result auth_error unit → auth_world → Prop) :
  seconds 1 ≤ ex →
  Q (Ok tt) (w <| aw_ticks ::= S |>
               <| aw_redis ::= <[k := (v, aw_clock w (aw_ticks w) + seconds (Z.quot ex 1000000))]> |>) →
  awp (redis_set k v ex) w Q.
Proof.
  intros Hex HQ. unfold awp, redis_set. pose proof (Z.quot_le_mono 1000000 ex 1000000) as Hq.
  assert (1 ≤ Z.quot ex 1000000) as H1 by (rewrite <- (Z.quot_same 1000000); [apply Hq|]; unfold seconds in Hex; lia).
  destruct (Z.leb_spec (Z.quot ex 1000000) 0) as [|_]; [lia|exact HQ].
Qed.
End exact.

Ltac xstep :=
  match goal with
  | |- awp utcnow _ _ => apply awp_utcnow
  | |- awp secret _ _ => apply awp_secret
  | |- awp (redis_get _) _ _ => apply awp_redis_get
  | |- awp (redis_del _) _ _ => apply awp_redis_del
  | |- awp (redis_set _ _ _) _ _ => apply awp_redis_set; [done|]
  | |- awp (UserRepository.create _) _ _ => apply awp_create_user
  | |- awp (let _ := _ in _) _ _ => cbv zeta
  | |- awp (_ ≫= _) _ _ => apply awp_bind
  | |- awp (mret _) _ _ => apply awp_ret
  | |- awp (araise _) _ _ => apply awp_raise
  | |- awp (alift _) _ _ => apply awp_lift; intros ? ?
  | |- awp (rbac _) _ _ => apply awp_rbac; intros ? ?
  | |- awp (arefuse _ _) _ _ => apply awp_refuse; intros ?
  | |- awp (afound _ _) _ _ => apply awp_found; [intros ? ?|intros ?]
  | |- awp (aselect _) _ _ => apply awp_select
  | |- awp (awrite _) _ _ => apply awp_write
  | |- awp acommit _ _ => apply awp_commit; [intros ?|intros ? ?]
  end; cbv beta iota zeta.

Section theorems.
Context `{HashContext, J : JWTCodec, HashlibLaws, UserAgents, OAuthManager}.

Lemma outbox_nil s : s <| auth_outbox ::= (λ l, l ++ []) |> = s.
Proof. destruct s as [a b c d e f l]. change (MkAuthStore a b c d e f (l ++ []) = MkAuthStore a b c d e f l). by rewrite app_nil_r. Qed.
Lemma without_events u h :
  User.events u = [] → (User.password_reset h u) <| User.events := [] |> = u <| User.password_hash := Some h |>.
Proof. destruct u. cbn. by intros ->. Qed.

(** what a reset by a code of user [i] leaves *)
Record reset_done (c : ResetPasswordCommand.command) (i : Z) (w w' : auth_world) : Prop := {
  rd_code : live_value (aw_clock w (aw_ticks w)) (sha256_hex (ResetPasswordCommand.token c)) (aw_redis w) = Some (RInt i);
  rd_repeat : ResetPasswordCommand.password c = ResetPasswordCommand.password_repeat c;
  rd_user : ∃ u h, users (aw_database w) !! i = Some u ∧ User.is_deleted u = false
    ∧ (∀ q, crypt_verify q h = bool_decide (q = ResetPasswordCommand.password c))
    ∧ aw_database w' = (aw_database w) <| users ::= <[i := u <| User.password_hash := Some h |>]> |>;
  rd_spent : aw_redis w' !! sha256_hex (ResetPasswordCommand.token c) = None;
  rd_expelled since : since < aw_clock w (aw_ticks w) →
    under_mark (TokenBlacklistRepository.user_key i) since (since + days auth_config.REFRESH_TOKEN_EXPIRE_DAYS) w';
}.

Lemma reset_spec `{!HashContextLaws _} c w :
  begun w → forward w →
  awp (ResetPasswordCommand.handle c) w (λ r w', r = Ok tt → ∃ i, reset_done c i w w').
Proof.
  intros [Hs Hok] Hf. unfold ResetPasswordCommand.handle, TokenBlacklistRepository.is_valid_token,
    TokenBlacklistRepository.invalidate_token, TokenBlacklistRepository.add_user,
    HashService.hash_password, UserRepository.get_by_id, save_user, apublish. cbn [default].
  repeat xstep; try done; intros _.
  match goal with
  | Hv : violated _ = None, Hc : match live_value ?now ?k ?r with _ => _ end = Some ?i, Hu : _ ≫= _ = Some ?u |- _ =>
    clear Hv; rename Hc into Hcode; exists i;
    assert (users (aw_database w) !! User.id u = Some u ∧ User.id u = i ∧ User.is_deleted u = false) as (Hrow & Hid & Hdel)
      by (apply user_row; [done|]; rewrite <- Hs; exact Hu)
  end.
  match goal with Hp : negb (bool_decide _) = false |- _ => apply negb_false_iff, bool_decide_eq_true in Hp; rename Hp into Hrep end.
  destruct (ak_users _ Hok _ _ Hrow) as (_ & _ & Hev & _). split.
  - destruct (live_value _ _ _) as [[|]|]; naive_solver.
  - done.
  - exists a0. eexists. rewrite <- Hid. split_and!; [done|done|intros q; apply crypt_verify_hash|].
    cbn. rewrite Hs, Hev, outbox_nil. by rewrite (without_events _ _ Hev).
  - cbn. rewrite lookup_insert_ne; [by rewrite lookup_delete_eq|].
    intros Hk. symmetry in Hk. revert Hk. eapply sha_ne; [apply head_user|lia].
  - intros since Hsince. split; [|exact Hf|].
    + do 2 eexists. rewrite <- Hid. split_and!; [apply lookup_insert_eq| |].
      * eapply Z.lt_le_trans; [exact Hsince|]. apply Hf. cbn. lia.
      * apply Z.add_le_mono; [|done]. etrans; [apply Z.lt_le_incl, Hsince|]. apply Hf. cbn. lia.
    + eapply Z.lt_le_trans; [exact Hsince|]. apply Hf. cbn. lia.
Qed.

(** ** From handlers to requests *)
Lemma perform_Ok {X} (f : X → auth_answer) (m : A X) r w a :
  serve r = answer f m → (auth_perform r w).1 = Ok a →
  ∃ x w', m (w <| aw_session := aw_database w |>) = (Ok x, w') ∧ a = f x
    ∧ (auth_perform r w).2 = w' <| aw_session := aw_database w' |>.
Proof.
  intros Hr. unfold auth_perform, run_request. rewrite Hr. unfold answer, mbind, A_bind.
  destruct (m _) as [[x|e] w']; [|done]. intros [= <-]. by exists x, w'.
Qed.

Lemma awp_result {X} (m : A X) w Q r w' : awp m w Q → m w = (r, w') → Q r w'.
Proof. unfold awp. intros HQ Hm. by rewrite Hm in HQ. Qed.

Lemma begun_request w : accounts_ok (aw_database w) → begun (w <| aw_session := aw_database w |>).
Proof. done. Qed.

Lemma refused_request `{!JWTCodecLaws J} s t at0 w lim :
  jwt_decode at0 s = JwtClaims t →
  (marked (TokenBlacklistRepository.revoked_key (tok_jti t)) (tok_iat t) lim w
     ∧ aw_clock w (2 + aw_ticks w)%nat < lim
   ∨ marked (TokenBlacklistRepository.user_key (tok_sub t)) (tok_iat t) lim w
     ∧ aw_clock w (3 + aw_ticks w)%nat < lim) →
  ∃ e, (auth_perform (Refresh (RefreshTokenCommand.Mk (Some s))) w).1 = Err e.
Proof.
  intros Hs Hm. unfold auth_perform, run_request. set (w0 := w <| aw_session := aw_database w |>).
  destruct (refused s t at0 w0 lim Hs Hm) as [e He]. exists e.
  cbn [serve]. unfold answer, mbind, A_bind. destruct (RefreshTokenCommand.handle _ w0) as [r w'].
  cbn in He. by subst r.
Qed.

(** C28: Whatever requests the module serves, in any order, its tables stay in
    order: rows are filed under their ids and refer to rows that exist; no two
    users share an address, or a name even up to case; names of roles and of
    permissions are unique, and so are the accounts of a provider; a user has at
    most one open session on a device. *)
Theorem accounts_stay_sound rs w :
  accounts_sound (aw_database w) →
  let s := aw_database (auth_history rs w) in
  accounts_ok s
  ∧ (∀ i j u v, users s !! i = Some u → users s !! j = Some v →
       User.email u = User.email v ∨ lower (User.username u) = lower (User.username v) → i = j)
  ∧ (∀ i j r q, roles s !! i = Some r → roles s !! j = Some q → Role.name r = Role.name q → i = j)
  ∧ (∀ i j p q, permissions s !! i = Some p → permissions s !! j = Some q → p = q → i = j)
  ∧ (∀ i j a b, oauth_accounts s !! i = Some a → oauth_accounts s !! j = Some b → oa_provider a = oa_provider b →
       oa_provider_user_id a = oa_provider_user_id b ∨ oa_user_id a = oa_user_id b → i = j)
  ∧ (∀ i a, oauth_accounts s !! i = Some a → is_Some (users s !! oa_user_id a)).
Proof.
  intros Hw s. destruct (history_sound rs w Hw) as [Hok Hv].
  destruct (violated_None _ Hv) as (He & _ & Hl & Hr & Hp & Ha & Hb & Hf). split_and!; [done| | | | |done].
  - intros i j u v Hu Hv' [Heq|Heq]; [exact (repeated_false _ _ _ _ _ _ He Hu Hv' Heq)|exact (repeated_false _ _ _ _ _ _ Hl Hu Hv' Heq)].
  - intros i j x y. by apply repeated_false.
  - intros i j x y. by apply (repeated_false id).
  - intros i j x y Hx Hy Hpr [Hq|Hq].
    + apply (repeated_false _ _ _ _ _ _ Ha Hx Hy). congruence.
    + apply (repeated_false _ _ _ _ _ _ Hb Hx Hy). congruence.
Qed.

(** C29: A refresh token works once. When it has been exchanged for a new pair,
    or logged out, no later request gets a pair for it - whatever was served in
    between, as long as no other token with its [jti] is about - until the
    second in which it expires. *)
Theorem token_used_once `{!JWTCodecLaws J} rs w s t at0 r a :
  forward w → jwt_decode at0 s = JwtClaims t →
  tok_exp t = tok_iat t + days auth_config.REFRESH_TOKEN_EXPIRE_DAYS →
  tok_iat t < aw_clock w (aw_ticks w) →
  r = Refresh (RefreshTokenCommand.Mk (Some s)) ∨ r = Logout (LogoutCommand.Mk (Some s)) →
  (auth_perform r w).1 = Ok a → Forall (unrivalled t) rs →
  let w' := auth_history rs (auth_perform r w).2 in
  aw_clock w' (2 + aw_ticks w')%nat < tok_exp t - seconds 1 →
  ∃ e, (auth_perform (Refresh (RefreshTokenCommand.Mk (Some s))) w').1 = Err e.
Proof.
  intros Hf Hs Hlife Hiat Hr Ha Hrs w' Hnow.
  assert (under_mark (TokenBlacklistRepository.revoked_key (tok_jti t)) (tok_iat t) (tok_exp t - seconds 1)
    (auth_perform r w).2) as Hm.
  { set (w0 := w <| aw_session := aw_database w |>). destruct Hr as [-> | ->].
    - destruct (perform_Ok Tokens _ (Refresh (RefreshTokenCommand.Mk (Some s))) w a eq_refl Ha) as (x & w1 & Hx & _ & ->).
      pose proof (refresh_spends s t at0 Hs w0 (conj Hf Hiat)) as Hsp.
      unfold awp in Hsp. fold w0 in Hx. rewrite Hx in Hsp. by destruct (Hsp _ eq_refl).
    - destruct (perform_Ok (λ _, Done) _ (Logout (LogoutCommand.Mk (Some s))) w a eq_refl Ha) as (x & w1 & Hx & _ & ->).
      pose proof (logout_spends s t at0 Hs Hlife w0 (conj Hf Hiat)) as Hsp.
      unfold awp in Hsp. fold w0 in Hx. rewrite Hx in Hsp. by destruct (Hsp _ eq_refl). }
  apply (history_spent t Hlife rs) in Hm; [|done]. fold w' in Hm. destruct Hm as [Hm _ _].
  apply refused_request with (t := t) (at0 := at0) (lim := tok_exp t - seconds 1); [done|]. by left.
Qed.

Lemma reset_request `{!HashContextLaws H} c w a :
  accounts_ok (aw_database w) → forward w → (auth_perform (ResetPassword c) w).1 = Ok a →
  ∃ i, reset_done c i w (auth_perform (ResetPassword c) w).2.
Proof.
  intros Hok Hf Ha. set (w0 := w <| aw_session := aw_database w |>).
  destruct (perform_Ok (λ _, Done) _ (ResetPassword c) w a eq_refl Ha) as ([] & w1 & Hx & _ & ->). fold w0 in Hx.
  pose proof (reset_spec c w0 (begun_request w Hok) Hf) as Hr. unfold awp in Hr. rewrite Hx in Hr.
  destruct (Hr eq_refl) as [i [? ? ? ? Hex]]. exists i. split; try done.
  intros since Hs. destruct (Hex since Hs). by split.
Qed.

(** Resetting a password takes a live code; it changes the password of the
    user the code was made for to the one asked for, typed twice, and no other
    row; and it uses the code up: asking again fails. *)
Theorem reset_password_effect `{!HashContextLaws H} c c' w a :
  accounts_sound (aw_database w) → forward w →
  (auth_perform (ResetPassword c) w).1 = Ok a → ResetPasswordCommand.token c' = ResetPasswordCommand.token c →
  let w' := (auth_perform (ResetPassword c) w).2 in
  (∃ i u h, live_value (aw_clock w (aw_ticks w)) (sha256_hex (ResetPasswordCommand.token c)) (aw_redis w) = Some (RInt i)
     ∧ users (aw_database w) !! i = Some u ∧ User.is_deleted u = false
     ∧ ResetPasswordCommand.password c = ResetPasswordCommand.password_repeat c
     ∧ (∀ q, crypt_verify q h = bool_decide (q = ResetPasswordCommand.password c))
     ∧ aw_database w' = (aw_database w) <| users ::= <[i := u <| User.password_hash := Some h |>]> |>)
  ∧ (auth_perform (ResetPassword c') w').1 = Err (InvalidTokenError (Some (ResetPasswordCommand.token c))).
Proof.
  intros [Hok _] Hf Ha Hc w'. destruct (reset_request c w a Hok Hf Ha) as [i [Hcode Hrep (u & h & Hu & Hd & Hh & Hdb) Hspent _]].
  split; [by exists i, u, h|]. unfold auth_perform, run_request. cbn [serve].
  unfold ResetPasswordCommand.handle, TokenBlacklistRepository.is_valid_token, quietly, answer, mbind, A_bind, redis_get, live_value.
  cbn -[aw_redis]. rewrite Hc. fold w' in Hspent. cbn. by rewrite Hspent.
Qed.

(** C30: A reset makes every refresh token issued before it to the user worthless
    until it expires, whatever is requested in between - also when other users
    are given roles or permissions or lose them, or roles change - unless a
    request gives that user a role or a permission or takes one, which forgets
    the reset. *)
Theorem reset_revokes_tokens `{!HashContextLaws H, !JWTCodecLaws J} c w a i s t at0 rs :
  accounts_sound (aw_database w) → forward w →
  live_value (aw_clock w (aw_ticks w)) (sha256_hex (ResetPasswordCommand.token c)) (aw_redis w) = Some (RInt i) →
  (auth_perform (ResetPassword c) w).1 = Ok a →
  jwt_decode at0 s = JwtClaims t → tok_sub t = i →
  tok_exp t = tok_iat t + days auth_config.REFRESH_TOKEN_EXPIRE_DAYS →
  tok_iat t < aw_clock w (aw_ticks w) →
  Forall (λ r, regrants i r = false) rs →
  let w' := auth_history rs (auth_perform (ResetPassword c) w).2 in
  aw_clock w' (3 + aw_ticks w')%nat < tok_exp t →
  ∃ e, (auth_perform (Refresh (RefreshTokenCommand.Mk (Some s))) w').1 = Err e.
Proof.
  intros Hw Hf Hcode Ha Hs Hi Hlife Hiat Hrs w' Hnow.
  destruct (reset_request c w a (proj1 Hw) Hf Ha) as [j [Hcode' _ _ _ Hex]].
  assert (j = i) as -> by congruence. specialize (Hex _ Hiat).
  assert (expelled_soundly i (tok_iat t) (auth_perform (ResetPassword c) w).2) as Hsound by (split; [exact Hex|by apply perform_sound]).
  apply (history_expelled i _ rs) in Hsound as [Hex' _]; [|done]. clear Hex. rename Hex' into Hex. fold w' in Hex. rewrite <- Hlife, <- Hi in Hex. destruct Hex as [Hm _ _].
  apply refused_request with (t := t) (at0 := at0) (lim := tok_exp t); [done|]. by right.
Qed.

(** ** Logging in *)
Lemma violated_ext s s' :
  users s' = users s → roles s' = roles s → permissions s' = permissions s → oauth_accounts s' = oauth_accounts s →
  violated s' = violated s.
Proof. unfold violated. by intros -> -> -> ->. Qed.

(** the tokens of a pair, by their claims *)
Record pair_of (d : UserJWTData) (now now' : datetime) (g : TokenGroup) : Prop := {
  po_access : ∃ t, tg_access_token g = jwt_encode t ∧ tok_type t = ACCESS ∧ create_from_token t = d
    ∧ tok_iat t = now ∧ tok_exp t = now + minutes auth_config.ACCESS_TOKEN_EXPIRE_MINUTES;
  po_refresh : ∃ t, tg_refresh_token g = jwt_encode t ∧ tok_type t = REFRESH ∧ tok_sub t = jwt_id d
    ∧ tok_did t = jwt_device_id d ∧ tok_roles t = [] ∧ tok_permissions t = []
    ∧ tok_iat t = now' ∧ tok_exp t = now' + days auth_config.REFRESH_TOKEN_EXPIRE_DAYS;
}.

Lemma awp_pair d w (Q : result auth_error TokenGroup → auth_world → Prop) :
  (∀ g, pair_of d (aw_clock w (aw_ticks w)) (aw_clock w (S (aw_ticks w))) g → Q (Ok g) (AuthJWTManager.create_token_pair d w).2) →
  awp (AuthJWTManager.create_token_pair d) w Q.
Proof.
  intros HQ. apply HQ. split.
  - eexists. split; [reflexivity|]. split_and!; try done. by destruct d.
  - eexists. split; [reflexivity|]. by split_and!.
Qed.

Lemma login_accepted c u w :
  accounts_sound (aw_database w) → begun w →
  (LoginCommand.find_user c w).1 = Ok (Some u) → LoginCommand.rejected c (Some u) = false →
  awp (LoginCommand.handle c) w (λ r w', ∃ g now now' x,
    r = Ok g ∧ pair_of (create_from_user (aw_database w') u (Session.device_id x)) now now' g
    ∧ users (aw_database w') = users (aw_database w) ∧ sessions (aw_database w') !! Session.id x = Some (x <| Session.events := [] |>)
    ∧ open_on (User.id u) (di_device_id (generate_device_info (LoginCommand.user_agent c))) x).
Proof.
  intros [Hok Hv] [Hs _] Hu Hrej. unfold LoginCommand.handle. apply awp_bind.
  assert (users (aw_session w) !! User.id u = Some u ∧ awp (LoginCommand.find_user c) w (λ r w', r = Ok (Some u) ∧ w' = w)) as [Hrow Hfind].
  { revert Hu. unfold LoginCommand.find_user, UserRepository.get_with_roles_by_email, UserRepository.get_by_email,
      UserRepository.get_with_roles_by_username, UserRepository.get_by_username, awp.
    case_bool_decide; cbn; intros [= Hu]; rewrite Hu; (split; [|done]);
      rewrite Hs in Hu |- *; apply get_where_Some in Hu as (? & ? & ?); done. }
  eapply awp_mono; [exact Hfind|]. intros r w' [-> ->].
  apply awp_bind, awp_refuse; [intros _|congruence]. apply awp_bind, awp_found; [intros ? [= <-]|done].
  apply awp_bind, awp_session; [by rewrite Hs|by eexists|].
  intros x w1 Hdb _ Hus Hro Hpe Hoa Hopen Hx. apply awp_bind, awp_write, awp_bind, awp_commit.
  - intros _. apply awp_bind, awp_select, awp_pair. intros g Hg. exists g. do 2 eexists. exists x.
    split_and!; [done|exact Hg| | |exact Hopen].
    + change (users (aw_session w1) = users (aw_database w)). by rewrite Hus, Hs.
    + exact Hx.
  - intros k Hk. exfalso. rewrite (violated_ext (aw_database w)) in Hk; cbn; congruence.
Qed.

(** A login succeeds exactly for a user who exists, is not deleted, has a
    password, and gives it. It then answers with an access token that carries
    the user's name, roles and permissions as they are, for five minutes, and a
    refresh token without them, for sixty days, both for a session that is open
    on the caller's device; no user is changed. Otherwise the one error tells
    nothing but the name tried, and nothing is changed. *)
Theorem login_outcome c w :
  accounts_sound (aw_database w) →
  let w0 := w <| aw_session := aw_database w |> in
  let w' := (auth_perform (Login c) w).2 in
  match (LoginCommand.find_user c w0).1 with
  | Ok (Some u) =>
    if LoginCommand.rejected c (Some u) then
      (auth_perform (Login c) w).1 = Err (WrongLoginDataError (LoginCommand.username c)) ∧ w' = w0
    else ∃ g now now' x,
      (auth_perform (Login c) w).1 = Ok (Tokens g)
      ∧ pair_of (create_from_user (aw_database w') u (Session.device_id x)) now now' g
      ∧ users (aw_database w') = users (aw_database w)
      ∧ sessions (aw_database w') !! Session.id x = Some (x <| Session.events := [] |>)
      ∧ open_on (User.id u) (di_device_id (generate_device_info (LoginCommand.user_agent c))) x
  | _ => (auth_perform (Login c) w).1 = Err (WrongLoginDataError (LoginCommand.username c)) ∧ w' = w0
  end.
Proof.
  intros Hok w0 w'. assert (∃ o, LoginCommand.find_user c w0 = (Ok o, w0)) as [o Ho].
  { unfold LoginCommand.find_user. case_bool_decide; by eexists. }
  assert (LoginCommand.rejected c o = true →
    auth_perform (Login c) w = (Err (WrongLoginDataError (LoginCommand.username c)), w0)) as Hbad.
  { intros Hrej. unfold auth_perform, run_request. fold w0. cbn [serve]. unfold LoginCommand.handle, answer, mbind, A_bind.
    rewrite Ho. unfold arefuse. by rewrite Hrej. }
  unfold w'. rewrite Ho. cbn [fst]. destruct o as [u|]; [|by rewrite Hbad].
  destruct (LoginCommand.rejected c (Some u)) eqn:Hrej; [by rewrite Hbad|].
  assert (begun w0) as Hb by (apply begun_request, Hok).
  pose proof (login_accepted c u w0 Hok Hb (f_equal fst Ho) Hrej) as Hl. unfold awp in Hl.
  unfold auth_perform, run_request. fold w0. cbn [serve]. unfold answer, mbind, A_bind.
  destruct (LoginCommand.handle c w0) as [r w1]. destruct Hl as (g & n & n' & x & Hr & Hp & Hus & Hx & Hopen).
  cbn in Hr. subst r. exists g, n, n', x. by split_and!.
Qed.

(** ** Changing a password *)
Definition live_user (s : auth_store) (i : Z) : option User.t :=
  u ← users s !! i; if User.is_deleted u then None else Some u.

Lemma live_user_row s i u :
  accounts_ok s → live_user s i = Some u → users s !! i = Some u ∧ User.id u = i ∧ User.events u = [].
Proof.
  intros Hok Hu. destruct (user_row s i u Hok Hu) as (Hrow & Hid & _). rewrite Hid in Hrow.
  by destruct (ak_users _ Hok _ _ Hrow) as (_ & _ & He & _).
Qed.

Lemma change_password_accepted c w u :
  begun w → violated (aw_database w) = None →
  live_user (aw_database w) (jwt_id (ChangePasswordCommand.user_jwt_data c)) = Some u →
  ChangePasswordCommand.mismatch c u = false →
  awp (ChangePasswordCommand.handle c) w (λ r w', r = Ok tt ∧ ∃ salt,
    users (aw_database w') = <[User.id u := u <| User.password_hash := Some (crypt_hash salt (ChangePasswordCommand.new_password c)) |>]> (users (aw_database w))).
Proof.
  intros [Hs Hok] Hv Hu Hm. destruct (live_user_row _ _ _ Hok Hu) as (Hrow & Hid & Hev).
  unfold ChangePasswordCommand.handle, UserRepository.get_by_id, TokenBlacklistRepository.add_user,
    HashService.hash_password, save_user, apublish. cbn [default].
  apply awp_bind, awp_select. rewrite Hs. fold (live_user (aw_database w) (jwt_id (ChangePasswordCommand.user_jwt_data c))).
  rewrite Hu. apply awp_bind, awp_found; [intros ? [= <-]|done]. apply awp_bind, awp_refuse; [intros _|congruence].
  repeat xstep.
  - split; [done|]. eexists. cbn. rewrite Hs, (without_events _ _ Hev). reflexivity.
  - match goal with Hk : violated _ = Some _ |- _ => exfalso; revert Hk end.
    rewrite (violated_user (aw_database w) _ (User.id u) u (u <| User.password_hash := Some (crypt_hash
      (aw_secrets w (aw_secret_reads w)) (ChangePasswordCommand.new_password c)) |>)); try done.
    + by rewrite Hid.
    + cbn. by rewrite Hs, (without_events _ _ Hev).
    + cbn. by rewrite Hs.
    + cbn. by rewrite Hs.
    + cbn. by rewrite Hs.
Qed.

Lemma awp_triv {X} (m : A X) w (Q : result auth_error X → auth_world → Prop) : (∀ r w', Q r w') → awp m w Q.
Proof. intros HQ. apply HQ. Qed.

Lemma change_password_refused c w :
  begun w →
  let e := match live_user (aw_database w) (jwt_id (ChangePasswordCommand.user_jwt_data c)) with
           | None => Some NotFoundUserError
           | Some u => if ChangePasswordCommand.mismatch c u then Some PasswordMismatchError else None
           end in
  awp (ChangePasswordCommand.handle c) w (λ r w', ∀ e', e = Some e' → r = Err e' ∧ w' = w).
Proof.
  intros [Hs Hok]. cbv zeta. unfold ChangePasswordCommand.handle, UserRepository.get_by_id.
  apply awp_bind, awp_select. rewrite Hs. fold (live_user (aw_database w) (jwt_id (ChangePasswordCommand.user_jwt_data c))).
  destruct (live_user _ _) as [u|].
  - apply awp_bind, awp_found; [intros ? [= <-]|done].
    destruct (ChangePasswordCommand.mismatch c u) eqn:Hm; [|by apply awp_triv].
    apply awp_bind, awp_refuse; [congruence|]. by intros _ e' [= <-].
  - apply awp_bind, awp_found; [done|]. by intros _ e' [= <-].
Qed.

(** Changing a password, branch by branch, as the condition stands in the
    code: the new password takes effect when it is repeated and the old one
    given does {e not} verify; the right old password is refused, like a missing
    one or a mistyped repetition, and then nothing is changed. *)
Theorem change_password_outcome c w :
  accounts_sound (aw_database w) →
  let r := (auth_perform (ChangePassword c) w).1 in
  let w' := (auth_perform (ChangePassword c) w).2 in
  match live_user (aw_database w) (jwt_id (ChangePasswordCommand.user_jwt_data c)) with
  | None => r = Err NotFoundUserError ∧ w' = w <| aw_session := aw_database w |>
  | Some u =>
    if match User.password_hash u with
       | None => false
       | Some h => negb (crypt_verify (ChangePasswordCommand.old_password c) h)
       end && bool_decide (ChangePasswordCommand.new_password c = ChangePasswordCommand.new_password_repeat c)
    then r = Ok Done ∧ ∃ salt, users (aw_database w') =
      <[User.id u := u <| User.password_hash := Some (crypt_hash salt (ChangePasswordCommand.new_password c)) |>]> (users (aw_database w))
    else r = Err PasswordMismatchError ∧ w' = w <| aw_session := aw_database w |>
  end.
Proof.
  intros [Hok Hv]. cbv zeta. unfold auth_perform, run_request. set (w0 := w <| aw_session := aw_database w |>).
  pose proof (change_password_refused c w0 (begun_request w Hok)) as Hno.
  pose proof (change_password_accepted c w0) as Hyes. change (aw_database w0) with (aw_database w) in Hno, Hyes.
  unfold awp in Hno, Hyes. cbn [serve]. unfold quietly, answer, mbind, A_bind.
  destruct (ChangePasswordCommand.handle c w0) as [r w']. cbn [fst snd] in Hno, Hyes.
  destruct (live_user _ _) as [u|]; [|by destruct (Hno _ eq_refl) as [-> ->]].
  replace (_ && _) with (negb (ChangePasswordCommand.mismatch c u)).
  2:{ unfold ChangePasswordCommand.mismatch, HashService.verify_password. rewrite negb_orb, negb_involutive.
      by destruct (User.password_hash u). }
  destruct (ChangePasswordCommand.mismatch c u) eqn:Hm; cbn [negb]; [by destruct (Hno _ eq_refl) as [-> ->]|].
  destruct (Hyes u (begun_request w Hok) Hv eq_refl Hm) as [-> Hc]. done.
Qed.

(** ** Registration *)

(** the account a registration makes, as its row *)
Definition new_account (c : RegisterCommand.command) (i role : Z) (h : text) : User.t :=
  User.Mk i (RegisterCommand.email c) (RegisterCommand.username c) (Some h) true false None {[ role ]} ∅ [].

Lemma register_spec c w :
  begun w →
  awp (RegisterCommand.handle c) w (λ r w', ∀ u, r = Ok u → ∃ role h,
    u = new_account c (next_row_id (aw_database w)) (Role.id role) (crypt_hash h (RegisterCommand.password c))
    ∧ roles (aw_database w) !! Role.id role = Some role ∧ Role.name role = role_name STANDARD_USER
    ∧ RegisterCommand.password c = RegisterCommand.password_repeat c
    ∧ User.is_reserved_username (RegisterCommand.username c) = false
    ∧ aw_database w' = (aw_database w) <| next_row_id ::= Z.succ |> <| users ::= <[User.id u := u]> |>
        <| auth_outbox ::= (λ l, l ++ [CreatedUserEvent (RegisterCommand.email c) (RegisterCommand.username c)]) |>).
Proof.
  intros [Hs Hok]. unfold RegisterCommand.handle, UserRepository.get_by_email, UserRepository.is_username_taken,
    RoleRepository.get_with_permission_by_name, RoleRepository.get_by_name, HashService.hash_password, apublish.
  do 21 (try first [apply awp_catch|xstep]); try done.
  match goal with Hp : negb (bool_decide (_ = _)) = false |- _ => apply negb_false_iff, bool_decide_eq_true in Hp end.
  match goal with Hr : head _ = Some ?r |- _ => rewrite Hs in Hr; apply role_row in Hr as [Hrole Hname]; [|done] end.
  apply awp_create_user. cbv zeta. unfold User.pull_events. apply awp_bind, awp_write, awp_bind, awp_catch, awp_commit.
  - intros _. apply awp_ret. intros u [= <-]. exists a. eexists. split_and!; [|done..|].
    + change (aw_session (w <| aw_secret_reads ::= S |>)) with (aw_session w). rewrite Hs. reflexivity.
    + cbn. by rewrite Hs.
  - intros k _. cbn [RegisterCommand.duplicate]. apply awp_bind, awp_rollback.
    destruct (occurs _ _); [by apply awp_raise|]. destruct (occurs _ _); by apply awp_raise.
Qed.

Lemma register_request c w a :
  accounts_sound (aw_database w) → (auth_perform (Register c) w).1 = Ok a →
  ∃ role h, let u := new_account c (next_row_id (aw_database w)) (Role.id role) (crypt_hash h (RegisterCommand.password c)) in
    a = Account u ∧ roles (aw_database w) !! Role.id role = Some role ∧ Role.name role = role_name STANDARD_USER
    ∧ RegisterCommand.password c = RegisterCommand.password_repeat c
    ∧ User.is_reserved_username (RegisterCommand.username c) = false
    ∧ aw_database (auth_perform (Register c) w).2 = (aw_database w) <| next_row_id ::= Z.succ |> <| users ::= <[User.id u := u]> |>
        <| auth_outbox ::= (λ l, l ++ [CreatedUserEvent (RegisterCommand.email c) (RegisterCommand.username c)]) |>.
Proof.
  intros [Hok _] Ha. set (w0 := w <| aw_session := aw_database w |>).
  destruct (perform_Ok Account _ (Register c) w a eq_refl Ha) as (u & w1 & Hx & -> & ->). fold w0 in Hx.
  pose proof (register_spec c w0 (begun_request w Hok)) as Hr. unfold awp in Hr. rewrite Hx in Hr.
  destruct (Hr u eq_refl) as (role & h & -> & ? & ? & ? & ? & Hdb). exists role, h. by split_and!.
Qed.

(** the one row a unique column finds *)
Lemma get_where_unique {B} `{EqDecision B} (f : User.t → B) s i u :
  accounts_ok s → repeated f (users s) = false → users s !! i = Some u → User.is_deleted u = false →
  UserRepository.get_where (λ v, bool_decide (f v = f u)) s = Some u.
Proof.
  intros Hok Hr Hu Hd. destruct (UserRepository.get_where _ s) as [v|] eqn:Hv.
  - destruct (get_where_Some _ _ _ Hok Hv) as (Hrow & _ & Hf%bool_decide_eq_true).
    pose proof (repeated_false f _ _ _ _ _ Hr Hrow Hu Hf) as Hi. congruence.
  - exfalso. unfold UserRepository.get_where in Hv. apply (head_filter_None _ _ Hv _ _ Hu).
    by rewrite bool_decide_true, Hd.
Qed.

(** A registration that returns made one account and announced it: under a
    fresh id, with the address and name asked for, the built-in role for users
    and no other right, not yet verified. It can log in at once, by its address
    or its name, with the password given - and with no other. *)
Theorem register_then_login `{!HashContextLaws H} c w a l :
  accounts_sound (aw_database w) → (auth_perform (Register c) w).1 = Ok a →
  64 ∈ RegisterCommand.email c → 64 ∉ RegisterCommand.username c →
  LoginCommand.username l = RegisterCommand.email c ∨ LoginCommand.username l = RegisterCommand.username c →
  let w' := (auth_perform (Register c) w).2 in
  ∃ role h, let u := new_account c (next_row_id (aw_database w)) (Role.id role) h in
    a = Account u ∧ roles (aw_database w) !! Role.id role = Some role ∧ Role.name role = role_name STANDARD_USER
    ∧ aw_database w' = (aw_database w) <| next_row_id ::= Z.succ |> <| users ::= <[User.id u := u]> |>
        <| auth_outbox ::= (λ l, l ++ [CreatedUserEvent (RegisterCommand.email c) (RegisterCommand.username c)]) |>
    ∧ if bool_decide (LoginCommand.password l = RegisterCommand.password c) then
        ∃ g now now' x w'', auth_perform (Login l) w' = (Ok (Tokens g), w'')
          ∧ pair_of (create_from_user (aw_database w'') u (Session.device_id x)) now now' g
          ∧ sessions (aw_database w'') !! Session.id x = Some (x <| Session.events := [] |>)
      else (auth_perform (Login l) w').1 = Err (WrongLoginDataError (LoginCommand.username l)).
Proof.
  intros Hok Ha Hat Hname Hl w'. destruct (register_request c w a Hok Ha) as (role & h & Hacc & Hrole & Hrn & _ & _ & Hdb).
  pose proof (perform_sound (Register c) w Hok) as Hok'. fold w' in Hok', Hdb.
  exists role, (crypt_hash h (RegisterCommand.password c)). set (u := new_account _ _ _ _) in *.
  split_and!; [done|done|done|exact Hdb|].
  set (w0 := w' <| aw_session := aw_database w' |>).
  assert (users (aw_database w') !! User.id u = Some u) as Hrow by (rewrite Hdb; apply lookup_insert_eq).
  destruct Hok' as [Hok1 Hv1]. pose proof (violated_None _ Hv1) as (He & Hn & _).
  assert (LoginCommand.find_user l w0 = (Ok (Some u), w0)) as Hfind.
  { unfold LoginCommand.find_user. destruct Hl as [-> | ->].
    - rewrite bool_decide_true by done.
      change ((Ok (UserRepository.get_where (λ v, bool_decide (User.email v = User.email u)) (aw_database w')), w0) = (Ok (Some u), w0) :> result auth_error _ * _).
      by rewrite (get_where_unique User.email _ _ _ Hok1 He Hrow).
    - rewrite bool_decide_false by done.
      change ((Ok (UserRepository.get_where (λ v, bool_decide (User.username v = User.username u)) (aw_database w')), w0) = (Ok (Some u), w0) :> result auth_error _ * _).
      by rewrite (get_where_unique User.username _ _ _ Hok1 Hn Hrow). }
  assert (LoginCommand.rejected l (Some u) = negb (bool_decide (LoginCommand.password l = RegisterCommand.password c))) as Hrej.
  { unfold LoginCommand.rejected, HashService.verify_password. cbn. by rewrite crypt_verify_hash. }
  unfold auth_perform, run_request. fold w0. cbn [serve]. unfold answer, mbind, A_bind. case_bool_decide.
  - pose proof (login_accepted l u w0 (conj Hok1 Hv1) (begun_request w' Hok1) (f_equal fst Hfind) Hrej) as Hlog. unfold awp in Hlog.
    destruct (LoginCommand.handle l w0) as [r w1]. destruct Hlog as (g & n & n' & x & Hr & Hp & _ & Hx & _).
    cbn in Hr. subst r. by exists g, n, n', x, (w1 <| aw_session := aw_database w1 |>).
  - unfold LoginCommand.handle, mbind, A_bind. rewrite Hfind. unfold arefuse. by rewrite Hrej.
Qed.

(** C31: Nobody lifts themselves, or anyone, to their own level: when an
    administrator makes or changes a role, gives one to a user or takes one,
    every role involved is below the level in the administrator's token, before
    and after.
    The one exception is a removal of permissions - from a role by its name, or
    of a permission altogether - for which no level is compared: then roles of
    any level may lose permissions, but only those asked for (and only the role
    named, if one is named), no role gains anything or changes otherwise, and every
    user has the roles they had. *)
Theorem no_escalation r j w :
  accounts_sound (aw_database w) → administrator r = Some j →
  within_rank r (jwt_security_level j) (aw_database w) (aw_database (auth_perform r w).2).
Proof.
  intros [Hok _] Hj. pose proof (serve_ranked r j _ (begun_request w Hok) Hj) as Hr. unfold awp in Hr.
  unfold auth_perform, run_request. destruct (serve r _) as [res w']. cbn in Hr |- *.
  destruct Hr as [->|Hr]; [exact (within_rank_refl r _ _)|exact Hr].
Qed.
End theorems.

(** ** The theorems at work in the sample installation *)

Definition gives_tokens (r : result auth_error auth_answer) : bool :=
  match r with Ok (Tokens _) => true | _ => false end.
Lemma gave_tokens r : gives_tokens r = true → ∃ g, r = Ok (Tokens g).
Proof. destruct r as [[]|]; try discriminate. by eexists. Qed.
Lemma gave_answer r : gives_tokens r = true → r = Ok (match r with Ok a => a | Err _ => Done end).
Proof. by destruct r. Qed.

(** A reset is forgotten. The mark a reset leaves lasts sixty days, but
    when an administrator changes the user's roles the same key is written for
    six minutes only; after those, a refresh token from before the reset is
    exchanged for a new pair. *)
Theorem reset_forgotten :
  let w := auth_history (promote :: a_while) reset_world in
  (auth_perform (ResetPassword reset_alice) code_sent).1 = Ok Done
  ∧ tok_iat claims < aw_clock code_sent (aw_ticks code_sent)
  ∧ (∃ e, (auth_perform refresh_alice reset_world).1 = Err e)
  ∧ ∃ g, (auth_perform refresh_alice w).1 = Ok (Tokens g).
Proof.
  intros w. split; [by vm_compute|]. split; [by vm_compute|]. split.
  - exists TokenInBlacklistError. by vm_compute.
  - apply gave_tokens. by vm_compute.
Qed.

Lemma accounts_stay_sound_witness :
  accounts_ok (aw_database (auth_history [Register alice; Login alice_in; promote] opening)).
Proof.
  destruct (accounts_stay_sound [Register alice; Login alice_in; promote] opening installed_sound) as [Hok _].
  exact Hok.
Defined.

Lemma token_used_once_witness :
  ∃ e, (auth_perform refresh_alice (auth_history a_while (auth_perform refresh_alice entered_world).2)).1 = Err e.
Proof.
  apply (token_used_once a_while entered_world (tg_refresh_token pair) claims 0 refresh_alice (answer_of refresh_alice entered_world)).
  - exact entered_forward.
  - by vm_compute.
  - by vm_compute.
  - by vm_compute.
  - by left.
  - apply gave_answer. by vm_compute.
  - apply a_while_unrivalled.
  - by vm_compute.
Defined.

Lemma reset_password_effect_witness :
  let w' := (auth_perform (ResetPassword reset_alice) code_sent).2 in
  (auth_perform (ResetPassword reset_alice) w').1 = Err (InvalidTokenError (Some (ResetPasswordCommand.token reset_alice))).
Proof.
  refine (proj2 (reset_password_effect reset_alice reset_alice code_sent Done code_sent_sound code_sent_forward _ eq_refl)).
  by vm_compute.
Defined.

Lemma reset_revokes_tokens_witness :
  let w' := auth_history bob_promoted (auth_perform (ResetPassword reset_alice) code_sent).2 in
  (User.roles <$> users (aw_database w') !! bob_id) = Some {[ 1; 3 ]}
  ∧ ∃ e, (auth_perform (Refresh (RefreshTokenCommand.Mk (Some (tg_refresh_token pair)))) w').1 = Err e.
Proof.
  split; [by vm_compute|].
  refine (reset_revokes_tokens reset_alice code_sent Done 4 (tg_refresh_token pair) claims 0 bob_promoted
    code_sent_sound code_sent_forward _ _ _ _ _ _ bob_promoted_regrants _); by vm_compute.
Defined.

Definition mistyped : LoginCommand.command := LoginCommand.Mk (u8 "alice") (u8 "rose") (u8 "browser") (u8 "::1").

Lemma login_outcome_witness :
  gives_tokens (auth_perform (Login alice_in) joined).1 = true
  ∧ let c := mistyped in
    let w0 := joined <| aw_session := aw_database joined |> in
    let w' := (auth_perform (Login c) joined).2 in
    match (LoginCommand.find_user c w0).1 with
    | Ok (Some u) =>
      if LoginCommand.rejected c (Some u) then
        (auth_perform (Login c) joined).1 = Err (WrongLoginDataError (LoginCommand.username c)) ∧ w' = w0
      else ∃ g now now' x,
        (auth_perform (Login c) joined).1 = Ok (Tokens g)
        ∧ pair_of (create_from_user (aw_database w') u (Session.device_id x)) now now' g
        ∧ users (aw_database w') = users (aw_database joined)
        ∧ sessions (aw_database w') !! Session.id x = Some (x <| Session.events := [] |>)
        ∧ open_on (User.id u) (di_device_id (generate_device_info (LoginCommand.user_agent c))) x
    | _ => (auth_perform (Login c) joined).1 = Err (WrongLoginDataError (LoginCommand.username c)) ∧ w' = w0
    end.
Proof. split; [by vm_compute|]. exact (login_outcome mistyped joined joined_sound). Defined.

(** alice's right password, and a wrong one, for a change to "iris" *)
Definition change_to_iris (old : text) : ChangePasswordCommand.command :=
  ChangePasswordCommand.Mk old (u8 "iris") (u8 "iris") (MkJWT 4 (u8 "alice") [] [] 1 []).

Lemma change_password_outcome_witness :
  let c := change_to_iris (u8 "tulip") in
  (auth_perform (ChangePassword (change_to_iris (u8 "rose"))) joined).1 = Ok Done
  ∧ let r := (auth_perform (ChangePassword c) joined).1 in
    let w' := (auth_perform (ChangePassword c) joined).2 in
    match live_user (aw_database joined) (jwt_id (ChangePasswordCommand.user_jwt_data c)) with
    | None => r = Err NotFoundUserError ∧ w' = joined <| aw_session := aw_database joined |>
    | Some u =>
      if match User.password_hash u with
         | None => false
         | Some h => negb (crypt_verify (ChangePasswordCommand.old_password c) h)
         end && bool_decide (ChangePasswordCommand.new_password c = ChangePasswordCommand.new_password_repeat c)
      then r = Ok Done ∧ ∃ salt, users (aw_database w') =
        <[User.id u := u <| User.password_hash := Some (crypt_hash salt (ChangePasswordCommand.new_password c)) |>]> (users (aw_database joined))
      else r = Err PasswordMismatchError ∧ w' = joined <| aw_session := aw_database joined |>
    end.
Proof.
  split; [by vm_compute|]. exact (change_password_outcome (change_to_iris (u8 "tulip")) joined joined_sound).
Defined.

Lemma register_then_login_witness :
  ∃ role h, let u := new_account alice (next_row_id (aw_database opening)) (Role.id role) h in
    Account u = answer_of (Register alice) opening ∧ roles (aw_database opening) !! Role.id role = Some role.
Proof.
  destruct (register_then_login alice opening (answer_of (Register alice) opening) alice_in installed_sound)
    as (role & h & Ha & Hr & _).
  - by vm_compute.
  - apply (bool_decide_unpack _). by vm_compute.
  - apply (bool_decide_unpack _). by vm_compute.
  - by right.
  - exists role, h. split; [symmetry; exact Ha|exact Hr].
Defined.

Lemma no_escalation_witness :
  within_rank promote 10 (aw_database code_sent) (aw_database (auth_perform promote code_sent).2).
Proof. exact (no_escalation promote admin code_sent code_sent_sound eq_refl). Defined.

(** A caller of level 1 who may update roles takes a permission from the role
    above all others. *)
Example higher_role_stripped :
  let w := opening <| aw_database ::= (λ s, s <| permissions := {[ 7 := "user:delete"%string ]} |>
                        <| roles ::= alter (λ r, r <| Role.permissions := {[ 7 ]} |>) 2 |>) |> in
  let clerk := MkJWT 9 (u8 "clerk") [] ["role:update"%string] 1 [] in
  let cmd := DeletePermissionRoleCommand.Mk (role_name SUPER_ADMIN) {[ "user:delete"%string ]} clerk in
  let '(r, w') := auth_perform (DeletePermissionRole cmd) w in
  r = Ok Done ∧ (λ r, (Role.security_level r, Role.permissions r)) <$> roles (aw_database w') !! 2 = Some (10, ∅).
Proof. vm_compute. split; reflexivity. Qed.
