(* ===== verification/SignInSpec.v ===== *)
(** What a sign-in through another provider rests on: the address the provider vouches for, and the user name generated for a new account. *)
From S2P Require Import Prelude Rbac WsModel AuthModel OAuthProviders AuthStore AuthServices AuthWp.

Section providers.
Context `{Httpx}.

(** the answer to a request with the access token carries address [email] as
    the provider's users prove it *)
Definition vouched (p : OAuthProvider.t) (access_token email : text) : Prop :=
  match OAuthProvider.class p with
  | OAuthGoogle => ∃ user verified s,
      http_get (userinfo_url (OAuthProvider.config p)) [OAuthProvider.bearer "Bearer" access_token] = Some user
      ∧ json_get user "email" = Ok (JStr s) ∧ email_str s = Some email
      ∧ json_get user "email_verified" = Ok verified ∧ OAuthProvider._as_bool verified = true
  | OAuthYandex => ∃ user s,
      http_get (userinfo_url (OAuthProvider.config p)) [OAuthProvider.bearer "OAuth" access_token] = Some user
      ∧ email_str s = Some email
      ∧ (json_get user "default_email" = Ok (JStr s)
         ∨ ∃ emails, json_get user "emails" = Ok emails ∧ OAuthProvider.first_email emails = Ok (JStr s))
  | OAuthGithub => ∃ entries entry value verified s,
      http_get (u8 "https://api.github.com/user/emails")
        [OAuthProvider.bearer "Bearer" access_token; ("Accept"%string, u8 "application/vnd.github+json")] = Some (JList entries)
      ∧ entry ∈ entries ∧ json_get entry "email" = Ok value ∧ truthy value = true ∧ str_json value = Ok s
      ∧ email_str s = Some email ∧ json_get entry "verified" = Ok verified ∧ truthy verified = true
  end.

Lemma oauth_data_email i e u d :
  OAuthProvider.oauth_data i e u = Ok d → ∃ s, e = JStr s ∧ email_str s = Some (od_email d).
Proof.
  unfold OAuthProvider.oauth_data. intros Hd. apply result_bind_Ok in Hd as (i' & _ & Hd).
  apply result_bind_Ok in Hd as (s & Hs & Hd). apply result_bind_Ok in Hd as (e' & He & Hd).
  apply result_bind_Ok in Hd as (u' & _ & [= <-]). destruct e; try discriminate Hs. injection Hs as ->.
  exists s. split; [done|]. destruct (email_str s); [|discriminate He]. by injection He as ->.
Qed.

Lemma response_Ok o j : OAuthProvider.response o = Ok j → o = Some j.
Proof. destruct o; [by intros [= ->]|done]. Qed.

Lemma require_Ok p e v e' : OAuthProvider._require_verified_email p e v = Ok e' → e' = e ∧ v = true ∧ truthy e = true.
Proof.
  unfold OAuthProvider._require_verified_email. destruct (truthy e), v; cbn; try discriminate. by intros [= ->].
Qed.

Lemma google_vouched p tok d :
  OAuthProvider.class p = OAuthGoogle → OAuthProvider.google_user_info p tok = Ok d → vouched p tok (od_email d).
Proof.
  intros Hc. unfold OAuthProvider.google_user_info, vouched. rewrite Hc. intros Hd.
  apply result_bind_Ok in Hd as (user & Hu%response_Ok & Hd). apply result_bind_Ok in Hd as (sub & _ & Hd).
  apply result_bind_Ok in Hd as (e & He & Hd). apply result_bind_Ok in Hd as (v & Hv & Hd).
  apply result_bind_Ok in Hd as (e' & (-> & Hver & _)%require_Ok & Hd). apply result_bind_Ok in Hd as (n & _ & Hd).
  apply oauth_data_email in Hd as (s & -> & Hs). by exists user, v, s.
Qed.

Lemma yandex_vouched p tok d :
  OAuthProvider.class p = OAuthYandex → OAuthProvider.yandex_user_info p tok = Ok d → vouched p tok (od_email d).
Proof.
  intros Hc. unfold OAuthProvider.yandex_user_info, vouched. rewrite Hc. intros Hd.
  apply result_bind_Ok in Hd as (user & Hu%response_Ok & Hd). apply result_bind_Ok in Hd as (emails & Hem & Hd).
  apply result_bind_Ok in Hd as (def & Hdef & Hd). apply result_bind_Ok in Hd as (e & He & Hd).
  apply result_bind_Ok in Hd as (i & _ & Hd). apply result_bind_Ok in Hd as (e' & (-> & _ & Ht)%require_Ok & Hd).
  apply result_bind_Ok in Hd as (l & _ & Hd). apply result_bind_Ok in Hd as (n & _ & Hd).
  apply oauth_data_email in Hd as (s & -> & Hs). exists user, s. split_and!; [done|done|].
  destruct (truthy def); [injection He as ->; by left|right]. exists emails. split; [done|]. revert He.
  unfold OAuthProvider.either. destruct (truthy emails) eqn:Htr; [done|].
  unfold OAuthProvider.first_email at 1. cbn. by intros [= <-].
Qed.

Lemma verified_emails_spec l v e :
  OAuthProvider.verified_emails l = Ok v → e ∈ v →
  e ∈ l ∧ ∃ a b, json_get e "email" = Ok a ∧ truthy a = true ∧ json_get e "verified" = Ok b ∧ truthy b = true.
Proof.
  revert v. induction l as [|x l IH]; intros v; cbn [OAuthProvider.verified_emails]; [intros [= <-]; set_solver|].
  intros Hv. apply result_bind_Ok in Hv as (a & Ha & Hv). apply result_bind_Ok in Hv as (b & Hb & Hv).
  apply result_bind_Ok in Hv as (rest & Hrest & [= <-]).
  destruct (truthy a && truthy b) eqn:Hab.
  - intros [->|He]%elem_of_cons.
    + apply andb_true_iff in Hab as [? ?]. split; [set_solver|]. by exists a, b.
    + destruct (IH _ Hrest He) as [? ?]. split; [set_solver|done].
  - intros He. destruct (IH _ Hrest He) as [? ?]. split; [set_solver|done].
Qed.

Lemma primary_email_in l o : OAuthProvider.primary_email l = Ok o → ∀ e, o = Some e → e ∈ l.
Proof.
  revert o. induction l as [|x l IH]; intros o; cbn [OAuthProvider.primary_email]; [by intros [= <-]|].
  intros Ho. apply result_bind_Ok in Ho as (b & _ & Ho). destruct (truthy b); [|by intros e He; right; eapply IH].
  injection Ho as <-. intros e [= <-]. set_solver.
Qed.

Lemma item_get j k v : json_item j k = Ok v → json_get j k = Ok v.
Proof. destruct j; try done. cbn. unfold json_get. cbn. destruct (field fields k); [|done]. by intros [= ->]. Qed.

Lemma github_vouched p tok d :
  OAuthProvider.class p = OAuthGithub → OAuthProvider.github_user_info p tok = Ok d → vouched p tok (od_email d).
Proof.
  intros Hc. unfold OAuthProvider.github_user_info, vouched. rewrite Hc. cbv zeta. intros Hd.
  apply result_bind_Ok in Hd as (user & _ & Hd). apply result_bind_Ok in Hd as (i & _ & Hd).
  apply result_bind_Ok in Hd as (i' & _ & Hd). apply result_bind_Ok in Hd as (e & He & Hd).
  apply result_bind_Ok in Hd as (l & _ & Hd). apply oauth_data_email in Hd as (s & [= ->] & Hs).
  unfold OAuthProvider._get_email in He. apply result_bind_Ok in He as (js & Hj%response_Ok & He).
  apply result_bind_Ok in He as (_ & _ & He). apply result_bind_Ok in He as (entries & Hen & He).
  destruct js; try discriminate Hen. injection Hen as ->.
  apply result_bind_Ok in He as (v & Hv & He). destruct v as [|first v]; [discriminate He|].
  apply result_bind_Ok in He as (found & Hf & He). apply result_bind_Ok in He as (value & Hval & He).
  assert (default first found ∈ first :: v) as Hin.
  { destruct found as [x|]; cbn; [by eapply primary_email_in|set_solver]. }
  destruct (verified_emails_spec _ _ _ Hv Hin) as (Hentry & a & b & Ha & Hta & Hb & Htb).
  apply item_get in Hval. assert (a = value) as -> by congruence.
  exists entries, (default first found), value, b, s. by split_and!.
Qed.

(** C32: Whoever signs in through another provider does so under an address the
    provider answered with for this very token, and - for Google and GitHub -
    marked as verified; nothing else makes a callback succeed. *)
Theorem sign_in_address_vouched factory name code d :
  OAuthManagerImpl.process_callback factory name code = Ok d →
  ∃ p token, factory !! name = Some p ∧ OAuthProvider.exchange_code_for_token p code = Ok token
    ∧ vouched p (ot_access_token token) (od_email d).
Proof.
  unfold OAuthManagerImpl.process_callback. intros Hd. apply result_bind_Ok in Hd as (p & Hp & Hd).
  unfold OAuthProviderFactory.get_provider in Hp. destruct (factory !! name) as [q|] eqn:Hq; [|discriminate Hp].
  injection Hp as ->. exists p.
  destruct (OAuthProvider.exchange_code_for_token p code) as [token|[]] eqn:Htok; [|discriminate Hd..].
  exists token. split_and!; [done|done|]. cbn in Hd. unfold OAuthProvider.get_user_info in Hd.
  destruct (OAuthProvider.class p) eqn:Hc; [set (r := OAuthProvider.google_user_info _ _) in *
    |set (r := OAuthProvider.yandex_user_info _ _) in *|set (r := OAuthProvider.github_user_info _ _) in *];
    destruct r as [x|[]] eqn:Hr; try discriminate Hd; injection Hd as ->;
    [by apply google_vouched|by apply yandex_vouched|by apply github_vouched].
Qed.
End providers.

(** ** A provider that answers *)
Definition github : OAuthProvider.t :=
  OAuthProvider.Mk OAuthGithub "github" (MkProviderConfig (u8 "id") (u8 "secret") (u8 "back") (u8 "auth") (u8 "token") (u8 "user")).
#[local] Instance answering : Httpx := {|
  urlencode := λ _, [];
  http_post := λ _ _ _, Some (JObj [("access_token"%string, JStr (u8 "t"))]);
  http_get := λ url _,
    if bool_decide (url = u8 "user") then Some (JObj [("id"%string, JInt 7)])
    else Some (JList [JObj [("email"%string, JStr (u8 "a@b")); ("verified"%string, JBool false)];
                      JObj [("email"%string, JStr (u8 "c@d")); ("verified"%string, JBool true)]]);
  email_str := Some;
|}.
Definition the_factory : OAuthProviderFactory.t := {[ "github"%string := github ]}.

Lemma sign_in_address_vouched_witness :
  ∃ p token, the_factory !! "github"%string = Some p ∧ OAuthProvider.exchange_code_for_token p (u8 "code") = Ok token
    ∧ vouched p (ot_access_token token) (u8 "c@d").
Proof.
  exact (sign_in_address_vouched the_factory "github" (u8 "code") (MkOAuthData (u8 "7") (u8 "c@d") None) eq_refl).
Defined.

Import UsernameGenerator.

(** ** Normalisation *)
Definition plain_name (s : text) : Prop :=
  Forall (λ c, allowed c = true) s ∧ (∀ c, head s = Some c → trimmed c = false)
  ∧ (∀ c, list.last s = Some c → trimmed c = false).

Lemma ltrim_suffix s : ∃ p, s = p ++ ltrim s.
Proof.
  induction s as [|c s [p Hp]]; [by exists []|]. cbn. destruct (trimmed c); [|by exists []].
  exists (c :: p). by rewrite Hp at 1.
Qed.
Lemma ltrim_head s c : head (ltrim s) = Some c → trimmed c = false.
Proof.
  induction s as [|d s IH]; cbn; [done|]. destruct (trimmed d) eqn:Hd; [done|]. by intros [= <-].
Qed.

Lemma ltrim_forall (P : Z → Prop) s : Forall P s → Forall P (ltrim s).
Proof. destruct (ltrim_suffix s) as [p Hp]. rewrite Hp at 1. by intros [_ ?]%Forall_app. Qed.
Lemma trim_forall (P : Z → Prop) s : Forall P s → Forall P (trim s).
Proof. intros Hs. unfold trim. apply Forall_reverse, ltrim_forall, Forall_reverse, ltrim_forall, Hs. Qed.

Lemma trim_length s : (length (trim s) ≤ length s)%nat.
Proof.
  unfold trim. rewrite length_reverse.
  destruct (ltrim_suffix (reverse (ltrim s))) as [p Hp], (ltrim_suffix s) as [q Hq].
  pose proof (f_equal length Hp) as H1. pose proof (f_equal length Hq) as H2.
  rewrite length_app, ?length_reverse in *. lia.
Qed.

Lemma trim_last s c : list.last (trim s) = Some c → trimmed c = false.
Proof. unfold trim. rewrite last_reverse. apply ltrim_head. Qed.

(** the right end goes without touching the left one *)
Lemma trim_head s c : head (trim s) = Some c → trimmed c = false.
Proof.
  unfold trim. destruct (ltrim_suffix (reverse (ltrim s))) as [p Hp].
  pose proof (f_equal reverse Hp) as Hr. rewrite reverse_involutive, reverse_app in Hr.
  intros Hc. apply (ltrim_head s). rewrite Hr.
  destruct (reverse (ltrim (reverse (ltrim s)))); [done|]. exact Hc.
Qed.

Lemma squeeze_forall (P : Z → Prop) s : Forall P s → Forall P (squeeze s).
Proof. induction 1 as [|c s Hc _ IH]; cbn; [done|]. destruct (_ && _); [done|by constructor]. Qed.

Lemma normalized_length raw : (length (normalize_username raw) ≤ BASE_MAX_LENGTH)%nat.
Proof.
  unfold normalize_username. destruct raw as [[|c raw]|]; [cbn; lia| |cbn; lia].
  etrans; [apply trim_length|]. rewrite length_take. lia.
Qed.

(** A normalised name has at most [BASE_MAX_LENGTH] characters, all of them
    letters, digits or one of the separators, and neither begins nor ends with
    a separator - whatever it was made from. *)
Theorem normalized_name raw :
  plain_name (normalize_username raw) ∧ (length (normalize_username raw) ≤ BASE_MAX_LENGTH)%nat.
Proof.
  split; [|apply normalized_length].
  unfold normalize_username. destruct raw as [[|c raw]|]; [by repeat split| |by repeat split].
  set (cleaned := _ <$> _). assert (Forall (λ c, allowed c = true) cleaned) as Hall.
  { apply Forall_fmap, list.Forall_forall. intros d _. cbn. by destruct (allowed d) eqn:Hd. }
  split; [|split; intros d; [apply trim_head|apply trim_last]].
  apply trim_forall, Forall_take, trim_forall, squeeze_forall, Hall.
Qed.

(** ** Generation *)
Definition free (s : auth_store) (n : text) : Prop :=
  User.is_reserved_username n = false
  ∧ ∀ i u, users s !! i = Some u → lower (User.username u) ≠ lower n.

Lemma awp_is_free n w (Q : result auth_error bool → auth_world → Prop) :
  (∀ b, (b = true → free (aw_session w) n) → Q (Ok b) w) → awp (_is_free n) w Q.
Proof.
  intros HQ. unfold _is_free, UserRepository.is_username_taken.
  destruct (User.is_reserved_username n) eqn:Hr; [by apply awp_ret, HQ|].
  apply awp_bind, awp_select, awp_ret, HQ. intros Hn%negb_true_iff%not_true_iff_false. split; [done|].
  intros i u Hu Heq. apply Hn, existsb_exists. exists u. split.
  - apply list_elem_of_In, list_elem_of_fmap. exists (i, u). split; [done|]. by apply elem_of_map_to_list.
  - by rewrite bool_decide_true.
Qed.

(** [n] candidates drawn from the reads to come *)
Lemma awp_candidates n base w (Q : result auth_error text → auth_world → Prop) :
  (length base ≤ BASE_MAX_LENGTH)%nat →
  (∀ k, (aw_secret_reads w ≤ k < aw_secret_reads w + n)%nat → length (aw_secrets w k) = 6%nat) →
  (∀ name w', same_tables w w' → (length name ≤ MAX_LENGTH)%nat →
     (free (aw_session w) name ∨ ∃ u, name = take MAX_LENGTH (base ++ 45 :: hex 32 u)) → Q (Ok name) w') →
  awp (candidates n base) w Q.
Proof.
  intros Hb Hlen HQ. assert (∀ w1, same_tables w w1 → aw_secrets w1 = aw_secrets w →
    (aw_secret_reads w + n = aw_secret_reads w1 + n)%nat → awp (candidates n base) w1 Q) as Hgo.
  2:{ by apply Hgo. }
  revert Hlen. generalize (aw_secret_reads w). induction n as [|n IH]; intros r Hlen w1 Hw Hsec Hr; cbn [candidates].
  { apply awp_bind. unfold awp, uuid4. cbn -[hex take]. apply HQ; [done|rewrite length_take; lia|right; eauto]. }
  apply awp_bind. unfold awp at 1, secret at 1 2. cbn [fst snd].
  set (w2 := w1 <| aw_secret_reads ::= S |>). assert (r = aw_secret_reads w1) as -> by lia.
  apply awp_bind, awp_is_free. intros [] Hfree.
  - apply awp_ret, HQ; [done| |left; destruct Hw as [<- _]; by apply Hfree].
    rewrite length_app, length_cons, Hsec, Hlen by lia. unfold BASE_MAX_LENGTH, MAX_LENGTH in *. lia.
  - apply (IH (aw_secret_reads w2)); [|done|done|done]. intros k Hk. apply Hlen. cbn in Hk. lia.
Qed.

Lemma base_length p e : (length (base_name p e) ≤ BASE_MAX_LENGTH)%nat.
Proof.
  unfold base_name. pose proof (normalized_length p) as H1.
  pose proof (normalized_length (Some (partition 64 e).1.1)) as H2.
  destruct (normalize_username p); [|done]. destruct (normalize_username _); [by apply Nat.leb_le|done].
Qed.

(** The generator always gives a name, of at most [MAX_LENGTH] characters -
    three random bytes being six digits - and leaves the tables alone. The name
    is not reserved and, up to case, nobody has it; or five candidates were
    taken, and it ends in a random UUID. *)
Theorem generated_name p e w :
  (∀ k, (aw_secret_reads w ≤ k < aw_secret_reads w + attempts)%nat → length (aw_secrets w k) = 6%nat) →
  ∃ name w', generate p e w = (Ok name, w') ∧ same_tables w w' ∧ (length name ≤ MAX_LENGTH)%nat
    ∧ (free (aw_session w) name ∨ ∃ u, name = take MAX_LENGTH (base_name p e ++ 45 :: hex 32 u)).
Proof.
  intros Hlen. pose proof (base_length p e) as Hb.
  assert (awp (generate p e) w (λ r w', ∃ name, r = Ok name ∧ same_tables w w' ∧ (length name ≤ MAX_LENGTH)%nat
    ∧ (free (aw_session w) name ∨ ∃ u, name = take MAX_LENGTH (base_name p e ++ 45 :: hex 32 u)))) as Hg.
  { unfold generate. cbv zeta. apply awp_bind.
    assert (∀ b, (b = true → free (aw_session w) (base_name p e)) →
      awp (if b : bool then mret (base_name p e) else candidates attempts (base_name p e)) w (λ r w', ∃ name, r = Ok name
        ∧ same_tables w w' ∧ (length name ≤ MAX_LENGTH)%nat
        ∧ (free (aw_session w) name ∨ ∃ u, name = take MAX_LENGTH (base_name p e ++ 45 :: hex 32 u)))) as Hrest.
    { intros [] Hf.
      - apply awp_ret. exists (base_name p e). split_and!; [done..| |left; by apply Hf].
        unfold BASE_MAX_LENGTH, MAX_LENGTH in *. lia.
      - apply awp_candidates; [done|done|]. intros name w' Hs Hl Hn. by exists name. }
    destruct (MIN_LENGTH <=? len (base_name p e)); [apply awp_is_free; intros b Hf; by apply Hrest|].
    apply awp_ret, (Hrest false). done. }
  unfold awp in Hg. destruct (generate p e w) as [r w']. destruct Hg as (name & Hr & Hg). cbn in Hr. subst r.
  by exists name, w'.
Qed.

(** ** A world to draw from *)
Definition drawing : auth_world :=
  MkAuthWorld empty_auth_store empty_auth_store ∅ (λ n, Z.of_nat n) 0 Z.of_nat 0 (λ _, [97; 98; 99; 100; 101; 102]) 0 [].

Lemma generated_name_witness :
  ∃ name w', generate (Some (u8 "Anna-Maria ")) (u8 "a@b.c") drawing = (Ok name, w') ∧ same_tables drawing w'
    ∧ (length name ≤ MAX_LENGTH)%nat
    ∧ (free (aw_session drawing) name ∨ ∃ u, name = take MAX_LENGTH (base_name (Some (u8 "Anna-Maria ")) (u8 "a@b.c") ++ 45 :: hex 32 u)).
Proof. apply (generated_name (Some (u8 "Anna-Maria ")) (u8 "a@b.c") drawing). by intros k _. Defined.
