(* ===== verification/ProfileModel.v ===== *)
(** Profiles, their photos, contacts, block lists and privacy settings
    ([app/profiles/config.py], [exceptions.py] and [models]). An [AvatarMap] is
    a dict by size of dicts by format, in insertion order; a date is opaque. *)
From S2P Require Import Prelude Events PrivacyModel WsModel.

Module profile_config.
Definition AVATAR_MAX_SIZE : Z := 5 * 1024 * 1024.
Definition AVATAR_MAX_PIXELS : Z := 10000000.
Definition AVATAR_ALLOWED_MIMES : list string := ["image/jpeg"; "image/png"; "image/webp"]%string.
Definition PENDING_AVATAR_BUCKET : string := "pending-avatar".
Definition AVATAR_BUCKET : string := "profiles".
Definition MAX_PROFILE_PHOTOS : Z := 10.
Definition MAX_LEN_SKILL_NAME : Z := 30.
Definition MAX_LEN_BIO : Z := 1024.
Definition MAX_LEN_DISPLAY_NAME : Z := 100.
Definition USER_VERIFIED_EVENT : string := "auth.user.verified".
Definition USERNAME_CHANGED_EVENT : string := "auth.user.username_changed".
Definition MAX_CONTACTS_PER_USER : Z := 5000.
Definition MAX_LEN_CONTACT_NAME : Z := 64.
Definition MAX_LEN_EMAIL : Z := 320.
Definition CONTACT_OWNER_PERMISSIONS : gset string := {[ "profile:update"; "user:update" ]}%string.
Definition CONTACTS_IMPORT_MAX_BATCH : Z := 500.
Definition CONTACTS_NEW_IDENTIFIERS_PER_DAY : Z := 5000.
Definition IDENTIFIER_QUOTA_TTL : Z := 24 * 60 * 60.
Definition CONTACTS_MAX_PAGE_SIZE : Z := 500.
Definition BLOCK_LIST_CACHE_TTL : Z := 300.
Definition MAX_PRIVACY_EXCEPTIONS_PER_RULE : Z := 100.
Definition PENDING_RESOLVE_BATCH_SIZE : Z := 500.
Definition PENDING_RESOLVE_MAX_EVENTS : Z := 100.
End profile_config.

(** ** Errors: the exception classes raised, the constraints of the tables, and
    the failures of the libraries that reach a handler *)
Inductive profile_error : Type :=
| NotFoundProfileError (profile_id : Z)
| AlreadeExistProfileError
| TooLongSkillNameError (name : text)
| TooLongDisplayNameError (name : text)
| TooLongBioError (bio : text)
| AvatarNotImageTypeError (type_avatar : string)
| AvatarSizeError (current_size : Z)
| AvatarFileKeyError (file_key : text)
| NotFoundProfilePhotoError (photo_id : UUID)
| ProfilePhotosLimitError (limit : Z)
| TooLongContactNameError (name : text)
| NotFoundContactError (contact_id : Z)
| NotFoundContactTargetError (user_id : option Z) (username : option text)
| SelfContactError
| ContactLimitExceededError (limit : Z)
| ContactBlockedError (user_id : Z)
| ImportBatchTooLargeError (limit current : Z)
| IdentifierQuotaExceededError (limit : Z)
| IdentifierPepperNotConfiguredError
| PrivacyExceptionsLimitError (rule : string) (limit current : Z)
| ProfileAccessDenied (need_permissions : gset string)
| DuplicateSkills                  (* ValueError *)
| ProfileIntegrityError (constraint : string)
| ValueTooLong (column : string)   (* DataError: character varying(n) *)
| StorageError
| VipsError.

Definition profile_error_status (e : profile_error) : option Z :=
  match e with
  | NotFoundProfileError _ | NotFoundProfilePhotoError _ | NotFoundContactError _
  | NotFoundContactTargetError _ _ => Some 404
  | AlreadeExistProfileError | ProfilePhotosLimitError _ | ContactLimitExceededError _
  | ContactBlockedError _ => Some 409
  | TooLongSkillNameError _ | TooLongDisplayNameError _ | TooLongBioError _
  | AvatarNotImageTypeError _ | AvatarSizeError _ | AvatarFileKeyError _
  | TooLongContactNameError _ | SelfContactError | ImportBatchTooLargeError _ _
  | PrivacyExceptionsLimitError _ _ _ => Some 400
  | IdentifierQuotaExceededError _ => Some 429
  | IdentifierPepperNotConfiguredError => Some 503
  | ProfileAccessDenied _ => Some 403
  | DuplicateSkills | ProfileIntegrityError _ | ValueTooLong _ | StorageError | VipsError => None
  end.

Definition profile_error_code (e : profile_error) : option string :=
  match e with
  | NotFoundProfileError _ => Some "NOT_FOUND_PROFILE"
  | AlreadeExistProfileError => Some "ALREADY_EXIST_PROFILE"
  | TooLongSkillNameError _ => Some "TOO_LONG_SKILL_NAME"
  | TooLongDisplayNameError _ => Some "TOO_LONG_DISPLAY_NAME"
  | TooLongBioError _ => Some "TOO_LONG_BIO"
  | AvatarNotImageTypeError _ => Some "AVATAR_NOT_TYPE_IMAGE"
  | AvatarSizeError _ => Some "AVATAR_SIZE"
  | AvatarFileKeyError _ => Some "AVATAR_FILE_KEY"
  | NotFoundProfilePhotoError _ => Some "NOT_FOUND_PROFILE_PHOTO"
  | ProfilePhotosLimitError _ => Some "PROFILE_PHOTOS_LIMIT"
  | TooLongContactNameError _ => Some "TOO_LONG_CONTACT_NAME"
  | NotFoundContactError _ => Some "NOT_FOUND_CONTACT"
  | NotFoundContactTargetError _ _ => Some "NOT_FOUND_CONTACT_TARGET"
  | SelfContactError => Some "SELF_CONTACT_NOT_ALLOWED"
  | ContactLimitExceededError _ => Some "CONTACT_LIMIT_EXCEEDED"
  | ContactBlockedError _ => Some "CONTACT_BLOCKED"
  | ImportBatchTooLargeError _ _ => Some "IMPORT_BATCH_TOO_LARGE"
  | IdentifierQuotaExceededError _ => Some "IDENTIFIER_QUOTA_EXCEEDED"
  | IdentifierPepperNotConfiguredError => Some "IDENTIFIER_PEPPER_NOT_CONFIGURED"
  | PrivacyExceptionsLimitError _ _ _ => Some "PRIVACY_EXCEPTIONS_LIMIT"
  | ProfileAccessDenied _ => Some "ACCESS_DENIED"
  | DuplicateSkills | ProfileIntegrityError _ | ValueTooLong _ | StorageError | VipsError => None
  end%string.

(** ** Events *)
Inductive SizeAvatar : Type := SMALL | UPPER_SMALL | MEDIUM | LARGE.
Definition size_value (s : SizeAvatar) : Z :=
  match s with SMALL => 32 | UPPER_SMALL => 64 | MEDIUM => 256 | LARGE => 512 end.
Definition all_sizes : list SizeAvatar := [SMALL; UPPER_SMALL; MEDIUM; LARGE].
Inductive TypeImageAvatar : Type := JPG | WEBP.
Definition format_value (f : TypeImageAvatar) : text :=
  match f with JPG => u8 "jpg" | WEBP => u8 "webp" end.
Definition all_formats : list TypeImageAvatar := [JPG; WEBP].

Abbreviation AvatarMap := (list (Z * list (text * text))) (only parsing).

Inductive ContactSource : Type := IMPORT | USERNAME | INVITE | MANUAL.
Definition source_value (s : ContactSource) : Z :=
  match s with IMPORT => 1 | USERNAME => 2 | INVITE => 3 | MANUAL => 4 end.
Inductive IdentifierKind : Type := EMAIL | PHONE.

(** the fields [ProfileCreated] and [ProfileUpdated] share *)
Record ProfileData : Type := MkProfileData {
  pd_user_id : Z;
  pd_username : text;
  pd_avatars : AvatarMap;
  pd_display_name : option text;
  pd_bio : option text;
  pd_specialization : option text;
  pd_date_birthday : option Z;
  pd_skills : list text;
}.

Inductive profile_event : Type :=
| ProfileCreated (d : ProfileData)
| ProfileUpdated (d : ProfileData)
| ContactAdded (owner_id contact_id source : Z) (is_mutual : bool)
| ContactRemoved (owner_id contact_id : Z)
| UserBlocked (owner_id target_id : Z)
| UserUnblocked (owner_id target_id : Z)
| PrivacyUpdated (user_id : Z) (rules : list (string * string))
    (exceptions : list (string * list (string * list Z))).

Definition profile_event_name (e : profile_event) : string :=
  match e with
  | ProfileCreated _ => "profiles.profile.created"
  | ProfileUpdated _ => "profiles.profile.updated"
  | ContactAdded _ _ _ _ => "profiles.contact.added"
  | ContactRemoved _ _ => "profiles.contact.removed"
  | UserBlocked _ _ => "profiles.user.blocked"
  | UserUnblocked _ _ => "profiles.user.unblocked"
  | PrivacyUpdated _ _ _ => "profiles.privacy.updated"
  end.

(** [get_aggregate_id]: the key of the Kafka message *)
Definition profile_aggregate_id (e : profile_event) : Z :=
  match e with
  | ProfileCreated d | ProfileUpdated d => pd_user_id d
  | ContactAdded o _ _ _ | ContactRemoved o _ | UserBlocked o _ | UserUnblocked o _ => o
  | PrivacyUpdated u _ _ => u
  end.

(** A row of [outbox_messages], and the message Debezium makes of it: id,
    name, payload and the time the transaction of the row began. *)
Record profile_message : Type := MkProfileMessage {
  pm_id : UUID;
  pm_event : profile_event;
  pm_created_at : datetime;
}.

(** ** Names of contacts *)
(** [validate_contact_name] *)
Definition validate_contact_name (name : option text) : result profile_error (option text) :=
  match name with
  | None => Ok None
  | Some n =>
    let cleaned := strip n in
    if empty_text cleaned then Ok None
    else if profile_config.MAX_LEN_CONTACT_NAME <? len cleaned
    then Err (TooLongContactNameError cleaned)
    else Ok (Some cleaned)
  end.

Module UserContact.
Record t : Type := Mk {
  owner_id : Z;
  contact_id : Z;
  first_name : option text;
  last_name : option text;
  source : ContactSource;
  is_mutual : bool;
  is_favorite : bool;
  created_at : datetime;
  updated_at : datetime;
}.
#[global] Instance settable : Settable t := λ c,
  Mk (owner_id c) (contact_id c) (first_name c) (last_name c) (source c) (is_mutual c)
    (is_favorite c) (created_at c) (updated_at c).

(** [create] with the event it registers; the row's times are [now()] of the
    transaction *)
Definition create (now owner_id contact_id : Z) (source : ContactSource)
  (first_name last_name : option text) (is_mutual : bool) : result profile_error (t * list profile_event) :=
  first ← validate_contact_name first_name;
  last ← validate_contact_name last_name;
  Ok (Mk owner_id contact_id first last source is_mutual false now now,
      [ContactAdded owner_id contact_id (source_value source) is_mutual]).

Definition touch (now : datetime) (c : t) : t := c <| updated_at := now |>.

Definition rename (now : datetime) (c : t) (first_name' last_name' : option text)
  : result profile_error t :=
  first ← validate_contact_name first_name';
  last ← validate_contact_name last_name';
  Ok (if bool_decide ((first, last) = (first_name c, last_name c)) then c
      else touch now (c <| first_name := first |> <| last_name := last |>)).

Definition mark_favorite (now : datetime) (c : t) (b : bool) : t :=
  if Bool.eqb (is_favorite c) b then c else touch now (c <| is_favorite := b |>).

Definition register_removed (c : t) : list profile_event :=
  [ContactRemoved (owner_id c) (contact_id c)].
End UserContact.

Module UserIdentifier.
Record t : Type := Mk { kind : IdentifierKind; user_id : Z; created_at : datetime }.
#[global] Instance settable : Settable t := λ i, Mk (kind i) (user_id i) (created_at i).
End UserIdentifier.

Module PendingContact.
Record t : Type := Mk { first_name : option text; last_name : option text; created_at : datetime }.
#[global] Instance settable : Settable t := λ p, Mk (first_name p) (last_name p) (created_at p).
End PendingContact.

(** ** Photos *)
Module ProfilePhoto.
Record t : Type := Mk {
  id : UUID;
  user_id : Z;
  avatars : AvatarMap;
  set_main_at : datetime;
  created_at : datetime;
}.
#[global] Instance settable : Settable t := λ p,
  Mk (id p) (user_id p) (avatars p) (set_main_at p) (created_at p).

Definition create (now : datetime) (photo_id : UUID) (user_id : Z) (avatars : AvatarMap) : t :=
  Mk photo_id user_id avatars now now.
Definition make_main (now : datetime) (p : t) : t := p <| set_main_at := now |>.
End ProfilePhoto.

(** ** Profiles *)
Module Profile.
Record t : Type := Mk {
  id : Z;
  username : text;
  avatars : AvatarMap;
  photo_id : option UUID;
  display_name : option text;
  bio : option text;
  specialization : option text;
  date_birthday : option Z;
  skills : list text;
  links : list (text * text);
  updated_at : datetime;
  deleted_at : option datetime;
}.
#[global] Instance settable : Settable t := λ p,
  Mk (id p) (username p) (avatars p) (photo_id p) (display_name p) (bio p) (specialization p)
    (date_birthday p) (skills p) (links p) (updated_at p) (deleted_at p).

Definition data (p : t) : ProfileData :=
  MkProfileData (id p) (username p) (avatars p) (display_name p) (bio p) (specialization p)
    (date_birthday p) (skills p).

Definition too_long (s : option text) (limit : Z) : option text :=
  match s with Some n => if limit <=? len n then Some n else None | None => None end.

Definition change_display_name (p : t) (name : option text) : result profile_error t :=
  match too_long name profile_config.MAX_LEN_DISPLAY_NAME with
  | Some n => Err (TooLongDisplayNameError n)
  | None => Ok (p <| display_name := name |>)
  end.

Definition change_bio (p : t) (new_bio : option text) : result profile_error t :=
  match too_long new_bio profile_config.MAX_LEN_BIO with
  | Some b => Err (TooLongBioError b)
  | None => Ok (p <| bio := new_bio |>)
  end.

Definition change_specialization (p : t) (s : option text) : t := p <| specialization := s |>.
Definition change_birthday (p : t) (d : option Z) : t := p <| date_birthday := d |>.

(** [max(skills, key=len)]: the first of the longest *)
Fixpoint longest (best : text) (l : list text) : text :=
  match l with
  | [] => best
  | s :: l' => longest (if len best <? len s then s else best) l'
  end.

(** the [@validates("skills")] hook on the new value *)
Definition validate_skills (value : list text) : result profile_error (list text) :=
  if negb (bool_decide (NoDup value)) then Err DuplicateSkills
  else match List.find (λ s, profile_config.MAX_LEN_SKILL_NAME <? len s) value with
       | Some s => Err (TooLongSkillNameError s)
       | None => Ok value
       end.

(** a set argument is given as its elements, in the order it is iterated *)
Definition update_skills (p : t) (new_skills : list text) : result profile_error t :=
  if existsb (λ s, profile_config.MAX_LEN_SKILL_NAME <? len s) new_skills
  then Err (TooLongSkillNameError (longest [] new_skills))
  else value ← validate_skills (lower <$> new_skills); Ok (p <| skills := value |>).

Definition _register_updated (p : t) : list profile_event := [ProfileUpdated (data p)].

Definition create (now user_id : Z) (username : text) (display_name specialization bio : option text)
  (skills : list text) (date_birthday : option Z) : result profile_error (t * list profile_event) :=
  let p := Mk user_id username [] None None None specialization date_birthday [] [] now None in
  p ← change_display_name p display_name;
  p ← change_bio p bio;
  p ← update_skills p skills;
  Ok (p, [ProfileCreated (data p)]).

Definition update (p : t) (name bio specialization : option text) (date_birthday : option Z)
  (skills : list text) : result profile_error (t * list profile_event) :=
  p ← change_display_name p name;
  p ← change_bio p bio;
  let p := change_specialization p specialization in
  p ← update_skills p skills;
  let p := change_birthday p date_birthday in
  Ok (p, _register_updated p).

Definition change_username (p : t) (new_username : text) : t * list profile_event :=
  if bool_decide (new_username = username p) then (p, [])
  else let p := p <| username := new_username |> in (p, _register_updated p).

Fixpoint set_link (provider contact : text) (l : list (text * text)) : list (text * text) :=
  match l with
  | [] => [(provider, contact)]
  | link :: l' => if bool_decide (provider = link.1) then (link.1, contact) :: l'
                  else link :: set_link provider contact l'
  end.

Definition add_link (p : t) (provider contact : text) : t := p <| links ::= set_link provider contact |>.
Definition remove_link (p : t) (provider : text) : t :=
  p <| links ::= filter (λ link, link.1 ≠ provider) |>.

Definition set_photo (p : t) (photo : option ProfilePhoto.t) : t * list profile_event :=
  let p := p <| photo_id := ProfilePhoto.id <$> photo |>
             <| avatars := match photo with Some ph => ProfilePhoto.avatars ph | None => [] end |> in
  (p, _register_updated p).
End Profile.

(** ** Privacy settings *)
Record ProfilePrivacyException : Type := MkException {
  pe_rule : PrivacyRule;
  pe_target_id : Z;
  pe_allow : bool;
}.

Module ProfilePrivacy.
Record t : Type := Mk {
  user_id : Z;
  rules : list (PrivacyRule * PrivacyVisibility);
  exceptions : list ProfilePrivacyException;
}.
#[global] Instance settable : Settable t := λ p, Mk (user_id p) (rules p) (exceptions p).

(** the five columns, in the order of [PrivacyRule] *)
Definition create (user_id : Z) : t :=
  Mk user_id ((λ r, (r, DEFAULT_VISIBILITY)) <$> all_rules) [].

Definition visibility (p : t) (rule : PrivacyRule) : PrivacyVisibility :=
  default DEFAULT_VISIBILITY (snd <$> List.find (λ rv, bool_decide (rv.1 = rule)) (rules p)).

Definition set_rule (p : t) (rule : PrivacyRule) (v : PrivacyVisibility) : t :=
  p <| rules ::= fmap (λ rv, if bool_decide (rv.1 = rule) then (rv.1, v) else rv) |>.

Definition sorted_ids (s : gset Z) : list Z := merge_sort Z.le (elements s).

Definition replace_exceptions (p : t) (rule : PrivacyRule) (allow deny : list Z) : result profile_error t :=
  let allowed : gset Z := list_to_set (filter (λ u, u ≠ user_id p) allow) in
  let denied : gset Z := list_to_set (filter (λ u, u ≠ user_id p) deny) ∖ allowed in
  let total := Z.of_nat (size allowed) + Z.of_nat (size denied) in
  if profile_config.MAX_PRIVACY_EXCEPTIONS_PER_RULE <? total
  then Err (PrivacyExceptionsLimitError (rule_value rule)
              profile_config.MAX_PRIVACY_EXCEPTIONS_PER_RULE total)
  else Ok (p <| exceptions ::= (λ l,
             filter (λ e, pe_rule e ≠ rule) l
             ++ ((λ u, MkException rule u true) <$> sorted_ids allowed)
             ++ ((λ u, MkException rule u false) <$> sorted_ids denied)) |>).

Definition rules_snapshot (p : t) : list (string * string) :=
  (λ r, (rule_value r, visibility_value (visibility p r))) <$> all_rules.

Definition bucket (p : t) (rule : PrivacyRule) (allow : bool) : list Z :=
  merge_sort Z.le (pe_target_id <$> filter (λ e, pe_rule e = rule ∧ pe_allow e = allow) (exceptions p)).

Definition exceptions_snapshot (p : t) : list (string * list (string * list Z)) :=
  (λ r, (rule_value r, [("allow"%string, bucket p r true); ("deny"%string, bucket p r false)])) <$> all_rules.

Definition register_updated (p : t) : list profile_event :=
  [PrivacyUpdated (user_id p) (rules_snapshot p) (exceptions_snapshot p)].
End ProfilePrivacy.
