(* ===== verification/ProfileStore.v ===== *)
(** The tables of the profile module, the world its requests run in and the
    repositories and services over it ([app/profiles/repositories],
    [app/profiles/services]).

    The session sees its own writes; [pw_now] is the time the transaction began,
    which the columns defaulting to [now()] get. Redis holds the cached block
    lists and the daily quotas, with the instants they expire; objects are the
    files of the storage service. Presigned URLs and the cache of listings are
    left out. *)
From S2P Require Import Prelude Events PrivacyModel Rbac WsModel ProfileModel.

Abbreviation image := (list Z) (only parsing).

Record profile_store : Type := MkProfileStore {
  ps_profiles : gmap Z Profile.t;
  ps_photos : gmap UUID ProfilePhoto.t;
  ps_contacts : gmap (Z * Z) UserContact.t;
  ps_identifiers : gmap text UserIdentifier.t;
  ps_pending : gmap (Z * text) PendingContact.t;
  ps_blocked : gmap (Z * Z) datetime;
  ps_privacy : gmap Z ProfilePrivacy.t;
  ps_outbox : list profile_message;
}.
#[global] Instance profile_store_settable : Settable profile_store := λ s,
  MkProfileStore (ps_profiles s) (ps_photos s) (ps_contacts s) (ps_identifiers s) (ps_pending s)
    (ps_blocked s) (ps_privacy s) (ps_outbox s).

Definition empty_profile_store : profile_store := MkProfileStore ∅ ∅ ∅ ∅ ∅ ∅ ∅ [].

Definition longer (limit : Z) (s : option text) : bool :=
  match s with Some s => limit <? len s | None => false end.

(** the column a flush of these rows would overflow *)
Definition overflow (s : profile_store) : option string :=
  let profiles := (map_to_list (ps_profiles s)).*2 in
  if existsb (λ p, longer 100 (Profile.display_name p)) profiles then Some "display_name"%string
  else if existsb (λ p, longer 1024 (Profile.bio p)) profiles then Some "bio"%string
  else if existsb (λ p, longer 50 (Profile.specialization p)) profiles then Some "specialization"%string
  else if existsb (λ p, existsb (λ k, 30 <? len k) (Profile.skills p)) profiles then Some "skills"%string
  else if existsb (λ p, existsb (λ l, (30 <? len l.1) || (256 <? len l.2)) (Profile.links p)) profiles
  then Some "profile_links"%string
  else None.

(** [AvatarUploadTask] with its arguments *)
Record avatar_task : Type := MkAvatarTask { at_user_id : Z; at_key_base : text }.

Record profile_world : Type := MkProfileWorld {
  pw_session : profile_store;
  pw_database : profile_store;
  pw_now : datetime;
  pw_clock : nat → datetime;
  pw_ticks : nat;
  pw_uuids : nat → UUID;
  pw_uuid_reads : nat;
  pw_block_lists : gmap Z (gset Z * datetime);
  pw_quota : gmap (Z * Z) (Z * option datetime);
  pw_objects : gmap (string * text) image;
  pw_tasks : list avatar_task;
}.
#[global] Instance profile_world_settable : Settable profile_world := λ w,
  MkProfileWorld (pw_session w) (pw_database w) (pw_now w) (pw_clock w) (pw_ticks w) (pw_uuids w)
    (pw_uuid_reads w) (pw_block_lists w) (pw_quota w) (pw_objects w) (pw_tasks w).

(** ** The monad *)
Definition P (X : Type) : Type := profile_world → result profile_error X * profile_world.

#[export] Instance P_ret : MRet P := λ X a w, (Ok a, w).
#[export] Instance P_bind : MBind P := λ X Y k m w,
  match m w with
  | (Ok a, w') => k a w'
  | (Err e, w') => (Err e, w')
  end.

Definition praise {X} (e : profile_error) : P X := λ w, (Err e, w).
Definition plift {X} (r : result profile_error X) : P X := λ w, (r, w).
(** [if bad: raise e] *)
Definition prefuse (bad : bool) (e : profile_error) : P unit := λ w, (if bad then Err e else Ok tt, w).
Definition pfound {X} (o : option X) (e : profile_error) : P X := λ w,
  (match o with Some a => Ok a | None => Err e end, w).
Definition pnow : P datetime := λ w, (Ok (pw_clock w (pw_ticks w)), w <| pw_ticks ::= S |>).
Definition puuid7 : P UUID := λ w, (Ok (pw_uuids w (pw_uuid_reads w)), w <| pw_uuid_reads ::= S |>).
(** [now()] of the transaction *)
Definition transaction_time : P datetime := λ w, (Ok (pw_now w), w).

Definition pselect {X} (f : profile_store → X) : P X := λ w, (Ok (f (pw_session w)), w).
Definition pwrite (f : profile_store → profile_store) : P unit := λ w, (Ok tt, w <| pw_session ::= f |>).
Definition pwrite_returning {X} (f : profile_store → X * profile_store) : P X := λ w,
  (Ok (f (pw_session w)).1, w <| pw_session := (f (pw_session w)).2 |>).

Definition pflush : P unit := λ w,
  match overflow (pw_session w) with Some c => (Err (ValueTooLong c), w) | None => (Ok tt, w) end.
(** the next statement begins a transaction of its own *)
Definition pcommit : P unit := λ w,
  match overflow (pw_session w) with
  | Some c => (Err (ValueTooLong c), w)
  | None => (Ok tt, w <| pw_database := pw_session w |> <| pw_now := pw_clock w (pw_ticks w) |>
                      <| pw_ticks ::= S |>)
  end.

(** [event_bus.publish]: one outbox row per event, under the event's id *)
Fixpoint ppublish (events : list profile_event) : P unit :=
  match events with
  | [] => mret tt
  | e :: es =>
    event_id ← puuid7; now ← transaction_time;
    _ ← pwrite (λ s, s <| ps_outbox ::= (λ l, l ++ [MkProfileMessage event_id e now]) |>);
    ppublish es
  end.

(** One request in a session of its own; what was not committed is discarded. *)
Definition run_profile {X} (h : P X) (w : profile_world) : result profile_error X * profile_world :=
  let '(r, w') := h (w <| pw_session := pw_database w |> <| pw_now := pw_clock w (pw_ticks w) |>
                       <| pw_ticks ::= S |>) in
  (r, w' <| pw_session := pw_database w' |>).

(** ** Repositories *)

(** [tuple[list, bool]] of a query limited to one row more than the page *)
Definition page {X} (limit : Z) (rows : list X) : list X * bool :=
  (take (Z.to_nat limit) rows, limit <? len (take (Z.to_nat (limit + 1)) rows)).

(** [key > cursor] when there is a cursor *)
Definition after (cursor : option Z) (key : Z) : bool :=
  match cursor with Some a => a <? key | None => true end.

Definition contact_le (a b : UserContact.t) : Prop := UserContact.contact_id a ≤ UserContact.contact_id b.
#[export] Instance contact_le_dec : RelDecision contact_le.
Proof. intros a b. unfold contact_le. apply _. Defined.

Record ContactUpsert : Type := MkContactUpsert {
  cu_contact_id : Z;
  cu_source : ContactSource;
  cu_first_name : option text;
  cu_last_name : option text;
}.
Record PendingUpsert : Type := MkPendingUpsert {
  pu_identifier_hash : text;
  pu_first_name : option text;
  pu_last_name : option text;
}.

(** [coalesce(excluded.c, c)] *)
Definition coalesce {X} (a b : option X) : option X := match a with Some _ => a | None => b end.

Module ContactRepository.

Definition get (owner_id contact_id : Z) : P (option UserContact.t) :=
  pselect (λ s, ps_contacts s !! (owner_id, contact_id)).

(** the rows of an owner, in the order of [contact_id] *)
Definition rows_of (s : profile_store) (owner_id : Z) : list UserContact.t :=
  merge_sort contact_le (filter (λ c, UserContact.owner_id c = owner_id) (map_to_list (ps_contacts s)).*2).

Definition count (owner_id : Z) : P Z :=
  pselect (λ s, count_where (λ kv, kv.1.1 = owner_id) (ps_contacts s)).

Definition list_page (owner_id limit : Z) (after_contact_id : option Z) (updated_after : option datetime)
  : P (list UserContact.t * bool) := pselect (λ s,
  page limit (filter (λ c,
    after after_contact_id (UserContact.contact_id c)
    && match updated_after with Some u => u <=? UserContact.updated_at c | None => true end = true)
    (rows_of s owner_id))).

Definition get_many (owner_id : Z) (contact_ids : list Z) : P (list UserContact.t) :=
  pselect (λ s, filter (λ c, UserContact.contact_id c ∈ contact_ids) (rows_of s owner_id)).

Definition owners_having_contact (contact_id : Z) (owner_ids : gset Z) : P (gset Z) :=
  pselect (λ s, filter (λ o, is_Some (ps_contacts s !! (o, contact_id))) owner_ids).

Definition max_updated_at (owner_id : Z) : P (option datetime) := pselect (λ s,
  foldr (λ c m, Some (Z.max (UserContact.updated_at c) (default (UserContact.updated_at c) m))) None
    (rows_of s owner_id)).

(** one row of [INSERT ... ON CONFLICT DO UPDATE]; the answer tells insertions *)
Definition upsert_row (now : datetime) (m : gmap (Z * Z) UserContact.t) (owner_id contact_id : Z)
  (source : ContactSource) (first last : option text) : bool * gmap (Z * Z) UserContact.t :=
  match m !! (owner_id, contact_id) with
  | Some c => (false, <[(owner_id, contact_id) :=
      c <| UserContact.first_name := coalesce first (UserContact.first_name c) |>
        <| UserContact.last_name := coalesce last (UserContact.last_name c) |>
        <| UserContact.updated_at := now |>]> m)
  | None => (true, <[(owner_id, contact_id) :=
      UserContact.Mk owner_id contact_id first last source false false now now]> m)
  end.

Fixpoint upsert_rows (now : datetime) (entries : list (Z * ContactUpsert)) (m : gmap (Z * Z) UserContact.t)
  : list (Z * Z) * gmap (Z * Z) UserContact.t :=
  match entries with
  | [] => ([], m)
  | (o, e) :: entries' =>
    let '(inserted, m) := upsert_row now m o (cu_contact_id e) (cu_source e) (cu_first_name e) (cu_last_name e) in
    let '(keys, m) := upsert_rows now entries' m in
    (if inserted then (o, cu_contact_id e) :: keys else keys, m)
  end.

(** the VALUES of the statement: every name validated *)
Fixpoint validated (entries : list (Z * ContactUpsert)) : result profile_error (list (Z * ContactUpsert)) :=
  match entries with
  | [] => Ok []
  | (o, e) :: entries' =>
    first ← validate_contact_name (cu_first_name e);
    last ← validate_contact_name (cu_last_name e);
    rest ← validated entries';
    Ok ((o, MkContactUpsert (cu_contact_id e) (cu_source e) first last) :: rest)
  end.

Definition upsert_many_pairs (entries : list (Z * ContactUpsert)) : P (gset (Z * Z)) :=
  match entries with
  | [] => mret ∅
  | _ =>
    now ← pnow;
    values ← plift (validated entries);
    keys ← pwrite_returning (λ s,
      let '(keys, m) := upsert_rows now values (ps_contacts s) in (keys, s <| ps_contacts := m |>));
    mret (list_to_set keys)
  end.

(** the same statement for one owner *)
Definition upsert_many (owner_id : Z) (entries : list ContactUpsert) : P (gset Z) :=
  keys ← upsert_many_pairs ((λ e, (owner_id, e)) <$> entries);
  mret (set_map snd keys).

Definition find_forward_contacts (owner_id : Z) (contact_ids : list Z) : P (gset Z) :=
  pselect (λ s, filter (λ c, is_Some (ps_contacts s !! (owner_id, c))) (list_to_set contact_ids)).

Definition find_reverse_owners (owner_id : Z) (contact_ids : list Z) : P (gset Z) :=
  pselect (λ s, filter (λ c, is_Some (ps_contacts s !! (c, owner_id))) (list_to_set contact_ids)).

(** [UPDATE ... SET is_mutual, updated_at WHERE pair IN keys AND is_mutual IS NOT b] *)
Definition mark (b : bool) (now : datetime) (keys : gset (Z * Z)) (m : gmap (Z * Z) UserContact.t)
  : gmap (Z * Z) UserContact.t :=
  map_imap (λ k c, Some (
    if bool_decide (k ∈ keys) && negb (Bool.eqb (UserContact.is_mutual c) b)
    then c <| UserContact.is_mutual := b |> <| UserContact.updated_at := now |> else c)) m.

Definition both_directions (pairs : list (Z * Z)) : gset (Z * Z) :=
  list_to_set (pairs ≫= λ '(o, c), [(o, c); (c, o)]).

Definition set_mutual_pairs (pairs : list (Z * Z)) : P unit :=
  match pairs with
  | [] => mret tt
  | _ => now ← pnow; pwrite (λ s, s <| ps_contacts ::= mark true now (both_directions pairs) |>)
  end.

Definition set_mutual (owner_id : Z) (contact_ids : list Z) (is_mutual : bool) : P unit :=
  match contact_ids with
  | [] => mret tt
  | _ => now ← pnow;
         pwrite (λ s, s <| ps_contacts ::= mark is_mutual now (both_directions ((λ c, (owner_id, c)) <$> contact_ids)) |>)
  end.

Definition delete (owner_id contact_id : Z) : P bool :=
  deleted ← pwrite_returning (λ s,
    (bool_decide (is_Some (ps_contacts s !! (owner_id, contact_id))),
     s <| ps_contacts ::= base.delete (owner_id, contact_id) |>));
  if deleted : bool then _ ← set_mutual owner_id [contact_id] false; mret true else mret false.

(** [ilike prefix%] on a nullable column *)
Definition istartswith (column : option text) (prefix : text) : bool :=
  match column with Some c => bool_decide (lower prefix `prefix_of` lower c) | None => false end.

Definition live_profile (s : profile_store) (user_id : Z) : option Profile.t :=
  p ← ps_profiles s !! user_id; if is_none (Profile.deleted_at p) then Some p else None.

Definition search_own (owner_id : Z) (prefix : text) (limit : Z) : P (list UserContact.t) := pselect (λ s,
  take (Z.to_nat limit) (filter (λ c,
    istartswith (live_profile s (UserContact.contact_id c) ≫= Profile.display_name) prefix
    || istartswith (UserContact.first_name c) prefix || istartswith (UserContact.last_name c) prefix = true)
    (rows_of s owner_id))).

End ContactRepository.

Module ContactIdentifierRepository.

(** [now.strftime("%Y%m%d")], as the number of the day *)
Definition day_of (now : datetime) : Z := now / (86400 * 1000000).

(** the counter of a key that has not expired *)
Definition used_of (now : datetime) (q : gmap (Z * Z) (Z * option datetime)) (key : Z * Z) : Z * option datetime :=
  match q !! key with
  | Some (n, Some until) => if now <? until then (n, Some until) else (0, None)
  | Some (n, None) => (n, None)
  | None => (0, None)
  end.

(** [INCRBY], [EXPIRE] on the first use of the day, [DECRBY] when refused *)
Definition count_use (now owner_id amount : Z) : P bool := λ w,
  let key := (owner_id, day_of now) in
  let '(before, ttl) := used_of now (pw_quota w) key in
  let used := before + amount in
  let ttl := if used =? amount then Some (now + seconds profile_config.IDENTIFIER_QUOTA_TTL) else ttl in
  if profile_config.CONTACTS_NEW_IDENTIFIERS_PER_DAY <? used
  then (Ok false, w <| pw_quota ::= <[key := (used - amount, ttl)]> |>)
  else (Ok true, w <| pw_quota ::= <[key := (used, ttl)]> |>).

Definition consume_quota (owner_id amount : Z) : P bool :=
  if amount <=? 0 then mret true else now ← pnow; count_use now owner_id amount.

Definition resolve (hashes : list text) : P (gmap text Z) := pselect (λ s,
  dict_of (λ h, UserIdentifier.user_id <$> ps_identifiers s !! h) (list_to_set hashes)).

Definition upsert (identifier_hash : text) (kind : IdentifierKind) (user_id : Z) : P unit :=
  now ← pnow;
  pwrite (λ s, s <| ps_identifiers ::= (λ m,
    match m !! identifier_hash with
    | Some i => <[identifier_hash := i <| UserIdentifier.user_id := user_id |> <| UserIdentifier.kind := kind |>]> m
    | None => <[identifier_hash := UserIdentifier.Mk kind user_id now]> m
    end) |>).

Fixpoint validated_pending (entries : list PendingUpsert) : result profile_error (list PendingUpsert) :=
  match entries with
  | [] => Ok []
  | e :: entries' =>
    first ← validate_contact_name (pu_first_name e);
    last ← validate_contact_name (pu_last_name e);
    rest ← validated_pending entries';
    Ok (MkPendingUpsert (pu_identifier_hash e) first last :: rest)
  end.

Definition upsert_pending (now owner_id : Z) (m : gmap (Z * text) PendingContact.t) (e : PendingUpsert)
  : gmap (Z * text) PendingContact.t :=
  let key := (owner_id, pu_identifier_hash e) in
  match m !! key with
  | Some p => <[key := p <| PendingContact.first_name := coalesce (pu_first_name e) (PendingContact.first_name p) |>
                         <| PendingContact.last_name := coalesce (pu_last_name e) (PendingContact.last_name p) |>]> m
  | None => <[key := PendingContact.Mk (pu_first_name e) (pu_last_name e) now]> m
  end.

Definition upsert_pending_many (owner_id : Z) (entries : list PendingUpsert) : P Z :=
  match entries with
  | [] => mret 0
  | _ =>
    now ← pnow;
    values ← plift (validated_pending entries);
    _ ← pwrite (λ s, s <| ps_pending ::= (λ m, foldl (upsert_pending now owner_id) m values) |>);
    mret (len values)
  end.

Definition owner_le (a b : Z * PendingContact.t) : Prop := a.1 ≤ b.1.
#[global] Instance owner_le_dec : RelDecision owner_le.
Proof. intros a b. unfold owner_le. apply _. Defined.

(** the owners waiting for an identifier, in order, with what they wrote *)
Definition waiting_rows (s : profile_store) (identifier_hash : text) : list (Z * PendingContact.t) :=
  merge_sort owner_le
    ((λ kv, (kv.1.1, kv.2)) <$> filter (λ kv, kv.1.2 = identifier_hash) (map_to_list (ps_pending s))).

Definition fetch_pending_batch (identifier_hash : text) (limit : Z) (after_owner_id : option Z)
  : P (list (Z * PendingContact.t)) := pselect (λ s,
  take (Z.to_nat limit) (filter (λ r, after after_owner_id r.1 = true)
    (waiting_rows s identifier_hash))).

Definition delete_pending (identifier_hash : text) (owner_ids : list Z) : P unit :=
  pwrite (λ s, s <| ps_pending ::= filter (λ kv, ¬ (kv.1.2 = identifier_hash ∧ kv.1.1 ∈ owner_ids)) |>).

End ContactIdentifierRepository.

Module BlockedUserRepository.

Definition get (owner_id target_id : Z) : P (option datetime) :=
  pselect (λ s, ps_blocked s !! (owner_id, target_id)).

Definition targets_of (s : profile_store) (owner_id : Z) : list Z :=
  merge_sort Z.le (snd <$> filter (λ k, k.1 = owner_id) (map_to_list (ps_blocked s)).*1).

Definition list_page (owner_id limit : Z) (after_target_id : option Z) : P (list Z * bool) :=
  pselect (λ s, page limit (filter (λ t, after after_target_id t = true)
    (targets_of s owner_id))).

Definition blockers_of (target_id : Z) (owner_ids : list Z) : P (gset Z) := pselect (λ s,
  filter (λ o, is_Some (ps_blocked s !! (o, target_id)))
    (list_to_set (filter (λ o, o ≠ target_id) owner_ids))).

Definition all_target_ids (owner_id : Z) : P (list Z) := pselect (λ s, targets_of s owner_id).

(** [GET], then the query and [SET ... EX] *)
Definition cached (owner_id : Z) : P (option (gset Z)) := λ w,
  (Ok (match pw_block_lists w !! owner_id with
       | Some (ids, until) => if pw_clock w (pw_ticks w) <? until then Some ids else None
       | None => None
       end), w <| pw_ticks ::= S |>).
Definition cache (owner_id : Z) (ids : gset Z) : P unit := λ w,
  (Ok tt, w <| pw_block_lists ::= <[owner_id := (ids, pw_clock w (pw_ticks w) + seconds profile_config.BLOCK_LIST_CACHE_TTL)]> |>
            <| pw_ticks ::= S |>).

Definition get_block_list (owner_id : Z) : P (gset Z) :=
  found ← cached owner_id;
  match found with
  | Some ids => mret ids
  | None =>
    target_ids ← all_target_ids owner_id;
    _ ← cache owner_id (list_to_set target_ids);
    mret (list_to_set target_ids)
  end.

Definition invalidate_block_list (owner_id : Z) : P unit := λ w,
  (Ok tt, w <| pw_block_lists ::= delete owner_id |>).

End BlockedUserRepository.

Module ProfileRepository.

(** the columns of a row an [UPDATE] compares; [links] is another table *)
Definition columns (p : Profile.t) :=
  (Profile.username p, Profile.avatars p, Profile.photo_id p, Profile.display_name p, Profile.bio p,
   Profile.specialization p, Profile.date_birthday p, Profile.skills p, Profile.deleted_at p).

(** the flush of a changed object: [updated_at] moves when a column did *)
Definition saved (now : datetime) (p : Profile.t) (m : gmap Z Profile.t) : gmap Z Profile.t :=
  match m !! Profile.id p with
  | Some q => if bool_decide (columns p = columns q) then <[Profile.id p := p]> m
              else <[Profile.id p := p <| Profile.updated_at := now |>]> m
  | None => <[Profile.id p := p]> m
  end.

Definition save (p : Profile.t) : P unit :=
  now ← transaction_time; pwrite (λ s, s <| ps_profiles ::= saved now p |>).

Definition create (p : Profile.t) : P unit := save p.

(** the row lock of [with_for_update] has no effect on a request alone *)
Definition get_by_id (profile_id : Z) : P (option Profile.t) := pselect (λ s, ps_profiles s !! profile_id).

Definition newest_first (a b : Profile.t) : Prop := Profile.updated_at b ≤ Profile.updated_at a.
#[global] Instance newest_first_dec : RelDecision newest_first.
Proof. intros a b. unfold newest_first. apply _. Defined.

Definition get_by_username (username : text) : P (option Profile.t) := pselect (λ s,
  head (merge_sort newest_first
    (filter (λ p, Profile.deleted_at p = None ∧ lower (Profile.username p) = lower username)
      (map_to_list (ps_profiles s)).*2))).

End ProfileRepository.

Module ProfilePhotoRepository.

(** [session.add] of a photo; its key must be new *)
Definition create (photo : ProfilePhoto.t) : P unit := λ w,
  match ps_photos (pw_session w) !! ProfilePhoto.id photo with
  | Some _ => (Err (ProfileIntegrityError "profile_photos_pkey"), w)
  | None => (Ok tt, w <| pw_session ::= (λ s, s <| ps_photos ::= <[ProfilePhoto.id photo := photo]> |>) |>)
  end.

Definition save (photo : ProfilePhoto.t) : P unit :=
  pwrite (λ s, s <| ps_photos ::= <[ProfilePhoto.id photo := photo]> |>).

Definition get_own (photo_id : UUID) (user_id : Z) : P (option ProfilePhoto.t) := pselect (λ s,
  photo ← ps_photos s !! photo_id;
  if bool_decide (ProfilePhoto.user_id photo = user_id) then Some photo else None).

Definition latest_first (a b : ProfilePhoto.t) : Prop :=
  ProfilePhoto.set_main_at b < ProfilePhoto.set_main_at a
  ∨ (ProfilePhoto.set_main_at b = ProfilePhoto.set_main_at a ∧ ProfilePhoto.id b ≤ ProfilePhoto.id a).
#[global] Instance latest_first_dec : RelDecision latest_first.
Proof. intros a b. unfold latest_first. apply _. Defined.

Definition photos_of (s : profile_store) (user_id : Z) : list ProfilePhoto.t :=
  merge_sort latest_first (filter (λ p, ProfilePhoto.user_id p = user_id) (map_to_list (ps_photos s)).*2).

Definition get_latest (user_id : Z) : P (option ProfilePhoto.t) := pselect (λ s, head (photos_of s user_id)).

Definition count (user_id : Z) : P Z :=
  pselect (λ s, count_where (λ kv, ProfilePhoto.user_id kv.2 = user_id) (ps_photos s)).

Definition delete (photo : ProfilePhoto.t) : P unit :=
  pwrite (λ s, s <| ps_photos ::= base.delete (ProfilePhoto.id photo) |>).

End ProfilePhotoRepository.

Module ProfilePrivacyRepository.

Definition get (user_id : Z) : P (option ProfilePrivacy.t) := pselect (λ s, ps_privacy s !! user_id).

(** the row the insertion makes carries the column defaults *)
Definition get_or_create (user_id : Z) : P ProfilePrivacy.t :=
  privacy ← get user_id;
  match privacy with
  | Some p => mret p
  | None =>
    _ ← pwrite (λ s, s <| ps_privacy ::= <[user_id := ProfilePrivacy.create user_id]> |>);
    mret (ProfilePrivacy.create user_id)
  end.

Definition save (p : ProfilePrivacy.t) : P unit :=
  pwrite (λ s, s <| ps_privacy ::= <[ProfilePrivacy.user_id p := p]> |>).

Definition visibility_map (rule : PrivacyRule) (owner_ids : gset Z) : P (gmap Z PrivacyVisibility) :=
  pselect (λ s, dict_of (λ o, (λ p, ProfilePrivacy.visibility p rule) <$> ps_privacy s !! o) owner_ids).

(** the row of [profile_privacy_exceptions] under (owner, rule, target) *)
Definition exception_of (p : ProfilePrivacy.t) (rule : PrivacyRule) (target_id : Z) : option bool :=
  pe_allow <$> List.find (λ e, bool_decide (pe_rule e = rule ∧ pe_target_id e = target_id))
    (ProfilePrivacy.exceptions p).

Definition exceptions_for (rule : PrivacyRule) (target_id : Z) (owner_ids : gset Z) : P (gmap Z bool) :=
  pselect (λ s, dict_of (λ o, p ← ps_privacy s !! o; exception_of p rule target_id) owner_ids).

End ProfilePrivacyRepository.

(** ** Services *)

(** [check_contact_owner]; calls from a task carry no token *)
Definition check_contact_owner `{RBACManager} (owner_id : Z) (user_jwt_data : option UserJWTData) : P unit :=
  match user_jwt_data with
  | None => mret tt
  | Some j =>
    if owner_id =? jwt_id j then mret tt
    else prefuse (negb (check_permission j profile_config.CONTACT_OWNER_PERMISSIONS))
           (ProfileAccessDenied (profile_config.CONTACT_OWNER_PERMISSIONS ∖ list_to_set (jwt_permissions j)))
  end.

(** [hmac.new(key, message, sha256).digest()] on UTF-8 bytes, and the secret
    key of the settings *)
Class Hasher : Type := {
  pepper : text;
  hmac_sha256 : text → text → text;
}.

Module IdentifierHasher.

(** [s.split(sep)] *)
Fixpoint split_on (sep : Z) (s : text) : list text :=
  match s with
  | [] => [[]]
  | c :: s' =>
    if c =? sep then [] :: split_on sep s'
    else match split_on sep s' with
         | w :: ws => (c :: w) :: ws
         | [] => [[c]]
         end
  end.

Definition at_sign : Z := 64.
Definition dot : Z := 46.
Definition no_space (s : text) : bool := forallb (λ c, negb (is_space c)) s.

(** [EMAIL_RE]: [^[^@\s]{1,64}@[^@\s.]+(\.[^@\s.]+)+$] *)
Definition email_match (s : text) : bool :=
  let '(local, found, domain) := partition at_sign s in
  found && (1 <=? len local) && (len local <=? 64) && no_space local && no_space domain
  && bool_decide (at_sign ∉ domain)
  && (2 <=? len (split_on dot domain)) && forallb (λ w, negb (empty_text w)) (split_on dot domain).

Definition normalize_email (raw : text) : option text :=
  if empty_text raw then None
  else
    let candidate := lower (strip raw) in
    if (profile_config.MAX_LEN_EMAIL <? len candidate) || negb (email_match candidate) then None
    else Some candidate.

(** [hash(IdentifierKind.EMAIL, raw)], the only kind handlers ask for *)
Definition hash_email `{Hasher} (raw : text) : result profile_error (option text) :=
  match normalize_email raw with
  | None => Ok None
  | Some n =>
    if empty_text (strip pepper) then Err IdentifierPepperNotConfiguredError
    else Ok (Some (hmac_sha256 pepper n))
  end.

End IdentifierHasher.

(** *** Who sees a photo *)
Record ContactProfileDTO : Type := MkContactProfile {
  cp_id : Z;
  cp_username : text;
  cp_display_name : option text;
  cp_avatars : AvatarMap;
}.
#[global] Instance ContactProfileDTO_settable : Settable ContactProfileDTO := λ d,
  MkContactProfile (cp_id d) (cp_username d) (cp_display_name d) (cp_avatars d).

#[global] Instance ContactProfileDTO_eq_dec : EqDecision ContactProfileDTO.
Proof. solve_decision. Defined.

Definition profile_dto (p : Profile.t) : ContactProfileDTO :=
  MkContactProfile (Profile.id p) (Profile.username p) (Profile.display_name p) (Profile.avatars p).

Module ProfilePrivacyService.

Definition allowed_by (rule : PrivacyRule) (viewer_id : option Z) (owner_ids : gset Z) : P (gset Z) :=
  if bool_decide (owner_ids = ∅) then mret ∅
  else
    let itself : gset Z := match viewer_id with Some v => if bool_decide (v ∈ owner_ids) then {[ v ]} else ∅ | None => ∅ end in
    let owners := owner_ids ∖ itself in
    if bool_decide (owners = ∅) then mret itself
    else
      visibility ← ProfilePrivacyRepository.visibility_map rule owners;
      exceptions ← match viewer_id with
                   | None => mret ∅
                   | Some v => ProfilePrivacyRepository.exceptions_for rule v owners
                   end;
      let need_contacts := filter (λ o, exceptions !! o = None
        ∧ default DEFAULT_VISIBILITY (visibility !! o) = CONTACTS) owners in
      contacts ← match viewer_id with
                 | Some v => if bool_decide (need_contacts = ∅) then mret ∅
                             else ContactRepository.owners_having_contact v need_contacts
                 | None => mret ∅
                 end;
      mret (itself ∪ filter (λ o,
        is_allowed (default DEFAULT_VISIBILITY (visibility !! o)) false
          (bool_decide (o ∈ contacts)) (exceptions !! o) = true) owners).

(** a listed profile that has avatars *)
Definition has_avatars (d : ContactProfileDTO) : bool := match cp_avatars d with [] => false | _ => true end.

Definition hide_from (allowed : gset Z) (d : ContactProfileDTO) : ContactProfileDTO :=
  if has_avatars d && negb (bool_decide (cp_id d ∈ allowed)) then d <| cp_avatars := [] |> else d.

Definition hide_photos (viewer_id : option Z) (holders : list (option ContactProfileDTO))
  : P (list (option ContactProfileDTO)) :=
  let targets := filter (λ d, has_avatars d = true) (omap (M := list) id holders) in
  if bool_decide (targets = []) then mret holders
  else
    allowed ← allowed_by PHOTO viewer_id (list_to_set (map cp_id targets));
    mret (map (option_map (hide_from allowed)) holders).

End ProfilePrivacyService.

(** *** Files of photos *)
(** libmagic and libvips on the bytes of a file *)
Class Imaging : Type := {
  from_buffer : image → string;
  dimensions : image → option (Z * Z);
  thumbnail : image → Z → text → image;
}.

Module ProfilePhotoStorage.

Definition slash : text := [47].
Definition avatar_key (user_id : Z) (photo_id : UUID) (size : SizeAvatar) (fmt : TypeImageAvatar) : text :=
  str_int user_id ++ slash ++ str_uuid photo_id ++ slash ++ str_int (size_value size) ++ [IdentifierHasher.dot] ++ format_value fmt.

Definition get_object (bucket : string) (key : text) : P image := λ w,
  (match pw_objects w !! (bucket, key) with Some d => Ok d | None => Err StorageError end, w).
Definition put_object (bucket : string) (key : text) (d : image) : P unit := λ w,
  (Ok tt, w <| pw_objects ::= <[(bucket, key) := d]> |>).
Definition delete_object (bucket : string) (key : text) : P unit := λ w,
  (Ok tt, w <| pw_objects ::= delete (bucket, key) |>).
Definition drop_pending (file_key : text) : P unit :=
  delete_object profile_config.PENDING_AVATAR_BUCKET file_key.

Section imaging.
Context `{Imaging}.

Definition load_validated (file_key : text) : P image :=
  data ← get_object profile_config.PENDING_AVATAR_BUCKET file_key;
  _ ← prefuse (profile_config.AVATAR_MAX_SIZE <? len data) (AvatarSizeError (len data));
  _ ← prefuse (bool_decide (from_buffer data ∉ profile_config.AVATAR_ALLOWED_MIMES))
        (AvatarNotImageTypeError (from_buffer data));
  mret data.

Definition render (data : image) : result profile_error (list (SizeAvatar * TypeImageAvatar * image)) :=
  match dimensions data with
  | None => Err VipsError
  | Some (width, height) =>
    if (width <=? 0) || (height <=? 0) || (profile_config.AVATAR_MAX_PIXELS <? width * height)
    then Err (AvatarSizeError (width * height))
    else Ok (size ← all_sizes; fmt ← all_formats; [(size, fmt, thumbnail data (size_value size) (format_value fmt))])
  end.
End imaging.

(** [avatars.setdefault(size, {})[fmt] = key] *)
Fixpoint dict_set {V} (k : text) (v : V) (l : list (text * V)) : list (text * V) :=
  match l with
  | [] => [(k, v)]
  | (k', v') :: l' => if bool_decide (k' = k) then (k', v) :: l' else (k', v') :: dict_set k v l'
  end.
Fixpoint put_variant (size : Z) (fmt key : text) (l : AvatarMap) : AvatarMap :=
  match l with
  | [] => [(size, [(fmt, key)])]
  | (s, vs) :: l' => if s =? size then (s, dict_set fmt key vs) :: l' else (s, vs) :: put_variant size fmt key l'
  end.

Fixpoint upload_variants (user_id : Z) (photo_id : UUID) (rendered : list (SizeAvatar * TypeImageAvatar * image))
  (avatars : AvatarMap) : P AvatarMap :=
  match rendered with
  | [] => mret avatars
  | (size, fmt, content) :: rest =>
    let key := avatar_key user_id photo_id size fmt in
    _ ← put_object profile_config.AVATAR_BUCKET key content;
    upload_variants user_id photo_id rest (put_variant (size_value size) (format_value fmt) key avatars)
  end.

Definition variant_keys (avatars : AvatarMap) : list text := v ← avatars; v.2.*2.

Fixpoint delete_each (keys : list text) : P unit :=
  match keys with
  | [] => mret tt
  | k :: keys' => _ ← delete_object profile_config.AVATAR_BUCKET k; delete_each keys'
  end.

(** only keys under the user's own prefix are deleted *)
Definition delete_variants (user_id : Z) (avatars : AvatarMap) : P unit :=
  delete_each (filter (λ k, (str_int user_id ++ slash) `prefix_of` k) (variant_keys avatars)).

End ProfilePhotoStorage.
