(* ===== verification/ProfileCommands.v ===== *)
(** The handlers of [app/profiles/commands] and [app/profiles/queries], and the
    consumer of the account events ([app/profiles/consumers/user.py]). Logging,
    presigned URLs and the cache of listings are left out; a DTO is the row it
    is validated from with the profile shown next to it. *)
From S2P Require Import Prelude Events PrivacyModel Rbac WsModel AuthModel ProfileModel ProfileStore.

Definition profile_owner_permissions : gset string := {[ "profile:update"; "user:update" ]}%string.

(** ** Profiles *)
Module CreateProfile.
Record command : Type := Mk {
  user_id : Z;
  username : text;
  display_name : option text;
  bio : option text;
  date_birthday : option Z;
  specialization : option text;
  skills : option (list text);
}.
Definition handle (cmd : command) : P unit :=
  profile ← ProfileRepository.get_by_id (user_id cmd);
  _ ← prefuse (is_some profile) AlreadeExistProfileError;
  now ← transaction_time;
  '(profile, events) ← plift (Profile.create now (user_id cmd) (username cmd) (display_name cmd)
    (specialization cmd) (bio cmd) (default [] (skills cmd)) (date_birthday cmd));
  _ ← ProfileRepository.create profile;
  _ ← ppublish events;
  pcommit.
End CreateProfile.

Module GetOrCreateProfile.
Definition handle (user_id : Z) (username : text) : P Profile.t :=
  profile ← ProfileRepository.get_by_id user_id;
  match profile with
  | Some profile => mret profile
  | None =>
    now ← transaction_time;
    '(profile, events) ← plift (Profile.create now user_id username None None None [] None);
    _ ← ProfileRepository.create profile;
    _ ← ppublish events;
    _ ← pcommit;
    mret profile
  end.
End GetOrCreateProfile.

Module ChangeProfileUsername.
Definition handle (user_id : Z) (username : text) : P unit :=
  profile ← ProfileRepository.get_by_id user_id;
  now ← transaction_time;
  '(profile, events) ← match profile with
                       | None => plift (Profile.create now user_id username None None None [] None)
                       | Some p => mret (Profile.change_username p username)
                       end;
  if bool_decide (length events = 0%nat) then mret tt
  else
    _ ← ProfileRepository.save profile;
    _ ← ppublish events;
    pcommit.
End ChangeProfileUsername.

(** the caller's own profile, or one the caller may administer *)
Definition own_profile `{RBACManager} (profile_id : Z) (j : UserJWTData) : P Profile.t :=
  found ← ProfileRepository.get_by_id profile_id;
  profile ← pfound found (NotFoundProfileError profile_id);
  _ ← prefuse (negb (Profile.id profile =? jwt_id j) && negb (check_permission j profile_owner_permissions))
        (ProfileAccessDenied (profile_owner_permissions ∖ list_to_set (jwt_permissions j)));
  mret profile.

Module UpdateProfile.
Record command : Type := Mk {
  profile_id : Z;
  display_name : option text;
  bio : option text;
  skills : option (list text);
  date_birthday : option Z;
  specialization : option text;
  user_jwt_data : UserJWTData;
}.
Definition handle `{RBACManager} (cmd : command) : P unit :=
  profile ← own_profile (profile_id cmd) (user_jwt_data cmd);
  '(profile, events) ← plift (Profile.update profile (display_name cmd) (bio cmd) (specialization cmd)
    (date_birthday cmd) (default [] (skills cmd)));
  _ ← ProfileRepository.save profile;
  _ ← ppublish events;
  pcommit.
End UpdateProfile.

Module AddLinkToProfile.
Definition handle `{RBACManager} (profile_id : Z) (provider contact : text) (j : UserJWTData) : P unit :=
  profile ← own_profile profile_id j;
  _ ← ProfileRepository.save (Profile.add_link profile provider contact);
  pcommit.
End AddLinkToProfile.

Module RemoveLinkFromProfile.
Definition handle `{RBACManager} (profile_id : Z) (provider : text) (j : UserJWTData) : P unit :=
  profile ← own_profile profile_id j;
  _ ← ProfileRepository.save (Profile.remove_link profile provider);
  pcommit.
End RemoveLinkFromProfile.

(** ** Photos *)
Module UloadProfileAvatar.
(** [upload_put_url] answers a URL for the key; the key is what matters here *)
Definition handle (user_id : Z) (file_name : text) : P text :=
  n ← ProfilePhotoRepository.count user_id;
  _ ← prefuse (profile_config.MAX_PROFILE_PHOTOS <=? n) (ProfilePhotosLimitError profile_config.MAX_PROFILE_PHOTOS);
  mret (str_int user_id ++ ProfilePhotoStorage.slash ++ file_name).
End UloadProfileAvatar.

Module UpdateProfileAvatar.
Definition handle (file_key : text) (j : UserJWTData) : P unit := λ w,
  (Ok tt, w <| pw_tasks ::= (λ l, l ++ [MkAvatarTask (jwt_id j) file_key]) |>).
End UpdateProfileAvatar.

Module ProccessAvatar.

Definition history_is_full (user_id : Z) : P bool :=
  n ← ProfilePhotoRepository.count user_id; mret (profile_config.MAX_PROFILE_PHOTOS <=? n).

(** [try: ... except (AvatarSizeError, AvatarNotImageTypeError): drop; raise] *)
Definition dropping_refused {X} (file_key : text) (m : P X) : P X := λ w,
  match m w with
  | (Err (AvatarSizeError n), w') => (_ ← ProfilePhotoStorage.drop_pending file_key; praise (AvatarSizeError n)) w'
  | (Err (AvatarNotImageTypeError t), w') =>
    (_ ← ProfilePhotoStorage.drop_pending file_key; praise (AvatarNotImageTypeError t)) w'
  | r => r
  end.

Section handler.
Context `{Imaging}.

Definition rendered (file_key : text) : P (list (SizeAvatar * TypeImageAvatar * image)) :=
  data ← ProfilePhotoStorage.load_validated file_key; plift (ProfilePhotoStorage.render data).

Definition handle (user_id : Z) (file_key : text) : P unit :=
  _ ← prefuse (negb (bool_decide ((str_int user_id ++ ProfilePhotoStorage.slash) `prefix_of` file_key)))
        (AvatarFileKeyError file_key);
  found ← ProfileRepository.get_by_id user_id;
  _ ← pfound found (NotFoundProfileError user_id);
  full ← history_is_full user_id;
  _ ← (if full : bool
       then _ ← ProfilePhotoStorage.drop_pending file_key;
            praise (ProfilePhotosLimitError profile_config.MAX_PROFILE_PHOTOS)
       else mret tt);
  images ← dropping_refused file_key (rendered file_key);
  photo_id ← puuid7;
  avatars ← ProfilePhotoStorage.upload_variants user_id photo_id images [];
  found ← ProfileRepository.get_by_id user_id;
  full ← history_is_full user_id;
  match found with
  | None =>
    _ ← ProfilePhotoStorage.delete_variants user_id avatars;
    _ ← ProfilePhotoStorage.drop_pending file_key;
    praise (NotFoundProfileError user_id)
  | Some profile =>
    if full : bool then
      _ ← ProfilePhotoStorage.delete_variants user_id avatars;
      _ ← ProfilePhotoStorage.drop_pending file_key;
      praise (ProfilePhotosLimitError profile_config.MAX_PROFILE_PHOTOS)
    else
      now ← pnow;
      let photo := ProfilePhoto.create now photo_id user_id avatars in
      _ ← ProfilePhotoRepository.create photo;
      let '(profile, events) := Profile.set_photo profile (Some photo) in
      _ ← ProfileRepository.save profile;
      _ ← ppublish events;
      _ ← pcommit;
      ProfilePhotoStorage.drop_pending file_key
  end.
End handler.
End ProccessAvatar.

Module SetMainProfilePhoto.
Definition handle (photo_id : UUID) (j : UserJWTData) : P unit :=
  let user_id := jwt_id j in
  found ← ProfileRepository.get_by_id user_id;
  profile ← pfound found (NotFoundProfileError user_id);
  found ← ProfilePhotoRepository.get_own photo_id user_id;
  photo ← pfound found (NotFoundProfilePhotoError photo_id);
  if bool_decide (Profile.photo_id profile = Some (ProfilePhoto.id photo)) then mret tt
  else
    now ← pnow;
    let photo := ProfilePhoto.make_main now photo in
    _ ← ProfilePhotoRepository.save photo;
    let '(profile, events) := Profile.set_photo profile (Some photo) in
    _ ← ProfileRepository.save profile;
    _ ← ppublish events;
    pcommit.
End SetMainProfilePhoto.

Module DeleteProfilePhoto.
(** [photo_id or profile.photo_id] *)
Definition handle (photo_id : option UUID) (j : UserJWTData) : P unit :=
  let user_id := jwt_id j in
  found ← ProfileRepository.get_by_id user_id;
  profile ← pfound found (NotFoundProfileError user_id);
  found ← match coalesce photo_id (Profile.photo_id profile) with
          | Some p => ProfilePhotoRepository.get_own p user_id
          | None => mret None
          end;
  match found with
  | None => match photo_id with Some p => praise (NotFoundProfilePhotoError p) | None => mret tt end
  | Some photo =>
    _ ← ProfilePhotoRepository.delete photo;
    '(profile, events) ←
      (if bool_decide (Profile.photo_id profile = Some (ProfilePhoto.id photo)) then
         _ ← pflush;
         latest ← ProfilePhotoRepository.get_latest user_id;
         mret (Profile.set_photo profile latest)
       else mret (profile, []));
    _ ← ProfileRepository.save profile;
    _ ← ppublish events;
    _ ← pcommit;
    ProfilePhotoStorage.delete_variants user_id (ProfilePhoto.avatars photo)
  end.
End DeleteProfilePhoto.

(** ** Contacts *)
Record UserContactDTO : Type := MkContactDTO {
  cd_contact : UserContact.t;
  cd_profile : option ContactProfileDTO;
}.

(** the row with its [profile] relationship *)
Definition contact_dto (s : profile_store) (c : UserContact.t) : UserContactDTO :=
  MkContactDTO c (profile_dto <$> ContactRepository.live_profile s (UserContact.contact_id c)).

(** [hide_photos] on the profiles of a list of rows *)
Definition hidden_photos (owner_id : Z) (rows : list UserContactDTO) : P (list UserContactDTO) :=
  profiles ← ProfilePrivacyService.hide_photos (Some owner_id) (map cd_profile rows);
  mret (zip_with (λ d p, MkContactDTO (cd_contact d) p) rows profiles).

(** [a or b] on an optional string *)
Definition or_text (a b : option text) : option text := match or_none a with Some _ => a | None => b end.

Module AddContact.
Record command : Type := Mk {
  owner_id : Z;
  user_id : option Z;
  username : option text;
  first_name : option text;
  last_name : option text;
  user_jwt_data : option UserJWTData;
}.

Definition target (cmd : command) : P (option Profile.t) :=
  match username cmd, user_id cmd with
  | Some u, _ => ProfileRepository.get_by_username u
  | None, Some i => ProfileRepository.get_by_id i
  | None, None => mret None
  end.

Definition handle `{RBACManager} (cmd : command) : P (list UserContactDTO) :=
  let owner := owner_id cmd in
  _ ← check_contact_owner owner (user_jwt_data cmd);
  found ← target cmd;
  profile ← pfound found (NotFoundContactTargetError (user_id cmd) (username cmd));
  let other := Profile.id profile in
  _ ← prefuse (other =? owner) SelfContactError;
  blocked ← BlockedUserRepository.get_block_list owner;
  _ ← prefuse (bool_decide (other ∈ blocked)) (ContactBlockedError other);
  contact ← ContactRepository.get owner other;
  reverse ← ContactRepository.find_reverse_owners owner [other];
  let is_mutual := bool_decide (other ∈ reverse) in
  '(contact, events) ←
    match contact with
    | None =>
      n ← ContactRepository.count owner;
      _ ← prefuse (profile_config.MAX_CONTACTS_PER_USER <=? n)
            (ContactLimitExceededError profile_config.MAX_CONTACTS_PER_USER);
      now ← transaction_time;
      plift (UserContact.create now owner other (if truthy_text (username cmd) then USERNAME else MANUAL)
               (first_name cmd) (last_name cmd) is_mutual)
    | Some c =>
      now ← pnow;
      c ← plift (UserContact.rename now c (or_text (first_name cmd) (UserContact.first_name c))
                   (or_text (last_name cmd) (UserContact.last_name c)));
      mret (c, [])
    end;
  _ ← pwrite (λ s, s <| ps_contacts ::= <[(owner, other) := contact]> |>);
  _ ← pflush;
  _ ← (if is_mutual then ContactRepository.set_mutual owner [other] true else mret tt);
  _ ← ppublish events;
  _ ← pcommit;
  contact ← ContactRepository.get owner other;
  contact ← pfound contact (NotFoundContactError other);
  row ← pselect (λ s, contact_dto s contact);
  hidden_photos owner [row].
End AddContact.

Module UpdateContact.
Record command : Type := Mk {
  owner_id : Z;
  contact_id : Z;
  first_name : option text;
  last_name : option text;
  is_favorite : option bool;
  user_jwt_data : option UserJWTData;
}.
Definition handle `{RBACManager} (cmd : command) : P (list UserContactDTO) :=
  _ ← check_contact_owner (owner_id cmd) (user_jwt_data cmd);
  found ← ContactRepository.get (owner_id cmd) (contact_id cmd);
  contact ← pfound found (NotFoundContactError (contact_id cmd));
  now ← pnow;
  contact ← plift (UserContact.rename now contact (first_name cmd) (last_name cmd));
  contact ← match is_favorite cmd with
            | Some b => now ← pnow; mret (UserContact.mark_favorite now contact b)
            | None => mret contact
            end;
  _ ← pwrite (λ s, s <| ps_contacts ::= <[(owner_id cmd, contact_id cmd) := contact]> |>);
  _ ← pcommit;
  row ← pselect (λ s, contact_dto s contact);
  hidden_photos (owner_id cmd) [row].
End UpdateContact.

Module RemoveContact.
Definition handle `{RBACManager} (owner_id contact_id : Z) (j : option UserJWTData) : P unit :=
  _ ← check_contact_owner owner_id j;
  found ← ContactRepository.get owner_id contact_id;
  contact ← pfound found (NotFoundContactError contact_id);
  _ ← ContactRepository.delete owner_id contact_id;
  _ ← ppublish (UserContact.register_removed contact);
  pcommit.
End RemoveContact.

Module BlockUser.
Definition handle `{RBACManager} (owner_id target_id : Z) (j : option UserJWTData) : P unit :=
  _ ← check_contact_owner owner_id j;
  _ ← prefuse (owner_id =? target_id) SelfContactError;
  existing ← BlockedUserRepository.get owner_id target_id;
  match existing with
  | Some _ => mret tt
  | None =>
    now ← transaction_time;
    _ ← pwrite (λ s, s <| ps_blocked ::= <[(owner_id, target_id) := now]> |>);
    _ ← ppublish [UserBlocked owner_id target_id];
    _ ← pcommit;
    BlockedUserRepository.invalidate_block_list owner_id
  end.
End BlockUser.

Module UnblockUser.
Definition handle `{RBACManager} (owner_id target_id : Z) (j : option UserJWTData) : P unit :=
  _ ← check_contact_owner owner_id j;
  blocked ← BlockedUserRepository.get owner_id target_id;
  match blocked with
  | None => mret tt
  | Some _ =>
    _ ← ppublish [UserUnblocked owner_id target_id];
    _ ← pwrite (λ s, s <| ps_blocked ::= delete (owner_id, target_id) |>);
    _ ← pcommit;
    BlockedUserRepository.invalidate_block_list owner_id
  end.
End UnblockUser.

Record ImportContactEntry : Type := MkEntry {
  ie_email : text;
  ie_first_name : option text;
  ie_last_name : option text;
}.

(** [d.setdefault(k, v)] on a dict in insertion order *)
Definition setdefault {K V} `{EqDecision K} (k : K) (v : V) (d : list (K * V)) : list (K * V) :=
  if bool_decide (k ∈ d.*1) then d else d ++ [(k, v)].

Module ImportContacts.

Record outcome : Type := MkOutcome {
  accepted : Z;
  matched : Z;
  pending : Z;
  invalid : Z;
  contacts : list UserContactDTO;
}.

(** the loop of [_hash_entries] *)
Fixpoint hash_entries `{Hasher} (entries : list ImportContactEntry) (by_hash : list (text * ImportContactEntry))
  (invalid : Z) : result profile_error (list (text * ImportContactEntry) * Z) :=
  match entries with
  | [] => Ok (by_hash, invalid)
  | e :: entries' =>
    h ← IdentifierHasher.hash_email (ie_email e);
    match h with
    | None => hash_entries entries' by_hash (invalid + 1)
    | Some h => hash_entries entries' (setdefault h e by_hash) invalid
    end
  end.

Definition _hash_entries `{Hasher} (entries : list ImportContactEntry) := hash_entries entries [] 0.

(** one turn of the loop of [_split_by_registration] *)
Definition split_step (owner_id : Z) (blocked : gset Z) (resolved : gmap text Z)
  (acc : list (Z * ImportContactEntry) * list PendingUpsert) (he : text * ImportContactEntry)
  : list (Z * ImportContactEntry) * list PendingUpsert :=
  let '(matched, pending) := acc in
  let '(h, e) := he in
  match resolved !! h with
  | None => (matched, pending ++ [MkPendingUpsert h (ie_first_name e) (ie_last_name e)])
  | Some user_id =>
    if (user_id =? owner_id) || bool_decide (user_id ∈ blocked) then (matched, pending)
    else (setdefault user_id e matched, pending)
  end.

Definition _split_by_registration (owner_id : Z) (by_hash : list (text * ImportContactEntry))
  (resolved : gmap text Z) : P (list (Z * ImportContactEntry) * list PendingUpsert) :=
  blocked ← BlockedUserRepository.get_block_list owner_id;
  mret (foldl (split_step owner_id blocked resolved) ([], []) by_hash).

Definition _check_limit (owner_id incoming : Z) : P unit :=
  if incoming =? 0 then mret tt
  else
    current ← ContactRepository.count owner_id;
    prefuse (profile_config.MAX_CONTACTS_PER_USER <? current + incoming)
      (ContactLimitExceededError profile_config.MAX_CONTACTS_PER_USER).

Definition import_upsert (me : Z * ImportContactEntry) : ContactUpsert :=
  MkContactUpsert me.1 IMPORT (ie_first_name me.2) (ie_last_name me.2).

Definition handle `{RBACManager, Hasher} (owner_id : Z) (entries : list ImportContactEntry)
  (j : option UserJWTData) : P outcome :=
  _ ← check_contact_owner owner_id j;
  _ ← prefuse (profile_config.CONTACTS_IMPORT_MAX_BATCH <? len entries)
        (ImportBatchTooLargeError profile_config.CONTACTS_IMPORT_MAX_BATCH (len entries));
  '(by_hash, invalid) ← plift (_hash_entries entries);
  granted ← ContactIdentifierRepository.consume_quota owner_id (len by_hash);
  _ ← prefuse (negb granted) (IdentifierQuotaExceededError profile_config.CONTACTS_NEW_IDENTIFIERS_PER_DAY);
  resolved ← ContactIdentifierRepository.resolve by_hash.*1;
  '(matched, pending) ← _split_by_registration owner_id by_hash resolved;
  _ ← _check_limit owner_id (len matched);
  inserted ← ContactRepository.upsert_many owner_id (map import_upsert matched);
  _ ← ContactIdentifierRepository.upsert_pending_many owner_id pending;
  reverse ← ContactRepository.find_reverse_owners owner_id matched.*1;
  _ ← ContactRepository.set_mutual owner_id (ProfilePrivacy.sorted_ids reverse) true;
  _ ← ppublish (map (λ c, ContactAdded owner_id c (source_value IMPORT) (bool_decide (c ∈ reverse)))
                  (ProfilePrivacy.sorted_ids inserted));
  _ ← pcommit;
  rows ← ContactRepository.get_many owner_id matched.*1;
  dtos ← pselect (λ s, map (contact_dto s) rows);
  dtos ← hidden_photos owner_id dtos;
  mret (MkOutcome (len entries) (len matched) (len pending) invalid dtos).
End ImportContacts.

Module RegisterUserIdentifier.

Definition import_row (user_id : Z) (row : Z * PendingContact.t) : Z * ContactUpsert :=
  (row.1, MkContactUpsert user_id IMPORT (PendingContact.first_name row.2) (PendingContact.last_name row.2)).

(** [sorted] of pairs of integers *)
Definition pair_le (a b : Z * Z) : Prop := a.1 < b.1 ∨ (a.1 = b.1 ∧ a.2 ≤ b.2).
#[global] Instance pair_le_dec : RelDecision pair_le.
Proof. intros a b. unfold pair_le. apply _. Defined.

Definition _apply_batch (identifier_hash : text) (batch : list (Z * PendingContact.t)) (user_id events_left : Z)
  : P Z :=
  let events_limit := Z.max events_left 0 in
  let waiting := filter (λ r, r.1 ≠ user_id) batch in
  inserted_pairs ← ContactRepository.upsert_many_pairs (map (import_row user_id) waiting);
  let owner_ids := waiting.*1 in
  mutual_owners ← ContactRepository.find_forward_contacts user_id owner_ids;
  _ ← ContactRepository.set_mutual_pairs (map (λ o, (o, user_id)) (ProfilePrivacy.sorted_ids mutual_owners));
  let events := map (λ '(o, c), ContactAdded o c (source_value IMPORT) (bool_decide (o ∈ mutual_owners)))
                  (take (Z.to_nat events_limit) (merge_sort pair_le (elements inserted_pairs))) in
  _ ← ContactIdentifierRepository.delete_pending identifier_hash batch.*1;
  _ ← ppublish events;
  _ ← pcommit;
  mret (len events).

(** the [while True] of [_resolve_pending]; [fuel] bounds its turns *)
Fixpoint resolve_pending (fuel : nat) (identifier_hash : text) (user_id resolved events_left : Z)
  (after_owner_id : option Z) : P (option Z) :=
  match fuel with
  | O => mret None
  | S fuel =>
    batch ← ContactIdentifierRepository.fetch_pending_batch identifier_hash
              profile_config.PENDING_RESOLVE_BATCH_SIZE after_owner_id;
    match list.last batch with
    | None => mret (Some resolved)
    | Some row =>
      sent ← _apply_batch identifier_hash batch user_id events_left;
      resolve_pending fuel identifier_hash user_id (resolved + len batch) (events_left - sent) (Some row.1)
    end
  end.

(** as many turns as rows wait, and one that finds none *)
Definition _resolve_pending (identifier_hash : text) (user_id : Z) : P (option Z) :=
  fuel ← pselect (λ s, S (length (ContactIdentifierRepository.waiting_rows s identifier_hash)));
  resolve_pending fuel identifier_hash user_id 0 profile_config.PENDING_RESOLVE_MAX_EVENTS None.

Definition handle `{Hasher} (user_id : Z) (email : text) : P (option Z) :=
  h ← plift (IdentifierHasher.hash_email email);
  match h with
  | None => mret (Some 0)
  | Some identifier_hash =>
    _ ← ContactIdentifierRepository.upsert identifier_hash EMAIL user_id;
    _ ← pcommit;
    _resolve_pending identifier_hash user_id
  end.
End RegisterUserIdentifier.

(** ** Privacy settings *)
Module UpdatePrivacySettings.
Definition set_rules (p : ProfilePrivacy.t) (rules : list (PrivacyRule * PrivacyVisibility)) : ProfilePrivacy.t :=
  foldl (λ p rv, ProfilePrivacy.set_rule p rv.1 rv.2) p rules.

Fixpoint replace_each (p : ProfilePrivacy.t) (l : list (PrivacyRule * (list Z * list Z)))
  : result profile_error ProfilePrivacy.t :=
  match l with
  | [] => Ok p
  | (rule, (allow, deny)) :: l' =>
    p ← ProfilePrivacy.replace_exceptions p rule allow deny; replace_each p l'
  end.

(** the settings as they are answered: the two snapshots *)
Definition handle (user_id : Z) (rules : list (PrivacyRule * PrivacyVisibility))
  (exceptions : list (PrivacyRule * (list Z * list Z)))
  : P (list (string * string) * list (string * list (string * list Z))) :=
  privacy ← ProfilePrivacyRepository.get_or_create user_id;
  privacy ← plift (replace_each (set_rules privacy rules) exceptions);
  _ ← ProfilePrivacyRepository.save privacy;
  _ ← ppublish (ProfilePrivacy.register_updated privacy);
  _ ← pcommit;
  mret (ProfilePrivacy.rules_snapshot privacy, ProfilePrivacy.exceptions_snapshot privacy).
End UpdatePrivacySettings.

(** ** Queries *)
Definition clear_avatars (d : ContactProfileDTO) : ContactProfileDTO := d <| cp_avatars := [] |>.

(** [limit] brought into the range of a page *)
Definition page_limit (limit : Z) : Z := Z.min (Z.max limit 1) profile_config.CONTACTS_MAX_PAGE_SIZE.

Module GetContacts.
Record query : Type := Mk {
  owner_id : Z;
  limit : Z;
  after_contact_id : option Z;
  updated_after : option datetime;
  user_jwt_data : option UserJWTData;
}.
Record result : Type := MkContactList {
  contacts : list UserContactDTO;
  has_next : bool;
  next_contact_id : option Z;
  version : option datetime;
}.
Definition row_id (d : UserContactDTO) : Z := UserContact.contact_id (cd_contact d).

Definition handle `{RBACManager} (q : query) : P result :=
  _ ← check_contact_owner (owner_id q) (user_jwt_data q);
  '(rows, has_next) ← ContactRepository.list_page (owner_id q) (page_limit (limit q)) (after_contact_id q)
                        (updated_after q);
  dtos ← pselect (λ s, map (contact_dto s) rows);
  hidden ← BlockedUserRepository.blockers_of (owner_id q) (map row_id dtos);
  let dtos := map (λ d, if bool_decide (row_id d ∈ hidden)
                        then MkContactDTO (cd_contact d) (option_map clear_avatars (cd_profile d)) else d) dtos in
  dtos ← hidden_photos (owner_id q) dtos;
  version ← (if has_next : bool then mret None else ContactRepository.max_updated_at (owner_id q));
  mret (MkContactList dtos has_next (if has_next then row_id <$> list.last dtos else None) version).
End GetContacts.

Module GetBlockedUsers.
Record result : Type := MkBlockedList {
  blocked : list (Z * option ContactProfileDTO);
  has_next : bool;
  next_target_id : option Z;
}.
Definition handle `{RBACManager} (owner_id limit : Z) (after_target_id : option Z) (j : option UserJWTData)
  : P result :=
  _ ← check_contact_owner owner_id j;
  '(rows, has_next) ← BlockedUserRepository.list_page owner_id (page_limit limit) after_target_id;
  profiles ← pselect (λ s, map (λ t, profile_dto <$> ContactRepository.live_profile s t) rows);
  profiles ← ProfilePrivacyService.hide_photos (Some owner_id) profiles;
  mret (MkBlockedList (zip rows profiles) has_next (if has_next then list.last rows else None)).
End GetBlockedUsers.

Module SearchContacts.
Record item : Type := MkItem {
  user_id : Z;
  profile : option ContactProfileDTO;
  contact : option UserContact.t;
}.
#[global] Instance item_settable : Settable item := λ i, MkItem (user_id i) (profile i) (contact i).

Definition CONTACTS_SEARCH_LIMIT : Z := 50.
Definition CONTACTS_SEARCH_MIN_PREFIX : Z := 2.

Definition _search_username (owner_id : Z) (username : text) : P (list item) :=
  if empty_text username then mret []
  else
    found ← ProfileRepository.get_by_username username;
    match found with
    | None => mret []
    | Some p => c ← ContactRepository.get owner_id (Profile.id p);
                mret [MkItem (Profile.id p) (Some (profile_dto p)) c]
    end.

Definition _search_own (owner_id : Z) (prefix : text) (limit : Z) : P (list item) :=
  rows ← ContactRepository.search_own owner_id prefix (Z.min (Z.max limit 1) CONTACTS_SEARCH_LIMIT);
  pselect (λ s, map (λ c, MkItem (UserContact.contact_id c)
    (profile_dto <$> ContactRepository.live_profile s (UserContact.contact_id c)) (Some c)) rows).

Definition handle `{RBACManager} (owner_id : Z) (query : text) (limit : Z) (j : option UserJWTData) : P (list item) :=
  _ ← check_contact_owner owner_id j;
  let raw := strip query in
  if empty_text raw then mret []
  else if negb (bool_decide ([IdentifierHasher.at_sign] `prefix_of` raw)) && (len raw <? CONTACTS_SEARCH_MIN_PREFIX)
  then mret []
  else
    items ← match raw with
            | c :: username => if c =? IdentifierHasher.at_sign then _search_username owner_id username
                               else _search_own owner_id raw limit
            | [] => mret []
            end;
    hidden ← BlockedUserRepository.blockers_of owner_id (map user_id items);
    let items := map (λ i, if bool_decide (user_id i ∈ hidden) then i <| profile ::= option_map clear_avatars |> else i) items in
    profiles ← ProfilePrivacyService.hide_photos (Some owner_id) (map profile items);
    mret (zip_with (λ i p, i <| profile := p |>) items profiles).
End SearchContacts.

Module GetProfileById.
(** the profile as it is shown to the caller *)
Definition handle (profile_id : Z) (j : UserJWTData) : P (Profile.t * AvatarMap) :=
  found ← ProfileRepository.get_by_id profile_id;
  profile ← pfound found (NotFoundProfileError profile_id);
  let viewer_id := jwt_id j in
  blocked ← (if viewer_id =? profile_id then mret false
             else ids ← BlockedUserRepository.get_block_list profile_id; mret (bool_decide (viewer_id ∈ ids)));
  let d := if blocked : bool then clear_avatars (profile_dto profile) else profile_dto profile in
  shown ← ProfilePrivacyService.hide_photos (Some viewer_id) [Some d];
  mret (profile, default [] (cp_avatars <$> (head shown ≫= id))).
End GetProfileById.

Module GetProfilePhotos.
(** the page of photos, newest main first, with the flag of the current one *)
Definition handle (profile_id page_number page_size : Z) (j : UserJWTData)
  : P (list (ProfilePhoto.t * bool) * Z) :=
  found ← pselect (λ s, ContactRepository.live_profile s profile_id);
  profile ← pfound found (NotFoundProfileError profile_id);
  let viewer_id := jwt_id j in
  hidden ← (if viewer_id =? profile_id then mret false
            else
              ids ← BlockedUserRepository.get_block_list profile_id;
              if bool_decide (viewer_id ∈ ids) then mret true
              else allowed ← ProfilePrivacyService.allowed_by PHOTO (Some viewer_id) {[ profile_id ]};
                   mret (negb (bool_decide (profile_id ∈ allowed))));
  if hidden : bool then mret ([], 0)
  else
    rows ← pselect (λ s, ProfilePhotoRepository.photos_of s profile_id);
    mret (map (λ ph, (ph, bool_decide (Profile.photo_id profile = Some (ProfilePhoto.id ph))))
            (take (Z.to_nat page_size) (drop (Z.to_nat ((page_number - 1) * page_size)) rows)), len rows).
End GetProfilePhotos.

Module GetPrivacySettings.
Definition handle (user_id : Z) : P (list (string * string) * list (string * list (string * list Z))) :=
  privacy ← ProfilePrivacyRepository.get user_id;
  let p := default (ProfilePrivacy.create user_id) privacy in
  mret (ProfilePrivacy.rules_snapshot p, ProfilePrivacy.exceptions_snapshot p).
End GetPrivacySettings.

(** ** The consumer of account events *)
Section consumer.
Context `{Hasher}.

(** [commands_for], each command as the handler the mediator finds for it *)
Definition commands_for (e : auth_event) : list (P unit) :=
  match e with
  | VerifiedUserEvent user_id username email =>
    [(_ ← GetOrCreateProfile.handle user_id username; mret tt);
     (_ ← RegisterUserIdentifier.handle user_id email; mret tt)]
  | ChangedUsernameEvent user_id _ username => [ChangeProfileUsername.handle user_id username]
  | _ => []
  end.

Fixpoint handle_commands (l : list (P unit)) : P unit :=
  match l with [] => mret tt | c :: l' => _ ← c; handle_commands l' end.

(** [processed] are the event ids the guard holds; a failure gives the id back *)
Definition on_user_event (event_id : UUID) (e : auth_event) (processed : gset UUID) (w : profile_world)
  : bool * gset UUID * profile_world :=
  if bool_decide (commands_for e = []) then (true, processed, w)
  else if bool_decide (event_id ∈ processed) then (true, processed, w)
  else match run_profile (handle_commands (commands_for e)) w with
       | (Ok _, w') => (true, {[ event_id ]} ∪ processed, w')
       | (Err _, w') => (false, processed, w')
       end.
End consumer.
