(* ===== verification/Projections.v ===== *)
(** The chat module's copies of what the profile module owns: block lists,
    contacts, privacy settings, names and avatars. The handlers that apply an
    event ([app/chats/commands/blocks], [contacts], [privacy] and [profiles])
    and the Kafka consumers that call them ([app/chats/consumers/blocks.py],
    [contacts.py], [privacy.py], [profiles.py]) with the guard against repeated
    deliveries ([app/core/consumers/idempotency.py]); the guard's keys live for
    seven days, and deliveries are taken to repeat within them. *)
From S2P Require Import Prelude Config Events MemberModel ChatModel PrivacyModel Store Wp PrivacyService WsModel ProfileModel.

(** ** [pick_avatar_key] *)
Definition CHAT_AVATAR_SIZE : Z := 64.
Definition AVATAR_FORMAT_PREFERENCE : list text := [u8 "jpg"; u8 "webp"; u8 "avif"].

(** a dict read by key *)
Definition text_get {V} (k : text) (d : list (text * V)) : option V :=
  snd <$> List.find (λ kv, bool_decide (kv.1 = k)) d.

(** [{normalize(k): v for k, v in avatars.items()}] *)
Fixpoint dict_put {V} (k : text) (v : V) (d : list (text * V)) : list (text * V) :=
  match d with
  | [] => [(k, v)]
  | (k', v') :: d' => if bool_decide (k' = k) then (k', v) :: d' else (k', v') :: dict_put k v d'
  end.
Definition by_size (avatars : list (text * list (text * text))) : list (text * list (text * text)) :=
  foldl (λ d kv, dict_put (strip kv.1) kv.2 d) [] avatars.

(** [key=lambda s: (abs(s - size), -s)] *)
Definition nearer (a b : Z) : Prop :=
  Z.abs (a - CHAT_AVATAR_SIZE) < Z.abs (b - CHAT_AVATAR_SIZE)
  ∨ (Z.abs (a - CHAT_AVATAR_SIZE) = Z.abs (b - CHAT_AVATAR_SIZE) ∧ b ≤ a).
#[global] Instance nearer_dec : RelDecision nearer.
Proof. intros a b. unfold nearer. apply _. Defined.

Definition size_candidates (sizes : list text) : list text :=
  fromkeys (str_int CHAT_AVATAR_SIZE :: map str_int (merge_sort nearer (omap py_int sizes))).

(** the first format of the preference with a key that is not empty *)
Definition preferred (variants : list (text * text)) : option text :=
  List.find (λ v, negb (empty_text v)) (omap (λ f, text_get f variants) AVATAR_FORMAT_PREFERENCE).

Definition pick_avatar_key (avatars : list (text * list (text * text))) : option text :=
  let d := by_size avatars in
  head (omap (λ size, text_get size d ≫= preferred) (size_candidates d.*1)).

(** ** The commands *)
Module ApplyUserBlock.
Definition handle (owner_id target_id : Z) (blocked : bool) : M unit :=
  _ ← (if blocked then ChatUserBlockRepository.block owner_id target_id
       else ChatUserBlockRepository.unblock owner_id target_id);
  commit.
End ApplyUserBlock.

Module ApplyUserContact.
Definition handle (owner_id contact_id : Z) (added : bool) : M unit :=
  _ ← (if added then ChatPrivacyProjectionRepository.add_contact owner_id contact_id
       else ChatPrivacyProjectionRepository.remove_contact owner_id contact_id);
  commit.
End ApplyUserContact.

Module ApplyProfilePrivacy.
Definition handle (user_id : Z) (event_updated_at : datetime) (rules : gmap string string)
  (exceptions : list (string * list (string * list Z))) : M unit :=
  applied ← ChatPrivacyProjectionRepository.upsert_privacy user_id rules event_updated_at;
  _ ← (if applied : bool then ChatPrivacyProjectionRepository.replace_exceptions user_id exceptions else mret tt);
  commit.
End ApplyProfilePrivacy.

Module UpsertProfileProjection.
Definition handle (user_id : Z) (username display_name : option text)
  (avatars : list (text * list (text * text))) (event_id : option UUID) (event_updated_at : option datetime)
  : M unit :=
  match event_updated_at with
  | None => mret tt
  | Some t =>
    _ ← ChatUserProfileRepository.upsert user_id username display_name (pick_avatar_key avatars) t event_id;
    commit
  end.
End UpsertProfileProjection.

(** ** The consumers *)
Module EventIdempotencyGuard.
(** [SET key 1 NX]: whether the key was new; [DEL key] *)
Definition try_acquire (group : string) (event_id : UUID) (processed : gset (string * UUID))
  : bool * gset (string * UUID) :=
  (bool_decide ((group, event_id) ∉ processed), {[ (group, event_id) ]} ∪ processed).
Definition release (group : string) (event_id : UUID) (processed : gset (string * UUID)) : gset (string * UUID) :=
  processed ∖ {[ (group, event_id) ]}.
End EventIdempotencyGuard.

Definition BLOCK_PROJECTION_GROUP_ID : string := "chat_block_projection".
Definition CONTACTS_PROJECTION_GROUP_ID : string := "chat_contacts_projection".
Definition PRIVACY_PROJECTION_GROUP_ID : string := "chat_privacy_projection".
Definition PROFILE_PROJECTION_GROUP_ID : string := "profile_projection".

Definition BLOCK_EVENT_STATES (event_name : string) : option bool :=
  if String.eqb event_name "profiles.user.blocked" then Some true
  else if String.eqb event_name "profiles.user.unblocked" then Some false else None.
Definition CONTACT_EVENT_STATES (event_name : string) : option bool :=
  if String.eqb event_name "profiles.contact.added" then Some true
  else if String.eqb event_name "profiles.contact.removed" then Some false else None.
Definition PRIVACY_UPDATED_EVENT : string := "profiles.privacy.updated".
Definition PROFILE_EVENT_NAMES : list string := ["profiles.profile.created"; "profiles.profile.updated"]%string.

(** the fields the payload models read; a payload without them is refused *)
Definition UserBlockPayload (e : profile_event) : option (Z * Z) :=
  match e with UserBlocked o t | UserUnblocked o t => Some (o, t) | _ => None end.
Definition UserContactPayload (e : profile_event) : option (Z * Z) :=
  match e with ContactAdded o c _ _ | ContactRemoved o c => Some (o, c) | _ => None end.
Definition PrivacyUpdatedPayload (e : profile_event)
  : option (Z * gmap string string * list (string * list (string * list Z))) :=
  match e with PrivacyUpdated u rules exceptions => Some (u, list_to_map rules, exceptions) | _ => None end.
(** [json.dumps] writes the sizes as strings *)
Definition json_avatars (a : AvatarMap) : list (text * list (text * text)) := map (λ kv, (str_int kv.1, kv.2)) a.
Definition ProfileDataEvent (e : profile_event) : option ProfileData :=
  match e with ProfileCreated d | ProfileUpdated d => Some d | _ => None end.

Record consumer_world : Type := MkConsumer {
  cw_chats : world;
  cw_processed : gset (string * UUID);
}.
#[global] Instance consumer_world_settable : Settable consumer_world := λ w,
  MkConsumer (cw_chats w) (cw_processed w).

(** the body the consumers share: guard, command, and the id given back when
    the command fails; [false] when the delivery raises *)
Definition guarded (group : string) (m : profile_message) (command : option (M unit)) (w : consumer_world)
  : bool * consumer_world :=
  let '(acquired, processed) := EventIdempotencyGuard.try_acquire group (pm_id m) (cw_processed w) in
  if negb acquired then (true, w)
  else match command with
       | None => (false, w <| cw_processed := processed |>)
       | Some c =>
         match run_command c (cw_chats w) with
         | (Ok _, chats) => (true, MkConsumer chats processed)
         | (Err _, chats) => (false, MkConsumer chats (EventIdempotencyGuard.release group (pm_id m) processed))
         end
       end.

Definition project_user_block (m : profile_message) (w : consumer_world) : bool * consumer_world :=
  match BLOCK_EVENT_STATES (profile_event_name (pm_event m)) with
  | None => (true, w)
  | Some blocked =>
    guarded BLOCK_PROJECTION_GROUP_ID m
      ((λ '(o, t), ApplyUserBlock.handle o t blocked) <$> UserBlockPayload (pm_event m)) w
  end.

Definition project_user_contact (m : profile_message) (w : consumer_world) : bool * consumer_world :=
  match CONTACT_EVENT_STATES (profile_event_name (pm_event m)) with
  | None => (true, w)
  | Some added =>
    guarded CONTACTS_PROJECTION_GROUP_ID m
      ((λ '(o, c), ApplyUserContact.handle o c added) <$> UserContactPayload (pm_event m)) w
  end.

Definition project_profile_privacy (m : profile_message) (w : consumer_world) : bool * consumer_world :=
  if negb (bool_decide (profile_event_name (pm_event m) = PRIVACY_UPDATED_EVENT)) then (true, w)
  else guarded PRIVACY_PROJECTION_GROUP_ID m
         ((λ '(u, rules, exceptions), ApplyProfilePrivacy.handle u (pm_created_at m) rules exceptions)
            <$> PrivacyUpdatedPayload (pm_event m)) w.

Definition route_profile_delivery_event (m : profile_message) (w : consumer_world) : bool * consumer_world :=
  if negb (bool_decide (profile_event_name (pm_event m) ∈ PROFILE_EVENT_NAMES)) then (true, w)
  else guarded PROFILE_PROJECTION_GROUP_ID m
         ((λ d, UpsertProfileProjection.handle (pd_user_id d) (Some (pd_username d)) (pd_display_name d)
                  (json_avatars (pd_avatars d)) (Some (pm_id m)) (Some (pm_created_at m)))
            <$> ProfileDataEvent (pm_event m)) w.

(** ** Deliveries

    Each consumer group reads the topic at its own pace. *)
Inductive consumer_group : Type := BlockGroup | ContactGroup | PrivacyGroup | ProfileGroup.
#[global] Instance consumer_group_eq_dec : EqDecision consumer_group.
Proof. solve_decision. Defined.

Definition consume (gm : consumer_group * profile_message) (w : consumer_world) : consumer_world :=
  (match gm.1 with
   | BlockGroup => project_user_block gm.2 w
   | ContactGroup => project_user_contact gm.2 w
   | PrivacyGroup => project_profile_privacy gm.2 w
   | ProfileGroup => route_profile_delivery_event gm.2 w
   end).2.

Definition consume_all (log : list (consumer_group * profile_message)) (w : consumer_world) : consumer_world :=
  foldl (λ w gm, consume gm w) w log.
