(* ===== verification/ProfileSpec.v ===== *)
(** Reasoning about the profile module: weakest preconditions of its handlers and
    the computations that leave the tables alone; and what the tables keep:
    contacts whose mutual flag is the presence of the reverse row, a main photo
    that is one of the gallery, and an outbox that tells the other modules what
    the tables hold. *)
From S2P Require Import Prelude Events PrivacyModel Rbac WsModel ProfileModel ProfileStore ProfileCommands.

Definition pwp {X} (m : P X) (w : profile_world) (Q : result profile_error X → profile_world → Prop) : Prop :=
  Q (m w).1 (m w).2.

(** Nothing but Redis, the files and the supplies moved; a block list that was
    cached meanwhile is the session's. *)
Record quiet (w w' : profile_world) : Prop := {
  quiet_session : pw_session w' = pw_session w;
  quiet_database : pw_database w' = pw_database w;
  quiet_now : pw_now w' = pw_now w;
  quiet_clock : pw_clock w' = pw_clock w;
  quiet_ticks : (pw_ticks w ≤ pw_ticks w')%nat;
  quiet_cache o ids until : pw_block_lists w' !! o = Some (ids, until) →
    (∃ until', pw_block_lists w !! o = Some (ids, until'))
    ∨ ids = list_to_set (BlockedUserRepository.targets_of (pw_session w) o);
}.

#[export] Instance quiet_refl : Reflexive quiet.
Proof. intros w. split; eauto. Qed.

#[export] Instance quiet_trans : Transitive quiet.
Proof.
  intros w1 w2 w3 [S1 D1 N1 C1 T1 B1] [S2 D2 N2 C2 T2 B2].
  split; [congruence|congruence|congruence|congruence|lia|].
  intros o ids until [[u' H]| ->]%B2; [by apply B1 in H|]. right. by rewrite S1.
Qed.

Class Quiet {X} (m : P X) : Prop := is_quiet w : quiet w (m w).2.

Section rules.
Context {X Y : Type}.
Implicit Types (w : profile_world).

Lemma pwp_mono (m : P X) w (P Q : result profile_error X → profile_world → Prop) :
  pwp m w P → (∀ r w', P r w' → Q r w') → pwp m w Q.
Proof. unfold pwp. auto. Qed.

Lemma pwp_bind (m : P X) (k : X → P Y) w Q :
  pwp m w (λ r w', match r with Ok a => pwp (k a) w' Q | Err e => Q (Err e) w' end) → pwp (m ≫= k) w Q.
Proof. unfold pwp, mbind, P_bind. by destruct (m w) as [[a|e] w']. Qed.

Lemma pwp_ret (a : X) w (Q : result profile_error X → profile_world → Prop) : Q (Ok a) w → pwp (mret a) w Q.
Proof. done. Qed.

Lemma pwp_raise e w (Q : result profile_error X → profile_world → Prop) : Q (Err e) w → pwp (praise e) w Q.
Proof. done. Qed.

Lemma pwp_lift (r : result profile_error X) w Q :
  (∀ a, r = Ok a → Q (Ok a) w) → (∀ e, r = Err e → Q (Err e) w) → pwp (plift r) w Q.
Proof. destruct r; unfold pwp; cbn; auto. Qed.

Lemma pwp_refuse bad e w (Q : result profile_error unit → profile_world → Prop) :
  (bad = false → Q (Ok tt) w) → (bad = true → Q (Err e) w) → pwp (prefuse bad e) w Q.
Proof. destruct bad; unfold pwp; cbn; auto. Qed.

Lemma pwp_found (o : option X) e w Q :
  (∀ a, o = Some a → Q (Ok a) w) → (o = None → Q (Err e) w) → pwp (pfound o e) w Q.
Proof. destruct o; unfold pwp; cbn; auto. Qed.

Lemma pwp_select (f : profile_store → X) w Q : Q (Ok (f (pw_session w))) w → pwp (pselect f) w Q.
Proof. done. Qed.

Lemma pwp_write f w (Q : result profile_error unit → profile_world → Prop) :
  Q (Ok tt) (w <| pw_session ::= f |>) → pwp (pwrite f) w Q.
Proof. done. Qed.

Lemma pwp_write_returning (f : profile_store → X * profile_store) w Q :
  Q (Ok (f (pw_session w)).1) (w <| pw_session := (f (pw_session w)).2 |>) → pwp (pwrite_returning f) w Q.
Proof. done. Qed.

Lemma pwp_flush w (Q : result profile_error unit → profile_world → Prop) :
  Q (Ok tt) w → (∀ c, Q (Err (ValueTooLong c)) w) → pwp pflush w Q.
Proof. unfold pwp, pflush. intros H1 H2. destruct (overflow _); cbn; auto. Qed.

(** the world a commit leaves *)
Definition committed w : profile_world :=
  w <| pw_database := pw_session w |> <| pw_now := pw_clock w (pw_ticks w) |> <| pw_ticks ::= S |>.

Lemma pwp_commit w (Q : result profile_error unit → profile_world → Prop) :
  (overflow (pw_session w) = None → Q (Ok tt) (committed w)) →
  (∀ c, Q (Err (ValueTooLong c)) w) → pwp pcommit w Q.
Proof. unfold pwp, pcommit. intros H1 H2. destruct (overflow _) eqn:E; cbn; auto. Qed.

Lemma pwp_quiet (m : P X) `{!Quiet m} w Q : (∀ r w', quiet w w' → Q r w') → pwp m w Q.
Proof. intros HQ. apply HQ, is_quiet. Qed.

Lemma quiet_bind (m : P X) (k : X → P Y) : Quiet m → (∀ a, Quiet (k a)) → Quiet (m ≫= k).
Proof.
  intros Hm Hk w. unfold mbind, P_bind. pose proof (Hm w) as H. destruct (m w) as [[a|e] w1]; [|done].
  etrans; [exact H|apply Hk].
Qed.
End rules.

Create HintDb quiet.

Lemma quiet_ret {X} (a : X) : Quiet (mret a : P X).
Proof. intros w. reflexivity. Qed.
Lemma quiet_raise {X} e : Quiet (praise e : P X).
Proof. intros w. reflexivity. Qed.
Lemma quiet_lift {X} (r : result profile_error X) : Quiet (plift r).
Proof. intros w. reflexivity. Qed.
Lemma quiet_refuse b e : Quiet (prefuse b e).
Proof. intros w. reflexivity. Qed.
Lemma quiet_found {X} (o : option X) e : Quiet (pfound o e).
Proof. intros w. reflexivity. Qed.
Lemma quiet_select {X} (f : profile_store → X) : Quiet (pselect f).
Proof. intros w. reflexivity. Qed.
Lemma quiet_pnow : Quiet pnow.
Proof. intros w. split; cbn; eauto with lia. Qed.
Lemma quiet_puuid7 : Quiet puuid7.
Proof. intros w. split; cbn; eauto. Qed.
Lemma quiet_transaction_time : Quiet transaction_time.
Proof. intros w. reflexivity. Qed.
Lemma quiet_cached o : Quiet (BlockedUserRepository.cached o).
Proof. intros w. split; cbn; eauto with lia. Qed.
Lemma quiet_get_object b k : Quiet (ProfilePhotoStorage.get_object b k).
Proof. intros w. unfold ProfilePhotoStorage.get_object. by case_match. Qed.
Lemma quiet_put_object b k d : Quiet (ProfilePhotoStorage.put_object b k d).
Proof. intros w. split; cbn; eauto. Qed.
Lemma quiet_delete_object b k : Quiet (ProfilePhotoStorage.delete_object b k).
Proof. intros w. split; cbn; eauto. Qed.
Lemma quiet_count_use n o a : Quiet (ContactIdentifierRepository.count_use n o a).
Proof.
  intros w. unfold ContactIdentifierRepository.count_use. destruct (ContactIdentifierRepository.used_of _ _ _).
  case_match; split; cbn; eauto.
Qed.
#[export] Hint Resolve quiet_ret quiet_raise quiet_lift quiet_refuse quiet_found quiet_select quiet_pnow
  quiet_puuid7 quiet_transaction_time quiet_cached quiet_get_object quiet_put_object quiet_delete_object
  quiet_count_use : quiet.

(** Binds of quiet computations are quiet. *)
Ltac go_quiet :=
  repeat first
    [ solve [eauto with quiet]
    | progress cbv zeta
    | apply quiet_bind; [|intros ?]
    | match goal with
      | |- Quiet (if ?b then _ else _) => destruct b
      | |- Quiet (match ?x with _ => _ end) => destruct x
      end ].

(** the list cached is the one just read *)
Lemma quiet_get_block_list o : Quiet (BlockedUserRepository.get_block_list o).
Proof.
  intros w. unfold BlockedUserRepository.get_block_list, mbind, P_bind at 1.
  pose proof (quiet_cached o w) as Hc. destruct (BlockedUserRepository.cached o w) as [[[ids|]|e] w1]; [done| |done].
  cbn [snd] in Hc. etrans; [exact Hc|]. split; [done|done|done|done|cbn; lia|].
  cbn. intros o' ids until. destruct (decide (o' = o)) as [->|Hne].
  - rewrite lookup_insert_eq. intros [= <- <-]. by right.
  - rewrite lookup_insert_ne by done. eauto.
Qed.
#[export] Hint Resolve quiet_get_block_list : quiet.

Lemma quiet_check_owner `{RBACManager} o j : Quiet (check_contact_owner o j).
Proof. unfold check_contact_owner. go_quiet. Qed.
Lemma quiet_own_profile `{RBACManager} i j : Quiet (own_profile i j).
Proof. unfold own_profile, ProfileRepository.get_by_id. go_quiet. Qed.
Lemma quiet_consume_quota o a : Quiet (ContactIdentifierRepository.consume_quota o a).
Proof. unfold ContactIdentifierRepository.consume_quota. go_quiet. Qed.
Lemma quiet_allowed_by r v os : Quiet (ProfilePrivacyService.allowed_by r v os).
Proof.
  unfold ProfilePrivacyService.allowed_by, ProfilePrivacyRepository.visibility_map,
    ProfilePrivacyRepository.exceptions_for, ContactRepository.owners_having_contact. go_quiet.
Qed.
#[export] Hint Resolve quiet_check_owner quiet_own_profile quiet_consume_quota quiet_allowed_by : quiet.
Lemma quiet_hide_photos v hs : Quiet (ProfilePrivacyService.hide_photos v hs).
Proof. unfold ProfilePrivacyService.hide_photos. go_quiet. Qed.
#[export] Hint Resolve quiet_hide_photos : quiet.
Lemma quiet_hidden_photos o rows : Quiet (hidden_photos o rows).
Proof. unfold hidden_photos. go_quiet. Qed.
#[export] Hint Resolve quiet_hidden_photos : quiet.
Lemma quiet_split o h r : Quiet (ImportContacts._split_by_registration o h r).
Proof. unfold ImportContacts._split_by_registration. go_quiet. Qed.
Lemma quiet_check_limit o n : Quiet (ImportContacts._check_limit o n).
Proof. unfold ImportContacts._check_limit, ContactRepository.count. go_quiet. Qed.
Lemma quiet_drop_pending k : Quiet (ProfilePhotoStorage.drop_pending k).
Proof. unfold ProfilePhotoStorage.drop_pending. go_quiet. Qed.
Lemma quiet_history_is_full u : Quiet (ProccessAvatar.history_is_full u).
Proof. unfold ProccessAvatar.history_is_full, ProfilePhotoRepository.count. go_quiet. Qed.
#[export] Hint Resolve quiet_split quiet_check_limit quiet_drop_pending quiet_history_is_full : quiet.

Lemma quiet_upload_variants u p l : ∀ a, Quiet (ProfilePhotoStorage.upload_variants u p l a).
Proof. induction l as [|[[size fmt] content] l IH]; intros a; cbn [ProfilePhotoStorage.upload_variants]; go_quiet. Qed.
Lemma quiet_delete_each l : Quiet (ProfilePhotoStorage.delete_each l).
Proof. induction l as [|k l IH]; cbn [ProfilePhotoStorage.delete_each]; go_quiet. Qed.
#[export] Hint Resolve quiet_upload_variants quiet_delete_each : quiet.
Lemma quiet_delete_variants u a : Quiet (ProfilePhotoStorage.delete_variants u a).
Proof. unfold ProfilePhotoStorage.delete_variants. go_quiet. Qed.
#[export] Hint Resolve quiet_delete_variants : quiet.

Section imaging.
Context `{Imaging}.
Lemma quiet_load k : Quiet (ProfilePhotoStorage.load_validated k).
Proof. unfold ProfilePhotoStorage.load_validated. go_quiet. Qed.
#[local] Hint Resolve quiet_load : quiet.
Lemma quiet_rendered k : Quiet (ProccessAvatar.rendered k).
Proof. unfold ProccessAvatar.rendered. go_quiet. Qed.
#[local] Hint Resolve quiet_rendered : quiet.

Lemma quiet_dropping {X} k (m : P X) : Quiet m → Quiet (ProccessAvatar.dropping_refused k m).
Proof.
  intros Hm w. unfold ProccessAvatar.dropping_refused. pose proof (Hm w) as H1.
  destruct (m w) as [[a|e] w1]; [done|]. destruct e; try done; cbn [snd] in H1.
  all: etrans; [exact H1|]; match goal with |- quiet _ (?m _).2 => assert (Quiet m) as Hq by go_quiet; apply Hq end.
Qed.
Lemma quiet_images k : Quiet (ProccessAvatar.dropping_refused k (ProccessAvatar.rendered k)).
Proof. apply quiet_dropping, quiet_rendered. Qed.
End imaging.
#[export] Hint Resolve quiet_load quiet_rendered quiet_images : quiet.

(** ** The log: what its latest event about something says *)
Definition latest {X} (f : profile_message → option X) (l : list profile_message) : option X :=
  list.last (omap f l).

Definition contact_news (k : Z * Z) (m : profile_message) : option bool :=
  match pm_event m with
  | ContactAdded o c _ _ => if bool_decide ((o, c) = k) then Some true else None
  | ContactRemoved o c => if bool_decide ((o, c) = k) then Some false else None
  | _ => None
  end.

Definition block_news (k : Z * Z) (m : profile_message) : option bool :=
  match pm_event m with
  | UserBlocked o t => if bool_decide ((o, t) = k) then Some true else None
  | UserUnblocked o t => if bool_decide ((o, t) = k) then Some false else None
  | _ => None
  end.

(** with the message, whose id and time the copies keep *)
Definition profile_news (u : Z) (m : profile_message) : option (ProfileData * profile_message) :=
  match pm_event m with
  | ProfileCreated d | ProfileUpdated d => if bool_decide (pd_user_id d = u) then Some (d, m) else None
  | _ => None
  end.

Definition privacy_news (u : Z) (m : profile_message)
  : option (list (string * string) * list (string * list (string * list Z)) * profile_message) :=
  match pm_event m with
  | PrivacyUpdated u' rules exceptions => if bool_decide (u' = u) then Some (rules, exceptions, m) else None
  | _ => None
  end.

(** messages applied by comparing times *)
Definition timed (m : profile_message) : bool :=
  match pm_event m with ProfileCreated _ | ProfileUpdated _ | PrivacyUpdated _ _ _ => true | _ => false end.

Definition earlier (m1 m2 : profile_message) : Prop :=
  pm_created_at m1 ≤ pm_created_at m2
  ∧ (timed m1 = true → timed m2 = true → pm_created_at m1 < pm_created_at m2).

Lemma omap_app {A B} (f : A → option B) (l1 l2 : list A) : omap f (l1 ++ l2) = omap f l1 ++ omap f l2.
Proof. induction l1 as [|x l1 IH]; [done|]. cbn. rewrite IH. by destruct (f x). Qed.

Section latest.
Context {X : Type} (f : profile_message → option X).

Lemma latest_app l1 l2 : latest f (l1 ++ l2) = match latest f l2 with Some x => Some x | None => latest f l1 end.
Proof. unfold latest. rewrite omap_app, last_app. by destruct (list.last (omap f l2)). Qed.

Lemma latest_one m : latest f [m] = f m.
Proof. unfold latest. cbn. by destruct (f m). Qed.

Lemma latest_silent l : (∀ m, m ∈ l → f m = None) → latest f l = None.
Proof.
  intros Hall. unfold latest. induction l as [|m l IH]; [done|]. cbn. rewrite (Hall m) by (by left).
  apply IH. intros m' Hm'. apply Hall. by right.
Qed.

Lemma latest_app_silent l1 l2 : (∀ m, m ∈ l2 → f m = None) → latest f (l1 ++ l2) = latest f l1.
Proof. intros Hall. by rewrite latest_app, (latest_silent l2). Qed.

Lemma latest_snoc l m : latest f (l ++ [m]) = match f m with Some x => Some x | None => latest f l end.
Proof. rewrite latest_app. unfold latest at 1. cbn. by destruct (f m). Qed.

Lemma latest_Some l x : latest f l = Some x → ∃ m, m ∈ l ∧ f m = Some x.
Proof.
  unfold latest. intros Hl. apply last_Some in Hl as [l' Hl].
  assert (x ∈ omap f l) as Hx by (rewrite Hl; apply elem_of_app; right; by apply list_elem_of_singleton).
  by apply list_elem_of_omap in Hx as (m & ? & ?); exists m.
Qed.

(** only the messages of one key matter *)
Lemma latest_filter (P : profile_message → Prop) `{∀ m, Decision (P m)} l :
  (∀ m x, f m = Some x → P m) → latest f (filter P l) = latest f l.
Proof.
  intros HP. unfold latest. f_equal. induction l as [|m l IH]; [done|]. rewrite filter_cons. cbn.
  case_decide as Hm; cbn; rewrite IH; [done|]. destruct (f m) eqn:E; [|done]. by apply HP in E.
Qed.
End latest.

(** [events] published in a transaction begun at [now] *)
Definition told (now : datetime) (events : list profile_event) (rows : list profile_message) : Prop :=
  map pm_event rows = events ∧ Forall (λ m, pm_created_at m = now) rows.

Lemma told_nil now rows : told now [] rows → rows = [].
Proof. intros [H _]. by apply map_eq_nil in H. Qed.

Lemma told_one now e rows : told now [e] rows → ∃ i, rows = [MkProfileMessage i e now].
Proof.
  intros [H1 H2]. destruct rows as [|[i e' t] [|]]; try done. cbn in H1. injection H1 as ->.
  apply list.Forall_cons in H2 as [H2 _]. cbn in H2. subst. by exists i.
Qed.

Lemma told_event now events rows m : told now events rows → m ∈ rows → pm_event m ∈ events ∧ pm_created_at m = now.
Proof.
  intros [<- H2] Hm. rewrite list.Forall_forall in H2. split; [|by apply H2].
  apply list_elem_of_In, in_map, list_elem_of_In, Hm.
Qed.

(** ** Publication *)
Record publishes (w : profile_world) (events : list profile_event) (w' : profile_world) : Prop := {
  pub_rows : ∃ rows, told (pw_now w) events rows
             ∧ pw_session w' = (pw_session w) <| ps_outbox ::= (λ l, l ++ rows) |>;
  pub_database : pw_database w' = pw_database w;
  pub_now : pw_now w' = pw_now w;
  pub_clock : pw_clock w' = pw_clock w;
  pub_ticks : pw_ticks w' = pw_ticks w;
  pub_cache : pw_block_lists w' = pw_block_lists w;
}.

Lemma publish_spec events : ∀ w, (ppublish events w).1 = Ok tt ∧ publishes w events (ppublish events w).2.
Proof.
  induction events as [|e es IH]; intros w.
  { split; [done|]. split; try done. exists []. split; [done|]. cbn.
    destruct w as [[]]. cbn. unfold modify_field. cbn. by rewrite app_nil_r. }
  set (m := MkProfileMessage (pw_uuids w (pw_uuid_reads w)) e (pw_now w)).
  set (w1 := (puuid7 w).2).
  set (w2 := w1 <| pw_session ::= (λ s, s <| ps_outbox ::= (λ l, l ++ [m]) |>) |>).
  destruct (IH w2) as [H1 [(rows & [Ht Hc] & Hs) ? ? ? ? ?]].
  change (ppublish (e :: es) w) with (ppublish es w2). split; [done|]. split; try done.
  exists (m :: rows). split.
  - split; [by cbn; rewrite Ht|]. by constructor.
  - rewrite Hs. subst w2 w1. cbn. unfold modify_field. cbn. by rewrite <- app_assoc.
Qed.

Lemma pwp_publish events w (Q : result profile_error unit → profile_world → Prop) :
  (∀ w', publishes w events w' → Q (Ok tt) w') → pwp (ppublish events) w Q.
Proof. intros HQ. unfold pwp. destruct (publish_spec events w) as [-> H]. by apply HQ. Qed.

(** One step: rules for what the proof needs to know, quiet for the rest. *)
Ltac pstep :=
  match goal with
  | |- pwp (let _ := _ in _) _ _ => cbv zeta
  | |- pwp (_ ≫= _) _ _ => apply pwp_bind
  | |- pwp (mret _) _ _ => apply pwp_ret
  | |- pwp (praise _) _ _ => apply pwp_raise
  | |- pwp (plift _) _ _ => apply pwp_lift; intros ? ?
  | |- pwp (prefuse _ _) _ _ => apply pwp_refuse; intros ?
  | |- pwp (pfound _ _) _ _ => apply pwp_found; [intros ? ?|intros ?]
  | |- pwp (pselect _) _ _ => apply pwp_select
  | |- pwp (pwrite _) _ _ => apply pwp_write
  | |- pwp (pwrite_returning _) _ _ => apply pwp_write_returning
  | |- pwp (ppublish _) _ _ => apply pwp_publish; intros ? ?
  | |- pwp pflush _ _ => apply pwp_flush; [|intros ?]
  | |- pwp pcommit _ _ => apply pwp_commit; [intros ?|intros ?]
  | |- pwp (if ?b then _ else _) _ _ => destruct b eqn:?
  | |- pwp (match ?x with _ => _ end) _ _ => destruct x eqn:?
  | |- pwp _ _ _ => apply pwp_quiet; [solve [eauto with quiet]|intros [?|?] ? ?]
  end; cbv beta iota.

(** ** Contacts *)
Definition swap (k : Z * Z) : Z * Z := (k.2, k.1).

(** A row knows its key, nobody is their own contact, and the mutual flag is
    the presence of the reverse row. *)
Record contacts_ok (m : gmap (Z * Z) UserContact.t) : Prop := {
  contact_key k x : m !! k = Some x →
    (UserContact.owner_id x, UserContact.contact_id x) = k ∧ k.1 ≠ k.2;
  contact_mutual k x : m !! k = Some x → UserContact.is_mutual x = true ↔ is_Some (m !! swap k);
}.

Lemma contacts_ok_empty : contacts_ok ∅.
Proof. split; intros k x; by rewrite lookup_empty. Qed.

Section mark.
Import ContactRepository.

Lemma lookup_mark b now S m k :
  mark b now S m !! k
  = (λ c, if bool_decide (k ∈ S) && negb (Bool.eqb (UserContact.is_mutual c) b)
          then c <| UserContact.is_mutual := b |> <| UserContact.updated_at := now |> else c) <$> m !! k.
Proof. unfold mark. rewrite map_lookup_imap. by destruct (m !! k). Qed.

Lemma mark_dom b now S m k : is_Some (mark b now S m !! k) ↔ is_Some (m !! k).
Proof. rewrite lookup_mark, fmap_is_Some. done. Qed.

Lemma mark_row b now S m k x : mark b now S m !! k = Some x →
  ∃ y, m !! k = Some y ∧ UserContact.owner_id x = UserContact.owner_id y
       ∧ UserContact.contact_id x = UserContact.contact_id y
       ∧ UserContact.is_mutual x = if bool_decide (k ∈ S) then b else UserContact.is_mutual y.
Proof.
  rewrite lookup_mark. intros (y & -> & Hy)%fmap_Some. exists y. subst x. split; [done|].
  case_bool_decide; cbn; [|done]. destruct (Bool.eqb (UserContact.is_mutual y) b) eqn:E; cbn; [|done].
  by apply Bool.eqb_prop in E.
Qed.

(** Marking restores the flags when it covers every key whose reverse row came
    or went. *)
Lemma mark_ok b now S m :
  (∀ k x, m !! k = Some x → (UserContact.owner_id x, UserContact.contact_id x) = k ∧ k.1 ≠ k.2) →
  (∀ k x, m !! k = Some x → k ∈ S → b = true ↔ is_Some (m !! swap k)) →
  (∀ k x, m !! k = Some x → k ∉ S → UserContact.is_mutual x = true ↔ is_Some (m !! swap k)) →
  contacts_ok (mark b now S m).
Proof.
  intros Hk Hin Hout. split; intros k x (y & Hy & Ho & Hc & Hm)%mark_row.
  - rewrite Ho, Hc. by apply Hk.
  - rewrite mark_dom, Hm. case_bool_decide; [by apply (Hin k y)|by apply Hout].
Qed.

Lemma elem_of_both k pairs : k ∈ both_directions pairs ↔ k ∈ pairs ∨ swap k ∈ pairs.
Proof.
  unfold both_directions. rewrite elem_of_list_to_set, list_elem_of_bind. split.
  - intros ([o c] & Hk & Hp). rewrite !elem_of_cons in Hk. destruct Hk as [->|[->|[]%elem_of_nil]]; auto.
  - destruct k as [a b]. intros [H|H]; [exists (a, b)|exists (b, a)]; (split; [|done]); rewrite !elem_of_cons; auto.
Qed.

(** *** The upsert *)
Definition entry_key (oe : Z * ContactUpsert) : Z * Z := (oe.1, cu_contact_id oe.2).

Lemma validated_keys entries : ∀ values, validated entries = Ok values → map entry_key values = map entry_key entries.
Proof.
  induction entries as [|[o e] es IH]; intros values Hv; cbn [validated] in Hv.
  - by injection Hv as <-.
  - result_inv Hv. subst values. cbn. by rewrite (IH _ Ha1).
Qed.

(** what a row is after the statement *)
Definition upserted (m m' : gmap (Z * Z) UserContact.t) (keys : list (Z * Z)) : Prop :=
  ∀ k, match m !! k with
       | Some x => ∃ y, m' !! k = Some y ∧ UserContact.owner_id y = UserContact.owner_id x
                        ∧ UserContact.contact_id y = UserContact.contact_id x
                        ∧ UserContact.is_mutual y = UserContact.is_mutual x
       | None => if decide (k ∈ keys)
                 then ∃ y, m' !! k = Some y ∧ (UserContact.owner_id y, UserContact.contact_id y) = k
                           ∧ UserContact.is_mutual y = false
                 else m' !! k = None
       end.

Lemma upsert_rows_spec now entries : ∀ m,
  upserted m (upsert_rows now entries m).2 (map entry_key entries)
  ∧ (∀ k, k ∈ (upsert_rows now entries m).1 ↔ m !! k = None ∧ k ∈ map entry_key entries).
Proof.
  induction entries as [|[o e] es IH]; intros m; cbn [upsert_rows map].
  { split; [intros k; cbn; destruct (m !! k); [by eauto|by rewrite decide_False by apply not_elem_of_nil]|].
    intros k. cbn. split; [by intros ?%elem_of_nil|by intros [_ ?%elem_of_nil]]. }
  unfold upsert_row, entry_key at 1 3. cbn [fst snd]. set (k0 := (o, cu_contact_id e)).
  destruct (m !! k0) as [x0|] eqn:E0.
  - set (m1 := <[k0 := _]> m). destruct (IH m1) as [H1 H2].
    destruct (upsert_rows now es m1) as [keys m'] eqn:Eu. cbn [fst snd] in *. split.
    + intros k. specialize (H1 k). subst m1. destruct (decide (k = k0)) as [->|Hne].
      * rewrite E0. rewrite lookup_insert_eq in H1. destruct H1 as (y & ? & ? & ? & ?). exists y. auto.
      * rewrite lookup_insert_ne in H1 by done. destruct (m !! k); [done|].
        rewrite (decide_ext _ (k ∈ map entry_key es)); [done|]. rewrite elem_of_cons. naive_solver.
    + intros k. rewrite H2, elem_of_cons. subst m1. destruct (decide (k = k0)) as [->|Hne].
      * rewrite lookup_insert_eq, E0. naive_solver.
      * rewrite lookup_insert_ne by done. naive_solver.
  - set (m1 := <[k0 := _]> m). destruct (IH m1) as [H1 H2].
    destruct (upsert_rows now es m1) as [keys m'] eqn:Eu. cbn [fst snd] in *. split.
    + intros k. specialize (H1 k). subst m1. destruct (decide (k = k0)) as [->|Hne].
      * rewrite E0, decide_True by (by left). rewrite lookup_insert_eq in H1.
        destruct H1 as (y & ? & ? & ? & ?). exists y. cbn in *. subst k0. split; [done|]. split; [congruence|done].
      * rewrite lookup_insert_ne in H1 by done. destruct (m !! k); [done|].
        rewrite (decide_ext _ (k ∈ map entry_key es)); [done|]. rewrite elem_of_cons. naive_solver.
    + intros k. rewrite !elem_of_cons, H2. subst m1. destruct (decide (k = k0)) as [->|Hne].
      * rewrite E0. naive_solver.
      * rewrite lookup_insert_ne by done. naive_solver.
Qed.

Lemma upserted_dom m m' keys k : upserted m m' keys → is_Some (m' !! k) ↔ is_Some (m !! k) ∨ k ∈ keys.
Proof.
  intros Hu. specialize (Hu k). destruct (m !! k) as [x|].
  - destruct Hu as (y & -> & _). naive_solver.
  - case_decide as Hk; [destruct Hu as (y & -> & _); naive_solver|]. rewrite Hu. split; [by intros []|].
    intros [[]|]; done.
Qed.

Lemma upserted_row m m' keys k x : contacts_ok m → upserted m m' keys → (∀ k, k ∈ keys → k.1 ≠ k.2) →
  m' !! k = Some x →
  (UserContact.owner_id x, UserContact.contact_id x) = k ∧ k.1 ≠ k.2
  ∧ (UserContact.is_mutual x = true ↔ is_Some (m !! k) ∧ is_Some (m !! swap k)).
Proof.
  intros Hok Hu Hne Hx. specialize (Hu k). destruct (m !! k) as [y|] eqn:E.
  - destruct Hu as (z & Hz & Ho & Hc & Hm). assert (z = x) as -> by congruence. rewrite Ho, Hc, Hm.
    destruct (contact_key _ Hok k y E) as [? ?]. rewrite (contact_mutual _ Hok k y E). naive_solver.
  - case_decide as Hk; [|congruence]. destruct Hu as (z & Hz & ? & Hm). assert (z = x) as -> by congruence.
    rewrite Hm. split; [done|]. split; [by apply Hne|]. naive_solver.
Qed.

(** The statement followed by marking the pairs of it that have a reverse row. *)
Lemma upsert_then_mark now m m' keys pairs :
  contacts_ok m → upserted m m' keys → (∀ k, k ∈ keys → k.1 ≠ k.2) →
  (∀ k, k ∈ pairs ↔ k ∈ keys ∧ is_Some (m' !! swap k)) →
  contacts_ok (mark true now (both_directions pairs) m').
Proof.
  intros Hok Hu Hne Hp. apply mark_ok.
  - intros k x Hx. destruct (upserted_row m m' keys k x Hok Hu Hne Hx) as (? & ? & _). done.
  - intros k x Hx [[_ ?]%Hp|[Hin _]%Hp]%elem_of_both; [done|]. split; [|done].
    intros _. apply (upserted_dom m m' keys (swap k) Hu). by right.
  - intros k x Hx Hout. rewrite elem_of_both in Hout.
    destruct (upserted_row m m' keys k x Hok Hu Hne Hx) as (_ & _ & ->).
    assert (is_Some (m' !! k)) as Hk by eauto. pose proof (Hp k) as Hpk. pose proof (Hp (swap k)) as Hpr.
    replace (swap (swap k)) with k in Hpr by (by destruct k).
    pose proof (upserted_dom m m' keys k Hu) as Hd. pose proof (upserted_dom m m' keys (swap k) Hu) as Hd'. tauto.
Qed.
End mark.

Lemma swap_swap k : swap (swap k) = k.
Proof. by destruct k. Qed.

(** a row written under a key whose flag agrees with the reverse row *)
Lemma put_contact_ok now m k x :
  contacts_ok m → k.1 ≠ k.2 → (UserContact.owner_id x, UserContact.contact_id x) = k →
  (UserContact.is_mutual x = true → is_Some (m !! swap k)) →
  contacts_ok (if bool_decide (is_Some (m !! swap k))
               then ContactRepository.mark true now (ContactRepository.both_directions [k]) (<[k := x]> m)
               else <[k := x]> m).
Proof.
  intros Hok Hne Hx Hm.
  assert (swap k ≠ k) as Hsk by (intros E; apply Hne; by rewrite <- E at 1).
  assert (∀ k' y, <[k := x]> m !! k' = Some y →
    (UserContact.owner_id y, UserContact.contact_id y) = k' ∧ k'.1 ≠ k'.2) as Hkeys.
  { intros k' y. destruct (decide (k' = k)) as [->|Hk'].
    - rewrite lookup_insert_eq. by intros [= <-].
    - rewrite lookup_insert_ne by done. apply (contact_key _ Hok). }
  assert (∀ k', k' ≠ k → k' ≠ swap k → is_Some (<[k := x]> m !! swap k') ↔ is_Some (m !! swap k')) as Hoth.
  { intros k' H1 H2. rewrite lookup_insert_ne; [done|]. intros E. apply H2. rewrite E. by rewrite swap_swap. }
  case_bool_decide as Hrev.
  - apply mark_ok; [done| |].
    + intros k' y Hy [H|H]%elem_of_both; apply list_elem_of_singleton in H.
      * subst k'. rewrite lookup_insert_ne by done. naive_solver.
      * assert (k' = swap k) as -> by (rewrite <- H; by rewrite swap_swap).
        rewrite swap_swap, lookup_insert_eq. naive_solver.
    + intros k' y Hy Hout. rewrite elem_of_both, !list_elem_of_singleton in Hout.
      assert (k' ≠ k) as H1 by tauto. assert (k' ≠ swap k) as H2 by (intros ->; rewrite swap_swap in Hout; tauto).
      rewrite lookup_insert_ne in Hy by done. rewrite Hoth by done. by apply (contact_mutual _ Hok).
  - split; [done|]. intros k' y. destruct (decide (k' = k)) as [->|Hk'].
    + rewrite lookup_insert_eq. intros [= <-]. rewrite lookup_insert_ne by done.
      split; [auto|]. intros ?. done.
    + rewrite lookup_insert_ne by done. intros Hy. destruct (decide (k' = swap k)) as [->|Hk''].
      * exfalso. eauto.
      * rewrite Hoth by done. by apply (contact_mutual _ Hok).
Qed.

Lemma delete_contact_ok now m k :
  contacts_ok m → contacts_ok (ContactRepository.mark false now (ContactRepository.both_directions [k]) (delete k m)).
Proof.
  intros Hok. apply mark_ok.
  - intros k' y [_ Hy]%lookup_delete_Some. by apply (contact_key _ Hok).
  - intros k' y [Hk' Hy]%lookup_delete_Some [H|H]%elem_of_both; apply list_elem_of_singleton in H; [done|].
    assert (k' = swap k) as -> by (rewrite <- H; by rewrite swap_swap).
    rewrite swap_swap, lookup_delete_eq. split; [done|by intros []].
  - intros k' y [Hk' Hy]%lookup_delete_Some Hout. rewrite elem_of_both, !list_elem_of_singleton in Hout.
    rewrite lookup_delete_ne by (intros E; apply Hout; by right). by apply (contact_mutual _ Hok).
Qed.

(** the row of a contact rewritten under its own key *)
Lemma rewrite_contact_ok m k x y :
  contacts_ok m → m !! k = Some x → UserContact.owner_id y = UserContact.owner_id x →
  UserContact.contact_id y = UserContact.contact_id x → UserContact.is_mutual y = UserContact.is_mutual x →
  contacts_ok (<[k := y]> m).
Proof.
  intros Hok Hx Ho Hc Hm. destruct (contact_key _ Hok k x Hx) as [Hk Hne].
  assert (∀ k', is_Some (<[k := y]> m !! k') ↔ is_Some (m !! k')) as Hdom.
  { intros k'. rewrite lookup_insert_is_Some'. split; [intros [->|?]; eauto|auto]. }
  split; intros k' z; destruct (decide (k' = k)) as [->|Hne'].
  - rewrite lookup_insert_eq. intros [= <-]. by rewrite Ho, Hc.
  - rewrite lookup_insert_ne by done. apply (contact_key _ Hok).
  - rewrite lookup_insert_eq, Hdom. intros [= <-]. rewrite Hm. by apply (contact_mutual _ Hok).
  - rewrite lookup_insert_ne, Hdom by done. apply (contact_mutual _ Hok).
Qed.

(** ** The invariant *)
Section gallery.
Variable photos : gmap UUID ProfilePhoto.t.

(** the photo a profile shows is one of its gallery; it shows none only when
    the gallery is empty *)
Definition main_ok (p : Profile.t) : Prop :=
  match Profile.photo_id p with
  | Some i => ∃ ph, photos !! i = Some ph ∧ ProfilePhoto.user_id ph = Profile.id p
                    ∧ ProfilePhoto.avatars ph = Profile.avatars p
  | None => Profile.avatars p = [] ∧ ∀ i ph, photos !! i = Some ph → ProfilePhoto.user_id ph ≠ Profile.id p
  end.

Definition photos_of_user (u : Z) : Z := count_where (λ kv, ProfilePhoto.user_id kv.2 = u) photos.
End gallery.

Record gallery_ok (profiles : gmap Z Profile.t) (photos : gmap UUID ProfilePhoto.t) : Prop := {
  gallery_key i ph : photos !! i = Some ph → ProfilePhoto.id ph = i ∧ is_Some (profiles !! ProfilePhoto.user_id ph);
  gallery_main u p : profiles !! u = Some p → Profile.id p = u ∧ main_ok photos p;
  gallery_limit u : photos_of_user photos u ≤ profile_config.MAX_PROFILE_PHOTOS;
}.

(** the rows of the settings of user [u] *)
Record privacy_row_ok (u : Z) (p : ProfilePrivacy.t) : Prop := {
  privacy_user : ProfilePrivacy.user_id p = u;
  privacy_columns_ok : (ProfilePrivacy.rules p).*1 = all_rules;
  privacy_unique : NoDup (map (λ e, (pe_rule e, pe_target_id e)) (ProfilePrivacy.exceptions p));
  privacy_others e : e ∈ ProfilePrivacy.exceptions p → pe_target_id e ≠ u;
  privacy_limit rule : len (filter (λ e, pe_rule e = rule) (ProfilePrivacy.exceptions p))
                       ≤ profile_config.MAX_PRIVACY_EXCEPTIONS_PER_RULE;
}.

Definition settings_of (p : ProfilePrivacy.t) : list (string * string) * list (string * list (string * list Z)) :=
  (ProfilePrivacy.rules_snapshot p, ProfilePrivacy.exceptions_snapshot p).

Record store_ok (s : profile_store) : Prop := {
  ok_contacts : contacts_ok (ps_contacts s);
  ok_contacts_told k : latest (contact_news k) (ps_outbox s) = Some true → is_Some (ps_contacts s !! k);
  ok_blocks_told k : latest (block_news k) (ps_outbox s) = Some true ↔ is_Some (ps_blocked s !! k);
  ok_gallery : gallery_ok (ps_profiles s) (ps_photos s);
  ok_profiles_told u : fst <$> latest (profile_news u) (ps_outbox s) = Profile.data <$> ps_profiles s !! u;
  ok_privacy u p : ps_privacy s !! u = Some p → privacy_row_ok u p;
  ok_privacy_told u : fst <$> latest (privacy_news u) (ps_outbox s) = settings_of <$> ps_privacy s !! u;
  ok_order : StronglySorted earlier (ps_outbox s);
}.

Lemma store_ok_empty : store_ok empty_profile_store.
Proof.
  split; cbn.
  - apply contacts_ok_empty.
  - done.
  - intros k. rewrite lookup_empty. split; [done|by intros []].
  - split; [intros ??; by rewrite lookup_empty|intros ??; by rewrite lookup_empty|].
    intros u. unfold photos_of_user. by rewrite count_where_empty.
  - done.
  - intros u p. by rewrite lookup_empty.
  - done.
  - constructor.
Qed.

(** *** Kinds of events *)
Inductive kind : Type := KContact | KBlock | KProfile | KPrivacy.
Definition kind_of (e : profile_event) : kind :=
  match e with
  | ProfileCreated _ | ProfileUpdated _ => KProfile
  | ContactAdded _ _ _ _ | ContactRemoved _ _ => KContact
  | UserBlocked _ _ | UserUnblocked _ _ => KBlock
  | PrivacyUpdated _ _ _ => KPrivacy
  end.
#[export] Instance kind_eq_dec : EqDecision kind.
Proof. solve_decision. Defined.

Lemma contact_news_kind k m : kind_of (pm_event m) ≠ KContact → contact_news k m = None.
Proof. unfold contact_news. by destruct (pm_event m). Qed.
Lemma block_news_kind k m : kind_of (pm_event m) ≠ KBlock → block_news k m = None.
Proof. unfold block_news. by destruct (pm_event m). Qed.
Lemma profile_news_kind u m : kind_of (pm_event m) ≠ KProfile → profile_news u m = None.
Proof. unfold profile_news. by destruct (pm_event m). Qed.
Lemma privacy_news_kind u m : kind_of (pm_event m) ≠ KPrivacy → privacy_news u m = None.
Proof. unfold privacy_news. by destruct (pm_event m). Qed.

(** rows of one kind appended to the outbox *)
Definition only (K : kind) (rows : list profile_message) : Prop := ∀ m, m ∈ rows → kind_of (pm_event m) = K.

Lemma order_snoc now l rows :
  StronglySorted earlier l → (∀ m, m ∈ l → pm_created_at m < now) →
  Forall (λ m, pm_created_at m = now) rows → (length (filter (λ m, timed m = true) rows) ≤ 1)%nat →
  StronglySorted earlier (l ++ rows).
Proof.
  intros Hs Hlt Hnow H1. induction Hs as [|m l Hs IH Hall]; cbn.
  - clear Hlt. induction Hnow as [|m rows Hm Hnow IH]; [constructor|]. rewrite filter_cons in H1.
    constructor.
    + apply IH. case_decide; cbn in H1; lia.
    + rewrite list.Forall_forall in Hnow |- *. intros m' Hm'. split; [rewrite Hm, (Hnow m' Hm'); lia|].
      intros Ht Ht'. exfalso. rewrite decide_True in H1 by done. cbn in H1.
      assert (m' ∈ filter (λ m, timed m = true) rows) as Hin by (by apply list_elem_of_filter).
      destruct (filter (λ m0, timed m0 = true) rows); [by apply elem_of_nil in Hin|cbn in H1; lia].
  - constructor; [apply IH; intros; apply Hlt; by right|]. apply Forall_app. split; [done|].
    rewrite list.Forall_forall in Hnow |- *. intros m' Hm'.
    assert (pm_created_at m < pm_created_at m'); [|by split; [lia|]].
    rewrite (Hnow m' Hm'). apply Hlt. by left.
Qed.

Lemma untimed K rows : only K rows → K = KContact ∨ K = KBlock →
  (length (filter (λ m, timed m = true) rows) ≤ 1)%nat.
Proof.
  intros Ho HK. assert (filter (λ m, timed m = true) rows = []) as ->; [|cbn; lia].
  destruct (filter _ rows) as [|m l] eqn:E; [done|]. exfalso.
  assert (m ∈ filter (λ m, timed m = true) rows) as [Ht Hm]%list_elem_of_filter by (rewrite E; by left).
  specialize (Ho m Hm). unfold timed in Ht. destruct (pm_event m); destruct HK; subst; done.
Qed.

Lemma told_only K now events rows : told now events rows → (∀ e, e ∈ events → kind_of e = K) → only K rows.
Proof. intros Ht He m Hm. destruct (told_event _ _ _ _ Ht Hm) as [Hin _]. by apply He. Qed.

Section changes.
Context (s s' : profile_store) (now : datetime) (rows : list profile_message).
Hypothesis (Hok : store_ok s).
Hypothesis (Hlt : ∀ m, m ∈ ps_outbox s → pm_created_at m < now).
Hypothesis (Hnow : Forall (λ m, pm_created_at m = now) rows).
Hypothesis (Hout : ps_outbox s' = ps_outbox s ++ rows).

Lemma contacts_changed :
  only KContact rows → contacts_ok (ps_contacts s') →
  (∀ k, is_Some (ps_contacts s !! k) → is_Some (ps_contacts s' !! k) ∨ latest (contact_news k) rows = Some false) →
  (∀ k, latest (contact_news k) rows = Some true → is_Some (ps_contacts s' !! k)) →
  ps_blocked s' = ps_blocked s → ps_profiles s' = ps_profiles s → ps_photos s' = ps_photos s →
  ps_privacy s' = ps_privacy s → store_ok s'.
Proof.
  intros Ho Hc Hkeep Hnew Hb Hp Hph Hpr. destruct Hok.
  split; rewrite ?Hout, ?Hb, ?Hp, ?Hph, ?Hpr; try done.
  - intros k. rewrite latest_app. destruct (latest (contact_news k) rows) as [b|] eqn:E.
    + intros [= ->]. auto.
    + intros H%ok_contacts_told0. destruct (Hkeep k H); [done|congruence].
  - intros k. rewrite latest_app_silent; [done|]. intros m Hm. apply block_news_kind. by rewrite (Ho m Hm).
  - intros u. rewrite latest_app_silent; [done|]. intros m Hm. apply profile_news_kind. by rewrite (Ho m Hm).
  - intros u. rewrite latest_app_silent; [done|]. intros m Hm. apply privacy_news_kind. by rewrite (Ho m Hm).
  - apply order_snoc with now; eauto using untimed.
Qed.

Lemma blocks_changed :
  only KBlock rows →
  (∀ k, match latest (block_news k) rows with
        | Some b => b = true ↔ is_Some (ps_blocked s' !! k)
        | None => ps_blocked s' !! k = ps_blocked s !! k
        end) →
  ps_contacts s' = ps_contacts s → ps_profiles s' = ps_profiles s → ps_photos s' = ps_photos s →
  ps_privacy s' = ps_privacy s → store_ok s'.
Proof.
  intros Ho Hb Hc Hp Hph Hpr. destruct Hok.
  split; rewrite ?Hout, ?Hc, ?Hp, ?Hph, ?Hpr; try done.
  - intros k. rewrite latest_app_silent; [auto|]. intros m Hm. apply contact_news_kind. by rewrite (Ho m Hm).
  - intros k. rewrite latest_app. specialize (Hb k). destruct (latest (block_news k) rows) as [b|].
    + rewrite <- Hb. split; [by intros [= ->]|by intros ->].
    + by rewrite Hb.
  - intros u. rewrite latest_app_silent; [done|]. intros m Hm. apply profile_news_kind. by rewrite (Ho m Hm).
  - intros u. rewrite latest_app_silent; [done|]. intros m Hm. apply privacy_news_kind. by rewrite (Ho m Hm).
  - apply order_snoc with now; eauto using untimed.
Qed.

Lemma profiles_changed :
  only KProfile rows → (length rows ≤ 1)%nat → gallery_ok (ps_profiles s') (ps_photos s') →
  (∀ u, match latest (profile_news u) rows with
        | Some d => Profile.data <$> ps_profiles s' !! u = Some (fst d)
        | None => Profile.data <$> ps_profiles s' !! u = Profile.data <$> ps_profiles s !! u
        end) →
  ps_contacts s' = ps_contacts s → ps_blocked s' = ps_blocked s → ps_privacy s' = ps_privacy s → store_ok s'.
Proof.
  intros Ho H1 Hg Hp Hc Hb Hpr. destruct Hok.
  split; rewrite ?Hout, ?Hc, ?Hb, ?Hpr; try done.
  - intros k. rewrite latest_app_silent; [auto|]. intros m Hm. apply contact_news_kind. by rewrite (Ho m Hm).
  - intros k. rewrite latest_app_silent; [done|]. intros m Hm. apply block_news_kind. by rewrite (Ho m Hm).
  - intros u. rewrite latest_app. specialize (Hp u). by destruct (latest (profile_news u) rows); [|rewrite Hp].
  - intros u. rewrite latest_app_silent; [done|]. intros m Hm. apply privacy_news_kind. by rewrite (Ho m Hm).
  - apply order_snoc with now; eauto. etrans; [apply length_filter|done].
Qed.

Lemma privacy_changed :
  only KPrivacy rows → (length rows ≤ 1)%nat →
  (∀ u p, ps_privacy s' !! u = Some p → privacy_row_ok u p) →
  (∀ u, match latest (privacy_news u) rows with
        | Some d => settings_of <$> ps_privacy s' !! u = Some (fst d)
        | None => settings_of <$> ps_privacy s' !! u = settings_of <$> ps_privacy s !! u
        end) →
  ps_contacts s' = ps_contacts s → ps_blocked s' = ps_blocked s → ps_profiles s' = ps_profiles s →
  ps_photos s' = ps_photos s → store_ok s'.
Proof.
  intros Ho H1 Hrow Hp Hc Hb Hpf Hph. destruct Hok.
  split; rewrite ?Hout, ?Hc, ?Hb, ?Hpf, ?Hph; try done.
  - intros k. rewrite latest_app_silent; [auto|]. intros m Hm. apply contact_news_kind. by rewrite (Ho m Hm).
  - intros k. rewrite latest_app_silent; [done|]. intros m Hm. apply block_news_kind. by rewrite (Ho m Hm).
  - intros u. rewrite latest_app_silent; [done|]. intros m Hm. apply profile_news_kind. by rewrite (Ho m Hm).
  - intros u. rewrite latest_app. specialize (Hp u). by destruct (latest (privacy_news u) rows); [|rewrite Hp].
  - apply order_snoc with now; eauto. etrans; [apply length_filter|done].
Qed.
End changes.
