(* ===== verification/ProfileInv.v ===== *)
(** Every request of the profile module keeps its invariant: the tables stay
    sound, cached block lists are the stored ones, and what the outbox holds was
    written before the transaction that runs. *)
From S2P Require Import Prelude Events PrivacyModel Rbac WsModel AuthModel ProfileModel ProfileStore ProfileCommands ProfileSpec.

Definition coherent (w : profile_world) : Prop := ∀ o ids until,
  pw_block_lists w !! o = Some (ids, until) →
  ids = list_to_set (BlockedUserRepository.targets_of (pw_database w) o).

Definition ticking (clock : nat → datetime) : Prop := ∀ i j, (i < j)%nat → clock i < clock j.

Record sound (w : profile_world) : Prop := {
  sound_store : store_ok (pw_database w);
  sound_past m : m ∈ ps_outbox (pw_database w) → pm_created_at m < pw_now w;
  sound_now : ∃ k, (k < pw_ticks w)%nat ∧ pw_now w = pw_clock w k;
  sound_clock : ticking (pw_clock w);
  sound_cache : coherent w;
}.

(** inside a request: what is committed, what the session holds, when the
    transaction began *)
Record doing (d s : profile_store) (t : datetime) (w : profile_world) : Prop := {
  doing_database : pw_database w = d;
  doing_session : pw_session w = s;
  doing_now : pw_now w = t;
  doing_sound : sound w;
}.

(** how a request ends *)
Definition ended {X} (r : result profile_error X) (w : profile_world) : Prop :=
  match r with Ok _ => ∃ d t, doing d d t w | Err _ => sound w end.

Lemma now_before_tick w : sound w → pw_now w < pw_clock w (pw_ticks w).
Proof. intros [_ _ (k & Hk & ->) Hc _]. by apply Hc. Qed.

Section doing.
Context (d s : profile_store) (t : datetime) (w : profile_world).
Hypothesis (Hd : doing d s t w).

Lemma doing_store_ok : store_ok d.
Proof. destruct Hd as [<- _ _ []]. done. Qed.

Lemma doing_past m : m ∈ ps_outbox d → pm_created_at m < t.
Proof. destruct Hd as [<- _ <- []]. auto. Qed.

Lemma doing_write g : doing d (g s) t (w <| pw_session ::= g |>).
Proof. destruct Hd as [? <- ? [H1 H2 H3 H4 H5]]. split; [done|done|done|]. split; [exact H1|exact H2|exact H3|exact H4|exact H5]. Qed.

Lemma doing_set s' : doing d s' t (w <| pw_session := s' |>).
Proof. destruct Hd as [? <- ? [H1 H2 H3 H4 H5]]. split; [done|done|done|]. split; [exact H1|exact H2|exact H3|exact H4|exact H5]. Qed.

Lemma doing_tick : doing d s t (w <| pw_ticks ::= S |>).
Proof.
  destruct Hd as [? ? ? [H1 H2 (k & Hk & Ht) H4 H5]]. split; [done|done|done|].
  split; [exact H1|exact H2| |exact H4|exact H5]. exists k. cbn. split; [lia|done].
Qed.

Lemma doing_publish events w' : publishes w events w' →
  ∃ rows, told t events rows ∧ doing d (s <| ps_outbox ::= (λ l, l ++ rows) |>) t w'.
Proof.
  intros [(rows & Ht & Hs) Hdb Hn Hc Htk Hl]. destruct Hd as [<- <- <- [H1 H2 (k & Hk & Hk') H4 H5]].
  exists rows. split; [done|]. split; [done|done|done|]. split.
  - by rewrite Hdb.
  - intros m. rewrite Hdb, Hn. apply H2.
  - exists k. by rewrite Htk, Hn, Hc.
  - by rewrite Hc.
  - intros o ids until. rewrite Hl, Hdb. apply H5.
Qed.

(** what a commit asks of the session *)
Lemma doing_commit rows :
  store_ok s → ps_outbox s = ps_outbox d ++ rows → Forall (λ m, pm_created_at m = t) rows →
  ps_blocked s = ps_blocked d → ∃ t', doing s s t' (committed w).
Proof.
  intros Hok Hout Hrows Hb. pose proof (now_before_tick w) as Hlt.
  destruct Hd as [<- <- <- [H1 H2 H3 H4 H5]]. specialize (Hlt ltac:(by split)).
  exists (pw_clock w (pw_ticks w)). split; [done|done|done|]. split; cbn.
  - done.
  - intros m. rewrite Hout, elem_of_app. intros [Hm|Hm]; [specialize (H2 m Hm); lia|].
    rewrite list.Forall_forall in Hrows. rewrite (Hrows m Hm). done.
  - exists (pw_ticks w). split; [lia|done].
  - done.
  - intros o ids until Hl. rewrite (H5 o ids until Hl). unfold BlockedUserRepository.targets_of. cbn.
    by rewrite Hb.
Qed.
End doing.

Lemma doing_quiet d t w w' : doing d d t w → quiet w w' → doing d d t w'.
Proof.
  intros [Hd Hs Ht [H1 H2 (k & Hk & Hk') H4 H5]] [S D N C T B].
  split; [congruence|congruence|congruence|]. split.
  - by rewrite D.
  - intros m. rewrite D, N. apply H2.
  - exists k. rewrite N, C. split; [lia|done].
  - by rewrite C.
  - intros o ids until Hl. rewrite D. destruct (B o ids until Hl) as [[u Hu]| ->]; [by eapply H5|].
    by rewrite Hs, Hd.
Qed.

Lemma doing_ended {X} (a : X) d t w : doing d d t w → ended (Ok a) w.
Proof. intros H. by exists d, t. Qed.

Lemma doing_raised {X} (e : profile_error) d s t w : doing d s t w → ended (Err e : result profile_error X) w.
Proof. by intros []. Qed.

Lemma pwp_doing_now d s t w (Q : result profile_error datetime → profile_world → Prop) :
  doing d s t w → (∀ n w', doing d s t w' → Q (Ok n) w') → pwp pnow w Q.
Proof. intros Hd HQ. apply HQ. by apply doing_tick. Qed.

Lemma pwp_doing_write d s t w g (Q : result profile_error unit → profile_world → Prop) :
  doing d s t w → (∀ w', doing d (g s) t w' → Q (Ok tt) w') → pwp (pwrite g) w Q.
Proof. intros Hd HQ. apply HQ. by apply doing_write. Qed.

Lemma pwp_doing_write_returning {X} d s t w (g : profile_store → X * profile_store) Q :
  doing d s t w → (∀ w', doing d (g s).2 t w' → Q (Ok (g s).1) w') → pwp (pwrite_returning g) w Q.
Proof.
  intros Hd HQ. apply pwp_write_returning. rewrite (doing_session _ _ _ _ Hd). apply HQ.
  by apply (doing_set d s t w Hd).
Qed.

Lemma pwp_doing_time d s t w (Q : result profile_error datetime → profile_world → Prop) :
  doing d s t w → Q (Ok t) w → pwp transaction_time w Q.
Proof. intros [_ _ <- _] HQ. exact HQ. Qed.

Lemma pwp_doing_quiet {X} (m : P X) d t w Q : Quiet m → doing d d t w → (∀ r w', doing d d t w' → quiet w w' → Q r w') → pwp m w Q.
Proof. intros Hm Hd HQ. apply pwp_quiet; [done|]. intros r w' Hq. apply HQ; [by eapply doing_quiet|done]. Qed.

Lemma pwp_doing_publish events d s t w (Q : result profile_error unit → profile_world → Prop) :
  doing d s t w →
  (∀ rows w', told t events rows → doing d (s <| ps_outbox ::= (λ l, l ++ rows) |>) t w' → Q (Ok tt) w') →
  pwp (ppublish events) w Q.
Proof.
  intros Hd HQ. apply pwp_publish. intros w' Hp.
  destruct (doing_publish d s t w Hd events w' Hp) as (rows & ? & ?). by eapply HQ.
Qed.

(** the commit of a session that differs in its tables and in what it tells *)
Lemma pwp_doing_commit d s t w rows (Q : result profile_error unit → profile_world → Prop) :
  doing d s t w → ps_outbox s = ps_outbox d ++ rows → Forall (λ m, pm_created_at m = t) rows →
  store_ok s → ps_blocked s = ps_blocked d →
  (∀ t' w', doing s s t' w' → Q (Ok tt) w') → (∀ c, doing d s t w → Q (Err (ValueTooLong c)) w) → pwp pcommit w Q.
Proof.
  intros Hd Ho Hr Hok Hb HQ Herr. apply pwp_commit; [|by auto]. intros _.
  destruct (doing_commit d s t w Hd rows Hok Ho Hr Hb) as [t' H']. by eapply HQ.
Qed.

(** One step of a request; [doing] follows it. *)
Ltac dstep :=
  match goal with
  | |- pwp (let _ := _ in _) _ _ => cbv zeta
  | |- pwp (_ ≫= _) _ _ => apply pwp_bind
  | |- pwp (mret _) _ _ => apply pwp_ret
  | |- pwp (praise _) _ _ => apply pwp_raise
  | |- pwp (plift _) _ _ => apply pwp_lift; intros ? ?
  | |- pwp (prefuse _ _) _ _ => apply pwp_refuse; intros ?
  | |- pwp (pfound _ _) _ _ => apply pwp_found; [intros ? ?|intros ?]
  | H : doing _ ?s _ ?w |- pwp (pselect _) ?w _ => apply pwp_select; rewrite (doing_session _ _ _ _ H)
  | H : doing _ ?s ?t ?w |- pwp transaction_time ?w _ =>
    apply (pwp_doing_time _ _ _ _ _ H)
  | H : doing ?d ?s ?t ?w |- pwp pnow ?w _ =>
    apply (pwp_doing_now d s t w); [exact H|]; clear H; intros ? ? H
  | H : doing ?d ?s ?t ?w |- pwp (pwrite ?g) ?w _ =>
    apply (pwp_doing_write d s t w); [exact H|]; clear H; intros ? H; cbv beta in H
  | H : doing ?d ?s ?t ?w |- pwp (pwrite_returning ?g) ?w _ =>
    apply (pwp_doing_write_returning d s t w); [exact H|]; clear H; intros ? H; cbv beta in H; cbv beta
  | H : doing _ _ _ ?w |- pwp (ppublish _) ?w _ =>
    apply (pwp_doing_publish _ _ _ _ _ _ H); clear H; intros ? ? ? H
  | |- pwp pflush _ _ => apply pwp_flush; [|intros ?]
  | H : doing _ _ _ ?w |- pwp (if ?b then _ else _) ?w _ => destruct b eqn:?
  | H : doing _ _ _ ?w |- pwp (match ?x with _ => _ end) ?w _ => destruct x eqn:?
  | H : doing ?d ?d ?t ?w |- pwp _ ?w _ =>
    refine (pwp_doing_quiet _ d t w _ _ _ _); [solve [eauto with quiet]|exact H|]; clear H; intros [?|?] ? H ?
  end; cbv beta iota.

(** a request that has failed, or that has nothing to commit *)
Ltac dend := solve [eapply doing_raised; eassumption | eapply doing_ended; eassumption].

#[export] Hint Unfold ProfileRepository.get_by_id ContactRepository.get ContactRepository.count
  ContactRepository.find_reverse_owners ContactRepository.find_forward_contacts
  ProfilePhotoRepository.get_own ProfilePhotoRepository.count ProfilePhotoRepository.get_latest
  BlockedUserRepository.get ProfilePrivacyRepository.get : profile_queries.

(** ** Profiles *)
Lemma lookup_saved now p m u :
  ProfileRepository.saved now p m !! u
  = if decide (u = Profile.id p) then
      Some (match m !! u with
            | Some q => if bool_decide (ProfileRepository.columns p = ProfileRepository.columns q) then p
                        else p <| Profile.updated_at := now |>
            | None => p
            end)
    else m !! u.
Proof.
  unfold ProfileRepository.saved. case_decide as Hu.
  - subst u. destruct (m !! Profile.id p); [case_bool_decide|]; by rewrite lookup_insert_eq.
  - destruct (m !! Profile.id p); [case_bool_decide|]; by rewrite lookup_insert_ne.
Qed.

Lemma saved_is_Some now p m u : is_Some (m !! u) → is_Some (ProfileRepository.saved now p m !! u).
Proof. rewrite lookup_saved. case_decide; [by eexists|done]. Qed.

(** what of a profile its events and its photo depend on *)
Lemma saved_row now p m u q : ProfileRepository.saved now p m !! u = Some q →
  (u = Profile.id p ∧ Profile.id q = Profile.id p ∧ Profile.data q = Profile.data p
   ∧ (∀ photos, main_ok photos q ↔ main_ok photos p)) ∨ (u ≠ Profile.id p ∧ m !! u = Some q).
Proof.
  rewrite lookup_saved. case_decide as Hu; [|by right]. intros [= <-]. left.
  destruct (m !! u); [case_bool_decide|]; done.
Qed.

Lemma gallery_saved now p m photos :
  gallery_ok m photos → main_ok photos p → gallery_ok (ProfileRepository.saved now p m) photos.
Proof.
  intros [Hk Hm Hl] Hp. split; [| |done].
  - intros i ph Hph. destruct (Hk i ph Hph). split; [done|]. by apply saved_is_Some.
  - intros u q [(-> & -> & _ & ->)|[_ Hq]]%saved_row; [done|by apply Hm].
Qed.

Definition profile_event_of (p : Profile.t) (e : profile_event) : Prop :=
  e = ProfileCreated (Profile.data p) ∨ e = ProfileUpdated (Profile.data p).

(** a profile written together with the event that tells it *)
Lemma profile_told d s0 s t w p e rows photos :
  doing d s0 t w → told t [e] rows → profile_event_of p e →
  s = d <| ps_photos := photos |> <| ps_profiles ::= ProfileRepository.saved t p |> <| ps_outbox ::= (λ l, l ++ rows) |> →
  gallery_ok (ProfileRepository.saved t p (ps_profiles d)) photos →
  store_ok s.
Proof.
  intros Hd Ht He -> Hg. pose proof (doing_store_ok _ _ _ _ Hd) as Hok.
  destruct (told_one _ _ _ Ht) as [i ->].
  match goal with |- store_ok ?s' => apply (profiles_changed d s' t [MkProfileMessage i e t]) end;
    [done|by apply (doing_past _ _ _ _ Hd)|by constructor|done| |done|done| |done|done|done].
  - intros m ->%list_elem_of_singleton. by destruct He as [-> | ->].
  - intros u. cbn. unfold latest. cbn [omap list_omap]. rewrite lookup_saved.
    assert (profile_news u (MkProfileMessage i e t)
            = if bool_decide (Profile.id p = u) then Some (Profile.data p, MkProfileMessage i e t) else None) as ->
      by (by destruct He as [-> | ->]).
    case_bool_decide as Hu.
    + rewrite decide_True by done. cbn. destruct (ps_profiles d !! u); [case_bool_decide|]; done.
    + by rewrite decide_False by done.
Qed.

(** one whose columns keep their values, as a change of links does *)
Lemma profile_untold d s0 s t w p q :
  doing d s0 t w → ps_profiles d !! Profile.id q = Some p → Profile.data q = Profile.data p →
  Profile.photo_id q = Profile.photo_id p →
  s = d <| ps_profiles ::= ProfileRepository.saved t q |> → store_ok s.
Proof.
  intros Hd Hp Hq Hph ->. pose proof (doing_store_ok _ _ _ _ Hd) as Hok.
  destruct (gallery_main _ _ (ok_gallery d Hok) _ _ Hp) as [Hid Hm].
  match goal with |- store_ok ?s' => apply (profiles_changed d s' t []) end;
    [done|by apply (doing_past _ _ _ _ Hd)|by constructor|cbn; by rewrite app_nil_r| |cbn; lia| | |done|done|done].
  - intros m []%elem_of_nil.
  - apply (gallery_saved t q _ (ps_photos d)); [exact (ok_gallery d Hok)|]. unfold main_ok in *. rewrite Hph.
    unfold Profile.data in Hq. injection Hq as -> _ -> _ _ _ _ _. exact Hm.
  - intros u. cbn. rewrite lookup_saved. case_decide as Hu; [|done]. rewrite Hu, Hp. cbn.
    case_bool_decide; cbn; f_equal; exact Hq.
Qed.

Lemma created_profile now u name dn sp bio skills birthday p events :
  Profile.create now u name dn sp bio skills birthday = Ok (p, events) →
  Profile.id p = u ∧ Profile.photo_id p = None ∧ Profile.avatars p = []
  ∧ events = [ProfileCreated (Profile.data p)].
Proof.
  unfold Profile.create, Profile.change_display_name, Profile.change_bio, Profile.update_skills.
  intros H. repeat (case_match || result_inv H || (simplify_eq/=)); try done.
Qed.

Lemma updated_profile p name bio sp birthday skills q events :
  Profile.update p name bio sp birthday skills = Ok (q, events) →
  Profile.id q = Profile.id p ∧ Profile.photo_id q = Profile.photo_id p
  ∧ Profile.avatars q = Profile.avatars p ∧ events = [ProfileUpdated (Profile.data q)].
Proof.
  unfold Profile.update, Profile.change_display_name, Profile.change_bio, Profile.update_skills.
  intros H. repeat (case_match || result_inv H || (simplify_eq/=)); try done.
Qed.

(** the commit that ends most handlers: what the session tells, and why it is
    sound *)
Ltac dcommit H Ht :=
  match type of Ht with told ?t _ ?rows =>
    refine (pwp_doing_commit _ _ _ _ rows _ H eq_refl (proj2 Ht) _ eq_refl _ _);
      [|clear H; intros ? ? H|intros ? ?; dend]
  end.

Lemma new_main_ok s p : store_ok s → ps_profiles s !! Profile.id p = None → Profile.photo_id p = None →
  Profile.avatars p = [] → main_ok (ps_photos s) p.
Proof.
  intros Hok Hp Hph Ha. unfold main_ok. rewrite Hph. split; [done|]. intros i ph Hi Hu.
  destruct (gallery_key _ _ (ok_gallery s Hok) i ph Hi) as [_ [x Hx]]. congruence.
Qed.

Lemma kept_main_ok s p q : store_ok s → ps_profiles s !! Profile.id q = Some p →
  Profile.photo_id q = Profile.photo_id p → Profile.avatars q = Profile.avatars p → main_ok (ps_photos s) q.
Proof.
  intros Hok Hp Hph Ha. destruct (gallery_main _ _ (ok_gallery s Hok) _ _ Hp) as [Hid Hm].
  unfold main_ok in *. by rewrite Hph, Ha, <- Hid.
Qed.

Section profiles.
Context `{R : RBACManager}.

(** a handler that makes a profile, or changes the fields of one *)
Lemma written_profile_ok d s0 t w p e rows :
  doing d s0 t w → told t [e] rows → profile_event_of p e → main_ok (ps_photos d) p →
  store_ok (d <| ps_profiles ::= ProfileRepository.saved t p |> <| ps_outbox ::= (λ l, l ++ rows) |>).
Proof.
  intros H Ht He Hm. eapply (profile_told d s0 _ t w p e rows (ps_photos d)); [done|done|done|reflexivity|].
  apply gallery_saved; [|done]. exact (ok_gallery _ (doing_store_ok _ _ _ _ H)).
Qed.

Lemma create_profile_ended cmd d t w : doing d d t w → pwp (CreateProfile.handle cmd) w ended.
Proof.
  intros H. pose proof (doing_store_ok _ _ _ _ H) as Hok.
  unfold CreateProfile.handle, ProfileRepository.get_by_id, ProfileRepository.create, ProfileRepository.save.
  repeat dstep; try dend. subst. apply created_profile in H1 as (Hid & Hph & Hav & ->).
  dcommit H H2; [|dend]. eapply written_profile_ok; [done|done|by left|].
  apply new_main_ok; [done| |done|done]. rewrite Hid. by destruct (ps_profiles d !! _).
Qed.

Lemma get_or_create_ended u name d t w : doing d d t w → pwp (GetOrCreateProfile.handle u name) w ended.
Proof.
  intros H. pose proof (doing_store_ok _ _ _ _ H) as Hok.
  unfold GetOrCreateProfile.handle, ProfileRepository.get_by_id, ProfileRepository.create, ProfileRepository.save.
  repeat dstep; try dend. subst. apply created_profile in H0 as (Hid & Hph & Hav & ->).
  dcommit H H1; [|repeat dstep; dend]. eapply written_profile_ok; [done|done|by left|].
  apply new_main_ok; [done| |done|done]. by rewrite Hid.
Qed.

Lemma change_username_ended u name d t w : doing d d t w → pwp (ChangeProfileUsername.handle u name) w ended.
Proof.
  intros H. pose proof (doing_store_ok _ _ _ _ H) as Hok.
  unfold ChangeProfileUsername.handle, ProfileRepository.get_by_id, ProfileRepository.save.
  repeat dstep; try dend.
  - assert (∃ q, t1 = q ∧ profile_event_of q (ProfileUpdated (Profile.data q)) ∧ l = [ProfileUpdated (Profile.data q)]
            ∧ Profile.id q = Profile.id t0 ∧ Profile.photo_id q = Profile.photo_id t0
            ∧ Profile.avatars q = Profile.avatars t0) as (q & -> & He & -> & Hid & Hph & Hav).
    { unfold Profile.change_username in Heqp. destruct (bool_decide (name = _)); [by simplify_eq/=|].
      injection Heqp as <- <-. eexists. split; [done|]. split; [by right|done]. }
    dcommit H H0; [|dend]. eapply written_profile_ok; [done|done|done|].
    destruct (gallery_main _ _ (ok_gallery d Hok) u t0 Heqo) as [Hu _].
    apply kept_main_ok with t0; [done|by rewrite Hid, Hu|done|done].
  - subst. apply created_profile in H0 as (Hid & Hph & Hav & ->).
    dcommit H H1; [|dend]. eapply written_profile_ok; [done|done|by left|].
    apply new_main_ok; [done| |done|done]. by rewrite Hid.
Qed.

Lemma pwp_own_profile i j d s t w (Q : result profile_error Profile.t → profile_world → Prop) :
  doing d s t w → (∀ p, ps_profiles s !! i = Some p → Q (Ok p) w) → (∀ e, Q (Err e) w) → pwp (own_profile i j) w Q.
Proof. intros H HQ He. unfold own_profile, ProfileRepository.get_by_id. repeat dstep; auto. Qed.

Lemma update_profile_ended cmd d t w : doing d d t w → pwp (UpdateProfile.handle cmd) w ended.
Proof.
  intros H. pose proof (doing_store_ok _ _ _ _ H) as Hok. unfold UpdateProfile.handle, ProfileRepository.save.
  dstep. apply (pwp_own_profile _ _ d d t w); [done| |intros; dend]. intros p Hp.
  repeat dstep; try dend. subst. apply updated_profile in H0 as (Hid & Hph & Hav & ->).
  dcommit H H1; [|dend]. eapply written_profile_ok; [done|done|by right|].
  destruct (gallery_main _ _ (ok_gallery d Hok) _ _ Hp) as [Hu _].
  apply kept_main_ok with p; [done|by rewrite Hid, Hu|done|done].
Qed.

(** a change of links tells nothing *)
Lemma links_ended d t w i p q : doing d d t w → ps_profiles d !! i = Some p →
  Profile.data q = Profile.data p → Profile.photo_id q = Profile.photo_id p →
  pwp (_ ← ProfileRepository.save q; pcommit) w ended.
Proof.
  intros H Hp Hq Hph. pose proof (doing_store_ok _ _ _ _ H) as Hok. unfold ProfileRepository.save. repeat dstep.
  refine (pwp_doing_commit _ _ _ _ [] _ H (eq_sym (app_nil_r _)) _ _ eq_refl _ _);
    [by constructor| |intros ? ? H'; dend|intros ? ?; dend].
  eapply profile_untold; [exact H| |exact Hq|exact Hph|reflexivity].
  destruct (gallery_main _ _ (ok_gallery d Hok) _ _ Hp) as [Hu _].
  assert (Profile.id q = Profile.id p) as -> by exact (f_equal pd_user_id Hq). by rewrite Hu.
Qed.

Lemma add_link_ended i provider contact j d t w :
  doing d d t w → pwp (AddLinkToProfile.handle i provider contact j) w ended.
Proof.
  intros H. unfold AddLinkToProfile.handle. apply pwp_bind.
  apply (pwp_own_profile _ _ d d t w); [done| |intros; dend]. intros p Hp. by apply (links_ended d t w i p).
Qed.

Lemma remove_link_ended i provider j d t w :
  doing d d t w → pwp (RemoveLinkFromProfile.handle i provider j) w ended.
Proof.
  intros H. unfold RemoveLinkFromProfile.handle. apply pwp_bind.
  apply (pwp_own_profile _ _ d d t w); [done| |intros; dend]. intros p Hp. by apply (links_ended d t w i p).
Qed.
End profiles.

(** ** Photos *)
Lemma photos_of_user_agree photos photos' v :
  (∀ i ph, ProfilePhoto.user_id ph = v → photos' !! i = Some ph ↔ photos !! i = Some ph) →
  photos_of_user photos' v = photos_of_user photos v.
Proof.
  intros H. unfold photos_of_user, count_where. do 2 f_equal. apply map_eq. intros i. apply option_eq. intros ph.
  rewrite !map_lookup_filter_Some. cbn. split; intros [H1 H2]; (split; [by apply H|done]).
Qed.

(** the gallery and the main photo of one user changed *)
Lemma gallery_changed t profiles photos photos' p q :
  gallery_ok profiles photos → profiles !! Profile.id q = Some p →
  (∀ i ph, photos' !! i = Some ph → ProfilePhoto.id ph = i ∧ is_Some (profiles !! ProfilePhoto.user_id ph)) →
  (∀ i ph, ProfilePhoto.user_id ph ≠ Profile.id q → photos' !! i = Some ph ↔ photos !! i = Some ph) →
  main_ok photos' q → photos_of_user photos' (Profile.id q) ≤ profile_config.MAX_PROFILE_PHOTOS →
  gallery_ok (ProfileRepository.saved t q profiles) photos'.
Proof.
  intros [Hk Hm Hl] Hp Hk' Hoth Hq Hcount.
  assert (∀ v x, v ≠ Profile.id q → profiles !! v = Some x → main_ok photos' x) as Hother.
  { intros v x Hv Hx. destruct (Hm v x Hx) as [Hid Hmain]. unfold main_ok in *.
    destruct (Profile.photo_id x).
    - destruct Hmain as (ph & H1 & H2 & H3). exists ph. split; [|done]. apply Hoth; [congruence|done].
    - destruct Hmain as [H1 H2]. split; [done|]. intros i ph Hi Hu.
      apply (H2 i ph); [|done]. apply Hoth; [congruence|done]. }
  split.
  - intros i ph Hph. destruct (Hk' i ph Hph). split; [done|]. by apply saved_is_Some.
  - intros v x [(-> & -> & _ & ->)|[Hv Hx]]%saved_row; [done|]. split; [by apply Hm|by apply (Hother v)].
  - intros v. destruct (decide (v = Profile.id q)) as [->|Hv]; [done|].
    rewrite (photos_of_user_agree photos photos' v); [apply Hl|]. intros i ph Hu. apply Hoth. congruence.
Qed.

Lemma pwp_photo_create photo d s t w (Q : result profile_error unit → profile_world → Prop) :
  doing d s t w →
  (ps_photos s !! ProfilePhoto.id photo = None →
   ∀ w', doing d (s <| ps_photos ::= <[ProfilePhoto.id photo := photo]> |>) t w' → Q (Ok tt) w') →
  (∀ c, Q (Err (ProfileIntegrityError c)) w) → pwp (ProfilePhotoRepository.create photo) w Q.
Proof.
  intros H HQ He. unfold pwp, ProfilePhotoRepository.create. rewrite (doing_session _ _ _ _ H).
  destruct (ps_photos s !! ProfilePhoto.id photo) eqn:E; [apply He|]. apply HQ; [done|].
  by apply (doing_write d s t w H).
Qed.

(** the photo shown after [set_photo] *)
Lemma set_photo_fields p photo q events : Profile.set_photo p photo = (q, events) →
  Profile.id q = Profile.id p ∧ Profile.photo_id q = ProfilePhoto.id <$> photo
  ∧ Profile.avatars q = match photo with Some ph => ProfilePhoto.avatars ph | None => [] end
  ∧ events = [ProfileUpdated (Profile.data q)].
Proof. unfold Profile.set_photo. by intros [= <- <-]. Qed.

Section photos.
Context `{Imaging}.

(** a gallery with a new row, or a row written again, that becomes the main *)
Lemma shown_photo_ok d s0 t w u p q ph events rows :
  doing d s0 t w → ps_profiles d !! u = Some p → ProfilePhoto.user_id ph = u →
  (∀ old, ps_photos d !! ProfilePhoto.id ph = Some old → ProfilePhoto.user_id old = u) →
  (ps_photos d !! ProfilePhoto.id ph = None → photos_of_user (ps_photos d) u < profile_config.MAX_PROFILE_PHOTOS) →
  Profile.set_photo p (Some ph) = (q, events) → told t events rows →
  store_ok (d <| ps_photos ::= <[ProfilePhoto.id ph := ph]> |> <| ps_profiles ::= ProfileRepository.saved t q |>
              <| ps_outbox ::= (λ l, l ++ rows) |>).
Proof.
  intros Hd Hp Hu Hold Hnew (Hid & Hph & Hav & ->)%set_photo_fields Ht.
  pose proof (doing_store_ok _ _ _ _ Hd) as Hok. pose proof (ok_gallery d Hok) as Hg.
  destruct (gallery_main _ _ Hg u p Hp) as [Hpu _].
  eapply (profile_told d s0 _ t w q _ rows (<[ProfilePhoto.id ph := ph]> (ps_photos d)));
    [done|exact Ht|by right|reflexivity|].
  apply gallery_changed with (ps_photos d) p; [done|by rewrite Hid, Hpu| | | |].
  - intros i x. destruct (decide (i = ProfilePhoto.id ph)) as [->|Hi].
    + rewrite lookup_insert_eq. intros [= <-]. rewrite Hu. eauto.
    + rewrite lookup_insert_ne by done. apply (gallery_key _ _ Hg).
  - intros i x Hx. rewrite Hid, Hpu in Hx. destruct (decide (i = ProfilePhoto.id ph)) as [->|Hi].
    + rewrite lookup_insert_eq. split; [by intros [= <-]|]. intros Hx'. by apply Hold in Hx'.
    + by rewrite lookup_insert_ne.
  - unfold main_ok. rewrite Hph. exists ph. rewrite lookup_insert_eq, Hid, Hpu. done.
  - rewrite Hid, Hpu. pose proof (gallery_limit _ _ Hg u) as Hl.
    destruct (ps_photos d !! ProfilePhoto.id ph) as [old|] eqn:E.
    + unfold photos_of_user in *. rewrite (count_where_update _ _ _ _ old); [done|done|]. cbn.
      rewrite Hu, (Hold old eq_refl). done.
    + unfold photos_of_user in *. rewrite count_where_insert_in by done. specialize (Hnew eq_refl). lia.
Qed.

Lemma process_avatar_ended u key d t w : doing d d t w → pwp (ProccessAvatar.handle u key) w ended.
Proof.
  intros Hd. unfold ProccessAvatar.handle, ProfileRepository.get_by_id, ProccessAvatar.history_is_full,
    ProfilePhotoRepository.count, ProfileRepository.save.
  repeat dstep; try dend.
  match goal with H : doing ?d ?s ?t ?w |- pwp (ProfilePhotoRepository.create _) _ _ =>
     apply (pwp_photo_create _ d s t w); [exact H| |intros; dend]; clear H; intros Hnew ? H end.
  repeat dstep. dcommit Hd H5; [|repeat dstep; dend].
  eapply shown_photo_ok; [exact Hd|exact Heqo|done|by rewrite Hnew| |exact Heqp|exact H5].
  intros _. apply Z.leb_gt in Heqb0. exact Heqb0.
Qed.

Lemma set_main_ended i j d t w : doing d d t w → pwp (SetMainProfilePhoto.handle i j) w ended.
Proof.
  intros Hd. pose proof (doing_store_ok _ _ _ _ Hd) as Hok. pose proof (ok_gallery d Hok) as Hg.
  unfold SetMainProfilePhoto.handle, ProfileRepository.get_by_id, ProfilePhotoRepository.get_own,
    ProfilePhotoRepository.save, ProfileRepository.save.
  repeat dstep; try dend.
  match goal with H : doing ?d ?s ?t _, H' : told _ _ _ |- _ => dcommit H H'; [|dend] end.
  destruct (ps_photos d !! i) as [ph|] eqn:Eph; [|done]. cbn in *.
  destruct (bool_decide (ProfilePhoto.user_id ph = jwt_id j)) eqn:Eu; [apply bool_decide_eq_true in Eu|done]. simplify_eq.
  destruct (gallery_key _ _ Hg i _ Eph) as [Hi _].
  eapply (shown_photo_ok _ _ _ _ _ _ _ (ProfilePhoto.make_main _ _)); try eassumption.
  - intros old. cbn. rewrite Hi, Eph. by intros [= <-].
  - cbn. by rewrite Hi, Eph.
Qed.

Lemma head_latest s u ph : head (ProfilePhotoRepository.photos_of s u) = Some ph →
  ∃ i, ps_photos s !! i = Some ph ∧ ProfilePhoto.user_id ph = u.
Proof.
  unfold ProfilePhotoRepository.photos_of. intros Hh%head_Some_elem_of.
  rewrite merge_sort_Permutation, list_elem_of_filter, list_elem_of_fmap in Hh.
  destruct Hh as [Hu ([i x] & -> & Hx%elem_of_map_to_list)]. by exists i.
Qed.

Lemma no_latest s u : head (ProfilePhotoRepository.photos_of s u) = None →
  ∀ i ph, ps_photos s !! i = Some ph → ProfilePhoto.user_id ph ≠ u.
Proof.
  unfold ProfilePhotoRepository.photos_of. intros Hh i ph Hi Hu.
  assert (ph ∈ merge_sort ProfilePhotoRepository.latest_first
    (filter (λ p, ProfilePhoto.user_id p = u) (map_to_list (ps_photos s)).*2)) as Hin.
  { rewrite merge_sort_Permutation, list_elem_of_filter, list_elem_of_fmap. split; [done|].
    exists (i, ph). split; [done|by apply elem_of_map_to_list]. }
  destruct (merge_sort _ _); [by apply elem_of_nil in Hin|done].
Qed.

(** a gallery that lost a row, the main photo replaced when it was that one *)
Lemma deleted_photo_ok d t u p q ph :
  store_ok d → ps_profiles d !! u = Some p → ps_photos d !! ProfilePhoto.id ph = Some ph →
  ProfilePhoto.user_id ph = u → Profile.id q = u →
  main_ok (delete (ProfilePhoto.id ph) (ps_photos d)) q →
  gallery_ok (ProfileRepository.saved t q (ps_profiles d)) (delete (ProfilePhoto.id ph) (ps_photos d)).
Proof.
  intros Hok Hp Hph Hu Hid Hm. pose proof (ok_gallery d Hok) as Hg.
  apply gallery_changed with (ps_photos d) p; [done|by rewrite Hid| | |done|].
  - intros i x [_ Hx]%lookup_delete_Some. by apply (gallery_key _ _ Hg).
  - intros i x Hx. rewrite lookup_delete_Some. split; [by intros []|]. intros Hi. split; [|done].
    intros <-. congruence.
  - rewrite Hid. unfold photos_of_user. rewrite (count_where_delete_in _ _ _ ph) by done.
    pose proof (gallery_limit _ _ Hg u) as Hl. unfold photos_of_user in Hl. lia.
Qed.

Lemma delete_photo_ended i j d t w : doing d d t w → pwp (DeleteProfilePhoto.handle i j) w ended.
Proof.
  intros Hd. pose proof (doing_store_ok _ _ _ _ Hd) as Hok. pose proof (ok_gallery d Hok) as Hg.
  unfold DeleteProfilePhoto.handle, ProfileRepository.get_by_id, ProfilePhotoRepository.get_own,
    ProfilePhotoRepository.delete, ProfilePhotoRepository.get_latest, ProfileRepository.save.
  repeat dstep; try dend.
  all: assert (ps_photos d !! ProfilePhoto.id t0 = Some t0 ∧ ProfilePhoto.user_id t0 = jwt_id j) as [Hph Hu];
    [destruct (ps_photos d !! z) as [x|] eqn:Ex; [|done]; cbn in Heqo0;
     destruct (bool_decide (ProfilePhoto.user_id x = jwt_id j)) eqn:Eu; [|done]; injection Heqo0 as ->;
     apply bool_decide_eq_true in Eu; destruct (gallery_key _ _ Hg z t0 Ex) as [-> _]; done|].
  all: destruct (gallery_main _ _ Hg _ _ H0) as [Hid Hm].
  - apply set_photo_fields in Heqp as (Hid' & Hphoto & Hav & ->).
    dcommit Hd H1; [|repeat dstep; dend].
    eapply (profile_told d _ _ t _ t1 _ rows (delete (ProfilePhoto.id t0) (ps_photos d)));
      [exact Hd|exact H1|by right|reflexivity|].
    apply deleted_photo_ok with (jwt_id j) a; [done|done|done|done|by rewrite Hid'|].
    unfold main_ok. rewrite Hphoto, Hav, Hid', Hid.
    match goal with |- context [list.head ?l] => destruct (list.head l) as [x|] eqn:Eh end; cbn.
    + apply head_latest in Eh as (k & Hk & Hxu). exists x. cbn in Hk.
      destruct (gallery_key _ _ Hg k x) as [-> _]; [|done]. by apply lookup_delete_Some in Hk as [_ ?].
    + split; [done|]. intros k x Hk. exact (no_latest _ _ Eh k x Hk).
  - apply told_nil in H1 as ->.
    refine (pwp_doing_commit _ _ _ _ [] _ Hd eq_refl _ _ eq_refl _ _);
      [by constructor| |clear Hd; intros ? ? Hd; repeat dstep; dend|intros ? ?; dend].
    match goal with |- store_ok ?s' => apply (profiles_changed d s' t []) end;
      [done|by apply (doing_past _ _ _ _ Hd)|by constructor|reflexivity| |cbn; lia| | |done|done|done].
    + intros m []%elem_of_nil.
    + refine (deleted_photo_ok d t (jwt_id j) a a t0 Hok H0 Hph Hu Hid _).
      apply bool_decide_eq_false in Heqb. unfold main_ok in *. destruct (Profile.photo_id a) as [k|].
      * destruct Hm as (x & ? & ? & ?). exists x. rewrite lookup_delete_ne by congruence. auto.
      * destruct Hm as [? Hm]. split; [done|]. intros k x [_ Hk]%lookup_delete_Some. by apply (Hm k).
    + intros v. cbn. rewrite lookup_saved. destruct (decide (v = Profile.id a)) as [Hv|Hv]; [|reflexivity].
      rewrite Hv, Hid, H0. cbn.
      by rewrite (bool_decide_eq_true_2 (ProfileRepository.columns a = _)).
Qed.
End photos.
