(* ===== verification/PendingSpec.v ===== *)
(** The handlers of contacts, block lists, identifiers and privacy settings keep the invariant of the profile module; the loop of [_resolve_pending] ends, whatever the number of owners who wait for an address, and leaves the new user among the contacts of each of them. *)
From S2P Require Import Prelude Events PrivacyModel Rbac WsModel AuthModel ProfileModel ProfileStore ProfileCommands ProfileSpec ProfileInv.

(** ** Statements on contacts *)
Lemma mark_none b now m : ContactRepository.mark b now (ContactRepository.both_directions []) m = m.
Proof.
  apply map_eq. intros k. rewrite lookup_mark. destruct (m !! k); [|done]. cbn.
  by rewrite bool_decide_eq_false_2 by (cbn; set_solver).
Qed.

Lemma with_contacts_same s : s = s <| ps_contacts := ps_contacts s |>.
Proof. by destruct s. Qed.

Lemma pwp_set_mutual o l b d s t w (Q : result profile_error unit → profile_world → Prop) :
  doing d s t w →
  (∀ now w', doing d (s <| ps_contacts ::= ContactRepository.mark b now
                          (ContactRepository.both_directions (map (λ c, (o, c)) l)) |>) t w' → Q (Ok tt) w') →
  pwp (ContactRepository.set_mutual o l b) w Q.
Proof.
  intros H HQ. unfold ContactRepository.set_mutual. destruct l as [|c l].
  - apply pwp_ret. apply (HQ 0). unfold modify_field. cbn. rewrite mark_none. by destruct s.
  - repeat dstep. by eapply HQ.
Qed.

Lemma pwp_set_mutual_pairs l d s t w (Q : result profile_error unit → profile_world → Prop) :
  doing d s t w →
  (∀ now w', doing d (s <| ps_contacts ::= ContactRepository.mark true now
                          (ContactRepository.both_directions l) |>) t w' → Q (Ok tt) w') →
  pwp (ContactRepository.set_mutual_pairs l) w Q.
Proof.
  intros H HQ. unfold ContactRepository.set_mutual_pairs. destruct l as [|c l].
  - apply pwp_ret. apply (HQ 0). unfold modify_field. cbn. rewrite mark_none. by destruct s.
  - repeat dstep. by eapply HQ.
Qed.

(** the upsert: which keys it adds, and which rows it leaves *)
Lemma pwp_upsert_pairs (entries : list (Z * ContactUpsert)) (d s : profile_store) (t : datetime) (w : profile_world)
  (Q : result profile_error (gset (Z * Z)) → profile_world → Prop) :
  doing d s t w →
  (∀ inserted m w', upserted (ps_contacts s) m (map entry_key entries) →
     (∀ k, k ∈ inserted ↔ ps_contacts s !! k = None ∧ k ∈ map entry_key entries) →
     doing d (s <| ps_contacts := m |>) t w' → Q (Ok inserted) w') →
  (∀ e w', doing d s t w' → Q (Err e) w') → pwp (ContactRepository.upsert_many_pairs entries) w Q.
Proof.
  intros H HQ He. unfold ContactRepository.upsert_many_pairs. destruct entries as [|oe entries'] eqn:Ee.
  - apply pwp_ret. apply (HQ ∅ (ps_contacts s)); [|set_solver|by rewrite <- with_contacts_same].
    intros k. cbn. destruct (ps_contacts s !! k); [by eauto|by rewrite decide_False by apply not_elem_of_nil].
  - rewrite <- Ee in HQ |- *. clear Ee. repeat dstep; [|by apply He].
    match goal with Hv : ContactRepository.validated _ = Ok ?vs |- _ =>
      pose proof (validated_keys _ _ Hv) as Hk; rename Hv into Hvalid end.
    match goal with H : doing _ _ _ _ |- context [ContactRepository.upsert_rows ?n ?vs ?m] =>
      destruct (upsert_rows_spec n vs m) as [H1 H2]; destruct (ContactRepository.upsert_rows n vs m) as [keys m'] eqn:E end.
    cbn [fst snd] in *. rewrite Hk in *. apply (HQ _ m'); [done| |done].
    intros k. by rewrite elem_of_list_to_set, H2.
Qed.

Lemma elem_of_sorted_owners x s : x ∈ ProfilePrivacy.sorted_ids s ↔ x ∈ s.
Proof. unfold ProfilePrivacy.sorted_ids. by rewrite merge_sort_Permutation, elem_of_elements. Qed.

(** events that only tell additions *)
Lemma additions_only now events rows :
  told now events rows → (∀ e, e ∈ events → ∃ o c n b, e = ContactAdded o c n b) → only KContact rows.
Proof. intros Ht He. eapply told_only; [done|]. by intros e (? & ? & ? & ? & ->)%He. Qed.

Lemma additions_news now events rows k b :
  told now events rows → (∀ e, e ∈ events → ∃ o c n b, e = ContactAdded o c n b) →
  latest (contact_news k) rows = Some b → b = true ∧ ∃ n m, ContactAdded k.1 k.2 n m ∈ events.
Proof.
  intros Ht He (m & Hm & Hn)%latest_Some. destruct (told_event _ _ _ _ Ht Hm) as [Hin _].
  destruct (He _ Hin) as (o & c & n & b' & E). unfold contact_news in Hn. rewrite E in Hn, Hin.
  case_bool_decide as Hk; [|done]. injection Hn as <-. split; [done|]. subst k. eauto.
Qed.

(** contacts added, the flags restored, and what was told of it *)
Lemma contacts_added d s0 s t w m m' now keys pairs events rows :
  doing d s0 t w → told t events rows → upserted (ps_contacts d) m keys → (∀ k, k ∈ keys → k.1 ≠ k.2) →
  (∀ k, k ∈ pairs ↔ k ∈ keys ∧ is_Some (m !! swap k)) →
  (∀ e, e ∈ events → ∃ o c n b, e = ContactAdded o c n b ∧ (o, c) ∈ keys) →
  m' = ContactRepository.mark true now (ContactRepository.both_directions pairs) m →
  ps_contacts s = m' → ps_outbox s = ps_outbox d ++ rows → ps_blocked s = ps_blocked d →
  ps_profiles s = ps_profiles d → ps_photos s = ps_photos d → ps_privacy s = ps_privacy d → store_ok s.
Proof.
  intros Hd Ht Hu Hne Hp He -> Hm Hout Hb Hpf Hph Hpr. pose proof (doing_store_ok _ _ _ _ Hd) as Hok.
  assert (∀ e, e ∈ events → ∃ o c n b, e = ContactAdded o c n b) as Hadd by (intros e Hin; naive_solver).
  apply (contacts_changed d s t rows);
    [done|by apply (doing_past _ _ _ _ Hd)|by destruct Ht|done|by eapply additions_only| | | |done|done|done|done].
  - rewrite Hm. by apply upsert_then_mark with (ps_contacts d) keys; [apply ok_contacts| | |].
  - intros k Hk. left. rewrite Hm, mark_dom. apply (upserted_dom _ _ _ _ Hu). by left.
  - intros k Hk. destruct (additions_news _ _ _ _ _ Ht Hadd Hk) as (_ & n & b & Hin).
    destruct (He _ Hin) as (o & c & n' & b' & [= <- <- <- <-] & Hkey).
    rewrite Hm, mark_dom. apply (upserted_dom _ _ _ _ Hu). right. by destruct k.
Qed.

Section contacts.
Context `{R : RBACManager}.

Lemma quiet_target cmd : Quiet (AddContact.target cmd).
Proof. unfold AddContact.target, ProfileRepository.get_by_username, ProfileRepository.get_by_id. go_quiet. Qed.
#[local] Hint Resolve quiet_target : quiet.

Lemma contact_created now o c src f l b x events :
  UserContact.create now o c src f l b = Ok (x, events) →
  (UserContact.owner_id x, UserContact.contact_id x) = (o, c) ∧ UserContact.is_mutual x = b
  ∧ events = [ContactAdded o c (source_value src) b].
Proof. unfold UserContact.create. intros H. result_inv H. by simplify_eq/=. Qed.

Lemma contact_renamed now x f l y :
  UserContact.rename now x f l = Ok y →
  UserContact.owner_id y = UserContact.owner_id x ∧ UserContact.contact_id y = UserContact.contact_id x
  ∧ UserContact.is_mutual y = UserContact.is_mutual x.
Proof. unfold UserContact.rename. intros H. result_inv H. subst y. by destruct (bool_decide _). Qed.

(** a contact written with the flag it should have *)
Lemma contact_put_ok d s0 s t w o c x now events rows :
  doing d s0 t w → told t events rows → o ≠ c → (UserContact.owner_id x, UserContact.contact_id x) = (o, c) →
  (UserContact.is_mutual x = true → is_Some (ps_contacts d !! (c, o))) →
  (∀ e, e ∈ events → ∃ n b, e = ContactAdded o c n b) →
  ps_contacts s = (if bool_decide (is_Some (ps_contacts d !! (c, o)))
                   then ContactRepository.mark true now (ContactRepository.both_directions [(o, c)])
                          (<[(o, c) := x]> (ps_contacts d))
                   else <[(o, c) := x]> (ps_contacts d)) →
  ps_outbox s = ps_outbox d ++ rows → ps_blocked s = ps_blocked d →
  ps_profiles s = ps_profiles d → ps_photos s = ps_photos d → ps_privacy s = ps_privacy d → store_ok s.
Proof.
  intros Hd Ht Hne Hx Hm He Hc Hout Hb Hpf Hph Hpr. pose proof (doing_store_ok _ _ _ _ Hd) as Hok.
  assert (∀ e, e ∈ events → ∃ o c n b, e = ContactAdded o c n b) as Hadd by (intros e Hin; naive_solver).
  assert (∀ k, is_Some (ps_contacts s !! k) ↔ k = (o, c) ∨ is_Some (ps_contacts d !! k)) as Hdom.
  { intros k. rewrite Hc. case_bool_decide; rewrite ?mark_dom, lookup_insert_is_Some'; naive_solver. }
  apply (contacts_changed d s t rows);
    [done|by apply (doing_past _ _ _ _ Hd)|by destruct Ht|done|by eapply additions_only| | | |done|done|done|done].
  - rewrite Hc. apply (put_contact_ok now (ps_contacts d) (o, c) x); [by apply ok_contacts|done|done|done].
  - intros k Hk. left. apply Hdom. by right.
  - intros k Hk. destruct (additions_news _ _ _ _ _ Ht Hadd Hk) as (_ & n & b & Hin).
    destruct (He _ Hin) as (n' & b' & [= ? ? <- <-]). apply Hdom. left. by destruct k; cbn in *; subst.
Qed.
End contacts.
#[export] Hint Resolve quiet_target : quiet.

(** ** The handlers *)
Section handlers.
Context `{R : RBACManager} `{H : Hasher}.

Lemma reverse_of d o c b : bool_decide (c ∈ filter (λ x, is_Some (ps_contacts d !! (x, o))) (list_to_set [c] : gset Z)) = b →
  bool_decide (is_Some (ps_contacts d !! (c, o))) = b.
Proof. intros <-. apply bool_decide_ext. rewrite elem_of_filter, elem_of_list_to_set, list_elem_of_singleton. tauto. Qed.

(** the row to put: an old one renamed, or a new one *)
Lemma renamed_flag d o c x y now f l : store_ok d → ps_contacts d !! (o, c) = Some x →
  UserContact.rename now x f l = Ok y →
  (UserContact.owner_id y, UserContact.contact_id y) = (o, c)
  ∧ (UserContact.is_mutual y = true → is_Some (ps_contacts d !! (c, o))).
Proof.
  intros Hok Hx (-> & -> & ->)%contact_renamed.
  destruct (contact_key _ (ok_contacts d Hok) _ x Hx) as [-> _]. split; [done|].
  by rewrite (contact_mutual _ (ok_contacts d Hok) _ x Hx).
Qed.

Lemma add_contact_ended cmd d t w : doing d d t w → pwp (AddContact.handle cmd) w ended.
Proof.
  intros Hd. pose proof (doing_store_ok _ _ _ _ Hd) as Hok.
  unfold AddContact.handle, ContactRepository.get, ContactRepository.find_reverse_owners, ContactRepository.count.
  cbv zeta. repeat dstep; try dend.
  all: match goal with E : (_ =? _) = false |- _ => apply Z.eqb_neq, not_eq_sym in E; rename E into Hne end.
  all: match goal with E : bool_decide (_ ∈ filter _ _) = _ |- _ => apply reverse_of in E; rename E into Hrev end.
  all: try (eapply pwp_set_mutual; [exact Hd|]; clear Hd; intros ? ? Hd; repeat dstep).
  all: match goal with Ht : told _ _ _ |- _ => dcommit Hd Ht end; [|repeat dstep; dend].
  all: match goal with
       | E : UserContact.rename _ _ _ _ = Ok _, Ht : told _ _ _ |- _ =>
         destruct (renamed_flag _ _ _ _ _ _ _ _ Hok Heqo E) as [Hk Hf];
         eapply (contact_put_ok _ _ _ _ _ _ _ _ _ _ _ Hd Ht Hne Hk Hf); [by intros e ?%elem_of_nil| |reflexivity..]
       | E : UserContact.create _ _ _ _ _ _ _ = Ok _, Hp : _ = (_, _), Ht : told _ _ _ |- _ =>
         subst; apply contact_created in E as (Hk & Hf & ->);
         eapply (contact_put_ok _ _ _ _ _ _ _ _ _ _ _ Hd Ht Hne Hk); [| | |reflexivity..]
       end.
  all: try by rewrite Hrev.
  all: try (by rewrite Hf; intros _; apply (bool_decide_eq_true_1 _ Hrev)).
  all: try by rewrite Hf.
  all: intros e ->%list_elem_of_singleton; by eexists _, _.
  Unshelve. all: exact 0.
Qed.

(** a row rewritten under its own key *)
Lemma rewritten_ok d s0 t w k x y :
  doing d s0 t w → ps_contacts d !! k = Some x →
  UserContact.owner_id y = UserContact.owner_id x ∧ UserContact.contact_id y = UserContact.contact_id x
  ∧ UserContact.is_mutual y = UserContact.is_mutual x →
  store_ok (d <| ps_contacts ::= <[k := y]> |>).
Proof.
  intros Hd Hx (Ho & Hc & Hm). pose proof (doing_store_ok _ _ _ _ Hd) as Hok.
  match goal with |- store_ok ?s' => apply (contacts_changed d s' t []) end;
    [done|by apply (doing_past _ _ _ _ Hd)|by constructor|cbn; by rewrite app_nil_r| | | | |done|done|done|done].
  - by intros m ?%elem_of_nil.
  - apply (rewrite_contact_ok _ k x); [by apply ok_contacts|done..].
  - intros k' Hk. left. cbn. apply lookup_insert_is_Some'. by right.
  - done.
Qed.

Lemma favorite_fields now x b y :
  UserContact.owner_id x = UserContact.owner_id y ∧ UserContact.contact_id x = UserContact.contact_id y
  ∧ UserContact.is_mutual x = UserContact.is_mutual y →
  UserContact.owner_id (UserContact.mark_favorite now x b) = UserContact.owner_id y
  ∧ UserContact.contact_id (UserContact.mark_favorite now x b) = UserContact.contact_id y
  ∧ UserContact.is_mutual (UserContact.mark_favorite now x b) = UserContact.is_mutual y.
Proof. unfold UserContact.mark_favorite. by destruct (Bool.eqb _ b). Qed.

Lemma update_contact_ended cmd d t w : doing d d t w → pwp (UpdateContact.handle cmd) w ended.
Proof.
  intros Hd. unfold UpdateContact.handle, ContactRepository.get. cbv zeta. repeat dstep; try dend.
  all: match goal with E : UserContact.rename _ _ _ _ = Ok _ |- _ => apply contact_renamed in E end.
  all: refine (pwp_doing_commit _ _ _ _ [] _ Hd _ _ _ eq_refl _ _);
    [cbn; by rewrite app_nil_r|by constructor| |clear Hd; intros ? ? Hd; repeat dstep; dend|intros ? ?; dend].
  all: eapply rewritten_ok; eauto using favorite_fields.
Qed.

Lemma remove_contact_ended o c j d t w : doing d d t w → pwp (RemoveContact.handle o c j) w ended.
Proof.
  intros Hd. pose proof (doing_store_ok _ _ _ _ Hd) as Hok.
  unfold RemoveContact.handle, ContactRepository.get, ContactRepository.delete. cbv zeta. repeat dstep; try dend.
  all: match goal with E : _ !! _ = Some _ |- _ =>
    destruct (contact_key _ (ok_contacts d Hok) _ _ E) as [[= Ho Hc] _] end.
  2: { cbn in *. rewrite bool_decide_eq_false in Heqb. destruct Heqb. eauto. }
  eapply pwp_set_mutual; [exact Hd|]; clear Hd; intros ? ? Hd; repeat dstep.
  match goal with Ht : told _ _ _ |- _ => rename Ht into Ht'; dcommit Hd Ht'; [|dend] end.
  unfold UserContact.register_removed in Ht'. rewrite Ho, Hc in Ht'. destruct (told_one _ _ _ Ht') as [i ->].
  match goal with |- store_ok ?s' => apply (contacts_changed d s' t [MkProfileMessage i (ContactRemoved o c) t]) end;
    [done|by apply (doing_past _ _ _ _ Hd)|by constructor|done| | | | |done|done|done|done].
  - by intros m ->%list_elem_of_singleton.
  - exact (delete_contact_ok now _ (o, c) (ok_contacts d Hok)).
  - intros k Hk. cbn. rewrite mark_dom. destruct (decide (k = (o, c))) as [->|Hne].
    + right. rewrite latest_one. unfold contact_news. cbn [pm_event]. by rewrite bool_decide_eq_true_2.
    + left. by rewrite lookup_delete_ne by congruence.
  - intros k. rewrite latest_one. unfold contact_news. cbn [pm_event]. by destruct (bool_decide ((o, c) = k)).
Qed.

(** ** Block lists *)
(** a commit that moved one owner's list, and the key the cache forgets *)
Lemma pwp_commit_and_forget o d s t w rows :
  doing d s t w → ps_outbox s = ps_outbox d ++ rows → Forall (λ m, pm_created_at m = t) rows → store_ok s →
  (∀ o', o' ≠ o → BlockedUserRepository.targets_of s o' = BlockedUserRepository.targets_of d o') →
  pwp pcommit w (λ r w', match r with
    | Ok _ => pwp (BlockedUserRepository.invalidate_block_list o) w' ended
    | Err e => ended (Err e : result profile_error unit) w'
    end).
Proof.
  intros Hd Ho Hr Hok Hb. apply pwp_commit; [|intros ?; dend]. intros _.
  pose proof (now_before_tick w) as Hlt. destruct Hd as [<- <- <- Hs]. specialize (Hlt Hs). destruct Hs as [H1 H2 H3 H4 H5].
  exists (pw_session w), (pw_clock w (pw_ticks w)). split; [done|done|done|]. split; cbn.
  - done.
  - intros m. rewrite Ho, elem_of_app. intros [Hm|Hm]; [specialize (H2 m Hm); lia|].
    rewrite list.Forall_forall in Hr. by rewrite (Hr m Hm).
  - exists (pw_ticks w). split; [lia|done].
  - done.
  - intros o' ids until Hl. change (delete o (pw_block_lists w) !! o' = Some (ids, until)) in Hl.
    apply lookup_delete_Some in Hl as [Hne Hl]. rewrite (H5 o' ids until Hl). by rewrite Hb.
Qed.

Lemma targets_elsewhere s s' o : (∀ k, k.1 ≠ o → ps_blocked s' !! k = ps_blocked s !! k) →
  ∀ o', o' ≠ o → BlockedUserRepository.targets_of s' o' = BlockedUserRepository.targets_of s o'.
Proof.
  intros Hk o' Hne. unfold BlockedUserRepository.targets_of.
  apply (StronglySorted_unique Z.le); [apply StronglySorted_merge_sort; apply _..|].
  rewrite !merge_sort_Permutation. f_equiv.
  apply NoDup_Permutation; [apply list.NoDup_filter, NoDup_fst_map_to_list..|].
  intros k. rewrite !list_elem_of_filter, !list_elem_of_fmap. 
  assert (∀ t, k.1 = o' → (k, t) ∈ map_to_list (ps_blocked s') ↔ (k, t) ∈ map_to_list (ps_blocked s)) as He.
  { intros t <-. rewrite !elem_of_map_to_list. by rewrite Hk. }
  split; intros [H1 ([k' t] & -> & Ht)]; (split; [done|]); exists (k', t); (split; [done|]); by apply He.
Qed.

(** the relation after [e], the event that tells it *)
Lemma blocked_ok d s0 s t w o c b i e :
  doing d s0 t w → e = (if b : bool then UserBlocked o c else UserUnblocked o c) →
  (∀ k, is_Some (ps_blocked s !! k) ↔ if decide (k = (o, c)) then b = true else is_Some (ps_blocked d !! k)) →
  (∀ k, k ≠ (o, c) → ps_blocked s !! k = ps_blocked d !! k) →
  ps_outbox s = ps_outbox d ++ [MkProfileMessage i e t] → ps_contacts s = ps_contacts d →
  ps_profiles s = ps_profiles d → ps_photos s = ps_photos d → ps_privacy s = ps_privacy d → store_ok s.
Proof.
  intros Hd -> Hb Hk Ho Hc Hp Hph Hpr. pose proof (doing_store_ok _ _ _ _ Hd) as Hok.
  apply (blocks_changed d s t [MkProfileMessage i (if b then UserBlocked o c else UserUnblocked o c) t]);
    [done|by apply (doing_past _ _ _ _ Hd)|by constructor|done| | |done|done|done|done].
  - intros m ->%list_elem_of_singleton. by destruct b.
  - intros k. rewrite latest_one. unfold block_news. specialize (Hb k). specialize (Hk k).
    destruct b; cbn [pm_event]; (destruct (decide ((o, c) = k)) as [E|E];
      [rewrite bool_decide_eq_true_2 by done|rewrite bool_decide_eq_false_2 by done]);
      try (rewrite decide_True in Hb by done; by rewrite Hb); apply Hk; congruence.
Qed.

Lemma block_user_ended o c j d t w : doing d d t w → pwp (BlockUser.handle o c j) w ended.
Proof.
  intros Hd. unfold BlockUser.handle, BlockedUserRepository.get. cbv zeta. repeat dstep; try dend.
  match goal with Ht : told _ _ _ |- _ => destruct (told_one _ _ _ Ht) as [i ->] end.
  eapply (pwp_commit_and_forget o _ _ _ _ _ Hd eq_refl); [by constructor| |].
  - eapply (blocked_ok _ _ _ _ _ o c true _ _ Hd eq_refl); [| |reflexivity..].
    + intros k. cbn. rewrite lookup_insert_is_Some'. case_decide; naive_solver.
    + intros k Hk. cbn. by rewrite lookup_insert_ne.
  - apply targets_elsewhere. intros k Hk. cbn. rewrite lookup_insert_ne; [done|]. intros <-. by apply Hk.
Qed.

Lemma unblock_user_ended o c j d t w : doing d d t w → pwp (UnblockUser.handle o c j) w ended.
Proof.
  intros Hd. unfold UnblockUser.handle, BlockedUserRepository.get. cbv zeta. repeat dstep; try dend.
  match goal with Ht : told _ _ _ |- _ => destruct (told_one _ _ _ Ht) as [i ->] end.
  eapply (pwp_commit_and_forget o _ _ _ _ _ Hd eq_refl); [by constructor| |].
  - eapply (blocked_ok _ _ _ _ _ o c false _ _ Hd eq_refl); [| |reflexivity..].
    + intros k. cbn. rewrite lookup_delete_is_Some. case_decide; naive_solver.
    + intros k Hk. cbn. by rewrite lookup_delete_ne.
  - apply targets_elsewhere. intros k Hk. cbn. rewrite lookup_delete_ne; [done|]. intros <-. by apply Hk.
Qed.

(** ** Privacy settings *)
Lemma created_row_ok u : privacy_row_ok u (ProfilePrivacy.create u).
Proof. split; cbn; [done|done|constructor|by intros e ?%elem_of_nil|done]. Qed.

Lemma set_rule_ok u p rule v : privacy_row_ok u p → privacy_row_ok u (ProfilePrivacy.set_rule p rule v).
Proof.
  intros [Hu Hc Hn He Hl]. split; [done| |done..]. unfold ProfilePrivacy.set_rule. cbn. rewrite <- Hc, <- list_fmap_compose.
  apply list_fmap_ext. intros i [r x] _. cbn. by destruct (bool_decide _).
Qed.

Lemma exception_key rule b l :
  map (λ e, (pe_rule e, pe_target_id e)) ((λ u : Z, MkException rule u b) <$> l) = (λ u, (rule, u)) <$> l.
Proof. induction l as [|x l IH]; [done|]. cbn. by rewrite IH. Qed.

Lemma filter_exceptions rule rule' b l :
  filter (λ e, pe_rule e = rule') ((λ u : Z, MkException rule u b) <$> l)
  = if decide (rule = rule') then (λ u : Z, MkException rule u b) <$> l else [].
Proof.
  induction l as [|x l IH]; [by case_decide|]. cbn [fmap list_fmap]. rewrite filter_cons, IH. cbn.
  repeat case_decide; done.
Qed.

Lemma sorted_ids_NoDup s : NoDup (ProfilePrivacy.sorted_ids s).
Proof. unfold ProfilePrivacy.sorted_ids. rewrite merge_sort_Permutation. apply NoDup_elements. Qed.

Lemma length_sorted_ids s : length (ProfilePrivacy.sorted_ids s) = size s.
Proof. unfold ProfilePrivacy.sorted_ids. by rewrite merge_sort_Permutation. Qed.

Lemma replace_exceptions_ok u p rule allow deny q :
  privacy_row_ok u p → ProfilePrivacy.replace_exceptions p rule allow deny = Ok q → privacy_row_ok u q.
Proof.
  intros [Hu Hc Hn He Hl]. unfold ProfilePrivacy.replace_exceptions. rewrite Hu.
  set (A := list_to_set (filter _ allow) : gset Z). set (D := list_to_set (filter _ deny) ∖ A : gset Z).
  assert (∀ x, x ∈ A → x ≠ u) as HA by (intros x; unfold A; by rewrite elem_of_list_to_set, list_elem_of_filter; intros []).
  assert (∀ x, x ∈ D → x ≠ u ∧ x ∉ A) as HD
    by (intros x; unfold D; rewrite elem_of_difference, elem_of_list_to_set, list_elem_of_filter; tauto).
  clearbody A D. destruct (_ <? _) eqn:Hlim; [done|]. apply Z.ltb_ge in Hlim. intros [= <-].
  split; cbn; [done|done| | |].
  - rewrite !map_app, !exception_key. apply list.NoDup_app. split_and!.
    + eapply sublist_NoDup; [exact Hn|]. apply fmap_sublist, sublist_filter.
    + intros k Hk Hin. apply list_elem_of_In, in_map_iff in Hk as (e & <- & [Hr _]%list_elem_of_In%list_elem_of_filter).
      rewrite elem_of_app, !list_elem_of_fmap in Hin. destruct Hin as [(x & [= ] & _)|(x & [= ] & _)]; congruence.
    + apply list.NoDup_app. split_and!; [apply NoDup_fmap_2, sorted_ids_NoDup; by intros ?? [=]| |apply NoDup_fmap_2, sorted_ids_NoDup; by intros ?? [=]].
      intros k (x & -> & Hx%elem_of_sorted_owners)%list_elem_of_fmap (y & [= <-] & Hy%elem_of_sorted_owners)%list_elem_of_fmap.
      by apply (HD x).
  - intros e. rewrite !elem_of_app, !list_elem_of_fmap. intros [[_ ?]%list_elem_of_filter|[(x & -> & Hx)|(x & -> & Hx)]].
    + by apply He.
    + cbn. apply HA. by apply elem_of_sorted_owners.
    + cbn. apply HD. by apply elem_of_sorted_owners.
  - intros r. rewrite !list.filter_app, !filter_exceptions, list_filter_filter.
    specialize (Hl r). unfold len in *. rewrite !length_app.
    case_decide as Hr.
    + subst r. rewrite (list_filter_iff _ (λ _, False)) by tauto. rewrite filter_none by tauto.
      rewrite !length_fmap, !length_sorted_ids. cbn. lia.
    + rewrite (list_filter_iff _ (λ e, pe_rule e = r)) by naive_solver. cbn. lia.
Qed.

Lemma replaced_ok u l : ∀ p q, privacy_row_ok u p → UpdatePrivacySettings.replace_each p l = Ok q → privacy_row_ok u q.
Proof.
  induction l as [|[rule [allow deny]] l IH]; intros p q Hp Hq; cbn [UpdatePrivacySettings.replace_each] in Hq.
  - by injection Hq as <-.
  - result_inv Hq. eapply IH; [|done]. by eapply replace_exceptions_ok.
Qed.

Lemma set_rules_ok u l : ∀ p, privacy_row_ok u p → privacy_row_ok u (UpdatePrivacySettings.set_rules p l).
Proof. induction l as [|[rule v] l IH]; intros p Hp; [done|]. by apply IH, set_rule_ok. Qed.

(** settings written with the event that tells them *)
Lemma settings_told d s0 s t w a rows :
  doing d s0 t w → told t (ProfilePrivacy.register_updated a) rows → privacy_row_ok (ProfilePrivacy.user_id a) a →
  ps_privacy s = <[ProfilePrivacy.user_id a := a]> (ps_privacy d) → ps_outbox s = ps_outbox d ++ rows →
  ps_contacts s = ps_contacts d → ps_blocked s = ps_blocked d → ps_profiles s = ps_profiles d →
  ps_photos s = ps_photos d → store_ok s.
Proof.
  intros Hd Ht Ha Hp Ho Hc Hb Hpf Hph. pose proof (doing_store_ok _ _ _ _ Hd) as Hok.
  destruct (told_one _ _ _ Ht) as [i ->].
  apply (privacy_changed d s t _ Hok (doing_past _ _ _ _ Hd) (proj2 Ht) Ho); [|done| | |done|done|done|done].
  - by intros m ->%list_elem_of_singleton.
  - intros u p. rewrite Hp. intros [[<- <-]|[_ ?]]%lookup_insert_Some; [done|by apply (ok_privacy d Hok)].
  - intros u. rewrite latest_one, Hp. unfold privacy_news. cbn [pm_event]. case_bool_decide as E.
    + subst u. by rewrite lookup_insert_eq.
    + by rewrite lookup_insert_ne.
Qed.

Lemma update_privacy_ended u rules exceptions d t w :
  doing d d t w → pwp (UpdatePrivacySettings.handle u rules exceptions) w ended.
Proof.
  intros Hd. pose proof (doing_store_ok _ _ _ _ Hd) as Hok.
  unfold UpdatePrivacySettings.handle, ProfilePrivacyRepository.get_or_create,
    ProfilePrivacyRepository.get, ProfilePrivacyRepository.save. cbv zeta. repeat dstep; try dend.
  all: match goal with E : UpdatePrivacySettings.replace_each _ _ = Ok ?a |- _ =>
    assert (privacy_row_ok u a) as Ha by (eapply replaced_ok; [|exact E]; apply set_rules_ok;
      first [by apply (ok_privacy d Hok)|apply created_row_ok]); pose proof (privacy_user _ _ Ha) as Hu end.
  all: match goal with Ht : told _ _ _ |- _ => dcommit Hd Ht; [|dend] end.
  all: eapply settings_told; [exact Hd|eassumption|by rewrite Hu| |reflexivity..].
  - done.
  - cbn. rewrite Hu. apply insert_insert_eq.
Qed.
End handlers.

(** ** Imports *)
Section imports.
Context `{R : RBACManager} `{H : Hasher}.

(** who is matched: neither the owner nor somebody the owner blocked *)
Lemma split_matched owner blocked resolved l : ∀ acc,
  (∀ me, me ∈ acc.1 → me.1 ≠ owner ∧ me.1 ∉ blocked) →
  ∀ me, me ∈ (foldl (ImportContacts.split_step owner blocked resolved) acc l).1 → me.1 ≠ owner ∧ me.1 ∉ blocked.
Proof.
  induction l as [|[h e] l IH]; intros acc Hacc; [done|]. cbn [foldl]. apply IH.
  unfold ImportContacts.split_step. destruct acc as [matched pending]. destruct (resolved !! h) as [u|]; [|done].
  destruct (_ || _) eqn:E; [done|]. apply orb_false_iff in E as [E1%Z.eqb_neq E2%bool_decide_eq_false].
  cbn [fst] in *. unfold setdefault. case_bool_decide; [done|].
  intros me [?| ->%list_elem_of_singleton]%elem_of_app; auto.
Qed.

Lemma import_contacts_ended owner entries j d t w :
  doing d d t w → pwp (ImportContacts.handle owner entries j) w ended.
Proof.
  intros Hd. pose proof (doing_store_ok _ _ _ _ Hd) as Hok.
  unfold ImportContacts.handle, ContactIdentifierRepository.resolve, ImportContacts._split_by_registration,
    ContactRepository.upsert_many, ContactIdentifierRepository.upsert_pending_many,
    ContactRepository.find_reverse_owners, ContactRepository.get_many.
  cbv zeta. repeat dstep; try dend. 
  match goal with E : foldl (ImportContacts.split_step _ ?b ?r) _ ?l0 = (?l, _) |- _ => rename l into matched;
    assert (∀ me, me ∈ matched → me.1 ≠ owner ∧ me.1 ∉ b) as Hm
      by (pose proof (split_matched owner b r l0 ([], []) ltac:(by intros ? ?%elem_of_nil)) as Hs; by rewrite E in Hs);
    clear E end.
  eapply pwp_upsert_pairs; [exact Hd| |intros; dend]. clear Hd.
  set (keys := map entry_key _). assert (keys = map (λ c, (owner, c)) matched.*1) as Hkeys
    by (subst keys; rewrite <- !list_fmap_compose; by induction matched as [|[? ?] ? IH]; [|cbn; f_equal; apply IH]).
  clearbody keys. intros inserted m ? Hup Hins Hd.
  repeat dstep; try dend; (eapply pwp_set_mutual; [exact Hd|]; clear Hd; intros ? ? Hd; repeat dstep).
  all: match goal with Ht : told _ _ _ |- _ => dcommit Hd Ht; [|repeat dstep; dend] end.
  all: eapply (contacts_added _ _ _ _ _ _ _ _ keys); [exact Hd|eassumption|exact Hup| | | |reflexivity..].
  all: assert (∀ k, k ∈ keys ↔ ∃ c, k = (owner, c) ∧ c ∈ matched.*1) as Hin by (intros k; rewrite Hkeys; apply list_elem_of_fmap).
  1,4: intros k (c & -> & (me & -> & Hme)%list_elem_of_fmap)%Hin; cbn; destruct (Hm _ Hme); congruence.
  1,3: intros k; rewrite Hin; split.
  1,3: intros (c & -> & [Hs Hc%elem_of_list_to_set]%elem_of_sorted_owners%elem_of_filter)%list_elem_of_fmap;
    split; [by exists c|exact Hs].
  1,2: intros [(c & -> & Hc) Hs]; apply list_elem_of_fmap; exists c; split; [done|];
    apply elem_of_sorted_owners, elem_of_filter; (split; [exact Hs|by apply elem_of_list_to_set]).
  all: intros e (c & -> & (k & -> & [_ Hk]%Hins)%elem_of_sorted_owners%elem_of_map)%list_elem_of_fmap;
    do 4 eexists; (split; [reflexivity|]); pose proof (proj1 (Hin k) Hk) as (c & -> & _); exact Hk.
Qed.
End imports.

(** ** Identifiers *)
Lemma unaffected d s : store_ok d → ps_contacts s = ps_contacts d → ps_blocked s = ps_blocked d →
  ps_profiles s = ps_profiles d → ps_photos s = ps_photos d → ps_privacy s = ps_privacy d →
  ps_outbox s = ps_outbox d → store_ok s.
Proof. intros [] Hc Hb Hp Hph Hpr Ho. by split; rewrite ?Hc, ?Hb, ?Hp, ?Hph, ?Hpr, ?Ho. Qed.

Section identifiers.
Context `{Hasher}.
Import RegisterUserIdentifier.

Lemma apply_batch_ended h batch u n d t w : doing d d t w → pwp (_apply_batch h batch u n) w ended.
Proof.
  intros Hd. unfold _apply_batch, ContactRepository.find_forward_contacts, ContactIdentifierRepository.delete_pending.
  cbv zeta. repeat dstep.
  set (waiting := filter (λ r, r.1 ≠ u) batch).
  assert (∀ r, r ∈ waiting → r.1 ≠ u) as Hw by (by intros r [? _]%list_elem_of_filter). clearbody waiting.
  eapply pwp_upsert_pairs; [exact Hd| |intros; dend]. clear Hd.
  set (keys := map entry_key _). assert (keys = map (λ o, (o, u)) waiting.*1) as Hkeys
    by (subst keys; clear; induction waiting as [|[? ?] ? IH]; [done|cbn; f_equal; exact IH]).
  clearbody keys. intros inserted m ? Hup Hins Hd. repeat dstep.
  eapply pwp_set_mutual_pairs; [exact Hd|]; clear Hd; intros ? ? Hd; repeat dstep.
  match goal with Ht : told _ _ _ |- _ => dcommit Hd Ht; [|repeat dstep; dend] end.
  eapply (contacts_added _ _ _ _ _ _ _ _ keys); [exact Hd|eassumption|exact Hup| | | |reflexivity..].
  all: assert (∀ k, k ∈ keys ↔ ∃ c, k = (c, u) ∧ c ∈ waiting.*1) as Hin by (intros k; rewrite Hkeys; apply list_elem_of_fmap).
  - intros k (c & -> & (r & -> & Hr)%list_elem_of_fmap)%Hin. by apply Hw.
  - intros k. rewrite Hin. split.
    + intros (c & -> & [Hs Hc%elem_of_list_to_set]%elem_of_sorted_owners%elem_of_filter)%list_elem_of_fmap.
      split; [by exists c|exact Hs].
    + intros [(c & -> & Hc) Hs]. apply list_elem_of_fmap. exists c. split; [done|].
      apply elem_of_sorted_owners, elem_of_filter. split; [exact Hs|by apply elem_of_list_to_set].
  - intros e ([o c] & -> & Hk)%list_elem_of_fmap. do 4 eexists. split; [reflexivity|].
    apply (subseteq_take) in Hk. 
    rewrite merge_sort_Permutation, elem_of_elements in Hk. by apply Hins.
Qed.

Lemma resolve_pending_ended fuel h u : ∀ resolved left after d t w,
  doing d d t w → pwp (resolve_pending fuel h u resolved left after) w ended.
Proof.
  induction fuel as [|fuel IH]; intros resolved left after d t w Hd; cbn [resolve_pending].
  { apply pwp_ret. dend. }
  unfold ContactIdentifierRepository.fetch_pending_batch.
  apply pwp_bind, pwp_select. cbv beta iota. destruct (list.last _) as [row|]; [|apply pwp_ret; dend]. apply pwp_bind. eapply pwp_mono; [by eapply apply_batch_ended|].
  intros [sent|e] w'; [|done]. intros (d' & t' & Hd'). by eapply IH.
Qed.

Lemma register_identifier_ended u email d t w : doing d d t w → pwp (handle u email) w ended.
Proof.
  intros Hd. pose proof (doing_store_ok _ _ _ _ Hd) as Hok.
  unfold handle, ContactIdentifierRepository.upsert. cbv zeta. repeat dstep; try dend.
  refine (pwp_doing_commit _ _ _ _ [] _ Hd _ _ _ eq_refl _ _);
    [cbn; by rewrite app_nil_r|by constructor|by eapply unaffected| |intros ? ?; dend].
  clear Hd. intros ? ? Hd. repeat dstep. by eapply resolve_pending_ended.
Qed.

(** *** The consumer of account events *)
Lemma commands_ended e : ∀ c, c ∈ commands_for e → ∀ d t w, doing d d t w → pwp c w ended.
Proof.
  intros c Hc d t w Hd.
  destruct e; cbn [commands_for] in Hc; rewrite ?elem_of_cons, elem_of_nil in Hc; destruct_or? Hc; try done; subst c.
  - apply pwp_bind. eapply pwp_mono; [by eapply get_or_create_ended|]. intros [?|?] ?; [|done]. 
    intros (?&?&?). apply pwp_ret. dend.
  - apply pwp_bind. eapply pwp_mono; [by eapply register_identifier_ended|]. intros [?|?] ?; [|done]. 
    intros (?&?&?). apply pwp_ret. dend.
  - by eapply change_username_ended.
Qed.

Lemma handle_commands_ended l : (∀ c, c ∈ l → ∀ d t w, doing d d t w → pwp c w ended) →
  ∀ d t w, doing d d t w → pwp (handle_commands l) w ended.
Proof.
  induction l as [|c l IH]; intros Hl d t w Hd; cbn [handle_commands].
  - apply pwp_ret. dend.
  - apply pwp_bind. eapply pwp_mono; [by eapply Hl; [by left|]|]. intros [?|?] ?; [|done].
    intros (?&?&?). eapply IH; [|done]. intros ? ?. apply Hl. by right.
Qed.
End identifiers.

Import RegisterUserIdentifier.

(** a session with nothing uncommitted *)
Record settled (d : profile_store) (w : profile_world) : Prop := {
  settled_session : pw_session w = d;
  settled_database : pw_database w = d;
}.

Definition name_fits (name : option text) : Prop := ∃ n, validate_contact_name name = Ok n.
Definition names_fit (p : PendingContact.t) : Prop :=
  name_fits (PendingContact.first_name p) ∧ name_fits (PendingContact.last_name p).

Lemma validated_fits (entries : list (Z * ContactUpsert)) :
  (∀ oe, oe ∈ entries → name_fits (cu_first_name oe.2) ∧ name_fits (cu_last_name oe.2)) →
  ∃ values, ContactRepository.validated entries = Ok values.
Proof.
  induction entries as [|[o e] entries IH]; intros He; [by eexists|].
  destruct (He (o, e)) as [[f Hf] [l Hl]]; [by left|]. destruct IH as [vs Hvs]; [intros; apply He; by right|].
  cbn in *. rewrite Hf. cbn. rewrite Hl. cbn. rewrite Hvs. by eexists.
Qed.

Lemma overflow_profiles s s' : ps_profiles s = ps_profiles s' → overflow s = overflow s'.
Proof. unfold overflow. by intros ->. Qed.

(** the statements on contacts, when the names fit *)
Lemma upsert_pairs_ok entries w :
  (∃ values, ContactRepository.validated entries = Ok values) →
  pwp (ContactRepository.upsert_many_pairs entries) w (λ r w', ∃ inserted m,
    r = Ok inserted ∧ upserted (ps_contacts (pw_session w)) m (map entry_key entries)
    ∧ pw_session w' = (pw_session w) <| ps_contacts := m |> ∧ pw_database w' = pw_database w).
Proof.
  intros [values Hv]. unfold ContactRepository.upsert_many_pairs. destruct entries as [|oe entries'] eqn:Ee.
  - apply pwp_ret. exists ∅, (ps_contacts (pw_session w)). split_and!; [done| |by apply with_contacts_same|done].
    intros k. destruct (_ !! k); [by eauto|by rewrite decide_False by apply not_elem_of_nil].
  - rewrite <- Ee in Hv |- *. clear Ee. apply pwp_bind. unfold pwp, pnow. cbn [fst snd]. apply pwp_bind. rewrite Hv.
    unfold pwp, plift. cbn [fst snd]. unfold mbind, P_bind, pwrite_returning, mret, P_ret. cbn.
    destruct (upsert_rows_spec (pw_clock w (pw_ticks w)) values (ps_contacts (pw_session w))) as [H1 _].
    destruct (ContactRepository.upsert_rows _ _ _) as [keys m]. cbn in *. eexists _, m.
    rewrite (validated_keys _ _ Hv) in H1. done.
Qed.

Lemma set_mutual_pairs_ok pairs w :
  pwp (ContactRepository.set_mutual_pairs pairs) w (λ r w', r = Ok tt ∧ ∃ m,
    (∀ k, is_Some (m !! k) ↔ is_Some (ps_contacts (pw_session w) !! k))
    ∧ pw_session w' = (pw_session w) <| ps_contacts := m |> ∧ pw_database w' = pw_database w).
Proof.
  unfold ContactRepository.set_mutual_pairs. destruct pairs as [|k pairs].
  - apply pwp_ret. split; [done|]. exists (ps_contacts (pw_session w)). split_and!; [done|by apply with_contacts_same|done].
  - apply pwp_bind. unfold pwp, pnow, pwrite. cbn. split; [done|]. eexists. split_and!; [|reflexivity|done].
    intros k'. apply mark_dom.
Qed.

Lemma pwp_commit_ok w (Q : result profile_error unit → profile_world → Prop) :
  overflow (pw_session w) = None → Q (Ok tt) (committed w) → pwp pcommit w Q.
Proof. unfold pwp, pcommit. by intros ->. Qed.

Section batch.
Context (h : text) (u : Z) (d : profile_store).
Hypothesis (Hover : overflow d = None).

(** what one batch leaves *)
Record batch_done (batch : list (Z * PendingContact.t)) (d' : profile_store) : Prop := {
  done_pending : ps_pending d' = filter (λ kv, ¬ (kv.1.2 = h ∧ kv.1.1 ∈ batch.*1)) (ps_pending d);
  done_contacts k : is_Some (ps_contacts d' !! k)
                    ↔ is_Some (ps_contacts d !! k) ∨ ∃ o, o ∈ batch.*1 ∧ o ≠ u ∧ k = (o, u);
  done_profiles : ps_profiles d' = ps_profiles d;
  done_identifiers : ps_identifiers d' = ps_identifiers d;
}.

Lemma apply_batch_spec batch left w :
  settled d w → (∀ r, r ∈ batch → names_fit r.2) →
  pwp (_apply_batch h batch u left) w (λ r w', ∃ sent d', r = Ok sent ∧ settled d' w' ∧ batch_done batch d').
Proof.
  intros [Hs Hd] Hfit. unfold _apply_batch, ContactRepository.find_forward_contacts,
    ContactIdentifierRepository.delete_pending. cbv zeta.
  set (waiting := filter (λ r, r.1 ≠ u) batch).
  apply pwp_bind. eapply pwp_mono; [apply upsert_pairs_ok, validated_fits|].
  { intros oe (r & -> & [_ Hr]%list_elem_of_filter)%list_elem_of_fmap. exact (Hfit r Hr). }
  intros ? w1 (inserted & m1 & -> & Hup & Hs1 & Hd1). apply pwp_bind, pwp_select. cbv beta iota.
  apply pwp_bind. eapply pwp_mono; [apply set_mutual_pairs_ok|].
  intros ? w2 (-> & m2 & Hm2 & Hs2 & Hd2). cbv beta iota. apply pwp_bind, pwp_write. cbv beta iota.
  apply pwp_bind, pwp_publish. intros w3 [(rows & _ & Hs3) Hd3 _ _ _ _]. cbn in Hs3, Hd3.
  assert (pw_session w3 = d <| ps_contacts := m2 |>
            <| ps_pending ::= filter (λ kv, ¬ (kv.1.2 = h ∧ kv.1.1 ∈ batch.*1)) |> <| ps_outbox ::= (λ l, l ++ rows) |>) as E
    by (rewrite Hs3; cbn; rewrite Hs2, Hs1, Hs; reflexivity).
  clear Hs3. apply pwp_bind, pwp_commit_ok.
  - rewrite <- Hover. by apply overflow_profiles; rewrite E.
  - apply pwp_ret. eexists _, _. split; [done|]. split; [split; exact E|]. split; cbn; [done| |done|done].
    intros k. rewrite Hm2, Hs1. cbn. rewrite (upserted_dom _ _ _ k Hup), Hs.
    rewrite map_map. f_equiv. change (map ?f waiting) with (f <$> waiting). rewrite list_elem_of_fmap. split.
    + intros (r & -> & [Hr Hin]%list_elem_of_filter). exists r.1. split_and!; [|done|done]. by apply list_elem_of_fmap_2.
    + intros (o & (r & -> & Hin)%list_elem_of_fmap & Hne & ->). exists r. split; [done|]. by apply list_elem_of_filter.
Qed.
End batch.

(** *** The rows that wait *)
Lemma filter_every {A} (Q : A → Prop) `{∀ x, Decision (Q x)} (l : list A) : (∀ x, x ∈ l → Q x) → filter Q l = l.
Proof.
  intros Hl. induction l as [|x l IH]; [done|]. rewrite filter_cons, decide_True by (apply Hl; by left).
  f_equal. apply IH. intros y Hy. apply Hl. by right.
Qed.

Lemma elem_of_waiting s h o p :
  (o, p) ∈ ContactIdentifierRepository.waiting_rows s h ↔ ps_pending s !! (o, h) = Some p.
Proof.
  unfold ContactIdentifierRepository.waiting_rows. rewrite merge_sort_Permutation, list_elem_of_fmap. split.
  - intros ([[o' h'] p'] & [= -> ->] & [Hh Hin%elem_of_map_to_list]%list_elem_of_filter). cbn in Hh. by subst.
  - intros Hp. exists ((o, h), p). split; [done|]. apply list_elem_of_filter. split; [done|]. by apply elem_of_map_to_list.
Qed.

Lemma waiting_NoDup s h : NoDup (ContactIdentifierRepository.waiting_rows s h).*1.
Proof.
  unfold ContactIdentifierRepository.waiting_rows. rewrite merge_sort_Permutation, <- list_fmap_compose.
  apply NoDup_fmap_2_strong.
  - intros [[o h'] p] [[o' h''] p'] [Hh Hin%elem_of_map_to_list]%list_elem_of_filter [Hh' Hin'%elem_of_map_to_list]%list_elem_of_filter.
    cbn in *. intros ->. subst. congruence.
  - apply list.NoDup_filter, NoDup_map_to_list.
Qed.

Lemma waiting_sorted s h : StronglySorted ContactIdentifierRepository.owner_le (ContactIdentifierRepository.waiting_rows s h).
Proof.
  apply StronglySorted_merge_sort.
  - intros a b c. unfold ContactIdentifierRepository.owner_le. lia.
  - intros a b. unfold ContactIdentifierRepository.owner_le. lia.
Qed.

Section resolve.
Context (h : text) (u : Z).

(** what the whole loop leaves: nobody waits, and those who waited have the user
    as a contact *)
Record all_resolved (d d' : profile_store) : Prop := {
  resolved_pending : ps_pending d' = filter (λ kv, kv.1.2 ≠ h) (ps_pending d);
  resolved_contacts k : is_Some (ps_contacts d' !! k)
    ↔ is_Some (ps_contacts d !! k) ∨ ∃ o, is_Some (ps_pending d !! (o, h)) ∧ o ≠ u ∧ k = (o, u);
  resolved_profiles : ps_profiles d' = ps_profiles d;
  resolved_identifiers : ps_identifiers d' = ps_identifiers d;
}.

Lemma nobody_waits d : ContactIdentifierRepository.waiting_rows d h = [] → all_resolved d d.
Proof.
  intros Hw. assert (∀ o, ps_pending d !! (o, h) = None) as Hn.
  { intros o. destruct (ps_pending d !! (o, h)) as [p|] eqn:E; [|done]. apply elem_of_waiting in E. rewrite Hw in E.
    by apply elem_of_nil in E. }
  split; [| |done|done].
  - symmetry. apply map_filter_id. intros [o h'] p Hp. cbn. intros ->. by rewrite Hn in Hp.
  - intros k. split; [by left|]. intros [?|(o & [p Hp] & _)]; [done|]. by rewrite Hn in Hp.
Qed.

(** the batches one after the other *)
Lemma all_resolved_step batch d d1 d2 :
  batch_done h u d batch d1 → (∀ o, o ∈ batch.*1 → is_Some (ps_pending d !! (o, h))) → all_resolved d1 d2 → all_resolved d d2.
Proof.
  intros [Hp Hc Hpf Hi] Hb [Hp' Hc' Hpf' Hi']. split; [| |congruence|congruence].
  - rewrite Hp', Hp. rewrite map_filter_filter. apply map_filter_ext. intros [o h'] p Hx. cbn.
    split; [by intros [? ?]|]. intros Hne. split; [done|]. by intros [-> _].
  - intros k. rewrite Hc', Hc. rewrite Hp. split.
    + intros [[?|(o & Hin & ? & ->)]|(o & [p Hx] & ? & ->)]; [by left|right; exists o; auto|].
      right. exists o. apply map_lookup_filter_Some in Hx as [Hx _]. eauto.
    + intros [?|(o & [p Hx] & Hne & ->)]; [by left; left|]. destruct (decide (o ∈ batch.*1)) as [Hin|Hout].
      * left. right. eauto.
      * right. exists o. split; [|done]. exists p. apply map_lookup_filter_Some. split; [done|]. by intros [_ ?].
Qed.

Lemma resolve_pending_spec fuel : ∀ resolved left cursor d w,
  settled d w → overflow d = None → (∀ k p, ps_pending d !! k = Some p → names_fit p) →
  (∀ o, is_Some (ps_pending d !! (o, h)) → after cursor o = true) →
  (length (ContactIdentifierRepository.waiting_rows d h) < fuel)%nat →
  pwp (resolve_pending fuel h u resolved left cursor) w
    (λ r w', ∃ n d', r = Ok (Some n) ∧ settled d' w' ∧ all_resolved d d').
Proof.
  induction fuel as [|fuel IH]; intros resolved left cursor d w Hw Hover Hfit Hcur Hlen; [lia|].
  cbn [resolve_pending]. unfold ContactIdentifierRepository.fetch_pending_batch.
  apply pwp_bind, pwp_select. cbv beta iota. rewrite (settled_session _ _ Hw).
  set (rows := ContactIdentifierRepository.waiting_rows d h) in *.
  assert (filter (λ r : Z * PendingContact.t, after cursor r.1 = true) rows = rows) as ->.
  { apply filter_every. intros [o p] Hin%elem_of_waiting. apply Hcur. eauto. }
  set (batch := take (Z.to_nat profile_config.PENDING_RESOLVE_BATCH_SIZE) rows).
  destruct (list.last batch) as [row|] eqn:Hlast.
  2:{ apply pwp_ret. exists resolved, d. split_and!; [done|done|]. apply nobody_waits. fold rows.
      apply last_None in Hlast. subst batch. destruct rows; [done|by cbn in Hlast]. }
  assert (rows = batch ++ drop (Z.to_nat profile_config.PENDING_RESOLVE_BATCH_SIZE) rows) as Hrows by (symmetry; apply take_drop).
  assert (∀ r, r ∈ batch → r ∈ rows) as Hsub by (intros r Hr; rewrite Hrows; apply elem_of_app; by left).
  assert (row ∈ batch) as Hrow by (by apply last_Some_elem_of).
  assert (∀ r, r ∈ rows → ps_pending d !! (r.1, h) = Some r.2) as Hpend by (intros [o p]; apply elem_of_waiting).
  apply pwp_bind. eapply pwp_mono; [apply (apply_batch_spec h u d Hover batch left w Hw)|].
  { intros r Hr. eapply Hfit, Hpend. by apply Hsub. }
  intros ? w1 (sent & d1 & -> & Hw1 & Hd1). cbv beta iota.
  assert (∀ o p, ps_pending d1 !! (o, h) = Some p → ps_pending d !! (o, h) = Some p ∧ o ∉ batch.*1) as Hleft.
  { intros o p. rewrite (done_pending _ _ _ _ _ Hd1), map_lookup_filter_Some. cbn. intros [? Hn]. split; [done|]. tauto. }
  eapply pwp_mono; [eapply (IH _ _ _ d1); [done| | | |]|].
  - rewrite <- Hover. by apply overflow_profiles, (done_profiles _ _ _ _ _ Hd1).
  - intros k p Hk. rewrite (done_pending _ _ _ _ _ Hd1) in Hk. apply map_lookup_filter_Some in Hk as [Hk _]. by eapply Hfit.
  - intros o [p [Hp Hout]%Hleft]. unfold after. apply Z.ltb_lt.
    assert ((o, p) ∈ rows) as Hin by (by apply elem_of_waiting).
    pose proof (waiting_sorted d h) as Hs. fold rows in Hs. rewrite Hrows in Hin, Hs.
    apply elem_of_app in Hin as [Hin|Hin].
    { exfalso. apply Hout. apply list_elem_of_fmap. by exists (o, p). }
    pose proof (StronglySorted_app_1_elem_of _ _ _ _ _ Hs Hrow Hin) as Hle. unfold ContactIdentifierRepository.owner_le in Hle. cbn in Hle.
    assert (row.1 ≠ o); [|lia]. intros <-. apply Hout. apply list_elem_of_fmap. by exists row.
  - assert (length (row :: ContactIdentifierRepository.waiting_rows d1 h) ≤ length rows)%nat; [|cbn in *; lia].
    apply submseteq_length, NoDup_submseteq.
    + apply list.NoDup_cons. split; [|eapply NoDup_fmap_1, waiting_NoDup].
      destruct row as [o p]. intros [_ Hout]%elem_of_waiting%Hleft. apply Hout. apply list_elem_of_fmap. by exists (o, p).
    + intros [o p] [->|Hin]%elem_of_cons; [by apply Hsub|]. apply elem_of_waiting in Hin as [Hp _]%Hleft. by apply elem_of_waiting.
  - intros ? w2 (n & d2 & -> & Hw2 & Hd2). exists n, d2. split_and!; [done|done|].
    eapply all_resolved_step; [exact Hd1| |exact Hd2].
    intros o (r & -> & Hr)%list_elem_of_fmap. exists r.2. by apply Hpend, Hsub.
Qed.
End resolve.
