(* ===== verification/ProfileSystem.v ===== *)
(** The profile module as a whole: its requests, histories of them from the
    empty tables, and what holds after any history. *)
From S2P Require Import Prelude Events PrivacyModel Rbac WsModel AuthModel ProfileModel ProfileStore ProfileCommands ProfileSpec ProfileInv PendingSpec.

Inductive profile_request : Type :=
| DoCreate (c : CreateProfile.command)
| DoUpdate (c : UpdateProfile.command)
| DoAddLink (profile_id : Z) (provider contact : text) (j : UserJWTData)
| DoRemoveLink (profile_id : Z) (provider : text) (j : UserJWTData)
| DoAskUpload (user_id : Z) (file_name : text)
| DoSetAvatar (file_key : text) (j : UserJWTData)
| DoProcessAvatar (user_id : Z) (file_key : text)
| DoSetMainPhoto (photo_id : UUID) (j : UserJWTData)
| DoDeletePhoto (photo_id : option UUID) (j : UserJWTData)
| DoAddContact (c : AddContact.command)
| DoUpdateContact (c : UpdateContact.command)
| DoRemoveContact (owner_id contact_id : Z) (j : option UserJWTData)
| DoBlock (owner_id target_id : Z) (j : option UserJWTData)
| DoUnblock (owner_id target_id : Z) (j : option UserJWTData)
| DoImport (owner_id : Z) (entries : list ImportContactEntry) (j : option UserJWTData)
| DoUpdatePrivacy (user_id : Z) (rules : list (PrivacyRule * PrivacyVisibility))
    (exceptions : list (PrivacyRule * (list Z * list Z)))
| DoGetContacts (q : GetContacts.query)
| DoGetBlocked (owner_id limit : Z) (after : option Z) (j : option UserJWTData)
| DoSearchContacts (owner_id : Z) (query : text) (limit : Z) (j : option UserJWTData)
| DoGetProfile (profile_id : Z) (j : UserJWTData)
| DoGetPhotos (profile_id page_number page_size : Z) (j : UserJWTData)
| DoGetPrivacy (user_id : Z)
| DoAccountEvent (event_id : UUID) (e : auth_event)
| DoPutFile (bucket : string) (key : text) (d : image).

(** the world with the ids of the account events already consumed *)
Record profile_system : Type := MkProfileSystem {
  sy_world : profile_world;
  sy_processed : gset UUID;
}.

Definition void {X} (m : P X) : P unit := _ ← m; mret tt.

Section system.
Context `{RBACManager, Hasher, Imaging}.

(** what runs in a session *)
Definition serve_profile (r : profile_request) : P unit :=
  match r with
  | DoCreate c => CreateProfile.handle c
  | DoUpdate c => UpdateProfile.handle c
  | DoAddLink p n c j => AddLinkToProfile.handle p n c j
  | DoRemoveLink p n j => RemoveLinkFromProfile.handle p n j
  | DoAskUpload u n => void (UloadProfileAvatar.handle u n)
  | DoSetAvatar k j => UpdateProfileAvatar.handle k j
  | DoProcessAvatar u k => ProccessAvatar.handle u k
  | DoSetMainPhoto i j => SetMainProfilePhoto.handle i j
  | DoDeletePhoto i j => DeleteProfilePhoto.handle i j
  | DoAddContact c => void (AddContact.handle c)
  | DoUpdateContact c => void (UpdateContact.handle c)
  | DoRemoveContact o c j => RemoveContact.handle o c j
  | DoBlock o t j => BlockUser.handle o t j
  | DoUnblock o t j => UnblockUser.handle o t j
  | DoImport o es j => void (ImportContacts.handle o es j)
  | DoUpdatePrivacy u rs es => void (UpdatePrivacySettings.handle u rs es)
  | DoGetContacts q => void (GetContacts.handle q)
  | DoGetBlocked o l a j => void (GetBlockedUsers.handle o l a j)
  | DoSearchContacts o q l j => void (SearchContacts.handle o q l j)
  | DoGetProfile p j => void (GetProfileById.handle p j)
  | DoGetPhotos p n s j => void (GetProfilePhotos.handle p n s j)
  | DoGetPrivacy u => void (GetPrivacySettings.handle u)
  | DoAccountEvent _ e => handle_commands (commands_for e)
  | DoPutFile b k d => ProfilePhotoStorage.put_object b k d
  end.

Definition profile_step (r : profile_request) (s : profile_system) : profile_system :=
  match r with
  | DoAccountEvent i e =>
    let '(_, processed, w) := on_user_event i e (sy_processed s) (sy_world s) in MkProfileSystem w processed
  | _ => MkProfileSystem (run_profile (serve_profile r) (sy_world s)).2 (sy_processed s)
  end.

Definition profile_history (rs : list profile_request) (s : profile_system) : profile_system :=
  foldl (λ s r, profile_step r s) s rs.

(** nothing stored, a clock and a supply of ids *)
Definition fresh_profile_world (clock : nat → datetime) (uuids : nat → UUID) : profile_world :=
  MkProfileWorld empty_profile_store empty_profile_store (clock 0%nat) clock 1 uuids 0 ∅ ∅ ∅ [].
Definition fresh_profiles (clock : nat → datetime) (uuids : nat → UUID) : profile_system :=
  MkProfileSystem (fresh_profile_world clock uuids) ∅.

(** every step runs one computation of the session, or nothing *)
Lemma step_runs r s : sy_world (profile_step r s) = sy_world s
  ∨ sy_world (profile_step r s) = (run_profile (serve_profile r) (sy_world s)).2.
Proof.
  destruct r; try by right. cbn [profile_step]. unfold on_user_event.
  destruct (bool_decide (commands_for e = [])); [by left|].
  destruct (bool_decide (event_id ∈ sy_processed s)); [by left|]. right.
  cbn [serve_profile]. by destruct (run_profile _ _) as [[?|?] ?].
Qed.

Lemma history_keeps (I : profile_world → Prop) rs : ∀ s,
  (∀ r w, I w → I (run_profile (serve_profile r) w).2) →
  I (sy_world s) → I (sy_world (profile_history rs s)).
Proof.
  induction rs as [|r rs IH]; intros s Hstep Hs; [done|]. apply IH; [done|].
  destruct (step_runs r s) as [-> | ->]; auto.
Qed.

(** ** Soundness *)
Lemma fresh_sound clock uuids : ticking clock → sound (fresh_profile_world clock uuids).
Proof.
  intros Hc. split; cbn; [apply store_ok_empty|by intros m ?%elem_of_nil|exists 0%nat; split; [lia|done]|done|].
  intros o ids until. cbn. by rewrite lookup_empty.
Qed.

Lemma void_ended {X} (m : P X) w : pwp m w ended → pwp (void m) w ended.
Proof.
  intros Hm. apply pwp_bind. eapply pwp_mono; [exact Hm|]. intros [a|e] w'; [|done].
  intros (d & t & Hd). by exists d, t.
Qed.

Lemma quiet_ended {X} (m : P X) d t w : Quiet m → doing d d t w → pwp m w ended.
Proof. intros Hq Hd. eapply pwp_doing_quiet; [done|exact Hd|]. intros [a|e] w' H' _; dend. Qed.

Lemma quiet_put_avatar_task k j : Quiet (UpdateProfileAvatar.handle k j).
Proof. intros w. split; cbn; eauto. Qed.

Ltac unfold_queries :=
  unfold UloadProfileAvatar.handle, GetContacts.handle, GetBlockedUsers.handle, SearchContacts.handle,
    SearchContacts._search_username, SearchContacts._search_own,
    GetProfileById.handle, GetProfilePhotos.handle, GetPrivacySettings.handle,
    ContactRepository.list_page, ContactRepository.max_updated_at, ContactRepository.search_own,
    ContactRepository.get, BlockedUserRepository.list_page, BlockedUserRepository.blockers_of,
    ProfilePhotoRepository.count, ProfileRepository.get_by_id, ProfileRepository.get_by_username,
    ProfilePrivacyRepository.get.

Lemma serve_ended r d t w : doing d d t w → pwp (serve_profile r) w ended.
Proof.
  intros Hd. destruct r; cbn [serve_profile]; try apply void_ended.
  all: try solve [eapply quiet_ended; [unfold_queries; go_quiet|exact Hd]].
  all: eauto using create_profile_ended, update_profile_ended, add_link_ended, remove_link_ended,
    process_avatar_ended, set_main_ended, delete_photo_ended, add_contact_ended, update_contact_ended,
    remove_contact_ended, block_user_ended, unblock_user_ended, import_contacts_ended, update_privacy_ended.
  - eapply quiet_ended; [apply quiet_put_avatar_task|exact Hd].
  - eapply handle_commands_ended; [|exact Hd]. intros c Hc d' t' w'. by eapply commands_ended.
Qed.

Lemma run_sound (m : P unit) w :
  (∀ d t w, doing d d t w → pwp m w ended) → sound w → sound (run_profile m w).2.
Proof.
  intros Hm Hs. pose proof (now_before_tick w Hs) as Hlt. destruct Hs as [H1' H2' (k & Hk & Hk') H4' H5'].
  unfold run_profile. set (w0 := w <| pw_session := pw_database w |> <| pw_now := pw_clock w (pw_ticks w) |> <| pw_ticks ::= S |>).
  assert (doing (pw_database w) (pw_database w) (pw_clock w (pw_ticks w)) w0) as Hd.
  { split; [done|done|done|]. split; cbn.
    - exact H1'.
    - intros m' Hm'. specialize (H2' m' Hm'). lia.
    - exists (pw_ticks w). split; [lia|done].
    - exact H4'.
    - exact H5'. }
  specialize (Hm _ _ _ Hd). unfold pwp in Hm. destruct (m w0) as [r w']. cbn [fst snd] in *.
  assert (sound w') as [G1 G2 G3 G4 G5]
    by (destruct r; [destruct Hm as (? & ? & []); done|done]).
  split; [exact G1|exact G2|exact G3|exact G4|exact G5].
Qed.

Lemma profile_history_sound rs clock uuids : ticking clock →
  sound (sy_world (profile_history rs (fresh_profiles clock uuids))).
Proof.
  intros Hc. apply history_keeps; [|by apply fresh_sound].
  intros r w. apply run_sound. intros d t w'. apply serve_ended.
Qed.

(** ** What every statement keeps *)
(** every row of the outbox carries an id of the supply, each used once *)
Definition stamped (uuids : nat → UUID) (n : nat) (l : list profile_message) : Prop :=
  ∃ ks, map pm_id l = map uuids ks ∧ NoDup ks ∧ Forall (λ k, (k < n)%nat) ks.

(** the names of contacts that wait have been validated *)
Definition pending_fits (m : gmap (Z * text) PendingContact.t) : Prop := ∀ k p, m !! k = Some p → names_fit p.

Definition tidy_store (uuids : nat → UUID) (n : nat) (s : profile_store) : Prop :=
  stamped uuids n (ps_outbox s) ∧ pending_fits (ps_pending s).

Definition quota_kept (q : gmap (Z * Z) (Z * option datetime)) : Prop :=
  ∀ key n until, q !! key = Some (n, until) → n ≤ profile_config.CONTACTS_NEW_IDENTIFIERS_PER_DAY.

Record tidy (w : profile_world) : Prop := {
  tidy_supply : Inj (=) (=) (pw_uuids w);
  tidy_session : tidy_store (pw_uuids w) (pw_uuid_reads w) (pw_session w);
  tidy_database : tidy_store (pw_uuids w) (pw_uuid_reads w) (pw_database w);
  tidy_columns : overflow (pw_database w) = None;
  tidy_quota : quota_kept (pw_quota w);
}.

Class Tidy {X} (m : P X) : Prop := keeps_tidy w : tidy w → tidy (m w).2.
End system.

Lemma stamped_more uuids n n' l : (n ≤ n')%nat → stamped uuids n l → stamped uuids n' l.
Proof. intros Hn (ks & ? & ? & Hk). exists ks. split_and!; [done|done|]. eapply Forall_impl; [|exact Hk]. cbn. lia. Qed.

Lemma tidy_store_more uuids n n' s : (n ≤ n')%nat → tidy_store uuids n s → tidy_store uuids n' s.
Proof. intros Hn [? ?]. split; [by eapply stamped_more|done]. Qed.

Lemma tidy_bind {X Y} (m : P X) (k : X → P Y) : Tidy m → (∀ a, Tidy (k a)) → Tidy (m ≫= k).
Proof.
  intros Hm Hk w Hw. unfold mbind, P_bind. specialize (Hm w Hw). destruct (m w) as [[a|e] w1]; [|done]. by apply Hk.
Qed.

(** a computation that writes neither the outbox nor who waits, takes no ids and
    leaves the quotas alone *)
Lemma tidy_same {X} (m : P X) :
  (∀ w, ps_outbox (pw_session (m w).2) = ps_outbox (pw_session w) ∧ ps_pending (pw_session (m w).2) = ps_pending (pw_session w)
        ∧ pw_database (m w).2 = pw_database w ∧ pw_uuids (m w).2 = pw_uuids w ∧ pw_uuid_reads (m w).2 = pw_uuid_reads w
        ∧ pw_quota (m w).2 = pw_quota w) → Tidy m.
Proof.
  intros Hm w [Hi [Hs Hp] Hd Ho Hq]. destruct (Hm w) as (H1 & H2 & H3 & H4 & H5 & H6).
  split; rewrite ?H3, ?H4, ?H5, ?H6; try done. unfold tidy_store. by rewrite H1, H2.
Qed.

Create HintDb tidy.

Section statements.
Lemma tidy_write g : (∀ s, ps_outbox (g s) = ps_outbox s ∧ ps_pending (g s) = ps_pending s) → Tidy (pwrite g).
Proof. intros Hg. apply tidy_same. intros w. cbn. by destruct (Hg (pw_session w)) as [-> ->]. Qed.
Lemma tidy_write_returning {X} (g : profile_store → X * profile_store) :
  (∀ s, ps_outbox (g s).2 = ps_outbox s ∧ ps_pending (g s).2 = ps_pending s) → Tidy (pwrite_returning g).
Proof. intros Hg. apply tidy_same. intros w. cbn. by destruct (Hg (pw_session w)) as [-> ->]. Qed.
Lemma tidy_puuid7 : Tidy puuid7.
Proof.
  intros w [Hi Hs Hd Ho Hq]. split; cbn; [exact Hi| | |exact Ho|exact Hq].
  - eapply tidy_store_more; [|exact Hs]. lia.
  - eapply tidy_store_more; [|exact Hd]. lia.
Qed.
Lemma tidy_commit : Tidy pcommit.
Proof. intros w [Hi Hs Hd Ho Hq]. unfold pcommit. by destruct (overflow (pw_session w)) eqn:E. Qed.
Lemma tidy_photo_create ph : Tidy (ProfilePhotoRepository.create ph).
Proof. apply tidy_same. intros w. unfold ProfilePhotoRepository.create. by destruct (_ !! _). Qed.
Lemma tidy_get_object b k : Tidy (ProfilePhotoStorage.get_object b k).
Proof. apply tidy_same. intros w. unfold ProfilePhotoStorage.get_object. by destruct (_ !! _). Qed.
Lemma tidy_flush : Tidy pflush.
Proof. apply tidy_same. intros w. unfold pflush. by destruct (overflow _). Qed.

(** a use is counted only within the limit *)
Lemma tidy_count_use n o a : Tidy (ContactIdentifierRepository.count_use n o a).
Proof.
  intros w [Hi Hs Hd Ho Hq]. unfold ContactIdentifierRepository.count_use.
  destruct (ContactIdentifierRepository.used_of n (pw_quota w) _) as [before ttl] eqn:E.
  assert (before ≤ profile_config.CONTACTS_NEW_IDENTIFIERS_PER_DAY) as Hb.
  { unfold ContactIdentifierRepository.used_of in E.
    destruct (pw_quota w !! _) as [[m [until|]]|] eqn:Em; [|by injection E as <- <-; eapply Hq|by injection E as <- <-].
    destruct (n <? until); injection E as <- <-; [by eapply Hq|done]. }
  destruct (_ <? before + a) eqn:El; (split; [exact Hi|exact Hs|exact Hd|exact Ho|]);
    intros key m until Hm; cbn in Hm; apply lookup_insert_Some in Hm as [[_ [= <- _]]|[_ Hm]]; try (by eapply Hq); lia.
Qed.

Lemma stamped_snoc uuids n l e t : stamped uuids n l → stamped uuids (S n) (l ++ [MkProfileMessage (uuids n) e t]).
Proof.
  intros (ks & Hl & Hn & Hk). exists (ks ++ [n]). split_and!.
  - by rewrite !map_app, Hl.
  - apply list.NoDup_app. split_and!; [done| |apply NoDup_singleton].
    intros k Hin ->%list_elem_of_singleton. rewrite list.Forall_forall in Hk. specialize (Hk _ Hin). lia.
  - apply Forall_app. split; [|constructor; [lia|done]]. eapply Forall_impl; [|exact Hk]. cbn. lia.
Qed.

Lemma tidy_publish events : Tidy (ppublish events).
Proof.
  induction events as [|e es IH]; [intros w Hw; exact Hw|]. intros w [Hi [Hs Hp] Hd Ho Hq]. apply (IH (w <| pw_uuid_reads ::= S |>
    <| pw_session ::= (λ s, s <| ps_outbox ::= (λ l, l ++ [MkProfileMessage (pw_uuids w (pw_uuid_reads w)) e (pw_now w)]) |>) |>)).
  split; cbn; [exact Hi|split; [by apply stamped_snoc|exact Hp]| |exact Ho|exact Hq].
  eapply tidy_store_more; [|exact Hd]. lia.
Qed.

(** *** Who waits *)
Lemma lstrip_lstrip s : lstrip (lstrip s) = lstrip s.
Proof. induction s as [|c s IH]; [done|]. cbn. destruct (is_space c) eqn:E; [done|]. cbn. by rewrite E. Qed.

Lemma lstrip_suffix s : lstrip s `suffix_of` s.
Proof. induction s as [|c s IH]; [done|]. cbn. destruct (is_space c); [by apply suffix_cons_r|done]. Qed.

Lemma lstrip_prefix s t : t `prefix_of` s → lstrip s = s → lstrip t = t.
Proof.
  intros [k ->] Hs. destruct t as [|c t]; [done|]. cbn in *. destruct (is_space c) eqn:E; [|done].
  exfalso. pose proof (suffix_length _ _ (lstrip_suffix (t ++ k))) as Hl. rewrite Hs in Hl. cbn in Hl. lia.
Qed.

Lemma strip_strip s : strip (strip s) = strip s.
Proof.
  unfold strip. set (t := lstrip s). assert (lstrip (reverse (lstrip (reverse t))) = reverse (lstrip (reverse t))) as ->.
  - apply (lstrip_prefix t); [|apply lstrip_lstrip].
    destruct (lstrip_suffix (reverse t)) as [k Hk]. exists (reverse k). rewrite <- reverse_app, <- Hk. by rewrite reverse_involutive.
  - by rewrite reverse_involutive, lstrip_lstrip.
Qed.

Lemma validated_name_fits name n : validate_contact_name name = Ok n → name_fits n.
Proof.
  unfold name_fits, validate_contact_name. destruct name as [s|]; [|intros [= <-]; eauto].
  destruct (empty_text (strip s)) eqn:E; [intros [= <-]; eauto|].
  destruct (_ <? len (strip s)) eqn:El; [done|]. intros [= <-]. rewrite strip_strip, E, El. eauto.
Qed.

Lemma validated_pending_fits entries : ∀ values, ContactIdentifierRepository.validated_pending entries = Ok values →
  Forall (λ e, name_fits (pu_first_name e) ∧ name_fits (pu_last_name e)) values.
Proof.
  induction entries as [|e entries IH]; intros values Hv; cbn [ContactIdentifierRepository.validated_pending] in Hv.
  - injection Hv as <-. constructor.
  - result_inv Hv. subst values. constructor; [split; by eapply validated_name_fits|by apply IH].
Qed.

Lemma upsert_pending_fits now o m e :
  pending_fits m → name_fits (pu_first_name e) ∧ name_fits (pu_last_name e) →
  pending_fits (ContactIdentifierRepository.upsert_pending now o m e).
Proof.
  intros Hm [Hf Hl] k p. unfold ContactIdentifierRepository.upsert_pending.
  destruct (m !! _) as [q|] eqn:E; intros [[<- <-]|[_ Hp]]%lookup_insert_Some; try (by eapply Hm); [|done].
  destruct (Hm _ _ E) as [? ?]. by split; cbn; [destruct (pu_first_name e)|destruct (pu_last_name e)].
Qed.

Lemma tidy_upsert_pending_many o entries : Tidy (ContactIdentifierRepository.upsert_pending_many o entries).
Proof.
  intros w Hw. unfold ContactIdentifierRepository.upsert_pending_many. destruct entries as [|e entries]; [done|].
  unfold mbind, P_bind, pnow, plift. destruct (ContactIdentifierRepository.validated_pending _) as [values|e'] eqn:E;
    destruct Hw as [Hi [Hs Hp] Hd Ho Hq]; (split; [exact Hi| |exact Hd|exact Ho|exact Hq]); [|by split].
  split; [exact Hs|]. cbn. apply validated_pending_fits in E. clear Hs.
  change (pending_fits (ps_pending (pw_session w))) in Hp. revert Hp. generalize (ps_pending (pw_session w)) as m.
  induction E as [|v values Hv Hvs IH]; intros m Hm; [done|]. cbn [foldl]. by apply IH, upsert_pending_fits.
Qed.

Lemma tidy_delete_pending h os : Tidy (ContactIdentifierRepository.delete_pending h os).
Proof.
  intros w [Hi [Hs Hp] Hd Ho Hq]. split; [exact Hi| |exact Hd|exact Ho|exact Hq]. split; [exact Hs|].
  intros k p. cbn. intros [Hk _]%map_lookup_filter_Some. by eapply Hp.
Qed.
End statements.
#[export] Hint Resolve tidy_puuid7 tidy_commit tidy_photo_create tidy_get_object tidy_count_use
  tidy_flush tidy_publish tidy_upsert_pending_many tidy_delete_pending : tidy.
#[export] Hint Extern 1 (Tidy (pwrite _)) => apply tidy_write; intros ?; split; reflexivity : tidy.
#[export] Hint Extern 1 (Tidy (pwrite_returning _)) => apply tidy_write_returning; intros ?; repeat case_match; split; reflexivity : tidy.
#[export] Hint Extern 2 (Tidy _) => apply tidy_same; intros ?; done : tidy.

Ltac head_of t := match t with ?f _ => head_of f | _ => t end.
Ltac go_tidy :=
  repeat first
    [ solve [eauto with tidy]
    | progress cbv zeta
    | apply tidy_bind; [|intros ?]
    | match goal with
      | |- Tidy (if ?b then _ else _) => destruct b
      | |- Tidy (match ?x with _ => _ end) => destruct x
      | |- Tidy ?m => let h := head_of m in progress unfold h
      end ].

Section handlers.
Context `{RBACManager, Hasher, Imaging}.

Lemma tidy_upload_variants u p l : ∀ a, Tidy (ProfilePhotoStorage.upload_variants u p l a).
Proof. induction l as [|[[size fmt] content] l IH]; intros a; cbn [ProfilePhotoStorage.upload_variants]; go_tidy. Qed.
Lemma tidy_delete_each l : Tidy (ProfilePhotoStorage.delete_each l).
Proof. induction l as [|k l IH]; cbn [ProfilePhotoStorage.delete_each]; go_tidy. Qed.
#[local] Hint Resolve tidy_upload_variants tidy_delete_each : tidy.

Lemma tidy_rendered k : Tidy (ProccessAvatar.rendered k).
Proof. go_tidy. Qed.
Lemma tidy_dropping {X} k (m : P X) : Tidy m → Tidy (ProccessAvatar.dropping_refused k m).
Proof.
  intros Hm w Hw. specialize (Hm w Hw). unfold ProccessAvatar.dropping_refused.
  destruct (m w) as [[a|e] w1]; [exact Hm|].
  destruct e; try exact Hm; cbn [snd] in Hm;
    match goal with |- tidy (?m' _).2 => assert (Tidy m') as Hs by go_tidy; by apply Hs end.
Qed.
#[local] Hint Resolve tidy_rendered tidy_dropping : tidy.

Lemma tidy_apply_batch h b u n : Tidy (RegisterUserIdentifier._apply_batch h b u n).
Proof. go_tidy. Qed.
#[local] Hint Resolve tidy_apply_batch : tidy.
Lemma tidy_resolve_pending fuel h u : ∀ r l a, Tidy (RegisterUserIdentifier.resolve_pending fuel h u r l a).
Proof. induction fuel as [|fuel IH]; intros r l a; cbn [RegisterUserIdentifier.resolve_pending]; go_tidy. Qed.
#[local] Hint Resolve tidy_resolve_pending : tidy.
Lemma tidy_commands e c : c ∈ commands_for e → Tidy c.
Proof.
  destruct e; cbn [commands_for]; rewrite ?elem_of_cons, elem_of_nil; intros Hc; destruct_or? Hc; try done; subst c; go_tidy.
Qed.
Lemma tidy_handle_commands l : (∀ c, c ∈ l → Tidy c) → Tidy (handle_commands l).
Proof.
  induction l as [|c l IH]; intros Hl; cbn [handle_commands]; [go_tidy|].
  apply tidy_bind; [apply Hl; by left|]. intros _. apply IH. intros ? ?. apply Hl. by right.
Qed.

Lemma tidy_serve r : Tidy (serve_profile r).
Proof.
  destruct r; cbn [serve_profile]; unfold void; try solve [go_tidy].
  apply tidy_handle_commands. intros c. apply tidy_commands.
Qed.

Lemma history_tidy rs clock uuids : Inj (=) (=) uuids →
  tidy (sy_world (profile_history rs (fresh_profiles clock uuids))).
Proof.
  intros Hi. apply history_keeps.
  - intros r w [Hi' Hs Hd Ho Hq]. unfold run_profile.
    match goal with |- context [serve_profile r ?w0] => assert (tidy w0) as Hw0
      by (split; [exact Hi'|exact Hd|exact Hd|exact Ho|exact Hq]);
      apply (tidy_serve r) in Hw0; destruct (serve_profile r w0) as [a w'] end.
    destruct Hw0 as [G1 _ G2 G3 G4]. split; [exact G1|exact G2|exact G2|exact G3|exact G4].
  - assert (tidy_store uuids 0 empty_profile_store) as He.
    { split; [exists []; split_and!; (done || constructor)|]. intros k p. cbn. by rewrite lookup_empty. }
    split; [exact Hi|exact He|exact He|done|]. intros key n until. cbn. by rewrite lookup_empty.
Qed.

(** the ids told are distinct *)
Lemma history_ids rs clock uuids : Inj (=) (=) uuids →
  NoDup (map pm_id (ps_outbox (pw_database (sy_world (profile_history rs (fresh_profiles clock uuids)))))).
Proof.
  intros Hi. destruct (history_tidy rs clock uuids Hi) as [Hinj _ [(ks & -> & Hn & _) _] _ _].
  by apply (NoDup_fmap_2 (pw_uuids _)).
Qed.
End handlers.
