(* ===== verification/ProjectionSpec.v ===== *)
(** What the chat module's copies hold after its consumers read the topic of the
    profile module: deliveries as Kafka makes them (each partition in order, any
    part of it again), the exactly-once effect of the guard, and each table as
    the latest news of the log. *)
From S2P Require Import Prelude Config Events MemberModel ChatModel PrivacyModel Store Wp PrivacyService WsModel ProfileModel ProfileStore Projections ProfileSpec.

(** ** Deliveries *)

(** A partition read from offset [n] to its end; the group may fall back to an
    earlier offset and read again. *)
Inductive reads (l : list profile_message) : nat → list profile_message → Prop :=
| reads_end : reads l (length l) []
| reads_next n m s : l !! n = Some m → reads l (S n) s → reads l n (m :: s)
| reads_again n j s : (j ≤ n)%nat → reads l j s → reads l n s.

Definition of_group (g : consumer_group) (log : list (consumer_group * profile_message)) : list profile_message :=
  (filter (λ gm, gm.1 = g) log).*2.

(** Messages of one key are in one partition; every group reads every partition
    to its end, the reads of different partitions and groups interleaved. *)
Definition deliveries (partition_of : Z → nat) (l : list profile_message)
  (log : list (consumer_group * profile_message)) : Prop := ∀ g p,
  reads (filter (λ m, partition_of (profile_aggregate_id (pm_event m)) = p) l) 0
    (filter (λ m, partition_of (profile_aggregate_id (pm_event m)) = p) (of_group g log)).

(** the messages of a list under ids not seen before *)
Fixpoint firsts (seen : gset UUID) (l : list profile_message) : list profile_message :=
  match l with
  | [] => []
  | m :: l' => if bool_decide (pm_id m ∈ seen) then firsts seen l' else m :: firsts ({[ pm_id m ]} ∪ seen) l'
  end.

Definition ids (l : list profile_message) : gset UUID := list_to_set (map pm_id l).

Lemma elem_of_ids i l : i ∈ ids l ↔ ∃ m, m ∈ l ∧ pm_id m = i.
Proof.
  unfold ids. rewrite elem_of_list_to_set. unfold fmap. split.
  - intros (m & -> & Hm)%list_elem_of_fmap. eauto.
  - intros (m & Hm & <-). apply list_elem_of_fmap. eauto.
Qed.

Lemma firsts_snoc l m : ∀ seen,
  firsts seen (l ++ [m]) = firsts seen l ++ if bool_decide (pm_id m ∈ seen ∪ ids l) then [] else [m].
Proof.
  induction l as [|x l IH]; intros seen; cbn [app firsts].
  - change (ids []) with (∅ : gset UUID). rewrite (right_id_L ∅ (∪)). by destruct (bool_decide _).
  - assert (∀ S : gset UUID, pm_id x ∈ S → S ∪ ids l = S ∪ ids (x :: l)) as Hids.
    { intros S Hx. apply set_eq. intros i. rewrite !elem_of_union, !elem_of_ids. split.
      - intros [?|(y & ? & ?)]; [by left|right; exists y; split; [by right|done]].
      - intros [?|(y & [->|?]%elem_of_cons & <-)]; [by left|by left|right; eauto]. }
    destruct (bool_decide (pm_id x ∈ seen)) eqn:E.
    + rewrite IH, Hids; [done|]. by apply bool_decide_eq_true in E.
    + rewrite IH. cbn. do 2 f_equal. rewrite Hids by set_solver.
      rewrite (bool_decide_ext _ (pm_id m ∈ seen ∪ ids (x :: l))); [done|].
      rewrite !elem_of_union, elem_of_singleton, !elem_of_ids. split; [|tauto].
      intros [[->|?]|?]; [right; exists x; split; [by left|done]|by left|by right].
Qed.

Lemma firsts_mem m l : ∀ seen, m ∈ firsts seen l → m ∈ l.
Proof.
  induction l as [|x l IH]; intros seen; [done|]. cbn. case_bool_decide.
  - intros Hm%IH. by right.
  - intros [->|Hm%IH]%elem_of_cons; [by left|by right].
Qed.

(** an id no message carries does not matter *)
Lemma firsts_unseen i l : ∀ seen, (∀ m, m ∈ l → pm_id m ≠ i) → firsts ({[ i ]} ∪ seen) l = firsts seen l.
Proof.
  induction l as [|m l IH]; intros seen Hl; [done|]. cbn.
  assert (pm_id m ≠ i) as Hm by (apply Hl; by left).
  rewrite (bool_decide_ext (pm_id m ∈ {[i]} ∪ seen) (pm_id m ∈ seen)) by set_solver.
  case_bool_decide; [apply IH; intros; apply Hl; by right|].
  f_equal. replace ({[pm_id m]} ∪ ({[i]} ∪ seen)) with ({[i]} ∪ ({[pm_id m]} ∪ seen)) by set_solver.
  apply IH. intros. apply Hl. by right.
Qed.

Lemma firsts_filter (Q : profile_message → Prop) `{∀ m, Decision (Q m)} l : ∀ seen,
  (∀ m m', m ∈ l → m' ∈ l → pm_id m = pm_id m' → m = m') →
  filter Q (firsts seen l) = firsts seen (filter Q l).
Proof.
  induction l as [|m l IH]; intros seen Hl; [done|]. cbn [firsts]. rewrite filter_cons.
  assert (∀ m m', m ∈ l → m' ∈ l → pm_id m = pm_id m' → m = m') as Hl' by (intros; apply Hl; (done || by right)).
  case_bool_decide as Hs.
  - rewrite IH by done. case_decide; [|done]. cbn. by rewrite bool_decide_eq_true_2.
  - rewrite filter_cons. case_decide as HQ.
    + cbn. rewrite bool_decide_eq_false_2 by done. by rewrite IH.
    + rewrite IH by done. apply firsts_unseen. intros m' [HQ' Hm']%list_elem_of_filter E.
      apply HQ. by rewrite <- (Hl m' m); [|by right|by left|].
Qed.

(** Reading to the end, with falls back, is reading each message once. *)
Lemma firsts_reads l n s : NoDup (map pm_id l) → reads l n s →
  ∀ k, (n ≤ k ≤ length l)%nat → firsts (ids (take k l)) s = drop k l.
Proof.
  intros Hnd Hr. induction Hr as [|n m s Hm Hr IH|n j s Hj Hr IH]; intros k Hk.
  - by rewrite drop_ge by lia.
  - cbn. assert (pm_id m ∈ ids (take k l) ↔ (n < k)%nat) as Hin.
    { rewrite elem_of_ids. split.
      - intros (m' & (i & Hi & Hlt)%elem_of_take & E).
        assert (i = n) as ->; [|done]. apply (NoDup_lookup (map pm_id l) i n (pm_id m)); [done| |].
        + change (map pm_id l) with (pm_id <$> l). by rewrite list_lookup_fmap, Hi, <- E.
        + change (map pm_id l) with (pm_id <$> l). by rewrite list_lookup_fmap, Hm.
      - intros Hlt. exists m. split; [|done]. apply elem_of_take. eauto. }
    pose proof (lookup_lt_Some _ _ _ Hm). case_bool_decide as Hs; rewrite Hin in Hs.
    + apply IH. lia.
    + assert (k = n) as -> by lia. rewrite (drop_S l m n Hm). f_equal. rewrite <- (IH (S n)) by lia. f_equal.
      rewrite (take_S_r l n m Hm). apply set_eq. intros i. rewrite elem_of_union, elem_of_singleton, !elem_of_ids.
      split.
      * intros [->|(m' & ? & ?)]; [exists m|exists m']; rewrite elem_of_app, list_elem_of_singleton; auto.
      * intros (m' & [?| ->%list_elem_of_singleton]%elem_of_app & <-); [right; eauto|by left].
  - apply IH. lia.
Qed.

Lemma reads_mem l n s m : reads l n s → m ∈ s → m ∈ l.
Proof.
  induction 1 as [|n m' s Hm' Hr IH|n j s Hj Hr IH]; [by intros ?%elem_of_nil| |done].
  intros [->|?]%elem_of_cons; [|auto]. by eapply list_elem_of_lookup_2.
Qed.

(** ** One delivery *)
Definition relevant (g : consumer_group) (m : profile_message) : bool :=
  match g, pm_event m with
  | BlockGroup, (UserBlocked _ _ | UserUnblocked _ _) => true
  | ContactGroup, (ContactAdded _ _ _ _ | ContactRemoved _ _) => true
  | PrivacyGroup, PrivacyUpdated _ _ _ => true
  | ProfileGroup, (ProfileCreated _ | ProfileUpdated _) => true
  | _, _ => false
  end.

Definition group_id (g : consumer_group) : string :=
  match g with
  | BlockGroup => BLOCK_PROJECTION_GROUP_ID
  | ContactGroup => CONTACTS_PROJECTION_GROUP_ID
  | PrivacyGroup => PRIVACY_PROJECTION_GROUP_ID
  | ProfileGroup => PROFILE_PROJECTION_GROUP_ID
  end.

#[export] Instance group_id_inj : Inj (=) (=) group_id.
Proof. intros [] [] E; done. Qed.

(** the row of a user, or the one an insertion starts from *)
Definition blank_row (u : Z) : ChatUserProfile.t :=
  ChatUserProfile.Mk u None None None None None ChatUserProfile.default_privacy None.
Definition row_of (s : store) (u : Z) : ChatUserProfile.t := default (blank_row u) (profiles s !! u).

Definition projected (g : consumer_group) (m : profile_message) (s : store) : store :=
  let t := pm_created_at m in
  match g, pm_event m with
  | BlockGroup, UserBlocked o x => s <| blocks ::= union {[ (o, x) ]} |>
  | BlockGroup, UserUnblocked o x => s <| blocks ::= (.∖ {[ (o, x) ]}) |>
  | ContactGroup, ContactAdded o c _ _ => s <| contacts ::= union {[ (o, c) ]} |>
  | ContactGroup, ContactRemoved o c => s <| contacts ::= (.∖ {[ (o, c) ]}) |>
  | PrivacyGroup, PrivacyUpdated u rules exceptions =>
    if ChatPrivacyProjectionRepository.newer (ChatUserProfile.privacy_source_updated_at (row_of s u)) t
    then s <| profiles ::= <[u := (row_of s u)
                <| ChatUserProfile.privacy := ChatPrivacyProjectionRepository.privacy_columns (list_to_map rules) |>
                <| ChatUserProfile.privacy_source_updated_at := Some t |>]> |>
           <| privacy_exceptions ::= (λ m,
                foldl ChatPrivacyProjectionRepository.insert_or_keep (filter (λ kv, kv.1.1.1 ≠ u) m)
                  (ChatPrivacyProjectionRepository.exception_rows u exceptions)) |>
    else s
  | ProfileGroup, (ProfileCreated d | ProfileUpdated d) =>
    if ChatPrivacyProjectionRepository.newer (ChatUserProfile.source_updated_at (row_of s (pd_user_id d))) t
    then s <| profiles ::= <[pd_user_id d := (row_of s (pd_user_id d))
                <| ChatUserProfile.username := Some (pd_username d) |>
                <| ChatUserProfile.display_name := pd_display_name d |>
                <| ChatUserProfile.avatar_s3_key := pick_avatar_key (json_avatars (pd_avatars d)) |>
                <| ChatUserProfile.last_event_id := Some (pm_id m) |>
                <| ChatUserProfile.source_updated_at := Some t |>]> |>
    else s
  | _, _ => s
  end.

Lemma upsert_privacy_spec u rules exceptions t w :
  w_database (run_command (ApplyProfilePrivacy.handle u t rules exceptions) w).2
  = if ChatPrivacyProjectionRepository.newer (ChatUserProfile.privacy_source_updated_at (row_of (w_database w) u)) t
    then (w_database w) <| profiles ::= <[u := (row_of (w_database w) u)
                <| ChatUserProfile.privacy := ChatPrivacyProjectionRepository.privacy_columns rules |>
                <| ChatUserProfile.privacy_source_updated_at := Some t |>]> |>
           <| privacy_exceptions ::= (λ m,
                foldl ChatPrivacyProjectionRepository.insert_or_keep (filter (λ kv, kv.1.1.1 ≠ u) m)
                  (ChatPrivacyProjectionRepository.exception_rows u exceptions)) |>
    else w_database w.
Proof.
  unfold run_command, ApplyProfilePrivacy.handle, ChatPrivacyProjectionRepository.upsert_privacy, row_of.
  unfold mbind, M_bind, execute_returning. cbn.
  destruct (profiles (w_database w) !! u) as [p|]; cbn; [|done].
  by destruct (ChatPrivacyProjectionRepository.newer _ t).
Qed.

Lemma upsert_profile_spec u username display_name avatars i t w :
  w_database (run_command (UpsertProfileProjection.handle u username display_name avatars (Some i) (Some t)) w).2
  = if ChatPrivacyProjectionRepository.newer (ChatUserProfile.source_updated_at (row_of (w_database w) u)) t
    then (w_database w) <| profiles ::= <[u := (row_of (w_database w) u)
                <| ChatUserProfile.username := username |>
                <| ChatUserProfile.display_name := display_name |>
                <| ChatUserProfile.avatar_s3_key := pick_avatar_key avatars |>
                <| ChatUserProfile.last_event_id := Some i |>
                <| ChatUserProfile.source_updated_at := Some t |>]> |>
    else w_database w.
Proof.
  unfold run_command, UpsertProfileProjection.handle, ChatUserProfileRepository.upsert, row_of.
  unfold mbind, M_bind, execute_returning. cbn.
  destruct (profiles (w_database w) !! u) as [p|]; cbn; [|done].
  by destruct (ChatPrivacyProjectionRepository.newer _ t).
Qed.

(** the commands of the consumers do not fail *)
Lemma privacy_command_ok u t rules exceptions w :
  (run_command (ApplyProfilePrivacy.handle u t rules exceptions) w).1 = Ok tt.
Proof.
  unfold run_command, ApplyProfilePrivacy.handle, ChatPrivacyProjectionRepository.upsert_privacy.
  unfold mbind, M_bind, execute_returning. cbn.
  destruct (profiles (w_database w) !! u) as [p|]; cbn; [|done].
  by destruct (ChatPrivacyProjectionRepository.newer _ t).
Qed.
Lemma profile_command_ok u username display_name avatars i t w :
  (run_command (UpsertProfileProjection.handle u username display_name avatars (Some i) (Some t)) w).1 = Ok tt.
Proof.
  unfold run_command, UpsertProfileProjection.handle, ChatUserProfileRepository.upsert.
  unfold mbind, M_bind, execute_returning. cbn.
  destruct (profiles (w_database w) !! u) as [p|]; cbn; [|done].
  by destruct (ChatPrivacyProjectionRepository.newer _ t).
Qed.

Lemma guarded_spec (g : consumer_group) m c w :
  (run_command c (cw_chats w)).1 = Ok tt →
  let '(ok, w') := guarded (group_id g) m (Some c) w in
  ok = true
  ∧ cw_processed w' = {[ (group_id g, pm_id m) ]} ∪ cw_processed w
  ∧ w_database (cw_chats w')
    = if bool_decide ((group_id g, pm_id m) ∈ cw_processed w) then w_database (cw_chats w)
      else w_database (run_command c (cw_chats w)).2.
Proof.
  intros Hc. unfold guarded, EventIdempotencyGuard.try_acquire.
  destruct (bool_decide ((group_id g, pm_id m) ∈ cw_processed w)) eqn:E.
  - apply bool_decide_eq_true in E. rewrite bool_decide_eq_false_2 by (by intros ?). cbn.
    split; [done|]. split; [set_solver|done].
  - apply bool_decide_eq_false in E. rewrite bool_decide_eq_true_2 by done. cbn.
    by destruct (run_command c (cw_chats w)) as [[[]|e] chats].
Qed.

(** what one delivery does: nothing that does not concern the group, and
    nothing twice; the id is remembered *)
Definition delivered_once (g : consumer_group) (m : profile_message) (w w' : consumer_world) : Prop :=
  cw_processed w' = (if relevant g m then {[ (group_id g, pm_id m) ]} ∪ cw_processed w else cw_processed w)
  ∧ w_database (cw_chats w')
    = if relevant g m && bool_decide ((group_id g, pm_id m) ∉ cw_processed w)
      then projected g m (w_database (cw_chats w)) else w_database (cw_chats w).

Lemma delivered_by g m w c :
  consume (g, m) w = (guarded (group_id g) m (Some c) w).2 → relevant g m = true →
  (run_command c (cw_chats w)).1 = Ok tt →
  w_database (run_command c (cw_chats w)).2 = projected g m (w_database (cw_chats w)) →
  delivered_once g m w (consume (g, m) w).
Proof.
  intros -> Hr Hok Hdb. unfold delivered_once. rewrite Hr. pose proof (guarded_spec g m c w Hok) as Hg.
  destruct (guarded _ _ _ _) as [ok w']. cbn [snd]. destruct Hg as (_ & -> & ->). split; [done|]. rewrite Hdb.
  cbn. rewrite (bool_decide_not (_ ∈ _)). by destruct (bool_decide _).
Qed.

Lemma consume_spec g m w : delivered_once g m w (consume (g, m) w).
Proof.
  destruct m as [i e t]. destruct g, e; try (by split).
  - by apply (delivered_by _ _ _ (ApplyUserBlock.handle owner_id target_id true)).
  - by apply (delivered_by _ _ _ (ApplyUserBlock.handle owner_id target_id false)).
  - by apply (delivered_by _ _ _ (ApplyUserContact.handle owner_id contact_id true)).
  - by apply (delivered_by _ _ _ (ApplyUserContact.handle owner_id contact_id false)).
  - apply (delivered_by _ _ _ (ApplyProfilePrivacy.handle user_id t (list_to_map rules) exceptions));
      [done|done|apply privacy_command_ok|apply upsert_privacy_spec].
  - apply (delivered_by _ _ _ (UpsertProfileProjection.handle (pd_user_id d) (Some (pd_username d))
      (pd_display_name d) (json_avatars (pd_avatars d)) (Some i) (Some t)));
      [done|done|apply profile_command_ok|apply upsert_profile_spec].
  - apply (delivered_by _ _ _ (UpsertProfileProjection.handle (pd_user_id d) (Some (pd_username d))
      (pd_display_name d) (json_avatars (pd_avatars d)) (Some i) (Some t)));
      [done|done|apply profile_command_ok|apply upsert_profile_spec].
Qed.

(** ** The log *)
(** what a group applies of a log *)
Definition applied (g : consumer_group) (log : list (consumer_group * profile_message)) : list profile_message :=
  firsts ∅ (filter (λ m, relevant g m = true) (of_group g log)).

Lemma of_group_snoc g log g' m :
  of_group g (log ++ [(g', m)]) = of_group g log ++ if decide (g' = g) then [m] else [].
Proof.
  unfold of_group. rewrite list.filter_app, filter_cons, fmap_app. cbn. by destruct (decide (g' = g)).
Qed.

(** a fresh consumer over tables it has not written *)
Definition no_copies (s : store) : Prop :=
  blocks s = ∅ ∧ contacts s = ∅ ∧ profiles s = ∅ ∧ privacy_exceptions s = ∅.

Lemma consume_all_snoc log gm w : consume_all (log ++ [gm]) w = consume gm (consume_all log w).
Proof. unfold consume_all. by rewrite foldl_snoc. Qed.

Lemma processed_spec log w : cw_processed w = ∅ → ∀ g i,
  (group_id g, i) ∈ cw_processed (consume_all log w) ↔ i ∈ ids (filter (λ m, relevant g m = true) (of_group g log)).
Proof.
  intros Hw g i. induction log as [|[g' m] log IH] using rev_ind.
  - cbn. rewrite Hw. set_solver.
  - rewrite consume_all_snoc. destruct (consume_spec g' m (consume_all log w)) as [-> _].
    rewrite of_group_snoc, list.filter_app. rewrite elem_of_ids. setoid_rewrite elem_of_app. rewrite elem_of_ids in IH.
    destruct (relevant g' m) eqn:Hr.
    + rewrite elem_of_union, elem_of_singleton, IH. split.
      * intros [[= Hg Hi]|(x & ? & ?)]; [|eauto]. apply (inj group_id) in Hg as ->. exists m. split; [|done]. right.
        rewrite decide_True by done. rewrite filter_cons, decide_True by done. by left.
      * intros (x & [Hx|Hx] & <-); [right; eauto|]. left. case_decide as Hg; [|by apply elem_of_nil in Hx].
        apply list_elem_of_filter in Hx as [_ ->%list_elem_of_singleton]. by subst.
    + rewrite IH. split; [intros (x & ? & ?); eauto|]. intros (x & [Hx|Hx] & <-); [eauto|].
      case_decide; [|by apply elem_of_nil in Hx]. apply list_elem_of_filter in Hx as [? ->%list_elem_of_singleton]. congruence.
Qed.

(** The state of the copies after a log: one delivery more. *)
Lemma copies_snoc log g m w : cw_processed w = ∅ →
  let s := w_database (cw_chats (consume_all log w)) in
  let s' := w_database (cw_chats (consume_all (log ++ [(g, m)]) w)) in
  (applied g (log ++ [(g, m)]) = applied g log ∧ s' = s)
  ∨ (applied g (log ++ [(g, m)]) = applied g log ++ [m] ∧ relevant g m = true ∧ s' = projected g m s).
Proof.
  intros Hw s s'. subst s s'. rewrite consume_all_snoc.
  destruct (consume_spec g m (consume_all log w)) as [_ ->].
  unfold applied. rewrite of_group_snoc, decide_True, list.filter_app, filter_cons by done.
  destruct (relevant g m) eqn:Hr; [|left; rewrite decide_False by done; cbn; by rewrite app_nil_r].
  rewrite decide_True by done. rewrite firsts_snoc, (left_id_L ∅ (∪)). pose proof (processed_spec log w Hw g (pm_id m)) as Hp.
  cbn [andb]. destruct (decide (pm_id m ∈ ids (filter (λ m, relevant g m = true) (of_group g log)))) as [Hin|Hin].
  - left. rewrite (bool_decide_eq_true_2 (pm_id m ∈ _)) by done. rewrite bool_decide_eq_false_2 by tauto.
    by rewrite app_nil_r.
  - right. rewrite (bool_decide_eq_false_2 (pm_id m ∈ _)) by done. rewrite bool_decide_eq_true_2 by tauto. done.
Qed.

Lemma applied_other g g' m log : g ≠ g' → applied g (log ++ [(g', m)]) = applied g log.
Proof. intros Hg. unfold applied. rewrite of_group_snoc, decide_False by congruence. by rewrite app_nil_r. Qed.

(** An invariant of what one group applied and of the tables. *)
Lemma copies_ind (g : consumer_group) (I : list profile_message → store → Prop) w :
  cw_processed w = ∅ → I [] (w_database (cw_chats w)) →
  (∀ l m s, relevant g m = true → I l s → I (l ++ [m]) (projected g m s)) →
  (∀ g' l m s, g' ≠ g → I l s → I l (projected g' m s)) →
  ∀ log, I (applied g log) (w_database (cw_chats (consume_all log w))).
Proof.
  intros Hw H0 Hsame Hother log. induction log as [|[g' m] log IH] using rev_ind; [done|].
  destruct (decide (g' = g)) as [->|Hne].
  - destruct (copies_snoc log g m w Hw) as [[-> ->]|(-> & Hr & ->)]; [done|by apply Hsame].
  - rewrite applied_other by done. destruct (copies_snoc log g' m w Hw) as [[_ ->]|(_ & Hr & ->)]; [done|by apply Hother].
Qed.

(** ** The tables after a log *)
Lemma projected_blocks g m s : g ≠ BlockGroup → blocks (projected g m s) = blocks s.
Proof. unfold projected. destruct g, (pm_event m); try done; by destruct (ChatPrivacyProjectionRepository.newer _ _). Qed.
Lemma projected_contacts g m s : g ≠ ContactGroup → contacts (projected g m s) = contacts s.
Proof. unfold projected. destruct g, (pm_event m); try done; by destruct (ChatPrivacyProjectionRepository.newer _ _). Qed.
Lemma projected_exceptions g m s : g ≠ PrivacyGroup → privacy_exceptions (projected g m s) = privacy_exceptions s.
Proof. unfold projected. destruct g, (pm_event m); try done; by destruct (ChatPrivacyProjectionRepository.newer _ _). Qed.

(** a profile as the chat module shows it, and the settings it knows *)
Definition shown (p : ChatUserProfile.t) :=
  (ChatUserProfile.username p, ChatUserProfile.display_name p, ChatUserProfile.avatar_s3_key p,
   ChatUserProfile.last_event_id p, ChatUserProfile.source_updated_at p).
Definition columns (p : ChatUserProfile.t) :=
  (ChatUserProfile.privacy p, ChatUserProfile.privacy_source_updated_at p).

Lemma row_of_insert s u p v : row_of (s <| profiles ::= <[u := p]> |>) v = if decide (v = u) then p else row_of s v.
Proof.
  unfold row_of. cbn. case_decide as E; [subst; by rewrite lookup_insert_eq|by rewrite lookup_insert_ne].
Qed.

Lemma projected_shown g m s v : g ≠ ProfileGroup → shown (row_of (projected g m s) v) = shown (row_of s v).
Proof.
  intros Hg. unfold projected. destruct g, (pm_event m); try done.
  destruct (ChatPrivacyProjectionRepository.newer _ _); [|done].
  match goal with |- context [row_of (?s1 <| privacy_exceptions ::= _ |>) v] => change (row_of (s1 <| privacy_exceptions ::= _ |>) v) with (row_of s1 v) end.
  rewrite row_of_insert. case_decide as E; [by subst|done].
Qed.

Lemma projected_columns g m s v : g ≠ PrivacyGroup → columns (row_of (projected g m s) v) = columns (row_of s v).
Proof.
  intros Hg. unfold projected. destruct g, (pm_event m); try done;
    (destruct (ChatPrivacyProjectionRepository.newer _ _); [|done]; rewrite row_of_insert; case_decide as E; [by subst|done]).
Qed.

(** *** The rows of a rule's exceptions *)
Definition first_row_of (k : Z * string * Z) (rows : list ((Z * string * Z) * bool)) : option bool :=
  snd <$> List.find (λ kv, bool_decide (kv.1 = k)) rows.

Lemma lookup_insert_rows rows k : ∀ m : gmap (Z * string * Z) bool,
  foldl ChatPrivacyProjectionRepository.insert_or_keep m rows !! k
  = match m !! k with Some v => Some v | None => first_row_of k rows end.
Proof.
  induction rows as [|[k' v] rows IH]; intros m; cbn [foldl]; [by destruct (m !! k)|].
  rewrite IH. unfold ChatPrivacyProjectionRepository.insert_or_keep, first_row_of. cbn. destruct (decide (k' = k)) as [->|Hne].
  - rewrite (bool_decide_eq_true_2 (k = k)) by done. destruct (m !! k) eqn:E; [by rewrite E|]. by rewrite lookup_insert_eq.
  - rewrite (bool_decide_eq_false_2 (k' = k)) by done. destruct (m !! k'); [done|]. by rewrite lookup_insert_ne.
Qed.

Lemma exception_rows_owner u l kv : kv ∈ ChatPrivacyProjectionRepository.exception_rows u l → kv.1.1.1 = u.
Proof.
  unfold ChatPrivacyProjectionRepository.exception_rows. rewrite list_elem_of_bind.
  intros ([r bs] & Hkv & _). rewrite list_elem_of_bind in Hkv. destruct Hkv as ([b a] & Hkv & _).
  rewrite list_elem_of_bind in Hkv. destruct Hkv as (x & ->%list_elem_of_singleton & _). done.
Qed.

Lemma lookup_replaced (u : Z) (l : list (string * list (string * list Z))) (m : gmap (Z * string * Z) bool) (rule : string) (x : Z) :
  foldl ChatPrivacyProjectionRepository.insert_or_keep (filter (λ kv, kv.1.1.1 ≠ u) m)
    (ChatPrivacyProjectionRepository.exception_rows u l) !! (u, rule, x)
  = first_row_of (u, rule, x) (ChatPrivacyProjectionRepository.exception_rows u l).
Proof.
  rewrite lookup_insert_rows.
  replace (filter (λ kv : Z * string * Z * bool, kv.1.1.1 ≠ u) m !! (u, rule, x)) with (@None bool); [done|].
  symmetry. apply map_lookup_filter_None. right. by intros v _ [].
Qed.

Lemma lookup_replaced_other (v : Z) (l : list (string * list (string * list Z))) (m : gmap (Z * string * Z) bool) (u : Z) (rule : string) (x : Z) : v ≠ u →
  foldl ChatPrivacyProjectionRepository.insert_or_keep (filter (λ kv, kv.1.1.1 ≠ v) m)
    (ChatPrivacyProjectionRepository.exception_rows v l) !! (u, rule, x) = m !! (u, rule, x).
Proof.
  intros Hne. rewrite lookup_insert_rows. unfold first_row_of.
  destruct (List.find _ _) as [[k b]|] eqn:E.
  - apply List.find_some in E as [Hin%list_elem_of_In E%bool_decide_eq_true]. cbn in E. subst k.
    by apply exception_rows_owner in Hin.
  - destruct (m !! (u, rule, x)) as [b|] eqn:Em.
    + assert (filter (λ kv : Z * string * Z * bool, kv.1.1.1 ≠ v) m !! (u, rule, x) = Some b) as ->; [|done].
      apply map_lookup_filter_Some. by split.
    + assert (filter (λ kv : Z * string * Z * bool, kv.1.1.1 ≠ v) m !! (u, rule, x) = None) as ->; [|done].
      apply map_lookup_filter_None. by left.
Qed.

Definition about (u : Z) (m : profile_message) : Prop := profile_aggregate_id (pm_event m) = u.
#[export] Instance about_dec u m : Decision (about u m).
Proof. unfold about. apply _. Defined.

Section copies.
Context (w : consumer_world).
Hypothesis (Hw : cw_processed w = ∅).
Hypothesis (H0 : no_copies (w_database (cw_chats w))).
Let after (log : list (consumer_group * profile_message)) : store := w_database (cw_chats (consume_all log w)).

Lemma copied_blocks log k : k ∈ blocks (after log) ↔ latest (block_news k) (applied BlockGroup log) = Some true.
Proof.
  revert k. apply (copies_ind BlockGroup (λ l s, ∀ k, k ∈ blocks s ↔ latest (block_news k) l = Some true)); [done| | |].
  - destruct H0 as [-> _]. intros k. split; [by intros ?%not_elem_of_empty|done].
  - intros l m s Hr IH k. rewrite latest_snoc. unfold relevant in Hr. unfold projected, block_news.
    destruct (pm_event m); try done; cbn; case_bool_decide as E; try rewrite <- IH; set_solver.
  - intros g l m s Hg IH k. by rewrite projected_blocks.
Qed.

Lemma copied_contacts log k : k ∈ contacts (after log) ↔ latest (contact_news k) (applied ContactGroup log) = Some true.
Proof.
  revert k. apply (copies_ind ContactGroup (λ l s, ∀ k, k ∈ contacts s ↔ latest (contact_news k) l = Some true)); [done| | |].
  - destruct H0 as (_ & -> & _). intros k. split; [by intros ?%not_elem_of_empty|done].
  - intros l m s Hr IH k. rewrite latest_snoc. unfold relevant in Hr. unfold projected, contact_news.
    destruct (pm_event m); try done; cbn; case_bool_decide as E; try rewrite <- IH; set_solver.
  - intros g l m s Hg IH k. by rewrite projected_contacts.
Qed.

Definition as_shown (n : option (ProfileData * profile_message)) :=
  match n with
  | Some (d, m) => (Some (pd_username d), pd_display_name d, pick_avatar_key (json_avatars (pd_avatars d)),
                    Some (pm_id m), Some (pm_created_at m))
  | None => shown (blank_row 0)
  end.
Definition as_columns (n : option (list (string * string) * list (string * list (string * list Z)) * profile_message)) :=
  match n with
  | Some (rules, _, m) => (ChatPrivacyProjectionRepository.privacy_columns (list_to_map rules), Some (pm_created_at m))
  | None => columns (blank_row 0)
  end.

(** the time of the latest news is before that of a message that comes later *)
Lemma later_news {X} (f : profile_message → option (X * profile_message)) u l m :
  (∀ m' x y, f m' = Some (x, y) → y = m' ∧ about u m' ∧ timed m' = true) → about u m → timed m = true →
  StronglySorted earlier (filter (about u) (l ++ [m])) →
  match latest f l with Some (_, m') => pm_created_at m' < pm_created_at m | None => True end.
Proof.
  intros Hf Hm Ht Hs. destruct (latest f l) as [[x m']|] eqn:E; [|done].
  apply latest_Some in E as (m0 & Hin & E). destruct (Hf _ _ _ E) as (-> & Ha & Ht').
  rewrite list.filter_app, filter_cons, decide_True in Hs by done. cbn in Hs.
  assert (earlier m0 m) as [_ Hlt]; [|by apply Hlt].
  eapply (StronglySorted_app_1_elem_of earlier); [exact Hs|by apply list_elem_of_filter|by left].
Qed.

Lemma profile_news_about u m' x y : profile_news u m' = Some (x, y) → y = m' ∧ about u m' ∧ timed m' = true.
Proof. unfold profile_news, about, timed. destruct (pm_event m'); try done; case_bool_decide; by intros [= <- <-]. Qed.
Lemma privacy_news_about u m' x y : privacy_news u m' = Some (x, y) → y = m' ∧ about u m' ∧ timed m' = true.
Proof. unfold privacy_news, about, timed. destruct (pm_event m'); try done; case_bool_decide; by intros [= <- <-]. Qed.

(** settings that come later are newer than the row *)
Lemma newer_settings u l m s :
  columns (row_of s u) = as_columns (latest (privacy_news u) l) →
  StronglySorted earlier (filter (about u) (l ++ [m])) → about u m → timed m = true →
  ChatPrivacyProjectionRepository.newer (ChatUserProfile.privacy_source_updated_at (row_of s u)) (pm_created_at m) = true.
Proof.
  intros IH Hs Ha Ht. change (ChatUserProfile.privacy_source_updated_at ?p) with (columns p).2. rewrite IH.
  pose proof (later_news _ _ l m (privacy_news_about u) Ha Ht Hs) as Hlt.
  destruct (latest _ l) as [[[rules e] m']|]; [by apply Z.ltb_lt|done].
Qed.

Lemma row_of_written s u p f v :
  row_of (s <| profiles ::= <[u := p]> |> <| privacy_exceptions ::= f |>) v = if decide (v = u) then p else row_of s v.
Proof. exact (row_of_insert s u p v). Qed.

Lemma copied_profiles u log : StronglySorted earlier (filter (about u) (applied ProfileGroup log)) →
  shown (row_of (after log) u) = as_shown (latest (profile_news u) (applied ProfileGroup log)).
Proof.
  apply (copies_ind ProfileGroup (λ l s, StronglySorted earlier (filter (about u) l) →
    shown (row_of s u) = as_shown (latest (profile_news u) l))); [done| | |].
  - intros _. unfold row_of. destruct H0 as (_ & _ & -> & _). by rewrite lookup_empty.
  - intros l m s Hr IH Hs.
    assert (StronglySorted earlier (filter (about u) l)) as Hs'.
    { rewrite list.filter_app in Hs. by apply StronglySorted_app_1_l in Hs. }
    specialize (IH Hs'). rewrite latest_snoc.
    assert (∃ d, ProfileDataEvent (pm_event m) = Some d) as [d Hd]
      by (unfold relevant in Hr; destruct (pm_event m); try done; cbn; eauto).
    assert (profile_news u m = if bool_decide (pd_user_id d = u) then Some (d, m) else None) as ->
      by (unfold profile_news; destruct (pm_event m); by simplify_eq/=).
    assert (about (pd_user_id d) m) as Ha by (unfold about; destruct (pm_event m); by simplify_eq/=).
    assert (timed m = true) as Ht by (unfold timed; destruct (pm_event m); by simplify_eq/=).
    assert (projected ProfileGroup m s = projected ProfileGroup (MkProfileMessage (pm_id m) (ProfileUpdated d) (pm_created_at m)) s) as ->
      by (destruct m as [? [] ?]; by simplify_eq/=).
    unfold projected. cbn [pm_event pm_id pm_created_at]. case_bool_decide as E.
    + subst u. assert (ChatPrivacyProjectionRepository.newer
        (ChatUserProfile.source_updated_at (row_of s (pd_user_id d))) (pm_created_at m) = true) as ->.
      { change (ChatUserProfile.source_updated_at ?p) with (shown p).2. rewrite IH.
        pose proof (later_news _ _ l m (profile_news_about (pd_user_id d)) Ha Ht Hs) as Hlt.
        destruct (latest _ l) as [[d' m']|]; [by apply Z.ltb_lt|done]. }
      rewrite row_of_insert, decide_True by done. done.
    + destruct (ChatPrivacyProjectionRepository.newer _ _); [rewrite row_of_insert, decide_False by congruence|].
      all: by rewrite IH; destruct (latest _ l).
  - intros g l m s Hg IH Hs. rewrite projected_shown by done. by apply IH.
Qed.

(** the exceptions of a user: those of the latest settings *)
Definition as_exceptions (n : option (list (string * string) * list (string * list (string * list Z)) * profile_message))
  (u : Z) (rule : string) (x : Z) : option bool :=
  match n with
  | Some (_, exceptions, _) => first_row_of (u, rule, x) (ChatPrivacyProjectionRepository.exception_rows u exceptions)
  | None => None
  end.

Lemma copied_settings u log : StronglySorted earlier (filter (about u) (applied PrivacyGroup log)) →
  columns (row_of (after log) u) = as_columns (latest (privacy_news u) (applied PrivacyGroup log))
  ∧ ∀ rule x, privacy_exceptions (after log) !! (u, rule, x)
              = as_exceptions (latest (privacy_news u) (applied PrivacyGroup log)) u rule x.
Proof.
  apply (copies_ind PrivacyGroup (λ l s, StronglySorted earlier (filter (about u) l) →
    columns (row_of s u) = as_columns (latest (privacy_news u) l)
    ∧ ∀ rule x, privacy_exceptions s !! (u, rule, x) = as_exceptions (latest (privacy_news u) l) u rule x)); [done| | |].
  - intros _. unfold row_of. destruct H0 as (_ & _ & -> & ->). rewrite lookup_empty. split; [done|].
    intros rule x. by rewrite lookup_empty.
  - intros l m s Hr IH Hs.
    assert (StronglySorted earlier (filter (about u) l)) as Hs'.
    { rewrite list.filter_app in Hs. by apply StronglySorted_app_1_l in Hs. }
    destruct (IH Hs') as [IH1 IH2]. rewrite latest_snoc. destruct m as [i e t].
    destruct e as [| | | | | |v rules exceptions]; try done.
    unfold privacy_news at 1 3, projected. cbn [pm_event pm_created_at]. destruct (decide (v = u)) as [E|E].
    + subst v. rewrite (bool_decide_eq_true_2 (u = u)) by done.
      pose proof (newer_settings u l _ s IH1 Hs eq_refl eq_refl) as Hn. cbn [pm_created_at] in Hn. rewrite Hn.
      rewrite row_of_written, decide_True by done. split; [done|]. intros rule x. apply lookup_replaced.
    + rewrite (bool_decide_eq_false_2 (v = u)) by done.
      destruct (ChatPrivacyProjectionRepository.newer _ _); [|by destruct (latest _ l) as [[[??]?]|]].
      rewrite row_of_written, decide_False by done. split; [by rewrite IH1; destruct (latest _ l) as [[[??]?]|]|].
      intros rule x. etrans; [by apply lookup_replaced_other|]. rewrite IH2.
      by destruct (latest _ l) as [[[??]?]|].
  - intros g l m s Hg IH Hs. rewrite projected_columns, projected_exceptions by done. by apply IH.
Qed.
End copies.

(** ** What a group applied, when everything was delivered *)
Section delivered.
Context (partition_of : Z → nat) (l : list profile_message) (log : list (consumer_group * profile_message)).
Hypothesis (Hdel : deliveries partition_of l log).
Hypothesis (Hids : NoDup (map pm_id l)).

Definition in_partition (p : nat) (m : profile_message) : Prop := partition_of (profile_aggregate_id (pm_event m)) = p.
#[local] Instance in_partition_dec p m : Decision (in_partition p m).
Proof. unfold in_partition. apply _. Defined.

Lemma delivered_mem g m : m ∈ of_group g log → m ∈ l.
Proof.
  intros Hm. pose proof (Hdel g (partition_of (profile_aggregate_id (pm_event m)))) as Hr.
  apply (reads_mem _ _ _ m) in Hr; [by apply list_elem_of_filter in Hr as [_ ?]|]. by apply list_elem_of_filter.
Qed.

Lemma same_id m m' : m ∈ l → m' ∈ l → pm_id m = pm_id m' → m = m'.
Proof.
  intros (i & Hi)%list_elem_of_lookup (j & Hj)%list_elem_of_lookup E.
  assert (i = j) as ->; [|congruence]. apply (NoDup_lookup (pm_id <$> l) i j (pm_id m)); [done| |];
    rewrite list_lookup_fmap; [by rewrite Hi|by rewrite Hj, E].
Qed.

Lemma filter_swap (Q Q' : profile_message → Prop) `{∀ m, Decision (Q m), ∀ m, Decision (Q' m)} (k : list profile_message) :
  filter Q (filter Q' k) = filter Q' (filter Q k).
Proof. rewrite !list_filter_filter. apply list_filter_iff. tauto. Qed.

Lemma applied_about g u :
  filter (about u) (applied g log) = filter (about u) (filter (λ m, relevant g m = true) l).
Proof.
  assert (∀ m m', m ∈ of_group g log → m' ∈ of_group g log → pm_id m = pm_id m' → m = m') as Hsame
    by (intros; apply same_id; eauto using delivered_mem).
  set (p := partition_of u).
  assert (∀ s : list profile_message, filter (about u) s = filter (about u) (filter (in_partition p) s)) as Hp.
  { intros s. rewrite list_filter_filter. apply list_filter_iff. intros m. unfold about, in_partition, p. split; [by intros <-|tauto]. }
  assert (firsts ∅ (filter (in_partition p) (of_group g log)) = filter (in_partition p) l) as Hread.
  { assert (NoDup (map pm_id (filter (in_partition p) l))) as Hnd
      by (eapply sublist_NoDup; [exact Hids|apply fmap_sublist, sublist_filter]).
    pose proof (firsts_reads _ 0 _ Hnd (Hdel g p) 0%nat ltac:(lia)) as Hr. rewrite drop_0 in Hr. exact Hr. }
  unfold applied. rewrite <- (firsts_filter (λ m, relevant g m = true)) by done.
  rewrite !(filter_swap (about u)). f_equal. rewrite Hp, (Hp l), <- Hread. by rewrite firsts_filter.
Qed.

Lemma latest_applied {X} (f : profile_message → option X) g u :
  (∀ m x, f m = Some x → about u m ∧ relevant g m = true) → latest f (applied g log) = latest f l.
Proof.
  intros Hf. rewrite <- (latest_filter f (about u) (applied g log)) by (by intros m x []%Hf).
  rewrite applied_about. rewrite (latest_filter f (about u)) by (by intros m x []%Hf).
  apply latest_filter. by intros m x []%Hf.
Qed.

Lemma StronglySorted_filter (R : profile_message → profile_message → Prop) (Q : profile_message → Prop) `{∀ m, Decision (Q m)} (k : list profile_message) :
  StronglySorted R k → StronglySorted R (filter Q k).
Proof.
  induction 1 as [|m k Hk IH Hm]; [constructor|]. rewrite filter_cons. case_decide; [|done]. constructor; [done|].
  rewrite list.Forall_forall in Hm |- *. intros x [_ Hx]%list_elem_of_filter. auto.
Qed.

Lemma sorted_applied g u : StronglySorted earlier l → StronglySorted earlier (filter (about u) (applied g log)).
Proof. intros Hl. rewrite applied_about. by do 2 apply StronglySorted_filter. Qed.
End delivered.
