(* ===== verification/ProfileTheorems.v ===== *)
(** The theorems on the profile module: its own invariants, who may see a photo,
    and the chat module's copies of blocks, contacts, profiles and privacy
    settings after any history of requests and any complete delivery of what it
    told. *)
From S2P Require Import Prelude Config Events MemberModel MessageModel ChatModel PrivacyModel Store Wp Rbac PrivacyService WsModel AuthModel ProfileModel ProfileStore ProfileCommands Projections ProfileSpec ProfileInv PendingSpec ProfileSystem ProjectionSpec.

(** ** Who may see *)
Definition profile_visibility (s : profile_store) (rule : PrivacyRule) (owner : Z) : PrivacyVisibility :=
  default DEFAULT_VISIBILITY ((λ p, ProfilePrivacy.visibility p rule) <$> ps_privacy s !! owner).
Definition profile_exception (s : profile_store) (rule : PrivacyRule) (owner viewer : Z) : option bool :=
  p ← ps_privacy s !! owner; ProfilePrivacyRepository.exception_of p rule viewer.

(** the decision [allowed_by] batches: the owner, then the exception, then the
    visibility, a contact being one the owner keeps *)
Definition profile_admits (s : profile_store) (rule : PrivacyRule) (owner : Z) (viewer : option Z) : bool :=
  match viewer with
  | Some v => is_allowed (profile_visibility s rule owner) (owner =? v)
                (bool_decide (is_Some (ps_contacts s !! (owner, v)))) (profile_exception s rule owner v)
  | None => is_allowed (profile_visibility s rule owner) false false None
  end.

Lemma admits_itself s rule v : profile_admits s rule v (Some v) = true.
Proof. cbn. unfold is_allowed. by rewrite Z.eqb_refl. Qed.

Section admits.
Context (s : profile_store) (rule : PrivacyRule) (viewer : option Z).

(** the answer put together from maps over the owners other than the viewer *)
Lemma admits_others (itself owners : gset Z) (vis : gmap Z PrivacyVisibility) (exc : gmap Z bool) (cs : gset Z) all :
  itself = match viewer with Some v => if bool_decide (v ∈ all) then {[ v ]} else ∅ | None => ∅ end →
  owners = all ∖ itself →
  (∀ o, o ∈ owners → vis !! o = (λ p, ProfilePrivacy.visibility p rule) <$> ps_privacy s !! o) →
  (∀ o, o ∈ owners → exc !! o = match viewer with Some v => profile_exception s rule o v | None => None end) →
  (∀ o, o ∈ owners → exc !! o = None → profile_visibility s rule o = CONTACTS →
     o ∈ cs ↔ match viewer with Some v => is_Some (ps_contacts s !! (o, v)) | None => False end) →
  itself ∪ filter (λ o, is_allowed (default DEFAULT_VISIBILITY (vis !! o)) false (bool_decide (o ∈ cs)) (exc !! o) = true) owners
  = filter (λ o, profile_admits s rule o viewer = true) all.
Proof.
  intros Hi Ho Hv He Hc. apply set_eq. intros o. rewrite elem_of_union, !elem_of_filter.
  assert (o ∈ itself → o ∈ all ∧ profile_admits s rule o viewer = true) as Hself.
  { subst itself. destruct viewer as [v|] eqn:Ev; [|by intros ?%not_elem_of_empty].
    case_bool_decide; [|by intros ?%not_elem_of_empty]. intros ->%elem_of_singleton. split; [done|]. by apply admits_itself. }
  assert (o ∈ owners → is_allowed (default DEFAULT_VISIBILITY (vis !! o)) false (bool_decide (o ∈ cs)) (exc !! o)
                       = profile_admits s rule o viewer) as Hother.
  { intros Hin. specialize (Hc o Hin). rewrite (Hv o Hin). fold (profile_visibility s rule o) in *.
    rewrite (He o Hin) in *. unfold profile_admits. destruct viewer as [v|].
    - assert ((o =? v) = false) as ->.
      { apply Z.eqb_neq. intros ->. subst owners itself. apply elem_of_difference in Hin as [Hin Hn].
        apply Hn. rewrite bool_decide_eq_true_2 by done. by apply elem_of_singleton. }
      destruct (profile_exception s rule o v) as [b|]; [done|]. cbn.
      destruct (profile_visibility s rule o); [done| |done]. by apply bool_decide_ext, Hc.
    - cbn. destruct (profile_visibility s rule o); [done| |done]. rewrite bool_decide_eq_false_2; [done|].
      rewrite Hc by done. tauto. }
  split.
  - intros [H|[H1 H2]]; [naive_solver|]. rewrite Hother in H1 by done. split; [done|].
    subst owners. by apply elem_of_difference in H2 as [? _].
  - intros [H1 H2]. destruct (decide (o ∈ itself)) as [|Hn]; [by left|]. right.
    assert (o ∈ owners) as Hin by (subst owners; by apply elem_of_difference). by rewrite Hother.
Qed.
End admits.

Lemma privacy_allowed_by_run rule viewer owners w :
  ProfilePrivacyService.allowed_by rule viewer owners w
  = (Ok (filter (λ o, profile_admits (pw_session w) rule o viewer = true) owners), w).
Proof.
  unfold ProfilePrivacyService.allowed_by. case_bool_decide as Ho; [subst; done|].
  set (itself := match viewer with Some v => if bool_decide (v ∈ owners) then {[v]} else ∅ | None => ∅ end).
  destruct (bool_decide (owners ∖ itself = ∅)) eqn:Hr.
  { apply bool_decide_eq_true in Hr. unfold mret, P_ret. do 2 f_equal.
    rewrite <- (admits_others (pw_session w) rule viewer itself (owners ∖ itself) ∅ ∅ ∅ owners); rewrite ?Hr; set_solver. }
  unfold ProfilePrivacyRepository.visibility_map, ProfilePrivacyRepository.exceptions_for,
    ContactRepository.owners_having_contact, pselect. set (s := pw_session w). set (rest := owners ∖ itself).
  assert (∀ o, o ∈ rest → dict_of (λ o, (λ p, ProfilePrivacy.visibility p rule) <$> ps_privacy s !! o) rest !! o
                          = (λ p, ProfilePrivacy.visibility p rule) <$> ps_privacy s !! o) as Hvis
    by (intros o Hin; by rewrite lookup_dict_of, decide_True).
  destruct viewer as [v|] eqn:Ev; unfold mbind, P_bind, mret, P_ret.
  - assert (∀ o, o ∈ rest → dict_of (λ o, p ← ps_privacy s !! o; ProfilePrivacyRepository.exception_of p rule v) rest !! o
                            = profile_exception s rule o v) as Hexc
      by (intros o Hin; by rewrite lookup_dict_of, decide_True).
    match goal with |- context [bool_decide (?n = ∅)] => set (need := n) end.
    destruct (bool_decide (need = ∅)) eqn:Hn; cbn [pw_session]; fold s; do 2 f_equal;
      (apply admits_others; [done|done|exact Hvis|exact Hexc|]); intros o Hin He Hc;
      assert (o ∈ need) as Hneed by (apply elem_of_filter; split; [split; [exact He|]|exact Hin];
        rewrite Hvis by done; exact Hc).
    + apply bool_decide_eq_true in Hn. rewrite Hn in Hneed. by apply not_elem_of_empty in Hneed.
    + rewrite elem_of_filter. tauto.
  - do 2 f_equal. apply admits_others; [done|done|exact Hvis| |].
    + intros o _. apply lookup_empty.
    + intros o _ _ _. split; [by intros ?%not_elem_of_empty|done].
Qed.

(** ** What the copies of the settings say *)
Lemma copied_column p rule :
  ChatPrivacyProjectionRepository.privacy_columns (list_to_map (ProfilePrivacy.rules_snapshot p)) rule
  = visibility_value (ProfilePrivacy.visibility p rule).
Proof.
  unfold ChatPrivacyProjectionRepository.privacy_columns.
  assert ((list_to_map (ProfilePrivacy.rules_snapshot p) : gmap string string) !! rule_value rule
          = Some (visibility_value (ProfilePrivacy.visibility p rule))) as ->.
  - apply elem_of_list_to_map_1.
    + unfold ProfilePrivacy.rules_snapshot. rewrite <- list_fmap_compose.
      change (NoDup (rule_value <$> all_rules)). apply NoDup_fmap_2; [apply _|].
      by apply (bool_decide_unpack (NoDup all_rules)).
    + apply list_elem_of_fmap. exists rule. split; [done|]. by destruct rule; repeat constructor.
  - cbn. by destruct (ProfilePrivacy.visibility p rule).
Qed.

Lemma unique_exception u p r x b b' : privacy_row_ok u p →
  MkException r x b ∈ ProfilePrivacy.exceptions p → MkException r x b' ∈ ProfilePrivacy.exceptions p → b = b'.
Proof.
  intros Hok (i & Hi)%list_elem_of_lookup (j & Hj)%list_elem_of_lookup.
  assert (i = j) as ->; [|congruence].
  apply (NoDup_lookup ((λ e, (pe_rule e, pe_target_id e)) <$> ProfilePrivacy.exceptions p) i j (r, x));
    [exact (privacy_unique u p Hok)|by rewrite list_lookup_fmap, Hi|by rewrite list_lookup_fmap, Hj].
Qed.

Lemma exception_of_spec u p r x b : privacy_row_ok u p →
  ProfilePrivacyRepository.exception_of p r x = Some b ↔ MkException r x b ∈ ProfilePrivacy.exceptions p.
Proof.
  intros Hok. unfold ProfilePrivacyRepository.exception_of. split.
  - intros ([r' x' b'] & [Hin%list_elem_of_In Hk%bool_decide_eq_true]%List.find_some & ->)%fmap_Some.
    cbn in Hk. destruct Hk as [-> ->]. done.
  - intros Hin. destruct (List.find _ _) as [[r' x' b']|] eqn:E.
    + apply List.find_some in E as [Hin'%list_elem_of_In Hk%bool_decide_eq_true]. cbn in Hk. destruct Hk as [-> ->].
      cbn. f_equal. by eapply unique_exception.
    + apply list_elem_of_In in Hin. apply (List.find_none _ _ E) in Hin. cbn in Hin.
      by rewrite bool_decide_eq_true_2 in Hin.
Qed.

Lemma elem_of_bucket p r b x : x ∈ ProfilePrivacy.bucket p r b ↔ MkException r x b ∈ ProfilePrivacy.exceptions p.
Proof.
  unfold ProfilePrivacy.bucket. rewrite merge_sort_Permutation, list_elem_of_fmap. split.
  - by intros ([r' x' b'] & -> & [[<- <-] Hin]%list_elem_of_filter).
  - intros Hin. exists (MkException r x b). split; [done|]. by apply list_elem_of_filter.
Qed.

Lemma elem_of_exception_rows u p r x b : privacy_row_ok u p →
  ((u, rule_value r, x), b) ∈ ChatPrivacyProjectionRepository.exception_rows u (ProfilePrivacy.exceptions_snapshot p)
  ↔ MkException r x b ∈ ProfilePrivacy.exceptions p.
Proof.
  intros Hok. unfold ChatPrivacyProjectionRepository.exception_rows, ProfilePrivacy.exceptions_snapshot.
  rewrite list_elem_of_bind. setoid_rewrite <- elem_of_bucket. split.
  - intros ([rv bs] & Hb & [_ (r' & [= -> ->] & _)%list_elem_of_fmap]%list_elem_of_filter).
    apply list_elem_of_bind in Hb as ([bn b'] & Hb & Hbn).
    apply list_elem_of_bind in Hb as (x' & [= Hr -> ->]%list_elem_of_singleton & [_ Hx]%list_elem_of_filter).
    apply (inj rule_value) in Hr as ->.
    rewrite !elem_of_cons, elem_of_nil in Hbn. destruct Hbn as [[= -> ->]|[[= -> ->]|[]]]; exact Hx.
  - intros Hx. eexists (rule_value r, _). split; [|apply list_elem_of_filter; split; [|apply list_elem_of_fmap; exists r; split; [reflexivity|]]].
    + apply list_elem_of_bind. exists (if b then "allow"%string else "deny"%string, b). split.
      * apply list_elem_of_bind. exists x. split; [by apply list_elem_of_singleton|]. apply list_elem_of_filter. split.
        -- apply elem_of_bucket in Hx. by apply (privacy_others u p Hok) in Hx.
        -- by destruct b.
      * destruct b; rewrite !elem_of_cons; auto.
    + unfold ChatPrivacyProjectionRepository.known. apply bool_decide_eq_true. cbn [fst]. apply list_elem_of_fmap_2.
      by destruct r; repeat constructor.
    + by destruct r; repeat constructor.
Qed.

Lemma copied_exception u p r x : privacy_row_ok u p →
  first_row_of (u, rule_value r, x) (ChatPrivacyProjectionRepository.exception_rows u (ProfilePrivacy.exceptions_snapshot p))
  = ProfilePrivacyRepository.exception_of p r x.
Proof.
  intros Hok. apply option_eq. intros b. rewrite (exception_of_spec u) by done.
  rewrite <- (elem_of_exception_rows u) by done. unfold first_row_of. split.
  - intros ([k b'] & [Hin%list_elem_of_In Hk%bool_decide_eq_true]%List.find_some & ->)%fmap_Some. cbn in Hk. by subst k.
  - intros Hin. destruct (List.find _ _) as [[k b']|] eqn:E.
    + apply List.find_some in E as [Hin'%list_elem_of_In Hk%bool_decide_eq_true]. cbn in Hk. subst k. cbn. f_equal.
      rewrite elem_of_exception_rows in Hin, Hin' by done. by eapply unique_exception.
    + apply list_elem_of_In in Hin. apply (List.find_none _ _ E) in Hin. cbn in Hin.
      by rewrite bool_decide_eq_true_2 in Hin.
Qed.

(** ** Histories *)
Section histories.
Context `{RBACManager, Hasher, Imaging}.

(** the tables after a history *)
Definition tables (clock : nat → datetime) (uuids : nat → UUID) (rs : list profile_request) : profile_store :=
  pw_database (sy_world (profile_history rs (fresh_profiles clock uuids))).

Lemma tables_ok clock uuids rs : ticking clock → store_ok (tables clock uuids rs).
Proof. intros Hc. apply (profile_history_sound rs clock uuids Hc). Qed.

(** the copies after a log *)
Definition copies (w : consumer_world) (log : list (consumer_group * profile_message)) : store :=
  w_database (cw_chats (consume_all log w)).

(** a consumer that has read all the module told, starting with no copies *)
Record caught_up (s : profile_store) (w : consumer_world) (log : list (consumer_group * profile_message)) : Prop := {
  caught_up_read : ∃ partition_of, deliveries partition_of (ps_outbox s) log;
  caught_up_guard : cw_processed w = ∅;
  caught_up_tables : no_copies (w_database (cw_chats w));
}.

Section delivered.
Context (clock : nat → datetime) (uuids : nat → UUID) (rs : list profile_request)
  (w : consumer_world) (log : list (consumer_group * profile_message)).
Hypothesis (Hclock : ticking clock).
Hypothesis (Huuids : Inj (=) (=) uuids).
Hypothesis (Hlog : caught_up (tables clock uuids rs) w log).
Let s := tables clock uuids rs.

Lemma news_applied {X} (f : profile_message → option X) g u :
  (∀ m x, f m = Some x → about u m ∧ relevant g m = true) → latest f (applied g log) = latest f (ps_outbox s).
Proof.
  destruct Hlog as [[part Hd] _ _]. apply (latest_applied part); [done|].
  by apply (history_ids rs clock uuids).
Qed.

Lemma applied_sorted g u : StronglySorted earlier (filter (about u) (applied g log)).
Proof.
  destruct Hlog as [[part Hd] _ _]. apply (sorted_applied part (ps_outbox s)); [done|by apply (history_ids rs clock uuids)|].
  apply ok_order. by apply tables_ok.
Qed.

Lemma blocks_copied k : k ∈ blocks (copies w log) ↔ is_Some (ps_blocked s !! k).
Proof.
  destruct Hlog as [_ Hg Ht]. unfold copies. rewrite copied_blocks by done. rewrite (news_applied _ _ k.1).
  - apply ok_blocks_told. by apply tables_ok.
  - intros m x. unfold block_news, about, relevant. destruct (pm_event m); try done; case_bool_decide; [|done| |done]; by subst.
Qed.

Lemma contacts_copied k : k ∈ contacts (copies w log) → is_Some (ps_contacts s !! k).
Proof.
  destruct Hlog as [_ Hg Ht]. unfold copies. rewrite copied_contacts by done. rewrite (news_applied _ _ k.1).
  - apply ok_contacts_told. by apply tables_ok.
  - intros m x. unfold contact_news, about, relevant. destruct (pm_event m); try done; case_bool_decide; [|done| |done]; by subst.
Qed.

Lemma profiles_copied u : ∃ n, shown (row_of (copies w log) u) = as_shown n ∧ fst <$> n = Profile.data <$> ps_profiles s !! u.
Proof.
  destruct Hlog as [_ Hg Ht]. exists (latest (profile_news u) (ps_outbox s)). split; [|by apply ok_profiles_told, tables_ok].
  unfold copies. rewrite copied_profiles; [|done..|apply applied_sorted]. rewrite (news_applied _ _ u); [done|].
  intros m x. unfold profile_news, about, relevant. destruct (pm_event m); try done; case_bool_decide; [|done| |done]; by subst.
Qed.

Lemma settings_news u m x : privacy_news u m = Some x → about u m ∧ relevant PrivacyGroup m = true.
Proof. unfold privacy_news, about, relevant. destruct (pm_event m); try done; case_bool_decide; [|done]. by subst. Qed.

Lemma settings_copied u : ∃ n, columns (row_of (copies w log) u) = as_columns n
  ∧ (∀ rule x, privacy_exceptions (copies w log) !! (u, rule, x) = as_exceptions n u rule x)
  ∧ fst <$> n = settings_of <$> ps_privacy s !! u.
Proof.
  destruct Hlog as [_ Hg Ht]. exists (latest (privacy_news u) (ps_outbox s)).
  destruct (copied_settings w Hg Ht u log (applied_sorted _ _)) as [H1' H2'].
  rewrite (news_applied _ _ u (settings_news u)) in H1'. rewrite (news_applied _ _ u (settings_news u)) in H2'.
  split; [exact H1'|]. split; [exact H2'|]. by apply ok_privacy_told, tables_ok.
Qed.

(** what the chat module decides with its copies, against the owner's settings *)
Lemma visibility_copied u rule : ChatUserProfile.visibility (row_of (copies w log) u) rule = profile_visibility s rule u.
Proof.
  destruct (settings_copied u) as (n & Hc & _ & Hn). unfold ChatUserProfile.visibility, profile_visibility.
  change (ChatUserProfile.privacy (row_of (copies w log) u)) with (columns (row_of (copies w log) u)).1. rewrite Hc.
  destruct n as [[[rules exceptions] m]|], (ps_privacy s !! u) as [p|]; try done. cbn in Hn. injection Hn as -> ->.
  etrans; [|apply parse_visibility_value]. do 2 f_equal. apply copied_column.
Qed.

Lemma exception_copied u rule x : privacy_exceptions (copies w log) !! (u, rule_value rule, x) = profile_exception s rule u x.
Proof.
  destruct (settings_copied u) as (n & _ & He & Hn). rewrite He. unfold profile_exception.
  destruct (ps_privacy s !! u) as [p|] eqn:Ep.
  - pose proof (ok_privacy s (tables_ok clock uuids rs Hclock) u p Ep) as Hok.
    destruct n as [[[rules exceptions] m]|]; [|done]. cbn in Hn. injection Hn as -> ->. cbn. by apply copied_exception.
  - by destruct n.
Qed.

Lemma admits_copied rule owner viewer :
  ChatPrivacyService.admits (copies w log) rule owner viewer
  = is_allowed (profile_visibility s rule owner) (owner =? viewer)
      (bool_decide ((owner, viewer) ∈ contacts (copies w log))) (profile_exception s rule owner viewer).
Proof.
  unfold ChatPrivacyService.admits. rewrite exception_copied. rewrite <- visibility_copied. f_equal.
  unfold row_of. by destruct (profiles (copies w log) !! owner).
Qed.
End delivered.

(** ** The tables *)
Lemma elem_of_blocked_by t o u : u ∈ BlockedUserRepository.targets_of t o ↔ is_Some (ps_blocked t !! (o, u)).
Proof.
  unfold BlockedUserRepository.targets_of. rewrite merge_sort_Permutation, list_elem_of_fmap. split.
  - intros ([o' u'] & -> & [Ho (kx & Hkx & Hk)%list_elem_of_fmap]%list_elem_of_filter).
    destruct kx as [k x]. cbn in *. subst. apply elem_of_map_to_list in Hk. eauto.
  - intros [x Hx]. exists (o, u). split; [done|]. apply list_elem_of_filter. split; [done|].
    apply list_elem_of_fmap. exists ((o, u), x). split; [done|]. by apply elem_of_map_to_list.
Qed.

(** C13: whatever the profile module is asked to do, in any order, nobody is their
    own contact, every contact row is under its owner and contact, and its
    mutual flag is set exactly when the contact keeps the owner too. *)
Theorem mutual_contacts clock uuids rs : ticking clock →
  ∀ owner contact c, ps_contacts (tables clock uuids rs) !! (owner, contact) = Some c →
    UserContact.owner_id c = owner ∧ UserContact.contact_id c = contact ∧ owner ≠ contact
    ∧ (UserContact.is_mutual c = true ↔ is_Some (ps_contacts (tables clock uuids rs) !! (contact, owner))).
Proof.
  intros Hc owner contact c Hrow. pose proof (ok_contacts _ (tables_ok clock uuids rs Hc)) as Hok.
  destruct (contact_key _ Hok _ _ Hrow) as [[= -> ->] Hne]. split_and!; [done|done|exact Hne|].
  exact (contact_mutual _ Hok _ _ Hrow).
Qed.

(** Whatever the profile module is asked to do, in any order, each profile
    shows one photo of its own gallery with that photo's files, and shows none
    exactly when the gallery is empty; no gallery exceeds its limit, and every
    photo belongs to a profile. *)
Theorem galleries clock uuids rs : ticking clock →
  let s := tables clock uuids rs in
  (∀ u p, ps_profiles s !! u = Some p → Profile.id p = u ∧ main_ok (ps_photos s) p)
  ∧ (∀ u, photos_of_user (ps_photos s) u ≤ profile_config.MAX_PROFILE_PHOTOS)
  ∧ (∀ i ph, ps_photos s !! i = Some ph → is_Some (ps_profiles s !! ProfilePhoto.user_id ph)).
Proof.
  intros Hc s. destruct (ok_gallery _ (tables_ok clock uuids rs Hc)) as [Hk Hm Hl].
  split_and!; [exact Hm|exact Hl|]. intros i ph Hph. by destruct (Hk i ph Hph).
Qed.

(** A cached block list is never stale: after any history, whatever list Redis
    holds for an owner is the set of users the owner blocks, and asking for it -
    cached or not - answers that set. *)
Theorem block_lists_fresh clock uuids rs owner : ticking clock →
  let w := sy_world (profile_history rs (fresh_profiles clock uuids)) in
  (∀ listed until, pw_block_lists w !! owner = Some (listed, until) →
     ∀ target, target ∈ listed ↔ is_Some (ps_blocked (pw_database w) !! (owner, target)))
  ∧ ∃ listed, (run_profile (BlockedUserRepository.get_block_list owner) w).1 = Ok listed
     ∧ ∀ target, target ∈ listed ↔ is_Some (ps_blocked (pw_database w) !! (owner, target)).
Proof.
  intros Hc w. pose proof (sound_cache _ (profile_history_sound rs clock uuids Hc) owner) as Hcache. fold w in Hcache.
  assert (∀ target, target ∈ (list_to_set (BlockedUserRepository.targets_of (pw_database w) owner) : gset Z)
          ↔ is_Some (ps_blocked (pw_database w) !! (owner, target))) as Ht
    by (intros target; rewrite elem_of_list_to_set; apply elem_of_blocked_by).
  split; [by intros listed until ->%Hcache|].
  unfold run_profile, BlockedUserRepository.get_block_list, BlockedUserRepository.cached, mbind, P_bind. cbn.
  destruct (pw_block_lists w !! owner) as [[listed until]|] eqn:E; [|by eexists].
  rewrite (Hcache _ _ eq_refl). destruct (_ <? until); by eexists.
Qed.

(** ** The copies *)

(** C10: once the chat module's consumers have read what the profile module told -
    each message at least once, a key's messages in order, everything else in any
    order and any number of times - its block lists are the profile module's,
    and every contact it knows is one the owner keeps. *)
Theorem relations_converge clock uuids rs w log :
  ticking clock → Inj (=) (=) uuids → caught_up (tables clock uuids rs) w log →
  (∀ owner target, (owner, target) ∈ blocks (copies w log)
                   ↔ is_Some (ps_blocked (tables clock uuids rs) !! (owner, target)))
  ∧ (∀ owner contact, (owner, contact) ∈ contacts (copies w log) →
       is_Some (ps_contacts (tables clock uuids rs) !! (owner, contact))).
Proof.
  intros Hc Hu Hlog. split; intros owner other; [by apply blocks_copied|by apply contacts_copied].
Qed.

(** C12: once the consumers have read what the profile module told, the chat
    module shows each user under the current name and display name, with the avatar picked from the current files; a user without a profile
    has no name there. *)
Theorem names_converge clock uuids rs w log u :
  ticking clock → Inj (=) (=) uuids → caught_up (tables clock uuids rs) w log →
  match ps_profiles (tables clock uuids rs) !! u with
  | Some p => ∃ q, profiles (copies w log) !! u = Some q
                   ∧ ChatUserProfile.username q = Some (Profile.username p)
                   ∧ ChatUserProfile.display_name q = Profile.display_name p
                   ∧ ChatUserProfile.avatar_s3_key q = pick_avatar_key (json_avatars (Profile.avatars p))
  | None => ∀ q, profiles (copies w log) !! u = Some q → ChatUserProfile.username q = None
  end.
Proof.
  intros Hc Hu Hlog. destruct (profiles_copied clock uuids rs w log Hc Hu Hlog u) as (n & Hn & Hd).
  unfold row_of in Hn. destruct (ps_profiles (tables clock uuids rs) !! u) as [p|].
  - destruct n as [[d m]|]; [|done]. injection Hd as ->. destruct (profiles (copies w log) !! u) as [q|]; [|done].
    exists q. injection Hn as -> -> -> _ _. done.
  - destruct n; [done|]. intros q Hq. rewrite Hq in Hn. by injection Hn.
Qed.

(** C11: once the consumers have read what the profile module told, the chat
    module never reveals more than the owner allows: whoever it
    lets see, write to or add a user under a privacy rule is let by the profile
    module too, with the same visibility and the same exceptions in both. *)
Theorem copies_never_reveal clock uuids rs w log rule owner viewer :
  ticking clock → Inj (=) (=) uuids → caught_up (tables clock uuids rs) w log →
  ChatUserProfile.visibility (row_of (copies w log) owner) rule = profile_visibility (tables clock uuids rs) rule owner
  ∧ privacy_exceptions (copies w log) !! (owner, rule_value rule, viewer)
    = profile_exception (tables clock uuids rs) rule owner viewer
  ∧ (ChatPrivacyService.admits (copies w log) rule owner viewer = true →
     profile_admits (tables clock uuids rs) rule owner (Some viewer) = true).
Proof.
  intros Hc Hu Hlog. split_and!; [by apply visibility_copied|by apply exception_copied|].
  rewrite (admits_copied clock uuids rs) by done. cbn. unfold is_allowed.
  destruct (owner =? viewer); [done|]. destruct (profile_exception _ _ _ _); [done|].
  destruct (profile_visibility _ _ _); [done| |done]. intros Hin%bool_decide_eq_true.
  apply bool_decide_eq_true. by apply (contacts_copied clock uuids rs w log Hc Hu Hlog).
Qed.

(** The decision of the profile module, in one batch or owner by owner: for
    any rule, viewer and set of owners, [allowed_by] answers exactly the owners
    whose settings let the viewer, and changes nothing. *)
Theorem allowed_by_exact rule viewer owners w :
  ProfilePrivacyService.allowed_by rule viewer owners w
  = (Ok (filter (λ o, profile_admits (pw_session w) rule o viewer = true) owners), w).
Proof. apply privacy_allowed_by_run. Qed.
End histories.

(** ** Identifiers *)
Lemma lower_idem s : lower (lower s) = lower s.
Proof.
  unfold lower. rewrite <- list_fmap_compose. apply list_fmap_ext. intros i c _. cbn. unfold lower_char.
  destruct ((65 <=? c) && (c <=? 90)) eqn:E; [|by rewrite E].
  destruct ((65 <=? c + 32) && (c + 32 <=? 90)) eqn:E'; lia.
Qed.

Lemma partition_join sep s : ∀ a b, partition sep s = (a, true, b) → s = a ++ sep :: b.
Proof.
  induction s as [|c s IH]; intros a b Hp; cbn in Hp; [done|]. destruct (c =? sep) eqn:E.
  - apply Z.eqb_eq in E as ->. by injection Hp as <- <-.
  - destruct (partition sep s) as [[a' found] b']. injection Hp as <- -> ->. cbn. f_equal. by apply IH.
Qed.

Lemma no_space_Forall s : IdentifierHasher.no_space s = true → Forall (λ c, is_space c = false) s.
Proof.
  unfold IdentifierHasher.no_space. rewrite forallb_forall, list.Forall_forall. intros Hs c Hc.
  apply negb_true_iff, Hs. by apply list_elem_of_In.
Qed.

Lemma email_match_spaces s : IdentifierHasher.email_match s = true → Forall (λ c, is_space c = false) s.
Proof.
  unfold IdentifierHasher.email_match. destruct (partition IdentifierHasher.at_sign s) as [[local found] domain] eqn:E.
  intros Hm. repeat (apply andb_true_iff in Hm as [Hm ?]). subst. apply partition_join in E as ->.
  apply Forall_app. split; [by apply no_space_Forall|]. constructor; [done|by apply no_space_Forall].
Qed.

Lemma normalize_email_spec raw : IdentifierHasher.normalize_email raw
  = if (profile_config.MAX_LEN_EMAIL <? len (lower (strip raw))) || negb (IdentifierHasher.email_match (lower (strip raw)))
    then None else Some (lower (strip raw)).
Proof. unfold IdentifierHasher.normalize_email. by destruct raw. Qed.

(** What identifies an address: spelled with other capitals or with spaces
    around it, an address has the same identifier - so what one user imports and
    another registers meet - and the normal form is its own normal form, without
    spaces and within the limit. *)
Theorem identifier_normal_form `{Hasher} raw :
  (∀ raw', lower (strip raw') = lower (strip raw) → IdentifierHasher.hash_email raw' = IdentifierHasher.hash_email raw)
  ∧ ∀ n, IdentifierHasher.normalize_email raw = Some n →
      IdentifierHasher.normalize_email n = Some n ∧ IdentifierHasher.hash_email n = IdentifierHasher.hash_email raw
      ∧ Forall (λ c, is_space c = false) n ∧ len n ≤ profile_config.MAX_LEN_EMAIL.
Proof.
  split.
  - intros raw' E. unfold IdentifierHasher.hash_email. by rewrite !normalize_email_spec, E.
  - intros n Hn. assert (IdentifierHasher.normalize_email n = Some n ∧ Forall (λ c, is_space c = false) n
      ∧ len n ≤ profile_config.MAX_LEN_EMAIL) as (H1 & H2 & H3).
    { rewrite normalize_email_spec in Hn |- *. destruct (_ || _) eqn:E; [done|]. injection Hn as <-.
      apply orb_false_iff in E as [E1 E2%negb_false_iff]. pose proof (email_match_spaces _ E2) as Hs.
      rewrite (strip_id _ Hs), lower_idem, E1, E2. split_and!; [done|done|]. by apply Z.ltb_ge in E1. }
    split_and!; [done| |done|done]. unfold IdentifierHasher.hash_email. by rewrite Hn, H1.
Qed.

(** C14: a registration is not kept waiting for. Whatever came before, when an
    address is registered for a user the handler returns - its loop ends, however
    many owners wait -, the address is the user's, nobody waits for it any more,
    everyone who had imported it has the user among their contacts, and no contact
    is lost. *)
Theorem registration_resolves `{RBACManager, Hasher, Imaging} clock uuids rs u email h :
  Inj (=) (=) uuids → IdentifierHasher.hash_email email = Ok (Some h) →
  let w := sy_world (profile_history rs (fresh_profiles clock uuids)) in
  let s := pw_database w in
  let '(r, w') := run_profile (RegisterUserIdentifier.handle u email) w in
  let s' := pw_database w' in
  (∃ n, r = Ok (Some n))
  ∧ (∃ i, ps_identifiers s' !! h = Some i ∧ UserIdentifier.user_id i = u)
  ∧ (∀ owner, ps_pending s' !! (owner, h) = None)
  ∧ (∀ owner, is_Some (ps_pending s !! (owner, h)) → owner ≠ u → is_Some (ps_contacts s' !! (owner, u)))
  ∧ (∀ k, is_Some (ps_contacts s !! k) → is_Some (ps_contacts s' !! k)).
Proof.
  intros Hi Hh w s. pose proof (history_tidy rs clock uuids Hi) as [_ _ [_ Hp] Ho _]. fold w in Hp, Ho. fold s in Hp, Ho.
  unfold run_profile. set (w0 := w <| pw_session := pw_database w |> <| pw_now := _ |> <| pw_ticks ::= S |>).
  assert (pwp (RegisterUserIdentifier.handle u email) w0 (λ r w', ∃ n d d', r = Ok (Some n) ∧ settled d' w'
    ∧ all_resolved h u d d' ∧ ps_pending d = ps_pending s ∧ ps_contacts d = ps_contacts s
    ∧ ∃ i, ps_identifiers d !! h = Some i ∧ UserIdentifier.user_id i = u)) as Hrun.
  { unfold RegisterUserIdentifier.handle, ContactIdentifierRepository.upsert. rewrite Hh.
    apply pwp_bind. unfold pwp at 1, plift. cbn [fst snd]. apply pwp_bind, pwp_bind. unfold pwp at 1, pnow. cbn [fst snd].
    apply pwp_write. cbv beta iota. apply pwp_bind, pwp_commit_ok; [by rewrite <- Ho|].
    unfold RegisterUserIdentifier._resolve_pending. apply pwp_bind, pwp_select. cbv beta iota.
    match goal with |- pwp _ ?w1 _ => set (wr := w1) end. set (d := pw_session wr).
    eapply pwp_mono; [apply (resolve_pending_spec h u) with (d := d); [by split|by rewrite <- Ho|exact Hp|done|lia]|].
    intros r w' (n & d' & -> & Hw' & Hd'). exists n, d, d'. split_and!; [done|done|done|done|done|].
    unfold d, wr. cbn. destruct (ps_identifiers _ !! h) as [i|]; rewrite lookup_insert_eq; by eexists. }
  unfold pwp in Hrun. destruct (RegisterUserIdentifier.handle u email w0) as [r w']. cbn [fst snd] in Hrun.
  destruct Hrun as (n & d & d' & -> & [_ Hdb] & [R1 R2 R3 R4] & Hpd & Hcd & i & Hid & Hiu). cbn. rewrite Hdb.
  split_and!; [by exists n|exists i; by rewrite R4| | |].
  - intros owner. rewrite R1. apply map_lookup_filter_None. right. by intros p _ [].
  - intros owner Hw Hne. apply R2. right. exists owner. by rewrite Hpd.
  - intros k Hk. apply R2. left. by rewrite Hcd.
Qed.

(** the addresses counted against an owner on a day *)
Definition counted (now owner : Z) (q : gmap (Z * Z) (Z * option datetime)) : Z :=
  (ContactIdentifierRepository.used_of now q (owner, ContactIdentifierRepository.day_of now)).1.

(** The daily quota of identifiers: after any history no owner is counted more
    than the limit on any day; a use is granted exactly when it fits in what is
    left, and is then counted in full; one that does not fit is not counted. *)
Theorem identifier_quota `{RBACManager, Hasher, Imaging} clock uuids rs owner amount :
  Inj (=) (=) uuids → 0 < amount →
  let w := sy_world (profile_history rs (fresh_profiles clock uuids)) in
  let now := pw_clock w (pw_ticks w) in
  let before := counted now owner (pw_quota w) in
  let '(r, w') := ContactIdentifierRepository.consume_quota owner amount w in
  before ≤ profile_config.CONTACTS_NEW_IDENTIFIERS_PER_DAY
  ∧ if before + amount <=? profile_config.CONTACTS_NEW_IDENTIFIERS_PER_DAY
    then r = Ok true ∧ counted now owner (pw_quota w') = before + amount
    else r = Ok false ∧ counted now owner (pw_quota w') = before.
Proof.
  intros Hi Ha w now before. pose proof (tidy_quota _ (history_tidy rs clock uuids Hi)) as Hq. fold w in Hq.
  assert (before ≤ profile_config.CONTACTS_NEW_IDENTIFIERS_PER_DAY) as Hb.
  { unfold before, counted, ContactIdentifierRepository.used_of. destruct (pw_quota w !! _) as [[m [until|]]|] eqn:Em;
      [destruct (now <? until); [by eapply Hq|done]|by eapply Hq|done]. }
  unfold ContactIdentifierRepository.consume_quota. rewrite (proj2 (Z.leb_gt amount 0)) by done.
  unfold mbind, P_bind, pnow, ContactIdentifierRepository.count_use. fold now. cbn [pw_quota].
  set (key := (owner, ContactIdentifierRepository.day_of now)).
  change (pw_quota (w <| pw_ticks ::= S |>)) with (pw_quota w).
  destruct (ContactIdentifierRepository.used_of now (pw_quota w) key) as [b ttl] eqn:Eu.
  assert (before = b) as -> by (unfold before, counted; fold key; by rewrite Eu).
  set (ttl' := if b + amount =? amount then Some (now + seconds profile_config.IDENTIFIER_QUOTA_TTL) else ttl).
  assert (∀ m q, counted now owner (<[key := (m, ttl')]> q) = m) as Hins.
  { intros m q. unfold counted, ContactIdentifierRepository.used_of. fold key. rewrite lookup_insert_eq.
    destruct ttl' as [until|] eqn:Et; [|done]. rewrite (proj2 (Z.ltb_lt now until)); [done|].
    subst ttl'. destruct (b + amount =? amount); [injection Et as <-; unfold seconds, profile_config.IDENTIFIER_QUOTA_TTL; lia|].
    subst ttl. unfold ContactIdentifierRepository.used_of in Eu. destruct (pw_quota w !! key) as [[m' [until'|]]|]; [|done|done].
    destruct (now <? until') eqn:El; [|done]. injection Eu as <- <-. by apply Z.ltb_lt. }
  rewrite Z.leb_antisym. destruct (_ <? b + amount); cbn [negb]; (split; [exact Hb|]); (split; [done|]);
    (etrans; [apply Hins|lia]).
Qed.

(** ** A concrete history

    Alice (1) and Bob (2) have profiles and keep each other as contacts; Alice
    blocks 3, shows her photo to contacts and to 4, sets a photo, and imports an
    address nobody has registered. *)
Module sample.
Definition clock (n : nat) : datetime := 1000000 * (1700000000 + Z.of_nat n).
Definition uuids (n : nat) : UUID := Z.of_nat n + 1.

#[export] Instance hasher : Hasher := {| pepper := u8 "pepper"; hmac_sha256 := λ key m, key ++ [0] ++ m |}.
#[export] Instance imaging : Imaging :=
  {| from_buffer := λ _, "image/png"%string; dimensions := λ _, Some (8, 8); thumbnail := λ d _ _, d |}.

Definition token (i : Z) : UserJWTData := MkJWT i (u8 "someone") [] [] 1 (u8 "device").
Definition open (i : Z) (name : text) : profile_request := DoCreate (CreateProfile.Mk i name None None None None None).
Definition add (i j : Z) : profile_request := DoAddContact (AddContact.Mk i (Some j) None None None (Some (token i))).
Definition file : text := u8 "1/portrait".
Definition carol : text := u8 "carol@example.org".

Definition requests : list profile_request :=
  [open 1 (u8 "alice"); open 2 (u8 "bob"); add 1 2; add 2 1; DoBlock 1 3 (Some (token 1));
   DoUpdatePrivacy 1 [(PHOTO, CONTACTS)] [(PHOTO, ([4], []))];
   DoPutFile profile_config.PENDING_AVATAR_BUCKET file [1; 2; 3]; DoProcessAvatar 1 file;
   DoImport 1 [MkEntry carol (Some (u8 "Carol")) None] (Some (token 1)); DoGetProfile 1 (token 2)].

Abbreviation world_after := (sy_world (profile_history requests (fresh_profiles clock uuids))).
Abbreviation stored := (tables clock uuids requests).

Lemma clock_ticks : ticking clock.
Proof. intros i j Hij. unfold clock. lia. Qed.
#[export] Instance uuids_inj : Inj (=) (=) uuids.
Proof. intros i j. unfold uuids. lia. Qed.

(** everything told, read twice by each group *)
Definition read_twice (l : list profile_message) : list (consumer_group * profile_message) :=
  g ← [BlockGroup; ContactGroup; PrivacyGroup; ProfileGroup]; (λ m, (g, m)) <$> l ++ l.

Lemma reads_to_end l n s : reads l (length l) s → (n ≤ length l)%nat → reads l n (drop n l ++ s).
Proof.
  intros Hs. remember (length l - n)%nat as k eqn:Hk. revert n Hk. induction k as [|k IH]; intros n Hk Hn.
  - assert (n = length l) as -> by lia. by rewrite drop_all.
  - destruct (lookup_lt_is_Some_2 l n ltac:(lia)) as [m Hm]. rewrite (drop_S l m n Hm).
    apply (reads_next l n m); [done|]. apply IH; lia.
Qed.

Lemma of_group_read_twice g l : of_group g (read_twice l) = l ++ l.
Proof.
  unfold read_twice, of_group. cbn [mbind list_bind]. rewrite app_nil_r, (list.filter_app _ ((λ m, (BlockGroup, m)) <$> _)), (list.filter_app _ ((λ m, (ContactGroup, m)) <$> _)), (list.filter_app _ ((λ m, (PrivacyGroup, m)) <$> _)).
  assert (∀ g' k, filter (λ gm : consumer_group * profile_message, gm.1 = g) ((λ m, (g', m)) <$> k)
    = if decide (g' = g) then (λ m, (g', m)) <$> k else []) as Hf.
  { intros g' k. induction k as [|m k IH]; [by case_decide|]. cbn [fmap list_fmap]. rewrite filter_cons, IH. cbn.
    by repeat case_decide. }
  rewrite !Hf. assert (∀ (g' : consumer_group) (k : list profile_message), ((λ m, (g', m)) <$> k).*2 = k) as Hs
    by (intros g' k; rewrite <- list_fmap_compose; apply list_fmap_id).
  destruct g; repeat case_decide; try done; rewrite ?app_nil_l, ?app_nil_r; apply Hs.
Qed.

(** reading twice is one of the ways to deliver everything *)
Lemma deliveries_read_twice partition_of l : deliveries partition_of l (read_twice l).
Proof.
  intros g p. rewrite of_group_read_twice, list.filter_app. set (k := filter _ l).
  change (reads k 0 (drop 0 k ++ k)). apply reads_to_end; [|lia]. apply (reads_again k _ 0); [lia|].
  rewrite <- (app_nil_r k) at 2. change (reads k 0 (drop 0 k ++ [])). apply reads_to_end; [constructor|lia].
Qed.

(** a consumer of the chat module with no copies yet *)
Definition consumer : consumer_world :=
  MkConsumer (MkWorld empty_store empty_store clock 0 uuids 0 (λ n, [65 + Z.of_nat n]) 0 ∅ (λ d, d `quot` 1000000)
    (MkReadQueue ∅ ∅) []) ∅.
Definition log : list (consumer_group * profile_message) := read_twice (ps_outbox stored).

Lemma all_read : caught_up stored consumer log.
Proof. split; [exists (λ _, 0%nat); apply deliveries_read_twice|done|by split_and!]. Qed.
End sample.
Import sample.

Lemma mutual_contacts_witness :
  UserContact.is_mutual <$> ps_contacts stored !! (1, 2) = Some true
  ∧ ∀ owner contact c, ps_contacts stored !! (owner, contact) = Some c →
    UserContact.owner_id c = owner ∧ UserContact.contact_id c = contact ∧ owner ≠ contact
    ∧ (UserContact.is_mutual c = true ↔ is_Some (ps_contacts stored !! (contact, owner))).
Proof. split; [by vm_compute|exact (mutual_contacts clock uuids requests clock_ticks)]. Defined.

Lemma galleries_witness :
  is_Some (ps_profiles stored !! 1 ≫= Profile.photo_id)
  ∧ photos_of_user (ps_photos stored) 1 ≤ profile_config.MAX_PROFILE_PHOTOS.
Proof. split; [by vm_compute; eauto|apply (galleries clock uuids requests clock_ticks)]. Defined.

Lemma block_lists_fresh_witness :
  (∃ until, pw_block_lists world_after !! 1 = Some ({[ 3 ]}, until))
  ∧ ∃ listed, (run_profile (BlockedUserRepository.get_block_list 1) world_after).1 = Ok listed
     ∧ ∀ target, target ∈ listed ↔ is_Some (ps_blocked (pw_database world_after) !! (1, target)).
Proof. split; [by eexists; vm_compute|exact (proj2 (block_lists_fresh clock uuids requests 1 clock_ticks))]. Defined.

Lemma relations_converge_witness :
  (1, 3) ∈ blocks (copies consumer log) ∧ is_Some (ps_contacts stored !! (1, 2)).
Proof.
  destruct (relations_converge clock uuids requests consumer log clock_ticks uuids_inj all_read) as [Hb Hc].
  split; [apply Hb; by vm_compute; eauto|apply Hc; by apply (bool_decide_unpack _); vm_compute].
Defined.

Lemma names_converge_witness :
  ∃ q, profiles (copies consumer log) !! 1 = Some q ∧ ChatUserProfile.username q = Some (u8 "alice").
Proof.
  pose proof (names_converge clock uuids requests consumer log 1 clock_ticks uuids_inj all_read) as Hn.
  assert ((Profile.username <$> ps_profiles stored !! 1) = Some (u8 "alice")) as Hp by (by vm_compute).
  revert Hn Hp. generalize (ps_profiles stored !! 1) as o. intros [p|] Hn Hp; [|discriminate Hp]. injection Hp as <-.
  destruct Hn as (q & Hq & Hu & _). exists q. exact (conj Hq Hu).
Defined.

Lemma copies_never_reveal_witness :
  ChatPrivacyService.admits (copies consumer log) PHOTO 1 4 = true
  ∧ profile_admits stored PHOTO 1 (Some 4) = true.
Proof.
  assert (ChatPrivacyService.admits (copies consumer log) PHOTO 1 4 = true) as Ha by (by vm_compute).
  split; [exact Ha|].
  exact (proj2 (proj2 (copies_never_reveal clock uuids requests consumer log PHOTO 1 4 clock_ticks uuids_inj all_read)) Ha).
Defined.

Definition carol_hash : text := u8 "pepper" ++ [0] ++ carol.

Lemma registration_resolves_witness :
  let '(r, w') := run_profile (RegisterUserIdentifier.handle 7 (u8 " Carol@Example.org ")) world_after in
  (∃ n, r = Ok (Some n)) ∧ is_Some (ps_contacts (pw_database w') !! (1, 7)).
Proof.
  pose proof (registration_resolves clock uuids requests 7 (u8 " Carol@Example.org ") carol_hash uuids_inj eq_refl) as Hr.
  cbv zeta in Hr.  destruct (run_profile _ world_after) as [r w'].
  destruct Hr as (Hn & _ & _ & Hw & _). split; [exact Hn|]. apply Hw; [|done].
  apply (bool_decide_unpack _). by vm_compute.
Defined.

Lemma identifier_quota_witness :
  let '(r, w') := ContactIdentifierRepository.consume_quota 1 5 world_after in
  r = Ok true ∧ counted (pw_clock world_after (pw_ticks world_after)) 1 (pw_quota w') = 6.
Proof.
  pose proof (identifier_quota clock uuids requests 1 5 uuids_inj eq_refl) as Hq. cbv zeta in Hq. 
  assert (counted (pw_clock world_after (pw_ticks world_after)) 1 (pw_quota world_after) = 1) as Hb by (by vm_compute).
  rewrite Hb in Hq. destruct (ContactIdentifierRepository.consume_quota 1 5 world_after) as [r w'].
  destruct Hq as [_ [H1 H2]]. exact (conj H1 H2).
Defined.
