(* ===== verification/Uploads.v ===== *)
(** Attachments and chat avatars from the request for an upload to the published
    object: the object storage ([core/services/storage]), the checks and
    conversions of media ([chats/services/attachment_media.py],
    [attachment_images.py], [attachment_processor.py], [chat_avatar.py]) and the
    commands of [chats/commands/attachments] and [chats/commands/avatars].

    The storage is a map from buckets and keys to bytes. A client that was given
    a presigned URL writes to it at any moment: [uw_puts n] is what clients put
    just before the [n]-th request of the application, and [uw_faults n] the
    error code that request fails with, if it fails. Buckets are not versioned,
    so a request is pinned by the entity tag. Files of a temporary directory are
    their bytes; decoding and encoding of images, libmagic, ffprobe and ffmpeg
    are parameters, and so is the floating-point thumbhash. Content types,
    metadata, encryption, logs and metrics are left out. *)
From Stdlib Require Import QArith Qround.
From S2P Require Import Prelude Jpeg Media Config Events MemberModel MessageModel ChatModel PrivacyModel Store Rbac Access ChatRepo MessageRepo MessageQueries WsModel Projections.
Open Scope Z_scope.

(** ** Errors *)
Inductive upload_error : Type :=
| ChatError (e : error)
| ClientError (code : string)
| StorageError
| ObjectNotFoundError (bucket_name : string) (file_key : text)
| ObjectChangedError (bucket_name : string) (file_key : text)
| ObjectTooLargeError (bucket_name : string) (file_key : text) (max_bytes : Z)
| ProbeError (e : probe_error)
| TranscodeError (e : transcode_error)
(** [pyvips.Error], [KeyError] and [ValueError] where the code does not expect them *)
| VipsError
| KeyError
| BadValue.

(** ** State *)
Module ChatAvatarUploadSlot.
Record t : Type := Mk {
  upload_token : UUID;
  chat_id : UUID;
  uploader_id : Z;
  s3_key : text;
  mime_type : string;
  file_size : Z;
}.
End ChatAvatarUploadSlot.

(** the queued tasks with their data *)
Inductive upload_task : Type :=
| AttachmentProccessTask (user_id : Z) (chat_id : UUID) (upload_tokens : list text)
| ChatAvatarProcessTask (chat_id : UUID) (user_id : Z) (upload_token : UUID).

(** [AttachmentSuccessPayload], sent to the user's own connections *)
Record upload_notice : Type := MkNotice {
  un_user_id : Z;
  un_chat_id : UUID;
  un_tokens : list text;
}.

Abbreviation objects := (gmap (string * text) bytes) (only parsing).

Record upload_world : Type := MkUploadWorld {
  uw_chat : world;
  uw_objects : objects;
  uw_requests : nat;
  uw_puts : nat → list ((string * text) * bytes);
  uw_faults : nat → option string;
  (** runs of ffprobe and ffmpeg *)
  uw_runs : nat;
  uw_slots : gmap UUID (ChatAvatarUploadSlot.t * datetime);
  uw_tasks : list upload_task;
  uw_notices : list upload_notice;
}.
#[global] Instance upload_world_settable : Settable upload_world := λ w,
  MkUploadWorld (uw_chat w) (uw_objects w) (uw_requests w) (uw_puts w) (uw_faults w) (uw_runs w)
    (uw_slots w) (uw_tasks w) (uw_notices w).

Definition U (A : Type) : Type := upload_world → result upload_error A * upload_world.

#[export] Instance U_ret : MRet U := λ A a w, (Ok a, w).
#[export] Instance U_bind : MBind U := λ A B k m w,
  match m w with
  | (Ok a, w') => k a w'
  | (Err e, w') => (Err e, w')
  end.

#[export] Instance U_fmap : FMap U := λ A B f m, a ← m; mret (f a).

Definition uraise {A} (e : upload_error) : U A := λ w, (Err e, w).
Definition urefuse (bad : bool) (e : upload_error) : U unit := λ w, (if bad then Err e else Ok tt, w).
Definition ulift {A} (r : result upload_error A) : U A := λ w, (r, w).
(** [try: m except ...: h(exc)] *)
Definition catch {A} (m : U A) (h : upload_error → U A) : U A := λ w,
  match m w with (Err e, w') => h e w' | r => r end.

(** a computation of the chat module, over its tables, clock and identifiers *)
Definition in_chat {A} (m : M A) : U A := λ w,
  let '(r, c) := m (uw_chat w) in
  (match r with Ok a => Ok a | Err e => Err (ChatError e) end, w <| uw_chat := c |>).

Fixpoint run_each {A} (l : list A) (f : A → U unit) : U unit :=
  match l with [] => mret tt | x :: l' => _ ← f x; run_each l' f end.

(** a mutation of a loaded attachment *)
Definition touch (id : UUID) (f : MessageAttachment.t → MessageAttachment.t) : U unit :=
  in_chat (execute (λ s, s <| attachments ::= alter f id |>)).

Definition push (task : upload_task) : U unit := λ w, (Ok tt, w <| uw_tasks ::= (λ l, l ++ [task]) |>).

(** ** The object storage *)

(** The client library: entity tags, and the URL a client may put an object to. *)
Class S3 : Type := {
  ETag : bytes → text;
  presigned_put : string → text → Z → text;
  public_base_url : text;
}.
(** Tags are quoted, and objects with the same tag have the same bytes. *)
Class S3Laws (S : S3) : Prop := {
  ETag_quoted b : head (ETag b) = Some 34;
  ETag_inj a b : ETag a = ETag b → a = b;
}.

Record ObjectStat : Type := MkObjectStat {
  st_bucket_name : string;
  st_file_key : text;
  st_size : Z;
  st_etag : option text;
}.

Inductive Policy : Type := POLICY_NONE | POLICY_GET.

(** [bucket_policy] of [core/di/core.py], [chats/providers.py] and
    [profiles/providers.py] *)
Definition bucket_policy : list (string * Policy) := [
  ("base", POLICY_NONE); (chat_config.ATTACHMENT_BUCKET, POLICY_NONE);
  (chat_config.ATTACHMENT_BUCKET_PENDING, POLICY_NONE); (chat_config.CHAT_AVATAR_BUCKET, POLICY_GET);
  (chat_config.CHAT_AVATAR_BUCKET_PENDING, POLICY_NONE); ("profiles", POLICY_NONE);
  ("pending-avatar", POLICY_NONE)]%string.

Definition policy_of (bucket : string) : option Policy :=
  snd <$> List.find (λ kv, bool_decide (kv.1 = bucket)) bucket_policy.

Definition put_object (o : objects) (kv : (string * text) * bytes) : objects := <[kv.1 := kv.2]> o.

(** One request: what clients put meanwhile arrives, then it fails or has its
    effect. *)
Definition request {A} (op : objects → result string A * objects) : U A := λ w,
  let n := uw_requests w in
  let w := w <| uw_objects ::= (λ o, foldl put_object o (uw_puts w n)) |> <| uw_requests := S n |> in
  match uw_faults w n with
  | Some code => (Err (ClientError code), w)
  | None =>
    let '(r, o) := op (uw_objects w) in
    (match r with Ok a => Ok a | Err code => Err (ClientError code) end, w <| uw_objects := o |>)
  end.

Module StorageService.

(** [file_name.strip()], every character outside [\w.\-] replaced, cut *)
Definition clean_filename `{TextSearch} (file_name : text) (max_len : nat) : text :=
  take max_len ((λ c, if is_word c || (c =? 46) || (c =? 45) then c else 95) <$> strip file_name).

Section storage.
Context `{S3}.

Definition DOWNLOAD_CHUNK_SIZE : nat := Z.to_nat (256 * 1024).
Definition _NOT_FOUND_CODES : list string :=
  ["NoSuchKey"; "NoSuchObject"; "NoSuchVersion"; "NoSuchBucket"; "NotFound"; "404"]%string.
Definition _PRECONDITION_CODES : list string := ["PreconditionFailed"; "412"]%string.

Definition _translate (code : string) (bucket_name : string) (file_key : text) : upload_error :=
  if bool_decide (code ∈ _NOT_FOUND_CODES) then ObjectNotFoundError bucket_name file_key
  else if bool_decide (code ∈ _PRECONDITION_CODES) then ObjectChangedError bucket_name file_key
  else StorageError.

(** [except ClientError as exc: raise self._translate(exc, ...)] *)
Definition translated {A} (bucket_name : string) (file_key : text) (m : U A) : U A :=
  catch m (λ e, uraise match e with ClientError code => _translate code bucket_name file_key | e => e end).

Definition _quote_etag (etag : text) : text :=
  if bool_decide (head etag = Some 34) then etag else 34 :: etag ++ [34].

(** [_pin]: the [If-Match] of a request, an empty tag pins nothing *)
Definition _pin (stat : option ObjectStat) : option text :=
  match stat ≫= st_etag with
  | Some ((_ :: _) as etag) => Some (_quote_etag etag)
  | _ => None
  end.

(** the object a pinned read finds *)
Definition read_object (bucket_name : string) (file_key : text) (if_match : option text) (o : objects)
  : result string bytes :=
  match o !! (bucket_name, file_key) with
  | None => Err "NoSuchKey"%string
  | Some data =>
    match if_match with
    | Some tag => if bool_decide (tag = ETag data) then Ok data else Err "PreconditionFailed"%string
    | None => Ok data
    end
  end.

Definition upload_put_url (bucket_name : string) (file_key : text) (expires : Z) : U text :=
  mret (presigned_put bucket_name file_key expires).

Definition get_public_url_object (bucket : string) (file_key : text) : text :=
  public_base_url ++ u8 "/" ++ u8 bucket ++ u8 "/" ++ file_key.

Definition upload_file (bucket_name : string) (file_key : text) (content : bytes) : U text :=
  match policy_of bucket_name with
  | None => uraise BadValue
  | Some policy =>
    _ ← translated bucket_name file_key
          (request (λ o, (Ok tt, <[(bucket_name, file_key) := content]> o)));
    mret match policy with
         | POLICY_NONE => file_key
         | POLICY_GET => get_public_url_object bucket_name file_key
         end
  end.

Definition delete_file (bucket_name : string) (file_key : text) : U unit :=
  translated bucket_name file_key (request (λ o, (Ok tt, delete (bucket_name, file_key) o))).

Definition download_range (bucket_name : string) (file_key : text) (offset length : Z)
  (stat : option ObjectStat) : U bytes :=
  if length <=? 0 then mret []
  else translated bucket_name file_key (request (λ o,
    (data ← read_object bucket_name file_key (_pin stat) o;
     if len data <=? offset then Err "InvalidRange"%string
     else Ok (take (Z.to_nat length) (drop (Z.to_nat offset) data)), o))).

Definition copy_object (bucket_from : string) (file_key_from : text) (bucket_to : string) (file_key_to : text)
  (source_stat : option ObjectStat) : U unit :=
  translated bucket_from file_key_from (request (λ o,
    match read_object bucket_from file_key_from (_pin source_stat) o with
    | Ok data => (Ok tt, <[(bucket_to, file_key_to) := data]> o)
    | Err code => (Err code, o)
    end)).

Definition get_stat (bucket_name : string) (file_key : text) : U ObjectStat :=
  translated bucket_name file_key (request (λ o,
    (match o !! (bucket_name, file_key) with
     | None => Err "404"%string
     | Some data => Ok (MkObjectStat bucket_name file_key (len data) (Some (ETag data)))
     end, o))).

(** [stream.iter_chunks], and the loop over the chunks that stops once more
    than [max_bytes] were read *)
Fixpoint iter_chunks (chunk_size fuel : nat) (data : bytes) : list bytes :=
  match fuel, data with
  | S fuel, _ :: _ => take chunk_size data :: iter_chunks chunk_size fuel (drop chunk_size data)
  | _, _ => []
  end.

Fixpoint read_chunks (max_bytes read : Z) (chunks : list bytes) : option bytes :=
  match chunks with
  | [] => Some []
  | chunk :: chunks =>
    let read := read + len chunk in
    if max_bytes <? read then None else app chunk <$> read_chunks max_bytes read chunks
  end.

(** [download_bytes]; [download_to_path] writes the same chunks to a file *)
Definition download_bytes (bucket_name : string) (file_key : text) (max_bytes : Z)
  (stat : option ObjectStat) : U bytes :=
  data ← translated bucket_name file_key
           (request (λ o, (read_object bucket_name file_key (_pin stat) o, o)));
  match read_chunks max_bytes 0 (iter_chunks DOWNLOAD_CHUNK_SIZE (length data) data) with
  | Some data => mret data
  | None => uraise (ObjectTooLargeError bucket_name file_key max_bytes)
  end.

Definition is_storage_error (e : upload_error) : bool :=
  match e with
  | StorageError | ObjectNotFoundError _ _ | ObjectChangedError _ _ | ObjectTooLargeError _ _ _ => true
  | _ => false
  end.

(** [try: m except StorageError: log] *)
Definition suppress_storage (m : U unit) : U unit :=
  catch m (λ e, if is_storage_error e then mret tt else uraise e).
End storage.
End StorageService.

(** ** Checks of a media file ([AttachmentMediaValidator]) *)

Definition rejection (reason : AttachmentRejectionReason) (a : MessageAttachment.t) (limit : option Z) : upload_error :=
  ChatError (AttachmentMediaValidationError reason (MessageAttachment.id a) limit).

(** [probe] and the runs of ffmpeg advance the number of runs *)
Definition probing {A} (f : nat → result probe_error A) : U A := λ w,
  (match f (uw_runs w) with Ok a => Ok a | Err e => Err (ProbeError e) end, w <| uw_runs ::= S |>).
Definition transcoding {A} (f : nat → result transcode_error A * nat) : U A := λ w,
  let '(r, n) := f (uw_runs w) in
  (match r with Ok a => Ok a | Err e => Err (TranscodeError e) end, w <| uw_runs := n |>).

Module AttachmentMediaValidator.

Definition PROBE_REASON_MAP (e : probe_error) : AttachmentRejectionReason :=
  match e with
  | MediaProbeTimeoutError => PROBE_TIMEOUT
  | MediaMetadataUnreadableError => METADATA_UNREADABLE
  | _ => INVALID_MEDIA
  end.

Definition SIZE_LIMITS (t : AttachmentType) : option Z :=
  match t with
  | ATT_VOICE => Some chat_config.MAX_VOICE_SIZE
  | ATT_VIDEO_NOTE => Some chat_config.MAX_VIDEO_NOTE_SIZE
  | ATT_VIDEO => Some chat_config.MAX_MEDIA_SIZE
  | _ => None
  end.

Definition DURATION_LIMITS (t : AttachmentType) : option Z :=
  match t with
  | ATT_VOICE => Some chat_config.MAX_VOICE_DURATION_SECONDS
  | ATT_VIDEO_NOTE => Some chat_config.MAX_VIDEO_NOTE_DURATION_SECONDS
  | _ => None
  end.

Section validator.
Context `{S3} `{Ffprobe}.
Implicit Types (a : MessageAttachment.t).

Definition check_size a (stat : ObjectStat) : result upload_error Z :=
  match SIZE_LIMITS (MessageAttachment.attachment_type a) with
  | None => Err KeyError
  | Some max_bytes =>
    _ ← raise_if (st_size stat <=? 0) (rejection INVALID_MEDIA a None);
    _ ← raise_if (max_bytes <? st_size stat) (rejection SIZE_LIMIT_EXCEEDED a (Some max_bytes));
    Ok max_bytes
  end.

Definition download a (stat : ObjectStat) (max_bytes : Z) : U bytes :=
  catch (StorageService.download_bytes chat_config.ATTACHMENT_BUCKET_PENDING (MessageAttachment.s3_key a)
           max_bytes (Some stat))
    (λ e, uraise match e with
                 | ObjectTooLargeError _ _ _ => rejection SIZE_LIMIT_EXCEEDED a (Some max_bytes)
                 | e => e
                 end).

Definition _validate_duration a (info : MediaInfo.t) : result upload_error unit :=
  let duration := MediaInfo.duration info in
  _ ← raise_if (negb (positive duration)) (rejection METADATA_UNREADABLE a None);
  match DURATION_LIMITS (MessageAttachment.attachment_type a) with
  | Some limit => raise_if (Qlt_bool (inject_Z limit) duration) (rejection DURATION_LIMIT_EXCEEDED a (Some limit))
  | None => Ok tt
  end.

Definition _validate_dimensions a (s : StreamInfo.t) : result upload_error (Z * Z) :=
  match StreamInfo.width s, StreamInfo.height s with
  | Some width, Some height =>
    if (width <=? 0) || (height <=? 0) then Err (rejection METADATA_UNREADABLE a None) else Ok (width, height)
  | _, _ => Err (rejection METADATA_UNREADABLE a None)
  end.

Definition _validate_voice a (info : MediaInfo.t) : result upload_error unit :=
  _ ← raise_if (bool_decide (MediaInfo.audio_streams info = []) || negb (bool_decide (MediaInfo.video_streams info = [])))
        (rejection INVALID_MEDIA a None);
  _validate_duration a info.

Definition _validate_video a (info : MediaInfo.t) : result upload_error unit :=
  match MediaInfo.video_streams info with
  | [] => Err (rejection INVALID_MEDIA a None)
  | stream :: _ =>
    _ ← _validate_duration a info;
    _ ← _validate_dimensions a stream;
    Ok tt
  end.

Definition _validate_video_note a (info : MediaInfo.t) : result upload_error unit :=
  match MediaInfo.video_streams info with
  | [stream] =>
    _ ← _validate_duration a info;
    '(width, height) ← _validate_dimensions a stream;
    _ ← raise_if (chat_config.MAX_VIDEO_NOTE_RESOLUTION_PX <? Z.max width height)
          (rejection RESOLUTION_LIMIT_EXCEEDED a (Some chat_config.MAX_VIDEO_NOTE_RESOLUTION_PX));
    match StreamInfo.frame_rate stream with
    | Some rate => raise_if (Qlt_bool (inject_Z chat_config.MAX_VIDEO_NOTE_FPS) rate)
                     (rejection FRAME_RATE_LIMIT_EXCEEDED a (Some chat_config.MAX_VIDEO_NOTE_FPS))
    | None => Ok tt
    end
  | _ => Err (rejection INVALID_MEDIA a None)
  end.

(** the [match] on the attachment's type *)
Definition validate a (info : MediaInfo.t) : result upload_error unit :=
  match MessageAttachment.attachment_type a with
  | ATT_VOICE => _validate_voice a info
  | ATT_VIDEO_NOTE => _validate_video_note a info
  | _ => _validate_video a info
  end.

Definition display_size (s : StreamInfo.t) : Z * Z :=
  default (default 0 (StreamInfo.width s), default 0 (StreamInfo.height s)) (StreamInfo.display_size s).

(** the length shown: whole seconds, at least one, no more than the limit *)
Definition shown_duration a (info : MediaInfo.t) : Z :=
  let duration_seconds := Z.max 1 (py_round (MediaInfo.duration info)) in
  match DURATION_LIMITS (MessageAttachment.attachment_type a) with
  | Some limit => Z.min limit duration_seconds
  | None => duration_seconds
  end.

(** the changes [inspect] makes to the attachment *)
Definition inspected (info : MediaInfo.t) a : MessageAttachment.t :=
  let a := MessageAttachment.set_duration a (shown_duration a info) in
  match MediaInfo.video_streams info with
  | stream :: _ => let '(width, height) := display_size stream in MessageAttachment.set_resolution a width height
  | [] => a
  end.

Definition inspect a (file : bytes) : U MediaInfo.t :=
  info ← catch (probing (λ n, probe_file n file))
           (λ e, uraise match e with
                        | ProbeError p => if probe_permanent p then rejection (PROBE_REASON_MAP p) a None else e
                        | e => e
                        end);
  _ ← ulift (validate a info);
  _ ← touch (MessageAttachment.id a) (inspected info);
  mret info.

Definition validate_and_apply a (stat : ObjectStat) : U MediaInfo.t :=
  max_bytes ← ulift (check_size a stat);
  file ← download a stat max_bytes;
  inspect a file.
End validator.
End AttachmentMediaValidator.

(** ** Photos and previews ([AttachmentImageRenderer]) *)

(** libmagic and libvips: an image is opened from its header and decoded when
    it is written, which may fail. *)
Class ImageTools : Type := {
  from_buffer : bytes → string;
  vips_image : Type;
  new_from_file : bytes → option vips_image;
  (** with every page of an animation *)
  load_pages : bool → bytes → option vips_image;
  image_width : vips_image → Z;
  image_height : vips_image → Z;
  image_orientation : vips_image → option Z;
  image_pages : vips_image → option Z;
  hasalpha : vips_image → bool;
  autorot : vips_image → vips_image;
  flatten : vips_image → vips_image;
  write_original : string → vips_image → option bytes;
  (** [Image.thumbnail] of a file, and of an image *)
  thumbnail : Z → bytes → option vips_image;
  thumbnail_image : Z → vips_image → option vips_image;
  thumbnail_centre : Z → vips_image → option vips_image;
  write_to_buffer : string → vips_image → option bytes;
  thumbhash : vips_image → option string;
}.

Record RenderedPreview : Type := MkRenderedPreview {
  rp_size : Z;
  rp_width : Z;
  rp_height : Z;
  rp_content : bytes;
}.
Record RenderedMedia : Type := MkRenderedMedia {
  rm_width : Z;
  rm_height : Z;
  rm_previews : list RenderedPreview;
  rm_thumbhash : string;
}.
Record RenderedPhoto : Type := MkRenderedPhoto {
  rph_width : Z;
  rph_height : Z;
  rph_media : RenderedMedia;
  rph_original : option bytes;
}.

Module AttachmentImageRenderer.

Definition ORIGINAL_EXTENSIONS (mime : string) : option string :=
  snd <$> List.find (λ kv, bool_decide (kv.1 = mime))
    [("image/jpeg", "jpg"); ("image/png", "png"); ("image/webp", "webp")]%string.
Definition PASSTHROUGH_MIMES : list string := ["image/gif"%string].

Definition preview_extension : string := chat_config.ATTACHMENT_PREVIEW_FORMAT.
Definition preview_mime_type : string :=
  default "application/octet-stream"%string
    (snd <$> List.find (λ kv, bool_decide (kv.1 = preview_extension))
       [("webp", "image/webp"); ("jpg", "image/jpeg"); ("jpeg", "image/jpeg"); ("avif", "image/avif")]%string).

Section renderer.
Context `{ImageTools}.
Implicit Types (a : MessageAttachment.t).

(** [except pyvips.Error] *)
Definition or_reject {A} a (o : option A) : result upload_error A :=
  match o with Some x => Ok x | None => Err (rejection INVALID_MEDIA a None) end.

Definition _encode_preview (image : vips_image) : option bytes :=
  write_to_buffer preview_extension
    (if bool_decide (preview_extension ∈ ["jpg"; "jpeg"]%string) && hasalpha image then flatten image else image).

(** the loop over the sizes, which stops at the first that covers the image *)
Fixpoint previews_of (base : vips_image) (base_long_side : Z) (sizes : list Z) : option (list RenderedPreview) :=
  match sizes with
  | [] => Some []
  | size :: sizes =>
    image ← (if base_long_side <=? size then Some base else thumbnail_image size base);
    content ← _encode_preview image;
    let preview := MkRenderedPreview size (image_width image) (image_height image) content in
    if base_long_side <=? size then Some [preview] else cons preview <$> previews_of base base_long_side sizes
  end.

Definition preview_sizes : list Z := merge_sort Z.le (fromkeys chat_config.ATTACHMENT_PREVIEW_SIZES).

Definition _render_previews a (source : bytes) : result upload_error RenderedMedia :=
  or_reject a (
    base ← thumbnail (List.last preview_sizes 0) source;
    previews ← previews_of base (Z.max (image_width base) (image_height base)) preview_sizes;
    hash ← thumbhash base;
    Some (MkRenderedMedia (image_width base) (image_height base) previews hash)).

Definition _sanitize a (header : vips_image) (source : bytes) : result upload_error bytes :=
  extension ← or_reject a (ORIGINAL_EXTENSIONS (MessageAttachment.mime_type a));
  let orientation := default 1 (image_orientation header) in
  let pages := default 1 (image_pages header) in
  let animated := (1 <? pages) && String.eqb extension "webp" in
  let rotate := negb (orientation =? 1) && negb animated in
  match (if String.eqb extension "jpg" && negb rotate then strip_jpeg_metadata source else None) with
  | Some stripped => Ok stripped
  | None =>
    or_reject a (
      image ← load_pages animated source;
      let image := if rotate then autorot image else image in
      let image := if String.eqb extension "jpg" && hasalpha image then flatten image else image in
      write_original extension image)
  end.

Definition _render_photo a (source : bytes) : result upload_error RenderedPhoto :=
  header ← or_reject a (new_from_file source);
  let '(width, height) := (image_width header, image_height header) in
  _ ← raise_if ((width <=? 0) || (height <=? 0)
                || (chat_config.ATTACHMENT_IMAGE_MAX_PIXELS <? width * height))
        (rejection RESOLUTION_LIMIT_EXCEEDED a (Some chat_config.ATTACHMENT_IMAGE_MAX_PIXELS));
  if bool_decide (MessageAttachment.mime_type a ∈ PASSTHROUGH_MIMES)
  then media ← _render_previews a source; Ok (MkRenderedPhoto width height media None)
  else
    original ← _sanitize a header source;
    sanitized ← or_reject a (new_from_file original);
    media ← _render_previews a original;
    Ok (MkRenderedPhoto (image_width sanitized) (image_height sanitized) media (Some original)).
End renderer.
End AttachmentImageRenderer.

(** ** Promotion to the public bucket ([AttachmentMediaProcessor]) *)
Module AttachmentStorageKeys.
Definition media_prefix (chat_id attachment_id : UUID) : text :=
  u8 "media/" ++ str_uuid chat_id ++ u8 "/" ++ str_uuid attachment_id.
Definition preview (chat_id attachment_id : UUID) (size : Z) (extension : string) : text :=
  media_prefix chat_id attachment_id ++ u8 "/previews/" ++ str_int size ++ u8 "." ++ u8 extension.
End AttachmentStorageKeys.

(** [asyncio.gather]: every call is made, and the first exception is raised *)
Fixpoint gather {A} (calls : list (U A)) : U (list A) :=
  match calls with
  | [] => mret []
  | m :: calls => λ w,
    let '(r, w) := m w in
    let '(rs, w) := gather calls w in
    (x ← r; xs ← rs; Ok (x :: xs), w)
  end.

Module AttachmentMediaProcessor.

Definition VIDEO_CONTAINERS (mime : string) : option string :=
  snd <$> List.find (λ kv, bool_decide (kv.1 = mime))
    [("video/mp4", "mp4"); ("video/quicktime", "mov"); ("video/webm", "webm"); ("video/x-msvideo", "avi")]%string.

Section processor.
Context `{S3} `{Ffprobe} `{Ffmpeg} `{ImageTools}.
Implicit Types (a : MessageAttachment.t).

Definition _copy_original a (stat : ObjectStat) : U unit :=
  StorageService.copy_object chat_config.ATTACHMENT_BUCKET_PENDING (MessageAttachment.s3_key a)
    chat_config.ATTACHMENT_BUCKET (MessageAttachment.s3_key a) (Some stat).

Definition _upload_original a (content : bytes) : U unit :=
  _ ← StorageService.upload_file chat_config.ATTACHMENT_BUCKET (MessageAttachment.s3_key a) content;
  touch (MessageAttachment.id a) (λ a, MessageAttachment.replace_original a (len content)).

(** the original as it was uploaded, or the bytes that replace it *)
Definition publish_original a (stat : ObjectStat) (original : option bytes) : U unit :=
  match original with None => _copy_original a stat | Some content => _upload_original a content end.

Definition preview_key a (p : RenderedPreview) : text :=
  AttachmentStorageKeys.preview (MessageAttachment.chat_id a) (MessageAttachment.id a) (rp_size p)
    AttachmentImageRenderer.preview_extension.

Definition _upload_previews a (media : RenderedMedia) : U (list Preview) :=
  _ ← gather ((λ p, StorageService.upload_file chat_config.ATTACHMENT_BUCKET (preview_key a p) (rp_content p))
               <$> rm_previews media);
  mret ((λ p, MkPreview (rp_size p) (rp_width p) (rp_height p) (preview_key a p)
                AttachmentImageRenderer.preview_mime_type (len (rp_content p))) <$> rm_previews media).

Definition _promote_image a (stat : ObjectStat) (source : bytes) : U unit :=
  rendered ← ulift (AttachmentImageRenderer._render_photo a source);
  previews ← _upload_previews a (rph_media rendered);
  _ ← publish_original a stat (rph_original rendered);
  touch (MessageAttachment.id a) (λ a, MessageAttachment.apply_media a (Some (rph_width rendered))
    (Some (rph_height rendered)) previews (Some (rm_thumbhash (rph_media rendered)))).

(** [None] when the source is kept *)
Definition _strip_video_metadata a (source : bytes) : U (option bytes) :=
  match VIDEO_CONTAINERS (MessageAttachment.mime_type a) with
  | Some container =>
    if bool_decide (MessageAttachment.attachment_type a = ATT_VIDEO)
    then catch (Some <$> transcoding (λ n, strip_metadata n source container))
           (λ e, match e with
                 | TranscodeError t => if transcode_permanent t then mret None else uraise e
                 | e => uraise e
                 end)
    else mret None
  | None => mret None
  end.

(** the frame and its previews; [None] for a video sent without them *)
Definition poster a (video : bytes) (hdr : bool) : U (option RenderedMedia) :=
  catch (frame ← transcoding (λ n, extract_frame n video 0%Q chat_config.ATTACHMENT_POSTER_MAX_SIDE hdr);
         Some <$> ulift (AttachmentImageRenderer._render_previews a frame))
    (λ e, match e with
          | TranscodeError t => if transcode_permanent t then mret None else uraise e
          | ChatError (AttachmentMediaValidationError _ _ _) => mret None
          | e => uraise e
          end).

Definition _promote_video a (stat : ObjectStat) (source : bytes) (info : MediaInfo.t) : U unit :=
  match MediaInfo.video_streams info with
  | [] => uraise (ChatError IndexError)
  | stream :: _ =>
    original ← _strip_video_metadata a source;
    rendered ← poster a (default source original) (StreamInfo.is_hdr stream);
    '(previews, hash) ← match rendered with
                        | Some media => p ← _upload_previews a media; mret (p, Some (rm_thumbhash media))
                        | None => mret ([], None)
                        end;
    _ ← publish_original a stat original;
    touch (MessageAttachment.id a) (λ a, MessageAttachment.apply_media a None None previews hash)
  end.

Definition promote a (stat : ObjectStat) : U unit :=
  match MessageAttachment.attachment_type a with
  | ATT_FILE => _copy_original a stat
  | ATT_VOICE =>
    _ ← AttachmentMediaValidator.validate_and_apply a stat;
    _copy_original a stat
  | ATT_IMAGE =>
    source ← AttachmentMediaValidator.download a stat chat_config.MAX_MEDIA_SIZE;
    _promote_image a stat source
  | ATT_VIDEO | ATT_VIDEO_NOTE =>
    max_bytes ← ulift (AttachmentMediaValidator.check_size a stat);
    source ← AttachmentMediaValidator.download a stat max_bytes;
    info ← AttachmentMediaValidator.inspect a source;
    _promote_video a stat source info
  end.
End processor.
End AttachmentMediaProcessor.

(** ** Attachments ([chats/commands/attachments]) *)
Module RequestAttachmentUpload.

Record UploadRequest : Type := MkUploadRequest {
  filename : text;
  mime_type : string;
  file_size : Z;
  attachment_type : option AttachmentType;
}.
Record command : Type := Mk {
  user_jwt_data : UserJWTData;
  chat_id : UUID;
  uploads : list UploadRequest;
}.
Record UploadSlotDTO : Type := MkUploadSlot {
  upload_token : UUID;
  upload_url : text;
  slot_type : AttachmentType;
  expires_in : Z;
}.

(** the type one file is accepted as: the body of the loop *)
Definition accepted_type (req : UploadRequest) : result error AttachmentType :=
  let refused := AttachmentValidationError (mime_type req) in
  _ ← raise_if (bool_decide (mime_type req ∉ chat_config.ALL_ALLOWED_MIMES)) refused;
  match attachment_type req with
  | Some ATT_VOICE =>
    _ ← raise_if (bool_decide (mime_type req ∉ chat_config.ALLOWED_VOICE_MIMES)) refused;
    _ ← raise_if (chat_config.MAX_VOICE_SIZE <? file_size req) refused;
    Ok ATT_VOICE
  | Some ATT_VIDEO_NOTE =>
    _ ← raise_if (bool_decide (mime_type req ∉ chat_config.ALLOWED_VIDEO_NOTE_MIMES)) refused;
    _ ← raise_if (chat_config.MAX_VIDEO_NOTE_SIZE <? file_size req) refused;
    Ok ATT_VIDEO_NOTE
  | _ =>
    if bool_decide (mime_type req ∈ chat_config.ALLOWED_IMAGE_MIMES ++ chat_config.ALLOWED_VIDEO_MIMES)
    then
      _ ← raise_if (chat_config.MAX_MEDIA_SIZE <? file_size req) refused;
      Ok (if bool_decide (mime_type req ∈ chat_config.ALLOWED_IMAGE_MIMES) then ATT_IMAGE else ATT_VIDEO)
    else
      _ ← raise_if (chat_config.MAX_FILE_SIZE <? file_size req) refused;
      Ok ATT_FILE
  end.

(** how many of [l] are of one of [kinds] *)
Definition count_of (l : list AttachmentType) (kinds : list AttachmentType) : Z := len (filter (.∈ kinds) l).

(** the types the files are accepted as, with the counts of the whole request *)
Definition plan (uploads : list UploadRequest) : result error (list AttachmentType) :=
  _ ← raise_if (bool_decide (uploads = [])) EmptyAttachmentUploadRequestError;
  types ← mapM accepted_type uploads;
  let media_count := count_of types [ATT_IMAGE; ATT_VIDEO] in
  let file_count := count_of types [ATT_FILE] in
  let exclusive_count := count_of types [ATT_VOICE; ATT_VIDEO_NOTE] in
  _ ← raise_if (chat_config.MAX_MEDIA_PER_MESSAGE <? media_count) (AttachmentLimitExceededError media_count);
  _ ← raise_if (chat_config.MAX_FILES_PER_MESSAGE <? file_count) (AttachmentLimitExceededError file_count);
  _ ← raise_if (1 <? exclusive_count) (AttachmentLimitExceededError exclusive_count);
  _ ← raise_if (negb (exclusive_count =? 0) && (negb (media_count =? 0) || negb (file_count =? 0)))
        (AttachmentLimitExceededError (exclusive_count + media_count + file_count));
  Ok types.

Section handler.
Context `{R : RBACManager} `{S3} `{TextSearch}.

(** one slot: the key, its URL, and the pending attachment *)
Definition new_slot (cmd : command) (req : UploadRequest) (type : AttachmentType) : U UploadSlotDTO :=
  folder ← in_chat uuid7;
  let key := u8 "chats/" ++ str_uuid (chat_id cmd) ++ u8 "/" ++ str_uuid folder ++ u8 "/"
             ++ StorageService.clean_filename (filename req) 200 in
  url ← StorageService.upload_put_url chat_config.ATTACHMENT_BUCKET_PENDING key chat_config.ATTACHMENT_UPLOAD_TOKEN_TTL;
  id ← in_chat uuid7;
  let attachment := MessageAttachment.create id (chat_id cmd) (jwt_id (user_jwt_data cmd)) type key
                      (mime_type req) (filename req) (file_size req) in
  _ ← in_chat (execute (λ s, s <| attachments ::= <[id := attachment]> |>));
  mret (MkUploadSlot id url type chat_config.ATTACHMENT_UPLOAD_TOKEN_TTL).

Fixpoint new_slots (cmd : command) (files : list (UploadRequest * AttachmentType)) : U (list UploadSlotDTO) :=
  match files with
  | [] => mret []
  | (req, type) :: files => slot ← new_slot cmd req type; slots ← new_slots cmd files; mret (slot :: slots)
  end.

Definition handle (cmd : command) : U (list UploadSlotDTO) :=
  let user_id := jwt_id (user_jwt_data cmd) in
  types ← in_chat (
    chat ← live_chat (chat_id cmd);
    member ← ChatRepository.get_member_chat (chat_id cmd) user_id;
    member ← or_raise member (NotChatMemberError (chat_id cmd) user_id);
    n1 ← now_utc; n2 ← now_utc;
    _ ← guard_not (negb (ChatAccessService.can_send_message n1 n2 (user_jwt_data cmd) chat (Some member)))
          (AccessDeniedChatError (chat_id cmd) user_id);
    lift (plan (uploads cmd)));
  slots ← new_slots cmd (zip (uploads cmd) types);
  _ ← in_chat commit;
  mret slots.
End handler.
End RequestAttachmentUpload.

Module SuccessUploadAttachments.
Record command : Type := Mk {
  chat_id : UUID;
  upload_tokens : list text;
  user_jwt_data : UserJWTData;
}.
Definition handle (cmd : command) : U unit :=
  push (AttachmentProccessTask (jwt_id (user_jwt_data cmd)) (chat_id cmd) (upload_tokens cmd)).
End SuccessUploadAttachments.

Module ProccessAttachments.
Record command : Type := Mk {
  chat_id : UUID;
  user_id : Z;
  upload_tokens : list text;
}.
Definition MAGIC_HEADER_BYTES : Z := 1024.

Section handler.
Context `{S3} `{Ffprobe} `{Ffmpeg} `{ImageTools}.

(** the body of the [try]; it answers whether the token failed *)
Definition attempt (cmd : command) (slot : MessageAttachment.t) : U bool :=
  let id := MessageAttachment.id slot in
  let key := MessageAttachment.s3_key slot in
  _ ← urefuse (negb (MessageAttachment.uploader_id slot =? user_id cmd))
        (ChatError (AccessDeniedChatError (MessageAttachment.chat_id slot) (user_id cmd)));
  stat ← StorageService.get_stat chat_config.ATTACHMENT_BUCKET_PENDING key;
  if (st_size stat <=? 0) || (MessageAttachment.size slot <? st_size stat)
  then _ ← touch id MessageAttachment.mark_error; mret true
  else
    data ← StorageService.download_range chat_config.ATTACHMENT_BUCKET_PENDING key 0 MAGIC_HEADER_BYTES (Some stat);
    if negb (String.eqb (from_buffer data) (MessageAttachment.mime_type slot))
    then _ ← touch id MessageAttachment.mark_error; mret true
    else
      _ ← AttachmentMediaProcessor.promote slot stat;
      _ ← touch id MessageAttachment.mark_proccesed;
      _ ← StorageService.suppress_storage (StorageService.delete_file chat_config.ATTACHMENT_BUCKET_PENDING key);
      mret false.

(** every [except] clause marks the error; they differ in what they log *)
Definition process_slot (cmd : command) (slot : MessageAttachment.t) : U bool :=
  catch (attempt cmd slot)
    (λ _, _ ← touch (MessageAttachment.id slot) MessageAttachment.mark_error; mret true).

(** the loop; it answers the tokens that did not fail *)
Fixpoint process_slots (cmd : command) (slots : list MessageAttachment.t) : U (list text) :=
  match slots with
  | [] => mret []
  | slot :: slots =>
    failed ← process_slot cmd slot;
    successful ← process_slots cmd slots;
    mret (if failed : bool then successful else str_uuid (MessageAttachment.id slot) :: successful)
  end.

Definition notify (cmd : command) (successful_tokens : list text) : U unit :=
  match successful_tokens with
  | [] => mret tt
  | _ => λ w, (Ok tt, w <| uw_notices ::= (λ l, l ++ [MkNotice (user_id cmd) (chat_id cmd) successful_tokens]) |>)
  end.

(** [[UUID(token) for token in tokens]] *)
Definition token_ids (tokens : list text) : result upload_error (list UUID) :=
  match mapM parse_uuid tokens with Some ids => Ok ids | None => Err BadValue end.

Definition handle (cmd : command) : U unit :=
  ids ← ulift (token_ids (upload_tokens cmd));
  slots ← in_chat (AttachmentRepository.get_by_ids ids);
  successful ← process_slots cmd slots;
  _ ← in_chat commit;
  notify cmd successful.
End handler.
End ProccessAttachments.

(** ** Chat avatars ([chats/commands/avatars]) *)

(** [Chat.update_avatar] *)
Definition update_avatar (c : Chat.t) (updated_by : Z) (avatars : Avatars) : Chat.t :=
  Chat._register_updated (c <| Chat.avatars := avatars |> <| Chat.avatar_s3_key := pick_avatar_key avatars |>) updated_by.

Module ChatAvatarUploadRepository.
(** a Redis command; an expired key is gone *)
Definition command {A} (f : gmap UUID (ChatAvatarUploadSlot.t * datetime) → A * gmap UUID (ChatAvatarUploadSlot.t * datetime))
  : U A := λ w, let '(a, slots) := f (uw_slots w) in (Ok a, w <| uw_slots := slots |>).

Definition live (now : datetime) (entry : option (ChatAvatarUploadSlot.t * datetime)) : option ChatAvatarUploadSlot.t :=
  '(slot, expires) ← entry; if now <? expires then Some slot else None.

(** [SET ... EX], [GET] and [GETDEL] *)
Definition save (slot : ChatAvatarUploadSlot.t) : U unit :=
  now ← in_chat now_utc;
  command (λ slots, (tt, <[ChatAvatarUploadSlot.upload_token slot :=
                            (slot, now + seconds chat_config.CHAT_AVATAR_UPLOAD_TTL)]> slots)).

Definition get (upload_token : UUID) : U (option ChatAvatarUploadSlot.t) :=
  now ← in_chat now_utc;
  command (λ slots, (live now (slots !! upload_token), slots)).

Definition pop (upload_token : UUID) : U (option ChatAvatarUploadSlot.t) :=
  now ← in_chat now_utc;
  command (λ slots, (live now (slots !! upload_token), delete upload_token slots)).
End ChatAvatarUploadRepository.

Module ChatAvatarService.
Record RenderedAvatar : Type := MkRenderedAvatar {
  ra_size : Z;
  ra_fmt : string;
  ra_content : bytes;
}.
Definition MAGIC_HEADER_BYTES : nat := Z.to_nat 2048.

Section service.
Context `{S3} `{ImageTools}.

Definition refused {A} (reason : string) : U A := uraise (ChatError (ChatAvatarValidationError reason)).

Definition load_validated (slot : ChatAvatarUploadSlot.t) : U bytes :=
  let key := ChatAvatarUploadSlot.s3_key slot in
  stat ← StorageService.get_stat chat_config.CHAT_AVATAR_BUCKET_PENDING key;
  let limit := Z.min (ChatAvatarUploadSlot.file_size slot) chat_config.CHAT_AVATAR_MAX_SIZE in
  if (st_size stat <=? 0) || (limit <? st_size stat) then refused "size"
  else
    data ← StorageService.download_bytes chat_config.CHAT_AVATAR_BUCKET_PENDING key
             chat_config.CHAT_AVATAR_MAX_SIZE (Some stat);
    if bool_decide (from_buffer (take MAGIC_HEADER_BYTES data) ∈ chat_config.CHAT_AVATAR_ALLOWED_MIMES)
    then mret data else refused "mime_type".

(** the formats of one size *)
Definition render_size (image : vips_image) (size : Z) : option (list RenderedAvatar) :=
  thumb ← thumbnail_centre size image;
  mapM (λ fmt, MkRenderedAvatar size fmt <$> write_to_buffer fmt thumb) chat_config.CHAT_AVATAR_FORMATS.

Definition _render (data : bytes) : U (list RenderedAvatar) :=
  match new_from_file data with
  | None => refused "undecodable"
  | Some image =>
    let '(width, height) := (image_width image, image_height image) in
    if (width <=? 0) || (height <=? 0) || (chat_config.CHAT_AVATAR_MAX_PIXELS <? width * height)
    then refused "dimensions"
    else match mapM (render_size image) chat_config.CHAT_AVATAR_SIZES with
         | Some rendered => mret (concat rendered)
         | None => uraise VipsError
         end
  end.

Definition variant_key (chat_id version : UUID) (item : RenderedAvatar) : text :=
  str_uuid chat_id ++ u8 "/" ++ str_uuid version ++ u8 "/" ++ str_int (ra_size item) ++ u8 "." ++ u8 (ra_fmt item).

(** [avatars.setdefault(str(size), {})[fmt] = url] *)
Definition add_variant (avatars : Avatars) (item : RenderedAvatar * text) : Avatars :=
  let size := str_int (ra_size item.1) in
  dict_put size (dict_put (u8 (ra_fmt item.1)) item.2 (default [] (text_get size avatars))) avatars.

Definition upload_variants (chat_id version : UUID) (rendered : list RenderedAvatar) : U Avatars :=
  urls ← gather ((λ item, StorageService.upload_file chat_config.CHAT_AVATAR_BUCKET
                            (variant_key chat_id version item) (ra_content item)) <$> rendered);
  mret (foldl add_variant [] (zip rendered urls)).

(** [url.removeprefix(prefix)] of the URLs that begin with it *)
Definition keys_of (avatars : Avatars) : list text :=
  let prefix := StorageService.get_public_url_object chat_config.CHAT_AVATAR_BUCKET [] in
  omap (λ url, if bool_decide (prefix `prefix_of` url) then Some (drop (length prefix) url) else None)
    (avatars ≫= λ variants, variants.2.*2).

Definition delete_variants (avatars : Avatars) : U unit :=
  run_each (keys_of avatars) (λ key,
    StorageService.suppress_storage (StorageService.delete_file chat_config.CHAT_AVATAR_BUCKET key)).

Definition drop_pending (slot : ChatAvatarUploadSlot.t) : U unit :=
  StorageService.suppress_storage
    (StorageService.delete_file chat_config.CHAT_AVATAR_BUCKET_PENDING (ChatAvatarUploadSlot.s3_key slot)).
End service.
End ChatAvatarService.

Module RequestChatAvatarUpload.
Record command : Type := Mk {
  user_jwt_data : UserJWTData;
  chat_id : UUID;
  mime_type : string;
  file_size : Z;
}.
Record ChatAvatarUploadSlotDTO : Type := MkSlotDTO {
  upload_token : UUID;
  upload_url : text;
  expires_in : Z;
}.
Section handler.
Context `{R : RBACManager} `{S3}.
Definition handle (cmd : command) : U ChatAvatarUploadSlotDTO :=
  let user_id := jwt_id (user_jwt_data cmd) in
  '(chat, token) ← in_chat (
    chat ← live_chat (chat_id cmd);
    member ← ChatRepository.get_member_chat (chat_id cmd) user_id;
    n1 ← now_utc; n2 ← now_utc;
    _ ← guard_not (negb (ChatAccessService.has_permissions n1 n2 (user_jwt_data cmd) member ["chat:update"%string]))
          (AccessDeniedChatError (chat_id cmd) user_id);
    _ ← guard_not (bool_decide (Chat.type chat = DIRECT)) (ChatAvatarValidationError "direct_chat");
    _ ← guard_not (bool_decide (mime_type cmd ∉ chat_config.CHAT_AVATAR_ALLOWED_MIMES))
          (ChatAvatarValidationError "mime_type");
    _ ← guard_not ((file_size cmd <=? 0) || (chat_config.CHAT_AVATAR_MAX_SIZE <? file_size cmd))
          (ChatAvatarValidationError "size");
    token ← uuid7;
    mret (chat, token));
  let key := str_uuid (Chat.id chat) ++ u8 "/" ++ str_uuid token in
  url ← StorageService.upload_put_url chat_config.CHAT_AVATAR_BUCKET_PENDING key chat_config.CHAT_AVATAR_UPLOAD_TTL;
  _ ← ChatAvatarUploadRepository.save
        (ChatAvatarUploadSlot.Mk token (Chat.id chat) user_id key (mime_type cmd) (file_size cmd));
  mret (MkSlotDTO token url chat_config.CHAT_AVATAR_UPLOAD_TTL).
End handler.
End RequestChatAvatarUpload.

Module ConfirmChatAvatarUpload.
Record command : Type := Mk {
  user_jwt_data : UserJWTData;
  chat_id : UUID;
  upload_token : UUID;
}.
(** [slot is None or slot.chat_id != chat_id or slot.uploader_id != user_id] *)
Definition own_slot (chat_id : UUID) (user_id : Z) (slot : option ChatAvatarUploadSlot.t)
  : option ChatAvatarUploadSlot.t :=
  match slot with
  | Some s => if (ChatAvatarUploadSlot.chat_id s =? chat_id) && (ChatAvatarUploadSlot.uploader_id s =? user_id)
              then Some s else None
  | None => None
  end.
Section handler.
Context `{R : RBACManager}.
Definition handle (cmd : command) : U unit :=
  let user_id := jwt_id (user_jwt_data cmd) in
  slot ← ChatAvatarUploadRepository.get (upload_token cmd);
  _ ← urefuse (is_none (own_slot (chat_id cmd) user_id slot)) (ChatError (InvalidUploadTokenError (upload_token cmd)));
  _ ← in_chat (
    member ← ChatRepository.get_member_chat (chat_id cmd) user_id;
    n1 ← now_utc; n2 ← now_utc;
    guard_not (negb (ChatAccessService.has_permissions n1 n2 (user_jwt_data cmd) member ["chat:update"%string]))
      (AccessDeniedChatError (chat_id cmd) user_id));
  push (ChatAvatarProcessTask (chat_id cmd) user_id (upload_token cmd)).
End handler.
End ConfirmChatAvatarUpload.

Module ProcessChatAvatar.
Record command : Type := Mk {
  chat_id : UUID;
  user_id : Z;
  upload_token : UUID;
}.
(** the exceptions that reject the upload *)
Definition rejects (e : upload_error) : bool :=
  match e with
  | ChatError (ChatAvatarValidationError _) | ObjectNotFoundError _ _ | ObjectChangedError _ _
  | ObjectTooLargeError _ _ _ => true
  | _ => false
  end.

Section handler.
Context `{S3} `{ImageTools}.

(** the rendered variants; [None] when the upload was rejected *)
Definition prepare (slot : ChatAvatarUploadSlot.t) : U (option (list ChatAvatarService.RenderedAvatar)) :=
  catch (data ← ChatAvatarService.load_validated slot; Some <$> ChatAvatarService._render data)
    (λ e, if rejects e then mret None else uraise e).

Definition handle (cmd : command) : U unit :=
  slot ← ChatAvatarUploadRepository.pop (upload_token cmd);
  match ConfirmChatAvatarUpload.own_slot (chat_id cmd) (user_id cmd) slot with
  | None => mret tt
  | Some slot =>
    rendered ← prepare slot;
    match rendered with
    | None => ChatAvatarService.drop_pending slot
    | Some rendered =>
      avatars ← ChatAvatarService.upload_variants (chat_id cmd) (ChatAvatarUploadSlot.upload_token slot) rendered;
      chat ← in_chat (ChatRepository.get_by_id (chat_id cmd));
      match (chat ← chat; if bool_decide (Chat.type chat = DIRECT) then None else Some chat) with
      | None =>
        _ ← in_chat rollback;
        _ ← ChatAvatarService.delete_variants avatars;
        ChatAvatarService.drop_pending slot
      | Some chat =>
        let stale := Chat.avatars chat in
        let chat := update_avatar chat (user_id cmd) avatars in
        _ ← in_chat (_ ← publish_chat chat; _ ← flush_chat chat; commit);
        _ ← ChatAvatarService.drop_pending slot;
        ChatAvatarService.delete_variants stale
      end
    end
  end.
End handler.
End ProcessChatAvatar.

Module RemoveChatAvatar.
Record command : Type := Mk {
  user_jwt_data : UserJWTData;
  chat_id : UUID;
}.
Section handler.
Context `{R : RBACManager} `{S3}.
Definition handle (cmd : command) : U unit :=
  let user_id := jwt_id (user_jwt_data cmd) in
  chat ← in_chat (
    chat ← live_chat (chat_id cmd);
    member ← ChatRepository.get_member_chat (chat_id cmd) user_id;
    n1 ← now_utc; n2 ← now_utc;
    _ ← guard_not (negb (ChatAccessService.has_permissions n1 n2 (user_jwt_data cmd) member ["chat:update"%string]))
          (AccessDeniedChatError (chat_id cmd) user_id);
    mret chat);
  if bool_decide (Chat.avatars chat = []) && is_none (Chat.avatar_s3_key chat) then mret tt
  else
    let stale := Chat.avatars chat in
    let chat := update_avatar chat user_id [] in
    _ ← in_chat (_ ← publish_chat chat; _ ← flush_chat chat; commit);
    ChatAvatarService.delete_variants stale.
End handler.
End RemoveChatAvatar.

(** ** Requests and tasks *)

(** One request in a session of its own: what was not committed is discarded. *)
Definition run_upload {A} (h : U A) (w : upload_world) : result upload_error A * upload_world :=
  let '(r, w') := h (w <| uw_chat ::= (λ c, c <| w_session := w_database c |>) |>) in
  (r, w' <| uw_chat ::= (λ c, c <| w_session := w_database c |>) |>).

(** [AttachmentProccessTask.run] and [ChatAvatarProcessTask.run] *)
Definition run_task `{S3} `{Ffprobe} `{Ffmpeg} `{ImageTools} (task : upload_task) : U unit :=
  match task with
  | AttachmentProccessTask user_id chat_id tokens =>
    ProccessAttachments.handle (ProccessAttachments.Mk chat_id user_id tokens)
  | ChatAvatarProcessTask chat_id user_id token =>
    ProcessChatAvatar.handle (ProcessChatAvatar.Mk chat_id user_id token)
  end.
