(* ===== verification/UploadSpec.v ===== *)
(** Uploads: no client can slip other bytes past the checks between two requests
    to the storage, every confirmed attachment is decided, a plan that is
    accepted fits a message, and a chat's avatar is replaced as a whole. *)
From Stdlib Require Import QArith.
From S2P Require Import Prelude Jpeg Media Config Events MemberModel InviteModel MessageModel ChatModel PrivacyModel Store Wp Rbac Access ChatRepo ChatWp InviteRepo MessageRepo ChatCommands InviteCommands MembershipCommands MessageCommands Reactions ReadReceipts MessageQueries WsModel Spec MembershipInv MembershipSpec TableInv ReactionInv SystemInv ReadSpec ChatSpec System Histories Projections Uploads.
Open Scope Z_scope.

(** ** Weakest preconditions *)
Definition uwp {A} (m : U A) (w : upload_world) (Q : result upload_error A → upload_world → Prop) : Prop :=
  Q (m w).1 (m w).2.

Section uwp.
Context {A B : Type}.
Implicit Types (w : upload_world).

Lemma uwp_mono (m : U A) w (P Q : result upload_error A → upload_world → Prop) :
  uwp m w P → (∀ r w', P r w' → Q r w') → uwp m w Q.
Proof. unfold uwp. auto. Qed.

Lemma uwp_and (m : U A) w (P Q : result upload_error A → upload_world → Prop) :
  uwp m w P → uwp m w Q → uwp m w (λ r w', P r w' ∧ Q r w').
Proof. done. Qed.

Lemma uwp_bind (m : U A) (k : A → U B) w Q :
  uwp m w (λ r w', match r with Ok a => uwp (k a) w' Q | Err e => Q (Err e) w' end) → uwp (m ≫= k) w Q.
Proof. unfold uwp, mbind, U_bind. destruct (m w) as [[a|e] w']; cbn; [|done]. by destruct (k a w'). Qed.

Lemma uwp_fmap (f : A → B) (m : U A) w Q :
  uwp m w (λ r w', match r with Ok a => Q (Ok (f a)) w' | Err e => Q (Err e) w' end) → uwp (f <$> m) w Q.
Proof. intros H. apply (uwp_bind m (λ a, mret (f a))). revert H. unfold uwp. by destruct (m w) as [[]]. Qed.

Lemma uwp_catch (m : U A) h w Q :
  uwp m w (λ r w', match r with Ok a => Q (Ok a) w' | Err e => uwp (h e) w' Q end) → uwp (catch m h) w Q.
Proof. unfold uwp, catch. by destruct (m w) as [[a|e] w']. Qed.

Lemma uwp_lift (r : result upload_error A) w Q : Q r w → uwp (ulift r) w Q.
Proof. done. Qed.
End uwp.

(** ** What handling one attachment may change

    Its own row, the object under its key, previews, and whatever is outside
    the public bucket. *)

Definition no_puts (bucket : string) (w : upload_world) : Prop :=
  ∀ n kv, kv ∈ uw_puts w n → kv.1.1 ≠ bucket.

(** what the processing of an attachment leaves alone *)
Definition same_upload (a a' : MessageAttachment.t) : Prop :=
  MessageAttachment.id a' = MessageAttachment.id a
  ∧ MessageAttachment.message_id a' = MessageAttachment.message_id a
  ∧ MessageAttachment.chat_id a' = MessageAttachment.chat_id a
  ∧ MessageAttachment.uploader_id a' = MessageAttachment.uploader_id a
  ∧ MessageAttachment.attachment_type a' = MessageAttachment.attachment_type a
  ∧ MessageAttachment.s3_key a' = MessageAttachment.s3_key a
  ∧ MessageAttachment.mime_type a' = MessageAttachment.mime_type a
  ∧ MessageAttachment.original_filename a' = MessageAttachment.original_filename a
  ∧ MessageAttachment.source_attachment_id a' = MessageAttachment.source_attachment_id a
  ∧ MessageAttachment.message_seq a' = MessageAttachment.message_seq a.

#[export] Instance same_upload_refl : Reflexive same_upload.
Proof. done. Qed.
#[export] Instance same_upload_trans : Transitive same_upload.
Proof. intros a b c H1 H2. unfold same_upload in *. destruct_and!. split_and!; congruence. Qed.

Definition preview_prefix : text := u8 "media/".

Record handled (id : UUID) (key : text) (w w' : upload_world) : Prop := {
  ha_row : ∃ f, (∀ a, same_upload a (f a))
    ∧ uw_chat w' = (uw_chat w) <| w_session ::= (λ s, s <| attachments ::= alter f id |>) |>;
  ha_clients : uw_puts w' = uw_puts w ∧ uw_faults w' = uw_faults w;
  ha_rest : uw_slots w' = uw_slots w ∧ uw_tasks w' = uw_tasks w ∧ uw_notices w' = uw_notices w;
  ha_objects k : no_puts chat_config.ATTACHMENT_BUCKET w → k ≠ key → ¬ preview_prefix `prefix_of` k →
    uw_objects w' !! (chat_config.ATTACHMENT_BUCKET, k) = uw_objects w !! (chat_config.ATTACHMENT_BUCKET, k);
}.

Lemma row_untouched id (c : world) : c = c <| w_session ::= (λ s, s <| attachments ::= alter (λ a, a) id |>) |>.
Proof.
  assert (∀ m : gmap UUID MessageAttachment.t, alter (λ a, a) id m = m) as E by (intros m; by apply alter_id).
  destruct c as [s ?]. destruct s. unfold modify_field. cbn. by rewrite E.
Qed.

#[export] Instance handled_refl id key : Reflexive (handled id key).
Proof. intros w. split; try done. exists (λ a, a). split; [done|apply row_untouched]. Qed.

#[export] Instance handled_trans id key : Transitive (handled id key).
Proof.
  intros w1 w2 w3 [(f & Hf & Ef) [P1 F1] (S1 & T1 & N1) O1] [(g & Hg & Eg) [P2 F2] (S2 & T2 & N2) O2].
  split; [|split; congruence|split_and!; congruence|].
  - exists (g ∘ f). split; [intros a; etrans; [apply Hf|apply Hg]|].
    rewrite Eg, Ef. unfold modify_field. cbn. by rewrite alter_alter_eq.
  - intros k Hc Hk Hp. rewrite O2, O1; try done. intros n kv. rewrite P1. apply Hc.
Qed.

(** computations that do no more than that *)
Class Handles {A} (id : UUID) (key : text) (m : U A) : Prop := handles w : handled id key w (m w).2.

Section handles.
Context {A B : Type} (id : UUID) (key : text).

#[export] Instance ret_handles (a : A) : Handles id key (mret a).
Proof. by intros w. Qed.
#[export] Instance raise_handles e : Handles id key (uraise (A := A) e).
Proof. by intros w. Qed.
#[export] Instance lift_handles (r : result upload_error A) : Handles id key (ulift r).
Proof. by intros w. Qed.
#[export] Instance refuse_handles b e : Handles id key (urefuse b e).
Proof. by intros w. Qed.
#[export] Instance bind_handles (m : U A) (k : A → U B) :
  Handles id key m → (∀ a, Handles id key (k a)) → Handles id key (m ≫= k).
Proof.
  intros Hm Hk w. pose proof (Hm w) as H1. unfold mbind, U_bind. destruct (m w) as [[a|e] w1]; [|done].
  etrans; [exact H1|apply Hk].
Qed.
#[export] Instance catch_handles (m : U A) h :
  Handles id key m → (∀ e, Handles id key (h e)) → Handles id key (catch m h).
Proof.
  intros Hm Hh w. pose proof (Hm w) as H1. unfold catch. destruct (m w) as [[a|e] w1]; [done|].
  etrans; [exact H1|apply Hh].
Qed.
End handles.
#[export] Instance fmap_handles {A B} id key (f : A → B) (m : U A) : Handles id key m → Handles id key (f <$> m).
Proof. intros H. change (Handles id key (a ← m; mret (f a))). apply _. Qed.

Section storage_handles.
Context `{S3} `{Ffprobe} `{Ffmpeg} `{ImageTools} (id : UUID) (key : text).

Lemma touch_handles f : (∀ a, same_upload a (f a)) → Handles id key (touch id f).
Proof. intros Hf w. split; try done. by exists f. Qed.

Lemma puts_elsewhere bucket k (l : list ((string * text) * bytes)) o :
  (∀ kv, kv ∈ l → kv.1.1 ≠ bucket) → foldl put_object o l !! (bucket, k) = o !! (bucket, k).
Proof.
  revert o. induction l as [|[[b k'] v] l IH]; intros o Hl; [done|]. cbn. rewrite IH.
  - unfold put_object. cbn. apply lookup_insert_ne. intros [= -> ->]. apply (Hl (bucket, k, v)); [left|done].
  - intros kv Hkv. apply Hl. by right.
Qed.

Lemma request_handles {A} (op : objects → result string A * objects) :
  (∀ o k, k ≠ key → ¬ preview_prefix `prefix_of` k →
     (op o).2 !! (chat_config.ATTACHMENT_BUCKET, k) = o !! (chat_config.ATTACHMENT_BUCKET, k)) →
  Handles id key (request op).
Proof.
  intros Hop w. unfold request. cbv zeta. case_match; [|destruct (op _) as [r o] eqn:E].
  all: split; try done.
  1, 3: exists (λ a, a); split; [done|apply row_untouched].
  - intros k Hc _ _. cbn. apply puts_elsewhere, Hc.
  - intros k Hc Hk Hp. cbn in *. pose proof (Hop (foldl put_object (uw_objects w) (uw_puts w (uw_requests w))) k Hk Hp) as Ho.
    rewrite E in Ho. cbn in Ho. rewrite Ho. apply puts_elsewhere, Hc.
Qed.

#[export] Instance translated_handles {A} b k (m : U A) : Handles id key m → Handles id key (StorageService.translated b k m).
Proof. unfold StorageService.translated. apply _. Qed.

(** a request that only reads *)
Lemma read_handles {A} (f : objects → result string A) : Handles id key (request (λ o, (f o, o))).
Proof. by apply request_handles. Qed.

#[export] Instance get_stat_handles b k : Handles id key (StorageService.get_stat b k).
Proof. apply translated_handles, read_handles. Qed.
#[export] Instance download_range_handles b k o n s : Handles id key (StorageService.download_range b k o n s).
Proof. unfold StorageService.download_range. case_match; [apply _|]. apply translated_handles, read_handles. Qed.
#[export] Instance download_bytes_handles b k n s : Handles id key (StorageService.download_bytes b k n s).
Proof.
  apply bind_handles; [apply translated_handles, read_handles|]. intros data. case_match; apply _.
Qed.
#[export] Instance delete_pending_handles k :
  Handles id key (StorageService.delete_file chat_config.ATTACHMENT_BUCKET_PENDING k).
Proof.
  apply translated_handles, request_handles. intros o k' _ _. cbn. by apply lookup_delete_ne.
Qed.
#[export] Instance suppress_handles m : Handles id key m → Handles id key (StorageService.suppress_storage m).
Proof. intros Hm. apply catch_handles; [done|]. intros e. case_match; apply _. Qed.

#[export] Instance copy_own_handles b s :
  Handles id key (StorageService.copy_object b key chat_config.ATTACHMENT_BUCKET key s).
Proof.
  apply translated_handles, request_handles. intros o k Hk _. case_match; [|done]. cbn.
  apply lookup_insert_ne. by intros [= ->].
Qed.

Lemma upload_handles k content : k = key ∨ preview_prefix `prefix_of` k →
  Handles id key (StorageService.upload_file chat_config.ATTACHMENT_BUCKET k content).
Proof.
  intros Hk. apply bind_handles; [|apply _]. apply translated_handles, request_handles.
  intros o k' Hne Hp. cbn. apply lookup_insert_ne. intros [= ->]. by destruct Hk.
Qed.

Lemma gather_handles {A} (l : list (U A)) : (∀ m, m ∈ l → Handles id key m) → Handles id key (gather l).
Proof.
  induction l as [|m l IH]; intros Hl; [apply ret_handles|]. intros w. cbn.
  pose proof (Hl m (list_elem_of_here _ _) w) as Hm. destruct (m w) as [r w1].
  assert (Handles id key (gather l)) as IH' by (apply IH; intros; apply Hl; by right).
  specialize (IH' w1). destruct (gather l w1) as [rs w2]. cbn in *. by etrans.
Qed.

(** a run of ffprobe or ffmpeg *)
Lemma runs_handles w n : handled id key w (w <| uw_runs := n |>).
Proof. split; try done. exists (λ a, a). split; [done|apply row_untouched]. Qed.

#[export] Instance probing_handles {A} (f : nat → result probe_error A) : Handles id key (probing f).
Proof. intros w. apply runs_handles. Qed.
#[export] Instance transcoding_handles {A} (f : nat → result transcode_error A * nat) : Handles id key (transcoding f).
Proof. intros w. unfold transcoding. destruct (f _) as [r n]. apply runs_handles. Qed.
End storage_handles.

Section processor_handles.
Context `{S3} `{Ffprobe} `{Ffmpeg} `{ImageTools} (a : MessageAttachment.t).
Let id := MessageAttachment.id a.
Let key := MessageAttachment.s3_key a.

Lemma same_upload_inspected info x : same_upload x (AttachmentMediaValidator.inspected info x).
Proof.
  unfold AttachmentMediaValidator.inspected. destruct (MediaInfo.video_streams info); [done|].
  by destruct (AttachmentMediaValidator.display_size _).
Qed.

Lemma same_upload_apply w h p t x : same_upload x (MessageAttachment.apply_media x w h p t).
Proof. unfold MessageAttachment.apply_media. by repeat case_match. Qed.

Lemma preview_key_prefix p : preview_prefix `prefix_of` AttachmentMediaProcessor.preview_key a p.
Proof.
  unfold AttachmentMediaProcessor.preview_key, AttachmentStorageKeys.preview, AttachmentStorageKeys.media_prefix.
  rewrite <- !app_assoc. by apply prefix_app_r.
Qed.

#[export] Instance download_handles s n : Handles id key (AttachmentMediaValidator.download a s n).
Proof. unfold AttachmentMediaValidator.download. apply _. Qed.
#[export] Instance inspect_handles f : Handles id key (AttachmentMediaValidator.inspect a f).
Proof.
  apply bind_handles; [apply _|intros info]. apply bind_handles; [apply _|intros _].
  apply bind_handles; [|apply _]. apply touch_handles, same_upload_inspected.
Qed.
#[export] Instance publish_original_handles s o : Handles id key (AttachmentMediaProcessor.publish_original a s o).
Proof.
  destruct o as [content|]; cbn; [|apply copy_own_handles].
  apply bind_handles; [apply upload_handles; by left|intros _]. by apply touch_handles.
Qed.
#[export] Instance upload_previews_handles m : Handles id key (AttachmentMediaProcessor._upload_previews a m).
Proof.
  apply bind_handles; [|apply _]. apply gather_handles. intros u (p & -> & _)%list_elem_of_fmap.
  apply upload_handles. right. apply preview_key_prefix.
Qed.
#[export] Instance promote_image_handles s f : Handles id key (AttachmentMediaProcessor._promote_image a s f).
Proof.
  unfold AttachmentMediaProcessor._promote_image. do 3 (apply bind_handles; [apply _|intros ?]).
  apply touch_handles. intros. apply same_upload_apply.
Qed.
#[export] Instance promote_video_handles s f i : Handles id key (AttachmentMediaProcessor._promote_video a s f i).
Proof.
  unfold AttachmentMediaProcessor._promote_video. destruct (MediaInfo.video_streams i); [apply _|].
  apply bind_handles.
  { unfold AttachmentMediaProcessor._strip_video_metadata. repeat case_match; try apply _.
    apply catch_handles; [apply _|]. intros e. repeat case_match; apply _. }
  intros o. apply bind_handles.
  { apply catch_handles; [apply _|]. intros e. repeat case_match; apply _. }
  intros r. apply bind_handles; [destruct r; apply _|]. intros [p h]. apply bind_handles; [apply _|intros _].
  apply touch_handles. intros. apply same_upload_apply.
Qed.
#[export] Instance promote_handles s : Handles id key (AttachmentMediaProcessor.promote a s).
Proof.
  unfold AttachmentMediaProcessor.promote, AttachmentMediaValidator.validate_and_apply.
  destruct (MessageAttachment.attachment_type a); try apply _; apply copy_own_handles.
Qed.
#[export] Instance process_slot_handles cmd : Handles id key (ProccessAttachments.process_slot cmd a).
Proof.
  assert (∀ b : bool, Handles id key (_ ← touch id MessageAttachment.mark_error; mret b)) as He
    by (intros b; apply bind_handles; [by apply touch_handles|apply _]).
  apply catch_handles; [|intros; apply He]. unfold ProccessAttachments.attempt.
  apply bind_handles; [apply _|intros _]. apply bind_handles; [apply _|intros s].
  destruct (_ || _); [apply He|]. apply bind_handles; [apply _|intros d]. destruct (negb _); [apply He|].
  apply bind_handles; [apply _|intros _]. apply bind_handles; [by apply touch_handles|intros _]. apply _.
Qed.
End processor_handles.

(** ** Runs that succeed *)
Section runs.
Context {A B : Type}.
Implicit Types (w : upload_world).

Lemma bind_Ok (m : U A) (k : A → U B) w b w' :
  (m ≫= k) w = (Ok b, w') ↔ ∃ a w1, m w = (Ok a, w1) ∧ k a w1 = (Ok b, w').
Proof. unfold mbind, U_bind. destruct (m w) as [[a|e] w1]; naive_solver. Qed.

Lemma fmap_Ok (f : A → B) (m : U A) w b w' : (f <$> m) w = (Ok b, w') ↔ ∃ a, m w = (Ok a, w') ∧ b = f a.
Proof.
  change ((a ← m; mret (f a)) w = (Ok b, w') ↔ ∃ a, m w = (Ok a, w') ∧ b = f a). rewrite bind_Ok. unfold mret, U_ret.
  naive_solver.
Qed.

Lemma ret_Ok (a : A) w b w' : (mret a : U A) w = (Ok b, w') ↔ b = a ∧ w' = w.
Proof. unfold mret, U_ret. naive_solver. Qed.

Lemma lift_Ok (r : result upload_error A) w b w' : ulift r w = (Ok b, w') ↔ r = Ok b ∧ w' = w.
Proof. unfold ulift. naive_solver. Qed.

Lemma refuse_Ok bad e w u w' : urefuse bad e w = (Ok u, w') ↔ bad = false ∧ w' = w.
Proof. destruct u. unfold urefuse. destruct bad; naive_solver. Qed.

(** a handler that only raises another exception *)
Lemma catch_raise_Ok (m : U A) (h : upload_error → upload_error) w a w' :
  catch m (λ e, uraise (h e)) w = (Ok a, w') ↔ m w = (Ok a, w').
Proof. unfold catch, uraise. destruct (m w) as [[x|e] w1]; naive_solver. Qed.

Lemma catch_Ok (m : U A) h w a w' :
  catch m h w = (Ok a, w') ↔ m w = (Ok a, w') ∨ ∃ e w1, m w = (Err e, w1) ∧ h e w1 = (Ok a, w').
Proof. unfold catch. destruct (m w) as [[x|e] w1]; naive_solver. Qed.

(** a request that succeeded, over the objects it found *)
Lemma request_Ok (op : objects → result string A * objects) w a w' :
  request op w = (Ok a, w') →
  ∃ o o', op o = (Ok a, o') ∧ uw_objects w' = o' ∧ uw_puts w' = uw_puts w.
Proof.
  unfold request. cbv zeta. case_match; [done|]. destruct (op _) as [[x|code] o'] eqn:E; [|done].
  intros [= <- <-]. by eauto 10.
Qed.
End runs.

Section pinned.
Context `{HS : S3} `{!S3Laws HS}.

(** [stat] describes an object with these bytes *)
Definition pins (stat : ObjectStat) (data : bytes) : Prop :=
  st_size stat = len data ∧ st_etag stat = Some (ETag data).

Lemma pin_tag stat data : pins stat data → StorageService._pin (Some stat) = Some (ETag data).
Proof.
  intros [_ Et]. unfold StorageService._pin. cbn. rewrite Et. pose proof (ETag_quoted data) as Hq.
  destruct (ETag data) as [|c t] eqn:E; [done|]. unfold StorageService._quote_etag. by rewrite bool_decide_true.
Qed.

(** Whatever was put under the key meanwhile, a pinned read finds those bytes
    or fails. *)
Lemma read_pinned stat data b k o d :
  pins stat data → StorageService.read_object b k (StorageService._pin (Some stat)) o = Ok d → d = data.
Proof.
  intros Hp. rewrite (pin_tag _ _ Hp). unfold StorageService.read_object. case_match; [|done].
  case_bool_decide as E; [|done]. intros [= <-]. by apply ETag_inj.
Qed.

Lemma get_stat_Ok b k w stat w' :
  StorageService.get_stat b k w = (Ok stat, w') → ∃ data, pins stat data.
Proof.
  intros H%catch_raise_Ok%request_Ok. destruct H as (o & o' & H & _). destruct (o !! (b, k)) as [data|]; [|done].
  injection H as <- _. by exists data.
Qed.

Lemma download_range_Ok stat data b k n w d w' :
  pins stat data → 0 < n → StorageService.download_range b k 0 n (Some stat) w = (Ok d, w') →
  d = take (Z.to_nat n) data.
Proof.
  intros Hp Hn. unfold StorageService.download_range. destruct (n <=? 0) eqn:E; [lia|].
  intros H%catch_raise_Ok%request_Ok. destruct H as (o & o' & H & _). injection H as H _.
  apply result_bind_Ok in H as (x & ->%(read_pinned _ data) & H); [|done]. case_match; [done|].
  injection H as <-. by rewrite drop_0.
Qed.

Lemma read_chunks_iter max_bytes n : (0 < n)%nat → ∀ fuel read data d,
  (length data ≤ fuel)%nat →
  StorageService.read_chunks max_bytes read (StorageService.iter_chunks n fuel data) = Some d →
  d = data ∧ (data ≠ [] → read + len data ≤ max_bytes).
Proof.
  intros Hc.
  induction fuel as [|fuel IH]; intros read data d Hf.
  { destruct data; [|cbn in Hf; lia]. by intros [= <-]. }
  destruct data as [|x data]; [by intros [= <-]|]. remember (x :: data) as all eqn:Eall.
  assert (0 < length all)%nat as Hpos by (subst; cbn; lia).
  replace (StorageService.iter_chunks n (S fuel) all) with
    (take n all
       :: StorageService.iter_chunks n fuel (drop n all)) by by subst.
  cbn [StorageService.read_chunks]. cbv zeta. case_match eqn:Hm; [done|].
  intros (d' & Hd & ->)%fmap_Some. apply IH in Hd as [-> Hl]; [|rewrite length_drop; lia].
  split; [by rewrite take_drop|]. intros _. unfold len in *. rewrite length_drop, length_take in *.
  destruct (drop _ all) as [|y rest] eqn:Ed.
  - apply (f_equal length) in Ed. rewrite length_drop, length_nil in Ed.
    apply Z.ltb_ge in Hm. rewrite Nat.min_r in Hm by lia. lia.
  - assert (y :: rest ≠ []) as Hne by done. apply Hl in Hne. apply (f_equal length) in Ed. rewrite length_drop in Ed. lia.
Qed.

Lemma download_bytes_Ok stat data b k n w d w' :
  pins stat data → StorageService.download_bytes b k n (Some stat) w = (Ok d, w') →
  d = data ∧ (data ≠ [] → len data ≤ n).
Proof.
  intros Hp (x & w1 & H & Hr)%bind_Ok. apply catch_raise_Ok, request_Ok in H as (o & o' & H & _).
  injection H as H _. apply (read_pinned _ data) in H as ->; [|done]. case_match eqn:E; [|done].
  apply ret_Ok in Hr as [-> _]. apply read_chunks_iter in E as [-> ?]; [|apply (Z2Nat.inj_lt 0); lia|done]. by split.
Qed.

Lemma copy_object_Ok stat data b k b' k' w u w' :
  pins stat data → StorageService.copy_object b k b' k' (Some stat) w = (Ok u, w') →
  uw_objects w' !! (b', k') = Some data.
Proof.
  intros Hp H%catch_raise_Ok%request_Ok. destruct H as (o & o' & H & <- & _).
  destruct (StorageService.read_object b k _ o) as [d|] eqn:E; [|done]. injection H as _ <-.
  apply (read_pinned _ data) in E as ->; [|done]. by apply lookup_insert_eq.
Qed.

Lemma upload_file_Ok b k content w u w' :
  StorageService.upload_file b k content w = (Ok u, w') →
  uw_objects w' !! (b, k) = Some content
  ∧ u = match policy_of b with Some POLICY_GET => StorageService.get_public_url_object b k | _ => k end.
Proof.
  unfold StorageService.upload_file. destruct (policy_of b) as [p|]; [|done].
  intros (x & w1 & H & Hr)%bind_Ok. apply ret_Ok in Hr as [-> ->].
  apply catch_raise_Ok, request_Ok in H as (o & o' & H & <- & _). injection H as _ <-.
  split; [by apply lookup_insert_eq|by destruct p].
Qed.
End pinned.

(** ** What is published *)
Section published.
Context `{HS : S3} `{!S3Laws HS} `{Ffprobe} `{Ffmpeg} `{ImageTools}.
Implicit Types (a : MessageAttachment.t) (data content : bytes).

(** the bytes a client uploaded for [a] are acceptable *)
Definition admitted a data : Prop :=
  0 < len data ≤ MessageAttachment.size a
  ∧ from_buffer (take 1024 data) = MessageAttachment.mime_type a.

(** a probe of [data] satisfies the validator *)
Definition probed a data : Prop :=
  ∃ n info, probe_file n data = Ok info ∧ AttachmentMediaValidator.validate a info = Ok tt.

(** what may be shown in place of the uploaded bytes *)
Inductive derived a data : bytes → Prop :=
| derived_file : MessageAttachment.attachment_type a = ATT_FILE → derived a data data
| derived_voice :
  MessageAttachment.attachment_type a = ATT_VOICE → probed a data → len data ≤ chat_config.MAX_VOICE_SIZE →
  derived a data data
| derived_image photo :
  MessageAttachment.attachment_type a = ATT_IMAGE → AttachmentImageRenderer._render_photo a data = Ok photo →
  derived a data (default data (rph_original photo))
| derived_clip :
  MessageAttachment.attachment_type a = ATT_VIDEO ∨ MessageAttachment.attachment_type a = ATT_VIDEO_NOTE →
  probed a data → derived a data data
| derived_remuxed n container content :
  MessageAttachment.attachment_type a = ATT_VIDEO → probed a data →
  (strip_metadata n data container).1 = Ok content → derived a data content.

Definition published a data (w : upload_world) : Prop :=
  ∃ content, derived a data content
    ∧ uw_objects w !! (chat_config.ATTACHMENT_BUCKET, MessageAttachment.s3_key a) = Some content.

Lemma touch_Ok id f w u w' : touch id f w = (Ok u, w') → uw_objects w' = uw_objects w.
Proof. by intros [= _ <-]. Qed.

Lemma publish_original_Ok a stat data original w u w' :
  pins stat data → AttachmentMediaProcessor.publish_original a stat original w = (Ok u, w') →
  uw_objects w' !! (chat_config.ATTACHMENT_BUCKET, MessageAttachment.s3_key a) = Some (default data original).
Proof.
  intros Hp. destruct original as [content|]; cbn; [|by apply copy_object_Ok].
  intros (u1 & w1 & [Hk _]%upload_file_Ok & Ht%touch_Ok)%bind_Ok. by rewrite Ht.
Qed.

Lemma download_Ok a stat data n w d w' :
  pins stat data → AttachmentMediaValidator.download a stat n w = (Ok d, w') →
  d = data ∧ (data ≠ [] → len data ≤ n).
Proof. intros Hp H4%catch_raise_Ok. by eapply download_bytes_Ok. Qed.

Lemma inspect_Ok a data w info w' :
  AttachmentMediaValidator.inspect a data w = (Ok info, w') →
  probed a data ∧ AttachmentMediaValidator.validate a info = Ok tt.
Proof.
  intros (i & w1 & Hi%catch_raise_Ok & H4)%bind_Ok.
  apply bind_Ok in H4 as (u & w2 & [Hv ->]%lift_Ok & H4). apply bind_Ok in H4 as (? & w3 & _ & [-> _]%ret_Ok).
  destruct u. split; [|done]. unfold probing in Hi. destruct (probe_file _ data) eqn:E; [|done].
  injection Hi as -> _. by exists (uw_runs w), i.
Qed.

Lemma strip_video_Ok a data w original w' :
  AttachmentMediaProcessor._strip_video_metadata a data w = (Ok original, w') →
  match original with
  | None => True
  | Some content => MessageAttachment.attachment_type a = ATT_VIDEO
      ∧ ∃ n container, (strip_metadata n data container).1 = Ok content
  end.
Proof.
  unfold AttachmentMediaProcessor._strip_video_metadata. destruct (AttachmentMediaProcessor.VIDEO_CONTAINERS _) as [c|];
    [|by intros [-> _]%ret_Ok]. case_bool_decide as Ht; [|by intros [-> _]%ret_Ok].
  intros [(content & Hc & ->)%fmap_Ok|(e & w1 & _ & He)]%catch_Ok.
  - split; [done|]. exists (uw_runs w), c. unfold transcoding in Hc.
    destruct (strip_metadata _ data c) as [[x|e] n]; [|done]. by injection Hc as -> _.
  - by repeat case_match.
Qed.

Lemma promote_video_Ok a stat data w max_bytes u w' :
  MessageAttachment.attachment_type a = ATT_VIDEO ∨ MessageAttachment.attachment_type a = ATT_VIDEO_NOTE →
  pins stat data →
  (source ← AttachmentMediaValidator.download a stat max_bytes;
   info ← AttachmentMediaValidator.inspect a source;
   AttachmentMediaProcessor._promote_video a stat source info) w = (Ok u, w') →
  published a data w'.
Proof.
  intros Ht Hp (d & w2 & [-> _]%(download_Ok _ _ data) & Hi)%bind_Ok; [|done].
  apply bind_Ok in Hi as (info & w3 & [Hpr _]%inspect_Ok & Hi). unfold AttachmentMediaProcessor._promote_video in Hi.
  destruct (MediaInfo.video_streams info); [done|].
  apply bind_Ok in Hi as (original & w4 & Ho%strip_video_Ok & Hi). apply bind_Ok in Hi as (r & w5 & _ & Hi).
  apply bind_Ok in Hi as ([p hash] & w6 & _ & Hi).
  apply bind_Ok in Hi as (u2 & w7 & Hpub%(publish_original_Ok _ _ data) & Hi%touch_Ok); [|done].
  unfold published. rewrite Hi, Hpub. eexists. split; [|done].
  destruct original as [content|]; cbn; [|by apply derived_clip].
  destruct Ho as (? & k & c & Hs). by eapply derived_remuxed.
Qed.

Lemma promote_Ok a stat data w u w' :
  pins stat data → data ≠ [] → AttachmentMediaProcessor.promote a stat w = (Ok u, w') → published a data w'.
Proof.
  intros Hp Hne. unfold AttachmentMediaProcessor.promote.
  destruct (MessageAttachment.attachment_type a) eqn:Ht.
  - intros (d & w1 & [-> _]%(download_Ok _ _ data) & Hi)%bind_Ok; [|done].
    apply bind_Ok in Hi as (photo & w2 & [Hr ->]%lift_Ok & Hi).
    apply bind_Ok in Hi as (previews & w3 & _ & Hi).
    apply bind_Ok in Hi as (u2 & w4 & Ho%(publish_original_Ok _ _ data) & Hi%touch_Ok); [|done].
    unfold published. rewrite Hi, Ho. eexists. split; [by eapply derived_image|done].
  - intros (n & w1 & _ & Hi)%bind_Ok. eapply promote_video_Ok; eauto.
  - intros Hc%(copy_object_Ok _ data); [|done]. exists data. split; [by apply derived_file|done].
  - intros (info & w1 & Hi & Hc%(copy_object_Ok _ data))%bind_Ok; [|done]. exists data. split; [|done].
    apply bind_Ok in Hi as (n & w2 & [Hn ->]%lift_Ok & Hi). apply bind_Ok in Hi as (d & w3 & Hd%(download_Ok _ _ data) & Hi); [|done].
    destruct Hd as [-> Hlen]. apply inspect_Ok in Hi as [? _]. apply derived_voice; [done|done|].
    unfold AttachmentMediaValidator.check_size in Hn. rewrite Ht in Hn. cbn in Hn.
    apply result_bind_Ok in Hn as (? & _ & Hn). apply result_bind_Ok in Hn as (? & _ & [= <-]). by apply Hlen.
  - intros (n & w1 & _ & Hi)%bind_Ok. eapply promote_video_Ok; eauto.
Qed.
End published.

(** ** One token, and the loop over them *)
Definition row (w : upload_world) (id : UUID) : option MessageAttachment.t := attachments (w_session (uw_chat w)) !! id.

Lemma handled_row id key w w' i :
  handled id key w w' → i ≠ id → row w' i = row w i.
Proof. intros [(f & _ & E) _ _ _] Hi. unfold row. rewrite E. cbn. by apply lookup_alter_ne. Qed.

Lemma handled_own id key w w' :
  handled id key w w' → ∃ f, (∀ a, same_upload a (f a)) ∧ row w' id = f <$> row w id.
Proof. intros [(f & Hf & E) _ _ _]. exists f. split; [done|]. unfold row. rewrite E. cbn. by rewrite lookup_alter_eq. Qed.

Lemma touch_row id f w : row (touch id f w).2 id = f <$> row w id.
Proof. unfold row. cbn. by rewrite lookup_alter_eq. Qed.

Section slots.
Context `{HS : S3} `{!S3Laws HS} `{Ffprobe} `{Ffmpeg} `{ImageTools} (cmd : ProccessAttachments.command).
Implicit Types (a : MessageAttachment.t).

(** the status a processed token ends with *)
Definition decided (failed : bool) : AttachmentStatus := if failed then ERROR else SUCCESS.

Definition has_status (w : upload_world) (id : UUID) (s : AttachmentStatus) : Prop :=
  ∀ x, row w id = Some x → MessageAttachment.attachment_status x = s.

Lemma marked_status id f w s :
  (∀ x, MessageAttachment.attachment_status (f x) = s) → has_status (touch id f w).2 id s.
Proof. intros Hf x. rewrite touch_row. intros (y & _ & ->)%fmap_Some. apply Hf. Qed.

Lemma mark_error_Ok id w b w' :
  (_ ← touch id MessageAttachment.mark_error; mret true : U bool) w = (Ok b, w') → b = true ∧ has_status w' id ERROR.
Proof. intros [= <- <-]. split; [done|]. by apply (marked_status id MessageAttachment.mark_error w). Qed.

(** deleting a pending object says nothing of rows nor of published objects *)
Lemma delete_pending_frame k w u w' :
  StorageService.suppress_storage (StorageService.delete_file chat_config.ATTACHMENT_BUCKET_PENDING k) w = (Ok u, w') →
  (∀ id, row w' id = row w id)
  ∧ ∀ key, no_puts chat_config.ATTACHMENT_BUCKET w → ¬ preview_prefix `prefix_of` key →
      uw_objects w' !! (chat_config.ATTACHMENT_BUCKET, key) = uw_objects w !! (chat_config.ATTACHMENT_BUCKET, key).
Proof.
  intros E. assert (∀ id key, handled id key w w') as Hh.
  { intros id key. pose proof (suppress_handles id key _ (delete_pending_handles id key k) w) as Hh. by rewrite E in Hh. }
  split.
  - intros id. apply (handled_row (id + 1) [] w w'); [apply Hh|lia].
  - intros key Hc Hp. apply (ha_objects _ _ _ _ (Hh 0 (0 :: key))); [done| |done].
    intros E'%(f_equal length). cbn in E'. lia.
Qed.

Lemma no_puts_handled bucket id key w w' : handled id key w w' → no_puts bucket w → no_puts bucket w'.
Proof. intros [_ [E _] _ _] Hc n kv. rewrite E. apply Hc. Qed.

Lemma attempt_Ok a w failed w' :
  ProccessAttachments.attempt cmd a w = (Ok failed, w') →
  has_status w' (MessageAttachment.id a) (decided failed)
  ∧ (failed = false → MessageAttachment.uploader_id a = ProccessAttachments.user_id cmd
     ∧ (no_puts chat_config.ATTACHMENT_BUCKET w → ¬ preview_prefix `prefix_of` MessageAttachment.s3_key a →
        ∃ data, admitted a data ∧ published a data w')).
Proof.
  intros (u1 & w1 & [Hu ->]%refuse_Ok & H4)%bind_Ok. apply bind_Ok in H4 as (stat & w1 & Hs & H4).
  destruct (get_stat_Ok _ _ _ _ _ Hs) as [data Hp]. pose proof Hp as [Hsize _].
  pose proof (get_stat_handles (MessageAttachment.id a) (MessageAttachment.s3_key a)
    chat_config.ATTACHMENT_BUCKET_PENDING (MessageAttachment.s3_key a) w) as Hh1. rewrite Hs in Hh1. cbn in Hh1.
  destruct (_ || _) eqn:Hsz; [by apply mark_error_Ok in H4 as [-> ?]|].
  apply bind_Ok in H4 as (head & w2 & Hd & H4).
  pose proof (download_range_handles (MessageAttachment.id a) (MessageAttachment.s3_key a)
    chat_config.ATTACHMENT_BUCKET_PENDING (MessageAttachment.s3_key a) 0 1024 (Some stat) w1) as Hh2.
  change (ProccessAttachments.MAGIC_HEADER_BYTES) with 1024 in Hd. rewrite Hd in Hh2. cbn in Hh2.
  apply (download_range_Ok _ data) in Hd as ->; [|done|done].
  destruct (negb (String.eqb _ _)) eqn:Hmime; [by apply mark_error_Ok in H4 as [-> ?]|].
  apply bind_Ok in H4 as (u2 & w3 & Hpr & H4). pose proof (promote_handles a stat w2) as Hh3. rewrite Hpr in Hh3. cbn in Hh3.
  apply bind_Ok in H4 as (u3 & w4 & Ht & H4). apply bind_Ok in H4 as (u4 & w5 & Hdel & [-> ->]%ret_Ok).
  destruct (delete_pending_frame _ _ _ _ Hdel) as [Hrow Hobj]. split.
  { intros x. rewrite Hrow. injection Ht as _ <-. by apply (marked_status _ MessageAttachment.mark_proccesed w3). }
  intros _. split; [by apply negb_false_iff, Z.eqb_eq in Hu|]. intros Hc Hk. exists data.
  apply orb_false_iff in Hsz as [?%Z.leb_gt ?%Z.ltb_ge]. rewrite Hsize in *.
  apply negb_false_iff, String.eqb_eq in Hmime. split; [split; [lia|done]|].
  apply (promote_Ok a stat data) in Hpr as (content & Hder & Hpub); [|done|intros ->; unfold len in *; cbn in *; lia].
  exists content. split; [done|]. rewrite Hobj; [by rewrite (touch_Ok _ _ _ _ _ Ht)| |done].
  assert (no_puts chat_config.ATTACHMENT_BUCKET w3) as Hc3
    by (eapply no_puts_handled; [exact Hh3|]; eapply no_puts_handled; [exact Hh2|]; by eapply no_puts_handled).
  by injection Ht as _ <-.
Qed.

Lemma process_slot_Ok a w :
  ∃ failed w', ProccessAttachments.process_slot cmd a w = (Ok failed, w')
  ∧ handled (MessageAttachment.id a) (MessageAttachment.s3_key a) w w'
  ∧ has_status w' (MessageAttachment.id a) (decided failed)
  ∧ (failed = false → MessageAttachment.uploader_id a = ProccessAttachments.user_id cmd
     ∧ (no_puts chat_config.ATTACHMENT_BUCKET w → ¬ preview_prefix `prefix_of` MessageAttachment.s3_key a →
        ∃ data, admitted a data ∧ published a data w')).
Proof.
  pose proof (process_slot_handles a cmd w) as Hh. unfold ProccessAttachments.process_slot, catch in *.
  destruct (ProccessAttachments.attempt cmd a w) as [[failed|e] w1] eqn:E.
  - exists failed, w1. split_and!; [done|exact Hh|by eapply attempt_Ok..].
  - exists true, (touch (MessageAttachment.id a) MessageAttachment.mark_error w1).2. split_and!; [done|exact Hh| |done].
    by apply marked_status.
Qed.

(** the tokens of [l] whose row ended with success *)
Definition succeeded (w : upload_world) (l : list MessageAttachment.t) : list text :=
  (λ a, str_uuid (MessageAttachment.id a)) <$>
    filter (λ a, MessageAttachment.attachment_status <$> row w (MessageAttachment.id a) = Some SUCCESS) l.

(** the keys under which the originals of [l] are published are their own *)
Definition separate (l : list MessageAttachment.t) : Prop :=
  NoDup (MessageAttachment.s3_key <$> l) ∧ ∀ a, a ∈ l → ¬ preview_prefix `prefix_of` MessageAttachment.s3_key a.

(** what the loop over [l] did *)
Record processed (l : list MessageAttachment.t) (w w' : upload_world) : Prop := {
  pr_chat : uw_chat w' = (uw_chat w) <| w_session ::= (λ s, s <| attachments := attachments (w_session (uw_chat w')) |>) |>;
  pr_clients : uw_puts w' = uw_puts w ∧ uw_faults w' = uw_faults w;
  pr_rest : uw_slots w' = uw_slots w ∧ uw_tasks w' = uw_tasks w ∧ uw_notices w' = uw_notices w;
  pr_others i : i ∉ MessageAttachment.id <$> l → row w' i = row w i;
  pr_decided a : a ∈ l → ∃ x y, row w (MessageAttachment.id a) = Some x ∧ row w' (MessageAttachment.id a) = Some y
    ∧ same_upload x y ∧ MessageAttachment.attachment_status y ≠ PENDING;
  pr_objects k : no_puts chat_config.ATTACHMENT_BUCKET w → k ∉ MessageAttachment.s3_key <$> l →
    ¬ preview_prefix `prefix_of` k →
    uw_objects w' !! (chat_config.ATTACHMENT_BUCKET, k) = uw_objects w !! (chat_config.ATTACHMENT_BUCKET, k);
  pr_success a : a ∈ l → MessageAttachment.attachment_status <$> row w' (MessageAttachment.id a) = Some SUCCESS →
    MessageAttachment.uploader_id a = ProccessAttachments.user_id cmd
    ∧ (no_puts chat_config.ATTACHMENT_BUCKET w → separate l → ∃ data, admitted a data ∧ published a data w');
}.

Lemma handled_chat id key w w' : handled id key w w' →
  uw_chat w' = (uw_chat w) <| w_session ::= (λ s, s <| attachments := attachments (w_session (uw_chat w')) |>) |>.
Proof. intros [(f & _ & E) _ _ _]. by rewrite E. Qed.

Lemma published_frame a data w w' :
  published a data w →
  uw_objects w' !! (chat_config.ATTACHMENT_BUCKET, MessageAttachment.s3_key a)
  = uw_objects w !! (chat_config.ATTACHMENT_BUCKET, MessageAttachment.s3_key a) →
  published a data w'.
Proof. intros (content & ? & Hk) E. exists content. by rewrite E. Qed.

Lemma process_slots_Ok l : ∀ w,
  NoDup (MessageAttachment.id <$> l) → (∀ a, a ∈ l → is_Some (row w (MessageAttachment.id a))) →
  ∃ w', ProccessAttachments.process_slots cmd l w = (Ok (succeeded w' l), w') ∧ processed l w w'.
Proof.
  induction l as [|a l IH]; intros w Hnd Hrows.
  { exists w. split; [done|]. split; try done; [|by intros a ?%not_elem_of_nil..].
    by rewrite (handled_chat 0 [] w w) at 1 by reflexivity. }
  cbn in Hnd. apply list.NoDup_cons in Hnd as [Ha Hnd].
  destruct (process_slot_Ok a w) as (failed & w1 & E1 & Hh & Hst & Hsucc).
  assert (∀ b, b ∈ l → row w1 (MessageAttachment.id b) = row w (MessageAttachment.id b)) as Hkeep.
  { intros b Hb. eapply handled_row; [exact Hh|]. intros E. apply Ha. rewrite <- E. by apply list_elem_of_fmap_2. }
  destruct (IH w1 Hnd) as (w2 & E2 & Hp).
  { intros b Hb. rewrite Hkeep by done. apply Hrows. by right. }
  destruct (handled_own _ _ _ _ Hh) as (f & Hf & Hown). destruct (Hrows a) as [x Hx]; [left|]. rewrite Hx in Hown. cbn in Hown.
  pose proof (pr_others _ _ _ Hp _ Ha) as Hrow2. rewrite Hown in Hrow2. pose proof (Hst _ Hown) as Hs.
  exists w2. split.
  - cbn [ProccessAttachments.process_slots]. unfold mbind, U_bind. rewrite E1, E2. unfold mret, U_ret. f_equal.
    unfold succeeded. rewrite filter_cons, Hrow2. cbn [fmap option_fmap option_map]. rewrite Hs.
    destruct failed; cbn [decided]; by case_decide.
  - destruct (ha_clients _ _ _ _ Hh) as [P1 F1]. destruct (pr_clients _ _ _ Hp) as [P2 F2].
    destruct (ha_rest _ _ _ _ Hh) as (S1 & T1 & N1). destruct (pr_rest _ _ _ Hp) as (S2 & T2 & N2).
    assert (no_puts chat_config.ATTACHMENT_BUCKET w → no_puts chat_config.ATTACHMENT_BUCKET w1) as Hc1
      by (by eapply no_puts_handled).
    split; [|split; congruence|split_and!; congruence|..].
    + rewrite (pr_chat _ _ _ Hp) at 1. by rewrite (handled_chat _ _ _ _ Hh).
    + intros i Hi. cbn in Hi. apply not_elem_of_cons in Hi as [Hne Hi]. rewrite (pr_others _ _ _ Hp i Hi).
      by eapply handled_row.
    + intros b [->|Hb]%elem_of_cons.
      * exists x, (f x). split_and!; [done|done|apply Hf|]. rewrite Hs. by destruct failed.
      * destruct (pr_decided _ _ _ Hp b Hb) as (y & z & Hy & ?). rewrite Hkeep in Hy by done. eauto.
    + intros k Hc Hk Hpre. cbn in Hk. apply not_elem_of_cons in Hk as [Hne Hk].
      rewrite (pr_objects _ _ _ Hp k (Hc1 Hc) Hk Hpre). by apply (ha_objects _ _ _ _ Hh).
    + intros b [->|Hb]%elem_of_cons Hstat.
      * rewrite Hrow2 in Hstat. injection Hstat as Hstat. rewrite Hs in Hstat. destruct failed; [done|].
        destruct (Hsucc eq_refl) as [? Hpub]. split; [done|]. intros Hc [Hnk Hnp]. cbn in Hnk. apply list.NoDup_cons in Hnk as [Hak _].
        destruct (Hpub Hc) as (data & ? & Hd); [apply Hnp; left|]. exists data. split; [done|].
        eapply published_frame; [exact Hd|]. apply (pr_objects _ _ _ Hp); [auto|done|apply Hnp; left].
      * destruct (pr_success _ _ _ Hp b Hb Hstat) as [? Hpub]. split; [done|]. intros Hc [Hnk Hnp]. cbn in Hnk.
        apply list.NoDup_cons in Hnk as [_ Hnk]. apply Hpub; [auto|]. split; [done|]. intros c Hcl. apply Hnp. by right.
Qed.
End slots.

(** ** Confirming a batch of uploads *)

(** every attachment is filed under its id *)
Definition attachments_filed (s : store) : Prop :=
  ∀ id a, attachments s !! id = Some a → MessageAttachment.id a = id.

(** the attachments named by a list of tokens, as they are loaded *)
Definition slots_of (s : store) (ids : list UUID) : list MessageAttachment.t :=
  merge_sort attachment_id_le (omap (λ i, attachments s !! i) (fromkeys ids)).

Lemma elem_of_slots s ids a : a ∈ slots_of s ids ↔ ∃ i, i ∈ ids ∧ attachments s !! i = Some a.
Proof.
  unfold slots_of. rewrite (merge_sort_Permutation attachment_id_le), list_elem_of_omap. setoid_rewrite elem_of_fromkeys. done.
Qed.

Lemma NoDup_slots s ids : attachments_filed s → NoDup (MessageAttachment.id <$> slots_of s ids).
Proof.
  intros Hf. unfold slots_of. rewrite (merge_sort_Permutation attachment_id_le).
  pose proof (NoDup_fromkeys ids) as Hnd. induction (fromkeys ids) as [|i l IH]; [constructor|].
  apply list.NoDup_cons in Hnd as [Hi Hnd]. cbn. destruct (attachments s !! i) as [a|] eqn:Ha; [|by apply IH].
  cbn. apply list.NoDup_cons. split; [|by apply IH]. rewrite (Hf _ _ Ha).
  intros (b & Hb & (j & Hj & Hjb)%list_elem_of_omap)%list_elem_of_fmap. apply Hi. by rewrite Hb, (Hf _ _ Hjb).
Qed.

(** a step that returned *)
Lemma bind_run {A B} (m : U A) (k : A → U B) w a w1 : m w = (Ok a, w1) → (m ≫= k) w = k a w1.
Proof. unfold mbind, U_bind. by intros ->. Qed.

Section confirmed.
Context `{HS : S3} `{!S3Laws HS} `{Ffprobe} `{Ffmpeg} `{ImageTools}.

(** what a confirmation does to the committed world *)
Definition confirms (cmd : ProccessAttachments.command) (ids : list UUID) (w w' : upload_world) : Prop :=
  let s := w_database (uw_chat w) in
  ∃ w1 : upload_world,
    processed cmd (slots_of s ids) (w <| uw_chat ::= (λ c, c <| w_session := w_database c |>) |>) w1
    ∧ uw_objects w' = uw_objects w1
    ∧ w_database (uw_chat w') = s <| attachments := attachments (w_session (uw_chat w1)) |>
    ∧ uw_notices w' = uw_notices w ++ match succeeded w1 (slots_of s ids) with
        | [] => []
        | tokens => [MkNotice (ProccessAttachments.user_id cmd) (ProccessAttachments.chat_id cmd) tokens]
        end.

Lemma confirm_run cmd ids w :
  attachments_filed (w_database (uw_chat w)) →
  ProccessAttachments.token_ids (ProccessAttachments.upload_tokens cmd) = Ok ids →
  ∃ w', run_upload (ProccessAttachments.handle cmd) w = (Ok tt, w') ∧ confirms cmd ids w w'.
Proof.
  intros Hf Hids. set (w0 := w <| uw_chat ::= (λ c, c <| w_session := w_database c |>) |>).
  assert (∀ a, a ∈ slots_of (w_database (uw_chat w)) ids → is_Some (row w0 (MessageAttachment.id a))) as Hrows.
  { intros a (i & _ & Ha)%elem_of_slots. exists a. unfold row. cbn. by rewrite (Hf _ _ Ha). }
  destruct (process_slots_Ok cmd _ w0 (NoDup_slots _ ids Hf) Hrows) as (w1 & E & Hp).
  assert (∀ t, ∃ w2, ProccessAttachments.notify cmd t (w1 <| uw_chat ::= (λ c, c <| w_database := w_session c |>) |>) = (Ok tt, w2)
    ∧ uw_objects w2 = uw_objects w1 ∧ uw_chat w2 = (uw_chat w1) <| w_database := w_session (uw_chat w1) |>
    ∧ uw_notices w2 = uw_notices w1 ++ match t with [] => []
       | tokens => [MkNotice (ProccessAttachments.user_id cmd) (ProccessAttachments.chat_id cmd) tokens] end) as Hn.
  { intros [|t l]; eexists; (split; [reflexivity|]); cbn; by rewrite ?app_nil_r. }
  destruct (Hn (succeeded w1 (slots_of (w_database (uw_chat w)) ids))) as (w2 & E2 & Ho & Hc & Hnt).
  exists (w2 <| uw_chat ::= (λ c, c <| w_session := w_database c |>) |>). split.
  - assert (ProccessAttachments.handle cmd w0 = (Ok tt, w2)) as Er.
    { unfold ProccessAttachments.handle. rewrite (bind_run _ _ w0 ids w0) by (unfold ulift; by rewrite Hids).
      rewrite (bind_run _ _ w0 (slots_of (w_database (uw_chat w)) ids) w0) by done. rewrite (bind_run _ _ _ _ _ E).
      rewrite (bind_run _ _ _ tt (w1 <| uw_chat ::= (λ c, c <| w_database := w_session c |>) |>)) by done. exact E2. }
    unfold run_upload. fold w0. by rewrite Er.
  - exists w1. split; [exact Hp|]. destruct (pr_rest _ _ _ _ Hp) as (_ & _ & N). cbn in N. split_and!.
    + exact Ho.
    + cbn. rewrite Hc. cbn. by rewrite (pr_chat _ _ _ _ Hp).
    + rewrite <- N. etrans; [exact Hnt|]. by destruct (succeeded _ _).
Qed.
End confirmed.

(** ** Claims on attachments *)
Section attachment_claims.
Context `{HS : S3} `{!S3Laws HS} `{Ffprobe} `{Ffmpeg} `{ImageTools}.

Lemma not_in_slots s ids i : attachments_filed s → i ∉ ids → i ∉ MessageAttachment.id <$> slots_of s ids.
Proof. intros Hf Hi (a & -> & (j & Hj & Ha)%elem_of_slots)%list_elem_of_fmap. apply Hi. by rewrite (Hf _ _ Ha). Qed.

(** C20: A batch of confirmed uploads is decided whatever happens to the storage,
    the tools or the files: the handler returns, every attachment named by a
    token ends as succeeded or failed and keeps its identity, nothing else in
    the tables changes, and the user is told of exactly those that succeeded. *)
Theorem confirmed_decided cmd ids w :
  attachments_filed (w_database (uw_chat w)) →
  ProccessAttachments.token_ids (ProccessAttachments.upload_tokens cmd) = Ok ids →
  let '(r, w') := run_upload (ProccessAttachments.handle cmd) w in
  let s := w_database (uw_chat w) in
  let s' := w_database (uw_chat w') in
  r = Ok tt ∧ s' = s <| attachments := attachments s' |>
  ∧ (∀ id, id ∉ ids → attachments s' !! id = attachments s !! id)
  ∧ (∀ id a, id ∈ ids → attachments s !! id = Some a → ∃ a', attachments s' !! id = Some a'
       ∧ same_upload a a' ∧ MessageAttachment.attachment_status a' ≠ PENDING)
  ∧ ∃ told, uw_notices w' = uw_notices w ++
        match told with
        | [] => []
        | _ => [MkNotice (ProccessAttachments.user_id cmd) (ProccessAttachments.chat_id cmd) told]
        end
      ∧ ∀ t, t ∈ told ↔ ∃ id, id ∈ ids ∧ t = str_uuid id
          ∧ MessageAttachment.attachment_status <$> attachments s' !! id = Some SUCCESS.
Proof.
  intros Hf Hids. destruct (confirm_run cmd ids w Hf Hids) as (w' & -> & w1 & Hp & _ & Hdb & Hn). cbv zeta.
  assert (∀ i, attachments (w_database (uw_chat w')) !! i = row w1 i) as Hrow by (intros i; by rewrite Hdb).
  split_and!; [done|by rewrite Hdb| | |].
  - intros id Hid. rewrite Hrow. apply (pr_others _ _ _ _ Hp). by apply not_in_slots.
  - intros id a Hid Ha. destruct (pr_decided _ _ _ _ Hp a) as (x & y & Hx & Hy & ?).
    { apply elem_of_slots. eauto. }
    rewrite (Hf _ _ Ha) in Hx, Hy. unfold row in Hx. cbn in Hx. rewrite Ha in Hx. injection Hx as <-.
    exists y. by rewrite Hrow.
  - exists (succeeded w1 (slots_of (w_database (uw_chat w)) ids)). split; [by rewrite Hn; destruct (succeeded _ _)|].
    intros t. unfold succeeded. rewrite list_elem_of_fmap. split.
    + intros (a & -> & [Hst (i & Hi & Ha)%elem_of_slots]%list_elem_of_filter). exists i. rewrite (Hf _ _ Ha) in *.
      by rewrite Hrow.
    + intros (i & Hi & -> & Hst). rewrite Hrow in Hst.
      destruct (attachments (w_database (uw_chat w)) !! i) as [a|] eqn:Ha.
      * exists a. rewrite (Hf _ _ Ha). split; [done|]. apply list_elem_of_filter. rewrite (Hf _ _ Ha). split; [done|].
        apply elem_of_slots. eauto.
      * exfalso. rewrite (pr_others _ _ _ _ Hp i) in Hst.
        -- unfold row in Hst. cbn in Hst. by rewrite Ha in Hst.
        -- intros (b & -> & (j & Hj & Hb)%elem_of_slots)%list_elem_of_fmap. rewrite (Hf _ _ Hb) in Ha. congruence.
Qed.

(** C19: No client can slip other bytes past the checks: whatever clients put
    into the pending buckets between any two requests, an attachment that ends
    as succeeded was uploaded by the user who confirms it, and the object under
    its key is what the checks admitted - the same bytes for a file, a voice
    message or a clip that the probe accepted, the sanitised photo or the
    remuxed video otherwise. *)
Theorem published_as_checked cmd ids w :
  attachments_filed (w_database (uw_chat w)) → no_puts chat_config.ATTACHMENT_BUCKET w →
  separate (slots_of (w_database (uw_chat w)) ids) →
  ProccessAttachments.token_ids (ProccessAttachments.upload_tokens cmd) = Ok ids →
  let w' := (run_upload (ProccessAttachments.handle cmd) w).2 in
  ∀ id a a', id ∈ ids → attachments (w_database (uw_chat w)) !! id = Some a →
    attachments (w_database (uw_chat w')) !! id = Some a' → MessageAttachment.attachment_status a' = SUCCESS →
    MessageAttachment.uploader_id a = ProccessAttachments.user_id cmd
    ∧ ∃ data, admitted a data ∧ published a data w'.
Proof.
  intros Hf Hc Hsep Hids. destruct (confirm_run cmd ids w Hf Hids) as (w' & -> & w1 & Hp & Ho & Hdb & _). cbn [snd].
  intros id a a' Hid Ha Ha' Hst. destruct (pr_success _ _ _ _ Hp a) as [Hu Hpub].
  - apply elem_of_slots. eauto.
  - rewrite Hdb in Ha'. cbn in Ha'. unfold row. by rewrite (Hf _ _ Ha), Ha', <- Hst.
  - split; [done|]. destruct (Hpub Hc Hsep) as (data & ? & Hd). exists data. split; [done|].
    eapply published_frame; [exact Hd|]. by rewrite Ho.
Qed.
End attachment_claims.

(** ** What a plan accepts *)

Lemma count_kind_types m kinds :
  Message.count_kind m kinds
  = RequestAttachmentUpload.count_of (MessageAttachment.attachment_type <$> Message.attachments m) kinds.
Proof.
  unfold Message.count_kind, RequestAttachmentUpload.count_of, len. f_equal.
  induction (Message.attachments m) as [|a l IH]; [done|]. rewrite fmap_cons, !filter_cons.
  repeat case_decide; try done. cbn. by rewrite IH.
Qed.

Lemma count_of_app types k1 k2 :
  (∀ t, t ∈ k1 → t ∉ k2) →
  RequestAttachmentUpload.count_of types (k1 ++ k2)
  = RequestAttachmentUpload.count_of types k1 + RequestAttachmentUpload.count_of types k2.
Proof.
  intros Hd. unfold RequestAttachmentUpload.count_of, len. induction types as [|t l IH]; [done|].
  rewrite !filter_cons. pose proof (Hd t). repeat case_decide; rewrite ?length_cons; try lia; set_solver.
Qed.

Lemma count_of_elem types t : t ∈ types ↔ 0 < RequestAttachmentUpload.count_of types [t].
Proof.
  unfold RequestAttachmentUpload.count_of, len. induction types as [|x l IH].
  - cbn. split; [by intros ?%not_elem_of_nil|lia].
  - rewrite elem_of_cons, IH, filter_cons. case_decide as E; rewrite list_elem_of_singleton in E.
    + subst. rewrite length_cons. split; [lia|auto].
    + split; [by intros [->|]|auto].
Qed.

Lemma count_of_nonneg types kinds : 0 ≤ RequestAttachmentUpload.count_of types kinds.
Proof. unfold RequestAttachmentUpload.count_of, len. lia. Qed.

(** C23: A plan of uploads is accepted exactly when a message could carry the
    files: for files acceptable one by one, the limits the request is held to
    are those a message of these attachments, once they are processed, is held
    to when it is sent. *)
Theorem plan_fits_message uploads types m :
  uploads ≠ [] → mapM RequestAttachmentUpload.accepted_type uploads = Ok types →
  MessageAttachment.attachment_type <$> Message.attachments m = types →
  Forall (λ a, MessageAttachment.attachment_status a = SUCCESS) (Message.attachments m) →
  Message.type m = for_attachments (Message.attachments m) →
  RequestAttachmentUpload.plan uploads = Ok types ↔ Message.validate_attachments m = Ok tt.
Proof.
  intros Hne Hacc Hty Hs Hm. unfold RequestAttachmentUpload.plan. rewrite bool_decide_false by done.
  cbn [raise_if mbind result_bind]. rewrite Hacc. cbn [mbind result_bind]. unfold Message.validate_attachments. cbv zeta.
  rewrite !count_kind_types, Hty. change [ATT_VOICE; ATT_VIDEO_NOTE] with ([ATT_VOICE] ++ [ATT_VIDEO_NOTE]).
  rewrite count_of_app by set_solver.
  pose proof (count_of_nonneg types). pose proof (count_of_elem types ATT_VOICE) as Hvoice.
  pose proof (count_of_elem types ATT_VIDEO_NOTE) as Hnote.
  set (c := RequestAttachmentUpload.count_of types) in *. unfold raise_if.
  destruct (_ <? c [ATT_IMAGE; ATT_VIDEO]); [by split|]. cbn [mbind result_bind].
  destruct (_ <? c [ATT_FILE]); [by split|]. cbn [mbind result_bind].
  destruct (1 <? c [ATT_VOICE] + c [ATT_VIDEO_NOTE]) eqn:H1; [by split|]. cbn [mbind result_bind].
  destruct (negb (_ =? 0) && _); [by split|]. cbn [mbind result_bind].
  assert (Message.type m = if bool_decide (ATT_VOICE ∈ types) then VOICE
    else if bool_decide (ATT_VIDEO_NOTE ∈ types) then VIDEO_NOTE else Message.type m) as Ht.
  { rewrite Hm. unfold for_attachments. rewrite Hty. by repeat case_bool_decide. }
  assert (¬ (ATT_VOICE ∈ types) → ¬ (ATT_VIDEO_NOTE ∈ types) → Message.type m ≠ VOICE ∧ Message.type m ≠ VIDEO_NOTE) as Hplain.
  { intros ??. rewrite Hm. unfold for_attachments. rewrite Hty. repeat case_bool_decide; done. }
  assert (forallb MessageAttachment.is_success (Message.attachments m) = true) as ->.
  { apply forallb_forall. intros a Ha%list_elem_of_In. rewrite list.Forall_forall in Hs.
    unfold MessageAttachment.is_success. by rewrite (bool_decide_true _ (Hs a Ha)). }
  apply Z.ltb_ge in H1. pose proof (H [ATT_VOICE]). pose proof (H [ATT_VIDEO_NOTE]). split; [intros _|done].
  destruct (decide (ATT_VOICE ∈ types)) as [Hv|Hv].
  - rewrite bool_decide_true in Ht by done. rewrite Ht. apply Hvoice in Hv.
    replace (c [ATT_VOICE]) with 1 by lia. cbn. by rewrite andb_false_r.
  - rewrite (bool_decide_false _ Hv) in Ht. destruct (decide (ATT_VIDEO_NOTE ∈ types)) as [Hn|Hn].
    + rewrite bool_decide_true in Ht by done. rewrite Ht. apply Hnote in Hn.
      replace (c [ATT_VIDEO_NOTE]) with 1 by lia. cbn. by rewrite andb_false_r.
    + destruct (Hplain Hv Hn). replace (c [ATT_VOICE]) with 0 by (rewrite Hvoice in Hv; lia).
      replace (c [ATT_VIDEO_NOTE]) with 0 by (rewrite Hnote in Hn; lia). 
      rewrite (bool_decide_false (_ = VOICE)), (bool_decide_false (_ = VIDEO_NOTE)) by done. done.
Qed.

(** ** Chat avatars *)

(** computations over the storage and the tools only *)
Class StorageOnly {A} (m : U A) : Prop := storage_only w :
  uw_chat (m w).2 = uw_chat w ∧ uw_slots (m w).2 = uw_slots w ∧ uw_puts (m w).2 = uw_puts w.

Section storage_only.
Context {A B : Type}.

#[export] Instance ret_so (a : A) : StorageOnly (mret a).
Proof. by intros w. Qed.
#[export] Instance raise_so e : StorageOnly (uraise (A := A) e).
Proof. by intros w. Qed.
#[export] Instance bind_so (m : U A) (k : A → U B) :
  StorageOnly m → (∀ a, StorageOnly (k a)) → StorageOnly (m ≫= k).
Proof.
  intros Hm Hk w. destruct (Hm w) as (E1 & E2 & E3). unfold mbind, U_bind. destruct (m w) as [[a|e] w1]; [|done].
  cbn in *. destruct (Hk a w1) as (F1 & F2 & F3). split_and!; congruence.
Qed.
#[export] Instance catch_so (m : U A) h : StorageOnly m → (∀ e, StorageOnly (h e)) → StorageOnly (catch m h).
Proof.
  intros Hm Hh w. destruct (Hm w) as (E1 & E2 & E3). unfold catch. destruct (m w) as [[a|e] w1]; [done|].
  cbn in *. destruct (Hh e w1) as (F1 & F2 & F3). split_and!; congruence.
Qed.
#[export] Instance request_so (op : objects → result string A * objects) : StorageOnly (request op).
Proof. intros w. unfold request. cbv zeta. case_match; [done|]. by destruct (op _). Qed.
End storage_only.
#[export] Instance fmap_so {A B} (f : A → B) (m : U A) : StorageOnly m → StorageOnly (f <$> m).
Proof. intros H. change (StorageOnly (a ← m; mret (f a))). apply _. Qed.

Section avatar_storage.
Context `{HS : S3} `{HI : ImageTools}.

#[export] Instance translated_so {A} b k (m : U A) : StorageOnly m → StorageOnly (StorageService.translated b k m).
Proof. unfold StorageService.translated. apply _. Qed.
#[export] Instance get_stat_so b k : StorageOnly (StorageService.get_stat b k).
Proof. unfold StorageService.get_stat. apply _. Qed.
#[export] Instance download_bytes_so b k n s : StorageOnly (StorageService.download_bytes b k n s).
Proof. unfold StorageService.download_bytes. apply bind_so; [apply _|]. intros d. case_match; apply _. Qed.
#[export] Instance upload_file_so b k c : StorageOnly (StorageService.upload_file b k c).
Proof. unfold StorageService.upload_file. case_match; apply _. Qed.
#[export] Instance delete_file_so b k : StorageOnly (StorageService.delete_file b k).
Proof. unfold StorageService.delete_file. apply _. Qed.
#[export] Instance suppress_so m : StorageOnly m → StorageOnly (StorageService.suppress_storage m).
Proof. intros Hm. apply catch_so; [done|]. intros e. case_match; apply _. Qed.
#[export] Instance gather_so {A} (l : list (U A)) : Forall StorageOnly l → StorageOnly (gather l).
Proof.
  induction 1 as [|m l Hm _ IH]; [apply ret_so|]. intros w. cbn. destruct (Hm w) as (E1 & E2 & E3).
  destruct (m w) as [r w1]. cbn in *. destruct (IH w1) as (F1 & F2 & F3). destruct (gather l w1) as [rs w2].
  cbn in *. split_and!; congruence.
Qed.
#[export] Instance run_each_so {A} (l : list A) f : (∀ x, StorageOnly (f x)) → StorageOnly (run_each l f).
Proof. intros Hf. induction l as [|x l IH]; cbn; apply _. Qed.

#[export] Instance load_so slot : StorageOnly (ChatAvatarService.load_validated slot).
Proof.
  unfold ChatAvatarService.load_validated, ChatAvatarService.refused. apply bind_so; [apply _|intros stat].
  case_match; [apply _|]. apply bind_so; [apply _|intros d]. case_match; apply _.
Qed.
#[export] Instance render_so d : StorageOnly (ChatAvatarService._render d).
Proof. unfold ChatAvatarService._render, ChatAvatarService.refused. repeat case_match; apply _. Qed.
#[export] Instance prepare_so slot : StorageOnly (ProcessChatAvatar.prepare slot).
Proof. unfold ProcessChatAvatar.prepare. apply catch_so; [apply _|]. intros e. case_match; apply _. Qed.
#[export] Instance upload_variants_so c v l : StorageOnly (ChatAvatarService.upload_variants c v l).
Proof.
  apply bind_so; [|apply _]. apply gather_so, list.Forall_forall. intros m (i & -> & _)%list_elem_of_fmap. apply _.
Qed.
#[export] Instance delete_variants_so a : StorageOnly (ChatAvatarService.delete_variants a).
Proof. unfold ChatAvatarService.delete_variants. apply _. Qed.
#[export] Instance drop_pending_so slot : StorageOnly (ChatAvatarService.drop_pending slot).
Proof. unfold ChatAvatarService.drop_pending. apply _. Qed.

Lemma translate_storage code b k : StorageService.is_storage_error (StorageService._translate code b k) = true.
Proof. unfold StorageService._translate. by repeat case_match. Qed.

(** Deleting never fails, and removes no other object of the bucket. *)
Lemma suppress_delete bucket b k w :
  no_puts bucket w →
  ∃ w', StorageService.suppress_storage (StorageService.delete_file b k) w = (Ok tt, w')
  ∧ ∀ k', (b, k) ≠ (bucket, k') → uw_objects w' !! (bucket, k') = uw_objects w !! (bucket, k').
Proof.
  intros Hc. unfold StorageService.suppress_storage, StorageService.delete_file, StorageService.translated, catch, request.
  cbn -[StorageService.is_storage_error StorageService._translate].
  destruct (uw_faults w (uw_requests w)) as [code|]; cbn -[StorageService.is_storage_error StorageService._translate].
  - rewrite translate_storage. eexists. split; [done|]. intros k' _. cbn. apply puts_elsewhere, Hc.
  - eexists. split; [done|]. intros k' Hne. cbn. rewrite lookup_delete_ne by done. apply puts_elsewhere, Hc.
Qed.

Lemma delete_all bucket keys : ∀ w,
  no_puts bucket w →
  ∃ w', run_each keys (λ key, StorageService.suppress_storage (StorageService.delete_file bucket key)) w = (Ok tt, w')
  ∧ ∀ k', k' ∉ keys → uw_objects w' !! (bucket, k') = uw_objects w !! (bucket, k').
Proof.
  induction keys as [|k keys IH]; intros w Hc; [by exists w|].
  destruct (suppress_delete bucket bucket k w Hc) as (w1 & E1 & H1).
  destruct (IH w1) as (w2 & E2 & H2).
  { destruct (suppress_so _ (delete_file_so bucket k) w) as (_ & _ & Ep). rewrite E1 in Ep. cbn in Ep.
    intros n kv. rewrite Ep. apply Hc. }
  exists w2. cbn. rewrite (bind_run _ _ _ _ _ E1). split; [done|]. intros k' [Hne Hk]%not_elem_of_cons.
  rewrite H2 by done. apply H1. congruence.
Qed.

Lemma request_at {A} (op : objects → result string A * objects) w a w' :
  request op w = (Ok a, w') → op (foldl put_object (uw_objects w) (uw_puts w (uw_requests w))) = (Ok a, uw_objects w').
Proof.
  unfold request. cbn. destruct (uw_faults w _); [done|]. destruct (op _) as [[x|code] o'] eqn:E; [|done].
  by intros [= <- <-].
Qed.

(** Uploads under keys of their own, all there when they have succeeded. *)
Lemma gather_uploads bucket policy (items : list (text * bytes)) : ∀ w urls w',
  policy_of bucket = Some policy → no_puts bucket w → NoDup items.*1 →
  gather ((λ i, StorageService.upload_file bucket i.1 i.2) <$> items) w = (Ok urls, w') →
  urls = (λ i, match policy with POLICY_NONE => i.1 | POLICY_GET => StorageService.get_public_url_object bucket i.1 end) <$> items
  ∧ (∀ i, i ∈ items → uw_objects w' !! (bucket, i.1) = Some i.2)
  ∧ (∀ k, k ∉ items.*1 → uw_objects w' !! (bucket, k) = uw_objects w !! (bucket, k)).
Proof.
  induction items as [|[k c] items IH]; intros w urls w' Hpol Hc Hnd.
  { intros [= <- <-]. split_and!; [done|by intros i ?%not_elem_of_nil|done]. }
  cbn in Hnd. apply list.NoDup_cons in Hnd as [Hk Hnd]. cbn [fmap list_fmap gather].
  cbn [fst snd]. destruct (StorageService.upload_file bucket k c w) as [r w1] eqn:E1.
  destruct (gather _ w1) as [rs w2] eqn:E2. intros [= Er ->].
  destruct r as [u|]; [|done]. destruct rs as [us|]; [|done]. injection Er as <-.
  destruct (upload_file_so bucket k c w) as (_ & _ & Ep). rewrite E1 in Ep. cbn in Ep.
  apply IH in E2 as (-> & Hin & Hout); [|done|intros n kv; rewrite Ep; apply Hc|done].
  pose proof (upload_file_Ok _ _ _ _ _ _ E1) as [Hobj Hu]. rewrite Hpol in Hu. split_and!.
  - rewrite Hu. cbn. by destruct policy.
  - intros i [->|Hi]%elem_of_cons; [cbn; by rewrite Hout|by apply Hin].
  - intros k' [Hne Hk']%not_elem_of_cons. rewrite Hout by done.
    unfold StorageService.upload_file in E1. rewrite Hpol in E1. apply bind_Ok in E1 as ([] & w3 & E1 & [_ ->]%ret_Ok).
    apply catch_raise_Ok, request_at in E1. injection E1 as <-. rewrite lookup_insert_ne by (cbn in Hne; congruence). apply puts_elsewhere, Hc.
Qed.
End avatar_storage.

(** *** The renditions of an avatar *)

(** the sizes and formats of the configuration, in the order of the loops *)
Definition avatar_kinds : list (Z * string) :=
  size ← chat_config.CHAT_AVATAR_SIZES; (λ fmt, (size, fmt)) <$> chat_config.CHAT_AVATAR_FORMATS.
Definition kind_of (i : ChatAvatarService.RenderedAvatar) : Z * string :=
  (ChatAvatarService.ra_size i, ChatAvatarService.ra_fmt i).

Definition variant_url `{S3} (chat_id version : UUID) (i : ChatAvatarService.RenderedAvatar) : text :=
  StorageService.get_public_url_object chat_config.CHAT_AVATAR_BUCKET (ChatAvatarService.variant_key chat_id version i).

(** [avatars[size][fmt]] *)
Definition avatar_url (avatars : Avatars) (i : ChatAvatarService.RenderedAvatar) : option text :=
  text_get (str_int (ChatAvatarService.ra_size i)) avatars ≫= text_get (u8 (ChatAvatarService.ra_fmt i)).

Lemma render_size_kinds `{ImageTools} image size l :
  ChatAvatarService.render_size image size = Some l →
  kind_of <$> l = (λ fmt, (size, fmt)) <$> chat_config.CHAT_AVATAR_FORMATS.
Proof.
  unfold ChatAvatarService.render_size. intros (thumb & _ & Hm)%bind_Some.
  revert l Hm. induction chat_config.CHAT_AVATAR_FORMATS as [|fmt fmts IH]; intros l; cbn; [by intros [= <-]|].
  intros (i & (c & _ & ->)%fmap_Some & Hm)%bind_Some. apply bind_Some in Hm as (k & Hk & [= <-]).
  cbn. f_equal. by apply IH.
Qed.

Lemma rendered_kinds `{ImageTools} data w rendered w' :
  ChatAvatarService._render data w = (Ok rendered, w') → kind_of <$> rendered = avatar_kinds.
Proof.
  unfold ChatAvatarService._render. destruct (new_from_file data) as [image|]; [|done]. destruct (_ || _); [done|].
  destruct (mapM _ _) as [l|] eqn:E; [|done]. intros [-> _]%ret_Ok. unfold avatar_kinds.
  revert l E. induction chat_config.CHAT_AVATAR_SIZES as [|size sizes IH]; intros l Hm; cbn in Hm; [by injection Hm as <-|].
  apply bind_Some in Hm as (k & Hk & Hm). apply bind_Some in Hm as (ks & Hks & [= <-]).
  cbn [concat]. rewrite bind_cons, fmap_app.
  apply (f_equal2 app); [by eapply render_size_kinds|by apply IH].
Qed.

Ltac expose_kinds :=
  repeat match goal with
  | H : kind_of <$> ?l = _ :: _ |- _ =>
    let i := fresh "i" in destruct l as [|i l]; [done|]; destruct i as [? ? ?]; cbn in H; injection H as -> -> H
  | H : kind_of <$> ?l = [] |- _ => destruct l; [clear H|done]
  end.

Lemma variants_complete items (url : ChatAvatarService.RenderedAvatar → text) :
  kind_of <$> items = avatar_kinds →
  ∀ i, i ∈ items → avatar_url (foldl ChatAvatarService.add_variant [] (zip items (url <$> items))) i = Some (url i).
Proof.
  intros Hk. unfold avatar_kinds in Hk. cbn in Hk. expose_kinds.
  apply list.Forall_forall. repeat constructor; cbn [fmap list_fmap zip zip_with foldl];
    repeat match goal with |- context [url ?x] => generalize (url x); intros ? end; vm_compute; reflexivity.
Qed.

Lemma variant_keys_distinct chat_id version items :
  kind_of <$> items = avatar_kinds → NoDup (ChatAvatarService.variant_key chat_id version <$> items).
Proof.
  intros Hk. set (tail := λ k : Z * string, str_int k.1 ++ u8 "." ++ u8 k.2).
  assert (ChatAvatarService.variant_key chat_id version <$> items
    = app (str_uuid chat_id ++ u8 "/" ++ str_uuid version ++ u8 "/") <$> (tail <$> avatar_kinds)) as ->.
  { rewrite <- Hk, <- !list_fmap_compose. apply list_fmap_ext. intros ? i _. unfold ChatAvatarService.variant_key. cbn.
    unfold tail. cbn. by rewrite <- !app_assoc. }
  apply (NoDup_fmap_2 _). apply (bool_decide_unpack _). vm_compute. exact I.
Qed.

Section avatar_claims.
Context `{HS : S3} `{!S3Laws HS} `{HI : ImageTools}.

(** a gallery of renditions, all of them in the public bucket *)
Definition displayed (chat_id version : UUID) (rendered : list ChatAvatarService.RenderedAvatar) (avatars : Avatars)
  (w : upload_world) : Prop :=
  kind_of <$> rendered = avatar_kinds ∧ ∀ i, i ∈ rendered →
    avatar_url avatars i = Some (variant_url chat_id version i)
    ∧ uw_objects w !! (chat_config.CHAT_AVATAR_BUCKET, ChatAvatarService.variant_key chat_id version i)
      = Some (ChatAvatarService.ra_content i).

Lemma upload_variants_Ok chat_id version rendered w avatars w' :
  no_puts chat_config.CHAT_AVATAR_BUCKET w → kind_of <$> rendered = avatar_kinds →
  ChatAvatarService.upload_variants chat_id version rendered w = (Ok avatars, w') →
  displayed chat_id version rendered avatars w'.
Proof.
  intros Hc Hk (urls & w1 & Hg & [-> ->]%ret_Ok)%bind_Ok.
  set (items := (λ i, (ChatAvatarService.variant_key chat_id version i, ChatAvatarService.ra_content i)) <$> rendered).
  assert (items.*1 = ChatAvatarService.variant_key chat_id version <$> rendered) as Hfst
    by (unfold items; by rewrite <- list_fmap_compose).
  assert ((λ i, StorageService.upload_file chat_config.CHAT_AVATAR_BUCKET i.1 i.2) <$> items
    = (λ item, StorageService.upload_file chat_config.CHAT_AVATAR_BUCKET
         (ChatAvatarService.variant_key chat_id version item) (ChatAvatarService.ra_content item)) <$> rendered) as Hm
    by (unfold items; by rewrite <- list_fmap_compose).
  rewrite <- Hm in Hg. apply (gather_uploads _ POLICY_GET) in Hg as (-> & Hin & _); [|done|done|].
  2: { rewrite Hfst. by apply variant_keys_distinct. }
  split; [done|]. intros i Hi. split.
  - unfold items. rewrite <- list_fmap_compose. by apply (variants_complete rendered (variant_url chat_id version)).
  - apply (Hin (ChatAvatarService.variant_key chat_id version i, ChatAvatarService.ra_content i)).
    unfold items. by apply (list_elem_of_fmap_2 (λ i, (ChatAvatarService.variant_key chat_id version i, ChatAvatarService.ra_content i))).
Qed.

Lemma uwp_so {A} (m : U A) `{!StorageOnly m} w (Q : result upload_error A → upload_world → Prop) :
  (∀ r w', m w = (r, w') → uw_chat w' = uw_chat w → uw_slots w' = uw_slots w → uw_puts w' = uw_puts w → Q r w') →
  uwp m w Q.
Proof.
  intros HQ. destruct (storage_only (m := m) w) as (E1 & E2 & E3). unfold uwp. destruct (m w) as [r w']. by apply HQ.
Qed.

Lemma uwp_in_chat {A} (m : M A) w (Q : result upload_error A → upload_world → Prop) :
  wp m (uw_chat w) (λ r c, Q match r with Ok a => Ok a | Err e => Err (ChatError e) end (w <| uw_chat := c |>)) →
  uwp (in_chat m) w Q.
Proof. unfold wp, uwp, in_chat. by destruct (m (uw_chat w)). Qed.

(** the tables after a chat was rewritten and its events were published *)
Definition rewritten (ids : nat → UUID) (c : Chat.t) (s : store) : store :=
  (with_events ids (Chat.events c) s) <| chats ::= <[Chat.id c := chat_row c]> |>.

Lemma wp_save_chat c w (Q : result error unit → world → Prop) :
  (∀ ids w', w_database w' = rewritten ids c (w_session w) → w_session w' = w_database w' → Q (Ok tt) w') →
  (∀ e w', w_database w' = w_database w → Q (Err e) w') →
  wp (_ ← publish_chat c; _ ← flush_chat c; commit) w Q.
Proof.
  intros HOk HE. apply wp_bind, wp_publish. intros ids n. apply wp_bind, wp_flush_chat; [intros _|by apply HE].
  apply wp_commit. by apply (HOk ids).
Qed.

(** what of a slot makes it usable by a command *)
Definition usable (w : upload_world) (cmd : ProcessChatAvatar.command) (slot : ChatAvatarUploadSlot.t) : Prop :=
  (∃ expires, uw_slots w !! ProcessChatAvatar.upload_token cmd = Some (slot, expires)
     ∧ w_clock (uw_chat w) (w_ticks (uw_chat w)) < expires)
  ∧ ChatAvatarUploadSlot.chat_id slot = ProcessChatAvatar.chat_id cmd
  ∧ ChatAvatarUploadSlot.uploader_id slot = ProcessChatAvatar.user_id cmd.

(** the bytes of a photo within the limits of its slot, and their renditions *)
Definition accepted_photo (slot : ChatAvatarUploadSlot.t) (rendered : list ChatAvatarService.RenderedAvatar) : Prop :=
  ∃ data w w', 0 < len data ≤ Z.min (ChatAvatarUploadSlot.file_size slot) chat_config.CHAT_AVATAR_MAX_SIZE
    ∧ from_buffer (take (Z.to_nat 2048) data) ∈ chat_config.CHAT_AVATAR_ALLOWED_MIMES
    ∧ ChatAvatarService._render data w = (Ok rendered, w').

Lemma prepare_Ok slot w rendered w' :
  ProcessChatAvatar.prepare slot w = (Ok (Some rendered), w') →
  accepted_photo slot rendered ∧ kind_of <$> rendered = avatar_kinds.
Proof.
  intros [H|(e & w1 & _ & H)]%catch_Ok; [|by case_match].
  apply bind_Ok in H as (data & w1 & Hl & H). apply fmap_Ok in H as (x & Hr & [= <-]).
  split; [|by eapply rendered_kinds]. exists data, w1, w'. 
  apply bind_Ok in Hl as (stat & w2 & Hs & Hl). destruct (get_stat_Ok _ _ _ _ _ Hs) as [d Hp]. pose proof Hp as [Hsize _].
  cbv zeta in Hl. destruct (_ || _) eqn:Hsz; [done|]. apply orb_false_iff in Hsz as [?%Z.leb_gt ?%Z.ltb_ge].
  apply bind_Ok in Hl as (d' & w3 & Hd & Hl). apply (download_bytes_Ok _ d) in Hd as [-> _]; [|done].
  case_bool_decide as Hm; [|done]. apply ret_Ok in Hl as [-> _]. rewrite Hsize in *. done.
Qed.

(** The outcome of the processing of a confirmed photo. *)
Definition avatar_outcome (cmd : ProcessChatAvatar.command) (w w' : upload_world) : Prop :=
  let s := w_database (uw_chat w) in
  let s' := w_database (uw_chat w') in
  uw_slots w' !! ProcessChatAvatar.upload_token cmd = None
  ∧ (s' = s ∨ ∃ slot chat rendered avatars ids,
       usable w cmd slot ∧ accepted_photo slot rendered
       ∧ chats s !! ProcessChatAvatar.chat_id cmd = Some chat ∧ Chat.is_deleted chat = false ∧ Chat.type chat ≠ DIRECT
       ∧ s' = rewritten ids (update_avatar chat (ProcessChatAvatar.user_id cmd) avatars) s
       ∧ displayed (ProcessChatAvatar.chat_id cmd) (ChatAvatarUploadSlot.upload_token slot) rendered avatars w').

(** no rendition of this version is on display yet *)
Definition fresh_version (chat_id version : UUID) (w : upload_world) : Prop :=
  ∀ chat i, chats (w_database (uw_chat w)) !! chat_id = Some chat →
    ChatAvatarService.variant_key chat_id version i ∉ ChatAvatarService.keys_of (Chat.avatars chat).

Lemma displayed_after chat_id version rendered avatars w slot stale w1 w2 r1 r2 :
  no_puts chat_config.CHAT_AVATAR_BUCKET w →
  displayed chat_id version rendered avatars w →
  (∀ i, ChatAvatarService.variant_key chat_id version i ∉ ChatAvatarService.keys_of stale) →
  ChatAvatarService.drop_pending slot w = (r1, w1) → ChatAvatarService.delete_variants stale w1 = (r2, w2) →
  displayed chat_id version rendered avatars w2.
Proof.
  intros Hc [Hk Hd] Hfresh E1 E2. split; [done|]. intros i Hi. destruct (Hd i Hi) as [Hu Ho]. split; [done|].
  unfold ChatAvatarService.drop_pending in E1.
  destruct (suppress_delete chat_config.CHAT_AVATAR_BUCKET chat_config.CHAT_AVATAR_BUCKET_PENDING
    (ChatAvatarUploadSlot.s3_key slot) w Hc) as (x & Ex & Hx). rewrite E1 in Ex. injection Ex as _ <-.
  destruct (delete_all chat_config.CHAT_AVATAR_BUCKET (ChatAvatarService.keys_of stale) w1) as (y & Ey & Hy).
  { destruct (drop_pending_so slot w) as (_ & _ & Ep). unfold ChatAvatarService.drop_pending in Ep. rewrite E1 in Ep.
    cbn in Ep. intros n kv. rewrite Ep. apply Hc. }
  unfold ChatAvatarService.delete_variants in E2. rewrite E2 in Ey. injection Ey as _ <-.
  rewrite Hy by apply Hfresh. rewrite Hx; [done|]. intros [=].
Qed.

Lemma handle_outcome cmd w :
  no_puts chat_config.CHAT_AVATAR_BUCKET w →
  fresh_version (ProcessChatAvatar.chat_id cmd) (ProcessChatAvatar.upload_token cmd) w →
  (∀ slot e, uw_slots w !! ProcessChatAvatar.upload_token cmd = Some (slot, e) →
     ChatAvatarUploadSlot.upload_token slot = ProcessChatAvatar.upload_token cmd) →
  w_session (uw_chat w) = w_database (uw_chat w) →
  uwp (ProcessChatAvatar.handle cmd) w (λ _ w', avatar_outcome cmd w w').
Proof.
  intros Hc Hfresh Htok Hs. unfold ProcessChatAvatar.handle, ChatAvatarUploadRepository.pop.
  apply uwp_bind, uwp_bind, uwp_in_chat, wp_now_exact.
  unfold uwp at 1. cbn [ChatAvatarUploadRepository.command fst snd].
  set (w1 := _ <| uw_slots := _ |>).
  assert (uw_slots w1 !! ProcessChatAvatar.upload_token cmd = None) as Hgone by apply lookup_delete_eq.
  destruct (ConfirmChatAvatarUpload.own_slot _ _ _) as [slot|] eqn:Hown; [|by split; [|left]].
  assert (usable w cmd slot) as Husable.
  { unfold ConfirmChatAvatarUpload.own_slot, ChatAvatarUploadRepository.live in Hown. cbn in Hown. unfold usable.
    destruct (uw_slots w !! _) as [[sl e]|]; [|done]. cbn in Hown. destruct (_ <? e) eqn:He; [|done]. cbn in Hown.
    destruct (_ && _) eqn:Hb; [|done]. injection Hown as <-. apply andb_true_iff in Hb as [?%Z.eqb_eq ?%Z.eqb_eq].
    split; [|done]. exists e. split; [done|]. by apply Z.ltb_lt. }
  apply uwp_bind, uwp_so; [apply _|]. intros r2 w2 E2 C2 S2 P2.
  assert (uw_slots w2 !! ProcessChatAvatar.upload_token cmd = None) as Hgone2 by (by rewrite S2).
  destruct r2 as [[rendered|]|e]; [|apply uwp_so; [apply _|]; intros r w3 _ C S _; split; [by rewrite S|left; by rewrite C, C2]|
    split; [done|left; by rewrite C2]].
  destruct (prepare_Ok _ _ _ _ E2) as [Hacc Hkinds].
  apply uwp_bind, uwp_so; [apply _|]. intros r3 w3 E3 C3 S3 P3.
  assert (uw_slots w3 !! ProcessChatAvatar.upload_token cmd = None) as Hgone3 by (by rewrite S3).
  destruct r3 as [avatars|e]; [|split; [done|left; by rewrite C3, C2]].
  apply upload_variants_Ok in E3; [|intros n kv; rewrite P2; apply Hc|done].
  apply uwp_bind, uwp_in_chat, wp_get_by_id.
  2: { intros _. cbn. apply uwp_bind. unfold uwp at 1. cbn. apply uwp_bind, uwp_so; [apply _|]. intros r4 w4 _ C4 S4 _.
       assert (avatar_outcome cmd w w4) as Ho.
       { split; [rewrite S4; exact Hgone3|]. left. rewrite C4. cbn. by rewrite C3, C2. }
       destruct r4; [|done]. apply uwp_so; [apply _|]. intros r5 w5 _ C5 S5 _.
       split; [rewrite S5; apply Ho|]. left. rewrite C5, C4. cbn. by rewrite C3, C2. }
  intros chat [Hchat Hlive]. rewrite C3, C2 in Hchat. cbn in Hchat. rewrite Hs in Hchat. cbn [mbind option_bind].
  case_bool_decide as Hdir.
  { apply uwp_bind. unfold uwp at 1. cbn. apply uwp_bind, uwp_so; [apply _|]. intros r4 w4 _ C4 S4 _.
    assert (avatar_outcome cmd w w4) as Ho.
    { split; [rewrite S4; exact Hgone3|]. left. rewrite C4. cbn. by rewrite C3, C2. }
    destruct r4; [|done]. apply uwp_so; [apply _|]. intros r5 w5 _ C5 S5 _.
    split; [rewrite S5; apply Ho|]. left. rewrite C5, C4. cbn. by rewrite C3, C2. }
  apply uwp_bind, uwp_in_chat, wp_save_chat.
  2: { intros e c' Hdb. split; [exact Hgone3|]. left. cbn. rewrite Hdb. by rewrite C3, C2. }
  intros ids c' Hdb _. rewrite C3, C2 in Hdb. cbn in Hdb. rewrite Hs in Hdb. cbn beta iota.
  set (w4 := _ <| uw_chat := c' |>).
  assert (no_puts chat_config.CHAT_AVATAR_BUCKET w4) as Hc4 by (intros n kv; cbn; rewrite P3, P2; apply Hc).
  destruct (suppress_delete chat_config.CHAT_AVATAR_BUCKET chat_config.CHAT_AVATAR_BUCKET_PENDING
    (ChatAvatarUploadSlot.s3_key slot) w4 Hc4) as (w5 & E5 & _).
  destruct (ChatAvatarService.delete_variants (Chat.avatars chat) w5) as [r6 w6] eqn:E6.
  destruct (drop_pending_so slot w4) as (C5 & S5 & _). unfold ChatAvatarService.drop_pending in C5, S5. rewrite E5 in C5, S5.
  destruct (delete_variants_so (Chat.avatars chat) w5) as (C6 & S6 & _). rewrite E6 in C6, S6. cbn in C5, C6, S5, S6.
  change (StorageService.suppress_storage _ w4) with (ChatAvatarService.drop_pending slot w4) in E5.
  unfold uwp. rewrite (bind_run _ _ _ _ _ E5), E6. split; [cbn; by rewrite S6, S5|]. right.
  exists slot, chat, rendered, avatars, ids. split_and!; try done.
  - cbn. rewrite C6, C5. exact Hdb.
  - eapply (displayed_after _ _ _ _ w4 slot (Chat.avatars chat)); [done|exact E3| |exact E5|exact E6].
    intros i. destruct Husable as [(e & He & _) _]. rewrite (Htok _ _ He). by apply Hfresh.
Qed.

(** C21: An avatar is replaced as a whole or not at all. Processing a confirmed
    upload spends its token; unless the tables stay as they were, the token was
    live and of this chat and user, the bytes were within the limits of the slot
    and of an allowed type, the chat is not a direct one, and it now displays
    every size and format rendered from them, each present in the public bucket
    under its URL - whatever requests to the storage failed before or after. *)
Theorem avatar_replaced cmd w :
  no_puts chat_config.CHAT_AVATAR_BUCKET w →
  fresh_version (ProcessChatAvatar.chat_id cmd) (ProcessChatAvatar.upload_token cmd) w →
  (∀ slot e, uw_slots w !! ProcessChatAvatar.upload_token cmd = Some (slot, e) →
     ChatAvatarUploadSlot.upload_token slot = ProcessChatAvatar.upload_token cmd) →
  avatar_outcome cmd w (run_upload (ProcessChatAvatar.handle cmd) w).2.
Proof.
  intros Hc Hf Ht. set (w0 := w <| uw_chat ::= (λ c, c <| w_session := w_database c |>) |>).
  pose proof (handle_outcome cmd w0 Hc Hf Ht eq_refl) as Ho. unfold uwp in Ho. unfold run_upload. fold w0.
  by destruct (ProcessChatAvatar.handle cmd w0) as [r w1].
Qed.
End avatar_claims.

(** ** No upload breaks the invariant of the chat module *)

Lemma sound_attachments s x : sound s → sound (s <| attachments := x |>).
Proof. intros Hs. eapply (sound_other s); eauto. done. Qed.

(** the session may have written attachments, and nothing is committed *)
Definition attached (c c' : world) : Prop :=
  w_database c' = w_database c ∧ ∃ x, w_session c' = (w_session c) <| attachments := x |>.

#[export] Instance attached_refl : Reflexive attached.
Proof. intros c. split; [done|]. exists (attachments (w_session c)). by destruct (w_session c). Qed.
#[export] Instance attached_trans : Transitive attached.
Proof. intros a b c [E1 [x Ex]] [E2 [y Ey]]. split; [congruence|]. exists y. by rewrite Ey, Ex. Qed.

Lemma attached_same c c' : w_database c' = w_database c → w_session c' = w_session c → attached c c'.
Proof. intros E1 E2. split; [done|]. exists (attachments (w_session c)). rewrite E2. by destruct (w_session c). Qed.

Class Attaches {A} (m : U A) : Prop := attaches w : attached (uw_chat w) (uw_chat (m w).2).

Section attaches.
Context {A B : Type}.

#[export] Instance ret_at (a : A) : Attaches (mret a).
Proof. by intros w. Qed.
#[export] Instance raise_at e : Attaches (uraise (A := A) e).
Proof. by intros w. Qed.
#[export] Instance lift_at (r : result upload_error A) : Attaches (ulift r).
Proof. by intros w. Qed.
#[export] Instance refuse_at b e : Attaches (urefuse b e).
Proof. by intros w. Qed.
#[export] Instance bind_at (m : U A) (k : A → U B) : Attaches m → (∀ a, Attaches (k a)) → Attaches (m ≫= k).
Proof.
  intros Hm Hk w. pose proof (Hm w) as H1. unfold mbind, U_bind. destruct (m w) as [[a|e] w1]; [|done].
  etrans; [exact H1|apply Hk].
Qed.
#[export] Instance storage_at (m : U A) : StorageOnly m → Attaches m.
Proof. intros Hm w. by destruct (Hm w) as (-> & _). Qed.
#[export] Instance read_only_at (m : M A) : ReadOnly m → Attaches (in_chat m).
Proof.
  intros Hm w. unfold in_chat. destruct (Hm (uw_chat w)) as [t Ht]. destruct (m (uw_chat w)) as [r c]. cbn in *. subst c. by apply attached_same.
Qed.
End attaches.

#[export] Instance uuid_at : Attaches (in_chat uuid7).
Proof. intros w. by apply attached_same. Qed.
#[export] Instance slots_at {A} f : Attaches (ChatAvatarUploadRepository.command (A := A) f).
Proof. intros w. unfold ChatAvatarUploadRepository.command. by destruct (f _). Qed.
#[export] Instance push_at t : Attaches (push t).
Proof. by intros w. Qed.

(** what an operation does to the committed tables, one change at a time *)
Inductive upload_step (s : store) : store → Prop :=
| step_attachments x : upload_step s (s <| attachments := x |>)
| step_avatar k chat by_ avatars ids :
  chats s !! k = Some chat → Chat.is_deleted chat = false →
  upload_step s (rewritten ids (update_avatar chat by_ avatars) s).

Lemma update_avatar_keeps c avatars :
  Chat.keeps c (c <| Chat.avatars := avatars |> <| Chat.avatar_s3_key := pick_avatar_key avatars |>).
Proof. unfold Chat.keeps. split_and!; done. Qed.

Lemma upload_step_sound s s' : sound s → upload_step s s' → sound s'.
Proof.
  intros Hs [x|k chat by_ avatars ids Hk Hd]; [by apply sound_attachments|].
  eapply (sound_steps true); [exact Hs|]. unfold rewritten, update_avatar.
  exact (chat_rewritten true s k chat _ ids (Chat.events (Chat._register_updated _ by_))
    (sound_wf _ Hs) Hk (update_avatar_keeps chat avatars)).
Qed.

Lemma upload_steps_sound s s' : rtc upload_step s s' → sound s → sound s'.
Proof. induction 1 as [|s1 s2 s3 H1 _ IH]; [done|]. intros Hs. by eapply IH, upload_step_sound. Qed.

(** *** The operations *)
Inductive upload_op : Type :=
| UpRequest (cmd : RequestAttachmentUpload.command)
| UpSuccess (cmd : SuccessUploadAttachments.command)
| UpAvatarRequest (cmd : RequestChatAvatarUpload.command)
| UpAvatarConfirm (cmd : ConfirmChatAvatarUpload.command)
| UpAvatarRemove (cmd : RemoveChatAvatar.command)
| UpTask (task : upload_task).

Section operations.
Context `{HR : RBACManager} `{HS : S3} `{HT : TextSearch} `{HP : Ffprobe} `{HF : Ffmpeg} `{HI : ImageTools}.

Definition ended {A} (m : U A) (w : upload_world) : upload_world := (run_upload m w).2.

(** one operation, a request or a task of the queue *)
Definition upload_turn (op : upload_op) : upload_world → upload_world :=
  match op with
  | UpRequest cmd => ended (RequestAttachmentUpload.handle cmd)
  | UpSuccess cmd => ended (SuccessUploadAttachments.handle cmd)
  | UpAvatarRequest cmd => ended (RequestChatAvatarUpload.handle cmd)
  | UpAvatarConfirm cmd => ended (ConfirmChatAvatarUpload.handle cmd)
  | UpAvatarRemove cmd => ended (RemoveChatAvatar.handle cmd)
  | UpTask task => ended (run_task task)
  end.

(** a session that has written attachments at most *)
Definition loose (c : world) : Prop := ∃ x, w_session c = (w_database c) <| attachments := x |>.

Lemma loose_attached c c' : loose c → attached c c' → loose c'.
Proof. intros [x E] [E1 [y E2]]. exists y. by rewrite E2, E, E1. Qed.

(** a handler seen from the committed tables *)
Definition changes {A} (m : U A) : Prop := ∀ w,
  loose (uw_chat w) → uwp m w (λ _ w', rtc upload_step (w_database (uw_chat w)) (w_database (uw_chat w'))).

Lemma changes_ended {A} (m : U A) w :
  changes m → rtc upload_step (w_database (uw_chat w)) (w_database (uw_chat (ended m w))).
Proof.
  intros Hm. specialize (Hm (w <| uw_chat ::= (λ c, c <| w_session := w_database c |>) |>)).
  unfold uwp in Hm. unfold ended, run_upload. destruct (m _) as [r w']. apply Hm.
  exists (attachments (w_database (uw_chat w))). cbn. by destruct (w_database (uw_chat w)).
Qed.

Lemma attaches_changes {A} (m : U A) : Attaches m → changes m.
Proof. intros Hm w _. unfold uwp. destruct (Hm w) as [-> _]. reflexivity. Qed.

Lemma bind_changes {A B} (m : U A) (k : A → U B) : Attaches m → (∀ a, changes (k a)) → changes (m ≫= k).
Proof.
  intros Hm Hk w Hl. pose proof (Hm w) as Ha. apply uwp_bind. unfold uwp at 1. destruct (m w) as [[a|e] w1]; cbn [fst snd] in *.
  - rewrite <- (proj1 Ha). apply Hk. by eapply loose_attached.
  - destruct Ha as [-> _]. reflexivity.
Qed.

(** a commit or a rollback, and nothing that is committed after it *)
Lemma commit_changes {B} (k : U B) : Attaches k → changes (_ ← in_chat commit; k).
Proof.
  intros Hk w [x E]. apply uwp_bind. unfold uwp at 1. cbn.
  destruct (Hk (w <| uw_chat := (uw_chat w) <| w_database := w_session (uw_chat w) |> |>)) as [E3 _].
  unfold uwp. rewrite E3. cbn. rewrite E. apply rtc_once. constructor.
Qed.
Lemma rollback_changes {B} (k : U B) : Attaches k → changes (_ ← in_chat rollback; k).
Proof.
  intros Hk w _. apply uwp_bind. unfold uwp at 1. cbn.
  destruct (Hk (w <| uw_chat := (uw_chat w) <| w_session := w_database (uw_chat w) |> |>)) as [E3 _].
  unfold uwp. by rewrite E3.
Qed.

(** the new avatar of a chat that the session reads *)
Lemma save_changes {B} i chat by_ avatars (k : U B) w :
  Attaches k → loose (uw_chat w) → live_row (uw_chat w) i chat →
  uwp (_ ← in_chat (_ ← publish_chat (update_avatar chat by_ avatars);
                    _ ← flush_chat (update_avatar chat by_ avatars); commit); k) w
    (λ _ w', rtc upload_step (w_database (uw_chat w)) (w_database (uw_chat w'))).
Proof.
  intros Hk [x E] [Hi Hd]. apply uwp_bind, uwp_in_chat, wp_save_chat.
  - intros ids c' Hdb _. cbn. destruct (Hk (w <| uw_chat := c' |>)) as [E1 _]. unfold uwp. rewrite E1. cbn.
    rewrite Hdb. rewrite E in *. eapply rtc_l; [apply (step_attachments _ x)|]. apply rtc_once. by eapply step_avatar.
  - intros e c' E1. cbn. by rewrite E1.
Qed.

#[export] Instance new_slots_at cmd l : Attaches (RequestAttachmentUpload.new_slots cmd l).
Proof.
  induction l as [|[req type] l IH]; [apply _|]. cbn. apply bind_at; [|intros; apply _].
  unfold RequestAttachmentUpload.new_slot. apply bind_at; [apply _|intros folder].
  apply bind_at; [apply storage_at, ret_so|intros url]. apply bind_at; [apply _|intros id].
  apply bind_at; [|apply _]. intros w. split; [done|]. by eexists.
Qed.

#[export] Instance process_slots_at cmd l : Attaches (ProccessAttachments.process_slots cmd l).
Proof.
  induction l as [|a l IH]; [apply _|]. cbn. apply bind_at; [|intros; apply _]. intros w.
  destruct (process_slot_handles a cmd w) as [(f & _ & E) _ _ _]. rewrite E. split; [done|]. by eexists.
Qed.

Lemma request_changes cmd : changes (RequestAttachmentUpload.handle cmd).
Proof.
  unfold RequestAttachmentUpload.handle. cbv zeta. apply bind_changes; [apply _|intros types].
  apply bind_changes; [apply _|intros slots]. apply commit_changes. apply _.
Qed.

Lemma process_changes cmd : changes (ProccessAttachments.handle cmd).
Proof.
  unfold ProccessAttachments.handle. apply bind_changes; [apply _|intros ids].
  apply bind_changes; [apply read_only_at, query_ro|intros slots].
  apply bind_changes; [apply _|intros tokens]. apply commit_changes.
  intros w. unfold ProccessAttachments.notify. by destruct tokens.
Qed.

Lemma avatar_process_changes cmd : changes (ProcessChatAvatar.handle cmd).
Proof.
  unfold ProcessChatAvatar.handle, ChatAvatarUploadRepository.pop. apply bind_changes; [apply _|intros slot].
  case_match; [|apply attaches_changes; apply _]. apply bind_changes; [apply _|intros [rendered|]];
    [|apply attaches_changes; apply _]. apply bind_changes; [apply _|intros avatars]. intros w Hl.
  apply uwp_bind, uwp_in_chat, wp_get_by_id.
  - intros chat Hlive. cbn [mbind option_bind]. case_bool_decide; [exact (rollback_changes (_ ← ChatAvatarService.delete_variants avatars; ChatAvatarService.drop_pending t) _ _ Hl)|].
    cbv zeta. refine (save_changes _ chat _ _ _ _ _ Hl Hlive).
  - intros _. exact (rollback_changes (_ ← ChatAvatarService.delete_variants avatars; ChatAvatarService.drop_pending t) _ _ Hl).
Qed.

Lemma avatar_remove_changes cmd : changes (RemoveChatAvatar.handle cmd).
Proof.
  intros w Hl. unfold RemoveChatAvatar.handle. cbv zeta. apply uwp_bind, uwp_in_chat. wp_steps; cbv beta iota; try (cbn; reflexivity).
  case_match; [unfold uwp; reflexivity|].
  eapply uwp_mono; [apply (save_changes (RemoveChatAvatar.chat_id cmd)); [apply _|exact Hl|by split]|done].
Qed.

Lemma chat_at {A} (m : M A) :
  (∀ c, wp m c (λ _ c', w_database c' = w_database c ∧ w_session c' = w_session c)) → Attaches (in_chat m).
Proof.
  intros Hm w. specialize (Hm (uw_chat w)). unfold wp in Hm. unfold in_chat.
  destruct (m (uw_chat w)) as [r c]. destruct Hm. by apply attached_same.
Qed.

#[export] Instance avatar_request_at cmd : Attaches (RequestChatAvatarUpload.handle cmd).
Proof.
  unfold RequestChatAvatarUpload.handle. cbv zeta. apply bind_at.
  - apply chat_at. intros c. wp_steps; done.
  - intros [chat token]. apply bind_at; [apply storage_at, ret_so|intros url].
    apply bind_at; [|intros; apply _]. unfold ChatAvatarUploadRepository.save. apply _.
Qed.

#[export] Instance avatar_confirm_at cmd : Attaches (ConfirmChatAvatarUpload.handle cmd).
Proof.
  unfold ConfirmChatAvatarUpload.handle, ChatAvatarUploadRepository.get. cbv zeta. apply _.
Qed.

Lemma upload_turn_steps op w : rtc upload_step (w_database (uw_chat w)) (w_database (uw_chat (upload_turn op w))).
Proof.
  destruct op as [cmd|cmd|cmd|cmd|cmd|[u k t|u k t]].
  - exact (changes_ended _ w (request_changes cmd)).
  - exact (changes_ended _ w (attaches_changes (SuccessUploadAttachments.handle cmd) (push_at _))).
  - exact (changes_ended _ w (attaches_changes _ (avatar_request_at cmd))).
  - exact (changes_ended _ w (attaches_changes _ (avatar_confirm_at cmd))).
  - exact (changes_ended _ w (avatar_remove_changes cmd)).
  - exact (changes_ended _ w (process_changes _)).
  - exact (changes_ended _ w (avatar_process_changes _)).
Qed.

(** C22: No upload breaks the chat module: whatever happens to the storage and
    the tools, a request or task of the upload pipelines - also one cut short by
    an exception - commits changes of attachments and of avatars of live chats
    only, and the invariant of the store that every request of the module keeps
    still holds. *)
Theorem uploads_keep_sound ops w :
  sound (w_database (uw_chat w)) →
  let s' := w_database (uw_chat (foldl (λ w op, upload_turn op w) w ops)) in
  rtc upload_step (w_database (uw_chat w)) s' ∧ sound s'.
Proof.
  intros Hs. assert (∀ ops w, rtc upload_step (w_database (uw_chat w)) (w_database (uw_chat (foldl (λ w op, upload_turn op w) w ops)))) as H.
  { clear. induction ops as [|op ops IH]; intros w; [reflexivity|]. cbn. etrans; [apply upload_turn_steps|apply IH]. }
  split; [apply H|]. eapply upload_steps_sound; [apply H|done].
Qed.
End operations.

(** ** Samples: Bob sends a text file and a photo, Alice changes the group's avatar *)
#[local] Instance sample_s3 : S3 := {
  ETag b := 34 :: b ++ [34];
  presigned_put bucket key expires := u8 "https://files/put/" ++ key;
  public_base_url := u8 "https://files";
}.
#[local] Instance sample_s3_laws : S3Laws sample_s3.
Proof. split; [done|]. intros a b [= E]. by apply app_inj_tail in E as [-> _]. Qed.

#[local] Instance sample_ffprobe : Ffprobe := λ _ _, ProbeExited 0 512 (Some (JDict sample_probe)).
#[local] Instance sample_ffmpeg : Ffmpeg := λ _ _ _ _, FfmpegExited 0 None.

(** an image is its bytes; a file that begins with [255] is a JPEG *)
#[local] Instance sample_images : ImageTools := {
  from_buffer data := match data with 255 :: _ => "image/jpeg" | _ => "text/plain" end%string;
  vips_image := bytes;
  new_from_file data := Some data;
  load_pages _ data := Some data;
  image_width _ := 64;
  image_height _ := 48;
  image_orientation _ := None;
  image_pages _ := None;
  hasalpha _ := false;
  autorot image := image;
  flatten image := image;
  write_original _ image := Some (250 :: image);
  thumbnail _ data := Some data;
  thumbnail_image _ image := Some image;
  thumbnail_centre size image := Some (size :: image);
  write_to_buffer fmt image := Some (len (u8 fmt) :: image);
  thumbhash _ := Some "hash"%string;
}.

#[local] Instance sample_words : TextSearch := {
  casefold := lower;
  is_word c := is_alnum c || (c =? 95);
  ts_match _ _ := false;
}.

Definition upload_start : upload_world := MkUploadWorld group_world ∅ 0 (λ _, []) (λ _, None) 0 ∅ [] [].

Definition bobs_files : list RequestAttachmentUpload.UploadRequest :=
  [RequestAttachmentUpload.MkUploadRequest (u8 " my notes.txt") "text/plain" 5 None;
   RequestAttachmentUpload.MkUploadRequest (u8 "cat.jpg") "image/jpeg" 9 None].
Definition requested : upload_world :=
  upload_turn (UpRequest (RequestAttachmentUpload.Mk (user 2) group_id bobs_files)) upload_start.

Definition note_id : UUID := 8.
Definition photo_id : UUID := 10.
Definition sample_upload (id : UUID) : MessageAttachment.t :=
  default (MessageAttachment.create 0 0 0 ATT_FILE [] "" [] 0) (attachments (w_database (uw_chat requested)) !! id).

Example slots_requested :
  (λ a, (MessageAttachment.attachment_type a, MessageAttachment.attachment_status a)) <$>
    [sample_upload note_id; sample_upload photo_id] = [(ATT_FILE, PENDING); (ATT_IMAGE, PENDING)]
  ∧ drop 79 (MessageAttachment.s3_key (sample_upload note_id)) = u8 "/my_notes.txt".
Proof. vm_compute. split; reflexivity. Qed.

(** the client puts [content] for [id] before the [n]-th request *)
Definition client_puts (n : nat) (id : UUID) (content : bytes) (w : upload_world) : upload_world :=
  w <| uw_puts ::= (λ puts k, if bool_decide (k = n)
    then ((chat_config.ATTACHMENT_BUCKET_PENDING, MessageAttachment.s3_key (sample_upload id)), content) :: puts k
    else puts k) |>.

Definition confirm_both : ProccessAttachments.command :=
  ProccessAttachments.Mk group_id 2 [str_uuid note_id; str_uuid photo_id].
Definition notes : bytes := u8 "abc".
Definition jpeg : bytes := [255; 216; 255; 217].
Definition uploaded : upload_world := client_puts 0 note_id notes (client_puts 0 photo_id jpeg requested).
Definition after_confirm (w : upload_world) : upload_world := (run_upload (ProccessAttachments.handle confirm_both) w).2.

Definition statuses (w : upload_world) : list (option AttachmentStatus) :=
  (λ id, MessageAttachment.attachment_status <$> attachments (w_database (uw_chat w)) !! id) <$> [note_id; photo_id].
Definition public_object (id : UUID) (w : upload_world) : option bytes :=
  uw_objects w !! (chat_config.ATTACHMENT_BUCKET, MessageAttachment.s3_key (sample_upload id)).

Example both_published :
  statuses (after_confirm uploaded) = [Some SUCCESS; Some SUCCESS]
  ∧ public_object note_id (after_confirm uploaded) = Some notes
  ∧ (un_tokens <$> uw_notices (after_confirm uploaded)) = [[str_uuid note_id; str_uuid photo_id]].
Proof. vm_compute. split_and!; reflexivity. Qed.

(** other bytes put after the type was checked: the copy notices *)
Example swapped_in_time :
  statuses (after_confirm (client_puts 2 note_id [255; 216] uploaded)) = [Some ERROR; Some SUCCESS]
  ∧ public_object note_id (after_confirm (client_puts 2 note_id [255; 216] uploaded)) = None.
Proof. vm_compute. split; reflexivity. Qed.

Lemma filed_dec (m : gmap UUID MessageAttachment.t) :
  bool_decide (map_Forall (λ i a, MessageAttachment.id a = i) m) = true →
  ∀ id a, m !! id = Some a → MessageAttachment.id a = id.
Proof. intros H. exact (bool_decide_eq_true_1 _ H). Qed.

Lemma uploaded_filed : attachments_filed (w_database (uw_chat uploaded)).
Proof. unfold attachments_filed. apply filed_dec. vm_compute. reflexivity. Qed.

Lemma client_puts_pending n id content w :
  no_puts chat_config.ATTACHMENT_BUCKET w → no_puts chat_config.ATTACHMENT_BUCKET (client_puts n id content w).
Proof. intros H k kv. cbn. case_bool_decide; [intros [->|?]%elem_of_cons; [done|by eapply H]|apply H]. Qed.

Lemma nothing_put bucket : no_puts bucket requested.
Proof. assert (uw_puts requested = λ _, []) as E by reflexivity. intros n kv. rewrite E. clear E. by intros ?%not_elem_of_nil. Qed.

Lemma uploaded_no_puts : no_puts chat_config.ATTACHMENT_BUCKET uploaded.
Proof. apply client_puts_pending, client_puts_pending, nothing_put. Qed.

Lemma uploaded_separate : separate (slots_of (w_database (uw_chat uploaded)) [note_id; photo_id]).
Proof.
  split; [apply (bool_decide_unpack _); vm_compute; exact I|].
  apply list.Forall_forall, (bool_decide_unpack _). vm_compute. exact I.
Qed.

Lemma confirm_both_ids :
  ProccessAttachments.token_ids (ProccessAttachments.upload_tokens confirm_both) = Ok [note_id; photo_id].
Proof. vm_compute. reflexivity. Qed.

Lemma confirmed_decided_witness :
  (run_upload (ProccessAttachments.handle confirm_both) uploaded).1 = Ok tt
  ∧ ∃ a', attachments (w_database (uw_chat (after_confirm uploaded))) !! note_id = Some a'
      ∧ same_upload (sample_upload note_id) a' ∧ MessageAttachment.attachment_status a' ≠ PENDING.
Proof.
  pose proof (confirmed_decided confirm_both [note_id; photo_id] uploaded uploaded_filed confirm_both_ids) as H.
  unfold after_confirm. destruct (run_upload _ _) as [r w'].
  destruct H as (Hr & _ & _ & Hd & _). split; [exact Hr|]. apply Hd; [apply list_elem_of_here|vm_compute; reflexivity].
Defined.

Lemma published_as_checked_witness :
  ∃ data, admitted (sample_upload photo_id) data ∧ published (sample_upload photo_id) data (after_confirm uploaded).
Proof.
  refine (proj2 (published_as_checked confirm_both [note_id; photo_id] uploaded uploaded_filed uploaded_no_puts
    uploaded_separate confirm_both_ids photo_id (sample_upload photo_id)
    (default (sample_upload photo_id) (attachments (w_database (uw_chat (after_confirm uploaded))) !! photo_id))
    _ _ _ _)); [apply list_elem_of_further, list_elem_of_here|vm_compute; reflexivity..].
Defined.

(** the message that carries both files once they are processed *)
Definition both_files : Message.t :=
  Message.Mk 20 group_id 2 (Some 2) IMAGE None None None None None None false false false
    (MessageAttachment.mark_proccesed <$> [sample_upload note_id; sample_upload photo_id]) [].

Lemma both_succeeded : Forall (λ a, MessageAttachment.attachment_status a = SUCCESS) (Message.attachments both_files).
Proof. apply (bool_decide_unpack _). vm_compute. exact I. Qed.

Lemma plan_fits_message_witness :
  RequestAttachmentUpload.plan bobs_files = Ok [ATT_FILE; ATT_IMAGE] ↔ Message.validate_attachments both_files = Ok tt.
Proof.
  refine (plan_fits_message bobs_files [ATT_FILE; ATT_IMAGE] both_files _ _ _ _ _);
    [discriminate|vm_compute; reflexivity|vm_compute; reflexivity|apply both_succeeded|vm_compute; reflexivity].
Defined.

(** *** Alice gives the group an avatar *)
Definition alice_requests : RequestChatAvatarUpload.command :=
  RequestChatAvatarUpload.Mk (user 1) group_id "image/jpeg" 1000.
Definition avatar_token : UUID := 7.
Definition avatar_requested : upload_world := upload_turn (UpAvatarRequest alice_requests) upload_start.
Definition avatar_slot : ChatAvatarUploadSlot.t :=
  default (ChatAvatarUploadSlot.Mk 0 0 0 [] "" 0) (fst <$> uw_slots avatar_requested !! avatar_token).

(** she puts the photo before the first request to the storage *)
Definition avatar_uploaded : upload_world :=
  avatar_requested <| uw_puts := λ n, if bool_decide (n = 0%nat)
    then [((chat_config.CHAT_AVATAR_BUCKET_PENDING, ChatAvatarUploadSlot.s3_key avatar_slot), jpeg)] else [] |>.
Definition alice_confirms : ConfirmChatAvatarUpload.command :=
  ConfirmChatAvatarUpload.Mk (user 1) group_id avatar_token.
Definition avatar_confirmed : upload_world := upload_turn (UpAvatarConfirm alice_confirms) avatar_uploaded.
Definition photo_task : ProcessChatAvatar.command := ProcessChatAvatar.Mk group_id 1 avatar_token.
Definition avatar_shown : upload_world := (run_upload (ProcessChatAvatar.handle photo_task) avatar_confirmed).2.

Definition group_avatars (w : upload_world) : option Avatars :=
  Chat.avatars <$> chats (w_database (uw_chat w)) !! group_id.

Example avatar_queued : uw_tasks avatar_confirmed = [ChatAvatarProcessTask group_id 1 avatar_token].
Proof. vm_compute. reflexivity. Qed.

Lemma avatar_no_puts : no_puts chat_config.CHAT_AVATAR_BUCKET avatar_confirmed.
Proof.
  assert (uw_puts avatar_confirmed = uw_puts avatar_uploaded) as E by (vm_compute; reflexivity).
  intros n kv. rewrite E. clear E. unfold avatar_uploaded. cbn [uw_puts]. unfold modify_field. cbn.
  case_bool_decide; [by intros ->%list_elem_of_singleton|by intros ?%not_elem_of_nil].
Qed.

Lemma without_avatars version w : group_avatars w = Some [] → fresh_version group_id version w.
Proof.
  intros Hg chat i Hc. unfold group_avatars in Hg. rewrite Hc in Hg. injection Hg as ->. apply not_elem_of_nil.
Qed.

Lemma avatar_fresh : fresh_version group_id avatar_token avatar_confirmed.
Proof. apply without_avatars. vm_compute. reflexivity. Qed.

Lemma one_slot (m : gmap UUID (ChatAvatarUploadSlot.t * datetime)) token :
  bool_decide (map_Forall (λ i s, ChatAvatarUploadSlot.upload_token s.1 = i) m) = true →
  ∀ slot e, m !! token = Some (slot, e) → ChatAvatarUploadSlot.upload_token slot = token.
Proof. intros H slot e E. exact (bool_decide_eq_true_1 _ H _ _ E). Qed.

Lemma avatar_token_filed slot e :
  uw_slots avatar_confirmed !! avatar_token = Some (slot, e) → ChatAvatarUploadSlot.upload_token slot = avatar_token.
Proof. apply one_slot. vm_compute. reflexivity. Qed.

Lemma avatar_differs w w' :
  group_avatars w ≠ group_avatars w' → w_database (uw_chat w) ≠ w_database (uw_chat w').
Proof. unfold group_avatars. congruence. Qed.

Lemma avatar_changed : w_database (uw_chat avatar_shown) ≠ w_database (uw_chat avatar_confirmed).
Proof. apply avatar_differs. vm_compute. discriminate. Qed.

Lemma avatar_replaced_witness :
  uw_slots avatar_shown !! avatar_token = None
  ∧ ∃ slot rendered avatars, usable avatar_confirmed photo_task slot ∧ accepted_photo slot rendered
    ∧ displayed group_id (ChatAvatarUploadSlot.upload_token slot) rendered avatars avatar_shown.
Proof.
  destruct (avatar_replaced photo_task avatar_confirmed avatar_no_puts avatar_fresh avatar_token_filed)
    as [Hgone [Hsame|(slot & chat & rendered & avatars & ids & Hu & Ha & _ & _ & _ & _ & Hd)]].
  - destruct (avatar_changed Hsame).
  - split; [exact Hgone|]. exists slot, rendered, avatars. exact (conj Hu (conj Ha Hd)).
Defined.

Lemma start_sound : sound (w_database (uw_chat upload_start)).
Proof. unfold upload_start. cbn [uw_chat]. destruct opened_group as [Hs <-]. exact Hs. Qed.

Definition sample_ops : list upload_op :=
  [UpRequest (RequestAttachmentUpload.Mk (user 2) group_id bobs_files); UpAvatarRequest alice_requests;
   UpAvatarConfirm alice_confirms; UpTask (AttachmentProccessTask 2 group_id [str_uuid note_id])].

Lemma uploads_keep_sound_witness :
  sound (w_database (uw_chat (foldl (λ w op, upload_turn op w) upload_start sample_ops))).
Proof. exact (proj2 (uploads_keep_sound sample_ops upload_start start_sound)). Defined.

(** *** What a confirmation does not look at *)

(** a token that was confirmed is confirmed again: its object is gone, and the
    attachment, which may be part of a message, becomes an error *)
Example confirmed_again :
  statuses (after_confirm (after_confirm uploaded)) = [Some ERROR; Some ERROR].
Proof. vm_compute. reflexivity. Qed.

(** anyone who names the token of another user makes that upload an error *)
Example confirmed_by_another :
  statuses (run_upload (ProccessAttachments.handle
    (ProccessAttachments.Mk group_id 3 [str_uuid note_id])) uploaded).2 = [Some ERROR; Some PENDING].
Proof. vm_compute. reflexivity. Qed.

(** the URL is still valid after the upload was published: put again and
    confirmed again, the published object is another *)
Example replaced_after_publication :
  let w := after_confirm uploaded in
  let again := (run_upload (ProccessAttachments.handle (ProccessAttachments.Mk group_id 2 [str_uuid note_id]))
    (client_puts (uw_requests w) note_id (u8 "xyz") w)).2 in
  public_object note_id w = Some notes ∧ public_object note_id again = Some (u8 "xyz")
  ∧ statuses again = [Some SUCCESS; Some SUCCESS].
Proof. vm_compute. split_and!; reflexivity. Qed.

(** one transient error of the storage, and the upload is spent: the object is
    there, the token is not, and nothing tries again *)
Definition storage_slow : upload_world :=
  avatar_confirmed <| uw_faults := λ n, if bool_decide (n = uw_requests avatar_confirmed) then Some "SlowDown"%string else None |>.
Example avatar_lost :
  let '(r, w) := run_upload (ProcessChatAvatar.handle photo_task) storage_slow in
  r ≠ Ok tt ∧ uw_slots w !! avatar_token = None ∧ group_avatars w = group_avatars avatar_confirmed
  ∧ uw_objects w !! (chat_config.CHAT_AVATAR_BUCKET_PENDING, ChatAvatarUploadSlot.s3_key avatar_slot) = Some jpeg.
Proof. vm_compute. split_and!; done. Qed.
