(* ===== verification/Notifications.v ===== *)
(** Notifications ([app/notifications]): the devices of a user and the stored
    notifications with their repositories and commands, the cached count of
    unread ones ([core/db/repository.py]), the push through Firebase
    ([services/push/firebase/service.py]), and the way from an offline signal of
    the router ([consumers/chat_offline_delivery.py]) through the queue
    ([tasks/push_offline_recipients.py]) to one notification per recipient; and
    the store that makes retried requests idempotent ([core/services/idempotency.py]).

    Firebase is a parameter that answers the [n]-th multicast. The pushes of one
    task, which the source runs concurrently in transactions of their own, run
    one after the other. The listing with its filters, the time stamps of rows
    and logs are left out. *)
From S2P Require Import Prelude Config Events MemberModel MessageModel ChatModel Rbac Store WsModel Delivery Projections.
Open Scope Z_scope.

(** ** Devices and notifications ([models]) *)
Inductive PlatformEnum : Type := ios | web | android.

Module UserDeviceToken.
Record t : Type := Mk {
  id : Z;
  user_id : Z;
  did : text;
  token : text;
  platform : PlatformEnum;
  device_name : text;
  is_active : bool;
}.
#[global] Instance t_settable : Settable t := λ d,
  Mk (id d) (user_id d) (did d) (token d) (platform d) (device_name d) (is_active d).

(** the database gives the id *)
Definition create (user_id : Z) (token : text) (platform : PlatformEnum) (device_name did : text) : t :=
  Mk 0 user_id did token platform device_name true.
Definition activate (d : t) : t := d <| is_active := true |>.
Definition deactivate (d : t) : t := d <| is_active := false |>.
End UserDeviceToken.

Inductive NotificationType : Type := SYSTEM_NOTICE | PROJECT_NOTICE | CHAT_NOTICE.

(** the values the one caller puts in a payload *)
Inductive payload_value : Type := PStr (s : text) | PInt (n : Z) | PNone.
Abbreviation payload := (list (text * payload_value)) (only parsing).

#[global] Instance payload_value_eq_dec : EqDecision payload_value.
Proof. solve_decision. Defined.

(** [str(value)] *)
Definition str_value (v : payload_value) : text :=
  match v with PStr s => s | PInt n => str_int n | PNone => u8 "None" end.

Module Notification.
Record t : Type := Mk {
  id : Z;
  user_id : Z;
  type : NotificationType;
  title : text;
  message : option text;
  data : payload;
  is_read : bool;
}.
#[global] Instance t_settable : Settable t := λ n,
  Mk (id n) (user_id n) (type n) (title n) (message n) (data n) (is_read n).

Definition create (user_id : Z) (type : NotificationType) (title : text) (message : option text) (data : payload) : t :=
  Mk 0 user_id type title message data false.
End Notification.

(** ** State *)
Inductive notif_error : Type :=
| NotFoundNotificationError (notification_id : Z)
| NotificationAccessDeniedError (notification_id : Z)
| AlreadyExistDeviceTokenError
| NotFoundUserDeviceError
(** a violated constraint, which no handler expects *)
| DeviceIntegrityError (constraint : string).

Record notif_store : Type := MkNotifStore {
  devices : gmap Z UserDeviceToken.t;
  notifications : gmap Z Notification.t;
  next_device_id : Z;
  next_notification_id : Z;
}.
#[global] Instance notif_store_settable : Settable notif_store := λ s,
  MkNotifStore (devices s) (notifications s) (next_device_id s) (next_notification_id s).

(** ** Firebase *)
Record MulticastMessage : Type := MkMulticast {
  mc_tokens : list text;
  mc_title : text;
  mc_body : option text;
  mc_data : list (text * text);
}.
Inductive fcm_reply : Type := FcmSent | FcmUnregistered | FcmSenderIdMismatch | FcmFailed.

(** [messaging.send_each_for_multicast]: the replies to the [n]-th message, or
    an exception *)
Class Firebase : Type := send_each_for_multicast : nat → MulticastMessage → option (list fcm_reply).

(** the message of the offline push event *)
Record OfflineEventDTO : Type := MkOfflineEvent {
  oe_event_id : UUID;
  oe_event_name : string;
  oe_chat_id : UUID;
  oe_message_id : UUID;
  oe_offline_user_ids : list Z;
  oe_occurred_at : datetime;
  oe_sender_id : option Z;
}.

(** [PushOfflineRecipientsTask] with its data *)
Record PushOfflineRecipientsTask : Type := MkPushTask {
  pt_chat_id : text;
  pt_message_id : option text;
  pt_sender_id : option Z;
  pt_offline_user_ids : list Z;
}.

Record notif_world : Type := MkNotif {
  nw_session : notif_store;
  nw_database : notif_store;
  nw_clock : nat → datetime;
  nw_ticks : nat;
  (** [notifications:list], and the cached counts by version and user with
      the instant they expire *)
  nw_version : Z;
  nw_counts : gmap (Z * Z) (Z * datetime);
  nw_multicasts : list MulticastMessage;
  nw_processed : gset (string * UUID);
  nw_queue : list PushOfflineRecipientsTask;
}.
#[global] Instance notif_world_settable : Settable notif_world := λ w,
  MkNotif (nw_session w) (nw_database w) (nw_clock w) (nw_ticks w) (nw_version w) (nw_counts w) (nw_multicasts w)
    (nw_processed w) (nw_queue w).

Definition N (A : Type) : Type := notif_world → result notif_error A * notif_world.

#[export] Instance N_ret : MRet N := λ A a w, (Ok a, w).
#[export] Instance N_bind : MBind N := λ A B k m w,
  match m w with
  | (Ok a, w') => k a w'
  | (Err e, w') => (Err e, w')
  end.

Definition nraise {A} (e : notif_error) : N A := λ w, (Err e, w).
Definition nselect {A} (f : notif_store → A) : N A := λ w, (Ok (f (nw_session w)), w).
Definition nexecute (f : notif_store → notif_store) : N unit := λ w, (Ok tt, w <| nw_session ::= f |>).
Definition ncommit : N unit := λ w, (Ok tt, w <| nw_database := nw_session w |>).
Definition nnow : N datetime := λ w, (Ok (nw_clock w (nw_ticks w)), w <| nw_ticks ::= S |>).

(** [handle_command]: a session of its own, closed without a commit *)
Definition in_request {A} (m : N A) (w : notif_world) : result notif_error A * notif_world :=
  let '(r, w') := m (w <| nw_session := nw_database w |>) in
  (r, w' <| nw_session := nw_database w' |>).

(** ** Repositories *)
Module DeviceRepository.

(** the insertion of an added row at the flush *)
Definition create (device : UserDeviceToken.t) : N unit := λ w,
  let s := nw_session w in
  if is_some (first_row (λ _ d, (UserDeviceToken.user_id d =? UserDeviceToken.user_id device)
                                && bool_decide (UserDeviceToken.token d = UserDeviceToken.token device)) (devices s))
  then (Err (DeviceIntegrityError "uq_device_token"), w)
  else if is_some (first_row (λ _ d, (UserDeviceToken.user_id d =? UserDeviceToken.user_id device)
                                && bool_decide (UserDeviceToken.did d = UserDeviceToken.did device)) (devices s))
  then (Err (DeviceIntegrityError "uq_device_did"), w)
  else let id := next_device_id s in
       (Ok tt, w <| nw_session := s <| devices ::= <[id := UserDeviceToken.Mk id (UserDeviceToken.user_id device)
          (UserDeviceToken.did device) (UserDeviceToken.token device) (UserDeviceToken.platform device)
          (UserDeviceToken.device_name device) (UserDeviceToken.is_active device)]> |>
          <| next_device_id := id + 1 |> |>).

Definition get_active_by_user_id (user_id : Z) (s : notif_store) : list UserDeviceToken.t :=
  filter (λ d, UserDeviceToken.user_id d = user_id ∧ UserDeviceToken.is_active d = true) (map_to_list (devices s)).*2.

Definition get_device_by_user_did (user_id : Z) (device_id : text) (s : notif_store) : option UserDeviceToken.t :=
  first_row (λ _ d, (UserDeviceToken.user_id d =? user_id) && bool_decide (UserDeviceToken.did d = device_id)) (devices s).

Definition get_device_by_user_token (user_id : Z) (token : text) (s : notif_store) : option UserDeviceToken.t :=
  first_row (λ _ d, (UserDeviceToken.user_id d =? user_id) && bool_decide (UserDeviceToken.token d = token)) (devices s).

Definition deactivate_tokens (tokens : list text) : N unit := nexecute (λ s,
  s <| devices ::= fmap (λ d, if bool_decide (UserDeviceToken.token d ∈ tokens) then UserDeviceToken.deactivate d else d) |>).

(** an attribute of a loaded row *)
Definition touch_device (id : Z) (f : UserDeviceToken.t → UserDeviceToken.t) : N unit :=
  nexecute (λ s, s <| devices ::= alter f id |>).
End DeviceRepository.

Module NotificationRepository.

Definition create (n : Notification.t) : N unit := nexecute (λ s,
  let id := next_notification_id s in
  s <| notifications ::= <[id := Notification.Mk id (Notification.user_id n) (Notification.type n)
         (Notification.title n) (Notification.message n) (Notification.data n) (Notification.is_read n)]> |>
    <| next_notification_id := id + 1 |>).

Definition get_by_id (id : Z) (s : notif_store) : option Notification.t := notifications s !! id.

Definition count_unread (user_id : Z) (s : notif_store) : Z :=
  count_where (λ kv, Notification.user_id kv.2 = user_id ∧ Notification.is_read kv.2 = false) (notifications s).

Definition mark_all_as_read (user_id : Z) : N unit := nexecute (λ s,
  s <| notifications ::= fmap (λ n,
    if (Notification.user_id n =? user_id) && negb (Notification.is_read n)
    then n <| Notification.is_read := true |> else n) |>).

(** *** The cache ([CacheRepository]) *)
Definition _get_list_version : N Z := λ w, (Ok (nw_version w), w).

(** [INCRBY] of the version *)
Definition invalidate_cache : N unit := λ w, (Ok tt, w <| nw_version ::= (λ v, v + 1) |>).

(** [GET] and [SET ... EX] under a key that holds the version *)
Definition redis_get (key : Z * Z) : N (option Z) :=
  now ← nnow;
  (λ w, (Ok match nw_counts w !! key with
            | Some (n, expires) => if now <? expires then Some n else None
            | None => None
            end, w)) : N (option Z).
Definition redis_set (key : Z * Z) (n ttl : Z) : N unit :=
  now ← nnow;
  (λ w, (Ok tt, w <| nw_counts ::= <[key := (n, now + seconds ttl)]> |>)) : N unit.

(** [cache(..., func, ttl)] for the count of one user *)
Definition cache (user_id : Z) (func : N Z) (ttl : Z) : N Z :=
  version ← _get_list_version;
  cached ← redis_get (version, user_id);
  match cached with
  | Some n => mret n
  | None => n ← func; _ ← redis_set (version, user_id) n ttl; mret n
  end.
End NotificationRepository.

(** ** Push ([FirebaseAdminPushService]) *)
Module FirebaseAdminPushService.
Definition FIREBASE_SEND_BATCH_LIMIT : nat := 500.

Definition _build_multicast (tokens : list text) (n : Notification.t) : MulticastMessage :=
  MkMulticast tokens (Notification.title n) (or_none (Notification.message n))
    (prod_map id str_value <$> Notification.data n).

Definition _is_unregistered (r : fcm_reply) : bool :=
  match r with FcmUnregistered | FcmSenderIdMismatch => true | _ => false end.

Definition _collect_invalid_tokens (tokens : list text) (responses : list fcm_reply) : list text :=
  (filter (λ tr, _is_unregistered tr.2 = true) (zip tokens responses)).*1.

(** [tokens[i:i + limit] for i in range(0, len(tokens), limit)] *)
Fixpoint token_chunks (limit fuel : nat) (tokens : list text) : list (list text) :=
  match fuel, tokens with
  | S fuel, _ :: _ => take limit tokens :: token_chunks limit fuel (drop limit tokens)
  | _, _ => []
  end.

Section service.
Context `{Firebase}.

Definition send (message : MulticastMessage) : N (option (list fcm_reply)) := λ w,
  (Ok (send_each_for_multicast (length (nw_multicasts w)) message), w <| nw_multicasts ::= (λ l, l ++ [message]) |>).

(** the loop over the chunks; it answers the invalid tokens *)
Fixpoint send_chunks (n : Notification.t) (chunks : list (list text)) : N (list text) :=
  match chunks with
  | [] => mret []
  | chunk :: chunks =>
    response ← send (_build_multicast chunk n);
    rest ← send_chunks n chunks;
    mret (match response with Some replies => _collect_invalid_tokens chunk replies | None => [] end ++ rest)
  end.

Definition push (n : Notification.t) : N unit :=
  active ← nselect (DeviceRepository.get_active_by_user_id (Notification.user_id n));
  match active with
  | [] => mret tt
  | _ =>
    let tokens := UserDeviceToken.token <$> active in
    invalid_tokens ← send_chunks n (token_chunks FIREBASE_SEND_BATCH_LIMIT (length tokens) tokens);
    match invalid_tokens with [] => mret tt | _ => DeviceRepository.deactivate_tokens invalid_tokens end
  end.
End service.
End FirebaseAdminPushService.

(** ** Commands and queries *)
Module CreateUserDevice.
Record command : Type := Mk {
  platform : PlatformEnum;
  token : text;
  device_name : text;
  user_jwt_data : UserJWTData;
}.
Definition handle (cmd : command) : N unit :=
  let user_id := jwt_id (user_jwt_data cmd) in
  device ← nselect (DeviceRepository.get_device_by_user_token user_id (token cmd));
  _ ← match device with
      | Some d =>
        if UserDeviceToken.is_active d then nraise AlreadyExistDeviceTokenError
        else DeviceRepository.touch_device (UserDeviceToken.id d) UserDeviceToken.activate
      | None =>
        DeviceRepository.create (UserDeviceToken.create user_id (token cmd) (platform cmd) (device_name cmd)
          (jwt_device_id (user_jwt_data cmd)))
      end;
  ncommit.
End CreateUserDevice.

Module DeleteUserDevice.
Record command : Type := Mk {
  user_id : Z;
  device_id : text;
}.
Definition handle (cmd : command) : N unit :=
  device ← nselect (DeviceRepository.get_device_by_user_did (user_id cmd) (device_id cmd));
  match device with
  | None => nraise NotFoundUserDeviceError
  | Some d => _ ← DeviceRepository.touch_device (UserDeviceToken.id d) UserDeviceToken.deactivate; ncommit
  end.
End DeleteUserDevice.

Module MarkAllNotificationsAsRead.
Record command : Type := Mk { user_jwt_data : UserJWTData }.
(** the handler up to its commit *)
Definition mark (cmd : command) : N unit :=
  _ ← NotificationRepository.mark_all_as_read (jwt_id (user_jwt_data cmd)); ncommit.
Definition handle (cmd : command) : N unit := _ ← mark cmd; NotificationRepository.invalidate_cache.
End MarkAllNotificationsAsRead.

Module MarkNotificationAsRead.
Record command : Type := Mk {
  user_jwt_data : UserJWTData;
  notification_id : Z;
  is_read : bool;
}.
Definition mark (cmd : command) : N unit :=
  notification ← nselect (NotificationRepository.get_by_id (notification_id cmd));
  match notification with
  | None => nraise (NotFoundNotificationError (notification_id cmd))
  | Some n =>
    if negb (Notification.user_id n =? jwt_id (user_jwt_data cmd))
    then nraise (NotificationAccessDeniedError (notification_id cmd))
    else
      _ ← nexecute (λ s, s <| notifications ::= alter (λ n, n <| Notification.is_read := is_read cmd |>) (notification_id cmd) |>);
      ncommit
  end.
Definition handle (cmd : command) : N unit := _ ← mark cmd; NotificationRepository.invalidate_cache.
End MarkNotificationAsRead.

Module GetUnreadNotificationsCount.
Definition ttl : Z := 30.
Definition _handle (user_id : Z) : N Z := nselect (NotificationRepository.count_unread user_id).
Definition handle (user_id : Z) : N Z := NotificationRepository.cache user_id (_handle user_id) ttl.
End GetUnreadNotificationsCount.

Module PushNotification.
Record command : Type := Mk {
  user_id : Z;
  title : text;
  type : NotificationType;
  message : option text;
  data : payload;
}.
Section handler.
Context `{Firebase}.
Definition handle (cmd : command) : N unit :=
  let notification := Notification.create (user_id cmd) (type cmd) (title cmd) (message cmd) (data cmd) in
  _ ← NotificationRepository.create notification;
  _ ← ncommit;
  FirebaseAdminPushService.push notification.
End handler.
End PushNotification.

(** ** From the router to the recipients *)
Definition OFFLINE_PUSH_GROUP_ID : string := "offline-push".
Definition PUSH_DEFAULT_TITLE : text := u8 "Новое сообщение".

(** [_publish_offline_signal]; only a sent message has a [message_id] *)
Definition offline_event (s : OfflineSignal) : option OfflineEventDTO :=
  match we_delta (os_event s) with
  | DEvent (SendedMessageEvent message_id _ _ sender_id _ _) =>
    Some (MkOfflineEvent (we_event_id (os_event s)) (we_event_name (os_event s)) (we_chat_id (os_event s))
      message_id (os_offline_user_ids s) (we_ts (os_event s)) sender_id)
  | _ => None
  end.

Definition push_task (event : OfflineEventDTO) : PushOfflineRecipientsTask :=
  MkPushTask (str_uuid (oe_chat_id event)) (Some (str_uuid (oe_message_id event))) (oe_sender_id event)
    (oe_offline_user_ids event).

(** [queue_up]: whether the push to the queue succeeds; [false] when the delivery raises *)
Definition handle_chat_offline_delivery (queue_up : bool) (event : OfflineEventDTO) (w : notif_world)
  : bool * notif_world :=
  let '(acquired, processed) :=
    EventIdempotencyGuard.try_acquire OFFLINE_PUSH_GROUP_ID (oe_event_id event) (nw_processed w) in
  let w := w <| nw_processed := processed |> in
  if negb acquired then (true, w)
  else if queue_up then (true, w <| nw_queue ::= (λ q, q ++ [push_task event]) |>)
  else (false, w <| nw_processed ::= EventIdempotencyGuard.release OFFLINE_PUSH_GROUP_ID (oe_event_id event) |>).

Definition payload_of (task : PushOfflineRecipientsTask) : payload := [
  (u8 "chat_id", PStr (pt_chat_id task));
  (u8 "message_id", match pt_message_id task with Some m => PStr m | None => PNone end);
  (u8 "sender_id", match pt_sender_id task with Some u => PInt u | None => PNone end)].

(** [PushOfflineRecipientsTask.run]: a request per recipient, whose exceptions are logged *)
Definition push_one `{Firebase} (task : PushOfflineRecipientsTask) (w : notif_world) (user_id : Z) : notif_world :=
  (in_request (PushNotification.handle
    (PushNotification.Mk user_id PUSH_DEFAULT_TITLE CHAT_NOTICE None (payload_of task))) w).2.
Definition run_push_task `{Firebase} (task : PushOfflineRecipientsTask) (w : notif_world) : notif_world :=
  foldl (push_one task) w (pt_offline_user_ids task).

(** one delivery of the worker: the head of the queue *)
Definition work `{Firebase} (w : notif_world) : notif_world :=
  match nw_queue w with
  | [] => w
  | task :: queue => run_push_task task (w <| nw_queue := queue |>)
  end.

(** [delete_device] of [consumers/auth.py] *)
Definition delete_device (user_id : Z) (device_id : text) (w : notif_world) : result notif_error unit * notif_world :=
  in_request (DeleteUserDevice.handle (DeleteUserDevice.Mk user_id device_id)) w.

(** ** What a push leaves behind *)

(** all that another session or a cache can see *)
Definition kept (w w' : notif_world) : Prop :=
  nw_database w' = nw_database w ∧ nw_version w' = nw_version w ∧ nw_counts w' = nw_counts w
  ∧ nw_processed w' = nw_processed w ∧ nw_queue w' = nw_queue w.

#[export] Instance kept_refl : Reflexive kept.
Proof. by intros w. Qed.
#[export] Instance kept_trans : Transitive kept.
Proof. unfold kept. intros a b c H1 H2. destruct_and!. split_and!; congruence. Qed.

Lemma nbind_run {A B} (m : N A) (k : A → N B) w a w1 : m w = (Ok a, w1) → (m ≫= k) w = k a w1.
Proof. unfold mbind, N_bind. by intros ->. Qed.

(** a message for at most [limit] tokens, and every token in one *)
Lemma token_chunks_exact limit fuel : (0 < limit)%nat → ∀ tokens, (length tokens ≤ fuel)%nat →
  let chunks := FirebaseAdminPushService.token_chunks limit fuel tokens in
  concat chunks = tokens ∧ Forall (λ chunk, (0 < length chunk ≤ limit)%nat) chunks.
Proof.
  intros Hl. induction fuel as [|fuel IH]; intros [|t tokens] Hf; cbn in Hf |- *; [by split|lia|by split|].
  destruct (IH (drop limit (t :: tokens))) as [Hc Ha]; [rewrite length_drop; cbn; lia|].
  cbn in Hc. rewrite Hc, take_drop. split; [done|]. constructor; [|exact Ha]. rewrite length_take. cbn. lia.
Qed.

Section push.
Context `{Firebase}.

Lemma send_chunks_run n chunks : ∀ w, ∃ invalid w',
  FirebaseAdminPushService.send_chunks n chunks w = (Ok invalid, w') ∧ kept w w'.
Proof.
  induction chunks as [|chunk chunks IH]; intros w; [by exists [], w|]. cbn.
  set (message := FirebaseAdminPushService._build_multicast chunk n).
  destruct (IH (w <| nw_multicasts ::= (λ l, l ++ [message]) |>)) as (rest & w2 & E & Hk).
  exists (match send_each_for_multicast (length (nw_multicasts w)) message with
          | Some replies => FirebaseAdminPushService._collect_invalid_tokens chunk replies
          | None => []
          end ++ rest), w2.
  split; [|exact Hk]. unfold mbind, N_bind in *. cbn. by rewrite E.
Qed.

Lemma push_run n w : ∃ w', FirebaseAdminPushService.push n w = (Ok tt, w') ∧ kept w w'.
Proof.
  unfold FirebaseAdminPushService.push.
  set (active := DeviceRepository.get_active_by_user_id (Notification.user_id n) (nw_session w)).
  rewrite (nbind_run _ _ w active w) by done. destruct active as [|d active]; [by exists w|]. cbv zeta.
  set (chunks := FirebaseAdminPushService.token_chunks _ _ _).
  destruct (send_chunks_run n chunks w) as (invalid & w1 & E & Hk).
  rewrite (nbind_run _ _ _ _ _ E). destruct invalid; by eexists.
Qed.

(** the notification a command asks for, in the tables *)
Definition with_notification (cmd : PushNotification.command) (s : notif_store) : notif_store :=
  let id := next_notification_id s in
  s <| notifications ::= <[id := Notification.Mk id (PushNotification.user_id cmd) (PushNotification.type cmd)
         (PushNotification.title cmd) (PushNotification.message cmd) (PushNotification.data cmd) false]> |>
    <| next_notification_id := id + 1 |>.

(** A push stores one notification, whatever Firebase answers; what it does to
    devices is not committed. *)
Lemma push_request cmd w : ∃ w',
  in_request (PushNotification.handle cmd) w = (Ok tt, w')
  ∧ nw_database w' = with_notification cmd (nw_database w)
  ∧ kept (w <| nw_database := with_notification cmd (nw_database w) |>) w'.
Proof.
  unfold in_request, PushNotification.handle. cbv zeta.
  set (n := Notification.create _ _ _ _ _). set (s := with_notification cmd (nw_database w)).
  destruct (push_run n (w <| nw_session := s |> <| nw_database := s |>)) as (w' & E & Hk).
  rewrite (nbind_run _ _ _ tt (w <| nw_session := s |>)) by done.
  rewrite (nbind_run _ _ _ tt (w <| nw_session := s |> <| nw_database := s |>)) by done.
  rewrite E. eexists. split; [done|]. unfold kept in *. destruct_and!. split_and!; done.
Qed.

(** the tokens Firebase does not know stay active *)
Corollary unregistered_kept cmd w :
  devices (nw_database (in_request (PushNotification.handle cmd) w).2) = devices (nw_database w).
Proof. destruct (push_request cmd w) as (w' & -> & E & _). cbn. by rewrite E. Qed.
End push.

(** ** Every recipient is told once *)

(** notifications are filed under ids below the next one *)
Definition notifs_filed (s : notif_store) : Prop := ∀ i n, notifications s !! i = Some n → i < next_notification_id s.

(** how many notifications of [user_id] carry [p] *)
Definition told (user_id : Z) (p : payload) (s : notif_store) : Z :=
  count_where (λ kv, Notification.user_id kv.2 = user_id ∧ Notification.data kv.2 = p) (notifications s).

Lemma with_notification_filed cmd s : notifs_filed s → notifs_filed (with_notification cmd s).
Proof.
  intros Hf i n. cbn. rewrite lookup_insert. case_decide; [intros _; lia|]. intros Hi%Hf. lia.
Qed.

Lemma filed_next s : notifs_filed s → notifications s !! next_notification_id s = None.
Proof. intros Hf. apply eq_None_not_Some. intros [n Hn%Hf]. lia. Qed.

Definition matches (user_id : Z) (p : payload) (cmd : PushNotification.command) : Z :=
  if bool_decide (PushNotification.user_id cmd = user_id ∧ PushNotification.data cmd = p) then 1 else 0.

Lemma told_with_notification user_id p cmd s :
  notifs_filed s → told user_id p (with_notification cmd s) = told user_id p s + matches user_id p cmd.
Proof.
  intros Hf. unfold told, matches. cbn. case_bool_decide as Hm.
  - apply count_where_insert_in; [by apply filed_next|done].
  - rewrite Z.add_0_r. apply count_where_insert_out; [|done]. intros v'. by rewrite filed_next.
Qed.

(** [sum(f(x) for x in l)] *)
Definition total {A} (f : A → Z) (l : list A) : Z := foldr (λ x n, f x + n) 0 l.

Arguments total : simpl never.

Lemma total_nil {A} (f : A → Z) : total f [] = 0.
Proof. done. Qed.

Lemma total_cons {A} (f : A → Z) x l : total f (x :: l) = f x + total f l.
Proof. done. Qed.

Lemma total_app {A} (f : A → Z) l k : total f (l ++ k) = total f l + total f k.
Proof. unfold total. induction l as [|x l IH]; cbn; [done|]. rewrite IH. lia. Qed.

#[export] Instance total_Permutation {A} (f : A → Z) : Proper ((≡ₚ) ==> eq) (total f).
Proof. unfold total. induction 1; cbn; lia. Qed.

(** how many notifications a task owes a user *)
Definition due (user_id : Z) (p : payload) (task : PushOfflineRecipientsTask) : Z :=
  if bool_decide (payload_of task = p) then total (λ u, if bool_decide (u = user_id) then 1 else 0) (pt_offline_user_ids task)
  else 0.
Definition queued (user_id : Z) (p : payload) (w : notif_world) : Z := total (due user_id p) (nw_queue w).

Section offline.
Context `{Firebase}.

Lemma run_push_task_effect task w :
  notifs_filed (nw_database w) →
  let w' := run_push_task task w in
  notifs_filed (nw_database w') ∧ nw_processed w' = nw_processed w ∧ nw_queue w' = nw_queue w
  ∧ ∀ u p, told u p (nw_database w') = told u p (nw_database w) + due u p task.
Proof.
  unfold run_push_task, due. generalize (pt_offline_user_ids task) as users. intros users. revert w.
  induction users as [|user users IH]; intros w Hf.
  { cbn. split_and!; [done..|]. intros u p. rewrite total_nil. case_bool_decide; lia. }
  cbn [foldl]. set (cmd := PushNotification.Mk user PUSH_DEFAULT_TITLE CHAT_NOTICE None (payload_of task)).
  destruct (push_request cmd w) as (w1 & E1 & Ed & _ & _ & _ & Hp & Hq). 
  replace (push_one task w user) with w1 by (unfold push_one; fold cmd; by rewrite E1).
  destruct (IH w1) as (Hf' & Hp' & Hq' & Ht).
  { rewrite Ed. by apply with_notification_filed. }
  split_and!; [done|by rewrite Hp', Hp|by rewrite Hq', Hq|].
  intros u p. rewrite Ht, Ed, told_with_notification by done. unfold matches. subst cmd.
  cbn [PushNotification.user_id PushNotification.data]. rewrite total_cons, bool_decide_and.
  do 2 case_bool_decide; cbn [andb]; lia.
Qed.

(** the ways the offline signals travel: a delivery by Kafka, repeated or not,
    with the queue up or down, and a turn of the worker *)
Inductive offline_op : Type :=
| Delivered (queue_up : bool) (event : OfflineEventDTO)
| Worked.

Definition offline_turn (w : notif_world) (op : offline_op) : notif_world :=
  match op with
  | Delivered queue_up event => (handle_chat_offline_delivery queue_up event w).2
  | Worked => work w
  end.

#[export] Instance OfflineEventDTO_eq_dec : EqDecision OfflineEventDTO.
Proof. solve_decision. Defined.

(** the events that reached the queue *)
Definition accepted (h : list offline_op) : list OfflineEventDTO :=
  omap (λ op, match op with Delivered true event => Some event | _ => None end) h.

Lemma total_remove_dups {A} `{EqDecision A} (f : A → Z) l x :
  total f (remove_dups (l ++ [x])) = total f (remove_dups l) + if bool_decide (x ∈ l) then 0 else f x.
Proof.
  case_bool_decide as Hx.
  - rewrite Z.add_0_r. apply total_Permutation, NoDup_Permutation; try apply NoDup_remove_dups.
    intros y. rewrite !elem_of_remove_dups, elem_of_app, list_elem_of_singleton. naive_solver.
  - replace (total f (remove_dups l) + f x) with (total f (x :: remove_dups l)) by (rewrite total_cons; lia).
    apply total_Permutation, NoDup_Permutation; [apply NoDup_remove_dups|constructor; [by rewrite elem_of_remove_dups|apply NoDup_remove_dups]|].
    intros y. rewrite elem_of_cons, !elem_of_remove_dups, elem_of_app, list_elem_of_singleton. naive_solver.
Qed.

(** every delivery of an event carries the same message *)
Definition consistent (h : list offline_op) : Prop :=
  ∀ b1 e1 b2 e2, Delivered b1 e1 ∈ h → Delivered b2 e2 ∈ h → oe_event_id e1 = oe_event_id e2 → e1 = e2.

Lemma elem_of_accepted h e : e ∈ accepted h ↔ Delivered true e ∈ h.
Proof.
  unfold accepted. rewrite list_elem_of_omap. split; [|by exists (Delivered true e)].
  intros ([[] x|] & Hx & E); try done. by injection E as ->.
Qed.

(** no event of [h] was handled before *)
Definition unhandled (h : list offline_op) (w : notif_world) : Prop :=
  ∀ b e, Delivered b e ∈ h → (OFFLINE_PUSH_GROUP_ID, oe_event_id e) ∉ nw_processed w.

(** what the history did so far: the ids taken, and the notifications written or due *)
Lemma offline_history h w :
  notifs_filed (nw_database w) → unhandled h w → consistent h →
  let w' := foldl offline_turn w h in
  notifs_filed (nw_database w')
  ∧ (∀ x, (OFFLINE_PUSH_GROUP_ID, x) ∈ nw_processed w' ↔
       (OFFLINE_PUSH_GROUP_ID, x) ∈ nw_processed w ∨ ∃ e, e ∈ accepted h ∧ oe_event_id e = x)
  ∧ ∀ u p, told u p (nw_database w') + queued u p w'
      = told u p (nw_database w) + queued u p w + total (λ e, due u p (push_task e)) (remove_dups (accepted h)).
Proof.
  intros Hf. induction h as [|op h IH] using rev_ind; intros Hun Hcon.
  { cbn. split_and!; [done| |intros; rewrite total_nil; lia]. intros x. split; [by left|]. by intros [?|(e & ?%not_elem_of_nil & _)]. }
  destruct IH as (Hf' & Hp & Ht).
  { intros b e He. apply (Hun b). apply elem_of_app. by left. }
  { intros b1 e1 b2 e2 H1 H2. apply (Hcon b1 _ b2); apply elem_of_app; by left. }
  rewrite foldl_snoc. set (w1 := foldl offline_turn w h) in *.
  unfold accepted in *. rewrite omap_app. fold (accepted h) in *. destruct op as [up e|]; cbn [offline_turn].
  - assert ((OFFLINE_PUSH_GROUP_ID, oe_event_id e) ∉ nw_processed w) as Hnew.
    { apply (Hun up), elem_of_app. right. by apply list_elem_of_singleton. }
    unfold handle_chat_offline_delivery, EventIdempotencyGuard.try_acquire. case_bool_decide as Hacq; cbn [negb].
    + assert (e ∉ accepted h) as He by (intros He; apply Hacq, Hp; right; by exists e).
      destruct up.
      * split_and!; [done| |].
        -- intros x. cbn. rewrite elem_of_union, elem_of_singleton, Hp. setoid_rewrite elem_of_app.
           setoid_rewrite list_elem_of_singleton. naive_solver.
        -- intros u p. specialize (Ht u p). unfold queued in *. cbn. rewrite total_app, total_remove_dups, bool_decide_false by done.
           rewrite total_cons. rewrite total_nil. lia.
      * split_and!; [done| |].
        -- intros x. cbn. unfold EventIdempotencyGuard.release. rewrite app_nil_r, <- Hp.
           rewrite elem_of_difference, elem_of_union, elem_of_singleton. naive_solver.
        -- intros u p. specialize (Ht u p). rewrite app_nil_r. exact Ht.
    + assert (e ∈ accepted h) as He.
      { apply Hp in Hacq as [?|(e' & He' & Hid)]; [done|].
        rewrite (Hcon up e true e'); [done| | |done]; apply elem_of_app.
        - right. by apply list_elem_of_singleton.
        - left. by apply elem_of_accepted. }
      assert ({[(OFFLINE_PUSH_GROUP_ID, oe_event_id e)]} ∪ nw_processed w1 = nw_processed w1) as Hsame by set_solver.
      split_and!; [done| |].
      * intros x. cbn. rewrite Hsame, Hp. destruct up; [|by rewrite app_nil_r]. setoid_rewrite elem_of_app.
        setoid_rewrite list_elem_of_singleton. naive_solver.
      * intros u p. specialize (Ht u p). destruct up; [|rewrite app_nil_r; exact Ht].
        change (omap _ [Delivered true e]) with [e]. rewrite total_remove_dups, bool_decide_true by done. rewrite Z.add_0_r. exact Ht.
  - rewrite app_nil_r. unfold work. destruct (nw_queue w1) as [|task queue] eqn:Eq; [done|].
    assert (notifs_filed (nw_database (w1 <| nw_queue := queue |>))) as Hf1 by exact Hf'.
    destruct (run_push_task_effect task _ Hf1) as (Hf2 & Hp2 & Hq2 & Ht2).
    split_and!; [done|intros x; by rewrite Hp2, Hp|].
    intros u p. specialize (Ht u p). rewrite Ht2. unfold queued in *. rewrite Hq2. rewrite Eq, total_cons in Ht. cbn. lia.
Qed.

(** C25: Every recipient is told once. However often Kafka repeats the offline
    signals, whenever the queue refuses them and whatever Firebase answers, once
    the worker has drained the queue each signal that reached it has stored
    exactly one notification per recipient it lists, and nothing else was
    stored. *)
Theorem recipients_told_once h w :
  notifs_filed (nw_database w) → unhandled h w → consistent h → nw_queue w = [] →
  let w' := foldl offline_turn w h in
  nw_queue w' = [] → ∀ u p,
  told u p (nw_database w')
  = told u p (nw_database w) + total (λ e, due u p (push_task e)) (remove_dups (accepted h)).
Proof.
  intros Hf Hun Hcon Hq w' Hq' u p. destruct (offline_history h w Hf Hun Hcon) as (_ & _ & Ht). specialize (Ht u p).
  fold w' in Ht. unfold queued in Ht. rewrite Hq, Hq', !total_nil in Ht. lia.
Qed.
End offline.

(** ** The count of unread notifications

    Requests interleave: a reader of the count holds on to the key it built
    while others commit, and a request that marks notifications invalidates the
    cache only after its commit. *)
Inductive reader_pc : Type :=
| Asked
| Keyed (version : Z)
| Missed (version : Z)
| Counted (version n : Z)
| Answered (n : Z).

(** [us_marked] requests have committed and not yet invalidated the cache *)
Record unread_system : Type := MkUnread {
  us_world : notif_world;
  us_readers : gmap nat (Z * reader_pc);
  us_marked : nat;
}.
#[global] Instance unread_system_settable : Settable unread_system := λ s,
  MkUnread (us_world s) (us_readers s) (us_marked s).

Inductive unread_op : Type :=
| Ask (reader : nat) (user_id : Z)
| Read (reader : nat)
| MarkAll (cmd : MarkAllNotificationsAsRead.command)
| MarkOne (cmd : MarkNotificationAsRead.command)
| Invalidate
| Push (cmd : PushNotification.command).

Section unread.
Context `{Firebase}.

(** one Redis command or statement of [NotificationRepository.cache] *)
Definition read_turn (user_id : Z) (pc : reader_pc) (w : notif_world) : option (reader_pc * notif_world) :=
  match pc with
  | Asked =>
    match NotificationRepository._get_list_version w with
    | (Ok v, w) => Some (Keyed v, w) | (Err _, _) => None
    end
  | Keyed v =>
    match NotificationRepository.redis_get (v, user_id) w with
    | (Ok (Some n), w) => Some (Answered n, w)
    | (Ok None, w) => Some (Missed v, w)
    | (Err _, _) => None
    end
  | Missed v =>
    match in_request (GetUnreadNotificationsCount._handle user_id) w with
    | (Ok n, w) => Some (Counted v n, w) | (Err _, _) => None
    end
  | Counted v n =>
    match NotificationRepository.redis_set (v, user_id) n GetUnreadNotificationsCount.ttl w with
    | (Ok _, w) => Some (Answered n, w) | (Err _, _) => None
    end
  | Answered _ => None
  end.

(** a request that marks, up to its commit *)
Definition mark_turn (m : N unit) (s : unread_system) : option unread_system :=
  match in_request m (us_world s) with
  | (Ok _, w) => Some (s <| us_world := w |> <| us_marked ::= S |>)
  | (Err _, w) => Some (s <| us_world := w |>)
  end.

Definition unread_turn (op : unread_op) (s : unread_system) : option unread_system :=
  match op with
  | Ask reader user_id =>
    match us_readers s !! reader with
    | None => Some (s <| us_readers ::= <[reader := (user_id, Asked)]> |>)
    | Some _ => None
    end
  | Read reader =>
    '(user_id, pc) ← us_readers s !! reader;
    '(pc, w) ← read_turn user_id pc (us_world s);
    Some (s <| us_world := w |> <| us_readers ::= <[reader := (user_id, pc)]> |>)
  | MarkAll cmd => mark_turn (MarkAllNotificationsAsRead.mark cmd) s
  | MarkOne cmd => mark_turn (MarkNotificationAsRead.mark cmd) s
  | Invalidate =>
    match us_marked s with
    | O => None
    | S k => Some (s <| us_world ::= (λ w, (NotificationRepository.invalidate_cache w).2) |> <| us_marked := k |>)
    end
  | Push cmd => Some (s <| us_world ::= (λ w, (in_request (PushNotification.handle cmd) w).2) |>)
  end.

Definition unread_step (s s' : unread_system) : Prop := ∃ op, unread_turn op s = Some s'.

(** read alone, these steps are the query *)
Lemma read_alone user_id w :
  nw_session w = nw_database w →
  let '(r, w') := GetUnreadNotificationsCount.handle user_id w in
  ∃ n, r = Ok n ∧ ∃ v w1 , read_turn user_id Asked w = Some (Keyed v, w1)
    ∧ (read_turn user_id (Keyed v) w1 = Some (Answered n, w')
       ∨ ∃ w2 w3, read_turn user_id (Keyed v) w1 = Some (Missed v, w2)
          ∧ read_turn user_id (Missed v) w2 = Some (Counted v n, w3)
          ∧ read_turn user_id (Counted v n) w3 = Some (Answered n, w')).
Proof.
  intros Hs. unfold GetUnreadNotificationsCount.handle, NotificationRepository.cache.
  rewrite (nbind_run _ _ w (nw_version w) w) by done.
  destruct (NotificationRepository.redis_get (nw_version w, user_id) w) as [r w1] eqn:E.
  assert (nw_session w1 = nw_database w1) as Hs1 by (injection E as _ <-; exact Hs).
  destruct r as [o|]; [|done]. rewrite (nbind_run _ _ _ _ _ E). destruct o as [n|].
  - exists n. split; [done|]. exists (nw_version w), w. cbn [read_turn]. rewrite E. split; [done|by left].
  - set (n := NotificationRepository.count_unread user_id (nw_session w1)).
    rewrite (nbind_run _ _ w1 n w1) by done.
    destruct (NotificationRepository.redis_set (nw_version w, user_id) n GetUnreadNotificationsCount.ttl w1) as [r w2] eqn:E2.
    destruct r as [u|]; [|done]. rewrite (nbind_run _ _ _ _ _ E2).
    exists n. split; [done|]. exists (nw_version w), w. cbn [read_turn]. rewrite E. split; [done|]. right.
    exists w1, w1. split; [done|]. rewrite E2. split; [|done]. unfold n, in_request. cbn. rewrite <- Hs1. by destruct w1.
Qed.

(** *** Marking keeps the cache and the numbers of rows *)
Definition marks (m : N unit) : Prop := ∀ w,
  let '(r, w') := in_request m w in
  nw_version w' = nw_version w ∧ nw_counts w' = nw_counts w
  ∧ (notifs_filed (nw_database w) → notifs_filed (nw_database w'))
  ∧ match r with Ok _ => True | Err _ => nw_database w' = nw_database w end.

Lemma mark_all_marks cmd : marks (MarkAllNotificationsAsRead.mark cmd).
Proof.
  intros w. cbn. split_and!; [done..| |done]. intros Hf i n. cbn. rewrite lookup_fmap.
  intros (n' & Hn & _)%fmap_Some. exact (Hf _ _ Hn).
Qed.

Lemma mark_one_marks cmd : marks (MarkNotificationAsRead.mark cmd).
Proof.
  intros w. unfold in_request, MarkNotificationAsRead.mark, NotificationRepository.get_by_id.
  unfold mbind at 1, N_bind at 1, nselect. destruct (notifications _ !! _) as [n|]; [|done].
  destruct (negb _); [done|]. cbn. split_and!; [done..| |done]. intros Hf i n'. cbn. rewrite lookup_alter.
  case_decide; [|apply Hf]. intros (x & Hx & _)%fmap_Some. subst. exact (Hf _ _ Hx).
Qed.

Lemma unread_with_notification u cmd s :
  notifs_filed s → NotificationRepository.count_unread u s ≤ NotificationRepository.count_unread u (with_notification cmd s).
Proof.
  intros Hf. unfold NotificationRepository.count_unread. cbn.
  set (row := Notification.Mk _ _ _ _ _ _ _).
  destruct (decide (Notification.user_id row = u ∧ Notification.is_read row = false)) as [Hr|Hr].
  - rewrite count_where_insert_in; [lia|by apply filed_next|done].
  - rewrite count_where_insert_out; [lia| |done]. intros v'. by rewrite filed_next.
Qed.

(** [n] was counted for [u] under version [v], and nothing was marked since
    while that version lasts *)
Definition counted (s : unread_system) (v u n : Z) : Prop :=
  v ≤ nw_version (us_world s)
  ∧ (us_marked s = 0%nat → v = nw_version (us_world s) →
     n ≤ NotificationRepository.count_unread u (nw_database (us_world s))).

Definition pc_honest (s : unread_system) (u : Z) (pc : reader_pc) : Prop :=
  match pc with
  | Asked | Answered _ => True
  | Keyed v | Missed v => v ≤ nw_version (us_world s)
  | Counted v n => counted s v u n
  end.

Record honest (s : unread_system) : Prop := {
  ho_filed : notifs_filed (nw_database (us_world s));
  ho_entries v u n e : nw_counts (us_world s) !! (v, u) = Some (n, e) → counted s v u n;
  ho_readers c u pc : us_readers s !! c = Some (u, pc) → pc_honest s u pc;
}.

(** a turn that leaves the version and what is marked, and removes no unread notification *)
Definition steady (s s' : unread_system) : Prop :=
  nw_version (us_world s') = nw_version (us_world s) ∧ us_marked s' = us_marked s
  ∧ ∀ u, NotificationRepository.count_unread u (nw_database (us_world s))
         ≤ NotificationRepository.count_unread u (nw_database (us_world s')).

(** how a turn may change what was counted *)
Definition carries (s s' : unread_system) : Prop :=
  nw_version (us_world s) ≤ nw_version (us_world s') ∧ ∀ v u n, counted s v u n → counted s' v u n.

Lemma steady_carries s s' : steady s s' → carries s s'.
Proof.
  intros (Ev & Em & Hc). split; [lia|]. intros v u n [Hv Hn]. unfold counted. rewrite Ev, Em. split; [done|].
  intros H1 H2. specialize (Hc u). specialize (Hn H1 H2). lia.
Qed.

Lemma marked_carries s s' k :
  nw_version (us_world s') = nw_version (us_world s) → us_marked s' = S k → carries s s'.
Proof. intros Ev Em. split; [lia|]. intros v u n [Hv _]. split; [lia|]. by rewrite Em. Qed.

Lemma bumped_carries s s' : nw_version (us_world s) < nw_version (us_world s') → carries s s'.
Proof. intros Hv. split; [lia|]. intros v u n [? _]. split; [lia|]. intros _. lia. Qed.

Lemma pc_carried s s' u pc : carries s s' → pc_honest s u pc → pc_honest s' u pc.
Proof. intros [Hv Hc]. destruct pc; cbn; try done; try lia. apply Hc. Qed.

(** the entries and readers stay; what is counted is carried over *)
Lemma honest_carried s s' :
  honest s → carries s s' → notifs_filed (nw_database (us_world s')) →
  nw_counts (us_world s') = nw_counts (us_world s) → us_readers s' = us_readers s → honest s'.
Proof.
  intros [_ He Hr] Hca Hf Ec Er. split; [done| |].
  - intros v u n e. rewrite Ec. intros H1%He. by apply Hca.
  - intros c u pc. rewrite Er. intros H1%Hr. by eapply pc_carried.
Qed.

Lemma mark_honest m s s' : marks m → honest s → mark_turn m s = Some s' → honest s'.
Proof.
  intros Hm Hh. unfold mark_turn. specialize (Hm (us_world s)). destruct (in_request m _) as [[u|e] w].
  all: destruct Hm as (Ev & Ec & Hf & Hd); intros [= <-]; pose proof (ho_filed _ Hh).
  all: apply (honest_carried s); cbn; auto.
  - by eapply marked_carries.
  - apply steady_carries. split_and!; [done..|]. intros u. cbn. by rewrite Hd.
Qed.

(** the two Redis commands *)
Lemma redis_get_run key w : ∃ o,
  NotificationRepository.redis_get key w = (Ok o, w <| nw_ticks ::= S |>)
  ∧ ∀ n, o = Some n → ∃ e, nw_counts w !! key = Some (n, e).
Proof.
  eexists. split; [reflexivity|]. intros n. cbn. destruct (nw_counts w !! key) as [[k e]|]; [|done].
  destruct (_ <? e); [|done]. intros [= <-]. by exists e.
Qed.

Lemma redis_set_run key n ttl w : ∃ e,
  NotificationRepository.redis_set key n ttl w
  = (Ok tt, w <| nw_ticks ::= S |> <| nw_counts ::= <[key := (n, e)]> |>).
Proof. by eexists. Qed.

(** a reader's turn: the tables stay, and what it has counted is what there is *)
Lemma read_honest s u pc pc' w c :
  honest s → us_readers s !! c = Some (u, pc) → read_turn u pc (us_world s) = Some (pc', w) →
  honest (s <| us_world := w |> <| us_readers ::= <[c := (u, pc')]> |>).
Proof.
  intros Hh Hc Ht. pose proof (ho_readers _ Hh _ _ _ Hc) as Hpc.
  assert (nw_version w = nw_version (us_world s) ∧ nw_database w = nw_database (us_world s)
    ∧ pc_honest s u pc' ∧ ∀ v x n e, nw_counts w !! (v, x) = Some (n, e) → counted s v x n) as (Ev & Ed & Hpc' & He).
  { destruct pc as [|v|v|v n|n]; cbn in Ht.
    - injection Ht as <- <-. split_and!; [done..|cbn; lia|apply (ho_entries _ Hh)].
    - destruct (redis_get_run (v, u) (us_world s)) as (o & E & _). rewrite E in Ht.
      destruct o; injection Ht as <- <-; (split_and!; [done..| |apply (ho_entries _ Hh)]); done.
    - injection Ht as <- <-. split_and!; [done..| |apply (ho_entries _ Hh)]. split; [exact Hpc|]. intros _ _. done.
    - destruct (redis_set_run (v, u) n GetUnreadNotificationsCount.ttl (us_world s)) as (e0 & E). rewrite E in Ht.
      injection Ht as <- <-. split_and!; [done..|]. intros v' x n' e. cbn. rewrite lookup_insert_Some.
      intros [[[= <- <-] [= <- <-]]|[_ Hx]]; [exact Hpc|]. by eapply (ho_entries _ Hh).
    - done. }
  assert (carries s (s <| us_world := w |> <| us_readers ::= <[c := (u, pc')]> |>)) as Hca.
  { apply steady_carries. split_and!; [done..|]. intros x. cbn. by rewrite Ed. }
  split; cbn.
  - rewrite Ed. apply (ho_filed _ Hh).
  - intros v x n e Hx. apply Hca. by eapply He.
  - intros c' x pc0. rewrite lookup_insert_Some. intros [[_ [= <- <-]]|[_ Hx]]; eapply pc_carried; try exact Hca; [done|].
    by eapply (ho_readers _ Hh).
Qed.

Lemma turn_honest op s s' : honest s → unread_turn op s = Some s' → honest s'.
Proof.
  intros Hh. destruct op as [c u|c|cmd|cmd| |cmd]; cbn.
  - destruct (us_readers s !! c); [done|]. intros [= <-]. destruct Hh as [Hf He Hr]. split; [done|exact He|].
    intros c' x pc. cbn. rewrite lookup_insert_Some. intros [[_ [= <- <-]]|[_ Hx]]; [done|]. exact (Hr _ _ _ Hx).
  - intros ([u pc] & Hc & H1)%bind_Some. apply bind_Some in H1 as ([pc' w] & Ht & [= <-]). by eapply read_honest.
  - apply mark_honest; [apply mark_all_marks|done].
  - apply mark_honest; [apply mark_one_marks|done].
  - destruct (us_marked s); [done|]. intros [= <-]. apply (honest_carried s); cbn; auto; [|apply (ho_filed _ Hh)].
    apply bumped_carries. cbn. lia.
  - intros [= <-]. destruct (push_request cmd (us_world s)) as (w & E & Ed & _ & Ev & Ec & _).
    pose proof (ho_filed _ Hh) as Hf.
    apply (honest_carried s); cbn; rewrite ?E; cbn; [done| |rewrite Ed; by apply with_notification_filed|done|done].
    apply steady_carries. split_and!; cbn; rewrite ?E; [done..|]. intros u. cbn. rewrite Ed. by apply unread_with_notification.
Qed.

Lemma steps_honest s s' : rtc unread_step s s' → honest s → honest s'.
Proof. induction 1 as [|s1 s2 s3 [op Hop] _ IH]; [done|]. intros Hh. by eapply IH, turn_honest. Qed.

(** the version a reader has built its key with *)
Definition pc_version (pc : reader_pc) : option Z :=
  match pc with Keyed v | Missed v | Counted v _ => Some v | _ => None end.

(** C26: The count of unread notifications never includes one that a finished
    request has marked. Readers, pushes and requests that mark interleave at
    every command and statement; yet when a reader that has built its key since
    the last invalidation answers, and no request is between its commit and its
    invalidation, the answer is at most the number of unread notifications. *)
Theorem unread_never_overcounts s s1 s2 c u pc n :
  honest s → rtc unread_step s s1 →
  us_marked s1 = 0%nat → us_readers s1 !! c = Some (u, pc) → pc_version pc = Some (nw_version (us_world s1)) →
  unread_turn (Read c) s1 = Some s2 → us_readers s2 !! c = Some (u, Answered n) →
  n ≤ NotificationRepository.count_unread u (nw_database (us_world s2)).
Proof.
  intros Hh Hsteps Hm Hc Hv Ht Ha. pose proof (steps_honest _ _ Hsteps Hh) as H1.
  cbn in Ht. rewrite Hc in Ht. cbn in Ht. apply bind_Some in Ht as ([pc' w] & Hr & [= <-]).
  cbn in Ha. rewrite lookup_insert_eq in Ha. injection Ha as ->. cbn.
  destruct pc as [|v|v|v k|k]; try done; injection Hv as Hv; subst v; cbn in Hr.
  - destruct (redis_get_run (nw_version (us_world s1), u) (us_world s1)) as (o & E & Ho). rewrite E in Hr.
    destruct o as [k|]; [|done]. injection Hr as <- <-. destruct (Ho k eq_refl) as [e He].
    exact (proj2 (ho_entries _ H1 _ _ _ _ He) Hm eq_refl).
  - destruct (redis_set_run (nw_version (us_world s1), u) k GetUnreadNotificationsCount.ttl (us_world s1)) as (e & E).
    rewrite E in Hr. injection Hr as <- <-. exact (proj2 (ho_readers _ H1 _ _ _ Hc) Hm eq_refl).
Qed.
End unread.

(** ** Devices *)

(** rows are filed under their ids, and the two constraints hold *)
Record devices_ok (s : notif_store) : Prop := {
  dv_filed i d : devices s !! i = Some d → UserDeviceToken.id d = i ∧ i < next_device_id s;
  dv_unique i j d e : devices s !! i = Some d → devices s !! j = Some e →
    UserDeviceToken.user_id d = UserDeviceToken.user_id e →
    UserDeviceToken.token d = UserDeviceToken.token e ∨ UserDeviceToken.did d = UserDeviceToken.did e → i = j;
}.

Lemma devices_ok_alter s id f :
  (∀ d, UserDeviceToken.id (f d) = UserDeviceToken.id d ∧ UserDeviceToken.user_id (f d) = UserDeviceToken.user_id d
        ∧ UserDeviceToken.token (f d) = UserDeviceToken.token d ∧ UserDeviceToken.did (f d) = UserDeviceToken.did d) →
  devices_ok s → devices_ok (s <| devices ::= alter f id |>).
Proof.
  intros Hf [Hi Hu].
  assert (∀ i d, alter f id (devices s) !! i = Some d → ∃ d', devices s !! i = Some d'
    ∧ UserDeviceToken.id d = UserDeviceToken.id d' ∧ UserDeviceToken.user_id d = UserDeviceToken.user_id d'
    ∧ UserDeviceToken.token d = UserDeviceToken.token d' ∧ UserDeviceToken.did d = UserDeviceToken.did d') as Ha.
  { intros i d. destruct (decide (id = i)) as [->|Hne].
    - rewrite lookup_alter_eq. intros (d' & Hd & ->)%fmap_Some. exists d'. split; [done|]. apply Hf.
    - rewrite lookup_alter_ne by done. intros Hd. by exists d. }
  split; cbn.
  - intros i d (d' & Hd & -> & _)%Ha. exact (Hi _ _ Hd).
  - intros i j d e (d' & Hd & _ & Eu & Et & Ed)%Ha (e' & He & _ & Eu' & Et' & Ed')%Ha. rewrite Eu, Et, Ed, Eu', Et', Ed'. eauto.
Qed.

(** what a registration answers and writes *)
Definition registered (cmd : CreateUserDevice.command) (r : result notif_error unit) (s s' : notif_store) : Prop :=
  let user_id := jwt_id (CreateUserDevice.user_jwt_data cmd) in
  let did := jwt_device_id (CreateUserDevice.user_jwt_data cmd) in
  let token := CreateUserDevice.token cmd in
  match DeviceRepository.get_device_by_user_token user_id token s with
  | Some d =>
    if UserDeviceToken.is_active d then r = Err AlreadyExistDeviceTokenError ∧ s' = s
    else r = Ok tt ∧ s' = s <| devices ::= alter UserDeviceToken.activate (UserDeviceToken.id d) |>
  | None =>
    match DeviceRepository.get_device_by_user_did user_id did s with
    | Some _ => r = Err (DeviceIntegrityError "uq_device_did") ∧ s' = s
    | None => r = Ok tt ∧ devices s' = <[next_device_id s := UserDeviceToken.Mk (next_device_id s) user_id did token
        (CreateUserDevice.platform cmd) (CreateUserDevice.device_name cmd) true]> (devices s)
        ∧ next_device_id s' = next_device_id s + 1 ∧ notifications s' = notifications s
    end
  end.

(** A registration answers as its rows say, and the constraints keep holding.
    A new token for a device that is known raises an exception nobody handles. *)
Lemma registration_outcome cmd w :
  devices_ok (nw_database w) →
  let '(r, w') := in_request (CreateUserDevice.handle cmd) w in
  registered cmd r (nw_database w) (nw_database w') ∧ devices_ok (nw_database w').
Proof.
  intros Hok. unfold in_request, CreateUserDevice.handle, registered. cbv zeta.
  set (u := jwt_id _). set (s := nw_database w) in *. set (w0 := w <| nw_session := s |>).
  rewrite (nbind_run _ _ w0 (DeviceRepository.get_device_by_user_token u (CreateUserDevice.token cmd) s) w0) by done.
  destruct (DeviceRepository.get_device_by_user_token u _ s) as [d|] eqn:Et.
  { destruct (UserDeviceToken.is_active d); [by split|]. split; [done|]. by apply devices_ok_alter. }
  unfold DeviceRepository.get_device_by_user_token in Et. unfold DeviceRepository.get_device_by_user_did.
  set (m := DeviceRepository.create _). unfold mbind, N_bind. unfold m, DeviceRepository.create. cbn -[first_row].
  fold s u. rewrite Et. cbn [is_some]. cbv iota.
  pose proof (proj1 (first_row_None _ _) Et) as Ht. clear Et.
  destruct (first_row _ (devices s)) as [d|] eqn:Ed; cbn [is_some]; [by split|]. split; [done|].
  pose proof (proj1 (first_row_None _ _) Ed) as Hd.
  destruct Hok as [Hf Hu]. split; cbn.
  - intros i e. rewrite lookup_insert_Some. intros [[<- <-]|[_ [? ?]%Hf]]; cbn; [|split; [done|]]; lia.
  - assert (∀ i e, devices s !! i = Some e → u = UserDeviceToken.user_id e →
      CreateUserDevice.token cmd = UserDeviceToken.token e
      ∨ jwt_device_id (CreateUserDevice.user_jwt_data cmd) = UserDeviceToken.did e → False) as Hnew.
    { intros i e He Eu [E|E]; [specialize (Ht i e He)|specialize (Hd i e He)]; cbn in *;
        rewrite Eu, E, Z.eqb_refl, bool_decide_true in * by done; done. }
    intros i j d e. rewrite !lookup_insert_Some. intros [[<- <-]|[_ H1]] [[<- <-]|[_ H2]]; cbn; try done.
    + intros Eu E. exfalso. by eapply Hnew.
    + intros Eu E. exfalso. eapply Hnew; [exact H1|done|]. destruct E; auto.
    + by apply Hu.
Qed.

(** ** Concrete histories *)

Definition empty_store : notif_store := MkNotifStore ∅ ∅ 1 1.
Definition quiet (s : notif_store) : notif_world := MkNotif s s (λ n, Z.of_nat n) 0 0 ∅ [] ∅ [].
Lemma quiet_filed : notifs_filed empty_store.
Proof. intros i n Hi. cbn in Hi. by rewrite lookup_empty in Hi. Qed.

#[local] Instance sample_firebase : Firebase := λ _ m, Some (const FcmUnregistered <$> mc_tokens m).

Definition sample_signal : OfflineEventDTO := MkOfflineEvent 11 "MessageSentEvent" 5 6 [2; 3] 0 (Some 1).
Definition sample_deliveries : list offline_op :=
  [Delivered false sample_signal; Delivered true sample_signal; Delivered true sample_signal; Worked].

(** the queue refuses the signal once, and Kafka repeats it twice more *)
Lemma recipients_told_once_witness :
  told 2 (payload_of (push_task sample_signal))
    (nw_database (foldl offline_turn (quiet empty_store) sample_deliveries)) = 1.
Proof.
  rewrite (recipients_told_once sample_deliveries (quiet empty_store)).
  - vm_compute. reflexivity.
  - exact quiet_filed.
  - intros b e _. set_solver.
  - intros b1 e1 b2 e2 H1 H2 _.
    assert (∀ b e, Delivered b e ∈ sample_deliveries → e = sample_signal) as Hs.
    { intros b e. unfold sample_deliveries. rewrite !elem_of_cons, elem_of_nil. naive_solver. }
    by rewrite (Hs _ _ H1), (Hs _ _ H2).
  - reflexivity.
  - vm_compute. reflexivity.
Defined.

Definition sample_jwt (device_id : text) : UserJWTData := MkJWT 7 (u8 "ann") [] [] 0 device_id.
Definition sample_push : PushNotification.command := PushNotification.Mk 7 (u8 "hi") SYSTEM_NOTICE None [].

(** of two notifications one is marked while a reader waits *)
Definition sample_unread : unread_system := MkUnread (quiet empty_store) ∅ 0.
Definition sample_turns : list unread_op :=
  [Push sample_push; Push sample_push; Ask 0 7; Read 0; MarkOne (MarkNotificationAsRead.Mk (sample_jwt []) 1 true);
   Invalidate; Ask 1 7; Read 1; Read 1; Read 1].

Fixpoint unread_turns (ops : list unread_op) (s : unread_system) : option unread_system :=
  match ops with [] => Some s | op :: ops => s ← unread_turn op s; unread_turns ops s end.
Lemma unread_turns_steps ops : ∀ s s', unread_turns ops s = Some s' → rtc unread_step s s'.
Proof.
  induction ops as [|op ops IH]; intros s s'; cbn [unread_turns]; [by intros [= ->]|].
  intros (s1 & Hop & Hs)%bind_Some. apply rtc_l with s1; [by exists op|by apply IH].
Qed.

Definition after_turns : unread_system := default sample_unread (unread_turns sample_turns sample_unread).
Definition after_answer : unread_system := default sample_unread (unread_turn (Read 1) after_turns).
Lemma after_turns_reached : unread_turns sample_turns sample_unread = Some after_turns.
Proof. unfold after_turns. destruct (unread_turns _ _) eqn:E; [done|]. vm_compute in E. done. Qed.
Lemma after_answer_reached : unread_turn (Read 1) after_turns = Some after_answer.
Proof. unfold after_answer. destruct (unread_turn _ _) eqn:E; [done|]. vm_compute in E. done. Qed.

Lemma sample_honest : honest sample_unread.
Proof. split; [exact quiet_filed|intros v u n e Hi|intros c u pc Hi]; cbn in Hi; by rewrite lookup_empty in Hi. Qed.

Lemma unread_never_overcounts_witness :
  1 ≤ NotificationRepository.count_unread 7 (nw_database (us_world after_answer)).
Proof.
  apply (unread_never_overcounts sample_unread after_turns after_answer 1%nat 7 (Counted 1 1) 1).
  - exact sample_honest.
  - exact (unread_turns_steps _ _ _ after_turns_reached).
  - vm_compute. reflexivity.
  - vm_compute. reflexivity.
  - vm_compute. reflexivity.
  - exact after_answer_reached.
  - vm_compute. reflexivity.
Defined.

(** a device that is known and comes with a new token of Firebase *)
Example new_token_refused :
  let w := (in_request (CreateUserDevice.handle (CreateUserDevice.Mk ios (u8 "t1") (u8 "phone") (sample_jwt (u8 "d"))))
              (quiet empty_store)).2 in
  (in_request (CreateUserDevice.handle (CreateUserDevice.Mk ios (u8 "t2") (u8 "phone") (sample_jwt (u8 "d")))) w).1
  = Err (DeviceIntegrityError "uq_device_did").
Proof. vm_compute. reflexivity. Qed.

(** ** Idempotent requests ([IdempotencyStore.run]) for one key

    The operation of a call is an argument; it may raise. One command of Redis
    or one run of the operation is a step, so that calls interleave. *)
Module IdempotencyStore.
Inductive outcome (R : Type) : Type :=
| Returned (result : R)
| Conflict
| OperationRaised.
#[global] Arguments Returned {R} result.
#[global] Arguments Conflict {R}.
#[global] Arguments OperationRaised {R}.

Inductive call (R : Type) : Type :=
| Asking
| Locking
| Running
| Storing (result : R)
| Releasing (out : outcome R)
| Done (out : outcome R).
#[global] Arguments Asking {R}.
#[global] Arguments Locking {R}.
#[global] Arguments Running {R}.
#[global] Arguments Storing {R} result.
#[global] Arguments Releasing {R} out.
#[global] Arguments Done {R} out.

(** the two keys, the calls, and the world the operations act on *)
Record state (W R : Type) : Type := MkIdem {
  id_result : option R;
  id_lock : bool;
  id_calls : gmap nat (call R);
  id_world : W;
}.
#[global] Arguments MkIdem {W R} id_result id_lock id_calls id_world.
#[global] Arguments id_result {W R} s : rename.
#[global] Arguments id_lock {W R} s : rename.
#[global] Arguments id_calls {W R} s : rename.
#[global] Arguments id_world {W R} s : rename.
#[global] Instance state_settable {W R} : Settable (state W R) := λ s,
  MkIdem (id_result s) (id_lock s) (id_calls s) (id_world s).

Inductive op : Type := Call (c : nat) | Step (c : nat) | ResultExpires | LockExpires.

Section store.
Context {W R : Type} (operation : nat → W → option R * W).

(** the next command of [run], read from where the call stands *)
Definition run (c : nat) (s : state W R) : option (call R * state W R) :=
  match id_calls s !! c with
  | Some Asking =>
    match id_result s with
    | Some cached => Some (Done (Returned cached), s)
    | None => Some (Locking, s)
    end
  | Some Locking =>
    if id_lock s then Some (Done Conflict, s) else Some (Running, s <| id_lock := true |>)
  | Some Running =>
    match operation c (id_world s) with
    | (Some result, w) => Some (Storing result, s <| id_world := w |>)
    | (None, w) => Some (Releasing OperationRaised, s <| id_world := w |>)
    end
  | Some (Storing result) => Some (Releasing (Returned result), s <| id_result := Some result |>)
  | Some (Releasing out) => Some (Done out, s <| id_lock := false |>)
  | Some (Done _) | None => None
  end.

Definition turn (s : state W R) (o : op) : state W R :=
  match o with
  | Call c => if is_some (id_calls s !! c) then s else s <| id_calls ::= <[c := Asking]> |>
  | Step c =>
    match run c s with
    | Some (pc, s) => s <| id_calls ::= <[c := pc]> |>
    | None => s
    end
  | ResultExpires => s <| id_result := None |>
  | LockExpires => s <| id_lock := false |>
  end.

(** a call that holds the lock *)
Definition holds (pc : call R) : bool :=
  match pc with Running | Storing _ | Releasing _ => true | _ => false end.

Definition exclusive (s : state W R) : Prop :=
  ∀ c pc, id_calls s !! c = Some pc → holds pc = true →
  id_lock s = true ∧ ∀ c' pc', id_calls s !! c' = Some pc' → holds pc' = true → c' = c.

Lemma moved_exclusive s s' c pc pc' :
  exclusive s → id_calls s !! c = Some pc → id_calls s' = <[c := pc']> (id_calls s) →
  (holds pc' = true → id_lock s' = true ∧ (holds pc = true ∨ id_lock s = false)) →
  (holds pc = false → id_lock s = true → id_lock s' = true) → exclusive s'.
Proof.
  intros Hx Hc Hs' Hin Hout i x. rewrite Hs', lookup_insert_Some. intros [[<- <-]|[Hi Hx1]] Hh.
  - destruct (Hin Hh) as [Hl Hor]. split; [done|]. intros j y. rewrite lookup_insert_Some.
    intros [[<- <-]|[Hj Hy]] Hhy; [done|]. destruct (Hx _ _ Hy Hhy) as [Hly Huy].
    destruct Hor as [Hp|Hn]; [|congruence]. by rewrite (Huy _ _ Hc Hp).
  - destruct (Hx _ _ Hx1 Hh) as [Hl Hu].
    assert (holds pc = false) as Hp. { destruct (holds pc) eqn:E; [|done]. by destruct Hi; apply (Hu _ _ Hc). }
    split; [by apply Hout|]. intros j y. rewrite lookup_insert_Some. intros [[<- <-]|[Hj Hy]] Hhy; [|by eapply Hu].
    destruct (Hin Hhy) as [_ [?|?]]; congruence.
Qed.

(** While no lock expires, at most one call is between its lock and its release. *)
Lemma turn_exclusive s o : o ≠ LockExpires → exclusive s → exclusive (turn s o).
Proof.
  intros Ho Hx. destruct o as [c|c| |]; cbn; [| |exact Hx|done].
  - destruct (id_calls s !! c) eqn:Ec; cbn; [done|]. intros i pc. cbn. rewrite lookup_insert_Some.
    intros [[<- <-]|[Hne Hi]]; [done|]. intros Hh. destruct (Hx _ _ Hi Hh) as [Hl Hu]. split; [done|].
    intros j pc'. rewrite lookup_insert_Some. intros [[<- <-]|[_ Hj]]; [done|by apply Hu].
  - destruct (run c s) as [[pc' s']|] eqn:Hr; [|done]. unfold run in Hr.
    destruct (id_calls s !! c) as [pc|] eqn:Ec; [|done].
    assert (holds pc = true → id_lock s = true) as Hl by (intros Hh; exact (proj1 (Hx _ _ Ec Hh))).
    apply (moved_exclusive s _ c pc pc' Hx Ec); destruct pc; repeat (case_match; simplify_eq); cbn in *; naive_solver.
Qed.

(** Once a result is stored, and until it expires, a call that starts finds it:
    it never runs the operation and ends with a result. *)
Definition served (pc : option (call R)) : Prop :=
  match pc with None | Some Asking | Some (Done (Returned _)) => True | _ => False end.

Lemma stored_result_served h : ∀ s r, id_result s = Some r → ResultExpires ∉ h →
  ∀ c, served (id_calls s !! c) → served (id_calls (foldl turn s h) !! c).
Proof.
  induction h as [|o h IH]; intros s r Hr Hh c Hc; [done|]. cbn [foldl].
  apply not_elem_of_cons in Hh as [Ho Hh].
  assert (is_Some (id_result (turn s o)) ∧ served (id_calls (turn s o) !! c)) as [[r' Hr'] Hc'].
  { destruct o as [d|d| |]; cbn; [| |done|by eauto].
    - destruct (id_calls s !! d); cbn; [by eauto|]. split; [by eauto|]. rewrite lookup_insert. by case_decide.
    - destruct (run d s) as [[pc s']|] eqn:Ed; [|by eauto]. cbn. unfold run in Ed. rewrite Hr in Ed. rewrite lookup_insert.
      case_decide as E; [subst d|]; repeat (case_match; simplify_eq); cbn in *; eauto. }
  by apply (IH _ r').
Qed.
End store.

(** A call that missed the result takes the lock after another call has stored
    its result and released it: the operation runs twice. *)
Example ran_twice :
  let s := foldl (turn (λ c w, (Some c, w + 1))) (MkIdem None false ∅ 0)
    ([Call 0; Call 1; Step 0; Step 1] ++ replicate 4 (Step 1) ++ replicate 4 (Step 0)) in
  id_world s = 2 ∧ id_calls s !! 0%nat = Some (Done (Returned 0%nat)) ∧ id_calls s !! 1%nat = Some (Done (Returned 1%nat)).
Proof. vm_compute. done. Qed.
End IdempotencyStore.
